(* ===== verification/_CoqProject ===== *)
-Q . S2P
Prelude.v
Fmt.v
Util.v
Gsdml.v
Rt.v
Blocks.v
Rpc.v
Connect.v
Cyclic.v
Idle.v
Threads.v
Schedules.v
Interleave.v
Reentry.v
Alarms.v
AlarmListener.v
Listening.v
Dcp.v
Errors.v
Transport.v
RawUdp.v
RawSocket.v
Vendors.v
Lines.v
Commands.v
Control.v
Serve.v
Im.v
Diagnosis.v
Epm.v
Endpoints.v
Indices.v
Device.v
Takeover.v
Capture.v
Cli.v
Oneshot.v
Main.v
