(* ===== verification/Prelude.v ===== *)
(** * Verification of a PROFINET IO controller

    A model of the crate [profinet-rs] ([src/src/]) and the theorems that make
    its parts correct.  The program is an IO controller: it discovers devices
    (DCP over Ethernet), opens an application relationship with one of them
    (AR, over DCE/RPC), exchanges a process image with it cyclically (RT
    class 1), receives its alarms (RTA) and reads and writes records.

    ** Parts, files and how they interact

    - [Prelude] (this file): outcomes of Rust code, the error monad, byte and
      slice accesses that panic out of range, machine-width arithmetic, loops
      with a bound, and the rules and tactics the other files prove with.
    - [Fmt]: what the source uses of [core::fmt] and [str] on UTF-8 text.
    - [Util] ([util.rs]): MAC and IP text, 802.1Q tags, the Ethernet filter.
      Used by [Dcp] and [AlarmListener].
    - [Gsdml] ([gsdml.rs]): device descriptions over an abstract XML tree; its
      [IoSlot]s are the input of [Rt] and [Connect].
    - [Rt] ([rt.rs]): RT frames, the IOCR layout [build_iocr_configs], and
      [CyclicDataBuilder], the double-buffered process image.
    - [Blocks], [Rpc], [Connect] ([blocks.rs], [rpc.rs], [connect.rs]): the
      requests, down to the bytes.
    - [Transport] ([transport.rs]): the RPC parsers, the matching of responses
      to requests, and [RpcConn], the AR as a state with one operation per
      method, over the class [RpcTransport] (the trait of the same name).
      Statuses are rendered by [Errors].
    - [RawUdp] ([rawudp.rs] and [RawL2Transport] of [transport.rs]): UDP over
      raw Ethernet over the class [PacketSocket] (the capture), and the
      instance of [RpcTransport] the program uses.
    - [RawSocket] (the rest of [pcap.rs]): the capture socket over a class of
      libpcap's calls, and the interface's MAC and addresses.
    - [Endpoints] ([UdpTransport] and the constructors of [RpcConn], of
      [transport.rs]; [epm_lookup_udp]): the transport over two UDP sockets,
      the other instance of [RpcTransport], and when two transports are
      interchangeable under a connection.
    - [Cyclic] ([cyclic.rs]): the controller.  [Shared] is the state the two
      threads share; [rx_pass] and [tx_pass] are one iteration of the receive
      and of the transmit loop; [start], [stop], [drop_controller] and the
      accessors are the calls of the owner, each one action.  [Idle] has the
      lemmas on a controller nobody writes outputs to.
    - [Threads], [Schedules], [Interleave], [Reentry] ([cyclic.rs] again, at the grain of
      its locks): [Threads] gives the same operations as programs whose steps
      are the critical sections and atomic accesses, with the mutexes taken
      where the code takes them, and a scheduler for the two loops, the owner
      and any number of borrowers; a program run without interruption is the
      action of [Cyclic].  [Schedules] is a rely-guarantee logic for them and
      the laws of the four kinds of thread; [Interleave] has deadlock, the
      interleaved stop, and concrete schedules; [Reentry] lets the handlers of
      the callbacks call the controller they belong to.
    - [Alarms] ([alarms.rs]) and [AlarmListener] ([alarm_listener.rs]): alarm
      notifications; RTA frames, the sequencer of one priority, the window of
      acknowledged sends, and a pass of the listener thread.  [Listening] has
      the listener's thread, the lock of its callbacks and the calls on its
      handle as interleaved steps.
    - [Dcp] ([dcp.rs] and the discovery part of [pcap.rs]): frames, parsers,
      aggregation of answers, the choice of a source address.
    - [Errors] ([errors.rs]): PNIO status tables and decoding.
    - [Im], [Diagnosis], [Epm] ([im.rs], [diagnosis.rs], [epm.rs]): the record
      parsers, and the endpoint mapper's lookup over [RawUdp].
    - [Device] ([device.rs] and the typed reads of [RpcConn]): the device
      object, which opens and releases connections of [Transport] on demand.
      The openings are a list the model is given; every connection the object
      gave up stays in its state, so that theorems can account for it.
    - [Vendors], [Indices] ([vendors.rs], [indices.rs]): the tables and their
      lookups.
    - The service mode ([bin/profinet.rs]): [Lines], the JSON lines it emits;
      [Commands], the bounded reading of stdin and the parsing of a line;
      [Control], the command layer between a command and the output byte
      (allow mask, pulse shapers), and what a readback proves; [Takeover],
      the checks before the program takes the IO AR, the release of the old
      one, the start of the controller, and the arguments of [serve];
      [Serve], the session's loop with its dead-man and the commanded safe
      shutdown.  [Serve] runs over the class [World] (clock, stdin, the AR and
      the controller as the loop sees them), whose laws are the classes
      [WorldSafe] (calls return) and [WorldClock] (waits last); [Takeover]
      runs over [Transport], [Device] and [Cyclic] themselves, and gives the
      configuration a session of [Serve] starts from.
    - The other commands ([bin/profinet.rs], [capture_check.rs]): [Capture],
      whether this machine can capture; [Cli], the DCP commands and the choice
      of a device and of a source address; [Oneshot], the commands over an AR
      and the demonstration command [cyclic], in the monad [K] of [Takeover];
      [Main], the arguments, [run] with its guards and its dispatch, and the
      exit code.

    Definitions keep the source's names; a helper that translates a part of a
    function (a loop body, a branch) says so and lists the lines it models in
    the project's map.

    ** Conventions

    A byte is a [Z] in 0..255 ([byte_ok]), a word of w bits a [Z] below 2^w
    with the wrap-around written out ([as_u16], [wrap_add32], ...); only the
    64-bit statistics counters of [Cyclic.CyclicStats] are unbounded.
    Arithmetic that overflows wraps, as in a release build.  [Result] is
    [Ok]/[Err] with the error text; an index or slice out of range is [Panic];
    a loop that exhausted its bound is [OutOfFuel].  The bound of every loop
    is computed from its input (the bytes left, the items announced) and the
    totality theorems ([total], [safe]) exclude both [Panic] and [OutOfFuel],
    so no result below is conditional on enough fuel.  Time is an argument:
    clock readings and the number of receives before a deadline ([passes]) are
    inputs of the steps, arbitrary unless a theorem says otherwise.  Sockets,
    callbacks and random bytes are arguments too; callbacks record events.

    ** What the theorems show

    - The service mode: a cyclic session that leaves its loop goes through the
      commanded and verified safe shutdown, an acyclic one drives nothing and
      releases the AR, and the one other end is a panic of the command parser
      on a line received, behind which only the locals drop
      ([Serve.every_exit_is_commanded_safe]); nothing but authorised bits is
      ever driven ([session_drives_authorised]); the IO AR is taken over only
      behind the checks ([takeover_is_gated]), and wholly or not at all
      ([takeover_is_whole]); the dead-man fires ([deadman_fires]); requests
      are answered once and in order ([answers_match_requests]); commands and
      lines are read exactly ([Commands.commands_roundtrip],
      [stdin_line_by_line]); the command layer is bounded
      ([Control.shapers_bounded]) and a verification proves what it says
      ([verified_safe_is_exact]).
    - The whole program: no command line drives an output without consent,
      authorisation and a probe ([Main.outputs_need_consent]); a one-shot
      command leaves no AR and no controller behind
      ([commands_leave_nothing]); [--json] answers in one line or not at all
      ([json_one_line]); the demonstration command only ever sends zeros
      ([Oneshot.cyclic_only_listens]); a SET command reports the answer it
      heard to the one frame it sent ([Cli.set_command_answered]); a name
      resolves to the first device that answers to it
      ([resolve_device_first]); [capture-check] answers with a real attempt
      ([Capture.check_is_an_attempt]).
    - Cyclic exchange: a link that goes silent is FAULT after exactly the
      configured number of watchdog periods, and not before ([Cyclic.
      watchdog_escalation]); stopping sends only safe frames ([stop_is_safe]);
      received frames change the input image exactly as described
      ([input_frame_effect]); output writes are locked where they must be
      ([output_write_lock]); lost frames are counted across the wrap
      ([cycle_counter_gap]).
    - The controller's threads, under every schedule: no panic, the invariant,
      mutual exclusion ([Schedules.every_schedule_is_safe]); callbacks run with
      no lock held ([callbacks_run_unlocked]); no deadlock
      ([Interleave.no_schedule_deadlocks]), handlers that call back included
      ([Reentry.handlers_may_call_back]), except a handler that registers a
      safe output while it is told that one could not be applied, which blocks
      [stop] for ever ([error_handler_deadlocks_stop]); the STOP frames come last and carry
      the safe output ([stop_in_every_schedule]); the two models of a pass, as
      one action in [Cyclic] and as a program of lock sections in [Threads],
      agree where nothing interleaves ([passes_are_schedules]).  Three
      schedules that go wrong are run ([rx_death_at_start_unseen],
      [restarted_loop_outlives_stop], [safe_output_error_under_lock]).
    - Process image and layout: the builder implements a map with double
      buffering ([Rt.process_image_spec]), frames round-trip, and the layout
      announced to the device in the Connect request is the layout used
      ([Connect.connect_layout_agrees]).
    - AR and RPC: the wire trace of any sequence of calls
      ([Transport.connection_wire_trace]), the AR's state
      ([ar_state_machine]), the judgement of a Connect response
      ([connect_response_judged]), matching ([responses_are_matched]), the
      confirmation of ApplicationReady ([ccontrol_response_understood]),
      a whole call over raw Ethernet ([RawUdp.rpc_over_raw_ethernet]), the
      refinement of the two channels by the UDP sockets
      ([Endpoints.udp_refines_channels]), and that a capture's receive comes
      back ([RawSocket.raw_recv_returns]).
    - Device: every connection opened is accounted for and released
      ([Device.device_connections]); a refused AR is read around
      ([read_falls_back]); the records written ([im_records_written]).
    - Alarms: exactly-once acceptance in order; at most one delivery per frame,
      its AlarmAck queued on the channel its block names
      ([AlarmListener.handle_frame_spec]); the acknowledgment window, and the round trips of both layers; a removed
      callback never runs again ([Listening.removed_callback_is_silent]), a stop
      returns and ends everything ([listener_stop_returns]), a pass run without
      interruption is a schedule ([pass_is_schedule]), and what a callback's
      panic leaves behind ([callback_panic_is_final]).
    - DCP: round trip of Identify responses, whatever the order of their blocks
      ([Dcp.identify_response_roundtrip]), exactness of discovery
      ([discovery_exact]), requests as the device reads them
      ([set_request_understood]), ownership of answers, choice of the source.
    - Records: I&M, identification, diagnosis and endpoint mapper responses
      are read as a device lays them out, and truncated topology is refused.
    - Every parser of network input is total on arbitrary bytes.
    - Some theorems record behaviour that differs from what the source's
      comments say or mean; the project's findings name them.

    ** Not modelled

    The operating system and the libraries are arguments: what opening, reading
    and binding sockets give, libpcap, thread creation and sleeping, random
    bytes, environment variables, the XML parser, [serde_json]'s text encoding,
    and the parsing of the argument strings by [clap] ([Main.CliArgs] is what it
    yields).  The steps of the threads are sequentially consistent.  A callback
    is an event, and its handler the calls it makes ([Reentry]); the handlers of
    the alarm listener return or panic and call nothing.  [Debug] renderings,
    the getters of configuration fields, the constants nothing uses and the
    build script have no definition. *)

From Stdlib Require Export ZArith Lia ZifyBool Ascii String Sorted.
From stdpp Require Export base tactics numbers option list strings gmap.

#[global] Open Scope Z_scope.

(** ** Outcomes of Rust code

    [Ok]/[Err] are the two constructors of [Result<_, String>]; [Panic] is an
    out-of-range index or slice (the thread unwinds); [OutOfFuel] only arises
    from {!loop} and is excluded by every theorem that uses [wp]. *)
Inductive outcome (A : Type) : Type :=
| Ok (a : A)
| Err (e : string)
| Panic
| OutOfFuel.
Arguments Ok {A} _.
Arguments Err {A} _.
Arguments Panic {A}.
Arguments OutOfFuel {A}.

Declare Scope rust_scope.
Delimit Scope rust_scope with rust.
#[global] Open Scope rust_scope.

Definition bind {A B} (o : outcome A) (k : A -> outcome B) : outcome B :=
  match o with
  | Ok a => k a
  | Err e => Err e
  | Panic => Panic
  | OutOfFuel => OutOfFuel
  end.

(** [let? x := m in k] is Rust's [let x = m?; k]. *)
Notation "'let?' x := m 'in' k" := (bind m (fun x => k))
  (at level 10, x binder, m at level 100, k at level 200) : rust_scope.
Notation "'do?' m ; k" := (bind m (fun _ => k))
  (at level 10, m at level 100, k at level 200) : rust_scope.

Definition is_ok {A} (o : outcome A) : bool :=
  match o with Ok _ => true | _ => false end.

(** [r.ok()]: errors become [None]; a panic stays a panic. *)
Definition ok_ {A} (o : outcome A) : outcome (option A) :=
  match o with
  | Ok a => Ok (Some a)
  | Err _ => Ok None
  | Panic => Panic
  | OutOfFuel => OutOfFuel
  end.

(** [r.map_err(f)]. *)
Definition map_err {A} (f : string -> string) (o : outcome A) : outcome A :=
  match o with
  | Err e => Err (f e)
  | o => o
  end.

(** [opt.ok_or(e)] / [opt.ok_or_else(|| e)]. *)
Definition ok_or {A} (x : option A) (e : string) : outcome A :=
  match x with Some a => Ok a | None => Err e end.

(** ** Reasoning about outcomes

    [wp o P E]: [o] is reached without a panic and within its fuel, a result
    satisfies [P] and an error message satisfies [E]. *)
Definition wp {A} (o : outcome A) (P : A -> Prop) (E : string -> Prop) : Prop :=
  match o with
  | Ok a => P a
  | Err e => E e
  | Panic | OutOfFuel => False
  end.

(** Neither a panic nor an exhausted loop bound. *)
Definition safe {A} (o : outcome A) : Prop := wp o (fun _ => True) (fun _ => True).

(** A total function: it always produces a value. *)
Definition total {A} (o : outcome A) (P : A -> Prop) : Prop := wp o P (fun _ => False).

Lemma wp_bind {A B} (o : outcome A) (k : A -> outcome B) P E :
  wp o (fun a => wp (k a) P E) E -> wp (bind o k) P E.
Proof. destruct o; simpl; auto. Qed.

Lemma wp_mono {A} (o : outcome A) (P Q : A -> Prop) (E F : string -> Prop) :
  wp o P E -> (forall a, P a -> Q a) -> (forall e, E e -> F e) -> wp o Q F.
Proof. destruct o; simpl; auto. Qed.

#[global] Instance wp_proper {A} (o : outcome A) :
  Proper (pointwise_relation A impl ==> pointwise_relation string impl ==> impl) (wp o).
Proof. intros P Q HPQ E F HEF H. eapply wp_mono; eauto. Qed.

Lemma wp_safe {A} (o : outcome A) P E : wp o P E -> safe o.
Proof. destruct o; simpl; auto. Qed.

Lemma total_Ok {A} (o : outcome A) P : total o P -> exists a, o = Ok a /\ P a.
Proof. destruct o; simpl; intros H; try contradiction; eauto. Qed.

Lemma total_mono {A} (o : outcome A) (P Q : A -> Prop) :
  total o P -> (forall a, P a -> Q a) -> total o Q.
Proof. intros H HPQ. eapply wp_mono; eauto. Qed.

Lemma total_inv {A} (o : outcome A) (P Q : A -> Prop) :
  total o P -> (forall a, o = Ok a -> P a -> Q a) -> total o Q.
Proof. intros H HQ. destruct (total_Ok _ _ H) as (a & -> & HP). simpl. by apply HQ. Qed.

Lemma wp_Ok_inv {A} (o : outcome A) P E a : wp o P E -> o = Ok a -> P a.
Proof. intros H ->. exact H. Qed.

Lemma wp_bind_ok {A B} (o : outcome A) (k : A -> outcome B) P E (Q : A -> Prop) :
  wp o Q E -> (forall a, Q a -> wp (k a) P E) -> wp (bind o k) P E.
Proof. intros H1 H2. apply wp_bind. eapply wp_mono; eauto. Qed.

Lemma safe_ok_ {A} (o : outcome A) : safe o -> total (ok_ o) (fun _ => True).
Proof. destruct o; simpl; auto. Qed.

Lemma wp_map_err {A} (o : outcome A) f P E :
  wp o P (fun e => E (f e)) -> wp (map_err f o) P E.
Proof. destruct o; auto. Qed.

(** Inversion of a successful bind. *)
Lemma bind_Ok_inv {A B} (o : outcome A) (k : A -> outcome B) b :
  bind o k = Ok b -> exists a, o = Ok a /\ k a = Ok b.
Proof. destruct o; simpl; try discriminate; eauto. Qed.

(** ** Lists as Rust slices; [usize] as [Z] *)

Abbreviation len l := (Z.of_nat (length l)).

(** [s[i]]. *)
Definition idx {A} (l : list A) (i : Z) : outcome A :=
  if (0 <=? i) && (i <? len l) then
    match l !! Z.to_nat i with Some x => Ok x | None => Panic end
  else Panic.

(** [s[a..b]]. *)
Definition slice {A} (l : list A) (a b : Z) : outcome (list A) :=
  if (0 <=? a) && (a <=? b) && (b <=? len l) then
    Ok (take (Z.to_nat (b - a)) (drop (Z.to_nat a) l))
  else Panic.

(** [s[a..]]. *)
Definition slice_from {A} (l : list A) (a : Z) : outcome (list A) :=
  slice l a (len l).

(** [s.get(i)]. *)
Definition get {A} (l : list A) (i : Z) : option A :=
  if (0 <=? i) && (i <? len l) then l !! Z.to_nat i else None.

(** [s.get(a..b)]. *)
Definition get_range {A} (l : list A) (a b : Z) : option (list A) :=
  if (0 <=? a) && (a <=? b) && (b <=? len l) then
    Some (take (Z.to_nat (b - a)) (drop (Z.to_nat a) l))
  else None.

(** [s[i] = v]. *)
Definition set_idx {A} (l : list A) (i : Z) (v : A) : outcome (list A) :=
  if (0 <=? i) && (i <? len l) then Ok (<[Z.to_nat i := v]> l) else Panic.

(** [s[off..off + src.len()].copy_from_slice(src)]. *)
Definition splice {A} (l : list A) (off : Z) (src : list A) : outcome (list A) :=
  if (0 <=? off) && (off + len src <=? len l) then
    Ok (take (Z.to_nat off) l ++ src ++ drop (Z.to_nat (off + len src)) l)
  else Panic.

(** [vec![v; n]]. *)
Definition rep {A} (n : Z) (v : A) : list A := replicate (Z.to_nat n) v.

Lemma len_rep {A} n (v : A) : 0 <= n -> len (rep n v) = n.
Proof. intros. unfold rep. rewrite length_replicate. lia. Qed.

Lemma idx_spec {A} (l : list A) i :
  0 <= i -> idx l i = match l !! Z.to_nat i with Some x => Ok x | None => Panic end.
Proof.
  intros Hi. unfold idx. destruct (Z.ltb_spec i (len l)) as [H|H].
  - by replace (0 <=? i) with true by lia.
  - replace (0 <=? i) with true by lia. simpl.
    rewrite lookup_ge_None_2; [done | lia].
Qed.

Lemma idx_Some {A} (l : list A) i : 0 <= i < len l -> exists x, idx l i = Ok x /\ l !! Z.to_nat i = Some x.
Proof.
  intros Hi. rewrite idx_spec by lia.
  destruct (lookup_lt_is_Some_2 l (Z.to_nat i)) as [x Hx]; [lia|].
  rewrite Hx. eauto.
Qed.

Lemma wp_idx {A} (l : list A) i P E :
  0 <= i < len l -> (forall x, l !! Z.to_nat i = Some x -> P x) -> wp (idx l i) P E.
Proof. intros Hi HP. destruct (idx_Some l i Hi) as (x & -> & Hx). by apply HP. Qed.

Lemma slice_ok {A} (l : list A) a b :
  0 <= a <= b -> b <= len l ->
  slice l a b = Ok (take (Z.to_nat (b - a)) (drop (Z.to_nat a) l)).
Proof.
  intros. unfold slice.
  by replace ((0 <=? a) && (a <=? b) && (b <=? len l)) with true by lia.
Qed.

Lemma slice_length {A} (l r : list A) a b :
  slice l a b = Ok r -> len r = b - a /\ 0 <= a <= b /\ b <= len l.
Proof.
  unfold slice. destruct (_ && _ && _) eqn:Hb; [|discriminate].
  intros [= <-]. rewrite length_take, length_drop. lia.
Qed.

Lemma wp_slice {A} (l : list A) a b P E :
  0 <= a <= b -> b <= len l ->
  (forall r, slice l a b = Ok r -> len r = b - a -> P r) -> wp (slice l a b) P E.
Proof.
  intros Hab Hb HP. rewrite slice_ok by done. simpl. apply HP.
  - by rewrite slice_ok.
  - rewrite length_take, length_drop. lia.
Qed.

Lemma wp_slice_from {A} (l : list A) a P E :
  0 <= a <= len l ->
  (forall r, slice l a (len l) = Ok r -> len r = len l - a -> P r) -> wp (slice_from l a) P E.
Proof. intros. apply wp_slice; [lia|lia|auto]. Qed.

Lemma slice_from_ok {A} (l : list A) a :
  0 <= a <= len l -> slice_from l a = Ok (drop (Z.to_nat a) l).
Proof.
  intros. unfold slice_from. rewrite slice_ok by lia.
  rewrite take_ge; [done|]. rewrite length_drop. lia.
Qed.

Lemma slice_Forall {A} (Q : A -> Prop) (l r : list A) a b :
  Forall Q l -> slice l a b = Ok r -> Forall Q r.
Proof.
  intros Hl. unfold slice. destruct (_ && _ && _); [|discriminate].
  intros [= <-]. by apply Forall_take, Forall_drop.
Qed.

(** The bytes of the middle part of a concatenation. *)
Lemma slice_app_mid {A} (p m s : list A) a b :
  a = len p -> b = len p + len m -> slice (p ++ m ++ s) a b = Ok m.
Proof.
  intros -> ->. rewrite slice_ok; rewrite ?length_app; [|lia|lia].
  f_equal. rewrite drop_app_length' by lia. rewrite take_app_length'; [done|lia].
Qed.

Lemma slice_app_suffix {A} (p m : list A) a :
  a = len p -> slice_from (p ++ m) a = Ok m.
Proof.
  intros ->. rewrite slice_from_ok by (rewrite length_app; lia).
  by rewrite drop_app_length' by lia.
Qed.

Lemma slice_prefix {A} (p m : list A) b :
  b = len p -> slice (p ++ m) 0 b = Ok p.
Proof. intros ->. by apply (slice_app_mid [] p m). Qed.

Lemma wp_set_idx {A} (l : list A) i v P E :
  0 <= i < len l -> P (<[Z.to_nat i := v]> l) -> wp (set_idx l i v) P E.
Proof. intros Hi HP. unfold set_idx. by replace ((0 <=? i) && (i <? len l)) with true by lia. Qed.

Lemma splice_ok {A} (l : list A) off src :
  0 <= off -> off + len src <= len l ->
  splice l off src = Ok (take (Z.to_nat off) l ++ src ++ drop (Z.to_nat (off + len src)) l).
Proof.
  intros. unfold splice.
  by replace ((0 <=? off) && (off + len src <=? len l)) with true by lia.
Qed.

Lemma splice_length {A} (l r : list A) off src :
  splice l off src = Ok r -> len r = len l /\ 0 <= off /\ off + len src <= len l.
Proof.
  unfold splice. destruct (_ && _) eqn:Hb; [|discriminate].
  intros [= <-]. rewrite !length_app, length_take, length_drop. lia.
Qed.

(** What a splice wrote is read back by a slice of the same range. *)
Lemma slice_splice_same {A} (l r : list A) off src :
  splice l off src = Ok r -> slice r off (off + len src) = Ok src.
Proof.
  intros H. pose proof (splice_length _ _ _ _ H) as (_ & ? & ?).
  rewrite splice_ok in H by lia. injection H as <-.
  apply slice_app_mid; rewrite length_take; lia.
Qed.

(** A splice leaves every disjoint range alone. *)
Lemma slice_splice_other {A} (l r : list A) off src a b :
  splice l off src = Ok r -> 0 <= a <= b ->
  b <= off \/ off + len src <= a -> slice r a b = slice l a b.
Proof.
  intros H Hab Hd. pose proof (splice_length _ _ _ _ H) as (Hlen & ? & ?).
  unfold slice. rewrite Hlen.
  destruct (_ && _ && _) eqn:Hb; [|done]. f_equal.
  rewrite splice_ok in H by lia. injection H as <-.
  apply list_eq. intros i.
  destruct (decide (i < Z.to_nat (b - a))%nat) as [Hi|Hi];
    [|rewrite !lookup_take_ge by lia; done].
  rewrite !lookup_take_lt, !lookup_drop by lia.
  destruct Hd as [Hd|Hd].
  - rewrite lookup_app_l by (rewrite length_take; lia).
    by rewrite lookup_take_lt by lia.
  - rewrite app_assoc, lookup_app_r by (rewrite length_app, length_take; lia).
    rewrite lookup_drop. f_equal. rewrite length_app, length_take. lia.
Qed.

(** ** Bytes and machine integers *)

Definition byte_ok (b : Z) : Prop := 0 <= b < 256.
Definition u16_ok (v : Z) : Prop := 0 <= v < 65536.
Definition u32_ok (v : Z) : Prop := 0 <= v < 4294967296.
Definition bytes_ok (l : list Z) : Prop := Forall byte_ok l.

#[global] Instance byte_ok_dec b : Decision (byte_ok b).
Proof. unfold byte_ok. apply _. Defined.
#[global] Instance u16_ok_dec b : Decision (u16_ok b).
Proof. unfold u16_ok. apply _. Defined.
#[global] Instance u32_ok_dec b : Decision (u32_ok b).
Proof. unfold u32_ok. apply _. Defined.
#[global] Instance bytes_ok_dec l : Decision (bytes_ok l).
Proof. unfold bytes_ok. apply _. Defined.

(** Casts ([as u8], ...) and the wrapping arithmetic of a release build. *)
Definition as_u8 (v : Z) : Z := v mod 256.
Definition as_u16 (v : Z) : Z := v mod 65536.
Definition as_u32 (v : Z) : Z := v mod 4294967296.
Definition wrap_add16 (a b : Z) : Z := (a + b) mod 65536.
Definition wrap_sub16 (a b : Z) : Z := (a - b) mod 65536.
Definition wrap_add32 (a b : Z) : Z := (a + b) mod 4294967296.
(** [usize::saturating_sub] and friends. *)
Definition sat_sub (a b : Z) : Z := Z.max 0 (a - b).

(** [u16::from_be_bytes], [u16::from_le_bytes], ... *)
Definition be16 (a b : Z) : Z := a * 256 + b.
Definition le16 (a b : Z) : Z := b * 256 + a.
Definition be32 (a b c d : Z) : Z := ((a * 256 + b) * 256 + c) * 256 + d.
Definition le32 (a b c d : Z) : Z := be32 d c b a.

(** [v.to_be_bytes()], [v.to_le_bytes()]. *)
Definition be16_bytes (v : Z) : list Z := [v / 256 mod 256; v mod 256].
Definition le16_bytes (v : Z) : list Z := [v mod 256; v / 256 mod 256].
Definition be32_bytes (v : Z) : list Z :=
  [v / 16777216 mod 256; v / 65536 mod 256; v / 256 mod 256; v mod 256].
Definition le32_bytes (v : Z) : list Z :=
  [v mod 256; v / 256 mod 256; v / 65536 mod 256; v / 16777216 mod 256].

Ltac zdiv := Z.div_mod_to_equations; lia.

Lemma be16_be16_bytes v : u16_ok v -> be16 (v / 256 mod 256) (v mod 256) = v.
Proof. unfold u16_ok, be16. intros. zdiv. Qed.
Lemma le16_le16_bytes v : u16_ok v -> le16 (v mod 256) (v / 256 mod 256) = v.
Proof. unfold u16_ok, le16. intros. zdiv. Qed.
Lemma be32_be32_bytes v :
  u32_ok v -> be32 (v / 16777216 mod 256) (v / 65536 mod 256) (v / 256 mod 256) (v mod 256) = v.
Proof. unfold u32_ok, be32. intros. zdiv. Qed.
Lemma le32_le32_bytes v :
  u32_ok v -> le32 (v mod 256) (v / 256 mod 256) (v / 65536 mod 256) (v / 16777216 mod 256) = v.
Proof. unfold le32. apply be32_be32_bytes. Qed.

Lemma byte_ok_mod v : byte_ok (v mod 256).
Proof. unfold byte_ok. apply Z.mod_pos_bound. lia. Qed.
Lemma bytes_ok_be16 v : bytes_ok (be16_bytes v).
Proof. repeat constructor; apply byte_ok_mod. Qed.
Lemma bytes_ok_le16 v : bytes_ok (le16_bytes v).
Proof. repeat constructor; apply byte_ok_mod. Qed.
Lemma bytes_ok_be32 v : bytes_ok (be32_bytes v).
Proof. repeat constructor; apply byte_ok_mod. Qed.
Lemma bytes_ok_le32 v : bytes_ok (le32_bytes v).
Proof. repeat constructor; apply byte_ok_mod. Qed.
Lemma be16_ok a b : byte_ok a -> byte_ok b -> u16_ok (be16 a b).
Proof. unfold byte_ok, u16_ok, be16. lia. Qed.
Lemma le16_ok a b : byte_ok a -> byte_ok b -> u16_ok (le16 a b).
Proof. unfold byte_ok, u16_ok, le16. lia. Qed.
Lemma be32_ok a b c d : byte_ok a -> byte_ok b -> byte_ok c -> byte_ok d -> u32_ok (be32 a b c d).
Proof. unfold byte_ok, u32_ok, be32. lia. Qed.
Lemma le32_ok a b c d : byte_ok a -> byte_ok b -> byte_ok c -> byte_ok d -> u32_ok (le32 a b c d).
Proof. unfold le32. intros. by apply be32_ok. Qed.
Lemma as_u8_ok v : byte_ok (as_u8 v).
Proof. apply byte_ok_mod. Qed.
Lemma as_u16_ok v : u16_ok (as_u16 v).
Proof. unfold u16_ok, as_u16. apply Z.mod_pos_bound. lia. Qed.
Lemma as_u16_id v : u16_ok v -> as_u16 v = v.
Proof. unfold u16_ok, as_u16. intros. by apply Z.mod_small. Qed.
Lemma as_u8_id v : byte_ok v -> as_u8 v = v.
Proof. unfold byte_ok, as_u8. intros. by apply Z.mod_small. Qed.
Lemma as_u32_id v : u32_ok v -> as_u32 v = v.
Proof. unfold u32_ok, as_u32. intros. by apply Z.mod_small. Qed.

(** Fields read at an offset: [u16::from_be_bytes([d[o], d[o + 1]])], ... *)
Definition rd_be16 (d : list Z) (o : Z) : outcome Z :=
  let? a := idx d o in let? b := idx d (o + 1) in Ok (be16 a b).
Definition rd_le16 (d : list Z) (o : Z) : outcome Z :=
  let? a := idx d o in let? b := idx d (o + 1) in Ok (le16 a b).
Definition rd_be32 (d : list Z) (o : Z) : outcome Z :=
  let? a := idx d o in let? b := idx d (o + 1) in
  let? c := idx d (o + 2) in let? e := idx d (o + 3) in Ok (be32 a b c e).
Definition rd_le32 (d : list Z) (o : Z) : outcome Z :=
  let? a := idx d o in let? b := idx d (o + 1) in
  let? c := idx d (o + 2) in let? e := idx d (o + 3) in Ok (le32 a b c e).

Lemma wp_idx_byte d o P E :
  0 <= o < len d -> (forall v, (bytes_ok d -> byte_ok v) -> P v) -> wp (idx d o) P E.
Proof.
  intros Ho HP. apply wp_idx; [lia|]. intros x Hx. apply HP. intros Hd.
  by eapply Forall_lookup_1.
Qed.

Lemma wp_rd_be16 d o P E :
  0 <= o -> o + 2 <= len d -> (forall v, (bytes_ok d -> u16_ok v) -> P v) -> wp (rd_be16 d o) P E.
Proof.
  intros ? ? HP. apply wp_bind, wp_idx_byte; [lia|]. intros a Ha.
  apply wp_bind, wp_idx_byte; [lia|]. intros b Hb.
  apply HP. intros. apply be16_ok; auto.
Qed.
Lemma wp_rd_le16 d o P E :
  0 <= o -> o + 2 <= len d -> (forall v, (bytes_ok d -> u16_ok v) -> P v) -> wp (rd_le16 d o) P E.
Proof.
  intros ? ? HP. apply wp_bind, wp_idx_byte; [lia|]. intros a Ha.
  apply wp_bind, wp_idx_byte; [lia|]. intros b Hb.
  apply HP. intros. apply le16_ok; auto.
Qed.
Lemma wp_rd_be32 d o P E :
  0 <= o -> o + 4 <= len d -> (forall v, (bytes_ok d -> u32_ok v) -> P v) -> wp (rd_be32 d o) P E.
Proof.
  intros ? ? HP. do 4 (apply wp_bind, wp_idx_byte; [lia|]; intros ? ?).
  apply HP. intros. apply be32_ok; auto.
Qed.
Lemma wp_rd_le32 d o P E :
  0 <= o -> o + 4 <= len d -> (forall v, (bytes_ok d -> u32_ok v) -> P v) -> wp (rd_le32 d o) P E.
Proof.
  intros ? ? HP. do 4 (apply wp_bind, wp_idx_byte; [lia|]; intros ? ?).
  apply HP. intros. apply le32_ok; auto.
Qed.

(** ** Loops *)

(** One pass through the body of a [while]/[loop]/[for]: go on with a new loop
    state, or leave it with a value. *)
Inductive step (S A : Type) : Type :=
| Continue (s : S)
| Break (a : A).
Arguments Continue {S A} _.
Arguments Break {S A} _.

Fixpoint loop {S A} (fuel : nat) (body : S -> outcome (step S A)) (s : S) : outcome A :=
  match fuel with
  | O => OutOfFuel
  | Datatypes.S n =>
      match body s with
      | Ok (Continue s') => loop n body s'
      | Ok (Break a) => Ok a
      | Err e => Err e
      | Panic => Panic
      | OutOfFuel => OutOfFuel
      end
  end.

(** The total-correctness rule: an invariant, and a measure below the fuel
    that every pass which does not leave the loop decreases. *)
Lemma wp_loop {S A} (I : S -> Prop) (m : S -> nat) (body : S -> outcome (step S A)) P E :
  (forall s, I s ->
     wp (body s) (fun r => match r with
                           | Continue s' => I s' /\ (m s' < m s)%nat
                           | Break a => P a
                           end) E) ->
  forall fuel s, I s -> (m s < fuel)%nat -> wp (loop fuel body s) P E.
Proof.
  intros Hbody. induction fuel as [|n IH]; intros s Hs Hm; [lia|].
  simpl. specialize (Hbody s Hs).
  destruct (body s) as [[s'|a]|e| |]; simpl in *; auto.
  apply IH; [tauto | lia].
Qed.

(** A loop unrolls. *)
Lemma loop_S {S A} n (body : S -> outcome (step S A)) s :
  loop (Datatypes.S n) body s =
  match body s with
  | Ok (Continue s') => loop n body s'
  | Ok (Break a) => Ok a
  | Err e => Err e
  | Panic => Panic
  | OutOfFuel => OutOfFuel
  end.
Proof. done. Qed.

(** [for x in l] with an accumulator, a fallible body and no early exit. *)
Fixpoint for_each {X S} (l : list X) (body : X -> S -> outcome S) (s : S) : outcome S :=
  match l with
  | [] => Ok s
  | x :: l => let? s' := body x s in for_each l body s'
  end.

Lemma wp_for_each {X S} (I : S -> Prop) (l : list X) body E s :
  I s -> (forall x s, x ∈ l -> I s -> wp (body x s) I E) -> wp (for_each l body s) I E.
Proof.
  revert s. induction l as [|x l IH]; intros s Hs Hb; simpl; [done|].
  eapply wp_bind_ok; [apply Hb; [set_solver|done]|].
  intros a Ha. apply IH; [done|]. intros. apply Hb; [set_solver|done].
Qed.

(** [for _ in 0..n] over a state, left early by [Break]. *)
Fixpoint for_count {S} (n : nat) (body : S -> outcome (step S S)) (s : S) : outcome S :=
  match n with
  | O => Ok s
  | Datatypes.S n =>
      let? r := body s in
      match r with Continue s => for_count n body s | Break s => Ok s end
  end.

Lemma wp_for_count {S} (I : S -> Prop) n (body : S -> outcome (step S S)) E s :
  I s -> (forall s, I s -> wp (body s) (fun r => match r with Continue s' | Break s' => I s' end) E) ->
  wp (for_count n body s) I E.
Proof.
  intros Hs Hb. revert s Hs. induction n as [|n IH]; intros s Hs; simpl; [done|].
  eapply wp_bind_ok; [apply Hb, Hs|]. intros [s'|s'] Hs'; [by apply IH|done].
Qed.

(** [l.iter().map(f).collect::<Result<_, _>>()]. *)
Definition map_result {X Y} (f : X -> outcome Y) (l : list X) : outcome (list Y) :=
  foldr (fun x r => let? y := f x in let? ys := r in Ok (y :: ys)) (Ok []) l.

(** ** [BTreeMap<u16, V>]: entries by ascending key *)

Definition btree (V : Type) := list (Z * V).

Fixpoint bt_insert {V} (k : Z) (v : V) (m : btree V) : btree V :=
  match m with
  | [] => [(k, v)]
  | (k', v') :: m' =>
      if k <? k' then (k, v) :: m
      else if k =? k' then (k, v) :: m'
      else (k', v') :: bt_insert k v m'
  end.

Fixpoint bt_get {V} (k : Z) (m : btree V) : option V :=
  match m with
  | [] => None
  | (k', v) :: m' => if k =? k' then Some v else bt_get k m'
  end.

(** [iter.collect::<BTreeMap<_, _>>()]: later entries replace earlier ones. *)
Definition bt_collect {V} (l : list (Z * V)) : btree V :=
  foldl (fun m kv => bt_insert (fst kv) (snd kv) m) [] l.

Definition bt_sorted {V} (m : btree V) : Prop := Sorted.StronglySorted Z.lt (fst <$> m).

Lemma bt_insert_keys {V} k (v : V) m k' :
  k' ∈ (fst <$> bt_insert k v m) <-> k' = k \/ k' ∈ (fst <$> m).
Proof.
  induction m as [|[a w] m IH]; cbn [bt_insert].
  - cbn. set_solver.
  - destruct (k <? a) eqn:H1; [cbn; set_solver|].
    destruct (k =? a) eqn:H2; cbn [fmap list_fmap fst].
    + assert (k = a) as -> by lia. set_solver.
    + set_solver.
Qed.

Lemma bt_insert_sorted {V} k (v : V) m : bt_sorted m -> bt_sorted (bt_insert k v m).
Proof.
  unfold bt_sorted. induction m as [|[a w] m IH]; cbn [bt_insert]; intros Hs.
  - repeat constructor.
  - cbn in Hs. apply Sorted.StronglySorted_inv in Hs as [Hs Ha].
    destruct (k <? a) eqn:H1; [|destruct (k =? a) eqn:H2]; cbn [fmap list_fmap fst].
    + constructor; [by constructor|]. constructor; [lia|].
      eapply Forall_impl; [exact Ha|]. simpl. lia.
    + assert (k = a) as -> by lia. by constructor.
    + constructor; [by apply IH|]. apply Forall_forall. intros x Hx.
      apply bt_insert_keys in Hx as [->|Hx]; [lia|].
      by apply (Forall_forall (Z.lt a) (fst <$> m)).
Qed.

Lemma bt_collect_sorted {V} (l : list (Z * V)) : bt_sorted (bt_collect l).
Proof.
  unfold bt_collect. assert (H : bt_sorted (@nil (Z * V))) by constructor.
  revert H. generalize (@nil (Z * V)). induction l as [|x l IH]; simpl; [done|].
  intros m Hm. by apply IH, bt_insert_sorted.
Qed.

(** ** Automation *)

Create HintDb rust.
Create Rewrite HintDb len.
#[export] Hint Resolve byte_ok_mod bytes_ok_be16 bytes_ok_le16 bytes_ok_be32 bytes_ok_le32
  be16_ok le16_ok be32_ok le32_ok as_u8_ok as_u16_ok : rust.
#[export] Hint Rewrite @length_app @length_cons @length_take @length_drop @length_replicate
  @length_insert @length_map @length_nil : len.

(** Solves the range side conditions of reads and slices. *)
Ltac range := autorewrite with len in *; unfold byte_ok, u16_ok, u32_ok, as_u16, as_u8, as_u32, sat_sub in *; lia.

(** One step of symbolic execution of an outcome. *)
Ltac wp_step :=
  lazymatch goal with
  | |- wp (Ok _) _ _ => cbn [wp]
  | |- wp (Err _) _ _ => cbn [wp]
  | |- wp (bind _ _) _ _ => apply wp_bind
  | |- wp (idx _ _) _ _ => first [apply wp_idx_byte | apply wp_idx]; [lia | intros ? ?]
  | |- wp (rd_be16 _ _) _ _ => apply wp_rd_be16; [lia | lia | intros ? ?]
  | |- wp (rd_le16 _ _) _ _ => apply wp_rd_le16; [lia | lia | intros ? ?]
  | |- wp (rd_be32 _ _) _ _ => apply wp_rd_be32; [lia | lia | intros ? ?]
  | |- wp (rd_le32 _ _) _ _ => apply wp_rd_le32; [lia | lia | intros ? ?]
  | |- wp (slice _ _ _) _ _ => apply wp_slice; [lia | lia | intros ? ? ?]
  | |- wp (slice_from _ _) _ _ => apply wp_slice_from; [lia | intros ? ? ?]
  | |- wp (let (_, _) := ?p in _) _ _ => destruct p as [? ?] eqn:?
  | |- wp (if ?b then _ else _) _ _ => destruct b eqn:?
  | |- wp (match ?x with _ => _ end) _ _ => destruct x eqn:?
  | |- safe _ => unfold safe
  | |- total _ _ => unfold total
  end.
Ltac wp_auto := repeat wp_step.

(** Symbolic execution of a reader on a list whose front is literal: each read
    at a literal offset is looked up, a field written by [be16_bytes] and the
    like comes back as the value itself when [auto] knows its range. *)
Lemma bind_step {A B} (o : outcome A) (k : A -> outcome B) a r :
  o = Ok a -> k a = r -> bind o k = r.
Proof. by intros -> <-. Qed.

Lemma idx_at {A} (l : list A) o n x : o = Z.of_nat n -> l !! n = Some x -> idx l o = Ok x.
Proof. intros -> Hx. rewrite idx_spec by lia. by rewrite Nat2Z.id, Hx. Qed.

Lemma rd_be16_at l o n a b :
  o = Z.of_nat n -> l !! n = Some a -> l !! S n = Some b -> rd_be16 l o = Ok (be16 a b).
Proof. intros Ho Ha Hb. unfold rd_be16. by rewrite (idx_at _ o n a), (idx_at _ _ (S n) b) by (lia || done). Qed.
Lemma rd_le16_at l o n a b :
  o = Z.of_nat n -> l !! n = Some a -> l !! S n = Some b -> rd_le16 l o = Ok (le16 a b).
Proof. intros Ho Ha Hb. unfold rd_le16. by rewrite (idx_at _ o n a), (idx_at _ _ (S n) b) by (lia || done). Qed.
Lemma rd_be32_at l o n a b c d :
  o = Z.of_nat n -> l !! n = Some a -> l !! S n = Some b -> l !! S (S n) = Some c ->
  l !! S (S (S n)) = Some d -> rd_be32 l o = Ok (be32 a b c d).
Proof.
  intros Ho Ha Hb Hc Hd. unfold rd_be32.
  by rewrite (idx_at _ o n a), (idx_at _ _ (S n) b), (idx_at _ _ (S (S n)) c),
    (idx_at _ _ (S (S (S n))) d) by (lia || done).
Qed.
Lemma rd_le32_at l o n a b c d :
  o = Z.of_nat n -> l !! n = Some a -> l !! S n = Some b -> l !! S (S n) = Some c ->
  l !! S (S (S n)) = Some d -> rd_le32 l o = Ok (le32 a b c d).
Proof.
  intros Ho Ha Hb Hc Hd. unfold rd_le32.
  by rewrite (idx_at _ o n a), (idx_at _ _ (S n) b), (idx_at _ _ (S (S n)) c),
    (idx_at _ _ (S (S (S n))) d) by (lia || done).
Qed.
Lemma rd_be16_word l o n v :
  o = Z.of_nat n -> l !! n = Some (v / 256 mod 256) -> l !! S n = Some (v mod 256) ->
  u16_ok v -> rd_be16 l o = Ok v.
Proof. intros. erewrite rd_be16_at by eassumption. by rewrite be16_be16_bytes. Qed.
Lemma rd_le16_word l o n v :
  o = Z.of_nat n -> l !! n = Some (v mod 256) -> l !! S n = Some (v / 256 mod 256) ->
  u16_ok v -> rd_le16 l o = Ok v.
Proof. intros. erewrite rd_le16_at by eassumption. by rewrite le16_le16_bytes. Qed.
Lemma rd_be32_word l o n v :
  o = Z.of_nat n -> l !! n = Some (v / 16777216 mod 256) -> l !! S n = Some (v / 65536 mod 256) ->
  l !! S (S n) = Some (v / 256 mod 256) -> l !! S (S (S n)) = Some (v mod 256) ->
  u32_ok v -> rd_be32 l o = Ok v.
Proof. intros. erewrite rd_be32_at by eassumption. by rewrite be32_be32_bytes. Qed.
Lemma rd_le32_word l o n v :
  o = Z.of_nat n -> l !! n = Some (v mod 256) -> l !! S n = Some (v / 256 mod 256) ->
  l !! S (S n) = Some (v / 65536 mod 256) -> l !! S (S (S n)) = Some (v / 16777216 mod 256) ->
  u32_ok v -> rd_le32 l o = Ok v.
Proof. intros. erewrite rd_le32_at by eassumption. by rewrite le32_le32_bytes. Qed.

(** [drop] and [take] behind a literal front. *)
Lemma slice_at {A} (l f m s : list A) a b :
  l = f ++ m ++ s -> a = len f -> b = len f + len m -> slice l a b = Ok m.
Proof. intros ->. apply slice_app_mid. Qed.
Lemma slice_from_at {A} (l f m : list A) a : l = f ++ m -> a = len f -> slice_from l a = Ok m.
Proof. intros ->. apply slice_app_suffix. Qed.

Lemma slice_from_drop {A} (l m : list A) o n :
  o = Z.of_nat n -> drop n l = m -> (n <= length l)%nat -> slice_from l o = Ok m.
Proof. intros -> <- Hn. rewrite slice_from_ok by lia. by rewrite Nat2Z.id. Qed.

Ltac u_range := solve [auto with rust | unfold byte_ok, u16_ok, u32_ok in *; lia].
Ltac lit_at lem1 lem2 o :=
  let n := eval vm_compute in (Z.to_nat o) in
  first [ eapply (lem1 _ _ n); [lia | reflexivity.. | u_range]
        | eapply (lem2 _ _ n); [lia | reflexivity..] ].
Ltac lit_read :=
  lazymatch goal with
  | |- idx _ ?o = _ =>
      let n := eval vm_compute in (Z.to_nat o) in eapply (idx_at _ _ n); [lia | reflexivity]
  | |- slice_from _ ?o = _ =>
      let n := eval vm_compute in (Z.to_nat o) in
      eapply (slice_from_drop _ _ _ n); [lia | cbn [drop]; rewrite ?drop_0; reflexivity | simpl; lia]
  | |- rd_be16 _ ?o = _ => lit_at rd_be16_word rd_be16_at o
  | |- rd_le16 _ ?o = _ => lit_at rd_le16_word rd_le16_at o
  | |- rd_be32 _ ?o = _ => lit_at rd_be32_word rd_be32_at o
  | |- rd_le32 _ ?o = _ => lit_at rd_le32_word rd_le32_at o
  end.
Ltac lit_step := eapply bind_step; [lit_read | cbv beta].
(** A condition that is decided by literals. *)
Ltac eval_if :=
  match goal with
  | |- (if ?b then _ else _) = _ =>
      let v := eval vm_compute in b in
      lazymatch v with true => idtac | false => idtac end;
      change b with v; cbv iota
  end.

(** The same behind a prefix of known length: a read at [len p + c] of
    [p ++ q] is the read at [c] of [q]. *)
Lemma idx_skip {A} (p q : list A) e c v :
  e = len p + c -> 0 <= c -> idx q c = Ok v -> idx (p ++ q) e = Ok v.
Proof.
  intros -> Hc. rewrite !idx_spec by lia. rewrite lookup_app_r by lia.
  by replace (Z.to_nat (len p + c) - length p)%nat with (Z.to_nat c) by lia.
Qed.

Lemma rd_be16_skip p q e c v :
  e = len p + c -> 0 <= c -> rd_be16 q c = Ok v -> rd_be16 (p ++ q) e = Ok v.
Proof.
  intros -> Hc (a & Ha & (b & Hb & H)%bind_Ok_inv)%bind_Ok_inv. unfold rd_be16.
  rewrite (idx_skip p q _ c a), (idx_skip p q _ (c + 1) b) by (done || lia). done.
Qed.

Lemma rd_le16_skip p q e c v :
  e = len p + c -> 0 <= c -> rd_le16 q c = Ok v -> rd_le16 (p ++ q) e = Ok v.
Proof.
  intros -> Hc (a & Ha & (b & Hb & H)%bind_Ok_inv)%bind_Ok_inv. unfold rd_le16.
  rewrite (idx_skip p q _ c a), (idx_skip p q _ (c + 1) b) by (done || lia). done.
Qed.

Lemma rd_be32_skip p q e c v :
  e = len p + c -> 0 <= c -> rd_be32 q c = Ok v -> rd_be32 (p ++ q) e = Ok v.
Proof.
  intros -> Hc (a & Ha & (b & Hb & (x & Hx & (y & Hy & H)%bind_Ok_inv)%bind_Ok_inv)%bind_Ok_inv)%bind_Ok_inv.
  unfold rd_be32.
  rewrite (idx_skip p q _ c a), (idx_skip p q _ (c + 1) b), (idx_skip p q _ (c + 2) x),
    (idx_skip p q _ (c + 3) y) by (done || lia). done.
Qed.

Lemma rd_le32_skip p q e c v :
  e = len p + c -> 0 <= c -> rd_le32 q c = Ok v -> rd_le32 (p ++ q) e = Ok v.
Proof.
  intros -> Hc (a & Ha & (b & Hb & (x & Hx & (y & Hy & H)%bind_Ok_inv)%bind_Ok_inv)%bind_Ok_inv)%bind_Ok_inv.
  unfold rd_le32.
  rewrite (idx_skip p q _ c a), (idx_skip p q _ (c + 1) b), (idx_skip p q _ (c + 2) x),
    (idx_skip p q _ (c + 3) y) by (done || lia). done.
Qed.

Lemma slice_from_skip {A} (p q : list A) e c r :
  e = len p + c -> 0 <= c -> slice_from q c = Ok r -> slice_from (p ++ q) e = Ok r.
Proof.
  intros -> Hc H. pose proof (slice_length _ _ _ _ H) as (_ & _ & _).
  unfold slice_from, slice in H. destruct ((0 <=? c) && (c <=? len q) && (len q <=? len q)) eqn:E; [|done].
  rewrite slice_from_ok by (rewrite length_app; lia).
  rewrite take_ge in H by (rewrite length_drop; lia). injection H as <-.
  rewrite drop_app_ge by lia.
  by replace (Z.to_nat (len p + c) - length p)%nat with (Z.to_nat c) by lia.
Qed.

(** The literal part of an offset. *)
Ltac offs e :=
  lazymatch e with
  | (?a + ?b)%Z => let x := offs a in let y := offs b in eval vm_compute in (x + y)%Z
  | Z0 => e
  | Zpos _ => e
  | _ => constr:(0%Z)
  end.
Ltac skip_read :=
  lazymatch goal with
  | |- rd_be16 (?p ++ ?q) ?e = _ => let c := offs e in eapply (rd_be16_skip p q e c); [lia | lia | lit_read]
  | |- rd_le16 (?p ++ ?q) ?e = _ => let c := offs e in eapply (rd_le16_skip p q e c); [lia | lia | lit_read]
  | |- rd_be32 (?p ++ ?q) ?e = _ => let c := offs e in eapply (rd_be32_skip p q e c); [lia | lia | lit_read]
  | |- rd_le32 (?p ++ ?q) ?e = _ => let c := offs e in eapply (rd_le32_skip p q e c); [lia | lia | lit_read]
  | |- idx (?p ++ ?q) ?e = _ => let c := offs e in eapply (idx_skip p q e c); [lia | lia | lit_read]
  | |- slice_from (?p ++ ?q) ?e = _ => let c := offs e in eapply (slice_from_skip p q e c); [lia | lia | lit_read]
  end.
Ltac skip_step := eapply bind_step; [skip_read | cbv beta].
(** A length check that passes. *)
Ltac len_ok :=
  match goal with
  | |- (if ?a <? ?b then _ else _) = _ =>
      replace (a <? b) with false by (symmetry; apply Z.ltb_ge; rewrite ?length_app; simpl length; lia)
  end.

(** ** Lists of known length, prefixes *)

Lemma list_split4 {A} (l : list A) : length l = 4%nat -> exists a b c d, l = [a; b; c; d].
Proof. destruct l as [|a [|b [|c [|d [|]]]]]; try done. eauto. Qed.

Lemma list_split16 {A} (l : list A) : length l = 16%nat ->
  exists a0 a1 a2 a3 a4 a5 a6 a7 a8 a9 a10 a11 a12 a13 a14 a15,
    l = [a0; a1; a2; a3; a4; a5; a6; a7; a8; a9; a10; a11; a12; a13; a14; a15].
Proof.
  do 16 (destruct l as [|? l]; [done|]). destruct l; [|done]. intros _. repeat eexists.
Qed.

(** A string of [n] bytes. *)
Definition octets (n : Z) (l : list Z) : Prop := len l = n /\ bytes_ok l.

Lemma bytes_ok_1 b : byte_ok b -> bytes_ok [b].
Proof. intros Hb. by constructor. Qed.
Lemma bytes_ok_app l1 l2 : bytes_ok l1 -> bytes_ok l2 -> bytes_ok (l1 ++ l2).
Proof. intros. by apply Forall_app. Qed.

Lemma slice_skip {A} (f q : list A) a b : 0 <= a -> slice (f ++ q) (len f + a) (len f + b) = slice q a b.
Proof.
  intros Ha. unfold slice. rewrite length_app.
  replace ((0 <=? len f + a) && (len f + a <=? len f + b) && (len f + b <=? Z.of_nat (length f + length q)))
    with ((0 <=? a) && (a <=? b) && (b <=? len q)) by lia.
  destruct (_ && _); [|done]. rewrite drop_app_ge by lia. do 3 f_equal; lia.
Qed.
