(* ===== verification/Fmt.v ===== *)
(** * Text: the formatting and parsing of [core::fmt] and [str]

    Text is a Coq [string] whose characters are the bytes of the UTF-8
    encoding.  Format specifiers are functions: [{n}] is [dec n], [{b:02x}] is
    [hexl 2 b], [{v:04X}] is [hexu 4 v], [{s:?}] is [debug_str s]. *)

From S2P Require Import Prelude.

#[local] Open Scope string_scope.
#[local] Open Scope list_scope.
#[local] Open Scope Z_scope.

(** ** Characters *)

Definition chr (b : Z) : ascii := ascii_of_N (Z.to_N (b mod 256)).
Definition ord (c : ascii) : Z := Z.of_N (N_of_ascii c).

Lemma chr_ord c : chr (ord c) = c.
Proof.
  unfold chr, ord. rewrite Z.mod_small.
  - rewrite N2Z.id. apply ascii_N_embedding.
  - pose proof (N_ascii_bounded c). lia.
Qed.

Lemma ord_chr b : byte_ok b -> ord (chr b) = b.
Proof.
  unfold byte_ok, chr, ord. intros. rewrite Z.mod_small by done.
  rewrite N_ascii_embedding by lia. lia.
Qed.

Lemma ord_range c : byte_ok (ord c).
Proof. unfold byte_ok, ord. pose proof (N_ascii_bounded c). lia. Qed.

(** [s.as_bytes()] and its inverse. *)
Definition str_bytes (s : string) : list Z := ord <$> String.list_ascii_of_string s.
Definition bytes_str (l : list Z) : string := String.string_of_list_ascii (chr <$> l).

Lemma bytes_str_bytes s : bytes_str (str_bytes s) = s.
Proof.
  unfold bytes_str, str_bytes. rewrite <- list_fmap_compose.
  rewrite (list_fmap_ext _ id) by (intros; apply chr_ord).
  rewrite list_fmap_id. apply String.string_of_list_ascii_of_string.
Qed.

Lemma str_bytes_str l : bytes_ok l -> str_bytes (bytes_str l) = l.
Proof.
  unfold bytes_str, str_bytes. intros Hl.
  rewrite String.list_ascii_of_string_of_list_ascii.
  induction Hl as [|b l Hb Hl IH]; [done|]. cbn. by rewrite ord_chr, IH.
Qed.

Lemma str_bytes_ok s : bytes_ok (str_bytes s).
Proof. apply Forall_fmap, Forall_true. intros c. apply ord_range. Qed.

Lemma str_bytes_length s : length (str_bytes s) = String.length s.
Proof. unfold str_bytes. rewrite length_map. induction s; simpl; auto. Qed.

(** ** Numbers *)

Definition hex_digit_l (d : Z) : ascii := if d <? 10 then chr (48 + d) else chr (87 + d).
Definition hex_digit_u (d : Z) : ascii := if d <? 10 then chr (48 + d) else chr (55 + d).
Definition dec_digit (d : Z) : ascii := chr (48 + d).

(** Digits of [v] in base [b], most significant first, at most [fuel]. *)
Fixpoint digits (fuel : nat) (b v : Z) (acc : list Z) : list Z :=
  match fuel with
  | O => acc
  | S f => if v <? b then v :: acc else digits f b (v / b) (v mod b :: acc)
  end.

Definition pad0 (w : nat) (l : list Z) : list Z := replicate (w - length l) 0 ++ l.

Definition render (f : Z -> ascii) (l : list Z) : string := String.string_of_list_ascii (f <$> l).

(** 64 digits hold every value below 2^64 in any base. *)
Definition dec (v : Z) : string :=
  if v <? 0 then "-" +:+ render dec_digit (digits 64 10 (- v) [])
  else render dec_digit (digits 64 10 v []).
Definition hexl (w : nat) (v : Z) : string := render hex_digit_l (pad0 w (digits 64 16 v [])).
Definition hexu (w : nat) (v : Z) : string := render hex_digit_u (pad0 w (digits 64 16 v [])).
Definition decw (w : nat) (v : Z) : string := render dec_digit (pad0 w (digits 64 10 v [])).

(** [{:.2}] of the double nearest to [us / 1000.0], for [0 <= us < 1000]: the
    53-bit significand is [m]; a decimal tie is decided by the side on which
    the double lies, and by evenness when the tie is exact. *)
Definition round_half_even (n d : Z) : Z :=
  let q := n / d in let r := n mod d in
  if 2 * r <? d then q else if d <? 2 * r then q + 1 else if Z.even q then q else q + 1.
Definition ms_2dp (us : Z) : string :=
  let k := 52 - (Z.log2 us - 9) + (if us * 512 <? 1000 * 2 ^ Z.log2 us then 1 else 0) in
  let m := round_half_even (us * 2 ^ k) 1000 in
  let q := us / 10 in let r := us mod 10 in
  let h := if r <? 5 then q else if 5 <? r then q + 1
           else if us * 2 ^ k <? m * 1000 then q + 1
           else if m * 1000 <? us * 2 ^ k then q
           else if Z.even q then q else q + 1 in
  dec (h / 100) +:+ "." +:+ decw 2 (h mod 100).

(** ** [str] methods *)

(** [v.join(sep)]. *)
Fixpoint join (sep : string) (l : list string) : string :=
  match l with
  | [] => EmptyString
  | [x] => x
  | x :: l => x +:+ sep +:+ join sep l
  end.

(** [s.split(c).collect()]. *)
Fixpoint split_on (c : ascii) (s : string) : list string :=
  match s with
  | EmptyString => [EmptyString]
  | String a s' =>
      if Ascii.eqb a c then EmptyString :: split_on c s'
      else match split_on c s' with
           | [] => [String a EmptyString]
           | p :: ps => String a p :: ps
           end
  end.

Definition slen (s : string) : Z := Z.of_nat (String.length s).

Fixpoint sforall (f : ascii -> bool) (s : string) : bool :=
  match s with
  | EmptyString => true
  | String a s => f a && sforall f s
  end.

Definition in_range (lo hi : Z) (c : ascii) : bool := (lo <=? ord c) && (ord c <=? hi).
Definition is_digit (c : ascii) : bool := in_range 48 57 c.
Definition is_hexdigit (c : ascii) : bool := is_digit c || in_range 65 70 c || in_range 97 102 c.
Definition to_lower_c (c : ascii) : ascii := if in_range 65 90 c then chr (ord c + 32) else c.
Fixpoint smap (f : ascii -> ascii) (s : string) : string :=
  match s with EmptyString => EmptyString | String a s => String (f a) (smap f s) end.
(** [s.to_ascii_lowercase()]. *)
Definition to_ascii_lowercase (s : string) : string := smap to_lower_c s.

(** [s.starts_with(p)], [s.contains(p)]. *)
Fixpoint starts_with (p s : string) : bool :=
  match p, s with
  | EmptyString, _ => true
  | String a p, String b s => Ascii.eqb a b && starts_with p s
  | _, _ => false
  end.
Fixpoint contains (p s : string) : bool :=
  starts_with p s || match s with EmptyString => false | String _ s => contains p s end.

(** The value of a digit in a base up to 16. *)
Definition digit_val (c : ascii) : Z :=
  if is_digit c then ord c - 48
  else if in_range 97 102 c then ord c - 87
  else if in_range 65 70 c then ord c - 55 else 16.

(** [uN::from_str_radix(s, b)], with the messages of [ParseIntError]: the
    text is empty, a character is no digit, or the value exceeds [max].  A
    leading [+] is skipped when something follows it. *)
Fixpoint parse_digits (b max acc : Z) (s : string) : outcome Z :=
  match s with
  | EmptyString => Ok acc
  | String c s =>
      let d := digit_val c in
      if d <? b then
        let v := acc * b + d in
        if v <=? max then parse_digits b max v s
        else Err "number too large to fit in target type"
      else Err "invalid digit found in string"
  end.
Definition from_str_radix (b max : Z) (s : string) : outcome Z :=
  match s with
  | EmptyString => Err "cannot parse integer from empty string"
  | String c s' =>
      if Ascii.eqb c "+"%char then
        match s' with
        | EmptyString => Err "invalid digit found in string"
        | _ => parse_digits b max 0 s'
        end
      else parse_digits b max 0 s
  end.
Definition parse_u8 (s : string) : outcome Z := from_str_radix 10 255 s.
Definition parse_u16 (s : string) : outcome Z := from_str_radix 10 65535 s.
Definition parse_u32 (s : string) : outcome Z := from_str_radix 10 4294967295 s.
Definition parse_usize (s : string) : outcome Z := from_str_radix 10 18446744073709551615 s.

(** White space, ASCII part of [char::is_whitespace]. *)
Definition is_space (c : ascii) : bool := in_range 9 13 c || Ascii.eqb c " "%char.
Fixpoint trim_start (s : string) : string :=
  match s with
  | EmptyString => EmptyString
  | String c s' => if is_space c then trim_start s' else s
  end.
Fixpoint trim_end (s : string) : string :=
  match s with
  | EmptyString => EmptyString
  | String c s' =>
      match trim_end s' with
      | EmptyString => if is_space c then EmptyString else String c EmptyString
      | t => String c t
      end
  end.
(** [s.trim()]. *)
Definition trim (s : string) : string := trim_end (trim_start s).

(** [s.strip_prefix(p)]. *)
Fixpoint strip_prefix (p s : string) : option string :=
  match p, s with
  | EmptyString, _ => Some s
  | String a p, String b s => if Ascii.eqb a b then strip_prefix p s else None
  | _, _ => None
  end.

(** [s.split_once(p)]: around the first occurrence of [p]. *)
Fixpoint split_once (p s : string) : option (string * string) :=
  match strip_prefix p s with
  | Some rest => Some (EmptyString, rest)
  | None =>
      match s with
      | EmptyString => None
      | String c s' =>
          match split_once p s' with
          | Some (a, b) => Some (String c a, b)
          | None => None
          end
      end
  end.

(** [s.split_whitespace()]. *)
Fixpoint words_aux (s cur : string) : list string :=
  let flush := if slen cur =? 0 then [] else [cur] in
  match s with
  | EmptyString => flush
  | String c s' =>
      if is_space c then flush ++ words_aux s' EmptyString
      else words_aux s' (cur +:+ String c EmptyString)
  end.
Definition split_whitespace (s : string) : list string := words_aux s EmptyString.

(** [{s:?}] for text whose non-ASCII characters are printable. *)
Definition debug_char (c : ascii) : string :=
  let n := ord c in
  if n =? 34 then String (chr 92) (String c EmptyString)
  else if n =? 92 then String (chr 92) (String c EmptyString)
  else if n =? 10 then "\n"
  else if n =? 13 then "\r"
  else if n =? 9 then "\t"
  else if n =? 0 then "\0"
  else if (n <? 32) || (n =? 127) then "\u{" +:+ hexl 1 n +:+ "}"
  else String c EmptyString.
Fixpoint debug_body (s : string) : string :=
  match s with
  | EmptyString => String (chr 34) EmptyString
  | String c s => debug_char c +:+ debug_body s
  end.
Definition debug_str (s : string) : string := String (chr 34) (debug_body s).

(** ** [String::from_utf8_lossy]

    A chunk of the decoder: whether it is a whole character and how many bytes
    it takes; a broken one takes the bytes that could still have begun a
    character and becomes U+FFFD. *)
Definition is_cont (b : Z) : bool := Z.land b 192 =? 128.
Definition second_ok (b c : Z) : bool :=
  if b =? 0xE0 then (0xA0 <=? c) && (c <=? 0xBF)
  else if b =? 0xED then (0x80 <=? c) && (c <=? 0x9F)
  else if b =? 0xF0 then (0x90 <=? c) && (c <=? 0xBF)
  else if b =? 0xF4 then (0x80 <=? c) && (c <=? 0x8F)
  else (0x80 <=? c) && (c <=? 0xBF).
Definition utf8_width (b : Z) : Z :=
  if b <? 128 then 1
  else if (0xC2 <=? b) && (b <=? 0xDF) then 2
  else if (0xE0 <=? b) && (b <=? 0xEF) then 3
  else if (0xF0 <=? b) && (b <=? 0xF4) then 4 else 0.
Definition utf8_chunk (b : Z) (rest : list Z) : bool * nat :=
  let at_ := fun n => default 0 (rest !! n) in
  let w := utf8_width b in
  if w =? 1 then (true, 0%nat)
  else if w =? 2 then if is_cont (at_ 0%nat) then (true, 1%nat) else (false, 0%nat)
  else if w =? 3 then
    if negb (second_ok b (at_ 0%nat)) then (false, 0%nat)
    else if is_cont (at_ 1%nat) then (true, 2%nat) else (false, 1%nat)
  else if w =? 4 then
    if negb (second_ok b (at_ 0%nat)) then (false, 0%nat)
    else if negb (is_cont (at_ 1%nat)) then (false, 1%nat)
    else if is_cont (at_ 2%nat) then (true, 3%nat) else (false, 2%nat)
  else (false, 0%nat).
Fixpoint lossy_bytes (fuel : nat) (l : list Z) : list Z :=
  match fuel, l with
  | S f, b :: rest =>
      let '(valid, n) := utf8_chunk b rest in
      (if valid then b :: take n rest else [0xEF; 0xBF; 0xBD]) ++ lossy_bytes f (drop n rest)
  | _, _ => []
  end.
Definition from_utf8_lossy (l : list Z) : string := bytes_str (lossy_bytes (length l) l).

(** [String::from_utf8]: valid when no chunk of the lossy decoder is broken. *)
Fixpoint utf8_valid_n (fuel : nat) (l : list Z) : bool :=
  match fuel, l with
  | _, [] => true
  | S f, b :: rest => let '(valid, n) := utf8_chunk b rest in valid && utf8_valid_n f (drop n rest)
  | O, _ => false
  end.
Definition utf8_valid (l : list Z) : bool := utf8_valid_n (length l) l.

(** [b as char] in UTF-8. *)
Definition latin1_char (b : Z) : list Z :=
  if b <? 0x80 then [b] else [0xC0 + b / 64; 0x80 + b mod 64].

(** ** Lemmas *)

Definition ascii_bytes (l : list Z) : Prop := Forall (fun b => 0 <= b < 128) l.

Lemma lossy_ascii l : ascii_bytes l -> from_utf8_lossy l = bytes_str l.
Proof.
  intros H. unfold from_utf8_lossy. f_equal. induction H as [|b l Hb Hl IH]; [done|].
  cbn [length lossy_bytes]. unfold utf8_chunk, utf8_width. replace (b <? 128) with true by lia.
  cbn [Z.eqb Pos.eqb take app]. by rewrite drop_0, IH.
Qed.

Lemma split_on_no_sep c s :
  sforall (fun a => negb (Ascii.eqb a c)) s = true -> split_on c s = [s].
Proof.
  induction s as [|a s IH]; simpl; [done|]. intros H.
  apply andb_prop in H as [Ha Hs]. destruct (Ascii.eqb a c); [done|].
  by rewrite IH.
Qed.

(** A part without the separator, followed by the separator. *)
Lemma split_on_app c p s :
  sforall (fun a => negb (Ascii.eqb a c)) p = true ->
  split_on c (p +:+ String c s) = p :: split_on c s.
Proof.
  induction p as [|a p IH]; simpl.
  - by rewrite Ascii.eqb_refl.
  - intros H. apply andb_prop in H as [Ha Hp]. destruct (Ascii.eqb a c); [done|].
    by rewrite IH.
Qed.

(** [split] undoes [join] when no part holds the separator. *)
Lemma split_join c l :
  l <> [] -> Forall (fun p => sforall (fun a => negb (Ascii.eqb a c)) p = true) l ->
  split_on c (join (String c EmptyString) l) = l.
Proof.
  intros Hne Hl. induction Hl as [|p l Hp Hl IH]; [done|].
  destruct l as [|q l]; [by apply split_on_no_sep|].
  change (join (String c EmptyString) (p :: q :: l))
    with (p +:+ String c (join (String c EmptyString) (q :: l))).
  rewrite split_on_app by done. by rewrite IH.
Qed.

Lemma parse_digits_bound b max s : forall acc v,
  0 <= b -> 0 <= acc <= max -> parse_digits b max acc s = Ok v -> 0 <= v <= max.
Proof.
  induction s as [|c s IH]; simpl; intros acc v Hb Ha; [intros [= <-]; done|].
  assert (0 <= digit_val c).
  { unfold digit_val, is_digit, in_range.
    destruct (_ && _) eqn:H1; [lia|]. destruct (_ && _) eqn:H2 in |- *; [lia|].
    destruct (_ && _) eqn:H3 in |- *; lia. }
  destruct (digit_val c <? b); [|done].
  destruct (acc * b + digit_val c <=? max) eqn:Hm; [|done].
  apply IH; [done|]. nia.
Qed.

Lemma from_str_radix_bound b max s v :
  0 <= b -> 0 <= max -> from_str_radix b max s = Ok v -> 0 <= v <= max.
Proof.
  intros Hb Hm. unfold from_str_radix. destruct s as [|c s]; [done|].
  destruct (Ascii.eqb _ _); [destruct s; [done|]|]; apply parse_digits_bound; lia.
Qed.

Lemma parse_digits_safe b max s : forall acc, safe (parse_digits b max acc s).
Proof.
  induction s as [|c s IH]; intros acc; unfold safe; simpl; [done|].
  destruct (_ <? _); [destruct (_ <=? _)|]; simpl; auto. apply IH.
Qed.

Lemma from_str_radix_safe b max s : safe (from_str_radix b max s).
Proof.
  unfold from_str_radix. destruct s as [|c s]; [done|].
  destruct (Ascii.eqb _ _); [destruct s; [done|]|]; apply parse_digits_safe.
Qed.

(** A property of every byte is a finite check. *)
Lemma byte_ind (P : Z -> bool) :
  forallb P (seqZ 0 256) = true -> forall b, byte_ok b -> P b = true.
Proof.
  intros H b Hb. rewrite forallb_forall in H. apply H.
  apply list_elem_of_In, elem_of_seqZ. unfold byte_ok in Hb. lia.
Qed.

(** ** Decimal text reads back *)

Lemma digit_parts d : 0 <= d < 10 ->
  digit_val (dec_digit d) = d /\ is_digit (dec_digit d) = true.
Proof.
  intros Hd. assert (H : forallb (fun d => (digit_val (dec_digit d) =? d) && is_digit (dec_digit d)) (seqZ 0 10) = true)
    by (vm_compute; reflexivity).
  rewrite forallb_forall in H. specialize (H d). rewrite andb_true_iff, Z.eqb_eq in H.
  apply H, list_elem_of_In, elem_of_seqZ. lia.
Qed.

(** Rendered digits read back, in any base whose digits do. *)
Lemma parse_digits_base b max (g : Z -> ascii) f :
  1 < b -> (forall d, 0 <= d < b -> digit_val (g d) = d) -> forall v acc,
  0 <= v < b ^ Z.of_nat (S f) -> v <= max ->
  parse_digits b max 0 (render g (digits (S f) b v acc)) = parse_digits b max v (render g acc).
Proof.
  intros Hb Hg.
  assert (Hstep : forall n d a acc, 0 <= d < b -> a * b + d = n -> n <= max ->
    parse_digits b max a (render g (d :: acc)) = parse_digits b max n (render g acc)).
  { intros n d a acc Hd Hn Hm. change (render g (d :: acc)) with (String (g d) (render g acc)).
    cbn [parse_digits]. rewrite Hg by done. replace (d <? b) with true by lia.
    rewrite Hn. by replace (n <=? max) with true by lia. }
  induction f as [|f IH]; intros v acc Hv Hm.
  - change (b ^ Z.of_nat 1) with (b ^ 1) in Hv. rewrite Z.pow_1_r in Hv.
    cbn [digits]. replace (v <? b) with true by lia. apply Hstep; lia.
  - change (digits (S (S f)) b v acc) with
      (if v <? b then v :: acc else digits (S f) b (v / b) (v mod b :: acc)).
    destruct (Z.ltb_spec v b) as [Hlt|Hge]; [apply Hstep; lia|].
    rewrite Nat2Z.inj_succ, Z.pow_succ_r in Hv by lia.
    pose proof (Z.div_mod v b ltac:(lia)). pose proof (Z.mod_pos_bound v b ltac:(lia)).
    rewrite IH; [apply Hstep; lia| |nia]. split; [apply Z.div_pos; lia|]. apply Z.div_lt_upper_bound; lia.
Qed.

Lemma parse_digits_dec max f v acc :
  0 <= v < 10 ^ Z.of_nat (S f) -> v <= max ->
  parse_digits 10 max 0 (render dec_digit (digits (S f) 10 v acc)) =
  parse_digits 10 max v (render dec_digit acc).
Proof. apply parse_digits_base; [lia|]. intros d Hd. by apply digit_parts. Qed.

Lemma render_digits_ok f : forall v acc,
  0 <= v -> Forall (fun d => 0 <= d < 10) acc ->
  exists c s, render dec_digit (digits (S f) 10 v acc) = String c s /\
    (v < 10 ^ Z.of_nat (S f) -> sforall is_digit (String c s) = true).
Proof.
  assert (Hall : forall l, Forall (fun d => 0 <= d < 10) l -> sforall is_digit (render dec_digit l) = true).
  { intros l. induction 1 as [|d l Hd Hl IH]; [done|].
    change (render dec_digit (d :: l)) with (String (dec_digit d) (render dec_digit l)).
    cbn [sforall]. destruct (digit_parts d Hd) as [_ ->]. done. }
  induction f as [|f IH]; intros v acc Hv Ha.
  - cbn [digits]. destruct (Z.ltb_spec v 10).
    + eexists _, _. split; [reflexivity|]. intros _. apply (Hall (v :: acc)). constructor; [lia|done].
    + eexists _, _. split; [reflexivity|]. change (10 ^ Z.of_nat 1) with 10. lia.
  - change (digits (S (S f)) 10 v acc) with
      (if v <? 10 then v :: acc else digits (S f) 10 (v / 10) (v mod 10 :: acc)).
    destruct (Z.ltb_spec v 10).
    + eexists _, _. split; [reflexivity|]. intros _. apply (Hall (v :: acc)). constructor; [lia|done].
    + destruct (IH (v / 10) (v mod 10 :: acc)) as (c & s & E & Hs).
      * apply Z.div_pos; lia.
      * constructor; [apply Z.mod_pos_bound; lia|done].
      * exists c, s. split; [done|]. intros Hlt. apply Hs.
        rewrite Nat2Z.inj_succ, Z.pow_succ_r in Hlt by lia. apply Z.div_lt_upper_bound; lia.
Qed.

Lemma dec_shape v : 0 <= v < 10 ^ 64 ->
  exists c s, dec v = String c s /\ sforall is_digit (String c s) = true.
Proof.
  intros Hv. unfold dec. replace (v <? 0) with false by lia.
  destruct (render_digits_ok 63 v [] (proj1 Hv) (Forall_nil_2 _)) as (c & s & E & H).
  exists c, s. split; [done|]. apply H. exact (proj2 Hv).
Qed.

Lemma is_digit_val c : is_digit c = true -> Ascii.eqb c "+"%char = false.
Proof.
  destruct (Ascii.eqb_spec c "+"%char) as [->|]; [|done]. intros H. by vm_compute in H.
Qed.

Lemma from_str_radix_dec max v : 0 <= v <= max -> max < 10 ^ 64 -> from_str_radix 10 max (dec v) = Ok v.
Proof.
  intros Hv Hm. destruct (dec_shape v ltac:(lia)) as (c & s & E & Hs).
  assert (Hp : parse_digits 10 max 0 (dec v) = Ok v).
  { unfold dec. replace (v <? 0) with false by lia.
    rewrite (parse_digits_dec max 63) by (split; [lia|change (10 ^ Z.of_nat 64) with (10 ^ 64); lia] || lia). done. }
  rewrite E in *. cbn [from_str_radix]. apply andb_prop in Hs as [Hc _].
  by rewrite is_digit_val.
Qed.

(** ** Slices of text *)

(** [is_char_boundary(i)]: both ends, or a byte that does not continue a
    character. *)
Definition is_char_boundary (s : string) (i : Z) : bool :=
  (i =? 0) || (i =? slen s) ||
  match str_bytes s !! Z.to_nat i with Some b => negb (is_cont b) | None => false end.

(** [&s[a..b]]. *)
Definition str_slice (s : string) (a b : Z) : outcome string :=
  if (0 <=? a) && (a <=? b) && (b <=? slen s) && is_char_boundary s a && is_char_boundary s b then
    Ok (substring (Z.to_nat a) (Z.to_nat (b - a)) s)
  else Panic.

Definition ascii_only (s : string) : Prop := sforall (fun c => ord c <? 128) s = true.

Lemma app_String c a b : String c a +:+ b = String c (a +:+ b).
Proof. done. Qed.

Lemma app_assoc_s a b c : (a +:+ b) +:+ c = a +:+ b +:+ c.
Proof. induction a as [|x a IH]; [done|]. by rewrite !app_String, IH. Qed.

Lemma slen_app a b : slen (a +:+ b) = slen a + slen b.
Proof. unfold slen. induction a as [|c a IH]; [done|]. rewrite app_String. cbn. lia. Qed.

Lemma sforall_app f a b : sforall f (a +:+ b) = sforall f a && sforall f b.
Proof.
  induction a as [|c a IH]; [done|]. change (String c a +:+ b) with (String c (a +:+ b)).
  cbn [sforall]. by rewrite IH, andb_assoc.
Qed.

Lemma sforall_mono (f g : ascii -> bool) s :
  (forall c, f c = true -> g c = true) -> sforall f s = true -> sforall g s = true.
Proof.
  intros Hfg. induction s as [|c s IH]; [done|]. cbn. intros [Hc Hs]%andb_prop. by rewrite (Hfg c Hc), IH.
Qed.

Lemma app_nil_s s : s +:+ EmptyString = s.
Proof. induction s as [|c s IH]; [done|]. by rewrite app_String, IH. Qed.

Lemma concat_empty_cons x l : String.concat EmptyString (x :: l) = x +:+ String.concat EmptyString l.
Proof. destruct l as [|y l]; [by rewrite app_nil_s|done]. Qed.

Lemma ascii_boundary s i : ascii_only s -> 0 <= i <= slen s -> is_char_boundary s i = true.
Proof.
  intros Hs Hi. unfold is_char_boundary. destruct (Z.eqb_spec i (slen s)) as [->|Hne]; [by rewrite orb_true_r|].
  assert (Hb : Forall (fun b => 0 <= b < 128) (str_bytes s)).
  { clear -Hs. unfold ascii_only, str_bytes in *. induction s as [|c s IH]; [constructor|]. cbn in *.
    apply andb_prop in Hs as [Hc Hs]. constructor; [|by apply IH]. pose proof (ord_range c) as Hr.
    unfold byte_ok in Hr. lia. }
  destruct (str_bytes s !! Z.to_nat i) as [b|] eqn:E.
  - rewrite Forall_lookup in Hb. specialize (Hb _ _ E).
    assert (is_cont b = false) as ->; [|by rewrite orb_true_r].
    enough (forall b, byte_ok b -> (if b <? 128 then negb (is_cont b) else true) = true) as H.
    { specialize (H b ltac:(unfold byte_ok; lia)). replace (b <? 128) with true in H by lia.
      by destruct (is_cont b). }
    apply (byte_ind (fun b => if b <? 128 then negb (is_cont b) else true)). by vm_compute.
  - apply lookup_ge_None in E. rewrite str_bytes_length in E. unfold slen in *. lia.
Qed.

Lemma substring_mid a b c :
  substring (String.length a) (String.length b) (a +:+ b +:+ c) = b.
Proof.
  induction a as [|x a IH]; [|by rewrite !app_String].
  change (EmptyString +:+ b +:+ c) with (b +:+ c). induction b as [|x b IH].
  - by destruct c.
  - rewrite app_String. change (String x (substring 0 (String.length b) (b +:+ c)) = String x b).
    by f_equal.
Qed.

Lemma map_result_cons {A B} (f : A -> outcome B) a l :
  map_result f (a :: l) = let? b := f a in let? bs := map_result f l in Ok (b :: bs).
Proof. done. Qed.

Lemma digits_bound b f : forall k v acc,
  1 < b -> 0 <= v < b ^ Z.of_nat (S k) -> (k <= f)%nat -> Forall (fun d => 0 <= d < b) acc ->
  Forall (fun d => 0 <= d < b) (digits (S f) b v acc) /\
  (length (digits (S f) b v acc) <= S k + length acc)%nat.
Proof.
  induction f as [|f IH]; intros k v acc Hb Hv Hk Ha.
  - assert (k = 0%nat) as -> by lia. change (b ^ Z.of_nat 1) with (b ^ 1) in Hv. rewrite Z.pow_1_r in Hv.
    cbn [digits]. replace (v <? b) with true by lia. split; [by constructor|cbn; lia].
  - change (digits (S (S f)) b v acc) with
      (if v <? b then v :: acc else digits (S f) b (v / b) (v mod b :: acc)).
    destruct (Z.ltb_spec v b) as [Hlt|Hge]; [split; [constructor; [lia|done]|cbn; lia]|].
    destruct k as [|k]; [change (b ^ Z.of_nat 1) with (b ^ 1) in Hv; rewrite Z.pow_1_r in Hv; lia|].
    rewrite Nat2Z.inj_succ, Z.pow_succ_r in Hv by lia.
    destruct (IH k (v / b) (v mod b :: acc)) as [H1 H2].
    + done.
    + split; [apply Z.div_pos; lia|]. apply Z.div_lt_upper_bound; lia.
    + lia.
    + constructor; [apply Z.mod_pos_bound; lia|done].
    + split; [done|]. cbn [length] in H2. lia.
Qed.

Lemma render_length f l : String.length (render f l) = length l.
Proof. unfold render. induction l as [|x l IH]; [done|]. cbn. by f_equal. Qed.

(** ** Hexadecimal text reads back *)

Lemma hex_parts d : 0 <= d < 16 ->
  digit_val (hex_digit_l d) = d /\ is_hexdigit (hex_digit_l d) = true.
Proof.
  intros Hd.
  assert (H : forallb (fun d => (digit_val (hex_digit_l d) =? d) && is_hexdigit (hex_digit_l d)) (seqZ 0 16) = true)
    by (vm_compute; reflexivity).
  rewrite forallb_forall in H. specialize (H d). rewrite andb_true_iff, Z.eqb_eq in H.
  apply H, list_elem_of_In, elem_of_seqZ. lia.
Qed.

Lemma hexl_shape w v : (0 < w <= 16)%nat -> 0 <= v < 16 ^ Z.of_nat w ->
  slen (hexl w v) = Z.of_nat w /\ sforall is_hexdigit (hexl w v) = true.
Proof.
  intros Hw Hv. destruct w as [|k]; [lia|].
  destruct (digits_bound 16 63 k v [] ltac:(lia) Hv ltac:(lia) (Forall_nil_2 _)) as [H1 H2]. cbn [length] in H2.
  unfold hexl, slen. rewrite render_length. unfold pad0. rewrite length_app, length_replicate. split; [lia|].
  assert (Hall : Forall (fun d => 0 <= d < 16) (replicate (S k - length (digits 64 16 v [])) 0 ++ digits 64 16 v [])).
  { apply Forall_app. split; [|done]. apply Forall_replicate. lia. }
  induction Hall as [|d l Hd Hl IH]; [done|].
  change (render hex_digit_l (d :: l)) with (String (hex_digit_l d) (render hex_digit_l l)).
  cbn [sforall]. destruct (hex_parts d Hd) as [_ ->]. exact IH.
Qed.

Lemma from_str_radix_hexl max w v : (0 < w <= 16)%nat -> 0 <= v < 16 ^ Z.of_nat w -> v <= max ->
  from_str_radix 16 max (hexl w v) = Ok v.
Proof.
  intros Hw Hv Hm. destruct (hexl_shape w v Hw Hv) as [Hl Hx].
  assert (Hp : parse_digits 16 max 0 (hexl w v) = Ok v).
  { unfold hexl, pad0. generalize (w - length (digits 64 16 v []))%nat. intros n. induction n as [|n IH]; cbn [replicate app].
    - rewrite (parse_digits_base 16 max hex_digit_l 63); [done|lia| |split; [lia|]|done].
      + intros d Hd. by apply hex_parts.
      + eapply Z.lt_le_trans; [apply Hv|]. apply Z.pow_le_mono_r; lia.
    - change (render hex_digit_l (0 :: ?l)) with (String (hex_digit_l 0) (render hex_digit_l l)).
      cbn [parse_digits]. change (digit_val (hex_digit_l 0)) with 0. cbn [Z.ltb Z.compare].
      replace (0 * 16 + 0 <=? max) with true by lia. exact IH. }
  destruct (hexl w v) as [|c s] eqn:E; [change (0 = Z.of_nat w) in Hl; lia|]. cbn [from_str_radix]. cbn [sforall] in Hx.
  apply andb_prop in Hx as [Hc _]. destruct (Ascii.eqb_spec c "+"%char) as [->|]; [by vm_compute in Hc|done].
Qed.
