(* ===== verification/Util.v ===== *)
(** * Address conversion and Ethernet header stripping ([src/src/util.rs]) *)

From S2P Require Import Prelude Fmt.

#[local] Open Scope string_scope.
#[local] Open Scope list_scope.
#[local] Open Scope Z_scope.

Definition bad_mac (s : string) : string :=
  "Invalid MAC address format: " +:+ debug_str s +:+ ". Expected format: aa:bb:cc:dd:ee:ff".

(** One octet of [s2mac]'s loop. *)
Definition s2mac_part (s part : string) : outcome Z :=
  if negb (slen part =? 2) || negb (sforall is_hexdigit part) then Err (bad_mac s)
  else map_err (fun _ => "Invalid MAC address: " +:+ debug_str s) (from_str_radix 16 255 part).

Definition s2mac (s : string) : outcome (list Z) :=
  if slen s =? 0 then Err "MAC address cannot be empty"
  else
    let parts := split_on ":" s in
    if negb (len parts =? 6) then Err (bad_mac s)
    else map_result (s2mac_part s) parts.

Definition mac2s (mac : list Z) : string := join ":" (hexl 2 <$> mac).

Definition bad_ip (s : string) : string := "Invalid IP address: " +:+ debug_str s.

Definition ip2s_part (s part : string) : outcome Z :=
  if (slen part =? 0) || (3 <? slen part) || negb (sforall is_digit part) then Err (bad_ip s)
  else if (1 <? slen part) && starts_with "0" part then Err (bad_ip s)
  else map_err (fun _ => bad_ip s) (parse_u8 part).

Definition ip2s (s : string) : outcome (list Z) :=
  if slen s =? 0 then Err "IP address cannot be empty"
  else
    let parts := split_on "." s in
    if negb (len parts =? 4) then Err (bad_ip s)
    else map_result (ip2s_part s) parts.

Definition s2ip (ip : list Z) : outcome string :=
  if len ip <? 4 then Err ("IP address must be at least 4 bytes, got " +:+ dec (len ip))
  else let? p := slice ip 0 4 in Ok (join "." (dec <$> p)).

Definition VLAN_TPIDS : list Z := [0x8100; 0x88A8].

Definition is_tpid (t : Z) : bool := existsb (Z.eqb t) VLAN_TPIDS.

(** One iteration: leave the loop at the first field that is no TPID. *)
Definition skip_vlan_body (frame : list Z) (offset : Z) : outcome (step Z Z) :=
  if offset + 4 <=? len frame then
    let? t := rd_be16 frame offset in
    if is_tpid t then Ok (Continue (offset + 4)) else Ok (Break offset)
  else Ok (Break offset).

Definition skip_vlan_tags (frame : list Z) : outcome Z :=
  loop (S (length frame)) (skip_vlan_body frame) 12.

Definition strip_eth (frame : list Z) (want : Z) : outcome (list Z) :=
  if len frame <? 14 then
    Err ("frame too short for Ethernet header: " +:+ dec (len frame) +:+ " bytes")
  else
    let? at_ := skip_vlan_tags frame in
    if len frame <? at_ + 2 then Err "VLAN frame too short"
    else
      let? ethertype := rd_be16 frame at_ in
      if negb (ethertype =? want) then
        Err (if 12 <? at_ then "unexpected inner EtherType: 0x" +:+ hexu 4 ethertype
             else "unexpected EtherType: 0x" +:+ hexu 4 ethertype)
      else slice_from frame (at_ + 2).

(** ** The VLAN walk *)

(** Specification: [at_] is the first offset [12 + 4k] whose field is not a
    tag, every earlier one being a tag. *)
Definition tag_at (frame : list Z) (o : Z) : Prop :=
  o + 4 <= len frame /\ exists t, rd_be16 frame o = Ok t /\ is_tpid t = true.

Definition vlan_end (frame : list Z) (at_ : Z) : Prop :=
  12 <= at_ /\ (at_ - 12) mod 4 = 0 /\ (12 < at_ -> at_ <= len frame) /\
  (forall o, 12 <= o < at_ -> (o - 12) mod 4 = 0 -> tag_at frame o) /\
  ~ tag_at frame at_.

Lemma rd_be16_ok d o : 0 <= o -> o + 2 <= len d -> exists v, rd_be16 d o = Ok v.
Proof.
  intros H1 H2. assert (W : total (rd_be16 d o) (fun _ => True)).
  { apply wp_rd_be16; auto. }
  apply total_Ok in W as (v & -> & _). eauto.
Qed.

Lemma skip_vlan_spec frame : total (skip_vlan_tags frame) (vlan_end frame).
Proof.
  unfold skip_vlan_tags, total.
  apply wp_loop with
    (I := fun o => 12 <= o /\ (o - 12) mod 4 = 0 /\ (12 < o -> o <= len frame) /\
                   (forall o', 12 <= o' < o -> (o' - 12) mod 4 = 0 -> tag_at frame o'))
    (m := fun o => Z.to_nat (len frame - o)).
  - intros o (H1 & H2 & H3 & H4). unfold skip_vlan_body.
    destruct (Z.leb_spec (o + 4) (len frame)) as [Hle|Hgt].
    + destruct (rd_be16_ok frame o) as [t Ht]; [lia|lia|]. rewrite Ht. cbn [bind].
      destruct (is_tpid t) eqn:Hp; cbn [wp].
      * split; [|lia]. split_and!; [lia | zdiv | lia |].
        intros o' Ho' Hm. destruct (decide (o' < o)); [apply H4; [lia|done]|].
        assert (o' = o) as -> by zdiv. split; [lia|eauto].
      * split_and!; auto. intros (_ & t' & Ht' & Hp'). congruence.
    + cbn [wp]. split_and!; auto. intros [? _]. lia.
  - split_and!; try lia. done.
  - destruct frame; simpl; lia.
Qed.

(** The walk's result is unique. *)
Lemma vlan_end_unique frame a b : vlan_end frame a -> vlan_end frame b -> a = b.
Proof.
  intros (Ha1 & Ha2 & _ & Ha4 & Ha5) (Hb1 & Hb2 & _ & Hb4 & Hb5).
  destruct (Z.lt_trichotomy a b) as [H|[H|H]]; [|done|].
  - destruct Ha5. apply Hb4; [lia|done].
  - destruct Hb5. apply Ha4; [lia|done].
Qed.

Lemma skip_vlan_ok frame : exists at_, skip_vlan_tags frame = Ok at_ /\ vlan_end frame at_.
Proof. apply total_Ok, skip_vlan_spec. Qed.

Lemma skip_vlan_eq frame at_ : vlan_end frame at_ -> skip_vlan_tags frame = Ok at_.
Proof.
  intros H. destruct (skip_vlan_ok frame) as (b & -> & Hb).
  f_equal. eapply vlan_end_unique; eauto.
Qed.

Lemma wp_skip_vlan frame P E : (forall o, vlan_end frame o -> P o) -> wp (skip_vlan_tags frame) P E.
Proof. intros HP. destruct (skip_vlan_ok frame) as (o & -> & Ho). by apply HP. Qed.

Lemma strip_eth_wp frame want E :
  (forall e, E e) ->
  wp (strip_eth frame want)
     (fun body => exists at_, vlan_end frame at_ /\ rd_be16 frame at_ = Ok want /\
                              slice_from frame (at_ + 2) = Ok body) E.
Proof.
  intros HE. unfold strip_eth. destruct (len frame <? 14) eqn:Hl; cbn [wp]; [auto|].
  apply wp_bind, wp_skip_vlan. intros o Ho. destruct (len frame <? o + 2) eqn:Hl2; cbn [wp]; [auto|].
  pose proof Ho as (Ho1 & _).
  destruct (rd_be16_ok frame o) as [t Ht]; [lia|lia|]. rewrite Ht. cbn [bind].
  destruct (t =? want) eqn:Hw; cbn [negb wp]; [|auto].
  assert (t = want) as -> by lia.
  apply wp_slice_from; [lia|]. intros r Hr _. exists o. auto.
Qed.

(** Priority tags in front of the EtherType. *)
Definition tags (tcis : list Z) : list Z := mjoin ((fun t => 0x81 :: 0x00 :: be16_bytes t) <$> tcis).

Lemma tags_app l1 l2 : tags (l1 ++ l2) = tags l1 ++ tags l2.
Proof. unfold tags. by rewrite fmap_app, join_app. Qed.

Lemma tags_length l : len (tags l) = 4 * len l.
Proof.
  induction l as [|t l IH]; [done|].
  change (tags (t :: l)) with ((0x81 :: 0x00 :: be16_bytes t) ++ tags l).
  rewrite length_app, Nat2Z.inj_add, IH. simpl length. lia.
Qed.

(** The walk over a frame with any number of tags ends at its EtherType. *)
Lemma tagged_frame addr tcis hi lo p :
  len addr = 12 -> is_tpid (be16 hi lo) = false ->
  let frame := addr ++ tags tcis ++ hi :: lo :: p in
  len frame = 14 + 4 * len tcis + len p /\ vlan_end frame (12 + 4 * len tcis) /\
  rd_be16 frame (12 + 4 * len tcis) = Ok (be16 hi lo) /\ slice_from frame (14 + 4 * len tcis) = Ok p.
Proof.
  intros Ha Hn frame. pose proof (tags_length tcis) as Ht.
  assert (Hlen : len frame = 14 + 4 * len tcis + len p).
  { unfold frame. rewrite !length_app. simpl length. lia. }
  assert (Hend : rd_be16 frame (12 + 4 * len tcis) = Ok (be16 hi lo)).
  { unfold frame. eapply (rd_be16_skip _ _ _ (4 * len tcis)); [lia|lia|].
    eapply (rd_be16_skip _ _ _ 0); [lia|lia|]. by apply (rd_be16_at _ 0 0%nat hi lo). }
  split_and!; [done| |done|].
  - split_and!; [lia|zdiv|lia| |].
    + intros o Ho Hm. set (k := Z.to_nat ((o - 12) / 4)).
      assert (Hk : (k < length tcis)%nat) by (unfold k; zdiv).
      destruct (lookup_lt_is_Some_2 tcis k Hk) as [t Htk].
      assert (Hl1 : len (tags (take k tcis)) = 4 * Z.of_nat k) by (rewrite tags_length, length_take; lia).
      assert (Ho' : o = 12 + 4 * Z.of_nat k) by (unfold k; zdiv).
      assert (Hsplit : tags tcis = tags (take k tcis) ++ 0x81 :: 0x00 :: be16_bytes t ++ tags (drop (S k) tcis)).
      { rewrite <- (take_drop_middle tcis k t Htk) at 1. rewrite tags_app.
        by change (tags (t :: drop (S k) tcis)) with ((0x81 :: 0x00 :: be16_bytes t) ++ tags (drop (S k) tcis)). }
      split; [lia|]. exists 0x8100. split; [|done]. unfold frame. rewrite Hsplit, <- app_assoc.
      eapply (rd_be16_skip _ _ _ (4 * Z.of_nat k)); [lia|lia|].
      eapply (rd_be16_skip _ _ _ 0); [lia|lia|]. cbn [app]. lit_read.
    + intros (_ & t & Hr & Hp). rewrite Hend in Hr. injection Hr as <-. congruence.
  - unfold frame. eapply (slice_from_skip _ _ _ (4 * len tcis + 2)); [lia|lia|].
    eapply (slice_from_skip _ _ _ 2); [lia|lia|]. lit_read.
Qed.

(** ** Addresses *)

Lemma hexl2_parts b : byte_ok b ->
  (slen (hexl 2 b) =? 2) && sforall is_hexdigit (hexl 2 b) &&
  sforall (fun a => negb (Ascii.eqb a ":"%char)) (hexl 2 b) &&
  (match from_str_radix 16 255 (hexl 2 b) with Ok v => v =? b | _ => false end) = true.
Proof.
  apply (byte_ind (fun b =>
    (slen (hexl 2 b) =? 2) && sforall is_hexdigit (hexl 2 b) &&
    sforall (fun a => negb (Ascii.eqb a ":"%char)) (hexl 2 b) &&
    (match from_str_radix 16 255 (hexl 2 b) with Ok v => v =? b | _ => false end))).
  vm_compute. reflexivity.
Qed.

Lemma s2mac_part_hexl s b : byte_ok b -> s2mac_part s (hexl 2 b) = Ok b.
Proof.
  intros Hb. pose proof (hexl2_parts b Hb) as H. unfold s2mac_part.
  apply andb_prop in H as [H H4]. apply andb_prop in H as [H _]. apply andb_prop in H as [H1 H2].
  rewrite H1, H2. simpl. destruct (from_str_radix _ _ _); try done.
  simpl. f_equal. lia.
Qed.

Lemma dec_parts b : byte_ok b ->
  negb ((slen (dec b) =? 0) || (3 <? slen (dec b)) || negb (sforall is_digit (dec b))) &&
  negb ((1 <? slen (dec b)) && starts_with "0" (dec b)) &&
  sforall (fun a => negb (Ascii.eqb a "."%char)) (dec b) &&
  (match parse_u8 (dec b) with Ok v => v =? b | _ => false end) = true.
Proof.
  apply (byte_ind (fun b =>
    negb ((slen (dec b) =? 0) || (3 <? slen (dec b)) || negb (sforall is_digit (dec b))) &&
    negb ((1 <? slen (dec b)) && starts_with "0" (dec b)) &&
    sforall (fun a => negb (Ascii.eqb a "."%char)) (dec b) &&
    (match parse_u8 (dec b) with Ok v => v =? b | _ => false end))).
  vm_compute. reflexivity.
Qed.

Lemma ip2s_part_dec s b : byte_ok b -> ip2s_part s (dec b) = Ok b.
Proof.
  intros Hb. pose proof (dec_parts b Hb) as H. unfold ip2s_part.
  apply andb_prop in H as [H H4]. apply andb_prop in H as [H _]. apply andb_prop in H as [H1 H2].
  apply negb_true_iff in H1, H2. rewrite H1, H2.
  destruct (parse_u8 _); try done. simpl. f_equal. lia.
Qed.

Lemma map_result_fmap {X Y Z'} (f : Y -> outcome Z') (g : X -> Y) (h : X -> Z') l :
  Forall (fun x => f (g x) = Ok (h x)) l -> map_result f (g <$> l) = Ok (h <$> l).
Proof. induction 1 as [|x l Hx Hl IH]; [done|]. cbn. rewrite Hx. cbn. fold (fmap (M:=list) g l). 
  unfold map_result in IH. by rewrite IH. Qed.

Lemma join_nonempty sep (f : Z -> string) a b l :
  slen (f a) <> 0 -> (slen (join sep (f <$> a :: b :: l)) =? 0) = false.
Proof.
  intros Ha. cbn [fmap list_fmap join]. unfold slen in *.
  destruct (f a); simpl in *; lia.
Qed.

Lemma s2mac_mac2s mac : bytes_ok mac -> length mac = 6%nat -> s2mac (mac2s mac) = Ok mac.
Proof.
  intros Hm Hml. unfold s2mac, mac2s.
  assert (Hs : split_on ":" (join ":" (hexl 2 <$> mac)) = hexl 2 <$> mac).
  { apply split_join; [by destruct mac|]. apply Forall_fmap.
    eapply Forall_impl; [exact Hm|]. intros b Hb. simpl.
    pose proof (hexl2_parts b Hb) as Hp. apply andb_prop in Hp as [Hp _].
    by apply andb_prop in Hp as [_ ?]. }
  rewrite Hs, length_fmap, Hml.
  destruct mac as [|a [|b mac]]; [done|done|]. rewrite join_nonempty.
  - simpl negb. cbv iota. rewrite map_result_fmap with (h := id); [by rewrite list_fmap_id|].
    eapply Forall_impl; [exact Hm|]. intros c Hc. by apply s2mac_part_hexl.
  - inversion Hm as [|? ? Ha ?]; subst. pose proof (hexl2_parts a Ha) as Hp. lia.
Qed.

Lemma ip2s_join ip : bytes_ok ip -> length ip = 4%nat -> ip2s (join "." (dec <$> ip)) = Ok ip.
Proof.
  intros Hi Hil. unfold ip2s.
  assert (Hs : split_on "." (join "." (dec <$> ip)) = dec <$> ip).
  { apply split_join; [by destruct ip|]. apply Forall_fmap.
    eapply Forall_impl; [exact Hi|]. intros b Hb. simpl.
    pose proof (dec_parts b Hb) as Hp. apply andb_prop in Hp as [Hp _].
    by apply andb_prop in Hp as [_ ?]. }
  rewrite Hs, length_fmap, Hil.
  destruct ip as [|a [|b ip]]; [done|done|]. rewrite join_nonempty.
  - simpl negb. cbv iota. rewrite map_result_fmap with (h := id); [by rewrite list_fmap_id|].
    eapply Forall_impl; [exact Hi|]. intros c Hc. by apply ip2s_part_dec.
  - inversion Hi as [|? ? Ha ?]; subst. pose proof (dec_parts a Ha) as Hp. lia.
Qed.

Lemma s2ip_eq ip rest : length ip = 4%nat -> s2ip (ip ++ rest) = Ok (join "." (dec <$> ip)).
Proof.
  intros Hl. unfold s2ip. rewrite length_app.
  destruct (_ <? 4) eqn:H; [lia|]. by rewrite slice_prefix by lia.
Qed.
