(* ===== verification/Gsdml.v ===== *)
(** * Device descriptions and IO slots ([src/src/gsdml.rs])

    The XML tree is a third-party type: [Section Xml] is parametric in the node
    type and the four accessors the code calls on it.  Everything from there
    on — attribute parsing, the catalog records and the two ways of building
    the IO slot list — is translated. *)

From S2P Require Import Prelude Fmt.

#[local] Open Scope string_scope.
#[local] Open Scope list_scope.
#[local] Open Scope Z_scope.

Definition gsdml_type_size (data_type : string) : option Z :=
  match data_type with
  | "Boolean" => Some 1
  | "Integer8" => Some 1
  | "Integer16" => Some 2
  | "Integer32" => Some 4
  | "Integer64" => Some 8
  | "Unsigned8" => Some 1
  | "Unsigned16" => Some 2
  | "Unsigned32" => Some 4
  | "Unsigned64" => Some 8
  | "Float32" => Some 4
  | "Float64" => Some 8
  | "TimeStamp" => Some 8
  | _ => None
  end.

(** ** Attribute values *)

Definition parse_int (value : option string) : outcome Z :=
  match value with
  | None => Ok 0
  | Some v =>
      let v := trim v in
      let hex := match strip_prefix "0x" v with
                 | Some h => Some h
                 | None => strip_prefix "0X" v
                 end in
      map_err (fun e => "invalid integer " +:+ debug_str v +:+ ": " +:+ e)
        (match hex with
         | Some h => from_str_radix 16 4294967295 h
         | None => parse_u32 v
         end)
  end.

Definition MAX_SLOTS : Z := 4096.
Definition MAX_IO_DATA_LEN : Z := 0x10000.

Definition slot_num (part s : string) : outcome Z :=
  map_err (fun e => "invalid slot spec part " +:+ debug_str part +:+ ": " +:+ e) (parse_u16 s).

(** One white-space separated part, a range or a single slot. *)
Definition slot_spec_part (part : string) (result : list Z) : outcome (list Z) :=
  match split_once ".." part with
  | Some (s, e) =>
      let? start := slot_num part s in
      let? end_ := slot_num part e in
      let span := sat_sub end_ start + 1 in
      if (start <=? end_) && (MAX_SLOTS <? len result + span) then
        Err ("slot spec " +:+ debug_str part +:+ " expands beyond the " +:+ dec MAX_SLOTS +:+ "-slot cap")
      else Ok (result ++ seqZ start (end_ - start + 1))
  | None =>
      if MAX_SLOTS <=? len result then
        Err ("slot spec exceeds the " +:+ dec MAX_SLOTS +:+ "-slot cap")
      else let? v := slot_num part part in Ok (result ++ [v])
  end.

Definition comma_to_space (c : ascii) : ascii := if Ascii.eqb c ","%char then " "%char else c.

Definition parse_slot_spec (spec : option string) : outcome (list Z) :=
  match spec with
  | None => Ok []
  | Some spec => for_each (split_whitespace (smap comma_to_space spec)) slot_spec_part []
  end.

(** ** The catalog *)

Record GsdmlSubmodule := {
  gs_id : string;
  gs_submodule_ident : Z;
  gs_input_length : Z;
  gs_output_length : Z;
}.

Record ItemRef := { target : string; fixed : list Z; allowed : list Z }.

Record GsdmlModule := {
  gm_id : string;
  gm_module_ident : Z;
  gm_submodules : list GsdmlSubmodule;
  useable_submodules : list ItemRef;
}.

Record GsdmlSystemSubmodule := { subslot_number : Z; ss_submodule_ident : Z }.

Record GsdmlDap := {
  dap_id_ : string;
  dap_module_ident : Z;
  dap_submodules : list GsdmlSubmodule;
  system_submodules : list GsdmlSystemSubmodule;
  useable_modules : list ItemRef;
}.

Record IoSlot := {
  slot : Z;
  subslot : Z;
  module_ident : Z;
  submodule_ident : Z;
  input_length : Z;
  output_length : Z;
}.

Record DeviceSlot := {
  ds_slot : Z;
  ds_subslot : Z;
  ds_module_ident : Z;
  ds_submodule_ident : Z;
}.

Record GsdmlDevice := {
  gd_vendor_id : Z;
  gd_device_id : Z;
  daps : list GsdmlDap;
  modules : list GsdmlModule;
  submodule_catalog : list GsdmlSubmodule;
}.

Definition get_dap (d : GsdmlDevice) (dap_id : option string) : outcome GsdmlDap :=
  if len (daps d) =? 0 then Err "No DAP found in GSDML"
  else
    match dap_id with
    | None => idx (daps d) 0
    | Some id =>
        ok_or (find (fun x => String.eqb (dap_id_ x) id) (daps d))
              ("DAP '" +:+ id +:+ "' not found")
    end.

Definition module_ (d : GsdmlDevice) (id : string) : option GsdmlModule :=
  find (fun m => String.eqb (gm_id m) id) (modules d).

Definition catalog_submodule (d : GsdmlDevice) (id : string) : option GsdmlSubmodule :=
  find (fun s => String.eqb (gs_id s) id) (submodule_catalog d).

(** ** Building the IO slot list *)

Definition virtual_slots (slot_num module_id : Z) (subs : list GsdmlSubmodule) : list IoSlot :=
  imap (fun i sub => {| slot := slot_num;
                        subslot := wrap_add16 (as_u16 (Z.of_nat i)) 1;
                        module_ident := module_id;
                        submodule_ident := gs_submodule_ident sub;
                        input_length := gs_input_length sub;
                        output_length := gs_output_length sub |}) subs.

Definition system_slots (module_id : Z) (subs : list GsdmlSystemSubmodule) : list IoSlot :=
  (fun s => {| slot := 0; subslot := subslot_number s; module_ident := module_id;
               submodule_ident := ss_submodule_ident s;
               input_length := 0; output_length := 0 |}) <$> subs.

Definition resolved_subslots (m : GsdmlModule) (assign : btree string) : btree string :=
  let fixed_ := mjoin ((fun r => (fun n => (n, target r)) <$> fixed r) <$> useable_submodules m) in
  foldl (fun acc kv => bt_insert (fst kv) (snd kv) acc) (bt_collect fixed_) assign.

Definition useable_submodule_slots (d : GsdmlDevice) (m : GsdmlModule) (slot_num : Z)
    (assign : btree string) : list IoSlot :=
  omap (fun kv => match catalog_submodule d (snd kv) with
                  | None => None
                  | Some c => Some {| slot := slot_num; subslot := fst kv;
                                      module_ident := gm_module_ident m;
                                      submodule_ident := gs_submodule_ident c;
                                      input_length := gs_input_length c;
                                      output_length := gs_output_length c |}
                  end) (resolved_subslots m assign).

Definition default_assignment (dap : GsdmlDap) : btree string :=
  bt_collect (mjoin ((fun r => (fun n => (n, target r)) <$> fixed r) <$> useable_modules dap)).

Definition module_slots (d : GsdmlDevice) (subassign : option (btree (btree string)))
    (kv : Z * string) : list IoSlot :=
  match module_ d (snd kv) with
  | None => []
  | Some m =>
      if negb (len (gm_submodules m) =? 0) then
        virtual_slots (fst kv) (gm_module_ident m) (gm_submodules m)
      else if negb (len (useable_submodules m) =? 0) then
        let assign := default [] (subassign ≫= bt_get (fst kv)) in
        useable_submodule_slots d m (fst kv) assign
      else []
  end.

Definition build_io_slots (d : GsdmlDevice) (slot_assignment : option (btree string))
    (submodule_assignment : option (btree (btree string))) (dap_id : option string)
    : outcome (list IoSlot) :=
  let? dap := get_dap d dap_id in
  let assignment := default (default_assignment dap) slot_assignment in
  Ok (virtual_slots 0 (dap_module_ident dap) (dap_submodules dap)
      ++ system_slots (dap_module_ident dap) (system_submodules dap)
      ++ mjoin (module_slots d submodule_assignment <$> assignment)).

(** [HashMap<u32, HashMap<u32, (usize, usize)>>]. *)
Definition ident_map := gmap Z (gmap Z (Z * Z)).

(** [map.entry(m).or_default().insert(s, v)]. *)
Definition ident_insert (m s : Z) (v : Z * Z) (t : ident_map) : ident_map :=
  <[m := <[s := v]> (default ∅ (t !! m))]> t.

Definition ident_lookup (d : GsdmlDevice) (dap : GsdmlDap) : ident_map :=
  let t := foldl (fun t s => ident_insert (dap_module_ident dap) (gs_submodule_ident s)
                               (gs_input_length s, gs_output_length s) t)
                 ∅ (dap_submodules dap) in
  let t := foldl (fun t s => ident_insert (dap_module_ident dap) (ss_submodule_ident s) (0, 0) t)
                 t (system_submodules dap) in
  foldl (fun t m =>
    let t := foldl (fun t s => ident_insert (gm_module_ident m) (gs_submodule_ident s)
                                 (gs_input_length s, gs_output_length s) t)
                   t (gm_submodules m) in
    foldl (fun t r =>
      match catalog_submodule d (target r) with
      | Some c => ident_insert (gm_module_ident m) (gs_submodule_ident c)
                    (gs_input_length c, gs_output_length c) t
      | None => t
      end) t (useable_submodules m)) t (modules d).

Definition device_io_slot (t : ident_map) (ds : DeviceSlot) : IoSlot :=
  let l := default (0, 0) (t !! ds_module_ident ds ≫= (.!! ds_submodule_ident ds)) in
  {| slot := ds_slot ds; subslot := ds_subslot ds; module_ident := ds_module_ident ds;
     submodule_ident := ds_submodule_ident ds;
     input_length := fst l; output_length := snd l |}.

Definition build_io_slots_from_device (d : GsdmlDevice) (device_slots : list DeviceSlot)
    (dap_id : option string) : outcome (list IoSlot) :=
  let? dap := get_dap d dap_id in
  Ok (device_io_slot (ident_lookup d dap) <$> device_slots).

(** ** Reading the XML *)

Section Xml.
Context {Node : Type}.
Variable children : Node -> list Node.
Variable descendants : Node -> list Node.
(** [n.is_element() && n.tag_name().name() == name]. *)
Variable is_element_named : string -> Node -> bool.
Variable attribute : Node -> string -> option string.

Definition find_ (elem : Node) (local_name : string) : option Node :=
  find (is_element_named local_name) (children elem).
Definition findall (elem : Node) (local_name : string) : list Node :=
  filter (fun n => is_element_named local_name n = true) (children elem).
Definition find_deep (elem : Node) (local_name : string) : option Node :=
  find (is_element_named local_name) (descendants elem).
Definition findall_deep (elem : Node) (local_name : string) : list Node :=
  filter (fun n => is_element_named local_name n = true) (descendants elem).

Definition attr_or_empty (n : Node) (a : string) : string := default EmptyString (attribute n a).

Definition io_data_item (direction : string) (item : Node) (total : Z) : outcome Z :=
  let? add := match attribute item "Length" with
              | Some length_attr =>
                  map_err (fun e => "invalid Length " +:+ debug_str length_attr +:+ ": " +:+ e)
                          (parse_usize length_attr)
              | None => Ok (default 0 (gsdml_type_size (attr_or_empty item "DataType")))
              end in
  (* checked_add on 64 bits, then the cap *)
  if (total + add <? 18446744073709551616) && (total + add <=? MAX_IO_DATA_LEN) then Ok (total + add)
  else Err ("IOData " +:+ direction +:+ " length exceeds the " +:+ dec MAX_IO_DATA_LEN +:+ "-byte cap").

Definition parse_io_data_size (submodule_elem : Node) (direction : string) : outcome Z :=
  match find_ submodule_elem "IOData" with
  | None => Ok 0
  | Some io_data =>
      match find_ io_data direction with
      | None => Ok 0
      | Some dir_elem => for_each (findall dir_elem "DataItem") (io_data_item direction) 0
      end
  end.

Definition parse_submodule (elem : Node) : outcome GsdmlSubmodule :=
  let? ident := parse_int (attribute elem "SubmoduleIdentNumber") in
  let? i := parse_io_data_size elem "Input" in
  let? o := parse_io_data_size elem "Output" in
  Ok {| gs_id := attr_or_empty elem "ID"; gs_submodule_ident := ident;
        gs_input_length := i; gs_output_length := o |}.

Definition parse_virtual_submodules (parent : Node) : outcome (list GsdmlSubmodule) :=
  match find_ parent "VirtualSubmoduleList" with
  | None => Ok []
  | Some vsl => map_result parse_submodule (findall vsl "VirtualSubmoduleItem")
  end.

Definition parse_system_submodule (item : Node) : outcome GsdmlSystemSubmodule :=
  let? n := parse_int (attribute item "SubslotNumber") in
  let? i := parse_int (attribute item "SubmoduleIdentNumber") in
  Ok {| subslot_number := as_u16 n; ss_submodule_ident := i |}.

Definition parse_system_submodules (dap_elem : Node) : outcome (list GsdmlSystemSubmodule) :=
  match find_ dap_elem "SystemDefinedSubmoduleList" with
  | None => Ok []
  | Some sdsl =>
      map_result parse_system_submodule
        (findall sdsl "InterfaceSubmoduleItem" ++ findall sdsl "PortSubmoduleItem")
  end.

Definition parse_item_ref (target_attr fixed_attr allowed_attr : string) (item : Node)
    : outcome ItemRef :=
  let? f := parse_slot_spec (attribute item fixed_attr) in
  let? a := parse_slot_spec (attribute item allowed_attr) in
  Ok {| target := attr_or_empty item target_attr; fixed := f; allowed := a |}.

Definition parse_item_refs (parent : Node)
    (list_tag ref_tag target_attr fixed_attr allowed_attr : string) : outcome (list ItemRef) :=
  match find_ parent list_tag with
  | None => Ok []
  | Some l => map_result (parse_item_ref target_attr fixed_attr allowed_attr) (findall l ref_tag)
  end.

Definition parse_dap (dap_elem : Node) : outcome GsdmlDap :=
  let? m := parse_int (attribute dap_elem "ModuleIdentNumber") in
  let? subs := parse_virtual_submodules dap_elem in
  let? sys := parse_system_submodules dap_elem in
  let? use := parse_item_refs dap_elem "UseableModules" "ModuleItemRef" "ModuleItemTarget"
                "FixedInSlots" "AllowedInSlots" in
  Ok {| dap_id_ := attr_or_empty dap_elem "ID"; dap_module_ident := m; dap_submodules := subs;
        system_submodules := sys; useable_modules := use |}.

Definition parse_module (mod_elem : Node) : outcome GsdmlModule :=
  let? m := parse_int (attribute mod_elem "ModuleIdentNumber") in
  let? subs := parse_virtual_submodules mod_elem in
  let? use := parse_item_refs mod_elem "UseableSubmodules" "SubmoduleItemRef"
                "SubmoduleItemTarget" "FixedInSubslots" "AllowedInSubslots" in
  Ok {| gm_id := attr_or_empty mod_elem "ID"; gm_module_ident := m; gm_submodules := subs;
        useable_submodules := use |}.

Definition parse_gsdml_root (root : Node) : outcome GsdmlDevice :=
  let? ids := match find_deep root "DeviceIdentity" with
              | None => Ok (0, 0)
              | Some e =>
                  let? v := parse_int (attribute e "VendorID") in
                  let? d := parse_int (attribute e "DeviceID") in
                  Ok (as_u16 v, as_u16 d)
              end in
  let? catalog := map_result parse_submodule (findall_deep root "SubmoduleItem") in
  let? daps := map_result parse_dap (findall_deep root "DeviceAccessPointItem") in
  let? mods := map_result parse_module (findall_deep root "ModuleItem") in
  Ok {| gd_vendor_id := fst ids; gd_device_id := snd ids; daps := daps; modules := mods;
        submodule_catalog := catalog |}.

(** [roxmltree]'s [Document::parse], down to the root element. *)
Variable document : string -> Node + string.

Definition parse_gsdml_str (xml : string) : outcome GsdmlDevice :=
  match document xml with
  | inl root => parse_gsdml_root root
  | inr e => Err ("malformed GSDML XML: " +:+ e)
  end.

(** The file's text: UTF-8, or else Latin-1. *)
Definition gsdml_text (bytes : list Z) : string :=
  if utf8_valid bytes then bytes_str bytes else bytes_str (concat (latin1_char <$> bytes)).

(** [read] is what reading the file at [path] gives. *)
Definition load_gsdml (path : string) (read : list Z + string) : outcome GsdmlDevice :=
  match read with
  | inl bytes => parse_gsdml_str (gsdml_text bytes)
  | inr e => Err ("cannot read " +:+ path +:+ ": " +:+ e)
  end.
Definition parse_gsdml (path : string) (read : list Z + string) (slot_assignment : option (btree string))
    : outcome (list IoSlot) :=
  let? d := load_gsdml path read in build_io_slots d slot_assignment None None.
End Xml.

(** ** The file's encoding *)

Lemma latin1_chunk b rest : byte_ok b ->
  exists c, latin1_char b = c :: drop 1 (latin1_char b) /\
    utf8_chunk c (drop 1 (latin1_char b) ++ rest) = (true, (length (latin1_char b) - 1)%nat).
Proof.
  intros Hb. unfold latin1_char, byte_ok in *. destruct (Z.ltb_spec b 0x80) as [Hl|Hl]; cbn [drop length app].
  - exists b. split; [done|]. unfold utf8_chunk, utf8_width. by replace (b <? 128) with true by lia.
  - exists (0xC0 + b / 64). split; [done|].
    assert (Hw : utf8_width (0xC0 + b / 64) = 2).
    { unfold utf8_width. assert (2 <= b / 64 <= 3) by zdiv.
      replace (0xC0 + b / 64 <? 128) with false by lia.
      by replace ((0xC2 <=? 0xC0 + b / 64) && (0xC0 + b / 64 <=? 0xDF)) with true by lia. }
    unfold utf8_chunk. rewrite Hw. cbn. unfold is_cont.
    assert (Hc : Z.land (0x80 + b mod 64) 192 = 128).
    { assert (Hm : 0 <= b mod 64 < 64) by (apply Z.mod_pos_bound; lia).
      assert (Hall : forallb (fun x => Z.land (0x80 + Z.of_nat x) 192 =? 128) (seq 0 64) = true) by (vm_compute; reflexivity).
      rewrite forallb_forall in Hall. specialize (Hall (Z.to_nat (b mod 64))). rewrite Z2Nat.id in Hall by lia.
      apply Z.eqb_eq, Hall, in_seq. lia. }
    by rewrite Hc.
Qed.

Lemma latin1_valid bytes : bytes_ok bytes -> forall n, (length (concat (latin1_char <$> bytes)) <= n)%nat ->
  utf8_valid_n n (concat (latin1_char <$> bytes)) = true.
Proof.
  induction 1 as [|b l Hb Hl IH]; intros n Hn; [by destruct n|]. cbn [fmap list_fmap concat] in *.
  destruct (latin1_chunk b (concat (latin1_char <$> l)) Hb) as (c & Hc & Hu). rewrite length_app in Hn.
  rewrite Hc in Hn |- *. cbn [length app] in *. destruct n as [|n]; [lia|]. cbn [utf8_valid_n]. rewrite Hu. cbn [andb].
  assert (Hd : (length (latin1_char b) - 1)%nat = length (drop 1 (latin1_char b))) by (by rewrite length_drop).
  rewrite Hd, drop_app_length. apply IH. lia.
Qed.

Lemma latin1_bytes bytes : bytes_ok bytes -> bytes_ok (concat (latin1_char <$> bytes)).
Proof.
  induction 1 as [|b l Hb Hl IH]; [constructor|]. cbn [fmap list_fmap concat]. apply Forall_app. split; [|exact IH].
  unfold latin1_char, byte_ok in *. destruct (Z.ltb_spec b 0x80); repeat constructor; zdiv.
Qed.

(** Whatever bytes the file holds, the parser is handed well-formed text: the
    file's own where it is UTF-8, and one character per byte otherwise. *)
Lemma gsdml_text_valid bytes : bytes_ok bytes -> utf8_valid (str_bytes (gsdml_text bytes)) = true.
Proof.
  intros Hb. unfold gsdml_text. destruct (utf8_valid bytes) eqn:E; rewrite str_bytes_str; auto using latin1_bytes.
  by apply latin1_valid.
Qed.
