(* ===== verification/Rt.v ===== *)
(** * RT_CLASS_1 frames and the process image ([src/src/rt.rs])

    [RtFrame] and its Ethernet envelope, the IOCR configuration computed from
    the slot list, and the double-buffered [CyclicDataBuilder]. *)

From S2P Require Import Prelude Fmt Util Gsdml.

#[local] Open Scope string_scope.
#[local] Open Scope list_scope.
#[local] Open Scope Z_scope.

Definition ETHERTYPE_PROFINET : Z := 0x8892.
Definition FRAME_ID_RT_CLASS_1_MIN : Z := 0x8000.
Definition FRAME_ID_RT_CLASS_1_MAX : Z := 0xFBFF.
Definition is_rt_class_1_frame_id (frame_id : Z) : bool :=
  (FRAME_ID_RT_CLASS_1_MIN <=? frame_id) && (frame_id <=? FRAME_ID_RT_CLASS_1_MAX).
Definition FRAME_ID_ALARM_HIGH : Z := 0xFC01.
Definition FRAME_ID_ALARM_LOW : Z := 0xFE01.
Definition IOCR_TYPE_INPUT : Z := 1.
Definition IOCR_TYPE_OUTPUT : Z := 2.
Definition DATA_STATUS_STATE : Z := 0x01.
Definition DATA_STATUS_VALID : Z := 0x04.
Definition DATA_STATUS_PROVIDER_RUN : Z := 0x10.
Definition DATA_STATUS_STATION_OK : Z := 0x20.
Definition DATA_STATUS_IGNORE : Z := 0x80.
Definition IOXS_GOOD : Z := 0x80.
Definition IOXS_DATA_STATE_GOOD : Z := 0x80.
Definition IOXS_BAD : Z := 0x00.

(** ** Frames *)

Record RtFrame := {
  frame_id : Z;
  cycle_counter : Z;
  data_status : Z;
  transfer_status : Z;
  payload : list Z;
}.

Definition from_bytes (data : list Z) : outcome RtFrame :=
  if len data <? 6 then Err ("RT frame too short: " +:+ dec (len data) +:+ " bytes")
  else
    let? trailer := slice_from data (len data - 4) in
    let? fid := rd_be16 data 0 in
    let? cc := rd_be16 trailer 0 in
    let? ds := idx trailer 2 in
    let? ts := idx trailer 3 in
    let? p := slice data 2 (len data - 4) in
    Ok {| frame_id := fid; cycle_counter := cc; data_status := ds; transfer_status := ts;
          payload := p |}.

Definition to_bytes (f : RtFrame) : list Z :=
  be16_bytes (frame_id f) ++ payload f ++ be16_bytes (cycle_counter f)
  ++ [data_status f] ++ [transfer_status f].

Definition has_flag (status mask : Z) : bool := negb (Z.land status mask =? 0).
Definition is_valid (f : RtFrame) : bool := has_flag (data_status f) DATA_STATUS_VALID.
Definition is_running (f : RtFrame) : bool := has_flag (data_status f) DATA_STATUS_PROVIDER_RUN.
Definition is_ok (f : RtFrame) : bool := has_flag (data_status f) DATA_STATUS_STATION_OK.
Definition is_primary (f : RtFrame) : bool := has_flag (data_status f) DATA_STATUS_STATE.
Definition is_ignored (f : RtFrame) : bool := has_flag (data_status f) DATA_STATUS_IGNORE.

Definition VLAN_TAG_RT : list Z := [0x81; 0x00; 0xC0; 0x00].

Definition build_ethernet_frame (dst_mac src_mac : list Z) (rt_frame : RtFrame) : list Z :=
  dst_mac ++ src_mac ++ VLAN_TAG_RT ++ be16_bytes ETHERTYPE_PROFINET ++ to_bytes rt_frame.

Definition parse_ethernet_frame (data : list Z) : outcome (option RtFrame) :=
  if len data <? 18 then Ok None
  else
    let? eth_offset := skip_vlan_tags data in
    if len data <? eth_offset + 2 then Ok None
    else
      let? t := rd_be16 data eth_offset in
      if negb (t =? ETHERTYPE_PROFINET) then Ok None
      else let? body := slice_from data (eth_offset + 2) in ok_ (from_bytes body).

(** ** IOCR configuration *)

Record IoDataObject := {
  o_slot : Z;
  o_subslot : Z;
  frame_offset : Z;
  o_data_length : Z;
  iops_offset : Z;
  iocs_offset : option Z;
}.

Record IocrConfig := {
  iocr_type : Z;
  iocr_reference : Z;
  c_frame_id : Z;
  send_clock_factor : Z;
  reduction_ratio : Z;
  phase : Z;
  watchdog_factor : Z;
  data_length : Z;
  objects : list IoDataObject;
}.

Definition IocrConfig_new (ty reference fid : Z) : IocrConfig :=
  {| iocr_type := ty; iocr_reference := reference; c_frame_id := fid;
     send_clock_factor := 32; reduction_ratio := 32; phase := 0; watchdog_factor := 3;
     data_length := 40; objects := [] |}.

Definition cycle_time_us (c : IocrConfig) : Z :=
  reduction_ratio c * send_clock_factor c * 125 / 4.
Definition watchdog_time_us (c : IocrConfig) : Z := watchdog_factor c * cycle_time_us c.
Definition is_input (c : IocrConfig) : bool := iocr_type c =? IOCR_TYPE_INPUT.
Definition is_output (c : IocrConfig) : bool := iocr_type c =? IOCR_TYPE_OUTPUT.

(** A pass over the slots that appends the data objects of one direction
    ([length_of] selects it) and advances the frame offset. *)
Fixpoint data_objects (length_of : IoSlot -> Z) (slots : list IoSlot) (off : Z)
    : list IoDataObject * Z :=
  match slots with
  | [] => ([], off)
  | s :: slots =>
      if 0 <? length_of s then
        let o := {| o_slot := slot s; o_subslot := subslot s; frame_offset := off;
                    o_data_length := length_of s; iops_offset := off + length_of s;
                    iocs_offset := None |} in
        let (os, e) := data_objects length_of slots (off + (length_of s + 1)) in (o :: os, e)
      else data_objects length_of slots off
  end.

(** The pass for the consumer status of every other slot. *)
Fixpoint iocs_objects (length_of : IoSlot -> Z) (slots : list IoSlot) (off : Z)
    : list IoDataObject * Z :=
  match slots with
  | [] => ([], off)
  | s :: slots =>
      if length_of s =? 0 then
        let o := {| o_slot := slot s; o_subslot := subslot s; frame_offset := off;
                    o_data_length := 0; iops_offset := 0; iocs_offset := Some off |} in
        let (os, e) := iocs_objects length_of slots (off + 1) in (o :: os, e)
      else iocs_objects length_of slots off
  end.

Definition build_iocr_configs (slots : list IoSlot)
    (input_frame_id output_frame_id scf rr wf : Z) : IocrConfig * IocrConfig :=
  let (input_objects, off) := data_objects input_length slots 0 in
  (* the input CR counts its consumer status bytes without listing them *)
  let off := snd (iocs_objects input_length slots off) in
  let input_iocr :=
    {| iocr_type := IOCR_TYPE_INPUT; iocr_reference := 1; c_frame_id := input_frame_id;
       send_clock_factor := scf; reduction_ratio := rr; phase := 0; watchdog_factor := wf;
       data_length := Z.max off 40; objects := input_objects |} in
  let (output_objects, off) := data_objects output_length slots 0 in
  let (iocs, off) := iocs_objects output_length slots off in
  let output_iocr :=
    {| iocr_type := IOCR_TYPE_OUTPUT; iocr_reference := 2; c_frame_id := output_frame_id;
       send_clock_factor := scf; reduction_ratio := rr; phase := 0; watchdog_factor := wf;
       data_length := Z.max off 40; objects := output_objects ++ iocs |} in
  (input_iocr, output_iocr).

(** ** The process image *)

Record CyclicDataBuilder := {
  config : IocrConfig;
  write_buffer : list Z;
  send_buffer : list Z;
  dirty : bool;
}.

Definition with_write (b : CyclicDataBuilder) (w : list Z) (d : bool) : CyclicDataBuilder :=
  {| config := config b; write_buffer := w; send_buffer := send_buffer b; dirty := d |}.

Definition builder_new (c : IocrConfig) : CyclicDataBuilder :=
  {| config := c; write_buffer := rep (data_length c) 0; send_buffer := rep (data_length c) 0;
     dirty := false |}.

(** The first object of a slot/subslot: every accessor stops at it. *)
Definition object_for (slot_ subslot_ : Z) (os : list IoDataObject) : option IoDataObject :=
  find (fun o => (o_slot o =? slot_) && (o_subslot o =? subslot_)) os.

Definition unknown_slot (s ss : Z) : string :=
  "Unknown slot/subslot: " +:+ dec s +:+ "/" +:+ dec ss.

Definition set_data (b : CyclicDataBuilder) (s ss : Z) (data : list Z) : outcome CyclicDataBuilder :=
  match object_for s ss (objects (config b)) with
  | Some o =>
      let n := Z.min (len data) (o_data_length o) in
      let? w := splice (write_buffer b) (frame_offset o) (take (Z.to_nat n) data) in
      Ok (with_write b w true)
  | None => Err (unknown_slot s ss)
  end.

Definition get_data (b : CyclicDataBuilder) (s ss : Z) : outcome (list Z) :=
  match object_for s ss (objects (config b)) with
  | Some o => slice (write_buffer b) (frame_offset o) (frame_offset o + o_data_length o)
  | None => Err (unknown_slot s ss)
  end.

Definition set_iops (b : CyclicDataBuilder) (s ss status : Z) : outcome CyclicDataBuilder :=
  match object_for s ss (objects (config b)) with
  | Some o =>
      if 0 <? o_data_length o then
        let? w := set_idx (write_buffer b) (iops_offset o) status in Ok (with_write b w true)
      else Ok b
  | None => Ok b
  end.

Definition set_iocs (b : CyclicDataBuilder) (s ss status : Z) : outcome CyclicDataBuilder :=
  match object_for s ss (objects (config b)) with
  | Some o =>
      match iocs_offset o with
      | Some off => let? w := set_idx (write_buffer b) off status in Ok (with_write b w true)
      | None => Ok b
      end
  | None => Ok b
  end.

Definition set_all_iops (b : CyclicDataBuilder) (status : Z) : outcome CyclicDataBuilder :=
  let? w := for_each (objects (config b))
              (fun o w => if 0 <? o_data_length o then set_idx w (iops_offset o) status else Ok w)
              (write_buffer b) in
  Ok (with_write b w true).

Definition set_all_iocs (b : CyclicDataBuilder) (status : Z) : outcome CyclicDataBuilder :=
  for_each (objects (config b))
    (fun o b => match iocs_offset o with
                | Some off =>
                    let? v := idx (write_buffer b) off in
                    if negb (v =? status) then
                      let? w := set_idx (write_buffer b) off status in Ok (with_write b w true)
                    else Ok b
                | None => Ok b
                end) b.

Definition clear (b : CyclicDataBuilder) : CyclicDataBuilder :=
  with_write b ((fun _ => 0) <$> write_buffer b) true.

(** [copy_from_slice] panics on a length mismatch. *)
Definition swap (b : CyclicDataBuilder) : outcome CyclicDataBuilder :=
  if dirty b then
    if len (send_buffer b) =? len (write_buffer b) then
      Ok {| config := config b; write_buffer := write_buffer b; send_buffer := write_buffer b;
            dirty := false |}
    else Panic
  else Ok b.

Definition build (b : CyclicDataBuilder) : list Z := send_buffer b.

Definition load (b : CyclicDataBuilder) (p : list Z) : outcome CyclicDataBuilder :=
  let n := Z.min (len p) (len (write_buffer b)) in
  let? w := splice (write_buffer b) 0 (take (Z.to_nat n) p) in
  Ok (with_write b w true).

#[global] Arguments build_ethernet_frame : simpl never.
#[global] Arguments parse_ethernet_frame : simpl never.

(** ** Frames: lemmas *)

Definition rt_frame_ok (f : RtFrame) : Prop :=
  u16_ok (frame_id f) /\ u16_ok (cycle_counter f) /\ byte_ok (data_status f) /\
  byte_ok (transfer_status f) /\ bytes_ok (payload f).

Lemma to_bytes_length f : len (to_bytes f) = len (payload f) + 6.
Proof. unfold to_bytes. rewrite !length_app. simpl. lia. Qed.

Lemma from_bytes_safe d : safe (from_bytes d).
Proof. unfold from_bytes. wp_auto; auto. Qed.

Lemma from_to_bytes f : rt_frame_ok f -> from_bytes (to_bytes f) = Ok f.
Proof.
  intros (Hf & Hc & Hd & Ht & Hp). unfold from_bytes. rewrite to_bytes_length.
  destruct (_ <? 6) eqn:Hl; [lia|]. unfold to_bytes.
  set (tr := be16_bytes (cycle_counter f) ++ [data_status f] ++ [transfer_status f]).
  replace (be16_bytes (frame_id f) ++ payload f ++ be16_bytes (cycle_counter f)
           ++ [data_status f] ++ [transfer_status f])
    with (be16_bytes (frame_id f) ++ payload f ++ tr) by done.
  rewrite app_assoc, slice_app_suffix by (rewrite length_app; simpl; lia).
  rewrite <- app_assoc. cbn [bind]. rewrite slice_app_mid by (simpl; lia).
  unfold rd_be16, tr, be16_bytes. rewrite !idx_spec by lia. simpl.
  rewrite !be16_be16_bytes by done. by destruct f.
Qed.

Lemma bytes_be16 a b : byte_ok a -> byte_ok b -> be16_bytes (be16 a b) = [a; b].
Proof. unfold byte_ok, be16_bytes, be16. intros. repeat f_equal; zdiv. Qed.

Lemma rt_bytes_split (d : list Z) :
  6 <= len d -> exists a b p c1 c2 s x, d = a :: b :: p ++ [c1; c2; s; x].
Proof.
  intros Hl. destruct d as [|a [|b d]]; [simpl in Hl; lia..|].
  destruct (list_split4 (drop (length d - 4) d)) as (c1 & c2 & s & x & Ht).
  { rewrite length_drop. simpl in *. lia. }
  exists a, b, (take (length d - 4) d), c1, c2, s, x. by rewrite <- Ht, take_drop.
Qed.

Lemma to_from_bytes d f : bytes_ok d -> from_bytes d = Ok f -> to_bytes f = d /\ rt_frame_ok f.
Proof.
  intros Hd Hf. assert (Hl : 6 <= len d).
  { unfold from_bytes in Hf. destruct (len d <? 6) eqn:Hl; [done|lia]. }
  destruct (rt_bytes_split d Hl) as (a & b & p & c1 & c2 & s & x & ->).
  inversion Hd as [|? ? Ha Hd1]; subst. inversion Hd1 as [|? ? Hb Hd2]; subst.
  apply Forall_app in Hd2 as [Hp Hq].
  repeat match goal with H : Forall _ (_ :: _) |- _ => inversion H; clear H; subst end.
  set (g := {| frame_id := be16 a b; cycle_counter := be16 c1 c2; data_status := s;
               transfer_status := x; payload := p |}).
  assert (Hg : rt_frame_ok g) by (unfold rt_frame_ok, g; simpl; split_and!; auto using be16_ok).
  assert (Hb' : to_bytes g = a :: b :: p ++ [c1; c2; s; x]).
  { unfold to_bytes, g. cbn [frame_id payload cycle_counter data_status transfer_status].
    by rewrite !bytes_be16. }
  rewrite <- Hb', from_to_bytes in Hf by done. injection Hf as <-. done.
Qed.

Lemma parse_ethernet_total data : total (parse_ethernet_frame data) (fun _ => True).
Proof.
  unfold parse_ethernet_frame. wp_step. destruct (len data <? 18) eqn:Hl; [done|].
  apply wp_bind, wp_skip_vlan. intros o (Ho1 & _). wp_auto; auto.
  apply safe_ok_, from_bytes_safe.
Qed.

(** The envelope: one priority tag between the addresses and the EtherType. *)
Lemma parse_build_ethernet dst src f :
  length dst = 6%nat -> length src = 6%nat -> rt_frame_ok f ->
  parse_ethernet_frame (build_ethernet_frame dst src f) = Ok (Some f).
Proof.
  intros Hd Hs Hf. unfold parse_ethernet_frame.
  pose proof (to_bytes_length f) as Hlen.
  set (m := dst ++ src).
  assert (Hm : build_ethernet_frame dst src f = m ++ 0x81 :: 0 :: 0xC0 :: 0 :: 0x88 :: 0x92 :: to_bytes f).
  { unfold build_ethernet_frame, m. by rewrite <- app_assoc. }
  assert (Hml : length m = 12%nat) by (unfold m; rewrite length_app; lia).
  rewrite Hm. rewrite length_app. cbn [length]. destruct (_ <? 18) eqn:H18; [lia|].
  assert (R : forall o k, o = 12 + Z.of_nat k ->
     idx (m ++ 0x81 :: 0 :: 0xC0 :: 0 :: 0x88 :: 0x92 :: to_bytes f) o =
     match (0x81 :: 0 :: 0xC0 :: 0 :: 0x88 :: 0x92 :: to_bytes f) !! k with
     | Some x => Ok x | None => Panic end).
  { intros o k ->. rewrite idx_spec by lia. rewrite lookup_app_r by lia.
    by replace (Z.to_nat (12 + Z.of_nat k) - length m)%nat with k by lia. }
  assert (R12 : rd_be16 (m ++ 0x81 :: 0 :: 0xC0 :: 0 :: 0x88 :: 0x92 :: to_bytes f) 12 = Ok 0x8100).
  { unfold rd_be16. rewrite (R 12 0%nat), (R (12 + 1) 1%nat) by lia. done. }
  assert (R16 : rd_be16 (m ++ 0x81 :: 0 :: 0xC0 :: 0 :: 0x88 :: 0x92 :: to_bytes f) 16 = Ok 0x8892).
  { unfold rd_be16. rewrite (R 16 4%nat), (R (16 + 1) 5%nat) by lia. done. }
  rewrite (skip_vlan_eq _ 16).
  - cbn [bind]. destruct (_ <? 16 + 2) eqn:H; [lia|]. rewrite R16. cbn.
    replace (m ++ _) with ((m ++ [0x81; 0; 0xC0; 0; 0x88; 0x92]) ++ to_bytes f)
      by (by rewrite <- app_assoc).
    rewrite slice_app_suffix by (rewrite length_app; simpl; lia).
    cbn [bind]. by rewrite from_to_bytes.
  - split_and!; [lia | done | rewrite length_app; simpl; lia | |].
    + intros o Ho Hmod. assert (o = 12) as -> by zdiv.
      split; [rewrite length_app; simpl; lia|]. exists 0x8100. by rewrite R12.
    + intros (_ & t & Ht & Hp). rewrite R16 in Ht. injection Ht as <-. done.
Qed.

(** ** Layout: the objects tile the front of the C_SDU *)

(** Bytes an object occupies: its data and one IOPS, or one IOCS. *)
Definition osize (o : IoDataObject) : Z := if 0 <? o_data_length o then o_data_length o + 1 else 1.

Definition object_wf (o : IoDataObject) : Prop :=
  (0 < o_data_length o /\ iops_offset o = frame_offset o + o_data_length o /\ iocs_offset o = None)
  \/ (o_data_length o = 0 /\ iocs_offset o = Some (frame_offset o) /\ iops_offset o = 0).

Inductive laid_out : Z -> list IoDataObject -> Z -> Prop :=
| laid_nil off : laid_out off [] off
| laid_cons off o os e :
    object_wf o -> frame_offset o = off -> laid_out (off + osize o) os e -> laid_out off (o :: os) e.

Lemma osize_pos o : 0 < osize o.
Proof. unfold osize. destruct (0 <? o_data_length o) eqn:H; lia. Qed.

Lemma osize_ge o : o_data_length o <= osize o.
Proof. unfold osize. destruct (0 <? o_data_length o) eqn:H; lia. Qed.

Lemma laid_out_app off os1 m os2 e :
  laid_out off os1 m -> laid_out m os2 e -> laid_out off (os1 ++ os2) e.
Proof. induction 1; simpl; [done|]. intros. econstructor; eauto. Qed.

Lemma laid_out_in off os e o :
  laid_out off os e -> o ∈ os ->
  object_wf o /\ off <= frame_offset o /\ frame_offset o + osize o <= e.
Proof.
  intros H. revert o. assert (G : off <= e /\ forall o, o ∈ os -> object_wf o /\
    off <= frame_offset o /\ frame_offset o + osize o <= e); [|apply G].
  induction H as [off|off o os e Hwf Ho H [IH1 IH2]]; [split; [lia|set_solver]|].
  pose proof (osize_pos o). split; [lia|].
  intros o' [->|Hin]%elem_of_cons; [split; [done|lia]|].
  destruct (IH2 o' Hin) as (? & ? & ?). split; [done|lia].
Qed.

Lemma laid_out_le off os e : laid_out off os e -> off <= e.
Proof. induction 1 as [|off o os e ? ? ? IH]; [lia|]. pose proof (osize_pos o). lia. Qed.

(** Two different objects share no byte. *)
Lemma laid_out_disjoint off os e o1 o2 :
  laid_out off os e -> o1 ∈ os -> o2 ∈ os -> o1 <> o2 ->
  frame_offset o1 + osize o1 <= frame_offset o2 \/ frame_offset o2 + osize o2 <= frame_offset o1.
Proof.
  induction 1 as [off|off o os e Hwf Ho H IH]; [set_solver|].
  intros [->|H1]%elem_of_cons [->|H2]%elem_of_cons Hne; [done| | |by apply IH].
  - destruct (laid_out_in _ _ _ _ H H2) as (_ & ? & _). lia.
  - destruct (laid_out_in _ _ _ _ H H1) as (_ & ? & _). lia.
Qed.

Lemma data_objects_laid f slots : forall off os e,
  data_objects f slots off = (os, e) -> laid_out off os e.
Proof.
  induction slots as [|s slots IH]; simpl; intros off os e.
  { intros [= <- <-]. constructor. }
  destruct (0 <? f s) eqn:Hs; [|apply IH].
  destruct (data_objects f slots _) as [os' e'] eqn:E. intros [= <- <-].
  constructor; [left; simpl; split_and!; [lia|done|done]|done|].
  unfold osize. simpl. rewrite Hs. by apply IH.
Qed.

Lemma iocs_objects_laid f slots : forall off os e,
  iocs_objects f slots off = (os, e) -> laid_out off os e.
Proof.
  induction slots as [|s slots IH]; simpl; intros off os e.
  { intros [= <- <-]. constructor. }
  destruct (f s =? 0) eqn:Hs; [|apply IH].
  destruct (iocs_objects f slots _) as [os' e'] eqn:E. intros [= <- <-].
  constructor; [right; by simpl|done|].
  unfold osize. simpl. by apply IH.
Qed.

Definition config_ok (c : IocrConfig) : Prop :=
  exists e, laid_out 0 (objects c) e /\ e <= data_length c.

Lemma build_iocr_configs_ok slots fi fo scf rr wf :
  config_ok (fst (build_iocr_configs slots fi fo scf rr wf)) /\
  config_ok (snd (build_iocr_configs slots fi fo scf rr wf)) /\
  40 <= data_length (fst (build_iocr_configs slots fi fo scf rr wf)) /\
  40 <= data_length (snd (build_iocr_configs slots fi fo scf rr wf)).
Proof.
  unfold build_iocr_configs.
  destruct (data_objects input_length slots 0) as [oi ei] eqn:Ei.
  destruct (data_objects output_length slots 0) as [oo eo] eqn:Eo.
  destruct (iocs_objects output_length slots eo) as [oc ec] eqn:Ec.
  destruct (iocs_objects input_length slots ei) as [oj ej] eqn:Ej.
  cbn [fst snd objects data_length].
  pose proof (iocs_objects_laid _ _ _ _ _ Ej) as Hj%laid_out_le.
  split_and!; try lia; unfold config_ok; cbn [objects data_length].
  - exists ei. split; [by apply data_objects_laid in Ei|lia].
  - exists ec. split; [|lia]. eapply laid_out_app.
    + by apply data_objects_laid in Eo.
    + by apply iocs_objects_laid in Ec.
Qed.

(** ** The builder: invariant and preservation *)

Definition builder_ok (b : CyclicDataBuilder) : Prop :=
  config_ok (config b) /\ len (write_buffer b) = data_length (config b) /\
  len (send_buffer b) = data_length (config b).

Lemma object_for_in s ss os o :
  object_for s ss os = Some o -> o ∈ os /\ o_slot o = s /\ o_subslot o = ss.
Proof. intros [H1 H2]%find_some. split; [by apply list_elem_of_In|lia]. Qed.

Lemma config_ok_in c o :
  config_ok c -> o ∈ objects c ->
  object_wf o /\ 0 <= frame_offset o /\ frame_offset o + osize o <= data_length c.
Proof.
  intros (e & He & Hle) Hin. destruct (laid_out_in _ _ _ _ He Hin) as (? & ? & ?).
  split; [done|lia].
Qed.

Lemma config_ok_iocs c o off :
  config_ok c -> o ∈ objects c -> iocs_offset o = Some off -> 0 <= off < data_length c.
Proof.
  intros Hc Hin Ho. destruct (config_ok_in c o Hc Hin) as ([(_ & _ & ?)|(? & E & _)] & ? & ?);
    [congruence|]. pose proof (osize_pos o). assert (off = frame_offset o) by congruence. lia.
Qed.

Lemma config_ok_iops c o :
  config_ok c -> o ∈ objects c -> 0 < o_data_length o ->
  iops_offset o = frame_offset o + o_data_length o /\ 0 <= iops_offset o < data_length c /\
  osize o = o_data_length o + 1.
Proof.
  intros Hc Hin Hp. destruct (config_ok_in c o Hc Hin) as ([(_ & ? & ?)|(? & E & _)] & ? & Hs); [|lia].
  unfold osize in *. destruct (0 <? o_data_length o) eqn:E; lia.
Qed.

Lemma config_ok_data c o :
  config_ok c -> o ∈ objects c ->
  0 <= frame_offset o /\ 0 <= o_data_length o /\ frame_offset o + o_data_length o <= data_length c.
Proof.
  intros Hc Hin. destruct (config_ok_in c o Hc Hin) as (Hwf & ? & Hs).
  unfold osize in Hs. destruct Hwf as [(? & _)|[? _]]; destruct (0 <? o_data_length o) eqn:E; lia.
Qed.

Lemma config_ok_offsets c o :
  config_ok c -> o ∈ objects c -> 0 <= iops_offset o /\ 0 <= frame_offset o /\ 0 <= o_data_length o.
Proof.
  intros Hc Hin. destruct (config_ok_in c o Hc Hin) as ([(? & ? & ?)|(? & ? & ?)] & ? & _); lia.
Qed.

Lemma builder_ok_write b w d :
  builder_ok b -> len w = len (write_buffer b) -> builder_ok (with_write b w d).
Proof. intros (? & ? & ?) ?. unfold builder_ok. simpl. split_and!; [done|lia|done]. Qed.

Lemma builder_new_ok c : config_ok c -> builder_ok (builder_new c).
Proof.
  intros Hc. assert (0 <= data_length c).
  { destruct Hc as (e & He%laid_out_le & ?). lia. }
  unfold builder_ok, builder_new. simpl. rewrite !len_rep by done. done.
Qed.

Lemma set_data_wp b s ss data o E :
  builder_ok b -> object_for s ss (objects (config b)) = Some o ->
  wp (set_data b s ss data)
     (fun b' => exists w, b' = with_write b w true /\ builder_ok b' /\
        splice (write_buffer b) (frame_offset o)
          (take (Z.to_nat (Z.min (len data) (o_data_length o))) data) = Ok w) E.
Proof.
  intros Hb Ho. pose proof Hb as (Hc & Hw & _).
  destruct (object_for_in _ _ _ _ Ho) as (Hin & _).
  destruct (config_ok_data _ _ Hc Hin) as (? & ? & ?).
  unfold set_data. rewrite Ho.
  destruct (splice _ _ _) as [w|e| |] eqn:Es.
  - cbn. exists w. split_and!; [done| |done].
    apply builder_ok_write; [done|]. by apply splice_length in Es as [? _].
  - unfold splice in Es. destruct (_ && _); discriminate.
  - rewrite splice_ok in Es; [done|lia|]. rewrite length_take. lia.
  - unfold splice in Es. destruct (_ && _); discriminate.
Qed.

Lemma set_iops_wp b s ss v E : builder_ok b -> wp (set_iops b s ss v) builder_ok E.
Proof.
  intros Hb. pose proof Hb as (Hc & Hw & _). unfold set_iops.
  destruct (object_for s ss _) as [o|] eqn:Ho; [|done].
  destruct (object_for_in _ _ _ _ Ho) as (Hin & _).
  destruct (0 <? _) eqn:Hd; [|done].
  destruct (config_ok_iops _ _ Hc Hin) as (_ & ? & _); [lia|].
  apply wp_bind, wp_set_idx; [lia|]. cbn. apply builder_ok_write; [done|].
  by rewrite length_insert.
Qed.

Lemma set_iocs_wp b s ss v E : builder_ok b -> wp (set_iocs b s ss v) builder_ok E.
Proof.
  intros Hb. pose proof Hb as (Hc & Hw & _). unfold set_iocs.
  destruct (object_for s ss _) as [o|] eqn:Ho; [|done].
  destruct (object_for_in _ _ _ _ Ho) as (Hin & _).
  destruct (iocs_offset o) as [off|] eqn:Hoff; [|done].
  pose proof (config_ok_iocs _ _ _ Hc Hin Hoff).
  apply wp_bind, wp_set_idx; [lia|]. cbn. apply builder_ok_write; [done|].
  by rewrite length_insert.
Qed.

Lemma set_all_iops_wp b v E : builder_ok b -> wp (set_all_iops b v) builder_ok E.
Proof.
  intros Hb. pose proof Hb as (Hc & Hw & _). unfold set_all_iops. apply wp_bind.
  eapply wp_mono; [apply wp_for_each with (I := fun w => len w = data_length (config b))| |done].
  - done.
  - intros o w Hin Hl. destruct (0 <? _) eqn:Hd; [|done].
    destruct (config_ok_iops _ _ Hc Hin) as (_ & ? & _); [lia|].
    apply wp_set_idx; [lia|]. by rewrite length_insert.
  - intros w Hl. apply builder_ok_write; [done|]. simpl in *. lia.
Qed.

(** Every object keeps the configuration, so the loop's index checks hold. *)
Lemma set_all_iocs_wp b v E :
  builder_ok b -> wp (set_all_iocs b v) (fun b' => builder_ok b' /\ config b' = config b) E.
Proof.
  intros Hb. unfold set_all_iocs.
  apply wp_for_each with (I := fun b' => builder_ok b' /\ config b' = config b); [done|].
  intros o b' Hin (Hb' & Hcfg). pose proof Hb' as (Hc & Hw & _).
  destruct (iocs_offset o) as [off|] eqn:Hoff; [|done].
  rewrite <- Hcfg in Hin. pose proof (config_ok_iocs _ _ _ Hc Hin Hoff).
  wp_auto; [|done]. apply wp_set_idx; [lia|]. cbn. split; [|done].
  apply builder_ok_write; [done|]. by rewrite length_insert.
Qed.

Lemma clear_ok b : builder_ok b -> builder_ok (clear b).
Proof. intros. apply builder_ok_write; [done|]. by rewrite length_fmap. Qed.

Lemma swap_wp b E :
  builder_ok b ->
  wp (swap b) (fun b' => builder_ok b' /\ config b' = config b /\
                         write_buffer b' = write_buffer b /\
                         (dirty b = true -> build b' = write_buffer b) /\ dirty b' = false) E.
Proof.
  intros Hb. pose proof Hb as (Hc & Hw & Hs). unfold swap. destruct (dirty b) eqn:Hd.
  - replace (len (send_buffer b) =? len (write_buffer b)) with true by lia.
    cbn. split_and!; try done.
  - cbn. split_and!; done.
Qed.

Lemma load_wp b p E : builder_ok b -> wp (load b p) builder_ok E.
Proof.
  intros Hb. unfold load. apply wp_bind.
  rewrite splice_ok by (rewrite ?length_take; lia). cbn.
  apply builder_ok_write; [done|].
  rewrite !length_app, length_drop, !length_take. lia.
Qed.

(** [get_data] reads a laid-out object without a panic. *)
Lemma get_data_wp b s ss o E :
  builder_ok b -> object_for s ss (objects (config b)) = Some o ->
  wp (get_data b s ss) (fun d => len d = o_data_length o) E.
Proof.
  intros Hb Ho. pose proof Hb as (Hc & Hw & _).
  destruct (object_for_in _ _ _ _ Ho) as (Hin & _).
  destruct (config_ok_data _ _ Hc Hin) as (? & ? & ?).
  unfold get_data. rewrite Ho. apply wp_slice; [lia|lia|]. intros. lia.
Qed.

(** ** Contents of the image

    Both buffers hold bytes, and without unswapped changes they are equal. *)

Definition image_bytes (b : CyclicDataBuilder) : Prop :=
  bytes_ok (write_buffer b) /\ bytes_ok (send_buffer b) /\
  (dirty b = false -> send_buffer b = write_buffer b).

Lemma set_idx_bytes l i v w : bytes_ok l -> byte_ok v -> set_idx l i v = Ok w -> bytes_ok w.
Proof.
  unfold set_idx. intros Hl Hv. destruct (_ && _); [|done]. intros [= <-].
  by apply Forall_insert.
Qed.
Lemma splice_bytes l off src w : bytes_ok l -> bytes_ok src -> splice l off src = Ok w -> bytes_ok w.
Proof.
  unfold splice. intros Hl Hs. destruct (_ && _); [|done]. intros [= <-].
  apply Forall_app; split; [by apply Forall_take|].
  apply Forall_app; split; [done|by apply Forall_drop].
Qed.

Lemma builder_new_image c : image_bytes (builder_new c).
Proof.
  unfold image_bytes. split_and!; [| |done]; apply Forall_replicate; unfold byte_ok; lia.
Qed.

Lemma set_data_image b s ss d b' :
  bytes_ok d -> image_bytes b -> set_data b s ss d = Ok b' -> image_bytes b' /\ config b' = config b.
Proof.
  intros Hd (Hw & Hs & Hy). unfold set_data. destruct (object_for _ _ _); [|done].
  intros (w & Hsp & [= <-])%bind_Ok_inv. split; [|done]. split; [|by split]. simpl.
  eapply splice_bytes; [exact Hw| |exact Hsp]. by apply Forall_take.
Qed.
Lemma set_iops_image b s ss v b' :
  byte_ok v -> image_bytes b -> set_iops b s ss v = Ok b' -> image_bytes b' /\ config b' = config b.
Proof.
  intros Hv (Hw & Hs & Hy). unfold set_iops. destruct (object_for _ _ _); [|by intros [= <-]].
  destruct (0 <? _); [|by intros [= <-]].
  intros (w & Hsp & [= <-])%bind_Ok_inv. split; [|done]. split; [|by split].
  eapply set_idx_bytes; [exact Hw|exact Hv|exact Hsp].
Qed.
Lemma for_each_inv {X S} (I : S -> Prop) (l : list X) body s s' :
  (forall x s s', I s -> body x s = Ok s' -> I s') -> I s -> for_each l body s = Ok s' -> I s'.
Proof.
  intros Hb. revert s. induction l as [|x l IH]; intros s Hs; cbn [for_each]; [by intros [= <-]|].
  intros (s1 & H1 & H2)%bind_Ok_inv. eauto.
Qed.
Lemma set_all_iops_image b v b' :
  byte_ok v -> image_bytes b -> set_all_iops b v = Ok b' -> image_bytes b' /\ config b' = config b.
Proof.
  intros Hv (Hw & Hs & Hy). unfold set_all_iops. intros (w & Hsp & [= <-])%bind_Ok_inv.
  split; [|done]. split; [|by split]. simpl. revert Hsp. apply for_each_inv; [|done].
  intros o w1 w2 Hw1. destruct (0 <? _); [by apply set_idx_bytes|by intros [= <-]].
Qed.
Lemma set_all_iocs_image b v b' :
  byte_ok v -> image_bytes b -> set_all_iocs b v = Ok b' -> image_bytes b' /\ config b' = config b.
Proof.
  intros Hv Hb. unfold set_all_iocs.
  apply (for_each_inv (fun b' => image_bytes b' /\ config b' = config b)); [|done].
  intros o b1 b2 [(Hw & Hs & Hy) Hc]. destruct (iocs_offset o); [|by intros [= <-]].
  intros (x & _ & H)%bind_Ok_inv. destruct (negb _); [|by injection H as <-].
  apply bind_Ok_inv in H as (w & Hsp & [= <-]). split; [|done]. split; [|by split].
  eapply set_idx_bytes; [exact Hw|exact Hv|exact Hsp].
Qed.
Lemma swap_image b b' : image_bytes b -> swap b = Ok b' -> image_bytes b' /\ config b' = config b.
Proof.
  intros Hb. pose proof Hb as (Hw & Hs & Hy). unfold swap. destruct (dirty b) eqn:Hd; [|by intros [= <-]].
  destruct (_ =? _); [|done]. by intros [= <-].
Qed.

(** What a swap publishes is the written image. *)
Lemma swap_publishes b b' :
  image_bytes b -> swap b = Ok b' ->
  build b' = write_buffer b /\ write_buffer b' = write_buffer b /\ dirty b' = false.
Proof.
  intros (_ & _ & Hy). unfold swap, build. destruct (dirty b) eqn:Hd.
  - destruct (_ =? _); [|done]. by intros [= <-].
  - intros [= <-]. auto.
Qed.

(** ** What the builder promises *)

(** The operations of the builder as a program of its client. *)
Inductive builder_op :=
| OpSetData (s ss : Z) (data : list Z)
| OpSetIops (s ss v : Z)
| OpSetIocs (s ss v : Z)
| OpSetAllIops (v : Z)
| OpSetAllIocs (v : Z)
| OpClear
| OpSwap
| OpLoad (p : list Z).

(** A failed [set_data] leaves the builder alone: the caller gets the error and
    goes on. *)
Definition run_op (b : CyclicDataBuilder) (op : builder_op) : outcome CyclicDataBuilder :=
  match op with
  | OpSetData s ss data =>
      let? r := ok_ (set_data b s ss data) in Ok (default b r)
  | OpSetIops s ss v => set_iops b s ss v
  | OpSetIocs s ss v => set_iocs b s ss v
  | OpSetAllIops v => set_all_iops b v
  | OpSetAllIocs v => set_all_iocs b v
  | OpClear => Ok (clear b)
  | OpSwap => swap b
  | OpLoad p => load b p
  end.

Lemma run_op_ok op b : builder_ok b -> total (run_op b op) builder_ok.
Proof.
  intros Hb. destruct op; cbn [run_op].
  - destruct (object_for s ss (objects (config b))) as [o|] eqn:Ho.
    + pose proof (set_data_wp b s ss data o (fun _ => True) Hb Ho) as H.
      apply wp_bind. destruct (set_data _ _ _ _); simpl in *; try done.
      by destruct H as (w & -> & ? & _).
    + unfold set_data. by rewrite Ho.
  - by apply set_iops_wp.
  - by apply set_iocs_wp.
  - by apply set_all_iops_wp.
  - eapply wp_mono; [by apply (set_all_iocs_wp _ _ (fun _ => False))| |done]. by intros ? [? _].
  - by apply clear_ok.
  - eapply wp_mono; [by apply (swap_wp _ (fun _ => False))| |done]. by intros ? (? & _).
  - by apply load_wp.
Qed.

(** Whatever the slot list, the process images sized by
    [build_iocr_configs] never make an operation of the builder index out of
    range: every sequence of operations runs through, and keeps the objects
    tiling the buffer and both buffers at the length of the C_SDU. *)
Theorem builder_never_panics slots fi fo scf rr wf ops :
  let cfg := build_iocr_configs slots fi fo scf rr wf in
  total (for_each ops (fun op b => run_op b op) (builder_new (fst cfg))) builder_ok /\
  total (for_each ops (fun op b => run_op b op) (builder_new (snd cfg))) builder_ok.
Proof.
  destruct (build_iocr_configs_ok slots fi fo scf rr wf) as (H1 & H2 & _).
  split; (apply wp_for_each; [by apply builder_new_ok|]; intros; by apply run_op_ok).
Qed.

(** C17: Writing process data: the object of the slot/subslot then holds the
    written prefix over the rest of its old data; every range of the image
    disjoint from the object's data, the other objects' data in particular,
    is as before; the frame being sent is not affected until [swap], which
    publishes exactly the written image.  An unknown slot/subslot is an error
    for both directions. *)
Theorem process_image_spec b s ss data :
  builder_ok b ->
  match object_for s ss (objects (config b)) with
  | None => set_data b s ss data = Err (unknown_slot s ss) /\
            get_data b s ss = Err (unknown_slot s ss)
  | Some o =>
      let n := Z.to_nat (Z.min (len data) (o_data_length o)) in
      exists b' old b'',
        get_data b s ss = Ok old /\ set_data b s ss data = Ok b' /\ builder_ok b' /\
        get_data b' s ss = Ok (take n data ++ drop n old) /\
        (forall a c, 0 <= a <= c ->
           c <= frame_offset o \/ frame_offset o + o_data_length o <= a ->
           slice (write_buffer b') a c = slice (write_buffer b) a c) /\
        (forall s' ss', (s', ss') <> (s, ss) -> get_data b' s' ss' = get_data b s' ss') /\
        build b' = build b /\ swap b' = Ok b'' /\ build b'' = write_buffer b'
  end.
Proof.
  intros Hb. destruct (object_for s ss _) as [o|] eqn:Ho.
  2: { unfold set_data, get_data. by rewrite Ho. }
  set (n := Z.to_nat (Z.min (len data) (o_data_length o))). cbv zeta.
  pose proof Hb as (Hc & Hw & _). destruct (object_for_in _ _ _ _ Ho) as (Hin & Hs & Hss).
  destruct (config_ok_data _ _ Hc Hin) as (Hf0 & Hd0 & Hfd).
  destruct (total_Ok _ _ (get_data_wp b s ss o _ Hb Ho)) as (old & Hold & Hlold).
  destruct (total_Ok _ _ (set_data_wp b s ss data o _ Hb Ho)) as (b' & Hset & w & -> & Hb' & Hsp).
  fold n in Hsp. destruct (total_Ok _ _ (swap_wp _ _ Hb')) as (b'' & Hsw & _ & _ & _ & Hpub & _).
  assert (Hfr : forall a c, 0 <= a <= c ->
     c <= frame_offset o \/ frame_offset o + o_data_length o <= a -> slice w a c = slice (write_buffer b) a c).
  { intros a c Hac Hd. eapply slice_splice_other; [exact Hsp|done|].
    rewrite length_take. lia. }
  exists (with_write b w true), old, b''. split_and!; auto.
  - unfold get_data in Hold |- *. simpl. rewrite Ho in Hold |- *.
    rewrite slice_ok in Hold by lia. injection Hold as <-.
    destruct (splice_length _ _ _ _ Hsp) as (Hlw & _ & _).
    rewrite slice_ok by lia. f_equal.
    rewrite splice_ok in Hsp by (rewrite ?length_take; lia). injection Hsp as <-.
    rewrite drop_app_length' by (rewrite length_take; lia).
    rewrite take_app_ge by (rewrite length_take; lia). f_equal.
    rewrite skipn_firstn_comm, drop_drop, length_take.
    f_equal; [|f_equal]; lia.
  - intros s' ss' Hne. unfold get_data. simpl.
    destruct (object_for s' ss' _) as [o'|] eqn:Ho'; [|done].
    destruct (object_for_in _ _ _ _ Ho') as (Hin' & Hs' & Hss').
    destruct (config_ok_data _ _ Hc Hin') as (? & ? & ?).
    apply Hfr; [lia|]. destruct Hc as (e & He & _).
    assert (Hoo : o <> o') by (intros <-; apply Hne; by rewrite <- Hs, <- Hss, <- Hs', <- Hss').
    pose proof (osize_ge o). pose proof (osize_ge o').
    clear - He Hin Hin' Hoo H2 H3. destruct (laid_out_disjoint _ _ _ o o' He Hin Hin' Hoo); lia.
Qed.

Definition demo_slots : list IoSlot :=
  [ {| slot := 0; subslot := 1; module_ident := 1; submodule_ident := 1; input_length := 0; output_length := 0 |};
    {| slot := 1; subslot := 1; module_ident := 2; submodule_ident := 3; input_length := 2; output_length := 3 |};
    {| slot := 2; subslot := 1; module_ident := 4; submodule_ident := 5; input_length := 0; output_length := 2 |} ].

Definition demo_builder : CyclicDataBuilder :=
  builder_new (snd (build_iocr_configs demo_slots 0xC001 0x8001 32 32 3)).

Lemma demo_builder_ok : builder_ok demo_builder.
Proof. apply builder_new_ok, build_iocr_configs_ok. Qed.

Lemma process_image_spec_witness :
  builder_ok demo_builder /\
  exists b', set_data demo_builder 1 1 [7; 8] = Ok b' /\
             get_data b' 1 1 = Ok [7; 8; 0] /\ get_data b' 2 1 = Ok [0; 0].
Proof.
  split; [exact demo_builder_ok|].
  pose proof (process_image_spec demo_builder 1 1 [7; 8] demo_builder_ok) as H.
  assert (Ho : object_for 1 1 (objects (config demo_builder)) =
    Some {| o_slot := 1; o_subslot := 1; frame_offset := 0; o_data_length := 3;
            iops_offset := 3; iocs_offset := None |}) by reflexivity.
  assert (G1 : get_data demo_builder 1 1 = Ok [0; 0; 0]) by reflexivity.
  assert (G2 : get_data demo_builder 2 1 = Ok [0; 0]) by reflexivity.
  rewrite Ho in H. destruct H as (b' & old & b'' & H1 & H2 & _ & H3 & _ & H4 & _).
  rewrite G1 in H1. injection H1 as <-.
  exists b'. split; [exact H2|]. split; [exact H3|].
  rewrite H4, G2; [reflexivity|]. intros [=].
Defined.

(** RT frames survive the wire: a frame built with its priority tag and
    Ethernet header parses back to itself; conversely the bytes of any frame
    that parses are the serialization of the result, whose fields are in
    range; and the parser is total on arbitrary input. *)
Theorem rt_frame_roundtrip :
  (forall dst src f, length dst = 6%nat -> length src = 6%nat -> rt_frame_ok f ->
     parse_ethernet_frame (build_ethernet_frame dst src f) = Ok (Some f)) /\
  (forall f, rt_frame_ok f -> from_bytes (to_bytes f) = Ok f) /\
  (forall d f, bytes_ok d -> from_bytes d = Ok f -> to_bytes f = d /\ rt_frame_ok f) /\
  (forall d, total (parse_ethernet_frame d) (fun _ => True)).
Proof.
  split_and!.
  - apply parse_build_ethernet.
  - apply from_to_bytes.
  - apply to_from_bytes.
  - apply parse_ethernet_total.
Qed.

Lemma rt_frame_roundtrip_witness :
  let f := {| frame_id := 0x8001; cycle_counter := 0x1234; data_status := 0x35;
              transfer_status := 0; payload := [1; 2; 3] |} in
  rt_frame_ok f /\
  parse_ethernet_frame (build_ethernet_frame [1;2;3;4;5;6] [7;8;9;10;11;12] f) = Ok (Some f).
Proof.
  assert (H : rt_frame_ok {| frame_id := 0x8001; cycle_counter := 0x1234; data_status := 0x35;
              transfer_status := 0; payload := [1; 2; 3] |}).
  { unfold rt_frame_ok, bytes_ok, byte_ok, u16_ok. simpl.
    split_and!; try lia. repeat constructor; lia. }
  split; [exact H|]. apply (proj1 rt_frame_roundtrip); [reflexivity|reflexivity|exact H].
Defined.
