(* ===== verification/Blocks.v ===== *)
(** * Record blocks ([src/src/blocks.rs]) *)

From S2P Require Import Prelude.

Definition IOD_READ_REQUEST_HEADER : Z := 0x0009.
Definition IOD_WRITE_REQUEST_HEADER : Z := 0x0008.
Definition IOD_WRITE_RESPONSE_HEADER : Z := 0x8008.
Definition IOD_WRITE_MULTIPLE_INDEX : Z := 0xE040.

Definition block_header (block_type block_length ver_high ver_low : Z) : list Z :=
  be16_bytes block_type ++ be16_bytes block_length ++ [ver_high] ++ [ver_low].

Definition pniod_header (block_type seq : Z) (ar_uuid : list Z)
    (api slot subslot index length_ : Z) (payload : list Z) : list Z :=
  block_header block_type 60 1 0 ++ be16_bytes seq ++ ar_uuid ++ be32_bytes api
  ++ be16_bytes slot ++ be16_bytes subslot ++ be16_bytes 0 ++ be16_bytes index
  ++ be32_bytes length_ ++ rep 16 0 ++ rep 8 0 ++ payload.

Definition iod_read_request (ar_uuid : list Z) (api slot subslot index length_ : Z) : list Z :=
  pniod_header IOD_READ_REQUEST_HEADER 0 ar_uuid api slot subslot index length_ [].

Definition iod_write_request (ar_uuid : list Z) (api slot subslot index : Z) (payload : list Z)
    : list Z :=
  pniod_header IOD_WRITE_REQUEST_HEADER 0 ar_uuid api slot subslot index
    (as_u32 (len payload)) payload.

(** One write of an IODWriteMultipleReq: (api, slot, subslot, index, data). *)
Record MultiWrite := {
  mw_api : Z;
  mw_slot : Z;
  mw_subslot : Z;
  mw_index : Z;
  mw_data : list Z;
}.

Definition pad4 (n : Z) : Z := (4 - n mod 4) mod 4.

(** The [for (i, w) in writes.iter().enumerate()] loop from position [i]; the
    last block is not padded. *)
Fixpoint write_blocks (ar_uuid : list Z) (i : Z) (writes : list MultiWrite) : list Z :=
  match writes with
  | [] => []
  | w :: ws =>
      let block := pniod_header IOD_WRITE_REQUEST_HEADER (as_u16 i) ar_uuid (mw_api w) (mw_slot w)
                     (mw_subslot w) (mw_index w) (as_u32 (len (mw_data w))) (mw_data w) in
      let pad := match ws with [] => [] | _ => rep (pad4 (len block)) 0 end in
      block ++ pad ++ write_blocks ar_uuid (i + 1) ws
  end.

Definition iod_write_multiple_payload (ar_uuid : list Z) (seq_num : Z) (writes : list MultiWrite)
    : list Z :=
  let blocks := write_blocks ar_uuid 0 writes in
  pniod_header IOD_WRITE_REQUEST_HEADER seq_num ar_uuid 0xFFFFFFFF 0xFFFF 0xFFFF
    IOD_WRITE_MULTIPLE_INDEX (as_u32 (len blocks)) []
  ++ blocks.

Record WriteMultipleResult := {
  wr_seq_num : Z;
  wr_api : Z;
  wr_slot : Z;
  wr_subslot : Z;
  wr_index : Z;
  wr_status : Z;
  additional_value1 : Z;
  additional_value2 : Z;
}.

Definition success (r : WriteMultipleResult) : bool := wr_status r =? 0.

Definition write_response_entry (entry : list Z) : outcome WriteMultipleResult :=
  let? seq := rd_be16 entry 6 in
  let? api := rd_be32 entry 24 in
  let? sl := rd_be16 entry 28 in
  let? ss := rd_be16 entry 30 in
  let? ix := rd_be16 entry 34 in
  let? st := rd_be32 entry 44 in
  let? a1 := rd_be16 entry 40 in
  let? a2 := rd_be16 entry 42 in
  Ok {| wr_seq_num := seq; wr_api := api; wr_slot := sl; wr_subslot := ss; wr_index := ix;
        wr_status := st; additional_value1 := a1; additional_value2 := a2 |}.

(** The loop state: results so far and the offset. *)
Definition write_response_body (data : list Z) (end_ : Z)
    (st : list WriteMultipleResult * Z)
    : outcome (step (list WriteMultipleResult * Z) (list WriteMultipleResult)) :=
  let (results, offset) := st in
  if offset + 56 <=? end_ then
    let? entry := slice data offset (offset + 56) in
    let? ty := rd_be16 entry 0 in
    if negb (ty =? IOD_WRITE_RESPONSE_HEADER) then Ok (Break results)
    else
      let? r := write_response_entry entry in
      let? bl := rd_be16 entry 2 in
      let block_size := 4 + bl in
      let pad := pad4 block_size in
      Ok (Continue (results ++ [r], offset + (block_size + pad)))
  else Ok (Break results).

Definition parse_write_multiple_response (data : list Z) : outcome (list WriteMultipleResult) :=
  if len data <? 64 then Ok []
  else
    let? record_len := rd_be32 data 36 in
    let end_ := Z.min (64 + record_len) (len data) in
    loop (S (length data)) (write_response_body data end_) ([], 64).

(** ** Lemmas *)

Lemma pad4_spec n : 0 <= pad4 n < 4 /\ (n + pad4 n) mod 4 = 0.
Proof. unfold pad4. split; zdiv. Qed.

Lemma slice_bytes_ok d a b r : bytes_ok d -> slice d a b = Ok r -> bytes_ok r.
Proof. apply slice_Forall. Qed.

Lemma write_response_entry_wp e P E :
  48 <= len e -> (forall r, P r) -> wp (write_response_entry e) P E.
Proof. intros. unfold write_response_entry. wp_auto. auto. Qed.

(** The walk advances by at least four bytes per result, whatever lengths the
    device claims. *)
Lemma parse_write_multiple_total data :
  bytes_ok data ->
  total (parse_write_multiple_response data) (fun rs => 4 * len rs <= len data).
Proof.
  intros Hd. unfold parse_write_multiple_response. wp_step.
  destruct (len data <? 64) eqn:Hl; [cbn; lia|].
  wp_step. apply wp_rd_be32; [lia|lia|]. intros n Hn. specialize (Hn Hd).
  set (end_ := Z.min (64 + n) (len data)). assert (end_ <= len data) by lia.
  apply wp_loop with
    (I := fun s : list WriteMultipleResult * Z =>
            64 <= snd s /\ 4 * len (fst s) + 64 <= snd s /\ 4 * len (fst s) <= len data)
    (m := fun s : list WriteMultipleResult * Z => Z.to_nat (len data + 1 - snd s)).
  - intros [rs o] (H1 & H2 & H3). cbn [fst snd] in *. unfold write_response_body.
    destruct (o + 56 <=? end_) eqn:Ho; [|by cbn].
    wp_step. apply wp_slice; [lia|lia|]. intros e He Hle.
    assert (Hbe : bytes_ok e) by (eapply slice_bytes_ok; eauto).
    wp_step. apply wp_rd_be16; [lia|lia|]. intros ty _.
    destruct (negb _); [by cbn|].
    wp_step. apply write_response_entry_wp; [lia|]. intros r.
    wp_step. apply wp_rd_be16; [lia|lia|]. intros bl Hbl. specialize (Hbl Hbe).
    pose proof (pad4_spec (4 + bl)). unfold u16_ok in Hbl. cbn. rewrite length_app. simpl. lia.
  - cbn. lia.
  - cbn. lia.
Qed.

(** ** The device's side of a record write *)

Record WriteReq := {
  q_seq : Z;
  q_ar_uuid : list Z;
  q_write : MultiWrite;
}.

(** Reads one IODWriteReq at the front of [d] by the record layout of the
    specification; the rest of [d] follows its record data. *)
Definition read_write_req (d : list Z) : outcome (WriteReq * list Z) :=
  let? ty := rd_be16 d 0 in
  let? bl := rd_be16 d 2 in
  if negb ((ty =? IOD_WRITE_REQUEST_HEADER) && (bl =? 60)) then Err "not an IODWriteReq"%string else
  let? seq := rd_be16 d 6 in
  let? u := slice d 8 24 in
  let? api := rd_be32 d 24 in
  let? sl := rd_be16 d 28 in
  let? ss := rd_be16 d 30 in
  let? ix := rd_be16 d 34 in
  let? n := rd_be32 d 36 in
  let? data := slice d 64 (64 + n) in
  let? rest := slice_from d (64 + n) in
  Ok ({| q_seq := seq; q_ar_uuid := u;
         q_write := {| mw_api := api; mw_slot := sl; mw_subslot := ss; mw_index := ix;
                       mw_data := data |} |}, rest).

(** Reads the blocks of an IODWriteMultipleReq, which start at multiples of
    four; [fuel] bounds their number. *)
Fixpoint read_write_blocks (fuel : nat) (d : list Z) : outcome (list WriteReq) :=
  match fuel, d with
  | _, [] => Ok []
  | O, _ => OutOfFuel
  | S fuel, _ =>
      let? p := read_write_req d in
      let? rest := match snd p with
                   | [] => Ok []
                   | r => slice_from r (pad4 (len d - len r))
                   end in
      let? qs := read_write_blocks fuel rest in
      Ok (fst p :: qs)
  end.

Definition multi_write_ok (w : MultiWrite) : Prop :=
  u32_ok (mw_api w) /\ u16_ok (mw_slot w) /\ u16_ok (mw_subslot w) /\ u16_ok (mw_index w) /\
  len (mw_data w) < 4294967296.

Lemma pniod_header_length ty seq u api sl ss ix n p :
  length u = 16%nat -> len (pniod_header ty seq u api sl ss ix n p) = 64 + len p.
Proof.
  intros Hu. unfold pniod_header. rewrite !length_app, Hu.
  unfold rep. rewrite !length_replicate. simpl. lia.
Qed.

(** The block with its payload, then anything: the reader recovers the fields. *)
Lemma read_write_req_block seq u w rest :
  u16_ok seq -> length u = 16%nat -> multi_write_ok w ->
  read_write_req
    (pniod_header IOD_WRITE_REQUEST_HEADER seq u (mw_api w) (mw_slot w) (mw_subslot w) (mw_index w)
       (as_u32 (len (mw_data w))) (mw_data w) ++ rest)
  = Ok ({| q_seq := seq; q_ar_uuid := u; q_write := w |}, rest).
Proof.
  intros Hs Hu (Ha & Hsl & Hss & Hix & Hd).
  rewrite as_u32_id by (unfold u32_ok; lia).
  destruct (list_split16 u Hu) as (a0&a1&a2&a3&a4&a5&a6&a7&a8&a9&a10&a11&a12&a13&a14&a15&->).
  set (n := len (mw_data w)) in *.
  unfold read_write_req, pniod_header, block_header. rewrite <- !app_assoc.
  unfold be16_bytes, be32_bytes, rep. simpl app.
  match goal with |- context [rd_be16 ?x 0] => set (l := x) end.
  do 2 lit_step. eval_if. lit_step.
  eapply bind_step; [apply (slice_at _ (take 8 l) (take 16 (drop 8 l)) (drop 24 l)); [reflexivity|unfold l; simpl; lia..]|cbv beta].
  do 5 lit_step. fold n.
  eapply bind_step; [apply (slice_at _ (take 64 l) (mw_data w) rest); [reflexivity|unfold l, n; simpl; lia..]|cbv beta].
  eapply bind_step; [apply (slice_from_at _ (take 64 l ++ mw_data w) rest); [reflexivity|rewrite length_app; unfold l, n; simpl; lia]|cbv beta].
  destruct w. reflexivity.
Qed.

Lemma skip_padding {A} (p m : list A) (n : list A -> Z) :
  n (p ++ m) = len p -> match p ++ m with [] => Ok [] | r => slice_from r (n r) end = Ok m.
Proof.
  intros Hn. destruct (p ++ m) as [|a l] eqn:E; [by apply app_eq_nil in E as [_ ->]|].
  change (slice_from (a :: l) (n (a :: l)) = Ok m). rewrite Hn, <- E. by apply slice_app_suffix.
Qed.

Definition write_req (u : list Z) (i : Z) (w : MultiWrite) : WriteReq :=
  {| q_seq := as_u16 i; q_ar_uuid := u; q_write := w |}.

Fixpoint write_reqs (u : list Z) (i : Z) (ws : list MultiWrite) : list WriteReq :=
  match ws with
  | [] => []
  | w :: ws => write_req u i w :: write_reqs u (i + 1) ws
  end.

Lemma write_blocks_cons_ne u i w ws :
  length u = 16%nat -> exists x r, write_blocks u i (w :: ws) = x :: r.
Proof. intros Hu. cbn. unfold pniod_header, block_header, be16_bytes. simpl. eauto. Qed.

Lemma read_write_blocks_ok u : length u = 16%nat -> forall ws i,
  Forall multi_write_ok ws ->
  read_write_blocks (length ws) (write_blocks u i ws) = Ok (write_reqs u i ws).
Proof.
  intros Hu. induction ws as [|w ws IH]; intros i Hws; [done|].
  inversion Hws as [|? ? Hw Hws']; subst.
  destruct (write_blocks_cons_ne u i w ws Hu) as (x & r & E).
  cbn [length read_write_blocks]. rewrite E. rewrite <- E. cbn [write_blocks write_reqs].
  set (bl := pniod_header _ _ _ _ _ _ _ _ _) in *.
  eapply bind_step; [apply read_write_req_block; auto using as_u16_ok|cbv beta; cbn [fst snd]].
  fold bl. destruct ws as [|w2 ws].
  - cbn. done.
  - set (pd := rep (pad4 (len bl)) 0).
    eapply (bind_step _ _ (write_blocks u (i + 1) (w2 :: ws))).
    + apply (skip_padding pd _ (fun r => pad4 (len (bl ++ pd ++ write_blocks u (i + 1) (w2 :: ws)) - len r))). cbv beta.
      replace (len (bl ++ pd ++ write_blocks u (i + 1) (w2 :: ws))
               - len (pd ++ write_blocks u (i + 1) (w2 :: ws))) with (len bl)
        by (rewrite (length_app bl); lia).
      unfold pd. rewrite len_rep; [done|apply pad4_spec].
    + rewrite IH by done. done.
Qed.

(** WriteMultiple. A device that reads the record by its specified layout
    recovers from [iod_write_multiple_payload] exactly the writes, in order,
    numbered from 0: the outer request addresses index 0xE040 and carries the
    blocks, and every block begins where the 4-byte alignment rule says. *)
Theorem write_multiple_roundtrip u seq ws :
  length u = 16%nat -> u16_ok seq -> Forall multi_write_ok ws ->
  len (write_blocks u 0 ws) < 4294967296 ->
  (let? outer := read_write_req (iod_write_multiple_payload u seq ws) in
   let? reqs := read_write_blocks (length ws) (mw_data (q_write (fst outer))) in
   Ok (mw_index (q_write (fst outer)), snd outer, reqs))
  = Ok (IOD_WRITE_MULTIPLE_INDEX, [], write_reqs u 0 ws).
Proof.
  intros Hu Hs Hws Hl.
  set (w := {| mw_api := 0xFFFFFFFF; mw_slot := 0xFFFF; mw_subslot := 0xFFFF;
               mw_index := IOD_WRITE_MULTIPLE_INDEX; mw_data := write_blocks u 0 ws |}).
  eapply (bind_step _ _ ({| q_seq := seq; q_ar_uuid := u; q_write := w |}, [])).
  - rewrite <- (read_write_req_block seq u w []); [|done|done|].
    + f_equal. unfold iod_write_multiple_payload, pniod_header, w. cbn [mw_api mw_slot mw_subslot mw_index mw_data].
      rewrite <- !app_assoc. by rewrite !app_nil_r.
    + unfold multi_write_ok, u32_ok, u16_ok, IOD_WRITE_MULTIPLE_INDEX, w.
      cbn [mw_api mw_slot mw_subslot mw_index mw_data]. split_and!; try lia; try exact Hl; by vm_compute.
  - cbn [fst snd q_write mw_data w]. rewrite read_write_blocks_ok by done. done.
Qed.

Definition demo_writes : list MultiWrite :=
  [ {| mw_api := 0; mw_slot := 1; mw_subslot := 2; mw_index := 3; mw_data := [9; 8; 7] |};
    {| mw_api := 0; mw_slot := 4; mw_subslot := 5; mw_index := 6; mw_data := [1] |} ].

Lemma write_multiple_roundtrip_witness :
  Forall multi_write_ok demo_writes /\
  (let? outer := read_write_req (iod_write_multiple_payload (rep 16 7) 0 demo_writes) in
   let? reqs := read_write_blocks 2 (mw_data (q_write (fst outer))) in
   Ok (mw_index (q_write (fst outer)), snd outer, reqs))
  = Ok (IOD_WRITE_MULTIPLE_INDEX, [], write_reqs (rep 16 7) 0 demo_writes).
Proof.
  assert (H : Forall multi_write_ok demo_writes).
  { repeat constructor; unfold u32_ok, u16_ok; simpl; lia. }
  split; [exact H|].
  apply (write_multiple_roundtrip (rep 16 7) 0 demo_writes).
  - reflexivity.
  - unfold u16_ok; lia.
  - exact H.
  - vm_compute; reflexivity.
Defined.

(** The WriteMultiple response walk is total on every byte string: no read
    out of range, no endless loop whatever block lengths the device claims,
    and at most one result per four bytes received. *)
Theorem parse_write_multiple_response_total data :
  bytes_ok data ->
  total (parse_write_multiple_response data) (fun rs => 4 * len rs <= len data).
Proof. apply parse_write_multiple_total. Qed.

Lemma parse_write_multiple_response_total_witness :
  bytes_ok (rep 70 0) /\
  total (parse_write_multiple_response (rep 70 0)) (fun rs => 4 * len rs <= len (rep 70 0)).
Proof.
  assert (H : bytes_ok (rep 70 0)) by (apply Forall_replicate; unfold byte_ok; lia).
  split; [exact H|]. exact (parse_write_multiple_response_total (rep 70 0) H).
Defined.
