(* ===== verification/Rpc.v ===== *)
(** * DCE/RPC framing of requests ([src/src/rpc.rs]) *)

From S2P Require Import Prelude Blocks.

Definition REQUEST : Z := 0x00.
Definition CONNECT : Z := 0x00.
Definition RELEASE : Z := 0x01.
Definition READ : Z := 0x02.
Definition WRITE : Z := 0x03.
Definition CONTROL : Z := 0x04.
Definition IMPLICIT_READ : Z := 0x05.
Definition RPC_FLAGS1_LASTFRAG : Z := 0x02.
Definition RPC_FLAGS1_NOFACK : Z := 0x08.
Definition RPC_FLAGS1_IDEMPOTENT : Z := 0x20.
Definition NDR_ARGS_MAXIMUM : Z := 4000.
Definition IFACE_UUID_DEVICE : list Z :=
  [0xDE; 0xA0; 0x00; 0x01; 0x6C; 0x97; 0x11; 0xD1; 0x82; 0x71; 0x00; 0xA0; 0x24; 0x42; 0xDF; 0x7D].
Definition OBJECT_UUID_PREFIX : list Z :=
  [0xDE; 0xA0; 0x00; 0x00; 0x6C; 0x97; 0x11; 0xD1; 0x82; 0x71].

Definition object_uuid (dev_high dev_low ven_high ven_low : Z) : list Z :=
  OBJECT_UUID_PREFIX ++ [0x00; 0x01; dev_high; dev_low; ven_high; ven_low].

Definition nrd (payload : list Z) : list Z :=
  let n := as_u32 (len payload) in
  let args_maximum := Z.max NDR_ARGS_MAXIMUM n in
  be32_bytes args_maximum ++ be32_bytes n ++ be32_bytes args_maximum ++ be32_bytes 0
  ++ be32_bytes n ++ payload.

Definition rpc_request (object_uuid iface_uuid activity_uuid : list Z) (seq operation : Z)
    (body : list Z) : list Z :=
  [0x04] ++ [REQUEST] ++ [RPC_FLAGS1_IDEMPOTENT] ++ [0x00] ++ [0x00; 0x00; 0x00] ++ [0x00]
  ++ object_uuid ++ iface_uuid ++ activity_uuid
  ++ be32_bytes 0 ++ be32_bytes 1 ++ be32_bytes seq ++ be16_bytes operation
  ++ be16_bytes 0xFFFF ++ be16_bytes 0xFFFF ++ be16_bytes (as_u16 (len body))
  ++ be16_bytes 0 ++ [0x00] ++ [0x00] ++ body.

Definition read_request (object_uuid iface_uuid activity_uuid ar_uuid : list Z)
    (opnum seq api slot subslot index length_ : Z) : list Z :=
  rpc_request object_uuid iface_uuid activity_uuid seq opnum
    (nrd (iod_read_request ar_uuid api slot subslot index length_)).

Definition read_record_request (object_uuid iface_uuid activity_uuid ar_uuid : list Z)
    (seq api slot subslot index length_ : Z) : list Z :=
  read_request object_uuid iface_uuid activity_uuid ar_uuid READ seq api slot subslot index length_.

Definition read_record_implicit_request (object_uuid iface_uuid activity_uuid : list Z)
    (seq api slot subslot index length_ : Z) : list Z :=
  read_request object_uuid iface_uuid activity_uuid (rep 16 0) IMPLICIT_READ
    seq api slot subslot index length_.

Definition write_record_request (object_uuid iface_uuid activity_uuid ar_uuid : list Z)
    (seq api slot subslot index : Z) (payload : list Z) : list Z :=
  rpc_request object_uuid iface_uuid activity_uuid seq WRITE
    (nrd (iod_write_request ar_uuid api slot subslot index payload)).

Definition write_multiple_request (object_uuid iface_uuid activity_uuid ar_uuid : list Z)
    (seq : Z) (writes : list MultiWrite) : list Z :=
  let payload := iod_write_multiple_payload ar_uuid 0 writes in
  rpc_request object_uuid iface_uuid activity_uuid seq WRITE
    (nrd (iod_write_request ar_uuid 0xFFFFFFFF 0xFFFF 0xFFFF IOD_WRITE_MULTIPLE_INDEX payload)).
