(* ===== verification/Connect.v ===== *)
(** * Connect request blocks ([src/src/connect.rs]) *)

From S2P Require Import Prelude Gsdml Rt Blocks Rpc.

Definition AR_TYPE_IOCAR_SINGLE : Z := 0x0001.
Definition AR_TYPE_IOSAR : Z := 0x0006.
Definition AR_PROPERTIES_IOCAR : Z := 0x00000011.
Definition AR_PROPERTIES_DEVICE_ACCESS : Z := 0x00000111.
Definition CM_INITIATOR_OBJECT_UUID : list Z :=
  [0xDE; 0xA0; 0x00; 0x00; 0x6C; 0x97; 0x11; 0xD1; 0x82; 0x71; 0x00; 0x01; 0x76; 0x54; 0x32; 0x10].
Definition DEFAULT_RTA_TIMEOUT_FACTOR : Z := 1.
Definition DEFAULT_RTA_RETRIES : Z := 3.
Definition DEFAULT_MAX_ALARM_DATA_LENGTH : Z := 200.
Definition DEFAULT_TAG_HEADER_HIGH : Z := 0xC000.
Definition DEFAULT_TAG_HEADER_LOW : Z := 0xA000.

Record IocrSetup := {
  io_slots : list IoSlot;
  su_send_clock_factor : Z;
  su_reduction_ratio : Z;
  su_watchdog_factor : Z;
  data_hold_factor : Z;
}.

Definition apply_zero_io_exclusion (slots : list IoSlot) (exclude : bool) : list IoSlot :=
  if negb exclude then slots
  else filter (fun s => (0 <? input_length s) || (0 <? output_length s) = true) slots.

Definition block_header10 (block_type block_length : Z) : list Z :=
  be16_bytes block_type ++ be16_bytes block_length ++ [0x01] ++ [0x00].

Definition ar_block_req (ar_type : Z) (ar_uuid : list Z) (session_key : Z) (cm_mac : list Z)
    (ar_properties : Z) (cm_station_name : list Z) : list Z :=
  block_header10 0x0101 (as_u16 (54 + len cm_station_name))
  ++ be16_bytes ar_type ++ ar_uuid ++ be16_bytes session_key ++ cm_mac
  ++ CM_INITIATOR_OBJECT_UUID ++ be32_bytes ar_properties ++ be16_bytes 100
  ++ be16_bytes 0x8892 ++ be16_bytes (as_u16 (len cm_station_name)) ++ cm_station_name.

Definition iocr_api_object (slot subslot frame_offset : Z) : list Z :=
  be16_bytes slot ++ be16_bytes subslot ++ be16_bytes frame_offset.

(** The first loop: objects, their count and the frame offset. *)
Fixpoint iocr_data_loop (iocr_type : Z) (slots : list IoSlot) (objects : list Z)
    (num_objects frame_offset : Z) : list Z * Z * Z :=
  match slots with
  | [] => (objects, num_objects, frame_offset)
  | s :: slots =>
      let data_len := if iocr_type =? 1 then input_length s else output_length s in
      if 0 <? data_len then
        iocr_data_loop iocr_type slots
          (objects ++ iocr_api_object (slot s) (subslot s) (as_u16 frame_offset))
          (wrap_add16 num_objects 1) (frame_offset + (data_len + 1))
      else iocr_data_loop iocr_type slots objects num_objects frame_offset
  end.

(** The second loop: the consumer status entries. *)
Fixpoint iocr_iocs_loop (iocr_type : Z) (slots : list IoSlot) (iocs : list Z)
    (iocs_count frame_offset : Z) : list Z * Z * Z :=
  match slots with
  | [] => (iocs, iocs_count, frame_offset)
  | s :: slots =>
      if (iocr_type =? 1) && (0 <? input_length s) then
        iocr_iocs_loop iocr_type slots iocs iocs_count frame_offset
      else if (iocr_type =? 2) && (0 <? output_length s) then
        iocr_iocs_loop iocr_type slots iocs iocs_count frame_offset
      else
        iocr_iocs_loop iocr_type slots
          (iocs ++ iocr_api_object (slot s) (subslot s) (as_u16 frame_offset))
          (wrap_add16 iocs_count 1) (frame_offset + 1)
  end.

Definition iocr_block_req (iocr_type iocr_reference : Z) (setup : IocrSetup) : list Z :=
  let '(objects, num_objects, off) := iocr_data_loop iocr_type (io_slots setup) [] 0 0 in
  let '(iocs, iocs_count, off) := iocr_iocs_loop iocr_type (io_slots setup) [] 0 off in
  let data_length := as_u16 (Z.max off 40) in
  let api_block_len := 4 + 2 + len objects + 2 + len iocs in
  let frame_id := if iocr_type =? 1 then wrap_add16 0xC000 iocr_reference else 0xFFFF in
  block_header10 0x0102 (as_u16 (46 + api_block_len - 4))
  ++ be16_bytes iocr_type ++ be16_bytes iocr_reference ++ be16_bytes 0x8892
  ++ be32_bytes 0x00000001 ++ be16_bytes data_length ++ be16_bytes frame_id
  ++ be16_bytes (su_send_clock_factor setup) ++ be16_bytes (su_reduction_ratio setup)
  ++ be16_bytes 1 ++ be16_bytes 0 ++ be32_bytes 0xFFFFFFFF
  ++ be16_bytes (su_watchdog_factor setup) ++ be16_bytes (data_hold_factor setup)
  ++ be16_bytes 0xC000 ++ rep 6 0 ++ be16_bytes 1 ++ be32_bytes 0
  ++ be16_bytes num_objects ++ objects ++ be16_bytes iocs_count ++ iocs.

Definition alarm_cr_block (local_alarm_reference transport priority : Z) : list Z :=
  let lt := if transport =? 0 then 0x8892 else 0x0800 in
  block_header10 0x0103 22 ++ be16_bytes 0x0001 ++ be16_bytes lt
  ++ be32_bytes (Z.lor (as_u32 (Z.shiftl transport 1)) priority)
  ++ be16_bytes DEFAULT_RTA_TIMEOUT_FACTOR ++ be16_bytes DEFAULT_RTA_RETRIES
  ++ be16_bytes local_alarm_reference ++ be16_bytes DEFAULT_MAX_ALARM_DATA_LENGTH
  ++ be16_bytes DEFAULT_TAG_HEADER_HIGH ++ be16_bytes DEFAULT_TAG_HEADER_LOW.

Definition submodule_type (s : IoSlot) : Z :=
  match 0 <? input_length s, 0 <? output_length s with
  | true, true => 3
  | true, false => 1
  | false, true => 2
  | false, false => 0
  end.

Definition data_description (dd length_ : Z) : list Z :=
  be16_bytes dd ++ be16_bytes length_ ++ [1] ++ [1].

(** The ExpectedSubmodule bytes of one slot. *)
Definition expected_submodule (s : IoSlot) : list Z :=
  let ty := submodule_type s in
  be16_bytes (subslot s) ++ be32_bytes (submodule_ident s) ++ be16_bytes ty
  ++ (if (ty =? 0) || (ty =? 1) || (ty =? 3) then data_description 1 (as_u16 (input_length s)) else [])
  ++ (if (ty =? 2) || (ty =? 3) then data_description 2 (as_u16 (output_length s)) else []).

(** An API entry: slot, module ident, submodule bytes, submodule count. *)
Record ApiEntry := {
  ae_slot : Z;
  ae_module_ident : Z;
  ae_submodules : list Z;
  ae_count : Z;
}.

(** Appends to the first entry of the slot, or opens one at the end. *)
Fixpoint add_submodule (s : IoSlot) (apis : list ApiEntry) : list ApiEntry :=
  match apis with
  | [] => [ {| ae_slot := slot s; ae_module_ident := module_ident s;
               ae_submodules := expected_submodule s; ae_count := 1 |} ]
  | a :: apis =>
      if ae_slot a =? slot s then
        {| ae_slot := ae_slot a; ae_module_ident := ae_module_ident a;
           ae_submodules := ae_submodules a ++ expected_submodule s;
           ae_count := wrap_add16 (ae_count a) 1 |} :: apis
      else a :: add_submodule s apis
  end.

Definition api_entries (slots : list IoSlot) : list ApiEntry :=
  foldl (fun apis s => add_submodule s apis) [] slots.

Definition api_entry_bytes (a : ApiEntry) : list Z :=
  be32_bytes 0 ++ be16_bytes (ae_slot a) ++ be32_bytes (ae_module_ident a) ++ be16_bytes 0
  ++ be16_bytes (ae_count a) ++ ae_submodules a.

Definition expected_submodule_block (setup : IocrSetup) : list Z :=
  let apis := api_entries (io_slots setup) in
  let body := be16_bytes (as_u16 (len apis)) ++ mjoin (api_entry_bytes <$> apis) in
  block_header10 0x0104 (as_u16 (len body + 2)) ++ body.

Definition build_connect_request (object_uuid iface_uuid activity_uuid ar_uuid : list Z)
    (session_key : Z) (cm_mac cm_station_name : list Z) (setup : IocrSetup) (seq : Z) : list Z :=
  let body :=
    ar_block_req AR_TYPE_IOCAR_SINGLE ar_uuid session_key cm_mac AR_PROPERTIES_IOCAR cm_station_name
    ++ iocr_block_req 1 1 setup ++ iocr_block_req 2 2 setup ++ alarm_cr_block 1 0 0
    ++ expected_submodule_block setup in
  rpc_request object_uuid iface_uuid activity_uuid seq CONNECT (nrd body).

Definition build_device_access_connect_request
    (object_uuid iface_uuid activity_uuid ar_uuid : list Z) (session_key : Z)
    (cm_mac cm_station_name : list Z) (seq : Z) : list Z :=
  let body := ar_block_req AR_TYPE_IOSAR ar_uuid session_key cm_mac AR_PROPERTIES_DEVICE_ACCESS
                cm_station_name in
  rpc_request object_uuid iface_uuid activity_uuid seq CONNECT (nrd body).

(** ** The device's reading of an IOCRBlockReq

    The reference reader follows the record layout of the specification: fixed
    header, one API, a counted list of IO data objects and a counted list of
    consumer status entries, each entry slot, subslot and frame offset. *)

Record IocrLayout := {
  l_type : Z;
  l_block_length : Z;
  l_data_length : Z;
  l_send_clock_factor : Z;
  l_reduction_ratio : Z;
  l_watchdog_factor : Z;
  l_data : list (Z * Z * Z);
  l_iocs : list (Z * Z * Z);
}.

Fixpoint read_entries (n : nat) (d : list Z) : outcome (list (Z * Z * Z) * list Z) :=
  match n with
  | O => Ok ([], d)
  | S n =>
      let? s := rd_be16 d 0 in
      let? ss := rd_be16 d 2 in
      let? o := rd_be16 d 4 in
      let? rest := slice_from d 6 in
      let? r := read_entries n rest in
      Ok ((s, ss, o) :: fst r, snd r)
  end.

Definition read_counted (d : list Z) : outcome (list (Z * Z * Z) * list Z) :=
  let? n := rd_be16 d 0 in
  let? rest := slice_from d 2 in
  read_entries (Z.to_nat n) rest.

Definition read_iocr_block (d : list Z) : outcome IocrLayout :=
  let? bl := rd_be16 d 2 in
  let? ty := rd_be16 d 6 in
  let? dl := rd_be16 d 16 in
  let? scf := rd_be16 d 20 in
  let? rr := rd_be16 d 22 in
  let? wf := rd_be16 d 32 in
  let? lists := slice_from d 50 in
  let? data := read_counted lists in
  let? iocs := read_counted (snd data) in
  Ok {| l_type := ty; l_block_length := bl; l_data_length := dl; l_send_clock_factor := scf;
        l_reduction_ratio := rr; l_watchdog_factor := wf; l_data := fst data; l_iocs := fst iocs |}.

(** An object of the runtime configuration as an entry of the block. *)
Definition entry_of (o : IoDataObject) : Z * Z * Z := (o_slot o, o_subslot o, frame_offset o).
Definition entry_bytes (o : IoDataObject) : list Z :=
  iocr_api_object (o_slot o) (o_subslot o) (as_u16 (frame_offset o)).

Definition slot_ok (s : IoSlot) : Prop :=
  u16_ok (slot s) /\ u16_ok (subslot s) /\ 0 <= input_length s /\ 0 <= output_length s.

(** Whole layouts small enough for the 16-bit fields of the block. *)
Definition setup_ok (setup : IocrSetup) : Prop :=
  Forall slot_ok (io_slots setup) /\ len (io_slots setup) <= 8191 /\
  u16_ok (su_send_clock_factor setup) /\ u16_ok (su_reduction_ratio setup) /\
  u16_ok (su_watchdog_factor setup).

Definition direction_length (ty : Z) (s : IoSlot) : Z :=
  if ty =? 1 then input_length s else output_length s.

Lemma direction_length_ok ty s : slot_ok s -> 0 <= direction_length ty s.
Proof. intros (_ & _ & ? & ?). unfold direction_length. by destruct (ty =? 1). Qed.

Lemma iocr_data_loop_eq ty slots : forall objs n off os e,
  data_objects (direction_length ty) slots off = (os, e) ->
  exists n', iocr_data_loop ty slots objs n off = (objs ++ mjoin (entry_bytes <$> os), n', e) /\
             (u16_ok n -> n' = as_u16 (n + len os)).
Proof.
  induction slots as [|s slots IH]; intros objs n off os e; cbn [data_objects iocr_data_loop].
  { intros [= <- <-]. exists n. split; [by rewrite app_nil_r|].
    intros. rewrite Z.add_0_r. by rewrite as_u16_id. }
  fold (direction_length ty s). destruct (0 <? direction_length ty s) eqn:Hs.
  - destruct (data_objects _ slots _) as [os' e'] eqn:E. intros [= <- <-].
    destruct (IH (objs ++ iocr_api_object (slot s) (subslot s) (as_u16 off))
                 (wrap_add16 n 1) _ _ _ E) as (n' & -> & Hn').
    exists n'. split.
    + f_equal. f_equal. cbn. by rewrite <- app_assoc.
    + intros Hn. rewrite Hn' by (apply Z.mod_pos_bound; lia).
      unfold wrap_add16, as_u16. cbn [length]. rewrite Zplus_mod_idemp_l. f_equal. lia.
  - intros E. by apply IH.
Qed.

Lemma iocr_iocs_loop_eq ty slots : ty = 1 \/ ty = 2 -> Forall slot_ok slots ->
  forall iocs n off os e,
  iocs_objects (direction_length ty) slots off = (os, e) ->
  exists n', iocr_iocs_loop ty slots iocs n off = (iocs ++ mjoin (entry_bytes <$> os), n', e) /\
             (u16_ok n -> n' = as_u16 (n + len os)).
Proof.
  intros Hty. induction 1 as [|s slots Hs Hss IH]; intros iocs n off os e;
    cbn [iocs_objects iocr_iocs_loop].
  { intros [= <- <-]. exists n. split; [by rewrite app_nil_r|].
    intros. rewrite Z.add_0_r. by rewrite as_u16_id. }
  pose proof (direction_length_ok ty s Hs) as Hd.
  assert (Hc : (direction_length ty s =? 0) =
     negb ((ty =? 1) && (0 <? input_length s)) && negb ((ty =? 2) && (0 <? output_length s))).
  { unfold direction_length in *. destruct Hty as [-> | ->]; simpl in *; lia. }
  rewrite Hc. destruct ((ty =? 1) && _) eqn:H1; [by apply IH|].
  destruct ((ty =? 2) && _) eqn:H2; [by apply IH|]. cbn [negb andb].
  destruct (iocs_objects _ slots _) as [os' e'] eqn:E. intros [= <- <-].
  destruct (IH (iocs ++ iocr_api_object (slot s) (subslot s) (as_u16 off))
               (wrap_add16 n 1) _ _ _ E) as (n' & -> & Hn').
  exists n'. split.
  - f_equal. f_equal. cbn. by rewrite <- app_assoc.
  - intros Hn. rewrite Hn' by (apply Z.mod_pos_bound; lia).
    unfold wrap_add16, as_u16. cbn [length]. rewrite Zplus_mod_idemp_l. f_equal. lia.
Qed.

Definition entry_ok (o : IoDataObject) : Prop :=
  u16_ok (o_slot o) /\ u16_ok (o_subslot o) /\ u16_ok (frame_offset o).

Lemma read_entries_ok os rest : Forall entry_ok os ->
  read_entries (length os) (mjoin (entry_bytes <$> os) ++ rest) = Ok (entry_of <$> os, rest).
Proof.
  induction 1 as [|o os (H1 & H2 & H3) Hos IH]; [done|].
  cbn [length read_entries fmap list_fmap mjoin list_join]. rewrite <- app_assoc.
  unfold entry_bytes at 1. unfold iocr_api_object, be16_bytes.
  simpl app. lit_step. lit_step. lit_step.
  lit_step.
  eapply bind_step; [apply IH|]. unfold entry_of. by rewrite as_u16_id.
Qed.

Lemma read_counted_ok os rest : Forall entry_ok os -> u16_ok (len os) ->
  read_counted (be16_bytes (len os) ++ mjoin (entry_bytes <$> os) ++ rest) = Ok (entry_of <$> os, rest).
Proof.
  intros Hos Hn. unfold read_counted, be16_bytes. simpl app. lit_step.
  lit_step.
  rewrite Nat2Z.id. by apply read_entries_ok.
Qed.

Lemma entry_bytes_length os : len (mjoin (entry_bytes <$> os)) = 6 * len os.
Proof.
  induction os as [|o os IH]; [done|].
  change (mjoin (entry_bytes <$> o :: os)) with (entry_bytes o ++ mjoin (entry_bytes <$> os)).
  rewrite length_app. change (length (entry_bytes o)) with 6%nat.
  cbn [length]. lia.
Qed.

(** Every slot has exactly one entry. *)
Lemma objects_length f slots : Forall (fun s => 0 <= f s) slots -> forall off off' os e oc e',
  data_objects f slots off = (os, e) -> iocs_objects f slots off' = (oc, e') ->
  len os + len oc = len slots.
Proof.
  induction 1 as [|s slots Hs Hss IH]; intros off off' os e oc e'; cbn [data_objects iocs_objects].
  { by intros [= <- _] [= <- _]. }
  destruct (f s =? 0) eqn:H0.
  - assert ((0 <? f s) = false) as -> by lia.
    destruct (iocs_objects _ _ _) as [oc1 e1] eqn:E1. intros E [= <- _].
    specialize (IH _ _ _ _ _ _ E E1). simpl. lia.
  - assert ((0 <? f s) = true) as -> by lia.
    destruct (data_objects _ _ _) as [os1 e1] eqn:E1. intros [= <- _] E.
    specialize (IH _ _ _ _ _ _ E1 E). simpl. lia.
Qed.

(** The block for one direction, given the layout of its objects. *)
Lemma iocr_block_req_layout ty ref setup od eo oc ec :
  ty = 1 \/ ty = 2 -> setup_ok setup ->
  data_objects (direction_length ty) (io_slots setup) 0 = (od, eo) ->
  iocs_objects (direction_length ty) (io_slots setup) eo = (oc, ec) ->
  Forall entry_ok od -> Forall entry_ok oc -> u16_ok (Z.max ec 40) ->
  read_iocr_block (iocr_block_req ty ref setup) =
  Ok {| l_type := ty; l_block_length := len (iocr_block_req ty ref setup) - 4;
        l_data_length := Z.max ec 40;
        l_send_clock_factor := su_send_clock_factor setup;
        l_reduction_ratio := su_reduction_ratio setup;
        l_watchdog_factor := su_watchdog_factor setup;
        l_data := entry_of <$> od; l_iocs := entry_of <$> oc |}.
Proof.
  intros Hty (Hs & Hn & Hscf & Hrr & Hwf) Ed Ec Hd Hc Hm.
  assert (Hcnt : len od + len oc = len (io_slots setup)).
  { eapply objects_length; [|exact Ed|exact Ec]. eapply Forall_impl; [exact Hs|].
    intros s. apply direction_length_ok. }
  unfold iocr_block_req.
  destruct (iocr_data_loop_eq ty (io_slots setup) [] 0 0 od eo Ed) as (n1 & -> & H1).
  destruct (iocr_iocs_loop_eq ty (io_slots setup) Hty Hs [] 0 eo oc ec Ec) as (n2 & -> & H2).
  rewrite H1, H2 by (unfold u16_ok; lia). rewrite !Z.add_0_l. cbn [app].
  rewrite !entry_bytes_length. rewrite !as_u16_id by (unfold u16_ok in *; lia).
  set (fid := if ty =? 1 then _ else _).
  assert (Hty16 : u16_ok ty) by (unfold u16_ok; lia).
  set (B := mjoin (entry_bytes <$> od)). set (C := mjoin (entry_bytes <$> oc)).
  assert (HB : len B = 6 * len od) by apply entry_bytes_length.
  assert (HC : len C = 6 * len oc) by apply entry_bytes_length.
  set (bl := 46 + _ - 4). assert (Hbl : u16_ok bl) by (unfold u16_ok, bl; lia).
  unfold block_header10. rewrite <- !app_assoc.
  set (X := be16_bytes (len od) ++ _).
  match goal with |- _ = Ok {| l_type := _; l_block_length := ?e |} => assert (E : e = bl) end.
  { rewrite !length_app. unfold X, bl. rewrite !length_app. unfold rep. simpl (length (replicate _ _)).
    cbn [length be16_bytes be32_bytes]. lia. }
  rewrite E. clear E. clearbody fid bl. unfold be16_bytes, be32_bytes, rep. simpl app.
  unfold read_iocr_block. do 7 lit_step. fold X.
  unfold X. eapply bind_step; [apply read_counted_ok; [done|unfold u16_ok; lia]|cbv beta; cbn [snd]].
  rewrite <- (app_nil_r C).
  eapply bind_step; [apply read_counted_ok; [done|unfold u16_ok; lia]|done].
Qed.

Definition names_ok (o : IoDataObject) : Prop := u16_ok (o_slot o) /\ u16_ok (o_subslot o).

Lemma data_objects_names f slots : Forall slot_ok slots -> forall off os e,
  data_objects f slots off = (os, e) -> Forall names_ok os.
Proof.
  induction 1 as [|s slots (H1 & H2 & _) Hss IH]; intros off os e; cbn [data_objects].
  { intros [= <- _]. constructor. }
  destruct (0 <? f s); [|apply IH].
  destruct (data_objects _ _ _) eqn:E. intros [= <- _]. constructor; [done|by eapply IH].
Qed.
Lemma iocs_objects_names f slots : Forall slot_ok slots -> forall off os e,
  iocs_objects f slots off = (os, e) -> Forall names_ok os.
Proof.
  induction 1 as [|s slots (H1 & H2 & _) Hss IH]; intros off os e; cbn [iocs_objects].
  { intros [= <- _]. constructor. }
  destruct (f s =? 0); [|apply IH].
  destruct (iocs_objects _ _ _) eqn:E. intros [= <- _]. constructor; [done|by eapply IH].
Qed.

Lemma entries_ok off os e :
  laid_out off os e -> 0 <= off -> e <= 65535 -> Forall names_ok os -> Forall entry_ok os.
Proof.
  intros H H0 He Hn. apply Forall_forall. intros o Ho.
  destruct (laid_out_in _ _ _ _ H Ho) as (_ & ? & ?). pose proof (osize_pos o).
  destruct (proj1 (Forall_forall _ _) Hn o Ho). split_and!; try done. unfold u16_ok. lia.
Qed.

Definition runtime_configs (setup : IocrSetup) : IocrConfig * IocrConfig :=
  build_iocr_configs (io_slots setup) 0xC001 0xFFFF (su_send_clock_factor setup)
    (su_reduction_ratio setup) (su_watchdog_factor setup).

(** A layout read from the wire describes a runtime configuration: the same
    C_SDU length and timing, and its entries, data objects first, are the
    configuration's objects. *)
Definition describes (l : IocrLayout) (block : list Z) (c : IocrConfig)
    (entries : list (Z * Z * Z)) : Prop :=
  l_type l = iocr_type c /\ l_block_length l + 4 = len block /\
  l_data_length l = data_length c /\ l_send_clock_factor l = send_clock_factor c /\
  l_reduction_ratio l = reduction_ratio c /\ l_watchdog_factor l = watchdog_factor c /\
  entries = entry_of <$> objects c.

(** C18: The frame layout negotiated in the Connect request is the one the
    cyclic exchange uses.  A device that reads the two IOCRBlockReqs by the
    specified record layout finds, per direction, the C_SDU length, the timing
    and the slot, subslot and frame offset of exactly the objects that
    [build_iocr_configs] later reads and writes the process image with (for
    the output direction the consumer status bytes included), provided the
    frames fit the 16-bit fields of the block. *)
Theorem connect_layout_agrees setup :
  setup_ok setup ->
  data_length (fst (runtime_configs setup)) <= 65535 ->
  data_length (snd (runtime_configs setup)) <= 65535 ->
  (exists l, read_iocr_block (iocr_block_req 1 1 setup) = Ok l /\
     describes l (iocr_block_req 1 1 setup) (fst (runtime_configs setup)) (l_data l)) /\
  (exists l, read_iocr_block (iocr_block_req 2 2 setup) = Ok l /\
     describes l (iocr_block_req 2 2 setup) (snd (runtime_configs setup)) (l_data l ++ l_iocs l)).
Proof.
  intros Hs. pose proof Hs as (Hsl & _). unfold runtime_configs, build_iocr_configs.
  change input_length with (direction_length 1). change output_length with (direction_length 2).
  destruct (data_objects (direction_length 1) _ 0) as [od1 e1] eqn:E1.
  destruct (data_objects (direction_length 2) _ 0) as [od2 e2] eqn:E2.
  destruct (iocs_objects (direction_length 2) _ e2) as [oc2 f2] eqn:F2.
  destruct (iocs_objects (direction_length 1) _ e1) as [oc1 f1] eqn:F1.
  cbn [fst snd data_length]. intros H1 H2.
  pose proof (data_objects_laid _ _ _ _ _ E1) as L1. pose proof (data_objects_laid _ _ _ _ _ E2) as L2.
  pose proof (iocs_objects_laid _ _ _ _ _ F1) as M1. pose proof (iocs_objects_laid _ _ _ _ _ F2) as M2.
  pose proof (laid_out_le _ _ _ L1). pose proof (laid_out_le _ _ _ L2).
  pose proof (laid_out_le _ _ _ M1). pose proof (laid_out_le _ _ _ M2).
  assert (X1 := entries_ok _ _ _ L1 ltac:(lia) ltac:(lia) (data_objects_names _ _ Hsl _ _ _ E1)).
  assert (X2 := entries_ok _ _ _ L2 ltac:(lia) ltac:(lia) (data_objects_names _ _ Hsl _ _ _ E2)).
  assert (Y1 := entries_ok _ _ _ M1 ltac:(lia) ltac:(lia) (iocs_objects_names _ _ Hsl _ _ _ F1)).
  assert (Y2 := entries_ok _ _ _ M2 ltac:(lia) ltac:(lia) (iocs_objects_names _ _ Hsl _ _ _ F2)).
  split; eexists; (split; [eapply iocr_block_req_layout; eauto; unfold u16_ok; lia|]);
    unfold describes; cbn; split_and!; try done; try lia.
  by rewrite fmap_app.
Qed.

Definition demo_setup : IocrSetup :=
  {| io_slots := demo_slots; su_send_clock_factor := 32; su_reduction_ratio := 32;
     su_watchdog_factor := 3; data_hold_factor := 3 |}.

Lemma connect_layout_agrees_witness :
  setup_ok demo_setup /\
  exists l, read_iocr_block (iocr_block_req 2 2 demo_setup) = Ok l /\
            l_data l ++ l_iocs l = [(1, 1, 0); (2, 1, 4); (0, 1, 7)].
Proof.
  assert (H : setup_ok demo_setup).
  { unfold setup_ok, u16_ok. simpl. split_and!; try lia.
    repeat constructor; unfold slot_ok, u16_ok; simpl; lia. }
  split; [exact H|].
  destruct (connect_layout_agrees demo_setup H) as (_ & l & Hl & _ & _ & _ & _ & _ & _ & He);
    [vm_compute; discriminate | vm_compute; discriminate |].
  exists l. split; [exact Hl|]. rewrite He. reflexivity.
Defined.

(** ** Excluding submodules without data *)

(** The exclusion removes exactly the submodules that carry no data, keeps the
    order, and moves no data object: only consumer status bytes go away. *)
Lemma zero_io_exclusion_data f slots exclude :
  (forall s, 0 < f s -> 0 < input_length s \/ 0 < output_length s) ->
  forall off, data_objects f (apply_zero_io_exclusion slots exclude) off = data_objects f slots off.
Proof.
  intros Hf. unfold apply_zero_io_exclusion. destruct exclude; [|done]. simpl.
  induction slots as [|s slots IH]; intros off; [done|].
  rewrite filter_cons. case_decide as H; cbn [data_objects].
  - destruct (0 <? f s); rewrite IH; done.
  - destruct (0 <? f s) eqn:E; [|apply IH]. destruct H. specialize (Hf s ltac:(lia)). lia.
Qed.

(** Excluding zero-IO submodules keeps every data object of both
    directions at its frame offset, provided it is applied before both the
    Connect blocks and the runtime layout are built. *)
Theorem zero_io_exclusion_keeps_data slots exclude :
  data_objects input_length (apply_zero_io_exclusion slots exclude) 0 = data_objects input_length slots 0 /\
  data_objects output_length (apply_zero_io_exclusion slots exclude) 0 = data_objects output_length slots 0 /\
  forall s, s ∈ apply_zero_io_exclusion slots true <->
            s ∈ slots /\ (0 < input_length s \/ 0 < output_length s).
Proof.
  split_and!; [apply zero_io_exclusion_data; auto..|].
  intros s. unfold apply_zero_io_exclusion. simpl. rewrite list_elem_of_filter.
  rewrite orb_true_iff, !Z.ltb_lt. tauto.
Qed.
