(* ===== verification/Cyclic.v ===== *)
(** * Cyclic IO controller ([src/src/cyclic.rs])

    [Shared] is the state behind the controller's mutexes; the methods are
    actions [M]: they read and update it and emit the callbacks and frames in
    the order the code produces them.  Instants are nanoseconds.  The sockets
    and threads are outside: what a receive or a send returned is an argument
    of the pass that uses it. *)

From S2P Require Import Prelude Fmt Util Gsdml Rt.

#[local] Open Scope string_scope.
#[local] Open Scope list_scope.
#[local] Open Scope Z_scope.

Definition DEFAULT_MAX_CONSECUTIVE_TIMEOUTS : Z := 3.
Definition STOP_FRAME_COUNT : Z := 3.

Inductive CyclicState := Idle | Starting | Running | Stopping | Stopped | Fault.

#[global] Instance CyclicState_eq_dec : EqDecision CyclicState.
Proof. solve_decision. Defined.

Definition state_eqb (a b : CyclicState) : bool := bool_decide (a = b).

Definition output_writes_locked (s : CyclicState) : bool :=
  match s with Stopping | Fault | Stopped => true | _ => false end.

Definition as_str (s : CyclicState) : string :=
  match s with
  | Idle => "idle"
  | Starting => "starting"
  | Running => "running"
  | Stopping => "stopping"
  | Stopped => "stopped"
  | Fault => "fault"
  end.

(** ** Statistics *)

Record CyclicStats := mkStats {
  frames_sent : Z;
  frames_received : Z;
  frames_missed : Z;
  frames_invalid : Z;
  frames_duplicate : Z;
  frames_out_of_order : Z;
  last_cycle_time_us : Z;
  max_jitter_us : Z;
  min_cycle_time_us : Z;
  max_cycle_time_us : Z;
  last_rx_interval_us : Z;
  max_rx_jitter_us : Z;
  min_rx_interval_us : Z;
  max_rx_interval_us : Z;
  rx_interval_sum_us : Z;
  rx_interval_count : Z;
  last_receive_time : Z;
  interval_disturbed : bool;
  last_accepted_time : option Z;
  consecutive_timeouts : Z;
  cycle_time_sum_us : Z;
  cycle_count : Z;
}.

Definition set_frames_sent (v : Z) (r : CyclicStats) : CyclicStats :=
  mkStats v (frames_received r) (frames_missed r) (frames_invalid r) (frames_duplicate r)
    (frames_out_of_order r) (last_cycle_time_us r) (max_jitter_us r) (min_cycle_time_us r)
    (max_cycle_time_us r) (last_rx_interval_us r) (max_rx_jitter_us r) (min_rx_interval_us r)
    (max_rx_interval_us r) (rx_interval_sum_us r) (rx_interval_count r) (last_receive_time r)
    (interval_disturbed r) (last_accepted_time r) (consecutive_timeouts r) (cycle_time_sum_us r)
    (cycle_count r).
Definition set_frames_received (v : Z) (r : CyclicStats) : CyclicStats :=
  mkStats (frames_sent r) v (frames_missed r) (frames_invalid r) (frames_duplicate r)
    (frames_out_of_order r) (last_cycle_time_us r) (max_jitter_us r) (min_cycle_time_us r)
    (max_cycle_time_us r) (last_rx_interval_us r) (max_rx_jitter_us r) (min_rx_interval_us r)
    (max_rx_interval_us r) (rx_interval_sum_us r) (rx_interval_count r) (last_receive_time r)
    (interval_disturbed r) (last_accepted_time r) (consecutive_timeouts r) (cycle_time_sum_us r)
    (cycle_count r).
Definition set_frames_missed (v : Z) (r : CyclicStats) : CyclicStats :=
  mkStats (frames_sent r) (frames_received r) v (frames_invalid r) (frames_duplicate r)
    (frames_out_of_order r) (last_cycle_time_us r) (max_jitter_us r) (min_cycle_time_us r)
    (max_cycle_time_us r) (last_rx_interval_us r) (max_rx_jitter_us r) (min_rx_interval_us r)
    (max_rx_interval_us r) (rx_interval_sum_us r) (rx_interval_count r) (last_receive_time r)
    (interval_disturbed r) (last_accepted_time r) (consecutive_timeouts r) (cycle_time_sum_us r)
    (cycle_count r).
Definition set_frames_invalid (v : Z) (r : CyclicStats) : CyclicStats :=
  mkStats (frames_sent r) (frames_received r) (frames_missed r) v (frames_duplicate r)
    (frames_out_of_order r) (last_cycle_time_us r) (max_jitter_us r) (min_cycle_time_us r)
    (max_cycle_time_us r) (last_rx_interval_us r) (max_rx_jitter_us r) (min_rx_interval_us r)
    (max_rx_interval_us r) (rx_interval_sum_us r) (rx_interval_count r) (last_receive_time r)
    (interval_disturbed r) (last_accepted_time r) (consecutive_timeouts r) (cycle_time_sum_us r)
    (cycle_count r).
Definition set_frames_duplicate (v : Z) (r : CyclicStats) : CyclicStats :=
  mkStats (frames_sent r) (frames_received r) (frames_missed r) (frames_invalid r) v
    (frames_out_of_order r) (last_cycle_time_us r) (max_jitter_us r) (min_cycle_time_us r)
    (max_cycle_time_us r) (last_rx_interval_us r) (max_rx_jitter_us r) (min_rx_interval_us r)
    (max_rx_interval_us r) (rx_interval_sum_us r) (rx_interval_count r) (last_receive_time r)
    (interval_disturbed r) (last_accepted_time r) (consecutive_timeouts r) (cycle_time_sum_us r)
    (cycle_count r).
Definition set_frames_out_of_order (v : Z) (r : CyclicStats) : CyclicStats :=
  mkStats (frames_sent r) (frames_received r) (frames_missed r) (frames_invalid r)
    (frames_duplicate r) v (last_cycle_time_us r) (max_jitter_us r) (min_cycle_time_us r)
    (max_cycle_time_us r) (last_rx_interval_us r) (max_rx_jitter_us r) (min_rx_interval_us r)
    (max_rx_interval_us r) (rx_interval_sum_us r) (rx_interval_count r) (last_receive_time r)
    (interval_disturbed r) (last_accepted_time r) (consecutive_timeouts r) (cycle_time_sum_us r)
    (cycle_count r).
Definition set_last_cycle_time_us (v : Z) (r : CyclicStats) : CyclicStats :=
  mkStats (frames_sent r) (frames_received r) (frames_missed r) (frames_invalid r)
    (frames_duplicate r) (frames_out_of_order r) v (max_jitter_us r) (min_cycle_time_us r)
    (max_cycle_time_us r) (last_rx_interval_us r) (max_rx_jitter_us r) (min_rx_interval_us r)
    (max_rx_interval_us r) (rx_interval_sum_us r) (rx_interval_count r) (last_receive_time r)
    (interval_disturbed r) (last_accepted_time r) (consecutive_timeouts r) (cycle_time_sum_us r)
    (cycle_count r).
Definition set_max_jitter_us (v : Z) (r : CyclicStats) : CyclicStats :=
  mkStats (frames_sent r) (frames_received r) (frames_missed r) (frames_invalid r)
    (frames_duplicate r) (frames_out_of_order r) (last_cycle_time_us r) v (min_cycle_time_us r)
    (max_cycle_time_us r) (last_rx_interval_us r) (max_rx_jitter_us r) (min_rx_interval_us r)
    (max_rx_interval_us r) (rx_interval_sum_us r) (rx_interval_count r) (last_receive_time r)
    (interval_disturbed r) (last_accepted_time r) (consecutive_timeouts r) (cycle_time_sum_us r)
    (cycle_count r).
Definition set_min_cycle_time_us (v : Z) (r : CyclicStats) : CyclicStats :=
  mkStats (frames_sent r) (frames_received r) (frames_missed r) (frames_invalid r)
    (frames_duplicate r) (frames_out_of_order r) (last_cycle_time_us r) (max_jitter_us r) v
    (max_cycle_time_us r) (last_rx_interval_us r) (max_rx_jitter_us r) (min_rx_interval_us r)
    (max_rx_interval_us r) (rx_interval_sum_us r) (rx_interval_count r) (last_receive_time r)
    (interval_disturbed r) (last_accepted_time r) (consecutive_timeouts r) (cycle_time_sum_us r)
    (cycle_count r).
Definition set_max_cycle_time_us (v : Z) (r : CyclicStats) : CyclicStats :=
  mkStats (frames_sent r) (frames_received r) (frames_missed r) (frames_invalid r)
    (frames_duplicate r) (frames_out_of_order r) (last_cycle_time_us r) (max_jitter_us r)
    (min_cycle_time_us r) v (last_rx_interval_us r) (max_rx_jitter_us r) (min_rx_interval_us r)
    (max_rx_interval_us r) (rx_interval_sum_us r) (rx_interval_count r) (last_receive_time r)
    (interval_disturbed r) (last_accepted_time r) (consecutive_timeouts r) (cycle_time_sum_us r)
    (cycle_count r).
Definition set_last_rx_interval_us (v : Z) (r : CyclicStats) : CyclicStats :=
  mkStats (frames_sent r) (frames_received r) (frames_missed r) (frames_invalid r)
    (frames_duplicate r) (frames_out_of_order r) (last_cycle_time_us r) (max_jitter_us r)
    (min_cycle_time_us r) (max_cycle_time_us r) v (max_rx_jitter_us r) (min_rx_interval_us r)
    (max_rx_interval_us r) (rx_interval_sum_us r) (rx_interval_count r) (last_receive_time r)
    (interval_disturbed r) (last_accepted_time r) (consecutive_timeouts r) (cycle_time_sum_us r)
    (cycle_count r).
Definition set_max_rx_jitter_us (v : Z) (r : CyclicStats) : CyclicStats :=
  mkStats (frames_sent r) (frames_received r) (frames_missed r) (frames_invalid r)
    (frames_duplicate r) (frames_out_of_order r) (last_cycle_time_us r) (max_jitter_us r)
    (min_cycle_time_us r) (max_cycle_time_us r) (last_rx_interval_us r) v (min_rx_interval_us r)
    (max_rx_interval_us r) (rx_interval_sum_us r) (rx_interval_count r) (last_receive_time r)
    (interval_disturbed r) (last_accepted_time r) (consecutive_timeouts r) (cycle_time_sum_us r)
    (cycle_count r).
Definition set_min_rx_interval_us (v : Z) (r : CyclicStats) : CyclicStats :=
  mkStats (frames_sent r) (frames_received r) (frames_missed r) (frames_invalid r)
    (frames_duplicate r) (frames_out_of_order r) (last_cycle_time_us r) (max_jitter_us r)
    (min_cycle_time_us r) (max_cycle_time_us r) (last_rx_interval_us r) (max_rx_jitter_us r) v
    (max_rx_interval_us r) (rx_interval_sum_us r) (rx_interval_count r) (last_receive_time r)
    (interval_disturbed r) (last_accepted_time r) (consecutive_timeouts r) (cycle_time_sum_us r)
    (cycle_count r).
Definition set_max_rx_interval_us (v : Z) (r : CyclicStats) : CyclicStats :=
  mkStats (frames_sent r) (frames_received r) (frames_missed r) (frames_invalid r)
    (frames_duplicate r) (frames_out_of_order r) (last_cycle_time_us r) (max_jitter_us r)
    (min_cycle_time_us r) (max_cycle_time_us r) (last_rx_interval_us r) (max_rx_jitter_us r)
    (min_rx_interval_us r) v (rx_interval_sum_us r) (rx_interval_count r) (last_receive_time r)
    (interval_disturbed r) (last_accepted_time r) (consecutive_timeouts r) (cycle_time_sum_us r)
    (cycle_count r).
Definition set_rx_interval_sum_us (v : Z) (r : CyclicStats) : CyclicStats :=
  mkStats (frames_sent r) (frames_received r) (frames_missed r) (frames_invalid r)
    (frames_duplicate r) (frames_out_of_order r) (last_cycle_time_us r) (max_jitter_us r)
    (min_cycle_time_us r) (max_cycle_time_us r) (last_rx_interval_us r) (max_rx_jitter_us r)
    (min_rx_interval_us r) (max_rx_interval_us r) v (rx_interval_count r) (last_receive_time r)
    (interval_disturbed r) (last_accepted_time r) (consecutive_timeouts r) (cycle_time_sum_us r)
    (cycle_count r).
Definition set_rx_interval_count (v : Z) (r : CyclicStats) : CyclicStats :=
  mkStats (frames_sent r) (frames_received r) (frames_missed r) (frames_invalid r)
    (frames_duplicate r) (frames_out_of_order r) (last_cycle_time_us r) (max_jitter_us r)
    (min_cycle_time_us r) (max_cycle_time_us r) (last_rx_interval_us r) (max_rx_jitter_us r)
    (min_rx_interval_us r) (max_rx_interval_us r) (rx_interval_sum_us r) v (last_receive_time r)
    (interval_disturbed r) (last_accepted_time r) (consecutive_timeouts r) (cycle_time_sum_us r)
    (cycle_count r).
Definition set_last_receive_time (v : Z) (r : CyclicStats) : CyclicStats :=
  mkStats (frames_sent r) (frames_received r) (frames_missed r) (frames_invalid r)
    (frames_duplicate r) (frames_out_of_order r) (last_cycle_time_us r) (max_jitter_us r)
    (min_cycle_time_us r) (max_cycle_time_us r) (last_rx_interval_us r) (max_rx_jitter_us r)
    (min_rx_interval_us r) (max_rx_interval_us r) (rx_interval_sum_us r) (rx_interval_count r) v
    (interval_disturbed r) (last_accepted_time r) (consecutive_timeouts r) (cycle_time_sum_us r)
    (cycle_count r).
Definition set_interval_disturbed (v : bool) (r : CyclicStats) : CyclicStats :=
  mkStats (frames_sent r) (frames_received r) (frames_missed r) (frames_invalid r)
    (frames_duplicate r) (frames_out_of_order r) (last_cycle_time_us r) (max_jitter_us r)
    (min_cycle_time_us r) (max_cycle_time_us r) (last_rx_interval_us r) (max_rx_jitter_us r)
    (min_rx_interval_us r) (max_rx_interval_us r) (rx_interval_sum_us r) (rx_interval_count r)
    (last_receive_time r) v (last_accepted_time r) (consecutive_timeouts r) (cycle_time_sum_us r)
    (cycle_count r).
Definition set_last_accepted_time (v : option Z) (r : CyclicStats) : CyclicStats :=
  mkStats (frames_sent r) (frames_received r) (frames_missed r) (frames_invalid r)
    (frames_duplicate r) (frames_out_of_order r) (last_cycle_time_us r) (max_jitter_us r)
    (min_cycle_time_us r) (max_cycle_time_us r) (last_rx_interval_us r) (max_rx_jitter_us r)
    (min_rx_interval_us r) (max_rx_interval_us r) (rx_interval_sum_us r) (rx_interval_count r)
    (last_receive_time r) (interval_disturbed r) v (consecutive_timeouts r) (cycle_time_sum_us r)
    (cycle_count r).
Definition set_consecutive_timeouts (v : Z) (r : CyclicStats) : CyclicStats :=
  mkStats (frames_sent r) (frames_received r) (frames_missed r) (frames_invalid r)
    (frames_duplicate r) (frames_out_of_order r) (last_cycle_time_us r) (max_jitter_us r)
    (min_cycle_time_us r) (max_cycle_time_us r) (last_rx_interval_us r) (max_rx_jitter_us r)
    (min_rx_interval_us r) (max_rx_interval_us r) (rx_interval_sum_us r) (rx_interval_count r)
    (last_receive_time r) (interval_disturbed r) (last_accepted_time r) v (cycle_time_sum_us r)
    (cycle_count r).
Definition set_cycle_time_sum_us (v : Z) (r : CyclicStats) : CyclicStats :=
  mkStats (frames_sent r) (frames_received r) (frames_missed r) (frames_invalid r)
    (frames_duplicate r) (frames_out_of_order r) (last_cycle_time_us r) (max_jitter_us r)
    (min_cycle_time_us r) (max_cycle_time_us r) (last_rx_interval_us r) (max_rx_jitter_us r)
    (min_rx_interval_us r) (max_rx_interval_us r) (rx_interval_sum_us r) (rx_interval_count r)
    (last_receive_time r) (interval_disturbed r) (last_accepted_time r) (consecutive_timeouts r) v
    (cycle_count r).
Definition set_cycle_count (v : Z) (r : CyclicStats) : CyclicStats :=
  mkStats (frames_sent r) (frames_received r) (frames_missed r) (frames_invalid r)
    (frames_duplicate r) (frames_out_of_order r) (last_cycle_time_us r) (max_jitter_us r)
    (min_cycle_time_us r) (max_cycle_time_us r) (last_rx_interval_us r) (max_rx_jitter_us r)
    (min_rx_interval_us r) (max_rx_interval_us r) (rx_interval_sum_us r) (rx_interval_count r)
    (last_receive_time r) (interval_disturbed r) (last_accepted_time r) (consecutive_timeouts r)
    (cycle_time_sum_us r) v.

Definition stats_new (now : Z) : CyclicStats :=
  mkStats 0 0 0 0 0 0 0 0 (2 ^ 31) 0 0 0 (2 ^ 31) 0 0 0 now false None 0 0 0.

Definition checked_div (a b : Z) : option Z := if b =? 0 then None else Some (a / b).

Definition avg_cycle_time_us (s : CyclicStats) : Z :=
  default 0 (checked_div (cycle_time_sum_us s) (cycle_count s)).
Definition avg_rx_interval_us (s : CyclicStats) : Z :=
  default 0 (checked_div (rx_interval_sum_us s) (rx_interval_count s)).

(** ** Shared state *)

Record InputEntry := { data : list Z; iops : Z }.

Definition iops_good (v : Z) : bool := negb (Z.land v IOXS_DATA_STATE_GOOD =? 0).
Definition is_good (e : InputEntry) : bool := iops_good (iops e).

(** Which callbacks are registered. *)
Record Callbacks := {
  on_input_data : bool;
  on_input_status : bool;
  on_timeout : bool;
  on_error : bool;
  on_state_change : bool;
}.

Record Shared := mkShared {
  src_mac : list Z;
  dst_mac : list Z;
  input_iocr : IocrConfig;
  output_iocr : IocrConfig;
  max_consecutive_timeouts : Z;
  state : CyclicState;
  running : bool;
  ever_faulted : bool;
  cycle_counter_ : Z;
  output_builder : CyclicDataBuilder;
  input_data : gmap (Z * Z) InputEntry;
  last_rx_cycle_counter : option Z;
  rx_counter_step : Z;
  tx_counter_step : Z;
  callbacks : Callbacks;
  stats : CyclicStats;
  safe_output : option (Z * Z * list Z);
}.

Definition set_state (v : CyclicState) (r : Shared) : Shared :=
  mkShared (src_mac r) (dst_mac r) (input_iocr r) (output_iocr r) (max_consecutive_timeouts r) v
    (running r) (ever_faulted r) (cycle_counter_ r) (output_builder r) (input_data r)
    (last_rx_cycle_counter r) (rx_counter_step r) (tx_counter_step r) (callbacks r) (stats r)
    (safe_output r).
Definition set_running (v : bool) (r : Shared) : Shared :=
  mkShared (src_mac r) (dst_mac r) (input_iocr r) (output_iocr r) (max_consecutive_timeouts r)
    (state r) v (ever_faulted r) (cycle_counter_ r) (output_builder r) (input_data r)
    (last_rx_cycle_counter r) (rx_counter_step r) (tx_counter_step r) (callbacks r) (stats r)
    (safe_output r).
Definition set_ever_faulted (v : bool) (r : Shared) : Shared :=
  mkShared (src_mac r) (dst_mac r) (input_iocr r) (output_iocr r) (max_consecutive_timeouts r)
    (state r) (running r) v (cycle_counter_ r) (output_builder r) (input_data r)
    (last_rx_cycle_counter r) (rx_counter_step r) (tx_counter_step r) (callbacks r) (stats r)
    (safe_output r).
Definition set_cycle_counter_ (v : Z) (r : Shared) : Shared :=
  mkShared (src_mac r) (dst_mac r) (input_iocr r) (output_iocr r) (max_consecutive_timeouts r)
    (state r) (running r) (ever_faulted r) v (output_builder r) (input_data r)
    (last_rx_cycle_counter r) (rx_counter_step r) (tx_counter_step r) (callbacks r) (stats r)
    (safe_output r).
Definition set_output_builder (v : CyclicDataBuilder) (r : Shared) : Shared :=
  mkShared (src_mac r) (dst_mac r) (input_iocr r) (output_iocr r) (max_consecutive_timeouts r)
    (state r) (running r) (ever_faulted r) (cycle_counter_ r) v (input_data r)
    (last_rx_cycle_counter r) (rx_counter_step r) (tx_counter_step r) (callbacks r) (stats r)
    (safe_output r).
Definition set_input_data (v : gmap (Z * Z) InputEntry) (r : Shared) : Shared :=
  mkShared (src_mac r) (dst_mac r) (input_iocr r) (output_iocr r) (max_consecutive_timeouts r)
    (state r) (running r) (ever_faulted r) (cycle_counter_ r) (output_builder r) v
    (last_rx_cycle_counter r) (rx_counter_step r) (tx_counter_step r) (callbacks r) (stats r)
    (safe_output r).
Definition set_last_rx_cycle_counter (v : option Z) (r : Shared) : Shared :=
  mkShared (src_mac r) (dst_mac r) (input_iocr r) (output_iocr r) (max_consecutive_timeouts r)
    (state r) (running r) (ever_faulted r) (cycle_counter_ r) (output_builder r) (input_data r) v
    (rx_counter_step r) (tx_counter_step r) (callbacks r) (stats r) (safe_output r).
Definition set_stats (v : CyclicStats) (r : Shared) : Shared :=
  mkShared (src_mac r) (dst_mac r) (input_iocr r) (output_iocr r) (max_consecutive_timeouts r)
    (state r) (running r) (ever_faulted r) (cycle_counter_ r) (output_builder r) (input_data r)
    (last_rx_cycle_counter r) (rx_counter_step r) (tx_counter_step r) (callbacks r) v
    (safe_output r).
Definition set_safe_output (v : option (Z * Z * list Z)) (r : Shared) : Shared :=
  mkShared (src_mac r) (dst_mac r) (input_iocr r) (output_iocr r) (max_consecutive_timeouts r)
    (state r) (running r) (ever_faulted r) (cycle_counter_ r) (output_builder r) (input_data r)
    (last_rx_cycle_counter r) (rx_counter_step r) (tx_counter_step r) (callbacks r) (stats r) v.
Definition set_callbacks (v : Callbacks) (r : Shared) : Shared :=
  mkShared (src_mac r) (dst_mac r) (input_iocr r) (output_iocr r) (max_consecutive_timeouts r)
    (state r) (running r) (ever_faulted r) (cycle_counter_ r) (output_builder r) (input_data r)
    (last_rx_cycle_counter r) (rx_counter_step r) (tx_counter_step r) v (stats r) (safe_output r).

(** What an action does to the outside, in order. *)
Inductive Event :=
| StateChange (old new : CyclicState)
| InputData (slot subslot : Z) (d : list Z)
| InputStatus (slot subslot iops : Z)
| Timeout
| ErrorMessage (e : string)
| Sent (frame : list Z).

Definition M (A : Type) : Type := Shared -> outcome (A * Shared * list Event).

Definition ret {A} (a : A) : M A := fun s => Ok (a, s, []).
Definition bindM {A B} (m : M A) (k : A -> M B) : M B := fun s =>
  let? r := m s in
  let '(a, s1, e1) := r in
  let? r := k a s1 in
  let '(b, s2, e2) := r in
  Ok (b, s2, e1 ++ e2).
Definition gets {A} (f : Shared -> A) : M A := fun s => Ok (f s, s, []).
Definition modify (f : Shared -> Shared) : M unit := fun s => Ok (tt, f s, []).
Definition emit (e : Event) : M unit := fun s => Ok (tt, s, [e]).
Definition lift {A} (o : outcome A) : M A := fun s => let? a := o in Ok (a, s, []).
Definition whenM (b : bool) (m : M unit) : M unit := if b then m else ret tt.

Notation "'let*' x := m 'in' k" := (bindM m (fun x => k))
  (at level 10, x binder, m at level 100, k at level 200) : rust_scope.
Notation "'do*' m ; k" := (bindM m (fun _ => k))
  (at level 10, m at level 100, k at level 200) : rust_scope.

Definition modify_stats (f : CyclicStats -> CyclicStats) : M unit :=
  modify (fun s => set_stats (f (stats s)) s).

(** Runs a builder operation under the builder's lock. *)
Definition with_builder (f : CyclicDataBuilder -> outcome CyclicDataBuilder) : M unit :=
  let* b := gets output_builder in
  let* b' := lift (f b) in
  modify (set_output_builder b').

Definition transition (new_state : CyclicState) : M unit :=
  let* old := gets state in
  if state_eqb old new_state then ret tt
  else
    do* modify (set_state new_state);
    do* whenM (state_eqb new_state Fault) (modify (set_ever_faulted true));
    let* cb := gets (fun s => on_state_change (callbacks s)) in
    whenM cb (emit (StateChange old new_state)).

Definition emit_error (message : string) : M unit :=
  let* cb := gets (fun s => on_error (callbacks s)) in
  whenM cb (emit (ErrorMessage message)).

(** ** Output frames *)

Definition RUN_STATUS : Z :=
  Z.lor (Z.lor (Z.lor DATA_STATUS_VALID DATA_STATUS_PROVIDER_RUN) DATA_STATUS_STATION_OK)
        DATA_STATUS_STATE.

Definition next_output_frame (data_status : option Z) : M (list Z) :=
  let* c := gets cycle_counter_ in
  let* step_ := gets tx_counter_step in
  let counter := Z.land (wrap_add32 c step_) 0xFFFF in
  do* modify (set_cycle_counter_ counter);
  do* with_builder swap;
  let* s := gets (fun s => s) in
  let frame := {| frame_id := c_frame_id (output_iocr s); cycle_counter := counter;
                  Rt.data_status := default RUN_STATUS data_status; transfer_status := 0;
                  payload := build (output_builder s) |} in
  ret (build_ethernet_frame (dst_mac s) (src_mac s) frame).

(** ** Input frames *)

Definition frame_is_alive (f : RtFrame) : bool :=
  is_valid f && Rt.is_running f && negb (is_ignored f) && (transfer_status f =? 0).

Definition abs_diff (a b : Z) : Z := Z.abs (a - b).

(** The bookkeeping under the stats lock of [process_input_frame]. *)
Definition receive_stats (valid : bool) (now target_us : Z) (s : CyclicStats) : CyclicStats :=
  let s := set_frames_received (frames_received s + 1) s in
  if valid then
    let s :=
      match last_accepted_time s with
      | Some previous =>
          let interval_us := Z.max 0 (now - previous) / 1000 in
          let s := set_last_rx_interval_us interval_us s in
          let s := set_max_rx_interval_us (Z.max (max_rx_interval_us s) interval_us) s in
          if negb (interval_disturbed s) then
            let s := set_max_rx_jitter_us (Z.max (max_rx_jitter_us s) (abs_diff interval_us target_us)) s in
            let s := set_min_rx_interval_us (Z.min (min_rx_interval_us s) interval_us) s in
            let s := set_rx_interval_sum_us (rx_interval_sum_us s + interval_us) s in
            set_rx_interval_count (rx_interval_count s + 1) s
          else s
      | None => s
      end in
    let s := set_last_accepted_time (Some now) s in
    let s := set_last_receive_time now s in
    let s := set_consecutive_timeouts 0 s in
    set_interval_disturbed false s
  else set_interval_disturbed true s.

(** Saturating [frames - 1] of the forward distance in steps. *)
Definition frame_gap (forward step_ : Z) : Z :=
  match checked_div forward step_ with
  | Some frames => sat_sub frames 1
  | None => 0
  end.

Definition track_cycle_counter (rx_counter : Z) : M unit :=
  let* last := gets last_rx_cycle_counter in
  match last with
  | None => modify (set_last_rx_cycle_counter (Some rx_counter))
  | Some prev =>
      let* step_ := gets rx_counter_step in
      let expected := Z.land (wrap_add32 prev step_) 0xFFFF in
      if rx_counter =? prev then
        modify_stats (fun s => set_frames_duplicate (frames_duplicate s + 1) s)
      else if negb (rx_counter =? expected) then
        let forward := wrap_sub16 rx_counter prev in
        do* (if 0x8000 <? forward then
               modify_stats (fun s => set_frames_out_of_order (frames_out_of_order s + 1) s)
             else
               modify_stats (fun s => set_frames_missed (frames_missed s + frame_gap forward step_) s));
        modify (set_last_rx_cycle_counter (Some rx_counter))
      else modify (set_last_rx_cycle_counter (Some rx_counter))
  end.

(** The loop over the objects under the input lock. *)
Record InputAcc := {
  acc_data : gmap (Z * Z) InputEntry;
  acc_status : list Event;
  acc_updates : list Event;
}.

Definition process_object (want_data : bool) (p : list Z) (obj : IoDataObject) (acc : InputAcc)
    : outcome InputAcc :=
  if (len p <=? iops_offset obj) || (len p <? frame_offset obj + o_data_length obj) then Ok acc
  else
    let? v := idx p (iops_offset obj) in
    let key := (o_slot obj, o_subslot obj) in
    let was_good := match acc_data acc !! key with Some e => is_good e | None => false end in
    let good := iops_good v in
    let? d := slice p (frame_offset obj) (frame_offset obj + o_data_length obj) in
    Ok {| acc_data := <[key := {| data := d; iops := v |}]> (acc_data acc);
          acc_status := if eqb good was_good then acc_status acc
                        else acc_status acc ++ [InputStatus (o_slot obj) (o_subslot obj) v];
          acc_updates := if good && want_data
                         then acc_updates acc ++ [InputData (o_slot obj) (o_subslot obj) d]
                         else acc_updates acc |}.

Definition emit_all (l : list Event) : M unit := fun s => Ok (tt, s, l).

Definition store_inputs (p : list Z) : M unit :=
  let* cbs := gets callbacks in
  let* objs := gets (fun s => objects (input_iocr s)) in
  let* d := gets input_data in
  let* acc := lift (for_each objs (process_object (on_input_data cbs) p)
                      {| acc_data := d; acc_status := []; acc_updates := [] |}) in
  do* modify (set_input_data (acc_data acc));
  do* whenM (on_input_status cbs) (emit_all (acc_status acc));
  whenM (on_input_data cbs) (emit_all (acc_updates acc)).

(** Everything after the frame-id filter. *)
Definition accept_frame (now : Z) (frame : RtFrame) : M unit :=
  let valid := frame_is_alive frame in
  let* target_us := gets (fun s => cycle_time_us (input_iocr s)) in
  do* modify_stats (receive_stats valid now target_us);
  let* st := gets state in
  do* whenM (valid && state_eqb st Fault) (transition Running);
  do* track_cycle_counter (cycle_counter frame);
  if negb valid then modify_stats (fun s => set_frames_invalid (frames_invalid s + 1) s)
  else
    do* with_builder (fun b => set_all_iocs b IOXS_GOOD);
    store_inputs (payload frame).

Definition process_input_frame (now : Z) (d : list Z) : M unit :=
  if len d <? 18 then ret tt
  else
    let* mac := lift (slice d 6 12) in
    let* dst := gets dst_mac in
    if negb (bool_decide (mac = dst)) then ret tt
    else
      let* parsed := lift (parse_ethernet_frame d) in
      match parsed with
      | None => ret tt
      | Some frame =>
          let* fid := gets (fun s => c_frame_id (input_iocr s)) in
          if negb (frame_id frame =? fid) then ret tt else accept_frame now frame
      end.

(** ** The watchdog *)

Definition handle_watchdog_timeout : M unit :=
  do* modify_stats (fun s => set_frames_missed (frames_missed s + 1) s);
  do* modify_stats (fun s => set_consecutive_timeouts (wrap_add32 (consecutive_timeouts s) 1) s);
  do* modify_stats (set_interval_disturbed true);
  let* consecutive := gets (fun s => consecutive_timeouts (stats s)) in
  let* max := gets max_consecutive_timeouts in
  do* whenM (0 <? max) (with_builder (fun b => set_all_iocs b IOXS_BAD));
  let* cb := gets (fun s => on_timeout (callbacks s)) in
  do* whenM cb (emit Timeout);
  let* st := gets state in
  whenM ((0 <? max) && (max <=? consecutive) && state_eqb st Running)
    (do* transition Fault;
     emit_error ("Communication lost: " +:+ dec consecutive +:+ " consecutive watchdog timeouts")).

(** [now] is the reading of the clock for [elapsed], [now'] the one that
    re-arms the timer. *)
Definition check_receive_watchdog (watchdog_ns now now' : Z) : M unit :=
  let* last := gets (fun s => last_receive_time (stats s)) in
  whenM (watchdog_ns <? Z.max 0 (now - last))
    (do* handle_watchdog_timeout;
     modify_stats (set_last_receive_time now')).

Inductive RecvResult := RecvFrame (d : list Z) | RecvNothing | RecvError (e : string).

(** What [rx_loop] does before its first pass: arm the watchdog. *)
Definition rx_start (now : Z) : M unit := modify_stats (set_last_receive_time now).

(** One pass of [rx_loop]; [false] leaves the loop. *)
Definition rx_pass (r : RecvResult) (t1 t2 t3 : Z) : M bool :=
  let* cfg := gets input_iocr in
  let watchdog_ns := watchdog_time_us cfg * 1000 in
  match r with
  | RecvError e =>
      let* run := gets running in
      do* whenM run
            (do* emit_error ("RX error: " +:+ e);
             let* st := gets state in
             whenM (state_eqb st Running) (transition Fault));
      ret false
  | _ =>
      do* match r with RecvFrame d => process_input_frame t1 d | _ => ret tt end;
      do* check_receive_watchdog watchdog_ns t2 t3;
      ret true
  end.

(** ** Transmitting *)

Record TxLocal := { next_send : Z; last_send : Z; first_frame : bool }.

(** The variables [tx_loop] starts with. *)
Definition tx_start (now : Z) : TxLocal :=
  {| next_send := now; last_send := now; first_frame := true |}.

Definition tx_stats (actual_us cycle_us : Z) (s : CyclicStats) : CyclicStats :=
  let s := set_last_cycle_time_us actual_us s in
  let jitter := abs_diff actual_us cycle_us in
  let s := if max_jitter_us s <? jitter then set_max_jitter_us jitter s else s in
  let s := set_min_cycle_time_us (Z.min (min_cycle_time_us s) actual_us) s in
  let s := set_max_cycle_time_us (Z.max (max_cycle_time_us s) actual_us) s in
  let s := set_cycle_time_sum_us (cycle_time_sum_us s + actual_us) s in
  set_cycle_count (cycle_count s + 1) s.

(** One pass of [tx_loop] up to its sleep; [send] is what the socket returned. *)
Definition tx_pass (now : Z) (send : option string) (l : TxLocal) : M TxLocal :=
  if next_send l <=? now then
    let* cycle_us := gets (fun s => cycle_time_us (output_iocr s)) in
    let cycle_ns := cycle_us * 1000 in
    let* frame := next_output_frame None in
    do* match send with
        | Some e => emit_error ("TX error: " +:+ e)
        | None => emit (Sent frame)
        end;
    do* modify_stats (fun s => set_frames_sent (frames_sent s + 1) s);
    do* whenM (negb (first_frame l))
          (modify_stats (tx_stats (Z.max 0 (now - last_send l) / 1000) cycle_us));
    let next := next_send l + cycle_ns in
    ret {| next_send := if next <? now then now + cycle_ns else next; last_send := now;
           first_frame := false |}
  else ret l.

(** ** Stopping *)

Definition apply_safe_output : M unit :=
  let* safe := gets safe_output in
  match safe with
  | None => ret tt
  | Some (slot, subslot, d) =>
      let* b := gets output_builder in
      match set_data b slot subslot d with
      | Err e => emit_error ("safe output not applied: " +:+ e)
      | o =>
          let* b := lift o in
          do* modify (set_output_builder b);
          do* with_builder (fun b => set_iops b slot subslot IOXS_GOOD);
          with_builder swap
      end
  end.

Definition STOP_STATUS : Z :=
  Z.lor (Z.lor DATA_STATUS_VALID DATA_STATUS_STATION_OK) DATA_STATUS_STATE.

(** [sends] are the results of the sends, one per remaining frame. *)
Fixpoint stop_frames_loop (sends : list bool) : M unit :=
  match sends with
  | [] => ret tt
  | ok :: sends =>
      do* with_builder swap;
      let* frame := next_output_frame (Some STOP_STATUS) in
      if negb ok then ret tt
      else
        do* emit (Sent frame);
        do* modify_stats (fun s => set_frames_sent (frames_sent s + 1) s);
        stop_frames_loop sends
  end.

Definition send_stop_frames (sends : Z -> bool) : M unit :=
  stop_frames_loop (sends <$> seqZ 0 STOP_FRAME_COUNT).

(** ** The controller *)

Record CyclicController := mkController {
  interface : string;
  shared : Shared;
  tx_thread : bool;
  rx_thread : bool;
}.

Definition no_callbacks : Callbacks :=
  {| on_input_data := false; on_input_status := false; on_timeout := false; on_error := false;
     on_state_change := false |}.

Definition controller_new (interface : string) (src_mac dst_mac : list Z)
    (input_iocr output_iocr : IocrConfig) (max_consecutive_timeouts now : Z)
    : outcome CyclicController :=
  if cycle_time_us output_iocr <? 1000 then
    Err ("Cycle time " +:+ ms_2dp (cycle_time_us output_iocr)
         +:+ "ms is below 1ms — not reliably achievable with thread-sleep pacing")
  else
    let rx_step := as_u32 (send_clock_factor input_iocr * reduction_ratio input_iocr) in
    let tx_step := as_u32 (send_clock_factor output_iocr * reduction_ratio output_iocr) in
    let? b := set_all_iops (builder_new output_iocr) IOXS_GOOD in
    Ok (mkController interface
          (mkShared src_mac dst_mac input_iocr output_iocr max_consecutive_timeouts Idle false false 0
             b ∅ None rx_step tx_step no_callbacks (stats_new now) None)
          false false).

Definition set_output_data (slot subslot : Z) (d : list Z) : M (option string) :=
  let* st := gets state in
  if output_writes_locked st then
    ret (Some ("Cannot set output data in " +:+ as_str st +:+ " state"))
  else
    let* b := gets output_builder in
    match set_data b slot subslot d with
    | Err e => ret (Some e)
    | o =>
        let* b := lift o in
        do* modify (set_output_builder b);
        do* with_builder (fun b => set_iops b slot subslot IOXS_GOOD);
        ret None
    end.

Definition get_input_data (s : Shared) (slot subslot : Z) : option (list Z) :=
  match input_data s !! (slot, subslot) with
  | Some e => if is_good e then Some (data e) else None
  | None => None
  end.
Definition get_input_data_allow_bad (s : Shared) (slot subslot : Z) : option (list Z) :=
  data <$> input_data s !! (slot, subslot).
Definition get_input_status (s : Shared) (slot subslot : Z) : option Z :=
  iops <$> input_data s !! (slot, subslot).
Definition is_input_good (s : Shared) (slot subslot : Z) : bool :=
  match input_data s !! (slot, subslot) with Some e => is_good e | None => false end.

Definition set_safe_output_ (slot subslot : Z) (d : list Z) : M unit :=
  modify (set_safe_output (Some (slot, subslot, d))).

(** Registering a callback replaces the previous one. *)
Definition register (f : Callbacks -> Callbacks) : M unit :=
  modify (fun s => set_callbacks (f (callbacks s)) s).

Definition startable (s : CyclicState) : bool :=
  match s with Idle | Stopped | Fault => true | _ => false end.

(** What [start] resets before it opens the sockets. *)
Definition start_reset (now : Z) : M unit :=
  do* transition Starting;
  do* modify (set_running true);
  do* modify_stats (fun _ => stats_new now);
  do* modify (set_ever_faulted false);
  modify (set_last_rx_cycle_counter None).

(** [open_tx], ... are the errors of the system calls, [None] for success. *)
Definition start (c : CyclicController) (now : Z)
    (open_tx open_rx spawn_tx spawn_rx : option string)
    : outcome (option string * CyclicController * list Event) :=
  let st := state (shared c) in
  if negb (startable st) then Ok (Some ("Cannot start from " +:+ as_str st +:+ " state"), c, [])
  else
    let? r := start_reset now (shared c) in
    let '(_, s1, e1) := r in
    match open_tx with
    | Some e => Ok (Some e, mkController (interface c) s1 (tx_thread c) (rx_thread c), e1)
    | None =>
        match open_rx with
        | Some e => Ok (Some e, mkController (interface c) s1 (tx_thread c) (rx_thread c), e1)
        | None =>
            let? r := with_builder swap s1 in
            let '(_, s2, e2) := r in
            match spawn_tx with
            | Some e =>
                Ok (Some ("failed to spawn TX thread: " +:+ e),
                    mkController (interface c) s2 (tx_thread c) (rx_thread c), e1 ++ e2)
            | None =>
                match spawn_rx with
                | Some e =>
                    Ok (Some ("failed to spawn RX thread: " +:+ e),
                        mkController (interface c) s2 true (rx_thread c), e1 ++ e2)
                | None =>
                    let? r := transition Running s2 in
                    let '(_, s3, e3) := r in
                    Ok (None, mkController (interface c) s3 true true, e1 ++ e2 ++ e3)
                end
            end
        end
    end.

(** [joined]: the TX thread returned its socket instead of panicking. *)
Definition stop_running (tx_thread joined : bool) (sends : Z -> bool) : M unit :=
  do* transition Stopping;
  do* modify (set_running false);
  do* whenM (tx_thread && joined) (send_stop_frames sends);
  transition Stopped.

Definition stop (c : CyclicController) (joined : bool) (sends : Z -> bool)
    : outcome (CyclicController * list Event) :=
  let? r := apply_safe_output (shared c) in
  let '(_, s1, e1) := r in
  if negb (running s1) then Ok (mkController (interface c) s1 (tx_thread c) (rx_thread c), e1)
  else
    let? r := stop_running (tx_thread c) joined sends s1 in
    let '(_, s2, e2) := r in
    Ok (mkController (interface c) s2 false false, e1 ++ e2).

Definition stop_safe (c : CyclicController) (slot subslot : Z) (d : list Z) (joined : bool)
    (sends : Z -> bool) : outcome (CyclicController * list Event) :=
  stop (mkController (interface c) (set_safe_output (Some (slot, subslot, d)) (shared c))
          (tx_thread c) (rx_thread c)) joined sends.

(** [Drop]. *)
Definition drop_controller (c : CyclicController) (joined : bool) (sends : Z -> bool)
    : outcome (CyclicController * list Event) :=
  stop c joined sends.

(** ** Reasoning about actions *)

Definition wpM {A} (m : M A) (s : Shared) (P : A -> Shared -> list Event -> Prop) : Prop :=
  total (m s) (fun r => P (fst (fst r)) (snd (fst r)) (snd r)).

Lemma wpM_ret {A} (a : A) s P : P a s [] -> wpM (ret a) s P.
Proof. done. Qed.
Lemma wpM_bind {A B} (m : M A) (k : A -> M B) s P :
  wpM m s (fun a s1 e1 => wpM (k a) s1 (fun b s2 e2 => P b s2 (e1 ++ e2))) -> wpM (bindM m k) s P.
Proof.
  unfold wpM, total, bindM. intros H. destruct (m s) as [[[a s1] e1]|e| |]; simpl in *; try done.
  destruct (k a s1) as [[[b s2] e2]|e| |]; simpl in *; done.
Qed.
Lemma wpM_mono {A} (m : M A) s (P Q : A -> Shared -> list Event -> Prop) :
  wpM m s P -> (forall a s' ev, P a s' ev -> Q a s' ev) -> wpM m s Q.
Proof. unfold wpM, total. intros H HPQ. eapply wp_mono; [exact H| |done]. intros [[a s'] ev]. apply HPQ. Qed.
Lemma wpM_and {A} (m : M A) s (P Q : A -> Shared -> list Event -> Prop) :
  wpM m s P -> wpM m s Q -> wpM m s (fun a s' ev => P a s' ev /\ Q a s' ev).
Proof. unfold wpM, total. destruct (m s) as [[[a s'] ev]|e| |]; simpl; auto. Qed.
Lemma wpM_gets {A} (f : Shared -> A) s P : P (f s) s [] -> wpM (gets f) s P.
Proof. done. Qed.
Lemma wpM_modify f s P : P tt (f s) [] -> wpM (modify f) s P.
Proof. done. Qed.
Lemma wpM_modify_stats f s P : P tt (set_stats (f (stats s)) s) [] -> wpM (modify_stats f) s P.
Proof. done. Qed.
Lemma wpM_emit e s P : P tt s [e] -> wpM (emit e) s P.
Proof. done. Qed.
Lemma wpM_lift {A} (o : outcome A) s P : total o (fun a => P a s []) -> wpM (lift o) s P.
Proof. unfold wpM, total, lift. destruct o; done. Qed.
Lemma wpM_whenM (b : bool) m s P :
  (b = true -> wpM m s P) -> (b = false -> P tt s []) -> wpM (whenM b m) s P.
Proof. intros H1 H2. destruct b; [by apply H1|by apply H2]. Qed.
Lemma wpM_with_builder f s P :
  total (f (output_builder s)) (fun b => P tt (set_output_builder b s) []) -> wpM (with_builder f) s P.
Proof.
  unfold wpM, total, with_builder, bindM, gets, lift, modify. simpl.
  destruct (f (output_builder s)); simpl; auto.
Qed.

Lemma wpM_run {A} (m : M A) s P :
  wpM m s P -> exists a s' ev, m s = Ok (a, s', ev) /\ P a s' ev.
Proof. intros H. destruct (total_Ok _ _ H) as ([[a s'] ev] & E & HP). eauto. Qed.

Ltac wpM_step :=
  lazymatch goal with
  | |- wpM (bindM _ _) _ _ => apply wpM_bind
  | |- wpM (ret _) _ _ => apply wpM_ret
  | |- wpM (gets _) _ _ => apply wpM_gets
  | |- wpM (modify _) _ _ => apply wpM_modify
  | |- wpM (modify_stats _) _ _ => apply wpM_modify_stats
  | |- wpM (emit _) _ _ => apply wpM_emit
  end.
Ltac wpM_auto := repeat wpM_step.

(** ** The invariant of the shared state *)

Record shared_ok (s : Shared) : Prop := {
  ok_builder : builder_ok (output_builder s);
  ok_image : image_bytes (output_builder s);
  ok_config : config (output_builder s) = output_iocr s;
  ok_input : config_ok (input_iocr s);
  ok_src : length (src_mac s) = 6%nat;
  ok_dst : length (dst_mac s) = 6%nat;
  ok_counter : u16_ok (cycle_counter_ s);
  ok_frame_id : u16_ok (c_frame_id (output_iocr s));
  ok_fault : state s = Fault -> ever_faulted s = true;
  ok_consecutive : u32_ok (consecutive_timeouts (stats s));
  ok_safe : forall sl ss d, safe_output s = Some (sl, ss, d) -> bytes_ok d;
}.

(** Nothing of [s] that the configuration fixed has changed. *)
Definition same_config (s s' : Shared) : Prop :=
  src_mac s' = src_mac s /\ dst_mac s' = dst_mac s /\ input_iocr s' = input_iocr s /\
  output_iocr s' = output_iocr s /\ max_consecutive_timeouts s' = max_consecutive_timeouts s /\
  rx_counter_step s' = rx_counter_step s /\ tx_counter_step s' = tx_counter_step s.

#[global] Instance same_config_refl : Reflexive same_config.
Proof. intros s. by repeat split. Qed.
#[global] Instance same_config_trans : Transitive same_config.
Proof.
  intros a b c (?&?&?&?&?&?&?) (?&?&?&?&?&?&?). unfold same_config. split_and!; congruence.
Qed.

(** [keeps m]: from a good state [m] runs through to a good state of the same
    configuration. *)
Definition keeps {A} (m : M A) : Prop :=
  forall s, shared_ok s -> wpM m s (fun _ s' _ => shared_ok s' /\ same_config s s').

Lemma keeps_bind {A B} (m : M A) (k : A -> M B) :
  keeps m -> (forall a, keeps (k a)) -> keeps (bindM m k).
Proof.
  intros Hm Hk s Hs. apply wpM_bind. eapply wpM_mono; [by apply Hm|].
  intros a s1 e1 [Hs1 Hc1]. eapply wpM_mono; [by apply Hk|].
  intros b s2 e2 [Hs2 Hc2]. split; [done|by transitivity s1].
Qed.
Lemma keeps_ret {A} (a : A) : keeps (ret a).
Proof. intros s Hs. by apply wpM_ret. Qed.
Lemma keeps_gets {A} (f : Shared -> A) : keeps (gets f).
Proof. intros s Hs. by apply wpM_gets. Qed.
Lemma keeps_emit e : keeps (emit e).
Proof. intros s Hs. by apply wpM_emit. Qed.
Lemma keeps_emit_all l : keeps (emit_all l).
Proof. intros s Hs. done. Qed.
Lemma keeps_whenM b m : keeps m -> keeps (whenM b m).
Proof. intros Hm. destruct b; [done|apply keeps_ret]. Qed.
Lemma keeps_modify f :
  (forall s, shared_ok s -> shared_ok (f s) /\ same_config s (f s)) -> keeps (modify f).
Proof. intros H s Hs. by apply wpM_modify, H. Qed.
(** Updates of the statistics that keep the timeout streak a 32-bit value. *)
Lemma keeps_stats f :
  (forall s, u32_ok (consecutive_timeouts s) -> u32_ok (consecutive_timeouts (f s))) ->
  keeps (modify_stats f).
Proof.
  intros H s Hs. apply wpM_modify_stats. split; [|by repeat split].
  destruct Hs. constructor; cbn; auto.
Qed.
Lemma keeps_builder f :
  (forall b, builder_ok b -> image_bytes b ->
     total (f b) (fun b' => builder_ok b' /\ image_bytes b' /\ config b' = config b)) ->
  keeps (with_builder f).
Proof.
  intros H s Hs. apply wpM_with_builder. eapply wp_mono; [by apply H; apply Hs| |done].
  intros b (H1 & H2 & H3). split; [|by repeat split].
  destruct Hs. constructor; cbn; auto. congruence.
Qed.

Lemma swap_total b : builder_ok b -> image_bytes b ->
  total (swap b) (fun b' => builder_ok b' /\ image_bytes b' /\ config b' = config b).
Proof.
  intros Hb Hi. eapply total_inv; [by apply swap_wp|].
  intros b' E (? & _). by destruct (swap_image b b' Hi E).
Qed.
Lemma set_all_iocs_total b v : byte_ok v -> builder_ok b -> image_bytes b ->
  total (set_all_iocs b v) (fun b' => builder_ok b' /\ image_bytes b' /\ config b' = config b).
Proof.
  intros Hv Hb Hi. eapply total_inv; [by apply set_all_iocs_wp|].
  intros b' E (? & _). by destruct (set_all_iocs_image b v b' Hv Hi E).
Qed.
Lemma set_iops_total b s ss v : byte_ok v -> builder_ok b -> image_bytes b ->
  total (set_iops b s ss v) (fun b' => builder_ok b' /\ image_bytes b' /\ config b' = config b).
Proof.
  intros Hv Hb Hi. eapply total_inv; [by apply set_iops_wp|].
  intros b' E ?. by destruct (set_iops_image b s ss v b' Hv Hi E).
Qed.
Lemma set_data_cases b s ss d : bytes_ok d -> builder_ok b -> image_bytes b ->
  (exists e, set_data b s ss d = Err e) \/
  (exists b', set_data b s ss d = Ok b' /\ builder_ok b' /\ image_bytes b' /\ config b' = config b).
Proof.
  intros Hd Hb Hi. destruct (object_for s ss (objects (config b))) as [o|] eqn:Ho.
  - right. pose proof (set_data_wp b s ss d o (fun _ => False) Hb Ho) as H.
    destruct (total_Ok _ _ H) as (b' & E & w & -> & Hb' & _). eexists. split; [exact E|].
    split; [done|]. by destruct (set_data_image b s ss d _ Hd Hi E).
  - left. unfold set_data. rewrite Ho. eauto.
Qed.

Lemma keeps_swap : keeps (with_builder swap).
Proof. apply keeps_builder. apply swap_total. Qed.
Lemma keeps_set_all_iocs v : byte_ok v -> keeps (with_builder (fun b => set_all_iocs b v)).
Proof. intros. apply keeps_builder. intros. by apply set_all_iocs_total. Qed.
Lemma keeps_set_iops s ss v : byte_ok v -> keeps (with_builder (fun b => set_iops b s ss v)).
Proof. intros. apply keeps_builder. intros. by apply set_iops_total. Qed.

Lemma ioxs_good_byte : byte_ok IOXS_GOOD.
Proof. unfold byte_ok, IOXS_GOOD. lia. Qed.
Lemma ioxs_bad_byte : byte_ok IOXS_BAD.
Proof. unfold byte_ok, IOXS_BAD. lia. Qed.

Lemma land_ffff v : u16_ok (Z.land v 0xFFFF).
Proof.
  unfold u16_ok. change 0xFFFF with (Z.ones 16). rewrite Z.land_ones by lia.
  apply Z.mod_pos_bound. lia.
Qed.

Lemma keeps_transition st : keeps (transition st).
Proof.
  intros s Hs. unfold transition. wpM_auto.
  destruct (state_eqb (state s) st) eqn:E; [by apply wpM_ret|].
  wpM_auto. apply wpM_whenM; intros Hf; wpM_auto; apply wpM_whenM; intros _; wpM_auto;
    (split; [destruct Hs; constructor; cbn in *; auto|by repeat split]).
  all: intros ->; by vm_compute in Hf.
Qed.

Lemma keeps_emit_error e : keeps (emit_error e).
Proof. apply keeps_bind; [apply keeps_gets|]. intros. apply keeps_whenM, keeps_emit. Qed.

Create HintDb keeps.
#[export] Hint Resolve keeps_ret keeps_gets keeps_emit keeps_emit_all keeps_swap keeps_transition
  keeps_emit_error keeps_set_all_iocs keeps_set_iops ioxs_good_byte ioxs_bad_byte : keeps.

Ltac keeps_auto :=
  repeat lazymatch goal with
  | |- keeps (bindM _ _) => apply keeps_bind; [|intros ?]
  | |- keeps (whenM _ _) => apply keeps_whenM
  | |- keeps (if ?b then _ else _) => destruct b
  | |- keeps (match ?x with _ => _ end) => destruct x
  | |- keeps _ => solve [eauto with keeps]
  end.

Lemma keeps_lift {A} (o : outcome A) : total o (fun _ => True) -> keeps (lift o).
Proof. intros H s Hs. apply wpM_lift. eapply wp_mono; [exact H| |done]. done. Qed.

(** A continuation that may use what [gets] read. *)
Lemma keeps_gets_bind {A B} (f : Shared -> A) (k : A -> M B) :
  (forall s, shared_ok s -> wpM (k (f s)) s (fun _ s' _ => shared_ok s' /\ same_config s s')) ->
  keeps (bindM (gets f) k).
Proof. intros H s Hs. apply wpM_bind, wpM_gets. by apply H. Qed.

Lemma keeps_next_output_frame st : keeps (next_output_frame st).
Proof.
  unfold next_output_frame. apply keeps_bind; [apply keeps_gets|intros c].
  apply keeps_bind; [apply keeps_gets|intros step_].
  apply keeps_bind; [|intros _; keeps_auto].
  apply keeps_modify. intros s Hs. split; [|by repeat split].
  destruct Hs. constructor; cbn; auto. apply land_ffff.
Qed.

Lemma wrap_add32_ok a b : u32_ok (wrap_add32 a b).
Proof. unfold u32_ok, wrap_add32. apply Z.mod_pos_bound. lia. Qed.

Lemma keeps_receive_stats valid now target : keeps (modify_stats (receive_stats valid now target)).
Proof.
  apply keeps_stats. intros s Hs. unfold receive_stats. destruct valid; [|done]. cbn.
  unfold u32_ok. lia.
Qed.

Lemma keeps_set_last c : keeps (modify (set_last_rx_cycle_counter c)).
Proof.
  apply keeps_modify. intros s Hs. split; [|by repeat split]. destruct Hs; constructor; cbn; auto.
Qed.

Lemma keeps_track c : keeps (track_cycle_counter c).
Proof.
  unfold track_cycle_counter. apply keeps_bind; [apply keeps_gets|intros [prev|]];
    [|apply keeps_set_last].
  apply keeps_bind; [apply keeps_gets|intros step_]. cbv zeta.
  destruct (_ =? prev); [by apply keeps_stats|].
  destruct (negb _); [|apply keeps_set_last].
  apply keeps_bind; [|intros _; apply keeps_set_last].
  destruct (_ <? _); by apply keeps_stats.
Qed.

Lemma process_object_total want p o acc :
  0 <= iops_offset o -> 0 <= frame_offset o -> 0 <= o_data_length o ->
  total (process_object want p o acc) (fun _ => True).
Proof.
  intros. unfold process_object, total.
  destruct ((len p <=? iops_offset o) || (len p <? frame_offset o + o_data_length o)) eqn:E; [done|].
  apply wp_bind, wp_idx_byte; [lia|]. intros v _. apply wp_bind, wp_slice; [lia|lia|]. done.
Qed.

Lemma keeps_store_inputs p : keeps (store_inputs p).
Proof.
  unfold store_inputs. apply keeps_bind; [apply keeps_gets|intros cbs].
  intros s Hs. wpM_auto. apply wpM_lift.
  eapply (total_mono _ (fun _ => True)); [|intros acc _].
  - apply wp_for_each with (I := fun _ => True); [done|]. intros o acc Hin _.
    destruct (config_ok_offsets _ _ (ok_input s Hs) Hin) as (? & ? & ?).
    by apply process_object_total.
  - wpM_auto. apply wpM_whenM; intros _; (apply wpM_whenM; intros _; wpM_auto);
      (split; [destruct Hs; constructor; cbn; auto|by repeat split]).
Qed.

#[export] Hint Resolve keeps_lift keeps_next_output_frame keeps_receive_stats keeps_set_last
  keeps_track keeps_store_inputs : keeps.

Lemma keeps_accept now f : keeps (accept_frame now f).
Proof.
  unfold accept_frame. keeps_auto. by apply keeps_stats.
Qed.

Lemma keeps_process now d : keeps (process_input_frame now d).
Proof.
  unfold process_input_frame. destruct (len d <? 18) eqn:Hl; [apply keeps_ret|].
  apply keeps_bind; [apply keeps_lift; apply wp_slice; [lia|lia|by intros]|intros mac].
  apply keeps_bind; [apply keeps_gets|intros dst].
  destruct (negb (bool_decide (mac = dst))); [apply keeps_ret|].
  apply keeps_bind; [apply keeps_lift, parse_ethernet_total|intros [f|]]; [|apply keeps_ret].
  apply keeps_bind; [apply keeps_gets|intros fid].
  destruct (negb (frame_id f =? fid)); [apply keeps_ret|apply keeps_accept].
Qed.

Lemma keeps_timeout : keeps handle_watchdog_timeout.
Proof.
  unfold handle_watchdog_timeout. keeps_auto; try (by apply keeps_stats).
  apply keeps_stats. intros. apply wrap_add32_ok.
Qed.

Lemma keeps_check_watchdog w a b : keeps (check_receive_watchdog w a b).
Proof.
  unfold check_receive_watchdog. apply keeps_bind; [apply keeps_gets|intros last].
  apply keeps_whenM, keeps_bind; [apply keeps_timeout|intros _]. by apply keeps_stats.
Qed.

#[export] Hint Resolve keeps_accept keeps_process keeps_timeout keeps_check_watchdog : keeps.

Lemma keeps_rx_pass r t1 t2 t3 : keeps (rx_pass r t1 t2 t3).
Proof.
  unfold rx_pass. apply keeps_bind; [apply keeps_gets|intros cfg]. destruct r; keeps_auto.
Qed.

Lemma keeps_tx_pass now send l : keeps (tx_pass now send l).
Proof.
  unfold tx_pass. keeps_auto; apply keeps_stats; [done|]. intros s Hs.
  unfold tx_stats. cbn. by destruct (_ <? _).
Qed.

(** A [set_data] whose error is handled by the caller. *)
Lemma keeps_set_data {A} sl ss d (herr : string -> M A) (hok : M A) :
  bytes_ok d -> (forall e, keeps (herr e)) -> keeps hok ->
  keeps (let* b := gets output_builder in
         match set_data b sl ss d with
         | Err e => herr e
         | o => let* b := lift o in do* modify (set_output_builder b); hok
         end).
Proof.
  intros Hd He Hk. apply keeps_gets_bind. intros s Hs.
  destruct (set_data_cases (output_builder s) sl ss d Hd (ok_builder s Hs) (ok_image s Hs))
    as [[e ->]|(b' & -> & H1 & H2 & H3)]; [by apply He|].
  apply wpM_bind, wpM_lift. cbn. apply wpM_bind, wpM_modify.
  assert (Hs' : shared_ok (set_output_builder b' s)).
  { destruct Hs; constructor; cbn; auto. congruence. }
  eapply wpM_mono; [by apply Hk|]. intros a s2 e2 [? ?]. split; [done|].
  transitivity (set_output_builder b' s); [by repeat split|done].
Qed.

Lemma keeps_set_output_data sl ss d : bytes_ok d -> keeps (set_output_data sl ss d).
Proof.
  intros Hd. unfold set_output_data. apply keeps_bind; [apply keeps_gets|intros st].
  destruct (output_writes_locked st); [apply keeps_ret|].
  apply keeps_set_data; [done|intros; apply keeps_ret|]. keeps_auto.
Qed.

Lemma keeps_apply_safe_output : keeps apply_safe_output.
Proof.
  unfold apply_safe_output. apply keeps_gets_bind. intros s Hs.
  destruct (safe_output s) as [[[sl ss] d]|] eqn:E; [|by apply wpM_ret].
  revert s Hs E. intros s Hs E. pose proof (ok_safe s Hs _ _ _ E) as Hd.
  apply (keeps_set_data sl ss d (fun e => emit_error ("safe output not applied: " +:+ e))); auto.
  - intros. apply keeps_emit_error.
  - keeps_auto.
Qed.

Lemma keeps_stop_frames sends : keeps (stop_frames_loop sends).
Proof.
  induction sends as [|ok sends IH]; cbn [stop_frames_loop]; keeps_auto; by apply keeps_stats.
Qed.

Lemma keeps_set_running v : keeps (modify (set_running v)).
Proof.
  apply keeps_modify. intros s Hs. split; [|by repeat split]. destruct Hs; constructor; cbn; auto.
Qed.
Lemma keeps_stop_running t j sends : keeps (stop_running t j sends).
Proof.
  unfold stop_running. keeps_auto; [apply keeps_set_running|apply keeps_stop_frames].
Qed.

(** ** Exact effects *)

(** What the supervision of the link depends on. *)
Definition link (s : Shared) : CyclicState * bool * bool * Z * Z :=
  (state s, ever_faulted s, running s, last_receive_time (stats s), consecutive_timeouts (stats s)).

(** What the application reads and the device is sent. *)
Definition images (s : Shared) : CyclicDataBuilder * gmap (Z * Z) InputEntry :=
  (output_builder s, input_data s).

Definition trans_state (st : CyclicState) (s : Shared) : Shared :=
  if state_eqb (state s) st then s
  else if state_eqb st Fault then set_ever_faulted true (set_state st s) else set_state st s.

Definition is_input_event (e : Event) : bool :=
  match e with InputData _ _ _ | InputStatus _ _ _ => true | _ => false end.
Definition no_input (ev : list Event) : Prop := Forall (fun e => is_input_event e = false) ev.

Lemma state_eqb_eq a b : state_eqb a b = true <-> a = b.
Proof. apply bool_decide_eq_true. Qed.

Lemma trans_state_fields st s :
  state (trans_state st s) = st /\ stats (trans_state st s) = stats s /\
  running (trans_state st s) = running s /\ callbacks (trans_state st s) = callbacks s /\
  input_data (trans_state st s) = input_data s /\
  ever_faulted (trans_state st s) =
    (if negb (state_eqb (state s) st) && state_eqb st Fault then true else ever_faulted s) /\
  safe_output (trans_state st s) = safe_output s /\
  output_builder (trans_state st s) = output_builder s.
Proof.
  unfold trans_state. destruct (state_eqb (state s) st) eqn:E; [apply state_eqb_eq in E; by subst|].
  destruct (state_eqb st Fault); done.
Qed.

Lemma trans_state_ok st s : shared_ok s -> shared_ok (trans_state st s) /\ same_config s (trans_state st s).
Proof.
  intros Hs. unfold trans_state. destruct (state_eqb (state s) st); [done|].
  destruct (state_eqb st Fault) eqn:E; (split; [|by repeat split]);
    destruct Hs; constructor; cbn; auto.
  intros ->. done.
Qed.

Lemma wpM_transition st s P :
  (forall ev, no_input ev -> (forall f, Sent f ∉ ev) -> P tt (trans_state st s) ev) ->
  wpM (transition st) s P.
Proof.
  intros HP. unfold transition, trans_state in *. wpM_auto.
  destruct (state_eqb (state s) st) eqn:E.
  { apply wpM_ret. apply HP; [constructor|set_solver]. }
  wpM_auto. unfold whenM. destruct (state_eqb st Fault); wpM_auto; cbn;
    (match goal with |- context [on_state_change ?c] => destruct (on_state_change c) end);
    wpM_auto; apply HP; first [by repeat constructor | set_solver].
Qed.

Lemma wpM_emit_error e s P :
  (forall ev, no_input ev -> (forall f, Sent f ∉ ev) -> P tt s ev) -> wpM (emit_error e) s P.
Proof.
  intros HP. unfold emit_error. wpM_auto. unfold whenM.
  destruct (on_error (callbacks s)); wpM_auto; apply HP; first [by repeat constructor | set_solver].
Qed.

Lemma no_input_app a b : no_input a -> no_input b -> no_input (a ++ b).
Proof. intros. by apply Forall_app. Qed.

Lemma track_effect c s :
  wpM (track_cycle_counter c) s
    (fun _ s' ev => link s' = link s /\ images s' = images s /\ ev = [] /\
       same_config s s' /\ safe_output s' = safe_output s /\ callbacks s' = callbacks s).
Proof.
  unfold track_cycle_counter. wpM_auto.
  destruct (last_rx_cycle_counter s) as [prev|]; wpM_auto; [|by repeat split].
  cbv zeta. destruct (c =? prev); [wpM_auto; by repeat split|].
  destruct (negb _); [|wpM_auto; by repeat split].
  wpM_auto. destruct (0x8000 <? _); wpM_auto; by repeat split.
Qed.

Lemma receive_stats_invalid now t s :
  last_receive_time (receive_stats false now t s) = last_receive_time s /\
  consecutive_timeouts (receive_stats false now t s) = consecutive_timeouts s.
Proof. done. Qed.

(** What counts as life, from the bits of the DataStatus byte: DataValid (2) and
    ProviderRun (4) set, Ignore (7) clear, and no transfer problem. *)
Definition alive_bits (f : RtFrame) : bool :=
  Z.testbit (Rt.data_status f) 2 && Z.testbit (Rt.data_status f) 4
  && negb (Z.testbit (Rt.data_status f) 7) && (transfer_status f =? 0).

Lemma land_pow2 a n : 0 <= n -> (Z.land a (2 ^ n) =? 0) = negb (Z.testbit a n).
Proof.
  intros Hn. destruct (Z.testbit a n) eqn:E; cbn.
  - apply Z.eqb_neq. intros H. assert (Ht : Z.testbit (Z.land a (2 ^ n)) n = true).
    { by rewrite Z.land_spec, E, Z.pow2_bits_true. }
    by rewrite H, Z.bits_0 in Ht.
  - apply Z.eqb_eq, Z.bits_inj'. intros m Hm. rewrite Z.land_spec, Z.bits_0.
    destruct (decide (m = n)) as [->|Hne]; [by rewrite E|].
    rewrite Z.pow2_bits_false by done. apply andb_false_r.
Qed.

Lemma frame_is_alive_bits f : frame_is_alive f = alive_bits f.
Proof.
  unfold frame_is_alive, alive_bits, is_valid, Rt.is_running, is_ignored, has_flag.
  change DATA_STATUS_VALID with (2 ^ 2). change DATA_STATUS_PROVIDER_RUN with (2 ^ 4).
  change DATA_STATUS_IGNORE with (2 ^ 7). rewrite !land_pow2 by lia. by rewrite !negb_involutive.
Qed.

(** A frame of the device for our input IOCR that counts as life. *)
Definition live_frame (s : Shared) (d : list Z) : option RtFrame :=
  match slice d 6 12, parse_ethernet_frame d with
  | Ok mac, Ok (Some f) =>
      if (18 <=? len d) && bool_decide (mac = dst_mac s)
         && (frame_id f =? c_frame_id (input_iocr s)) && alive_bits f
      then Some f else None
  | _, _ => None
  end.

Lemma accept_dead now f s :
  frame_is_alive f = false ->
  wpM (accept_frame now f) s
    (fun _ s' ev => link s' = link s /\ images s' = images s /\ ev = [] /\ same_config s s').
Proof.
  intros Ha. unfold accept_frame. rewrite Ha. wpM_auto. cbn [andb whenM].
  wpM_auto. eapply wpM_mono; [apply track_effect|].
  intros _ s' ev (Hl & Hi & -> & Hc & _). cbn [negb]. wpM_auto.
  split_and!; [|unfold images in *; cbn in *; congruence|done|].
  - unfold link in *. cbn in *. congruence.
  - destruct Hc as (?&?&?&?&?&?&?). by repeat split.
Qed.

Lemma process_dead now d s :
  live_frame s d = None ->
  wpM (process_input_frame now d) s
    (fun _ s' ev => link s' = link s /\ images s' = images s /\ ev = [] /\ same_config s s').
Proof.
  intros Hlive. unfold process_input_frame, live_frame in *.
  destruct (len d <? 18) eqn:Hl; [by apply wpM_ret|].
  rewrite slice_ok in * by lia. replace (18 <=? len d) with true in Hlive by lia.
  wpM_auto. apply wpM_lift. cbn. wpM_auto.
  destruct (bool_decide (_ = dst_mac s)) eqn:Hmac; cbn [negb]; [|by apply wpM_ret].
  wpM_auto. apply wpM_lift.
  destruct (total_Ok _ _ (parse_ethernet_total d)) as (pf & Hpf & _). rewrite Hpf in *. cbn.
  destruct pf as [f|]; [|by apply wpM_ret]. wpM_auto.
  destruct (frame_id f =? _); cbn [negb]; [|by apply wpM_ret].
  rewrite <- frame_is_alive_bits in Hlive. destruct (frame_is_alive f) eqn:Ha; [done|].
  by apply accept_dead.
Qed.

(** What an accepted frame leaves behind. *)
Definition revived (now : Z) (s s' : Shared) : Prop :=
  state s' = (if state_eqb (state s) Fault then Running else state s) /\
  ever_faulted s' = ever_faulted s /\ running s' = running s /\
  last_receive_time (stats s') = now /\ consecutive_timeouts (stats s') = 0.

Lemma store_inputs_effect p s :
  shared_ok s ->
  wpM (store_inputs p) s (fun _ s' ev => link s' = link s /\ (forall f, Sent f ∉ ev) /\
    exists acc, for_each (objects (input_iocr s)) (process_object (on_input_data (callbacks s)) p)
                  {| acc_data := input_data s; acc_status := []; acc_updates := [] |} = Ok acc /\
                input_data s' = acc_data acc).
Proof.
  intros Hs. unfold store_inputs. wpM_auto. apply wpM_lift.
  eapply (total_inv _ (fun acc => (forall f, Sent f ∉ acc_status acc) /\ (forall f, Sent f ∉ acc_updates acc)));
    [|intros acc Eacc (Hst & Hup)].
  - apply wp_for_each; [cbn; set_solver|]. intros o acc Hin (H1 & H2).
    destruct (config_ok_offsets _ _ (ok_input s Hs) Hin) as (? & ? & ?).
    eapply total_inv; [by apply process_object_total|]. intros a E _. revert E.
    unfold process_object. destruct (_ || _); [by intros [= <-]|].
    intros (v & _ & E)%bind_Ok_inv. apply bind_Ok_inv in E as (d & _ & [= <-]). cbn.
    split; intros f; [destruct (eqb _ _)|destruct (_ && _)]; set_solver.
  - wpM_auto. apply wpM_whenM; intros _; [do 2 red; cbn|];
      (apply wpM_whenM; intros _; [do 2 red; cbn|]);
      (split; [done|]); (split; [set_solver|]); eauto.
Qed.

Lemma accept_live now f s :
  shared_ok s -> frame_is_alive f = true ->
  wpM (accept_frame now f) s
    (fun _ s' ev => revived now s s' /\ (forall g, Sent g ∉ ev) /\
       exists acc, for_each (objects (input_iocr s)) (process_object (on_input_data (callbacks s)) (payload f))
                  {| acc_data := input_data s; acc_status := []; acc_updates := [] |} = Ok acc /\
                input_data s' = acc_data acc).
Proof.
  intros Hs Ha. unfold accept_frame. rewrite Ha. wpM_auto. cbn [andb negb].
  set (s1 := set_stats _ s).
  assert (Hr1 : last_receive_time (stats s1) = now /\ consecutive_timeouts (stats s1) = 0) by done.
  assert (Hs1 : shared_ok s1).
  { pose proof (keeps_receive_stats true now (cycle_time_us (input_iocr s)) s Hs) as H.
    apply wpM_run in H as (a & s' & ev & E & H & _). unfold modify_stats, modify in E.
    injection E as <- <- <-. exact H. }
  assert (Hrec : wpM (whenM (state_eqb (state s1) Fault) (transition Running)) s1
     (fun _ s2 ev => revived now s s2 /\ (forall g, Sent g ∉ ev) /\ shared_ok s2 /\ same_config s s2 /\
                     callbacks s2 = callbacks s /\ input_data s2 = input_data s)).
  { change (state s1) with (state s). apply wpM_whenM; intros E.
    - apply wpM_transition. intros ev _ Hev.
      destruct (trans_state_ok Running s1 Hs1) as [Hs2 Hc2].
      destruct (trans_state_fields Running s1) as (F1 & F2 & F3 & F4 & F5 & F6 & _).
      unfold revived. rewrite E, F1, F2, F3, F4, F5, F6. split_and!; try done.
      by rewrite andb_false_r.
    - unfold revived. rewrite E. split_and!; try done. set_solver. }
  eapply wpM_mono; [exact Hrec|]. intros _ s2 e2 (Hrev & He2 & Hs2 & Hc2 & Hcb & Hin).
  wpM_auto. pose proof (keeps_track (cycle_counter f) s2 Hs2) as Hk.
  apply wpM_run in Hk as (a3 & s3 & e3 & Et & Hs3 & Hc3).
  pose proof (track_effect (cycle_counter f) s2) as Ht. unfold wpM in *. rewrite Et in *. cbn in Ht |- *.
  destruct Ht as (Hl3 & Hi3 & -> & _ & _ & Hcb3).
  change (wpM (bindM (with_builder (fun b => set_all_iocs b IOXS_GOOD)) (fun _ => store_inputs (payload f))) s3
    (fun _ s' ev => revived now s s' /\ (forall g, Sent g ∉ [] ++ e2 ++ [] ++ ev) /\
       exists acc, for_each (objects (input_iocr s)) (process_object (on_input_data (callbacks s)) (payload f))
         {| acc_data := input_data s; acc_status := []; acc_updates := [] |} = Ok acc /\ input_data s' = acc_data acc)).
  apply wpM_bind, wpM_with_builder.
  eapply total_mono; [apply set_all_iocs_total; [apply ioxs_good_byte|apply Hs3|apply Hs3]|].
  intros b (Hb1 & Hb2 & Hb3).
  assert (Hs4 : shared_ok (set_output_builder b s3)) by (destruct Hs3; constructor; cbn; auto; congruence).
  eapply wpM_mono; [by apply store_inputs_effect|].
  intros _ s5 e5 (Hl5 & He5 & acc & Eacc & Hd5). cbn in Eacc.
  destruct Hc2 as (_&_&Hii2&_). destruct Hc3 as (_&_&Hii3&_).
  unfold images in Hi3. injection Hi3 as _ Hid3.
  rewrite Hii3, Hii2, Hid3, Hin, Hcb3, Hcb in Eacc.
  split_and!; [|set_solver|eauto].
  unfold link in *. cbn in Hl5. unfold revived in *. destruct Hrev as (?&?&?&?&?).
  injection Hl5 as ?????. injection Hl3 as ?????. split_and!; congruence.
Qed.

Lemma process_live now d f s :
  shared_ok s -> live_frame s d = Some f ->
  wpM (process_input_frame now d) s
    (fun _ s' ev => revived now s s' /\ (forall g, Sent g ∉ ev) /\
       exists acc, for_each (objects (input_iocr s)) (process_object (on_input_data (callbacks s)) (payload f))
                  {| acc_data := input_data s; acc_status := []; acc_updates := [] |} = Ok acc /\
                input_data s' = acc_data acc).
Proof.
  intros Hs Hlive. unfold process_input_frame. unfold live_frame in Hlive.
  destruct (slice d 6 12) as [mac|e| |] eqn:Emac; try done.
  destruct (parse_ethernet_frame d) as [[g|]|e| |] eqn:Epf; try done.
  destruct ((18 <=? len d) && bool_decide (mac = dst_mac s)
    && (frame_id g =? c_frame_id (input_iocr s)) && alive_bits g) eqn:Eb; [|done].
  injection Hlive as ->. rewrite <- frame_is_alive_bits in Eb. apply andb_prop in Eb as [Eb Ha]. apply andb_prop in Eb as [Eb Hid].
  apply andb_prop in Eb as [Hlen Hmac].
  replace (len d <? 18) with false by lia.
  wpM_auto. apply wpM_lift. cbn. wpM_auto. rewrite Hmac. cbn [negb].
  wpM_auto. apply wpM_lift. cbn. wpM_auto. rewrite Hid. cbn [negb].
  by apply accept_live.
Qed.

(** A watchdog timeout, in the terms of [link]. *)
Lemma timeout_effect s :
  shared_ok s ->
  wpM handle_watchdog_timeout s
    (fun _ s' ev =>
       let c := wrap_add32 (consecutive_timeouts (stats s)) 1 in
       let max := max_consecutive_timeouts s in
       let dies := (0 <? max) && (max <=? c) && state_eqb (state s) Running in
       shared_ok s' /\ same_config s s' /\ input_data s' = input_data s /\
       state s' = (if dies then Fault else state s) /\
       ever_faulted s' = (if dies then true else ever_faulted s) /\
       running s' = running s /\ consecutive_timeouts (stats s') = c /\
       last_receive_time (stats s') = last_receive_time (stats s) /\ no_input ev).
Proof.
  intros Hs.
  pose proof (keeps_timeout s Hs) as Hk. apply wpM_run in Hk as (u & sf & evf & Ef & Hsf & Hcf).
  assert (W : wpM handle_watchdog_timeout s (fun _ s' ev =>
       let c := wrap_add32 (consecutive_timeouts (stats s)) 1 in
       let max := max_consecutive_timeouts s in
       let dies := (0 <? max) && (max <=? c) && state_eqb (state s) Running in
       input_data s' = input_data s /\
       state s' = (if dies then Fault else state s) /\
       ever_faulted s' = (if dies then true else ever_faulted s) /\
       running s' = running s /\ consecutive_timeouts (stats s') = c /\
       last_receive_time (stats s') = last_receive_time (stats s) /\ no_input ev)).
  { unfold handle_watchdog_timeout. wpM_auto. cbn.
    assert (Hb : wpM (whenM (0 <? max_consecutive_timeouts s)
                       (with_builder (fun b => set_all_iocs b IOXS_BAD)))
       (set_stats (set_interval_disturbed true (set_consecutive_timeouts
          (wrap_add32 (consecutive_timeouts (stats s)) 1)
          (set_frames_missed (frames_missed (stats s) + 1) (stats s)))) s)
       (fun _ s1 ev => ev = [] /\ exists b, s1 = set_output_builder b (set_stats (set_interval_disturbed true (set_consecutive_timeouts
          (wrap_add32 (consecutive_timeouts (stats s)) 1)
          (set_frames_missed (frames_missed (stats s) + 1) (stats s)))) s))).
    { apply wpM_whenM; intros _.
      - apply wpM_with_builder. eapply total_mono; [apply set_all_iocs_total|].
        + apply ioxs_bad_byte.
        + apply Hs.
        + apply Hs.
        + intros b _. split; [done|]. by exists b.
      - split; [done|]. exists (output_builder s). by destruct s. }
    eapply wpM_mono; [exact Hb|]. intros _ s1 e1 (-> & b & ->). wpM_auto. cbn.
    assert (Hcb : forall P : unit -> Shared -> list Event -> Prop, forall s2,
      (forall ev, no_input ev -> P tt s2 ev) -> wpM (whenM (on_timeout (callbacks s)) (emit Timeout)) s2 P).
    { intros P s2 HP. apply wpM_whenM; intros _; [apply wpM_emit|]; apply HP; by repeat constructor. }
    apply Hcb. intros ev Hev. wpM_auto. cbn. apply wpM_whenM; intros Hd; rewrite Hd.
    - apply andb_prop in Hd as [_ Hst]. apply wpM_bind, wpM_transition. intros e2 He2 _.
      apply wpM_emit_error. intros e3 He3 _. cbn.
      match goal with |- context [trans_state Fault ?x] =>
        destruct (trans_state_fields Fault x) as (F1 & F2 & F3 & F4 & F5 & F6 & _) end.
      rewrite F1, F2, F3, F5, F6. cbn.
      apply state_eqb_eq in Hst. rewrite Hst. cbn. split_and!; try done.
      rewrite ?app_nil_r. repeat apply no_input_app; done.
    - cbn. split_and!; try done. rewrite app_nil_r. done. }
  unfold wpM in *. rewrite Ef in *. cbn in *. destruct W as (?&?&?&?&?&?&?). split_and!; done.
Qed.

(** ** Theorems: supervision of the link *)

(** What the receive loop reacts to. *)
Inductive link_event := WatchdogExpired | FrameReceived (now : Z) (d : list Z).

Definition on_link (e : link_event) : M unit :=
  match e with
  | WatchdogExpired => handle_watchdog_timeout
  | FrameReceived now d => process_input_frame now d
  end.

Fixpoint on_links (es : list link_event) : M unit :=
  match es with
  | [] => ret tt
  | e :: es => do* on_link e; on_links es
  end.

Fixpoint timeouts (es : list link_event) : Z :=
  match es with
  | [] => 0
  | WatchdogExpired :: es => timeouts es + 1
  | FrameReceived _ _ :: es => timeouts es
  end.

(** The frames among the events that are not life. *)
Definition all_dead (s : Shared) (es : list link_event) : Prop :=
  forall now d, FrameReceived now d ∈ es -> live_frame s d = None.

Lemma timeouts_nonneg es : 0 <= timeouts es.
Proof. induction es as [|[|]]; cbn; lia. Qed.

Lemma live_frame_config s s' d : same_config s s' -> live_frame s' d = live_frame s d.
Proof. intros (_ & H2 & H3 & _). unfold live_frame. by rewrite H2, H3. Qed.

(** The state after a silence: it counts, and it dies once and for all. *)
Definition silent_state (s : Shared) (n : Z) : CyclicState :=
  let max := max_consecutive_timeouts s in
  if (0 <? max) && (max <=? consecutive_timeouts (stats s) + n) && (0 <? n)
     && state_eqb (state s) Running then Fault else state s.

(** The first timeout of a silence, then the rest. *)
Lemma silent_step s s1 n :
  let max := max_consecutive_timeouts s in
  let c := consecutive_timeouts (stats s) in
  let dies := (0 <? max) && (max <=? c + 1) && state_eqb (state s) Running in
  max_consecutive_timeouts s1 = max -> consecutive_timeouts (stats s1) = c + 1 -> 0 <= n ->
  state s1 = (if dies then Fault else state s) ->
  ever_faulted s1 = (if dies then true else ever_faulted s) ->
  silent_state s1 n = silent_state s (n + 1) /\
  (if state_eqb (silent_state s (n + 1)) (state s1) then ever_faulted s1 else true) =
  (if state_eqb (silent_state s (n + 1)) (state s) then ever_faulted s else true).
Proof.
  intros max c dies Hm Hc Hn Hst Hev. unfold silent_state. rewrite Hm, Hc, Hst, Hev.
  fold max. fold c. replace (c + 1 + n) with (c + (n + 1)) by lia.
  unfold dies. destruct (state s) eqn:E; cbn [state_eqb]; unfold state_eqb; cbn;
    rewrite ?andb_false_r; cbn; try done.
  destruct (0 <? max) eqn:H0; cbn; [|done].
  destruct (max <=? c + 1) eqn:H1; cbn.
  - replace (max <=? c + (n + 1)) with true by lia. replace (0 <? n + 1) with true by lia.
    rewrite !andb_false_r. done.
  - rewrite !andb_true_r. destruct (0 <? n) eqn:H2.
    + replace (0 <? n + 1) with true by lia. by rewrite !andb_true_r.
    + assert (n = 0) as -> by lia. rewrite andb_false_r. change (0 + 1) with 1. rewrite H1. done.
Qed.

Lemma silence es : forall s,
  shared_ok s -> all_dead s es -> consecutive_timeouts (stats s) + timeouts es < 4294967296 ->
  wpM (on_links es) s (fun _ s' _ =>
    shared_ok s' /\ same_config s s' /\ state s' = silent_state s (timeouts es) /\
    consecutive_timeouts (stats s') = consecutive_timeouts (stats s) + timeouts es /\
    ever_faulted s' = (if state_eqb (state s') (state s) then ever_faulted s else true) /\
    input_data s' = input_data s).
Proof.
  induction es as [|e es IH]; intros s Hs Hd Hc.
  { apply wpM_ret. cbn. unfold silent_state. rewrite andb_false_r. simpl.
    unfold state_eqb. rewrite bool_decide_true by done. split_and!; try done. lia. }
  cbn [on_links]. apply wpM_bind. pose proof (timeouts_nonneg es) as Hnn.
  pose proof (ok_consecutive s Hs) as Hu. unfold u32_ok in Hu.
  destruct e as [|now d]; cbn [on_link timeouts] in *.
  - eapply wpM_mono; [by apply timeout_effect|]. cbv zeta.
    intros _ s1 e1 (Hs1 & Hc1 & Hi1 & Hst1 & He1 & Hr1 & Hn1 & _ & _).
    assert (Hw : wrap_add32 (consecutive_timeouts (stats s)) 1 = consecutive_timeouts (stats s) + 1)
      by (apply Z.mod_small; lia).
    rewrite Hw in *.
    eapply wpM_mono; [apply IH; [done| |lia]|].
    + intros now' d' Hin. rewrite (live_frame_config s s1) by done. eapply Hd. by right.
    + intros _ s2 e2 (Hs2 & Hc2 & Hst2 & Hn2 & He2 & Hi2).
      assert (Hm : max_consecutive_timeouts s1 = max_consecutive_timeouts s)
        by (by destruct Hc1 as (?&?&?&?&?&?&?)).
      destruct (silent_step s s1 (timeouts es) Hm Hn1 Hnn Hst1 He1) as [Hss Hev].
      rewrite Hst2, Hss in *. split_and!; [done|by transitivity s1|done|lia| |congruence].
      rewrite He2. exact Hev.
  - pose proof (process_dead now d s (Hd now d ltac:(by left))) as Hdead.
    eapply wpM_mono; [apply (wpM_and _ _ _ _ (keeps_process now d s Hs) Hdead)|].
    intros _ s1 e1 ((Hs1 & _) & Hl & Hi & _ & Hc1). injection Hl as H1 H2 H3 H4 H5.
    injection Hi as _ Hi.
    eapply wpM_mono; [apply IH; [done| |lia]|].
    + intros now' d' Hin. rewrite (live_frame_config s s1) by done. eapply Hd. by right.
    + intros _ s2 e2 (Hs2 & Hc2 & Hst2 & Hn2 & He2 & Hi2).
      assert (Hss : silent_state s1 (timeouts es) = silent_state s (timeouts es)).
      { unfold silent_state. destruct Hc1 as (_&_&_&_&Hm&_). by rewrite Hm, H5, H1. }
      rewrite Hss in Hst2. rewrite Hst2, H1, H2 in He2.
      split_and!; [done|by transitivity s1|done|lia|by rewrite Hst2|congruence].
Qed.

(** C4: Supervision of the link.  Take any sequence of expired watchdog
    periods and received byte strings none of which is a live frame of the
    device (foreign stations, other frame ids, provider stopped, data invalid,
    ignore flag, transfer problem).  However the frames interleave, RUNNING
    becomes FAULT exactly when the limit is enabled and that many periods have
    expired; the input image keeps its last content; FAULT is recorded in
    [ever_faulted]; and only a live frame ends it: then the state is RUNNING,
    the streak is zero and the record of the fault remains. *)
Theorem watchdog_escalation s es :
  shared_ok s -> state s = Running -> consecutive_timeouts (stats s) = 0 ->
  0 <= max_consecutive_timeouts s -> all_dead s es -> timeouts es < 4294967296 ->
  wpM (on_links es) s (fun _ s' _ =>
    input_data s' = input_data s /\
    (state s' = Running \/ state s' = Fault) /\
    (state s' = Fault <-> 0 < max_consecutive_timeouts s <= timeouts es) /\
    (state s' = Fault -> ever_faulted s' = true) /\
    forall now d f, live_frame s d = Some f ->
      wpM (process_input_frame now d) s' (fun _ s'' _ =>
        state s'' = Running /\ consecutive_timeouts (stats s'') = 0 /\
        ever_faulted s'' = ever_faulted s')).
Proof.
  intros Hs Hr Hc Hm Hd Ht. eapply wpM_mono; [apply silence; [done|done|lia]|].
  intros _ s1 ev (Hs1 & Hc1 & Hst & Hn & He & Hi).
  unfold silent_state in Hst. rewrite Hc, Hr in Hst.
  change (state_eqb Running Running) with true in Hst.
  split_and!.
  - done.
  - destruct (_ && _) in Hst; auto.
  - rewrite Hst. destruct ((0 <? max_consecutive_timeouts s) && _ && _ && _) eqn:E.
    + split; [intros _; lia|done].
    + split; [done|]. intros Hx. pose proof (timeouts_nonneg es). lia.
  - apply (ok_fault s1 Hs1).
  - intros now d f Hf. rewrite <- (live_frame_config s s1) in Hf by done.
    eapply wpM_mono; [by apply process_live|]. intros _ s2 e2 ((H1 & H2 & H3 & H4 & H5) & _).
    rewrite H1, H2, H5. split_and!; [|done|done].
    rewrite Hst. destruct (_ && _); done.
Qed.

(** ** Theorems: input data *)

Definition obj_key (o : IoDataObject) : Z * Z := (o_slot o, o_subslot o).

(** The entry a payload holds for an object, when it is long enough. *)
Definition object_entry (p : list Z) (o : IoDataObject) : option InputEntry :=
  match get p (iops_offset o), get_range p (frame_offset o) (frame_offset o + o_data_length o) with
  | Some v, Some d => Some {| data := d; iops := v |}
  | _, _ => None
  end.

Lemma process_object_entry want p o acc acc' :
  0 <= iops_offset o -> 0 <= frame_offset o -> 0 <= o_data_length o ->
  process_object want p o acc = Ok acc' ->
  acc_data acc' = match object_entry p o with
                  | Some e => <[obj_key o := e]> (acc_data acc)
                  | None => acc_data acc
                  end.
Proof.
  intros H1 H2 H3. unfold process_object, object_entry, get, get_range, idx, slice.
  destruct ((len p <=? iops_offset o) || (len p <? frame_offset o + o_data_length o)) eqn:E.
  - intros [= <-].
    destruct (len p <=? iops_offset o) eqn:E1.
    + replace ((0 <=? iops_offset o) && (iops_offset o <? len p)) with false by lia. done.
    + replace ((0 <=? frame_offset o) && (frame_offset o <=? frame_offset o + o_data_length o) &&
               (frame_offset o + o_data_length o <=? len p)) with false by lia.
      by destruct (_ && _); [destruct (p !! _)|].
  - replace ((0 <=? iops_offset o) && (iops_offset o <? len p)) with true by lia.
    replace ((0 <=? frame_offset o) && (frame_offset o <=? frame_offset o + o_data_length o) &&
               (frame_offset o + o_data_length o <=? len p)) with true by lia.
    destruct (p !! Z.to_nat (iops_offset o)) as [v|]; [|done]. cbn. by intros [= <-].
Qed.

Lemma process_objects_entries want p os : forall acc acc',
  (forall o, o ∈ os -> 0 <= iops_offset o /\ 0 <= frame_offset o /\ 0 <= o_data_length o) ->
  for_each os (process_object want p) acc = Ok acc' -> NoDup (obj_key <$> os) ->
  (forall o, o ∈ os -> acc_data acc' !! obj_key o =
     match object_entry p o with Some e => Some e | None => acc_data acc !! obj_key o end) /\
  (forall k, k ∉ obj_key <$> os -> acc_data acc' !! k = acc_data acc !! k).
Proof.
  induction os as [|o os IH]; intros acc acc' Hos; cbn [for_each].
  { intros [= <-] _. split; [set_solver|done]. }
  intros (acc1 & E1 & E2)%bind_Ok_inv Hnd. cbn in Hnd. apply NoDup_cons in Hnd as [Hni Hnd].
  destruct (Hos o ltac:(by left)) as (B1 & B2 & B3).
  apply process_object_entry in E1; [|done..].
  destruct (IH acc1 acc' ltac:(intros; apply Hos; by right) E2 Hnd) as [I1 I2]. split.
  - intros o' [->|Hin]%elem_of_cons.
    + rewrite I2 by done. rewrite E1. destruct (object_entry p o); [by rewrite lookup_insert_eq|done].
    + rewrite I1 by done. destruct (object_entry p o'); [done|]. rewrite E1.
      destruct (object_entry p o); [|done]. rewrite lookup_insert_ne; [done|].
      intros Heq. apply Hni. rewrite Heq. by apply list_elem_of_fmap_2.
  - intros k Hk. cbn in Hk. rewrite I2 by set_solver. rewrite E1.
    destruct (object_entry p o); [|done]. rewrite lookup_insert_ne; [done|set_solver].
Qed.

(** C28: Every received byte string is handled without a panic, and either
    changes nothing the application or the supervision can see, or it is a
    live frame; then the link is alive as of now, FAULT is left for RUNNING
    (no other state changes), and each submodule's entry is the payload's data
    and provider status, so that [get_input_data] returns the data exactly
    when the device reports it GOOD. *)
Theorem input_frame_effect s now d :
  shared_ok s -> NoDup (obj_key <$> objects (input_iocr s)) ->
  wpM (process_input_frame now d) s (fun _ s' ev =>
    match live_frame s d with
    | None => link s' = link s /\ images s' = images s /\ ev = []
    | Some f =>
        revived now s s' /\
        forall o, o ∈ objects (input_iocr s) ->
          match object_entry (payload f) o with
          | Some e =>
              get_input_status s' (o_slot o) (o_subslot o) = Some (iops e) /\
              get_input_data_allow_bad s' (o_slot o) (o_subslot o) = Some (data e) /\
              get_input_data s' (o_slot o) (o_subslot o) =
                (if iops_good (iops e) then Some (data e) else None)
          | None =>
              get_input_data s' (o_slot o) (o_subslot o) = get_input_data s (o_slot o) (o_subslot o)
          end
    end).
Proof.
  intros Hs Hnd. destruct (live_frame s d) as [f|] eqn:Hf.
  - eapply wpM_mono; [by eapply process_live|].
    intros _ s' ev (Hrev & _ & acc & Hacc & Hd). split; [done|]. intros o Ho.
    eapply process_objects_entries in Hacc as [Hin _]; [|intros o' Ho'; by apply (config_ok_offsets _ _ (ok_input s Hs))|done].
    specialize (Hin o Ho). cbn in Hin. unfold obj_key in Hin.
    destruct (object_entry (payload f) o) as [e|] eqn:He;
      unfold get_input_status, get_input_data_allow_bad, get_input_data; rewrite Hd, Hin; done.
  - eapply wpM_mono; [by apply process_dead|]. by intros _ s' ev (?&?&?&_).
Qed.

(** ** Theorems: stopping *)

(** The image shows the data of a submodule and reports it GOOD. *)
Definition shows (image : list Z) (o : IoDataObject) (d : list Z) : Prop :=
  let n := Z.min (len d) (o_data_length o) in
  slice image (frame_offset o) (frame_offset o + n) = Ok (take (Z.to_nat n) d) /\
  idx image (iops_offset o) = Ok IOXS_GOOD.

(** A frame on the wire: provider stopped, data valid, the image as payload. *)
Definition is_stop_frame (s : Shared) (image : list Z) (f : list Z) : Prop :=
  exists fr, parse_ethernet_frame f = Ok (Some fr) /\ frame_id fr = c_frame_id (output_iocr s) /\
    Rt.is_running fr = false /\ is_valid fr = true /\ payload fr = image.

Lemma next_frame_effect st s :
  shared_ok s -> byte_ok (default RUN_STATUS st) ->
  wpM (next_output_frame st) s (fun f s' ev =>
    ev = [] /\ shared_ok s' /\ same_config s s' /\ state s' = state s /\ running s' = running s /\
    input_data s' = input_data s /\ safe_output s' = safe_output s /\
    write_buffer (output_builder s') = write_buffer (output_builder s) /\
    exists fr, parse_ethernet_frame f = Ok (Some fr) /\ frame_id fr = c_frame_id (output_iocr s) /\
      Rt.data_status fr = default RUN_STATUS st /\ payload fr = write_buffer (output_builder s) /\
      cycle_counter fr = cycle_counter_ s').
Proof.
  intros Hs Hst. unfold next_output_frame. wpM_auto.
  set (c := Z.land _ 0xFFFF). apply wpM_with_builder. cbn [output_builder set_cycle_counter_].
  eapply (total_inv _ _ _ (swap_total _ (ok_builder s Hs) (ok_image s Hs))).
  intros b Eb (Hb1 & Hb2 & Hb3). destruct (swap_publishes _ _ (ok_image s Hs) Eb) as (Hp1 & Hp2 & Hp3).
  wpM_auto. cbn. assert (Hc : u16_ok c) by apply land_ffff.
  split_and!; try done.
  - destruct Hs; constructor; cbn; auto. congruence.
  - eexists. split; [apply parse_build_ethernet; [apply Hs|apply Hs|]|done].
    unfold rt_frame_ok. cbn. destruct Hs as [_ _ _ _ _ _ _ Hfid _ _ _].
    split_and!; try done. apply Hb2.
Qed.

Lemma stop_status_byte : byte_ok STOP_STATUS.
Proof. unfold byte_ok. vm_compute. split; discriminate || reflexivity. Qed.

(** How many frames go out before a send fails. *)
Fixpoint sent_count (sends : list bool) : nat :=
  match sends with true :: sends => S (sent_count sends) | _ => O end.

Lemma stop_frames_effect sends : forall s,
  shared_ok s ->
  wpM (stop_frames_loop sends) s (fun _ s' ev =>
    shared_ok s' /\ same_config s s' /\ state s' = state s /\ running s' = running s /\
    write_buffer (output_builder s') = write_buffer (output_builder s) /\
    length ev = sent_count sends /\
    Forall (fun e => exists f, e = Sent f /\ is_stop_frame s (write_buffer (output_builder s)) f) ev).
Proof.
  induction sends as [|ok sends IH]; intros s Hs; cbn [stop_frames_loop].
  { apply wpM_ret. by split_and!. }
  apply wpM_bind, wpM_with_builder.
  eapply (total_inv _ _ _ (swap_total _ (ok_builder s Hs) (ok_image s Hs))).
  intros b Eb (Hb1 & Hb2 & Hb3). destruct (swap_publishes _ _ (ok_image s Hs) Eb) as (Hp1 & Hp2 & _).
  set (s1 := set_output_builder b s).
  assert (Hs1 : shared_ok s1) by (unfold s1; destruct Hs; constructor; cbn; auto; congruence).
  apply wpM_bind. eapply wpM_mono; [apply (next_frame_effect (Some STOP_STATUS) s1 Hs1 stop_status_byte)|].
  intros f s2 e2 (-> & Hs2 & Hc2 & Hst2 & Hr2 & _ & _ & Hw2 & fr & Hf1 & Hf2 & Hf3 & Hf4 & _).
  change (write_buffer (output_builder s1)) with (write_buffer b) in *. rewrite Hp2 in *.
  change (state s1) with (state s) in Hst2. change (running s1) with (running s) in Hr2.
  assert (Hc12 : same_config s s2) by (transitivity s1; [by repeat split|done]).
  destruct ok; cbn [negb].
  2: { apply wpM_ret. by split_and!. }
  wpM_auto. eapply wpM_mono; [apply IH|].
  { exact (proj1 (keeps_stats (fun s => set_frames_sent (frames_sent s + 1) s) (fun _ H => H) s2 Hs2)). }
  intros _ s3 e3 (Hs3 & Hc3 & Hst3 & Hr3 & Hw3 & Hl3 & Hf3').
  cbn in Hst3, Hr3, Hw3. rewrite Hw2 in Hw3.
  split_and!; [done| |congruence|congruence|congruence| |].
  - transitivity s2; [done|]. destruct Hc3 as (?&?&?&?&?&?&?). by repeat split.
  - cbn. by rewrite Hl3.
  - cbn. constructor.
    + exists f. split; [done|]. exists fr. unfold Rt.is_running, is_valid. rewrite Hf3.
      split_and!; done.
    + eapply Forall_impl; [exact Hf3'|]. intros e (g & -> & Hg). exists g. split; [done|].
      cbn in Hg. rewrite Hw2 in Hg. destruct Hg as (gr & ? & Hgid & ?). exists gr.
      split_and!; try done; try tauto. rewrite Hgid. cbn. destruct Hc12 as (_&_&_&Ho&_). by rewrite Ho.
Qed.

Lemma idx_insert_eq {A} (l : list A) i v : 0 <= i < len l -> idx (<[Z.to_nat i := v]> l) i = Ok v.
Proof.
  intros. rewrite idx_spec by lia. rewrite list_lookup_insert_eq by lia. done.
Qed.

Lemma slice_insert_out {A} (l : list A) i v a b :
  0 <= a -> 0 <= i -> b <= i -> slice (<[Z.to_nat i := v]> l) a b = slice l a b.
Proof.
  intros. unfold slice. rewrite length_insert.
  destruct ((0 <=? a) && (a <=? b) && (b <=? len l)) eqn:E; [|done]. f_equal. apply list_eq. intros j.
  destruct (decide (j < Z.to_nat (b - a))%nat); [|rewrite !lookup_take_ge by lia; done].
  rewrite !lookup_take_lt, !lookup_drop by lia. rewrite list_lookup_insert_ne by lia. done.
Qed.

(** Writing a submodule's data and reporting it GOOD. *)
Lemma write_good b sl ss d o :
  builder_ok b -> image_bytes b -> bytes_ok d -> object_for sl ss (objects (config b)) = Some o ->
  exists b1 b2, set_data b sl ss d = Ok b1 /\ set_iops b1 sl ss IOXS_GOOD = Ok b2 /\
    builder_ok b2 /\ image_bytes b2 /\ config b2 = config b /\
    (0 < o_data_length o -> shows (write_buffer b2) o d).
Proof.
  intros Hb Hi Hd Ho. pose proof Hb as (Hc & Hw & _).
  destruct (object_for_in _ _ _ _ Ho) as (Hin & _).
  destruct (config_ok_data _ _ Hc Hin) as (? & ? & ?).
  destruct (total_Ok _ _ (set_data_wp _ sl ss d o (fun _ => False) Hb Ho)) as (b1 & E1 & w & -> & Hb1 & Hsp).
  destruct (set_data_image _ _ _ _ _ Hd Hi E1) as [Hi1 Hcfg1].
  destruct (total_Ok _ _ (set_iops_total _ sl ss IOXS_GOOD ioxs_good_byte Hb1 Hi1))
    as (b2 & E2 & Hb2 & Hi2 & Hcfg2).
  exists (with_write b w true), b2. split_and!; try done.
  intros Hpos. destruct (config_ok_iops _ _ Hc Hin Hpos) as (Hio & ? & _).
  pose proof (splice_length _ _ _ _ Hsp) as (Hlw & _).
  unfold set_iops in E2. cbn in E2. rewrite Ho in E2. replace (0 <? o_data_length o) with true in E2 by lia.
  unfold set_idx in E2. replace ((0 <=? iops_offset o) && (iops_offset o <? len w)) with true in E2 by lia.
  injection E2 as <-. cbn. split.
  - rewrite slice_insert_out by lia.
    pose proof (slice_splice_same _ _ _ _ Hsp) as Hss. rewrite length_take in Hss.
    rewrite <- Hss. f_equal. lia.
  - apply idx_insert_eq. lia.
Qed.

(** Applying the safe image: it is what the next frame carries. *)
Lemma apply_safe_effect s sl ss d o :
  shared_ok s -> safe_output s = Some (sl, ss, d) ->
  object_for sl ss (objects (output_iocr s)) = Some o -> 0 < o_data_length o ->
  wpM apply_safe_output s (fun _ s' ev =>
    shared_ok s' /\ same_config s s' /\ state s' = state s /\ running s' = running s /\
    ev = [] /\ shows (write_buffer (output_builder s')) o d).
Proof.
  intros Hs Hsafe Ho Hpos. pose proof (ok_safe s Hs _ _ _ Hsafe) as Hd.
  rewrite <- (ok_config s Hs) in Ho. unfold apply_safe_output. wpM_auto. rewrite Hsafe. wpM_auto.
  destruct (write_good _ sl ss d o (ok_builder s Hs) (ok_image s Hs) Hd Ho)
    as (b1 & b2 & E1 & E2 & Hb2 & Hi2 & Hcfg2 & Hsh).
  rewrite E1. apply wpM_bind, wpM_lift. cbn. wpM_auto. apply wpM_with_builder. cbn. rewrite E2. cbn.
  apply wpM_with_builder. cbn.
  eapply (total_inv _ _ _ (swap_total b2 Hb2 Hi2)). intros b3 E3 (Hb3 & Hi3 & Hcfg3).
  destruct (swap_publishes _ _ Hi2 E3) as (_ & Hp & _).
  split_and!; try done.
  - destruct Hs; constructor; cbn; auto. congruence.
  - cbn. rewrite Hp. auto.
Qed.

(** The frames among the events. *)
Definition sent (ev : list Event) : list (list Z) :=
  omap (fun e => match e with Sent f => Some f | _ => None end) ev.

Lemma sent_none ev : (forall f, Sent f ∉ ev) -> sent ev = [].
Proof.
  induction ev as [|e ev IH]; [done|]. intros H. unfold sent. cbn.
  destruct e; try (apply IH; set_solver). destruct (H frame). by left.
Qed.

Lemma sent_all ev (Q : list Z -> Prop) :
  Forall (fun e => exists f, e = Sent f /\ Q f) ev ->
  length (sent ev) = length ev /\ Forall Q (sent ev).
Proof.
  induction 1 as [|e ev (f & -> & Hf) Hev [IH1 IH2]]; [by split|].
  unfold sent in *. cbn. split; [lia|by constructor].
Qed.

Lemma sent_app a b : sent (a ++ b) = sent a ++ sent b.
Proof. unfold sent. apply omap_app. Qed.

(** From the end of the safe output to STOPPED. *)
Lemma stop_running_effect s sends :
  shared_ok s ->
  wpM (stop_running true true sends) s (fun _ s' ev =>
    shared_ok s' /\ state s' = Stopped /\ running s' = false /\
    length (sent ev) = sent_count (sends <$> [0; 1; 2]) /\
    Forall (is_stop_frame s (write_buffer (output_builder s))) (sent ev)).
Proof.
  intros Hs. unfold stop_running. apply wpM_bind, wpM_transition. intros e1 _ He1.
  destruct (trans_state_ok Stopping s Hs) as [Hs1 Hc1].
  destruct (trans_state_fields Stopping s) as (_ & _ & _ & _ & _ & _ & _ & Hb1).
  set (s1 := trans_state Stopping s) in *. wpM_auto. cbn [andb whenM].
  assert (Hs2 : shared_ok (set_running false s1)) by (apply (keeps_set_running false s1 Hs1)).
  unfold send_stop_frames. eapply wpM_mono; [by apply stop_frames_effect|].
  change (sends <$> seqZ 0 STOP_FRAME_COUNT) with (sends <$> [0; 1; 2]).
  intros _ s3 e3 (Hs3 & _ & Hst3 & Hr3 & _ & Hl3 & Hf3). cbn in Hr3.
  apply wpM_transition. intros e4 _ He4.
  destruct (trans_state_ok Stopped s3 Hs3) as [Hs4 _].
  destruct (trans_state_fields Stopped s3) as (F1 & _ & F3 & _).
  destruct (sent_all e3 _ Hf3) as [G1 G2].
  rewrite !sent_app, (sent_none e1), (sent_none e4), app_nil_r by done. cbn [app sent omap list_omap].
  split_and!; [done|done|congruence| |].
  - rewrite <- Hl3, <- G1. done.
  - eapply Forall_impl; [exact G2|]. intros f (fr & ? & Hid & ?). exists fr. cbn in *.
    destruct Hc1 as (_&_&_&Ho&_). rewrite Hb1, Ho in *. split_and!; tauto.
Qed.

(** A stop ends the run, whatever the sockets and threads did. *)
Lemma stop_running_down t j sends s :
  shared_ok s -> wpM (stop_running t j sends) s (fun _ s' _ => shared_ok s' /\ running s' = false).
Proof.
  intros Hs. unfold stop_running. apply wpM_bind, wpM_transition. intros e1 _ _.
  destruct (trans_state_ok Stopping s Hs) as [Hs1 _]. set (s1 := trans_state Stopping s) in *. wpM_auto.
  assert (Hs2 : shared_ok (set_running false s1)) by (apply (keeps_set_running false s1 Hs1)).
  assert (Hend : forall s', shared_ok s' -> running s' = false ->
    wpM (transition Stopped) s' (fun _ s'' _ => shared_ok s'' /\ running s'' = false)).
  { intros s' Hs' Hr. apply wpM_transition. intros e _ _. destruct (trans_state_ok Stopped s' Hs') as [Hs'' _].
    destruct (trans_state_fields Stopped s') as (_ & _ & F3 & _). by rewrite F3. }
  apply wpM_whenM; intros _; [|by apply Hend].
  unfold send_stop_frames. eapply wpM_mono; [by apply stop_frames_effect|].
  intros _ s3 e3 (Hs3 & _ & _ & Hr3 & _). by apply Hend.
Qed.

Lemma stop_down c joined sends : shared_ok (shared c) ->
  total (stop c joined sends) (fun r => shared_ok (shared (fst r)) /\ running (shared (fst r)) = false).
Proof.
  intros Hs. unfold stop. destruct (wpM_run _ _ _ (keeps_apply_safe_output _ Hs)) as ([] & s1 & e1 & E & Hs1 & _).
  rewrite E. cbn [bind]. destruct (running s1) eqn:Hr; cbn [negb]; [|done].
  destruct (wpM_run _ _ _ (stop_running_down (tx_thread c) joined sends s1 Hs1)) as ([] & s2 & e2 & E2 & Hs2).
  rewrite E2. done.
Qed.

(** C5: A stop cannot latch an unsafe output.  Stopping a running controller
    with a registered safe output (also through [stop_safe] and [Drop]) sends
    only frames with ProviderRun cleared whose payload carries the safe bytes
    in the submodule's data with its provider status GOOD, whatever was last
    buffered; it sends one per send until the third or the first failure, and
    ends STOPPED with both threads gone. *)
Theorem stop_is_safe c sl ss d o sends :
  shared_ok (shared c) -> running (shared c) = true -> tx_thread c = true ->
  safe_output (shared c) = Some (sl, ss, d) ->
  object_for sl ss (objects (output_iocr (shared c))) = Some o -> 0 < o_data_length o ->
  total (stop c true sends) (fun r =>
    let '(c', ev) := r in
    state (shared c') = Stopped /\ running (shared c') = false /\
    tx_thread c' = false /\ rx_thread c' = false /\ shared_ok (shared c') /\
    length (sent ev) = sent_count (sends <$> [0; 1; 2]) /\
    forall f, f ∈ sent ev ->
      exists image, is_stop_frame (shared c) image f /\ shows image o d).
Proof.
  intros Hs Hr Ht Hsafe Ho Hpos. unfold stop. apply wp_bind.
  eapply total_mono; [by apply (apply_safe_effect _ sl ss d o)|].
  intros [[u s1] e1] (Hs1 & Hc1 & _ & Hr1 & He1 & Hshow). cbn in Hs1, Hc1, Hr1, He1, Hshow.
  subst e1. rewrite Hr1, Hr, Ht. cbn [negb]. apply wp_bind.
  eapply total_mono; [by apply stop_running_effect|].
  intros [[u2 s2] e2] (Hs2 & Hst2 & Hr2 & Hl2 & Hf2). cbn in *.
  split_and!; try done. intros f Hf. exists (write_buffer (output_builder s1)). split; [|done].
  rewrite Forall_forall in Hf2. destruct (Hf2 f Hf) as (fr & ? & Hid & ?).
  exists fr. destruct Hc1 as (_&_&_&Hoc&_). rewrite Hoc in Hid. tauto.
Qed.

(** The output image is immutable from the moment a stop begins, and in
    FAULT: in those states [set_output_data] is an error and changes nothing;
    in the others it stores the data for the next cycle with GOOD provider
    status or, for an unknown submodule, is an error that changes nothing. *)
Theorem output_write_lock s sl ss d :
  shared_ok s -> bytes_ok d ->
  wpM (set_output_data sl ss d) s (fun r s' ev =>
    ev = [] /\ link s' = link s /\ input_data s' = input_data s /\
    match r with
    | Some e => s' = s
    | None => output_writes_locked (state s) = false /\ shared_ok s' /\
        exists o, object_for sl ss (objects (output_iocr s)) = Some o /\
          (0 < o_data_length o -> shows (write_buffer (output_builder s')) o d)
    end /\
    (output_writes_locked (state s) = true -> is_Some r)).
Proof.
  intros Hs Hd. unfold set_output_data. wpM_auto.
  destruct (output_writes_locked (state s)) eqn:Hl; [apply wpM_ret; split_and!; done|].
  wpM_auto. destruct (object_for sl ss (objects (config (output_builder s)))) as [o|] eqn:Ho.
  - destruct (write_good _ sl ss d o (ok_builder s Hs) (ok_image s Hs) Hd Ho)
      as (b1 & b2 & E1 & E2 & Hb2 & Hi2 & Hcfg2 & Hsh).
    rewrite E1. apply wpM_bind, wpM_lift. cbn. wpM_auto. apply wpM_with_builder. cbn. rewrite E2. cbn.
    wpM_auto. split_and!; try done.
    + destruct Hs; constructor; cbn; auto. congruence.
    + rewrite <- (ok_config s Hs). eauto.
  - unfold set_data. rewrite Ho. apply wpM_ret. by split_and!.
Qed.

(** Frame loss is counted exactly.  For a sender whose 16-bit cycle
    counter advances by [step] per frame, losing [k] frames in a row adds [k]
    to [frames_missed] and nothing else, across the wrap of the counter and
    for every phase of it, as long as the jump stays within half the counter's
    range; [k = 0] is the undisturbed sequence. *)
Theorem cycle_counter_gap s prev k :
  last_rx_cycle_counter s = Some prev -> u16_ok prev ->
  0 < rx_counter_step s -> 0 <= k -> (k + 1) * rx_counter_step s <= 0x8000 ->
  wpM (track_cycle_counter ((prev + (k + 1) * rx_counter_step s) mod 65536)) s (fun _ s' ev =>
    s' = set_last_rx_cycle_counter (Some ((prev + (k + 1) * rx_counter_step s) mod 65536))
           (set_stats (set_frames_missed (frames_missed (stats s) + k) (stats s)) s) /\ ev = []).
Proof.
  intros Hlast Hp Hstep Hk Hmax. set (step_ := rx_counter_step s) in *. unfold u16_ok in Hp.
  assert (Hs0 : set_stats (set_frames_missed (frames_missed (stats s) + 0) (stats s)) s = s).
  { rewrite Z.add_0_r. destruct s as [? ? ? ? ? ? ? ? ? ? ? ? ? ? ? st ?]. by destruct st. }
  unfold track_cycle_counter. wpM_auto. rewrite Hlast. wpM_auto. fold step_. cbv zeta.
  set (c := (prev + (k + 1) * step_) mod 65536).
  assert (Hc : c = prev + (k + 1) * step_ \/ c = prev + (k + 1) * step_ - 65536).
  { unfold c. destruct (Z.lt_ge_cases (prev + (k + 1) * step_) 65536).
    - left. apply Z.mod_small. nia.
    - right. symmetry. apply Z.mod_unique with 1; nia. }
  destruct (c =? prev) eqn:E1; [nia|].
  assert (He : Z.land (wrap_add32 prev step_) 0xFFFF = (prev + step_) mod 65536).
  { unfold wrap_add32. change 0xFFFF with (Z.ones 16). rewrite Z.land_ones by lia.
    rewrite (Z.mod_small (prev + step_) 4294967296) by nia. done. }
  rewrite He. destruct (Z.eq_dec k 0) as [->|Hk0].
  - replace (c =? (prev + step_) mod 65536) with true.
    + cbn [negb]. apply wpM_modify. by rewrite Hs0.
    + unfold c. replace ((0 + 1) * step_) with step_ by lia. lia.
  - replace (c =? (prev + step_) mod 65536) with false.
    2: { symmetry. apply Z.eqb_neq. intros Heq. unfold c in Heq.
         assert (((k * step_) mod 65536) = 0).
         { replace (k * step_) with ((prev + (k + 1) * step_) - (prev + step_)) by lia.
           rewrite Zminus_mod, Heq, Z.sub_diag. done. }
         rewrite Z.mod_small in H by nia. nia. }
    cbn [negb]. assert (Hf : wrap_sub16 c prev = (k + 1) * step_).
    { unfold wrap_sub16. destruct Hc as [-> | ->].
      - rewrite Z.mod_small; nia.
      - replace (prev + (k + 1) * step_ - 65536 - prev) with ((k + 1) * step_ + (-1) * 65536) by lia.
        rewrite Z.mod_add by lia. apply Z.mod_small. nia. }
    rewrite Hf. replace (0x8000 <? (k + 1) * step_) with false by lia.
    wpM_auto. unfold frame_gap, checked_div. replace (step_ =? 0) with false by lia.
    rewrite Z.div_mul by lia. unfold sat_sub. replace (Z.max 0 (k + 1 - 1)) with k by lia. done.
Qed.

(** ** Theorems: every run *)

(** One atomic piece of the controller's life: a pass of a thread, or a call of
    the application. *)
Inductive action :=
| ARxStart (now : Z)
| ARx (r : RecvResult) (t1 t2 t3 : Z)
| ATx (now : Z) (send : option string) (l : TxLocal)
| ASetOutput (slot subslot : Z) (d : list Z)
| ASetSafe (slot subslot : Z) (d : list Z)
| ARegister (f : Callbacks -> Callbacks)
| ATransition (st : CyclicState)
| AStart (now : Z)
| AApplySafe
| AStop (tx_thread joined : bool) (sends : Z -> bool).

Definition do_action (a : action) : M unit :=
  match a with
  | ARxStart now => rx_start now
  | ARx r t1 t2 t3 => do* rx_pass r t1 t2 t3; ret tt
  | ATx now send l => do* tx_pass now send l; ret tt
  | ASetOutput sl ss d => do* set_output_data sl ss d; ret tt
  | ASetSafe sl ss d => set_safe_output_ sl ss d
  | ARegister f => register f
  | ATransition st => transition st
  | AStart now => start_reset now
  | AApplySafe => apply_safe_output
  | AStop t j sends => stop_running t j sends
  end.

Fixpoint do_actions (l : list action) : M unit :=
  match l with [] => ret tt | a :: l => do* do_action a; do_actions l end.

(** The application hands over bytes. *)
Definition action_ok (a : action) : Prop :=
  match a with ASetOutput _ _ d | ASetSafe _ _ d => bytes_ok d | _ => True end.

Lemma keeps_start_reset now : keeps (start_reset now).
Proof.
  intros s Hs. unfold start_reset. apply wpM_bind, wpM_transition. intros ev _ _.
  destruct (trans_state_ok Starting s Hs) as [Hs1 Hc1].
  destruct (trans_state_fields Starting s) as (F1 & _).
  wpM_auto. cbn. split.
  - destruct Hs1; constructor; cbn; auto; [congruence|]. unfold u32_ok. lia.
  - destruct Hc1 as (?&?&?&?&?&?&?). by repeat split.
Qed.

Lemma keeps_do_action a : action_ok a -> keeps (do_action a).
Proof.
  intros Ha. destruct a; cbn [do_action] in *.
  - by apply keeps_stats.
  - apply keeps_bind; [apply keeps_rx_pass|intros; apply keeps_ret].
  - apply keeps_bind; [apply keeps_tx_pass|intros; apply keeps_ret].
  - apply keeps_bind; [by apply keeps_set_output_data|intros; apply keeps_ret].
  - apply keeps_modify. intros s Hs. split; [|by repeat split].
    destruct Hs; constructor; cbn; auto. by intros sl ss d' [= <- <- <-].
  - apply keeps_modify. intros s Hs. split; [|by repeat split]. by destruct Hs; constructor.
  - apply keeps_transition.
  - apply keeps_start_reset.
  - apply keeps_apply_safe_output.
  - apply keeps_stop_running.
Qed.

(** [start] returns; when it reports no error the controller runs, and the
    registered safe output is untouched either way. *)
Lemma start_total c now o1 o2 o3 o4 : shared_ok (shared c) ->
  total (start c now o1 o2 o3 o4) (fun r => let '(err, c', _) := r in
    shared_ok (shared c') /\ safe_output (shared c') = safe_output (shared c) /\
    (err = None -> running (shared c') = true)).
Proof.
  intros Hs. unfold start. destruct (negb _); [by split_and!|].
  assert (Wr : wpM (start_reset now) (shared c) (fun _ s' _ =>
    shared_ok s' /\ safe_output s' = safe_output (shared c) /\ running s' = true)).
  { eapply wpM_mono; [apply wpM_and; [by apply keeps_start_reset|]|].
    - instantiate (1 := fun _ s' _ => safe_output s' = safe_output (shared c) /\ running s' = true).
      unfold start_reset. apply wpM_bind, wpM_transition. intros ev _ _.
      destruct (trans_state_fields Starting (shared c)) as (_ & _ & _ & _ & _ & _ & F & _). wpM_auto. by cbn.
    - by intros _ s' _ [[? _] ?]. }
  apply wpM_run in Wr as ([] & s1 & e1 & -> & Hs1 & Hf1 & Hr1). cbn [bind].
  destruct o1; [by split_and!|]. destruct o2; [by split_and!|].
  assert (Ws : wpM (with_builder swap) s1 (fun _ s' _ =>
    shared_ok s' /\ safe_output s' = safe_output s1 /\ running s' = running s1)).
  { eapply wpM_mono; [apply wpM_and; [by apply keeps_swap|]|].
    - instantiate (1 := fun _ s' _ => safe_output s' = safe_output s1 /\ running s' = running s1).
      apply wpM_with_builder. by eapply wp_mono; [by apply swap_total; apply Hs1| |].
    - by intros _ s' _ [[? _] ?]. }
  apply wpM_run in Ws as ([] & s2 & e2 & -> & Hs2 & Hf2 & Hr2). cbn [bind].
  destruct o3; [cbn; split_and!; congruence|]. destruct o4; [cbn; split_and!; congruence|].
  assert (Wt : wpM (transition Running) s2 (fun _ s' _ =>
    shared_ok s' /\ safe_output s' = safe_output s2 /\ running s' = running s2)).
  { apply wpM_transition. intros ev _ _. destruct (trans_state_ok Running s2 Hs2) as [? _].
    by destruct (trans_state_fields Running s2) as (_ & _ & ? & _ & _ & _ & ? & _). }
  apply wpM_run in Wt as ([] & s3 & e3 & -> & Hs3 & Hf3 & Hr3). cbn. split_and!; congruence.
Qed.

Lemma controller_new_ok iface src dst cin cout max now c :
  length src = 6%nat -> length dst = 6%nat -> config_ok cin -> config_ok cout ->
  u16_ok (c_frame_id cout) ->
  controller_new iface src dst cin cout max now = Ok c -> shared_ok (shared c).
Proof.
  intros Hsrc Hdst Hin Hout Hfid. unfold controller_new. destruct (_ <? 1000); [done|].
  intros (b & Eb & [= <-])%bind_Ok_inv. cbn.
  pose proof (builder_new_ok _ Hout) as Hb0.
  destruct (total_Ok _ _ (set_all_iops_wp (builder_new cout) IOXS_GOOD (fun _ => False) Hb0)) as (b' & Eb' & Hb').
  rewrite Eb in Eb'. injection Eb' as <-.
  destruct (set_all_iops_image _ _ _ ioxs_good_byte (builder_new_image cout) Eb) as [Hi Hc].
  constructor; cbn; auto; try done; unfold u16_ok, u32_ok; lia.
Qed.

(** No run of the controller panics.  From construction over
    well-laid-out configurations, every sequence of receive passes (on
    arbitrary bytes or errors), transmit passes, output writes, callback
    registrations, state changes, starts and stops is carried through, keeps
    the fixed configuration, the image sized and synchronized and the cycle
    counter a 16-bit value, and has FAULT only with [ever_faulted] set. *)
Theorem controller_never_panics iface src dst cin cout max now c l :
  length src = 6%nat -> length dst = 6%nat -> config_ok cin -> config_ok cout ->
  u16_ok (c_frame_id cout) -> Forall action_ok l ->
  controller_new iface src dst cin cout max now = Ok c ->
  wpM (do_actions l) (shared c) (fun _ s' _ => shared_ok s' /\ same_config (shared c) s').
Proof.
  intros Hsrc Hdst Hin Hout Hfid Hl Hc.
  assert (Hk : keeps (do_actions l)).
  { clear -Hl. induction Hl as [|a l Ha Hl IH]; cbn [do_actions]; [apply keeps_ret|].
    apply keeps_bind; [by apply keeps_do_action|done]. }
  apply Hk. exact (controller_new_ok _ _ _ _ _ _ _ c Hsrc Hdst Hin Hout Hfid Hc).
Qed.

(** FAULT is not a silent state.  While the state is FAULT the transmit
    pass still sends a running-provider frame carrying the last written image,
    and no [set_output_data] can change that image until a live frame or a
    stop ends the fault: the comment of [output_writes_locked], "no live
    channel at all", holds for neither direction. *)
Theorem fault_keeps_transmitting s now l sl ss d :
  shared_ok s -> state s = Fault -> next_send l <= now -> bytes_ok d ->
  wpM (do* set_output_data sl ss d; tx_pass now None l) s (fun _ s' ev =>
    state s' = Fault /\
    exists f fr, f ∈ sent ev /\ parse_ethernet_frame f = Ok (Some fr) /\
      frame_id fr = c_frame_id (output_iocr s) /\ Rt.is_running fr = true /\ is_valid fr = true /\
      payload fr = write_buffer (output_builder s)).
Proof.
  intros Hs Hf Hn Hd. unfold set_output_data. wpM_auto. rewrite Hf. cbn [output_writes_locked].
  wpM_auto. unfold tx_pass. replace (next_send l <=? now) with true by lia. wpM_auto.
  eapply wpM_mono; [apply (next_frame_effect None s Hs)|].
  { unfold byte_ok. vm_compute. split; discriminate || reflexivity. }
  intros f s1 e1 (-> & Hs1 & _ & Hst1 & _ & _ & _ & _ & fr & P1 & P2 & P3 & P4 & _).
  wpM_auto. apply wpM_whenM; intros _; wpM_auto; cbn; (split; [congruence|]);
    exists f, fr; unfold Rt.is_running, is_valid; rewrite P3; (split; [set_solver|]); done.
Qed.

(** When a socket cannot be opened, [start] reports the error but leaves
    the controller in STARTING with the run flag set, a state from which no
    later [start] is accepted; only [stop] recovers. *)
Theorem start_failure_is_sticky c now e r1 r2 r3 now' o1 o2 o3 o4 :
  shared_ok (shared c) -> startable (state (shared c)) = true ->
  exists c' ev, start c now (Some e) r1 r2 r3 = Ok (Some e, c', ev) /\
    state (shared c') = Starting /\ running (shared c') = true /\
    start c' now' o1 o2 o3 o4 = Ok (Some ("Cannot start from starting state"), c', []).
Proof.
  intros Hs Hst. unfold start. rewrite Hst. cbn [negb].
  assert (W : wpM (start_reset now) (shared c) (fun _ s' _ => state s' = Starting /\ running s' = true)).
  { unfold start_reset. apply wpM_bind, wpM_transition. intros ev _ _.
    destruct (trans_state_fields Starting (shared c)) as (F1 & _). wpM_auto. by cbn. }
  apply wpM_run in W as (u & s1 & e1 & E & H1 & H2). rewrite E. cbn [bind].
  eexists _, _. split; [reflexivity|]. cbn. split_and!; [done|done|]. rewrite H1. done.
Qed.

(** ** Witnesses *)

Definition demo_configs : IocrConfig * IocrConfig :=
  build_iocr_configs demo_slots 0xC001 0x8001 32 32 3.

(** A running controller with a registered safe output and a limit of three. *)
Definition demo_shared : Shared :=
  mkShared [2; 0; 0; 0; 0; 1] [2; 0; 0; 0; 0; 2] (fst demo_configs) (snd demo_configs) 3 Running true
    false 0 (builder_new (snd demo_configs)) ∅ None 1024 1024 no_callbacks (stats_new 0)
    (Some (1, 1, [0; 0; 0])).

Lemma demo_shared_ok : shared_ok demo_shared.
Proof.
  destruct (build_iocr_configs_ok demo_slots 0xC001 0x8001 32 32 3) as (H1 & H2 & _).
  constructor; cbn [demo_shared output_builder output_iocr input_iocr src_mac dst_mac cycle_counter_
    state ever_faulted stats safe_output].
  - by apply builder_new_ok.
  - apply builder_new_image.
  - done.
  - done.
  - done.
  - done.
  - unfold u16_ok; lia.
  - unfold u16_ok. vm_compute. split; discriminate || reflexivity.
  - done.
  - unfold u32_ok. cbn. lia.
  - intros sl ss d [= <- <- <-]. repeat constructor; unfold byte_ok; lia.
Qed.

(** A live input frame of that device. *)
Definition demo_input (status : Z) : list Z :=
  build_ethernet_frame [2; 0; 0; 0; 0; 1] [2; 0; 0; 0; 0; 2]
    {| frame_id := 0xC001; cycle_counter := 7; Rt.data_status := status; transfer_status := 0;
       payload := [5; 6; 0x80] ++ rep 37 0 |}.

Lemma watchdog_escalation_witness :
  all_dead demo_shared [WatchdogExpired; FrameReceived 5 (demo_input 0x25); WatchdogExpired; WatchdogExpired] /\
  wpM (on_links [WatchdogExpired; FrameReceived 5 (demo_input 0x25); WatchdogExpired; WatchdogExpired])
      demo_shared (fun _ s' _ => state s' = Fault /\
        wpM (process_input_frame 9 (demo_input 0x35)) s' (fun _ s'' _ => state s'' = Running)).
Proof.
  assert (Hd : all_dead demo_shared
    [WatchdogExpired; FrameReceived 5 (demo_input 0x25); WatchdogExpired; WatchdogExpired]).
  { intros now d Hin. assert (d = demo_input 0x25) as ->.
    { repeat (apply elem_of_cons in Hin as [Heq|Hin]; [try discriminate; by injection Heq|]).
      by apply elem_of_nil in Hin. }
    vm_compute. reflexivity. }
  split; [exact Hd|]. eapply wpM_mono.
  - apply watchdog_escalation; [exact demo_shared_ok|reflexivity|reflexivity|vm_compute; discriminate
      |exact Hd|vm_compute; reflexivity].
  - intros u s' ev (_ & _ & Hiff & _ & Hlive). split.
    + apply Hiff. vm_compute. split; [reflexivity|discriminate].
    + eapply wpM_mono; [eapply Hlive; vm_compute; reflexivity|]. intros ? ? ? (? & _). assumption.
Defined.

Lemma input_frame_effect_witness :
  wpM (process_input_frame 9 (demo_input 0x35)) demo_shared (fun _ s' _ =>
    get_input_data s' 1 1 = Some [5; 6]).
Proof.
  eapply wpM_mono; [apply input_frame_effect; [exact demo_shared_ok|]|].
  - vm_compute. apply NoDup_singleton.
  - intros u s' ev H.
    assert (Hl : exists f, live_frame demo_shared (demo_input 0x35) = Some f /\
                           payload f = [5; 6; 0x80] ++ rep 37 0) by (eexists; split; vm_compute; reflexivity).
    destruct Hl as (f & Hl & Hp). rewrite Hl in H. destruct H as [_ H].
    specialize (H {| o_slot := 1; o_subslot := 1; frame_offset := 0; o_data_length := 2;
                     iops_offset := 2; iocs_offset := None |} ltac:(left)).
    rewrite Hp in H. vm_compute in H. destruct H as (_ & _ & H). exact H.
Defined.

Lemma stop_is_safe_witness :
  total (stop (mkController "eth0" demo_shared true true) true (fun _ => true)) (fun r =>
    let '(c', ev) := r in state (shared c') = Stopped /\ length (sent ev) = 3%nat).
Proof.
  eapply total_mono.
  - apply (stop_is_safe (mkController "eth0" demo_shared true true) 1 1 [0; 0; 0]
      {| o_slot := 1; o_subslot := 1; frame_offset := 0; o_data_length := 3;
         iops_offset := 3; iocs_offset := None |} (fun _ => true));
      [exact demo_shared_ok|reflexivity..].
  - intros [c' ev] (H1 & _ & _ & _ & _ & H2 & _). split; [exact H1|exact H2].
Defined.

Lemma output_write_lock_witness :
  shared_ok demo_shared /\
  wpM (set_output_data 1 1 [4]) demo_shared (fun r s' ev => ev = [] /\ link s' = link demo_shared).
Proof.
  split; [exact demo_shared_ok|]. eapply wpM_mono.
  - apply (output_write_lock demo_shared 1 1 [4]); [exact demo_shared_ok|].
    repeat constructor; unfold byte_ok; lia.
  - intros r s' ev (H1 & H2 & _). split; assumption.
Defined.

Lemma cycle_counter_gap_witness :
  wpM (track_cycle_counter ((65000 + (2 + 1) * 1024) mod 65536))
      (set_last_rx_cycle_counter (Some 65000) demo_shared)
      (fun _ s' _ => frames_missed (stats s') = 2 /\ last_rx_cycle_counter s' = Some 2536).
Proof.
  eapply wpM_mono.
  - apply (cycle_counter_gap (set_last_rx_cycle_counter (Some 65000) demo_shared) 65000 2);
      [reflexivity|unfold u16_ok; lia|reflexivity|lia|vm_compute; discriminate].
  - intros u s' ev [-> _]. split; reflexivity.
Defined.

Lemma controller_never_panics_witness :
  exists c, controller_new "eth0" [2; 0; 0; 0; 0; 1] [2; 0; 0; 0; 0; 2]
              (fst demo_configs) (snd demo_configs) 3 0 = Ok c /\
    wpM (do_actions [ASetOutput 1 1 [1]; ARx (RecvFrame (demo_input 0x35)) 1 2 3]) (shared c)
      (fun _ s' _ => shared_ok s').
Proof.
  destruct (build_iocr_configs_ok demo_slots 0xC001 0x8001 32 32 3) as (H1 & H2 & _).
  eexists. split; [vm_compute; reflexivity|]. eapply wpM_mono.
  - eapply (controller_never_panics "eth0" [2; 0; 0; 0; 0; 1] [2; 0; 0; 0; 0; 2]
      (fst demo_configs) (snd demo_configs) 3 0);
      [reflexivity|reflexivity|exact H1|exact H2|vm_compute; split; discriminate || reflexivity
      | |vm_compute; reflexivity].
    repeat constructor; unfold byte_ok; lia.
  - intros u s' ev [H _]. exact H.
Defined.

Lemma fault_keeps_transmitting_witness :
  wpM (do* set_output_data 1 1 [0]; tx_pass 5 None {| next_send := 5; last_send := 0; first_frame := true |})
      (trans_state Fault demo_shared)
      (fun _ s' ev => state s' = Fault /\ exists f, f ∈ sent ev).
Proof.
  eapply wpM_mono.
  - apply (fault_keeps_transmitting (trans_state Fault demo_shared) 5
      {| next_send := 5; last_send := 0; first_frame := true |} 1 1 [0]);
      [apply trans_state_ok, demo_shared_ok|reflexivity|vm_compute; discriminate|].
    repeat constructor; unfold byte_ok; lia.
  - intros u s' ev (H & f & fr & Hf & _). split; [exact H|]. exists f. exact Hf.
Defined.

Lemma start_failure_is_sticky_witness :
  startable Fault = true /\
  exists c' ev, start (mkController "eth0" (trans_state Fault demo_shared) false false) 0
                  (Some "no such device") None None None = Ok (Some "no such device", c', ev) /\
    state (shared c') = Starting.
Proof.
  split; [reflexivity|].
  destruct (start_failure_is_sticky (mkController "eth0" (trans_state Fault demo_shared) false false) 0
    "no such device" None None None 1 None None None None) as (c' & ev & H1 & H2 & _);
    [apply trans_state_ok, demo_shared_ok|reflexivity|].
  exists c', ev. split; [exact H1|exact H2].
Defined.
