(* ===== verification/Idle.v ===== *)
(** * An output nobody writes ([src/src/cyclic.rs], [rt.rs])

    A controller whose owner writes no output and registers no safe output
    sends zeros in every submodule, whatever its threads meet: a frame law over
    the actions of [Cyclic], for the owners that only listen. *)

From S2P Require Import Prelude Rt Cyclic.

#[local] Open Scope list_scope.
#[local] Open Scope Z_scope.

(** The data of every submodule is zero in the image. *)
Definition zero_image (c : IocrConfig) (img : list Z) : Prop :=
  forall o, o ∈ objects c ->
    slice img (frame_offset o) (frame_offset o + o_data_length o) = Ok (rep (o_data_length o) 0).

(** A frame of this output whose submodules carry zeros. *)
Definition zero_frame (s : Shared) (f : list Z) : Prop :=
  exists fr, parse_ethernet_frame f = Ok (Some fr) /\ frame_id fr = c_frame_id (output_iocr s) /\
    zero_image (output_iocr s) (payload fr).

Definition idle_state (s : Shared) : Prop :=
  safe_output s = None /\ zero_image (output_iocr s) (write_buffer (output_builder s)).

(** From an idle state the action leaves it idle and sends only zeros. *)
Definition idles {A} (m : M A) : Prop := forall s, shared_ok s -> idle_state s ->
  wpM m s (fun _ s' ev => shared_ok s' /\ same_config s s' /\ idle_state s' /\ Forall (zero_frame s) (sent ev)).

#[global] Instance IoDataObject_eq_dec : EqDecision IoDataObject.
Proof. solve_decision. Defined.

(** ** Status bytes lie outside the data *)

Lemma slice_insert_below {A} (l : list A) i v a b :
  0 <= i < a -> slice (<[Z.to_nat i := v]> l) a b = slice l a b.
Proof.
  intros. unfold slice. rewrite length_insert.
  destruct ((0 <=? a) && (a <=? b) && (b <=? len l)) eqn:E; [|done]. f_equal. apply list_eq. intros j.
  destruct (decide (j < Z.to_nat (b - a))%nat); [|rewrite !lookup_take_ge by lia; done].
  rewrite !lookup_take_lt, !lookup_drop by lia. rewrite list_lookup_insert_ne by lia. done.
Qed.

Lemma status_byte_outside c w o i v :
  config_ok c -> o ∈ objects c -> frame_offset o + o_data_length o <= i < frame_offset o + osize o ->
  zero_image c w -> zero_image c (<[Z.to_nat i := v]> w).
Proof.
  intros Hc Hin Hi Hw o' Hin'. pose proof (config_ok_data _ _ Hc Hin) as (? & ? & _).
  pose proof (config_ok_data _ _ Hc Hin') as (? & ? & _). rewrite <- (Hw o' Hin').
  destruct Hc as (e & He & _). pose proof (osize_ge o').
  destruct (decide (o = o')) as [<-|Hne]; [apply slice_insert_out; lia|].
  destruct (laid_out_disjoint _ _ _ o o' He Hin Hin' Hne); [apply slice_insert_below; lia|apply slice_insert_out; lia].
Qed.

Lemma all_iops_zero c v b : config_ok c -> set_all_iops (builder_new c) v = Ok b -> zero_image c (write_buffer b).
Proof.
  intros Hc Hb. unfold set_all_iops in Hb. apply bind_Ok_inv in Hb as (w & Hw & [= <-]). cbn [write_buffer with_write].
  assert (H0 : 0 <= data_length c) by (destruct Hc as (e & He%laid_out_le & ?); lia).
  assert (Ht : total (for_each (objects c) (fun o w => if 0 <? o_data_length o then set_idx w (iops_offset o) v else Ok w)
                        (rep (data_length c) 0)) (fun w => len w = data_length c /\ zero_image c w)).
  { apply wp_for_each.
    - split; [by apply len_rep|]. intros o Hin. destruct (config_ok_data _ _ Hc Hin) as (? & ? & ?).
      rewrite slice_ok by (rewrite ?len_rep; lia). f_equal. unfold rep. rewrite drop_replicate, take_replicate. f_equal. lia.
    - intros o w' Hin [Hl Hz]. destruct (0 <? o_data_length o) eqn:Hd; [|done].
      destruct (config_ok_iops _ _ Hc Hin) as (Hi & ? & Hs); [lia|]. apply wp_set_idx; [lia|]. split.
      + by rewrite length_insert.
      + apply (status_byte_outside c w' o); [done|done|lia|done]. }
  cbn [config write_buffer builder_new] in Hw. rewrite Hw in Ht. apply Ht.
Qed.

Lemma all_iocs_zero b v b' : builder_ok b -> set_all_iocs b v = Ok b' ->
  zero_image (config b) (write_buffer b) -> zero_image (config b) (write_buffer b').
Proof.
  intros Hb Hs Hz. unfold set_all_iocs in Hs.
  assert (Ht : total (for_each (objects (config b)) (fun o b => match iocs_offset o with
        | Some off => let? v' := idx (write_buffer b) off in
            if negb (v' =? v) then let? w := set_idx (write_buffer b) off v in Ok (with_write b w true) else Ok b
        | None => Ok b end) b)
      (fun b' => builder_ok b' /\ config b' = config b /\ zero_image (config b) (write_buffer b'))).
  { apply wp_for_each; [done|]. intros o b1 Hin (Hb1 & Hc1 & Hz1). pose proof Hb1 as (Hc & Hw & _).
    destruct (iocs_offset o) as [off|] eqn:Hoff; [|done]. rewrite <- Hc1 in Hin.
    pose proof (config_ok_iocs _ _ _ Hc Hin Hoff). apply wp_bind, wp_idx; [lia|]. intros y _.
    destruct (negb (y =? v)); [|done]. apply wp_bind, wp_set_idx; [lia|]. cbn. split; [|split; [done|]].
    - apply builder_ok_write; [done|]. by rewrite length_insert.
    - rewrite <- Hc1 in *. apply (status_byte_outside _ _ o); [done|done| |done].
      destruct (config_ok_in _ _ Hc Hin) as ([(_ & _ & ?)|(? & Ho & _)] & _ & _); [congruence|].
      pose proof (osize_pos o). assert (off = frame_offset o) by congruence. lia. }
  rewrite Hs in Ht. apply Ht.
Qed.

(** ** The law, action by action *)

Lemma sent_nil (ev : list Event) : (forall f, Sent f ∉ ev) -> sent ev = [].
Proof. apply sent_none. Qed.
Lemma zero_frame_config s s' f : same_config s s' -> zero_frame s' f -> zero_frame s f.
Proof. intros (_ & _ & _ & Ho & _) (fr & H). exists fr. by rewrite Ho in H. Qed.

Lemma idles_ret {A} (a : A) : idles (ret a).
Proof. intros s Hs Hi. apply wpM_ret. by split_and!. Qed.
Lemma idles_bind {A B} (m : M A) (k : A -> M B) : idles m -> (forall a, idles (k a)) -> idles (bindM m k).
Proof.
  intros Hm Hk s Hs Hi. apply wpM_bind. eapply wpM_mono; [by apply Hm|].
  intros a s1 e1 (Hs1 & Hc1 & Hi1 & Hf1). eapply wpM_mono; [by apply Hk|].
  intros b s2 e2 (Hs2 & Hc2 & Hi2 & Hf2). split_and!; [done|by transitivity s1|done|].
  rewrite sent_app. apply Forall_app. split; [done|]. eapply Forall_impl; [exact Hf2|].
  intros f. by apply zero_frame_config.
Qed.
Lemma idles_gets {A} (f : Shared -> A) : idles (gets f).
Proof. intros s Hs Hi. apply wpM_gets. by split_and!. Qed.
(** What the action itself sends is nothing. *)
Lemma idles_emit e : (forall f, e <> Sent f) -> idles (emit e).
Proof.
  intros He s Hs Hi. apply wpM_emit. split_and!; try done. rewrite sent_nil; [constructor|].
  intros f Hf. apply list_elem_of_singleton in Hf. by apply (He f).
Qed.
Lemma idles_whenM b m : idles m -> idles (whenM b m).
Proof. intros Hm. destruct b; [done|apply idles_ret]. Qed.
(** An update of what neither the image nor the safe output depends on. *)
Lemma idles_modify f : keeps (modify f) ->
  (forall s, output_builder (f s) = output_builder s /\ safe_output (f s) = safe_output s) -> idles (modify f).
Proof.
  intros Hk Hf s Hs [Hn Hz]. apply wpM_modify. destruct (Hk s Hs) as [Hs' Hc]. cbn in Hs', Hc.
  destruct (Hf s) as [Hb Hsf]. split_and!; [done|done| |constructor].
  unfold idle_state. rewrite Hb, Hsf. destruct Hc as (_ & _ & _ & -> & _). done.
Qed.
Lemma idles_stats f : keeps (modify_stats f) -> idles (modify_stats f).
Proof. intros Hk. by apply idles_modify. Qed.
Lemma idles_builder f : keeps (with_builder f) ->
  (forall b b', builder_ok b -> f b = Ok b' -> zero_image (config b) (write_buffer b) ->
     zero_image (config b) (write_buffer b')) -> idles (with_builder f).
Proof.
  intros Hk Hf s Hs [Hn Hz]. eapply wpM_mono; [apply wpM_and; [by apply Hk|]|].
  - instantiate (1 := fun _ s' ev => safe_output s' = None /\ ev = [] /\
      zero_image (output_iocr s) (write_buffer (output_builder s'))).
    pose proof (Hk s Hs) as Ht. apply wpM_with_builder. unfold wpM, with_builder, bindM, gets, lift, modify in Ht.
    cbn in Ht. destruct (f (output_builder s)) as [b| | |] eqn:Eb; cbn in Ht |- *; try done.
    split_and!; [done|done|]. rewrite <- (ok_config s Hs) in *. apply (Hf (output_builder s)); [apply Hs|done|done].
  - intros _ s' ev [[Hs' Hc] (Hn' & -> & Hz')]. split_and!; [done|done| |constructor].
    split; [done|]. by destruct Hc as (_ & _ & _ & -> & _).
Qed.
Lemma idles_swap : idles (with_builder swap).
Proof.
  apply idles_builder; [apply keeps_swap|]. intros b b' _ Hs Hz. unfold swap in Hs. destruct (dirty b).
  - destruct (_ =? _); [|done]. by injection Hs as <-.
  - by injection Hs as <-.
Qed.
Lemma idles_all_iocs v : byte_ok v -> idles (with_builder (fun b => set_all_iocs b v)).
Proof. intros Hv. apply idles_builder; [by apply keeps_set_all_iocs|]. intros b b' Hb Hs. by apply (all_iocs_zero b v b'). Qed.
Lemma idles_transition st : idles (transition st).
Proof.
  intros s Hs [Hn Hz]. eapply wpM_mono; [apply wpM_and; [by apply keeps_transition|]|].
  - instantiate (1 := fun _ s' ev => s' = trans_state st s /\ forall f, Sent f ∉ ev).
    apply wpM_transition. by intros ev _ He.
  - intros _ s' ev [[Hs' Hc] [-> He]]. split_and!; [done|done| |by rewrite sent_nil].
    destruct (trans_state_fields st s) as (_ & _ & _ & _ & _ & _ & F & Fb). unfold idle_state. rewrite F.
    destruct Hc as (_ & _ & _ & -> & _). by rewrite Fb.
Qed.
Lemma idles_emit_error e : idles (emit_error e).
Proof. apply idles_bind; [apply idles_gets|]. intros cb. by apply idles_whenM, idles_emit. Qed.
(** A computation that changes neither and sends nothing. *)
Lemma idles_frame {A} (m : M A) : keeps m ->
  (forall s, shared_ok s -> wpM m s (fun _ s' ev =>
     output_builder s' = output_builder s /\ safe_output s' = safe_output s /\ forall f, Sent f ∉ ev)) -> idles m.
Proof.
  intros Hk Hf s Hs [Hn Hz]. eapply wpM_mono; [apply wpM_and; [by apply Hk|by apply Hf]|].
  intros a s' ev [[Hs' Hc] (Hb & Hsf & He)]. split_and!; [done|done| |by rewrite sent_nil].
  unfold idle_state. rewrite Hb, Hsf. by destruct Hc as (_ & _ & _ & -> & _).
Qed.

Lemma idles_store_inputs p : idles (store_inputs p).
Proof.
  apply idles_frame; [apply keeps_store_inputs|]. intros s Hs. pose proof (store_inputs_effect p s Hs) as He.
  unfold wpM, total, store_inputs, bindM, gets, lift, modify in *. cbn in *.
  destruct (for_each _ _ _) as [acc|e| |]; [|done..]. cbn in *.
  destruct (on_input_status _), (on_input_data _); cbn in *; split_and!; try done; apply He.
Qed.

Lemma idles_next_output_frame st s : byte_ok (default RUN_STATUS st) -> shared_ok s -> idle_state s ->
  wpM (next_output_frame st) s (fun f s' ev =>
    ev = [] /\ shared_ok s' /\ same_config s s' /\ idle_state s' /\ zero_frame s f).
Proof.
  intros Hst Hs [Hn Hz]. eapply wpM_mono; [by apply next_frame_effect|].
  intros f s' ev (-> & Hs' & Hc & _ & _ & _ & Hsf & Hw & fr & Hp & Hid & _ & Hpl & _). split_and!; try done.
  - unfold idle_state. rewrite Hsf, Hw. by destruct Hc as (_ & _ & _ & -> & _).
  - exists fr. by rewrite Hpl.
Qed.

Create HintDb idles.
#[export] Hint Resolve idles_ret idles_gets idles_swap idles_all_iocs idles_transition idles_emit_error
  idles_store_inputs ioxs_good_byte ioxs_bad_byte : idles.
Ltac idles_auto :=
  repeat lazymatch goal with
  | |- idles (bindM _ _) => apply idles_bind; [|intros ?]
  | |- idles (whenM _ _) => apply idles_whenM
  | |- idles (emit _) => apply idles_emit; congruence
  | |- idles (if ?b then _ else _) => destruct b
  | |- idles (match ?x with _ => _ end) => destruct x
  | |- idles _ => solve [eauto with idles]
  end.

(** Sending a frame that [next_output_frame] made. *)
Lemma idles_send {A} st (k : list Z -> M A) : byte_ok (default RUN_STATUS st) ->
  (forall f s0, zero_frame s0 f -> forall s, same_config s0 s -> shared_ok s -> idle_state s ->
     wpM (k f) s (fun _ s' ev => shared_ok s' /\ same_config s s' /\ idle_state s' /\ Forall (zero_frame s) (sent ev))) ->
  idles (bindM (next_output_frame st) k).
Proof.
  intros Hst Hk s Hs Hi. apply wpM_bind. eapply wpM_mono; [by apply idles_next_output_frame|].
  intros f s1 e1 (-> & Hs1 & Hc1 & Hi1 & Hf). eapply wpM_mono; [by eapply Hk|].
  intros a s2 e2 (Hs2 & Hc2 & Hi2 & Hf2). split_and!; [done|by transitivity s1|done|].
  cbn. eapply Forall_impl; [exact Hf2|]. intros g. by apply zero_frame_config.
Qed.
Lemma wpM_emit_sent {A} f (k : M A) s0 s : zero_frame s0 f -> same_config s0 s -> shared_ok s -> idle_state s ->
  idles k -> wpM (bindM (emit (Sent f)) (fun _ => k)) s
    (fun _ s' ev => shared_ok s' /\ same_config s s' /\ idle_state s' /\ Forall (zero_frame s) (sent ev)).
Proof.
  intros Hf Hc Hs Hi Hk. apply wpM_bind, wpM_emit. eapply wpM_mono; [by apply Hk|].
  intros a s' ev (Hs' & Hc' & Hi' & Hf'). split_and!; try done. cbn. constructor; [|done].
  destruct Hf as (fr & H1 & H2). exists fr. by destruct Hc as (_ & _ & _ & -> & _).
Qed.

Lemma run_status_byte : byte_ok RUN_STATUS.
Proof. unfold byte_ok. vm_compute. split; discriminate || reflexivity. Qed.

Lemma idles_lift {A} (o : outcome A) : total o (fun _ => True) -> idles (lift o).
Proof. intros Ho. apply idles_frame; [by apply keeps_lift|]. intros s Hs. apply wpM_lift. eapply total_mono; [exact Ho|]. intros a _. split_and!; [done|done|set_solver]. Qed.
Lemma idles_track c : idles (track_cycle_counter c).
Proof.
  apply idles_frame; [apply keeps_track|]. intros s Hs. unfold track_cycle_counter. wpM_auto.
  repeat (wpM_auto; case_match); wpM_auto; split_and!; try done; set_solver.
Qed.
Lemma idles_accept now f : idles (accept_frame now f).
Proof.
  unfold accept_frame. idles_auto; try (by apply idles_track); apply idles_stats; [apply keeps_receive_stats|by apply keeps_stats].
Qed.
Lemma idles_process now d : idles (process_input_frame now d).
Proof.
  unfold process_input_frame. destruct (len d <? 18) eqn:Hl; [apply idles_ret|].
  apply idles_bind; [apply idles_lift; apply wp_slice; [lia|lia|by intros]|intros mac].
  apply idles_bind; [apply idles_gets|intros dst].
  destruct (negb (bool_decide (mac = dst))); [apply idles_ret|].
  apply idles_bind; [apply idles_lift, parse_ethernet_total|intros [f|]]; [|apply idles_ret].
  apply idles_bind; [apply idles_gets|intros fid].
  destruct (negb (frame_id f =? fid)); [apply idles_ret|apply idles_accept].
Qed.
Lemma idles_timeout : idles handle_watchdog_timeout.
Proof.
  unfold handle_watchdog_timeout. idles_auto; apply idles_stats, keeps_stats; try done. intros. apply wrap_add32_ok.
Qed.
#[export] Hint Resolve idles_process idles_timeout : idles.

Lemma idles_rx_pass r t1 t2 t3 : idles (rx_pass r t1 t2 t3).
Proof.
  unfold rx_pass, check_receive_watchdog. apply idles_bind; [apply idles_gets|intros cfg].
  destruct r; idles_auto; by apply idles_stats, keeps_stats.
Qed.

Lemma idles_tx_pass now send l : idles (tx_pass now send l).
Proof.
  unfold tx_pass. destruct (next_send l <=? now); [|apply idles_ret].
  apply idles_bind; [apply idles_gets|intros cyc]. cbv zeta. apply idles_send; [apply run_status_byte|].
  intros f s0 Hf s Hc Hs Hi.
  assert (Hrest : forall first, idles (bindM (modify_stats (fun s => set_frames_sent (frames_sent s + 1) s)) (fun _ =>
    bindM (whenM first (modify_stats (tx_stats (Z.max 0 (now - last_send l) / 1000) cyc))) (fun _ =>
    ret {| next_send := if next_send l + cyc * 1000 <? now then now + cyc * 1000 else next_send l + cyc * 1000;
           last_send := now; first_frame := false |})))).
  { intros first. idles_auto; apply idles_stats, keeps_stats; [done|]. intros x Hx. unfold tx_stats. cbn. by destruct (_ <? _). }
  destruct send as [e|].
  - apply (idles_bind _ _ (idles_emit_error _)); [intros _; apply Hrest|done|done].
  - apply (wpM_emit_sent f _ s0 s Hf Hc Hs Hi), Hrest.
Qed.

Lemma stop_status_ok : byte_ok (default RUN_STATUS (Some STOP_STATUS)).
Proof. exact stop_status_byte. Qed.

Lemma idles_stop_frames sends : idles (stop_frames_loop sends).
Proof.
  induction sends as [|ok sends IH]; cbn [stop_frames_loop]; [apply idles_ret|].
  apply idles_bind; [apply idles_swap|intros _]. apply idles_send; [apply stop_status_ok|].
  intros f s0 Hf s Hc Hs Hi. destruct (negb ok).
  - by apply idles_ret.
  - apply (wpM_emit_sent f _ s0 s Hf Hc Hs Hi). apply idles_bind; [by apply idles_stats, keeps_stats|intros _; exact IH].
Qed.

Lemma idles_stop_running t j sends : idles (stop_running t j sends).
Proof.
  unfold stop_running. idles_auto; [apply idles_modify; [apply keeps_set_running|done]|apply idles_stop_frames].
Qed.
Lemma idles_start_reset now : idles (start_reset now).
Proof.
  apply idles_frame; [apply keeps_start_reset|]. intros s Hs. unfold start_reset. apply wpM_bind, wpM_transition.
  intros ev _ He. destruct (trans_state_fields Starting s) as (_ & _ & _ & _ & _ & _ & F & Fb). wpM_auto. cbn.
  split_and!; [done|done|]. by rewrite app_nil_r.
Qed.

(** ** The owner's calls *)

(** Construction leaves the output idle. *)
Lemma controller_new_idle iface src dst cin cout max now c : config_ok cout ->
  controller_new iface src dst cin cout max now = Ok c ->
  idle_state (shared c) /\ output_iocr (shared c) = cout.
Proof.
  intros Hout. unfold controller_new. destruct (_ <? 1000); [done|].
  intros (b & Eb & [= <-])%bind_Ok_inv. cbn. split; [|done]. split; [done|]. cbn. by eapply all_iops_zero.
Qed.

Definition idle_events (s : Shared) (ev : list Event) : Prop := Forall (zero_frame s) (sent ev).

Lemma stop_idle c joined sends : shared_ok (shared c) -> idle_state (shared c) ->
  total (stop c joined sends) (fun r => shared_ok (shared (fst r)) /\ same_config (shared c) (shared (fst r)) /\
    idle_state (shared (fst r)) /\ idle_events (shared c) (snd r)).
Proof.
  intros Hs Hi. unfold stop.
  assert (E : apply_safe_output (shared c) = Ok (tt, shared c, [])).
  { unfold apply_safe_output, bindM, gets. destruct Hi as [-> _]. done. }
  rewrite E. cbn [bind]. destruct (running (shared c)); cbn [negb]; [|by split_and!; try apply same_config_refl; try apply Forall_nil_2].
  destruct (wpM_run _ _ _ (idles_stop_running (tx_thread c) joined sends (shared c) Hs Hi))
    as ([] & s2 & e2 & E2 & H1 & H2 & H3 & H4).
  rewrite E2. by split_and!.
Qed.

Lemma start_idle c now o1 o2 o3 o4 : shared_ok (shared c) -> idle_state (shared c) ->
  total (start c now o1 o2 o3 o4) (fun r => let '(_, c', ev) := r in shared_ok (shared c') /\
    same_config (shared c) (shared c') /\ idle_state (shared c') /\ idle_events (shared c) ev).
Proof.
  intros Hs Hi. unfold start. destruct (negb _); [by split_and!; try apply same_config_refl; try apply Forall_nil_2|].
  destruct (wpM_run _ _ _ (idles_start_reset now (shared c) Hs Hi)) as ([] & s1 & e1 & -> & Hs1 & Hc1 & Hi1 & Hf1). cbn [bind].
  destruct o1; [by split_and!|]. destruct o2; [by split_and!|].
  destruct (wpM_run _ _ _ (idles_swap s1 Hs1 Hi1)) as ([] & s2 & e2 & -> & Hs2 & Hc2 & Hi2 & Hf2). cbn [bind].
  assert (H12 : idle_events (shared c) (e1 ++ e2) /\ same_config (shared c) s2).
  { split; [|by transitivity s1]. unfold idle_events. rewrite sent_app. apply Forall_app. split; [done|].
    eapply Forall_impl; [exact Hf2|]. intros f. by apply zero_frame_config. }
  destruct H12 as [He Hc]. destruct o3; [by split_and!|]. destruct o4; [by split_and!|].
  destruct (wpM_run _ _ _ (idles_transition Running s2 Hs2 Hi2)) as ([] & s3 & e3 & -> & Hs3 & Hc3 & Hi3 & Hf3).
  cbn [bind]. split_and!; [done|by transitivity s2|done|].
  unfold idle_events. rewrite app_assoc, sent_app. apply Forall_app. split; [done|].
  eapply Forall_impl; [exact Hf3|]. intros f. by apply zero_frame_config.
Qed.

(** Passes of the two threads, in any order. *)
Lemma passes_idle l : Forall (fun a => match a with ARx _ _ _ _ | ATx _ _ _ => True | _ => False end) l -> idles (do_actions l).
Proof.
  induction 1 as [|a l Ha Hl IH]; cbn [do_actions]; [apply idles_ret|]. apply idles_bind; [|intros _; exact IH].
  destruct a; try done; cbn [do_action];
    (apply idles_bind; [apply idles_rx_pass || apply idles_tx_pass|intros; apply idles_ret]).
Qed.
