(* ===== verification/Threads.v ===== *)
(** * The controller's threads, lock by lock ([src/src/cyclic.rs])

    [Cyclic] gives every pass of the transmit and receive loops and every call
    of the owner as one action.  Here the same operations are programs whose
    atomic steps are the critical sections and atomic accesses of the source,
    with every mutex taken and released where the code does, and a scheduler
    that interleaves the loops, the owner's exclusive calls ([start], [stop])
    and any number of callers' shared ones ([set_output_data], the readers, the
    registrations).  A program run without interruption is the action of
    [Cyclic] ([whole]); [Schedules] says what holds under every schedule. *)

From S2P Require Import Prelude Fmt Rt Cyclic.

#[local] Open Scope list_scope.
#[local] Open Scope Z_scope.

(** ** Programs *)

(** The mutexes of [Shared]. *)
Inductive Lock :=
| LState | LCycleCounter | LOutputBuilder | LInputData | LLastRx | LCallbacks | LStats | LSafeOutput.

#[global] Instance Lock_eq_dec : EqDecision Lock.
Proof. solve_decision. Defined.

(** The threads [start] spawns, with the clock they read first. *)
Inductive Spawned := SpawnTx (now : Z) | SpawnRx (now : Z).

(** What a thread still has to do.  [Do] is one atomic step: the body of a
    critical section, an access of an atomic, or a callback. *)
Inductive prog (A : Type) : Type :=
| Done (a : A)
| Do {B : Type} (m : M B) (k : B -> prog A)
| Lck (l : Lock) (p : prog A)
| Unl (l : Lock) (p : prog A)
| Spawn (x : Spawned) (k : nat -> prog A)
| Join (t : nat) (p : prog A).
Arguments Done {A} a.
Arguments Do {A B} m k.
Arguments Lck {A} l p.
Arguments Unl {A} l p.
Arguments Spawn {A} x k.
Arguments Join {A} t p.

Fixpoint bindP {A B} (p : prog A) (f : A -> prog B) : prog B :=
  match p with
  | Done a => f a
  | Do m k => Do m (fun b => bindP (k b) f)
  | Lck l p => Lck l (bindP p f)
  | Unl l p => Unl l (bindP p f)
  | Spawn x k => Spawn x (fun n => bindP (k n) f)
  | Join t p => Join t (bindP p f)
  end.

Notation "'let%' x := m 'in' k" := (bindP m (fun x => k))
  (at level 10, x binder, m at level 100, k at level 200) : rust_scope.
Notation "'do%' m ; k" := (bindP m (fun _ => k))
  (at level 10, m at level 100, k at level 200) : rust_scope.

Definition atomic {A} (m : M A) : prog A := Do m Done.
(** [plock] for one statement or block. *)
Definition locked {A} (l : Lock) (m : M A) : prog A := Lck l (Do m (fun a => Unl l (Done a))).
Definition whenP (b : bool) (p : prog unit) : prog unit := if b then p else Done tt.

(** ** The operations of [Shared] *)

(** The critical section of [transition]: the old state when it changes. *)
Definition swap_state (new_state : CyclicState) : M (option CyclicState) :=
  let* old := gets state in
  if state_eqb old new_state then ret None
  else do* modify (set_state new_state); ret (Some old).

Definition transition_p (new_state : CyclicState) : prog unit :=
  let% changed := locked LState (swap_state new_state) in
  match changed with
  | None => Done tt
  | Some old =>
      do% whenP (state_eqb new_state Fault) (atomic (modify (set_ever_faulted true)));
      let% cb := locked LCallbacks (gets (fun s => on_state_change (callbacks s))) in
      whenP cb (atomic (emit (StateChange old new_state)))
  end.

Definition emit_error_p (message : string) : prog unit :=
  let% cb := locked LCallbacks (gets (fun s => on_error (callbacks s))) in
  whenP cb (atomic (emit (ErrorMessage message))).

Definition advance_counter : M Z :=
  let* c := gets cycle_counter_ in
  let* step_ := gets tx_counter_step in
  let counter := Z.land (wrap_add32 c step_) 0xFFFF in
  do* modify (set_cycle_counter_ counter);
  ret counter.

Definition commit_image : M (list Z) :=
  do* with_builder swap;
  gets (fun s => build (output_builder s)).

Definition next_output_frame_p (data_status : option Z) : prog (list Z) :=
  let% counter := locked LCycleCounter advance_counter in
  let% image := locked LOutputBuilder commit_image in
  atomic (gets (fun s =>
    build_ethernet_frame (dst_mac s) (src_mac s)
      {| frame_id := c_frame_id (output_iocr s); cycle_counter := counter;
         Rt.data_status := default RUN_STATUS data_status; transfer_status := 0;
         payload := image |})).

(** The body of [track_cycle_counter] once a previous counter is known, under
    its own lock and that of the statistics. *)
Definition count_frame (prev rx_counter : Z) : M unit :=
  let* step_ := gets rx_counter_step in
  let expected := Z.land (wrap_add32 prev step_) 0xFFFF in
  if rx_counter =? prev then
    modify_stats (fun s => set_frames_duplicate (frames_duplicate s + 1) s)
  else if negb (rx_counter =? expected) then
    let forward := wrap_sub16 rx_counter prev in
    do* (if 0x8000 <? forward then
           modify_stats (fun s => set_frames_out_of_order (frames_out_of_order s + 1) s)
         else
           modify_stats (fun s => set_frames_missed (frames_missed s + frame_gap forward step_) s));
    modify (set_last_rx_cycle_counter (Some rx_counter))
  else modify (set_last_rx_cycle_counter (Some rx_counter)).

Definition track_cycle_counter_p (rx_counter : Z) : prog unit :=
  Lck LLastRx (Do (gets last_rx_cycle_counter) (fun last =>
    match last with
    | None => Do (modify (set_last_rx_cycle_counter (Some rx_counter)))
                (fun _ => Unl LLastRx (Done tt))
    | Some prev => Lck LStats (Do (count_frame prev rx_counter)
                     (fun _ => Unl LStats (Unl LLastRx (Done tt))))
    end)).

(** The loop over the objects under the input lock. *)
Definition store_objects (want_data : bool) (p : list Z) : M InputAcc :=
  let* objs := gets (fun s => objects (input_iocr s)) in
  let* d := gets input_data in
  let* acc := lift (for_each objs (process_object want_data p)
                      {| acc_data := d; acc_status := []; acc_updates := [] |}) in
  do* modify (set_input_data (acc_data acc));
  ret acc.

Fixpoint fire_all (l : list Event) : prog unit :=
  match l with
  | [] => Done tt
  | e :: l => do% atomic (emit e); fire_all l
  end.

Definition store_inputs_p (p : list Z) : prog unit :=
  let% cbs := locked LCallbacks (gets callbacks) in
  let% acc := locked LInputData (store_objects (on_input_data cbs) p) in
  do% whenP (on_input_status cbs) (fire_all (acc_status acc));
  whenP (on_input_data cbs) (fire_all (acc_updates acc)).

Definition accept_frame_p (now : Z) (frame : RtFrame) : prog unit :=
  let valid := frame_is_alive frame in
  let% target_us := atomic (gets (fun s => cycle_time_us (input_iocr s))) in
  do% locked LStats (modify_stats (receive_stats valid now target_us));
  do% whenP valid
        (let% st := locked LState (gets state) in
         whenP (state_eqb st Fault) (transition_p Running));
  do% track_cycle_counter_p (cycle_counter frame);
  if negb valid then
    locked LStats (modify_stats (fun s => set_frames_invalid (frames_invalid s + 1) s))
  else
    do% locked LOutputBuilder (with_builder (fun b => set_all_iocs b IOXS_GOOD));
    store_inputs_p (payload frame).

(** What the filters of [process_input_frame] let through, none of them
    under a lock: they read the frame and the configuration. *)
Definition filter_frame (d : list Z) : M (option RtFrame) :=
  if len d <? 18 then ret None
  else
    let* mac := lift (slice d 6 12) in
    let* dst := gets dst_mac in
    if negb (bool_decide (mac = dst)) then ret None
    else
      let* parsed := lift (parse_ethernet_frame d) in
      match parsed with
      | None => ret None
      | Some frame =>
          let* fid := gets (fun s => c_frame_id (input_iocr s)) in
          if negb (frame_id frame =? fid) then ret None else ret (Some frame)
      end.

Definition process_input_frame_p (now : Z) (d : list Z) : prog unit :=
  let% frame := atomic (filter_frame d) in
  match frame with
  | None => Done tt
  | Some frame => accept_frame_p now frame
  end.

Definition count_timeout : M Z :=
  do* modify_stats (fun s => set_frames_missed (frames_missed s + 1) s);
  do* modify_stats (fun s => set_consecutive_timeouts (wrap_add32 (consecutive_timeouts s) 1) s);
  do* modify_stats (set_interval_disturbed true);
  gets (fun s => consecutive_timeouts (stats s)).

Definition handle_watchdog_timeout_p : prog unit :=
  let% consecutive := locked LStats count_timeout in
  let% max := atomic (gets max_consecutive_timeouts) in
  do% whenP (0 <? max)
        (locked LOutputBuilder (with_builder (fun b => set_all_iocs b IOXS_BAD)));
  let% cb := locked LCallbacks (gets (fun s => on_timeout (callbacks s))) in
  do% whenP cb (atomic (emit Timeout));
  whenP ((0 <? max) && (max <=? consecutive))
    (let% st := locked LState (gets state) in
     whenP (state_eqb st Running)
       (do% transition_p Fault;
        emit_error_p ("Communication lost: " +:+ dec consecutive
                      +:+ " consecutive watchdog timeouts"))).

Definition check_receive_watchdog_p (watchdog_ns now now' : Z) : prog unit :=
  let% last := locked LStats (gets (fun s => last_receive_time (stats s))) in
  whenP (watchdog_ns <? Z.max 0 (now - last))
    (do% handle_watchdog_timeout_p;
     locked LStats (modify_stats (set_last_receive_time now'))).

Definition apply_image (slot subslot : Z) (d : list Z) : M (option string) :=
  let* b := gets output_builder in
  match set_data b slot subslot d with
  | Err e => ret (Some e)
  | o =>
      let* b := lift o in
      do* modify (set_output_builder b);
      do* with_builder (fun b => set_iops b slot subslot IOXS_GOOD);
      do* with_builder swap;
      ret None
  end.

(** The guard of [safe_output] is a temporary of the [if let]: it lives to the
    end of its body, over the builder's section and the error's callback. *)
Definition apply_safe_output_p : prog unit :=
  Lck LSafeOutput (Do (gets safe_output) (fun safe =>
    match safe with
    | None => Unl LSafeOutput (Done tt)
    | Some (slot, subslot, d) =>
        let% failed := locked LOutputBuilder (apply_image slot subslot d) in
        do% match failed with
            | Some e => emit_error_p ("safe output not applied: " +:+ e)
            | None => Done tt
            end;
        Unl LSafeOutput (Done tt)
    end)).

Fixpoint stop_frames_p (sends : list bool) : prog unit :=
  match sends with
  | [] => Done tt
  | ok :: sends =>
      do% locked LOutputBuilder (with_builder swap);
      let% frame := next_output_frame_p (Some STOP_STATUS) in
      if negb ok then Done tt
      else
        do% atomic (emit (Sent frame));
        do% locked LStats (modify_stats (fun s => set_frames_sent (frames_sent s + 1) s));
        stop_frames_p sends
  end.

(** ** The loops *)

Definition rx_start_p (now : Z) : prog unit :=
  locked LStats (modify_stats (set_last_receive_time now)).

Definition rx_pass_p (r : RecvResult) (t1 t2 t3 : Z) : prog bool :=
  let% watchdog_ns := atomic (gets (fun s => watchdog_time_us (input_iocr s) * 1000)) in
  match r with
  | RecvError e =>
      let% run := atomic (gets running) in
      do% whenP run
            (do% emit_error_p ("RX error: " +:+ e);
             let% st := locked LState (gets state) in
             whenP (state_eqb st Running) (transition_p Fault));
      Done false
  | _ =>
      do% match r with RecvFrame d => process_input_frame_p t1 d | _ => Done tt end;
      do% check_receive_watchdog_p watchdog_ns t2 t3;
      Done true
  end.

Definition tx_pass_p (now : Z) (send : option string) (l : TxLocal) : prog TxLocal :=
  if next_send l <=? now then
    let% cycle_us := atomic (gets (fun s => cycle_time_us (output_iocr s))) in
    let cycle_ns := cycle_us * 1000 in
    let% frame := next_output_frame_p None in
    do% match send with
        | Some e => emit_error_p ("TX error: " +:+ e)
        | None => atomic (emit (Sent frame))
        end;
    do% locked LStats (modify_stats (fun s => set_frames_sent (frames_sent s + 1) s));
    do% whenP (negb (first_frame l))
          (locked LStats (modify_stats (tx_stats (Z.max 0 (now - last_send l) / 1000) cycle_us)));
    let next := next_send l + cycle_ns in
    Done {| next_send := if next <? now then now + cycle_ns else next; last_send := now;
            first_frame := false |}
  else Done l.

(** ** The calls *)

(** What a call returned last. *)
Inductive Reply :=
| RNone
| RState (st : CyclicState)
| RResult (error : option string)
| RInput (d : option (list Z))
| RInputStatus (iops : option Z)
| RFlag (b : bool)
| RStats (s : CyclicStats)
| RCounter (c : option Z).

(** The readers: each takes one lock for one access, [ever_faulted] none. *)
Definition state_p : prog CyclicState := locked LState (gets state).
Definition is_running_p : prog bool := let% st := state_p in Done (state_eqb st Running).
Definition ever_faulted_p : prog bool := atomic (gets ever_faulted).
Definition stats_p : prog CyclicStats := locked LStats (gets stats).
Definition cycle_counter_p : prog Z := locked LCycleCounter (gets cycle_counter_).
Definition last_rx_cycle_counter_p : prog (option Z) := locked LLastRx (gets last_rx_cycle_counter).
Definition get_input_data_p (slot subslot : Z) : prog (option (list Z)) :=
  locked LInputData (gets (fun s => get_input_data s slot subslot)).
Definition get_input_data_allow_bad_p (slot subslot : Z) : prog (option (list Z)) :=
  locked LInputData (gets (fun s => get_input_data_allow_bad s slot subslot)).
Definition get_input_status_p (slot subslot : Z) : prog (option Z) :=
  locked LInputData (gets (fun s => get_input_status s slot subslot)).
Definition is_input_good_p (slot subslot : Z) : prog bool :=
  locked LInputData (gets (fun s => is_input_good s slot subslot)).

Inductive Reading :=
| ReadState | ReadRunning | ReadFaulted | ReadStats | ReadCounter | ReadLastRx
| ReadInput (slot subslot : Z) | ReadInputAllowBad (slot subslot : Z)
| ReadInputStatus (slot subslot : Z) | ReadInputGood (slot subslot : Z).

Definition read_p (r : Reading) : prog Reply :=
  match r with
  | ReadState => let% st := state_p in Done (RState st)
  | ReadRunning => let% b := is_running_p in Done (RFlag b)
  | ReadFaulted => let% b := ever_faulted_p in Done (RFlag b)
  | ReadStats => let% s := stats_p in Done (RStats s)
  | ReadCounter => let% c := cycle_counter_p in Done (RCounter (Some c))
  | ReadLastRx => let% c := last_rx_cycle_counter_p in Done (RCounter c)
  | ReadInput slot subslot => let% d := get_input_data_p slot subslot in Done (RInput d)
  | ReadInputAllowBad slot subslot => let% d := get_input_data_allow_bad_p slot subslot in Done (RInput d)
  | ReadInputStatus slot subslot => let% v := get_input_status_p slot subslot in Done (RInputStatus v)
  | ReadInputGood slot subslot => let% b := is_input_good_p slot subslot in Done (RFlag b)
  end.

Definition write_output (slot subslot : Z) (d : list Z) : M (option string) :=
  let* b := gets output_builder in
  match set_data b slot subslot d with
  | Err e => ret (Some e)
  | o =>
      let* b := lift o in
      do* modify (set_output_builder b);
      do* with_builder (fun b => set_iops b slot subslot IOXS_GOOD);
      ret None
  end.

Definition set_output_data_p (slot subslot : Z) (d : list Z) : prog (option string) :=
  let% st := locked LState (gets state) in
  if output_writes_locked st then
    Done (Some ("Cannot set output data in " +:+ as_str st +:+ " state"))
  else locked LOutputBuilder (write_output slot subslot d).

(** Calls that borrow the controller: any number at a time. *)
Inductive SharedCall :=
| CallRead (r : Reading)
| CallSetOutput (slot subslot : Z) (d : list Z)
| CallSetSafe (slot subslot : Z) (d : list Z)
| CallRegister (f : Callbacks -> Callbacks).

Definition shared_call (c : SharedCall) : prog Reply :=
  match c with
  | CallRead r => read_p r
  | CallSetOutput slot subslot d => let% r := set_output_data_p slot subslot d in Done (RResult r)
  | CallSetSafe slot subslot d =>
      do% locked LSafeOutput (set_safe_output_ slot subslot d); Done RNone
  | CallRegister f => do% locked LCallbacks (register f); Done RNone
  end.

(** The owner's [tx_thread] and [rx_thread]. *)
Record Handles := { tx_handle : option nat; rx_handle : option nat }.

(** The answers of the system calls of [start], and the clock. *)
Record StartEnv := {
  reset_now : Z; open_tx : option string; open_rx : option string;
  spawn_tx : option string; spawn_rx : option string; tx_now : Z; rx_now : Z;
}.

Definition start_p (h : Handles) (e : StartEnv) : prog (Handles * option string) :=
  let% st := locked LState (gets state) in
  if negb (startable st) then Done (h, Some ("Cannot start from " +:+ as_str st +:+ " state"))
  else
    do% transition_p Starting;
    do% atomic (modify (set_running true));
    do% locked LStats (modify_stats (fun _ => stats_new (reset_now e)));
    do% atomic (modify (set_ever_faulted false));
    do% locked LLastRx (modify (set_last_rx_cycle_counter None));
    match open_tx e with
    | Some err => Done (h, Some err)
    | None =>
        match open_rx e with
        | Some err => Done (h, Some err)
        | None =>
            do% locked LOutputBuilder (with_builder swap);
            match spawn_tx e with
            | Some err => Done (h, Some ("failed to spawn TX thread: " +:+ err))
            | None => Spawn (SpawnTx (tx_now e)) (fun tx =>
                match spawn_rx e with
                | Some err =>
                    Done ({| tx_handle := Some tx; rx_handle := rx_handle h |},
                          Some ("failed to spawn RX thread: " +:+ err))
                | None => Spawn (SpawnRx (rx_now e)) (fun rx =>
                    do% transition_p Running;
                    Done ({| tx_handle := Some tx; rx_handle := Some rx |}, None))
                end)
            end
        end
    end.

Definition stop_p (h : Handles) (sends : Z -> bool) : prog Handles :=
  do% apply_safe_output_p;
  let% run := atomic (gets running) in
  if negb run then Done h
  else
    do% transition_p Stopping;
    do% atomic (modify (set_running false));
    do% match tx_handle h with
        | Some t => Join t (stop_frames_p (sends <$> seqZ 0 STOP_FRAME_COUNT))
        | None => Done tt
        end;
    do% match rx_handle h with Some t => Join t (Done tt) | None => Done tt end;
    do% transition_p Stopped;
    Done {| tx_handle := None; rx_handle := None |}.

(** Calls that need the controller for themselves; [Drop] is a stop. *)
Inductive ExclusiveCall :=
| CallStart (e : StartEnv)
| CallStop (sends : Z -> bool)
| CallStopSafe (slot subslot : Z) (d : list Z) (sends : Z -> bool).

Definition exclusive_call (h : Handles) (c : ExclusiveCall) : prog (Handles * Reply) :=
  match c with
  | CallStart e => let% r := start_p h e in Done (fst r, RResult (snd r))
  | CallStop sends => let% h' := stop_p h sends in Done (h', RNone)
  | CallStopSafe slot subslot d sends =>
      do% locked LSafeOutput (set_safe_output_ slot subslot d);
      let% h' := stop_p h sends in Done (h', RNone)
  end.

(** ** The scheduler *)

Inductive Role := Owner | Caller | TxLoop | RxLoop.

(** Where a thread is between two passes or calls. *)
Inductive Cont :=
| NextTx (l : TxLocal)
| NextRx (stay : bool)
| NextOwner (h : Handles) (r : Reply)
| NextCaller (r : Reply).

Record thread := mkThread {
  role : Role;
  held : list Lock;
  code : prog Cont;
  ended : bool;
}.

(** An event, the thread it came from and the locks that thread held. *)
Record Entry := mkEntry { by_thread : nat; under : list Lock; what : Event }.

Record Config := mkConfig { sh : Shared; threads : list thread; trace : list Entry }.

(** What the scheduler decides for the thread it picks: a step of its code
    ([Go]), or the next pass or call with the answers of sockets and clock. *)
Inductive choice :=
| Go
| TxTurn (now : Z) (send : option string)
| RxTurn (r : RecvResult) (t1 t2 t3 : Z)
| Call (c : SharedCall)
| Own (c : ExclusiveCall).

Definition at_head (t : thread) : bool :=
  match code t with Done _ => true | _ => false end.

(** The borrow checker's rule: an exclusive call excludes the shared ones. *)
Definition resting (r : Role) (ts : list thread) : bool :=
  forallb (fun t => match role t, r with
                    | Owner, Owner | Caller, Caller => at_head t
                    | _, _ => true
                    end) ts.

Definition lock_free (l : Lock) (ts : list thread) : bool :=
  forallb (fun t => negb (bool_decide (l ∈ held t))) ts.

Inductive start_of := Pass (p : prog Cont) | Leave.

(** The loops read [running] before every pass; a receive loop that broke out
    is done. *)
Definition begin (c : Config) (k : Cont) (ch : choice) : option start_of :=
  match k, ch with
  | NextTx l, TxTurn now send =>
      Some (if running (sh c) then Pass (let% l' := tx_pass_p now send l in Done (NextTx l'))
            else Leave)
  | NextRx true, RxTurn r t1 t2 t3 =>
      Some (if running (sh c) then Pass (let% stay := rx_pass_p r t1 t2 t3 in Done (NextRx stay))
            else Leave)
  | NextRx false, RxTurn _ _ _ _ => Some Leave
  | NextCaller _, Call call =>
      if resting Owner (threads c)
      then Some (Pass (let% r := shared_call call in Done (NextCaller r))) else None
  | NextOwner h _, Own call =>
      if resting Caller (threads c)
      then Some (Pass (let% r := exclusive_call h call in Done (NextOwner (fst r) (snd r)))) else None
  | _, _ => None
  end.

Definition spawned (x : Spawned) : thread :=
  match x with
  | SpawnTx now => mkThread TxLoop [] (Done (NextTx (tx_start now))) false
  | SpawnRx now => mkThread RxLoop [] (do% rx_start_p now; Done (NextRx true)) false
  end.

Definition has_ended (t : nat) (ts : list thread) : bool :=
  match ts !! t with Some t => ended t | None => false end.

Definition put (i : nat) (t : thread) (c : Config) : Config :=
  mkConfig (sh c) (<[i := t]> (threads c)) (trace c).

Definition release (l : Lock) (h : list Lock) : list Lock := filter (fun x => x <> l) h.

(** One step of thread [i]; a choice that does not fit, and a thread that has
    to wait, leave the configuration as it is. *)
Definition step (c : Config) (i : nat) (ch : choice) : outcome Config :=
  match threads c !! i with
  | None => Ok c
  | Some t =>
      if ended t then Ok c else
      let goes p := mkThread (role t) (held t) p false in
      match code t, ch with
      | Done k, _ =>
          match begin c k ch with
          | Some (Pass p) => Ok (put i (goes p) c)
          | Some Leave => Ok (put i (mkThread (role t) (held t) (Done k) true) c)
          | None => Ok c
          end
      | Do m k, Go =>
          let? r := m (sh c) in
          let '(b, s, ev) := r in
          Ok (mkConfig s (<[i := goes (k b)]> (threads c))
                (trace c ++ (mkEntry i (held t) <$> ev)))
      | Lck l p, Go =>
          Ok (if lock_free l (threads c) then put i (mkThread (role t) (l :: held t) p false) c else c)
      | Unl l p, Go =>
          Ok (put i (mkThread (role t) (release l (held t)) p false) c)
      | Spawn x k, Go =>
          Ok (mkConfig (sh c) (<[i := goes (k (length (threads c)))]> (threads c) ++ [spawned x])
                (trace c))
      | Join n p, Go => Ok (if has_ended n (threads c) then put i (goes p) c else c)
      | _, _ => Ok c
      end
  end.

Definition schedule := list (nat * choice).

Fixpoint run (l : schedule) (c : Config) : outcome Config :=
  match l with
  | [] => Ok c
  | (i, ch) :: l => let? c' := step c i ch in run l c'
  end.

(** A controller nobody has started: its owner and [n] other borrowers. *)
Definition no_handles : Handles := {| tx_handle := None; rx_handle := None |}.
Definition owner_thread : thread := mkThread Owner [] (Done (NextOwner no_handles RNone)) false.
Definition caller_thread : thread := mkThread Caller [] (Done (NextCaller RNone)) false.
Definition fresh (s : Shared) (n : nat) : Config :=
  mkConfig s (owner_thread :: replicate n caller_thread) [].

Lemma run_app l1 l2 c : run (l1 ++ l2) c = let? c' := run l1 c in run l2 c'.
Proof.
  revert c. induction l1 as [|[i ch] l1 IH]; intros c; cbn [app run bind]; [done|].
  destruct (step c i ch); cbn [bind]; [apply IH|done..].
Qed.

(** ** A program run without interruption *)

Fixpoint whole {A} (p : prog A) : M A :=
  match p with
  | Done a => ret a
  | Do m k => bindM m (fun b => whole (k b))
  | Lck _ p | Unl _ p => whole p
  | Spawn _ _ | Join _ _ => fun _ => Panic
  end.

(** Actions that do the same. *)
Definition meq {A} (m m' : M A) : Prop := forall s, m s = m' s.
Infix "≈" := meq (at level 70) : rust_scope.

#[global] Instance meq_equiv {A} : Equivalence (@meq A).
Proof. split; [by intros m s|by intros m m' H s|intros a b c H1 H2 s; by rewrite H1]. Qed.
#[global] Instance bindM_proper {A B} :
  Proper (meq ==> pointwise_relation A meq ==> meq) (@bindM A B).
Proof.
  intros m m' Hm k k' Hk s. unfold bindM. rewrite Hm. destruct (m' s) as [[[a s1] e1]| | |]; cbn; try done.
  by rewrite (Hk a).
Qed.
#[global] Instance whenM_proper b : Proper (meq ==> meq) (whenM b).
Proof. intros m m' H s. destruct b; cbn; [apply H|done]. Qed.

Lemma bindM_ret_l {A B} (a : A) (k : A -> M B) : bindM (ret a) k ≈ k a.
Proof. intros s. unfold bindM, ret. cbn. by destruct (k a s) as [[[b s2] e2]| | |]. Qed.
Lemma bindM_ret_r {A} (m : M A) : bindM m ret ≈ m.
Proof. intros s. unfold bindM, ret. destruct (m s) as [[[b s2] e2]| | |]; cbn; try done. by rewrite app_nil_r. Qed.
Lemma bindM_unit (m : M unit) : bindM m (fun _ => ret tt) ≈ m.
Proof. etransitivity; [|apply bindM_ret_r]. by apply bindM_proper; [|intros []]. Qed.
Lemma bindM_assoc {A B C} (m : M A) (k : A -> M B) (j : B -> M C) :
  bindM (bindM m k) j ≈ bindM m (fun a => bindM (k a) j).
Proof.
  intros s. unfold bindM. destruct (m s) as [[[a s1] e1]| | |]; cbn; try done.
  destruct (k a s1) as [[[b s2] e2]| | |]; cbn; try done.
  destruct (j b s2) as [[[c s3] e3]| | |]; cbn; try done. by rewrite app_assoc.
Qed.

(** No [Spawn] and no [Join]. *)
Fixpoint local {A} (p : prog A) : Prop :=
  match p with
  | Done _ => True
  | Do m k => forall b, local (k b)
  | Lck _ p | Unl _ p => local p
  | Spawn _ _ | Join _ _ => False
  end.

Lemma whole_bind {A B} (p : prog A) (f : A -> prog B) :
  local p -> whole (bindP p f) ≈ bindM (whole p) (fun a => whole (f a)).
Proof.
  induction p as [a|C m k IH|l p IH|l p IH|x k IH|t p IH]; cbn [bindP whole local]; intros Hl; try done.
  - by rewrite bindM_ret_l.
  - rewrite bindM_assoc. apply bindM_proper; [done|]. intros b. by apply IH.
  - by apply IH.
  - by apply IH.
Qed.

(** ** The programs are the actions of [Cyclic] *)

Create HintDb prog.

Lemma local_bind {A B} (p : prog A) (f : A -> prog B) :
  local p -> (forall a, local (f a)) -> local (bindP p f).
Proof. intros Hp Hf. induction p; cbn in *; auto. Qed.
Lemma local_locked {A} l (m : M A) : local (locked l m).
Proof. done. Qed.
Lemma local_atomic {A} (m : M A) : local (atomic m).
Proof. done. Qed.
Lemma local_whenP b p : local p -> local (whenP b p).
Proof. by destruct b. Qed.
Lemma local_done {A} (a : A) : local (Done a).
Proof. done. Qed.
#[export] Hint Resolve local_bind local_locked local_atomic local_whenP local_done : prog.

(** Follows a program's structure, a case for each branch. *)
Ltac local_step :=
  match goal with
  | |- local (bindP _ _) => apply local_bind; [|intros ?]
  | |- local (match ?x with _ => _ end) => destruct x
  | |- local (let _ := _ in _) => cbv zeta
  | |- _ => solve [eauto with prog]
  end.
Ltac local_auto := repeat local_step.

Lemma local_transition st : local (transition_p st).
Proof. unfold transition_p. local_auto. Qed.
Lemma local_error e : local (emit_error_p e).
Proof. unfold emit_error_p. local_auto. Qed.
Lemma local_frame st : local (next_output_frame_p st).
Proof. unfold next_output_frame_p. local_auto. Qed.
Lemma local_track c : local (track_cycle_counter_p c).
Proof. intros last. by destruct last. Qed.
Lemma local_fire l : local (fire_all l).
Proof. induction l; cbn [fire_all]; auto with prog. Qed.
#[export] Hint Resolve local_transition local_error local_frame local_track local_fire : prog.
Lemma local_process now d : local (process_input_frame_p now d).
Proof. unfold process_input_frame_p, accept_frame_p, store_inputs_p. local_auto. Qed.
Lemma local_watchdog w a b : local (check_receive_watchdog_p w a b).
Proof. unfold check_receive_watchdog_p, handle_watchdog_timeout_p. auto 20 with prog. Qed.
#[export] Hint Resolve local_process local_watchdog : prog.
Lemma local_rx_pass r t1 t2 t3 : local (rx_pass_p r t1 t2 t3).
Proof. unfold rx_pass_p. apply local_bind; [auto with prog|]. intros w. destruct r; auto 20 with prog. Qed.
Lemma local_tx_pass now send l : local (tx_pass_p now send l).
Proof. unfold tx_pass_p. local_auto. Qed.
#[export] Hint Resolve local_rx_pass local_tx_pass : prog.

Lemma whole_locked {A} l (m : M A) : whole (locked l m) ≈ m.
Proof. cbn. apply bindM_ret_r. Qed.
Lemma whole_atomic {A} (m : M A) : whole (atomic m) ≈ m.
Proof. cbn. apply bindM_ret_r. Qed.
Lemma whole_whenP b p : whole (whenP b p) ≈ whenM b (whole p).
Proof. by destruct b. Qed.

(** Sequencing: the program's parts against the action's. *)
Lemma whole_seq {A B} (p : prog A) (f : A -> prog B) m k :
  local p -> whole p ≈ m -> (forall a, whole (f a) ≈ k a) -> whole (bindP p f) ≈ bindM m k.
Proof. intros Hl Hp Hf. rewrite whole_bind by done. by apply bindM_proper. Qed.
(** The same with an action that goes on inside a sequence. *)
Lemma whole_seq_assoc {A B C} (p : prog A) (f : A -> prog C) m (k : A -> M B) (j : B -> M C) :
  local p -> whole p ≈ m -> (forall a, whole (f a) ≈ bindM (k a) j) ->
  whole (bindP p f) ≈ bindM (bindM m k) j.
Proof. intros Hl Hp Hf. rewrite bindM_assoc. by apply whole_seq. Qed.

Lemma whole_transition st : whole (transition_p st) ≈ transition st.
Proof.
  intros s. unfold transition_p, transition, locked, swap_state, whenP, atomic.
  cbn -[state_eqb emit]. unfold bindM, gets, ret, modify, emit, whenM. cbn -[state_eqb].
  destruct (state_eqb (state s) st) eqn:E; cbn -[state_eqb]; [done|].
  destruct (state_eqb st Fault) eqn:F; cbn -[state_eqb]; by destruct (on_state_change (callbacks s)).
Qed.
Lemma whole_error e : whole (emit_error_p e) ≈ emit_error e.
Proof.
  unfold emit_error_p, emit_error. apply whole_seq; [auto with prog|apply whole_locked|].
  intros cb. rewrite whole_whenP. by rewrite whole_atomic.
Qed.
Lemma whole_frame st : whole (next_output_frame_p st) ≈ next_output_frame st.
Proof.
  intros s. unfold next_output_frame_p, next_output_frame, advance_counter, commit_image, with_builder.
  cbn -[swap build]. unfold bindM, gets, modify, ret, lift. cbn -[swap build].
  by destruct (swap (output_builder s)).
Qed.
Lemma whole_track c : whole (track_cycle_counter_p c) ≈ track_cycle_counter c.
Proof.
  unfold track_cycle_counter_p, track_cycle_counter. cbn [whole]. apply bindM_proper; [done|].
  intros [prev|]; cbn [whole]; apply bindM_unit.
Qed.

Lemma whole_fire l : whole (fire_all l) ≈ emit_all l.
Proof.
  induction l as [|e l IH]; [done|]. cbn [fire_all]. intros s. rewrite whole_bind by done.
  unfold bindM. cbn. unfold bindM, emit. cbn. rewrite IH. done.
Qed.
Lemma whole_store p : whole (store_inputs_p p) ≈ store_inputs p.
Proof.
  unfold store_inputs_p, store_inputs. apply whole_seq; [auto with prog|apply whole_locked|]. intros cbs.
  etransitivity; [apply whole_bind; auto with prog|]. rewrite whole_locked. unfold store_objects.
  rewrite bindM_assoc. apply bindM_proper; [done|]. intros objs.
  rewrite bindM_assoc. apply bindM_proper; [done|]. intros d.
  rewrite bindM_assoc. apply bindM_proper; [done|]. intros acc.
  rewrite bindM_assoc. apply bindM_proper; [done|]. intros [].
  rewrite bindM_ret_l. rewrite whole_bind by auto with prog. rewrite whole_whenP, whole_fire.
  apply bindM_proper; [done|]. intros []. by rewrite whole_whenP, whole_fire.
Qed.
(** The lock is taken only when it is needed; the read has no effect. *)
Lemma gets_unused {A B} (f : Shared -> A) (m : M B) : bindM (gets f) (fun _ => m) ≈ m.
Proof. intros s. unfold bindM, gets. cbn. by destruct (m s) as [[[b s2] e2]| | |]. Qed.

Lemma gets_map {A B C} (f : Shared -> A) (g : A -> B) (k : B -> M C) :
  bindM (gets (fun s => g (f s))) k ≈ bindM (gets f) (fun a => k (g a)).
Proof. done. Qed.

Lemma whole_accept now f : whole (accept_frame_p now f) ≈ accept_frame now f.
Proof.
  unfold accept_frame_p, accept_frame. cbv zeta.
  apply whole_seq; [done|apply whole_atomic|]. intros target.
  apply whole_seq; [done|apply whole_locked|]. intros [].
  etransitivity; [|apply bindM_assoc]. apply whole_seq.
  { apply local_whenP, local_bind; auto with prog. }
  { destruct (frame_is_alive f); cbn [whenP andb].
    - apply whole_seq; [auto with prog|apply whole_locked|]. intros st. by rewrite whole_whenP, whole_transition.
    - by rewrite gets_unused. }
  intros []. apply whole_seq; [auto with prog|apply whole_track|]. intros [].
  destruct (frame_is_alive f); cbn [negb]; [|apply whole_locked].
  apply whole_seq; [auto with prog|apply whole_locked|]. intros []. apply whole_store.
Qed.
Lemma whole_process now d : whole (process_input_frame_p now d) ≈ process_input_frame now d.
Proof.
  unfold process_input_frame_p, process_input_frame. etransitivity; [by apply whole_bind|].
  rewrite whole_atomic. unfold filter_frame. destruct (len d <? 18); [by rewrite bindM_ret_l|].
  rewrite bindM_assoc. apply bindM_proper; [done|]. intros mac.
  rewrite bindM_assoc. apply bindM_proper; [done|]. intros dst.
  destruct (negb _); [by rewrite bindM_ret_l|].
  rewrite bindM_assoc. apply bindM_proper; [done|]. intros [frame|]; [|by rewrite bindM_ret_l].
  rewrite bindM_assoc. apply bindM_proper; [done|]. intros fid.
  destruct (negb _); rewrite bindM_ret_l; [done|apply whole_accept].
Qed.
Lemma whole_timeout : whole handle_watchdog_timeout_p ≈ handle_watchdog_timeout.
Proof.
  unfold handle_watchdog_timeout_p, handle_watchdog_timeout, count_timeout.
  etransitivity; [apply whole_bind; auto with prog|]. rewrite whole_locked.
  do 3 (rewrite bindM_assoc; apply bindM_proper; [done|]; intros []).
  apply bindM_proper; [done|]. intros n.
  apply whole_seq; [auto with prog|apply whole_atomic|]. intros max.
  apply whole_seq; [auto with prog|by rewrite whole_whenP, whole_locked|]. intros [].
  apply whole_seq; [auto with prog|apply whole_locked|]. intros cb.
  apply whole_seq; [auto with prog|by rewrite whole_whenP, whole_atomic|]. intros [].
  rewrite whole_whenP. destruct ((0 <? max) && (max <=? n)); cbn [andb whenM]; [|by rewrite gets_unused].
  apply whole_seq; [auto with prog|apply whole_locked|]. intros st. rewrite whole_whenP.
  apply whenM_proper, whole_seq; [auto with prog|apply whole_transition|]. intros []. apply whole_error.
Qed.
Lemma whole_watchdog w a b : whole (check_receive_watchdog_p w a b) ≈ check_receive_watchdog w a b.
Proof.
  unfold check_receive_watchdog_p, check_receive_watchdog.
  apply whole_seq; [auto with prog|apply whole_locked|]. intros last. rewrite whole_whenP.
  apply whenM_proper, whole_seq; [unfold handle_watchdog_timeout_p; auto 20 with prog|apply whole_timeout|].
  intros []. apply whole_locked.
Qed.

(** The passes of the loops, run without interruption, are those of [Cyclic]. *)
Lemma whole_rx_pass r t1 t2 t3 : whole (rx_pass_p r t1 t2 t3) ≈ rx_pass r t1 t2 t3.
Proof.
  unfold rx_pass_p, rx_pass. etransitivity; [by apply whole_bind|]. rewrite whole_atomic.
  rewrite (gets_map input_iocr (fun c => watchdog_time_us c * 1000)). apply bindM_proper; [done|]. intros cfg.
  destruct r as [d| |e].
  - apply whole_seq; [auto with prog|apply whole_process|]. intros [].
    apply whole_seq; [auto with prog|apply whole_watchdog|]. by intros [].
  - apply whole_seq; [auto with prog|done|]. intros [].
    apply whole_seq; [auto with prog|apply whole_watchdog|]. by intros [].
  - apply whole_seq; [auto with prog|apply whole_atomic|]. intros r.
    apply whole_seq; [auto 20 with prog| |by intros []].
    rewrite whole_whenP. apply whenM_proper, whole_seq; [auto with prog|apply whole_error|]. intros [].
    apply whole_seq; [auto with prog|apply whole_locked|]. intros st. by rewrite whole_whenP, whole_transition.
Qed.
Lemma whole_tx_pass now send l : whole (tx_pass_p now send l) ≈ tx_pass now send l.
Proof.
  unfold tx_pass_p, tx_pass. destruct (next_send l <=? now); [|done].
  apply whole_seq; [auto with prog|apply whole_atomic|]. intros cycle.
  apply whole_seq; [auto with prog|apply whole_frame|]. intros f.
  apply whole_seq; [destruct send; auto with prog|destruct send; [apply whole_error|apply whole_atomic]|]. intros [].
  apply whole_seq; [auto with prog|apply whole_locked|]. intros [].
  apply whole_seq; [auto with prog|by rewrite whole_whenP, whole_locked|]. by intros [].
Qed.
Lemma whole_apply_safe : whole apply_safe_output_p ≈ apply_safe_output.
Proof.
  unfold apply_safe_output_p, apply_safe_output. cbn [whole]. apply bindM_proper; [done|].
  intros [[[sl ss] d]|]; cbn [whole]; [|done]. etransitivity; [apply whole_bind; auto with prog|].
  rewrite whole_locked. unfold apply_image. rewrite bindM_assoc. apply bindM_proper; [done|]. intros b.
  assert (Hend : forall m, bindM (bindM m (fun _ : unit => ret None)) (fun failed =>
      whole (do% match failed with
                 | Some e => emit_error_p ("safe output not applied: " +:+ e)
                 | None => Done tt
                 end; Unl LSafeOutput (Done tt))) ≈ m).
  { intros m. rewrite bindM_assoc. etransitivity; [|apply bindM_unit]. apply bindM_proper; [done|].
    intros []. by rewrite bindM_ret_l. }
  destruct (set_data b sl ss d) as [b'|e| |].
  2: { rewrite bindM_ret_l, whole_bind by auto with prog. rewrite whole_error. apply bindM_unit. }
  all: rewrite bindM_assoc; apply bindM_proper; [done|]; intros b''.
  all: rewrite bindM_assoc; apply bindM_proper; [done|]; intros [].
  all: rewrite bindM_assoc; apply bindM_proper; [done|]; intros []; apply Hend.
Qed.
Lemma whole_stop_frames sends : whole (stop_frames_p sends) ≈ stop_frames_loop sends.
Proof.
  induction sends as [|ok sends IH]; [done|]. cbn [stop_frames_p stop_frames_loop].
  apply whole_seq; [auto with prog|apply whole_locked|]. intros [].
  apply whole_seq; [auto with prog|apply whole_frame|]. intros f. destruct (negb ok); [done|].
  apply whole_seq; [auto with prog|apply whole_atomic|]. intros [].
  apply whole_seq; [auto with prog|apply whole_locked|]. intros []. apply IH.
Qed.
Lemma whole_set_output sl ss d : whole (set_output_data_p sl ss d) ≈ set_output_data sl ss d.
Proof.
  unfold set_output_data_p, set_output_data.
  apply whole_seq; [auto with prog|apply whole_locked|]. intros st. destruct (output_writes_locked st); [done|].
  apply whole_locked.
Qed.

(** ** The order of the locks *)

(** Locks are taken in increasing rank: [safe_output] around the builder or
    the registry, [last_rx_cycle_counter] around the statistics. *)
Definition rank (l : Lock) : nat :=
  match l with
  | LSafeOutput => 0 | LLastRx => 1 | LState => 2 | LCycleCounter => 3 | LOutputBuilder => 4
  | LInputData => 5 | LCallbacks => 6 | LStats => 7
  end.

(** From holding [h] the program takes its locks in order, releases the last
    one taken first, spawns and joins with none held, and ends holding [h']. *)
Fixpoint ordered {A} (h : list Lock) (p : prog A) (h' : list Lock) : Prop :=
  match p with
  | Done _ => h = h'
  | Do m k => forall b, ordered h (k b) h'
  | Lck l p => Forall (fun x => rank x < rank l)%nat h /\ ordered (l :: h) p h'
  | Unl l p => exists h1, h = l :: h1 /\ ordered h1 p h'
  | Spawn x k => h = [] /\ forall n, ordered h (k n) h'
  | Join t p => h = [] /\ ordered h p h'
  end.

Lemma ordered_bind {A B} (p : prog A) (f : A -> prog B) h1 h2 : forall h,
  ordered h p h1 -> (forall a, ordered h1 (f a) h2) -> ordered h (bindP p f) h2.
Proof.
  induction p as [a|C m k IH|l p IH|l p IH|x k IH|t p IH]; cbn; intros h Hp Hf.
  - by subst.
  - intros b. by apply IH.
  - destruct Hp as [H1 H2]. split; [done|]. by apply IH.
  - destruct Hp as (h3 & -> & Hp). exists h3. split; [done|]. by apply IH.
  - destruct Hp as [H1 H2]. split; [done|]. intros n. by apply IH.
  - destruct Hp as [H1 H2]. split; [done|]. by apply IH.
Qed.
(** Nothing held, or a lock of the lowest rank of all others. *)
Definition low (h : list Lock) : Prop := Forall (fun x => rank x < 2)%nat h.
Lemma low_nil : low [].
Proof. constructor. Qed.
Lemma ordered_locked {A} l (m : M A) h :
  Forall (fun x => rank x < rank l)%nat h -> ordered h (locked l m) h.
Proof. intros H. split; [done|]. intros b. by exists h. Qed.
Lemma ordered_high {A} l (m : M A) h : low h -> (2 <= rank l)%nat -> ordered h (locked l m) h.
Proof. intros Hh Hl. apply ordered_locked. eapply Forall_impl; [exact Hh|]. cbn. lia. Qed.
Lemma ordered_free {A} l (m : M A) : ordered [] (locked l m) [].
Proof. by apply ordered_locked. Qed.
Lemma ordered_atomic {A} (m : M A) h : ordered h (atomic m) h.
Proof. done. Qed.
Lemma ordered_whenP b p h : ordered h p h -> ordered h (whenP b p) h.
Proof. by destruct b. Qed.
Lemma ordered_done {A} (a : A) h : ordered h (Done a) h.
Proof. done. Qed.
#[export] Hint Resolve ordered_locked ordered_free ordered_atomic ordered_whenP ordered_done low_nil : prog.
#[export] Hint Extern 1 (ordered _ (bindP _ _) _) => eapply ordered_bind; [|intros ?] : prog.
#[export] Hint Extern 1 (ordered _ (locked _ _) _) => apply ordered_high; [assumption|cbn; lia] : prog.

Lemma ordered_transition st h : low h -> ordered h (transition_p st) h.
Proof.
  intros Hh. unfold transition_p. apply (ordered_bind _ _ h); [auto with prog|].
  intros [old|]; [|done]. auto 10 with prog.
Qed.
Lemma ordered_error e h : low h -> ordered h (emit_error_p e) h.
Proof. intros Hh. unfold emit_error_p. auto with prog. Qed.
Lemma ordered_frame st : ordered [] (next_output_frame_p st) [].
Proof. unfold next_output_frame_p. auto 10 with prog. Qed.
Lemma ordered_track c : ordered [] (track_cycle_counter_p c) [].
Proof.
  split; [done|]. intros [prev|]; cbn.
  - split; [repeat constructor|]. intros _. exists [LLastRx]. split; [done|]. by exists [].
  - intros _. by exists [].
Qed.
Lemma ordered_fire l : ordered [] (fire_all l) [].
Proof. induction l; cbn [fire_all]; [done|]. by eapply ordered_bind. Qed.
#[export] Hint Resolve ordered_transition ordered_error ordered_frame ordered_track ordered_fire : prog.
Lemma ordered_process now d : ordered [] (process_input_frame_p now d) [].
Proof.
  unfold process_input_frame_p. eapply ordered_bind; [apply ordered_atomic|]. intros [f|]; [|done].
  unfold accept_frame_p, store_inputs_p. cbv zeta. destruct (frame_is_alive f); cbn [negb]; auto 20 with prog.
Qed.
Lemma ordered_timeout : ordered [] handle_watchdog_timeout_p [].
Proof. unfold handle_watchdog_timeout_p. auto 30 with prog. Qed.
#[export] Hint Resolve ordered_timeout : prog.
Lemma ordered_watchdog w a b : ordered [] (check_receive_watchdog_p w a b) [].
Proof. unfold check_receive_watchdog_p. auto 30 with prog. Qed.
#[export] Hint Resolve ordered_process ordered_watchdog : prog.
Lemma ordered_rx_pass r t1 t2 t3 : ordered [] (rx_pass_p r t1 t2 t3) [].
Proof. unfold rx_pass_p. eapply ordered_bind; [apply ordered_atomic|]. intros w. destruct r; auto 20 with prog. Qed.
Lemma ordered_tx_pass now send l : ordered [] (tx_pass_p now send l) [].
Proof. unfold tx_pass_p. destruct (next_send l <=? now); [|done]. destruct send; auto 20 with prog. Qed.
Lemma ordered_apply_safe : ordered [] apply_safe_output_p [].
Proof.
  split; [done|]. intros [[[sl ss] d]|]; [|by exists []].
  assert (Hl : low [LSafeOutput]) by (repeat constructor).
  apply (ordered_bind _ _ [LSafeOutput]); [auto with prog|]. intros failed.
  apply (ordered_bind _ _ [LSafeOutput]); [destruct failed; auto with prog|]. intros []. by exists [].
Qed.
Lemma ordered_stop_frames sends : ordered [] (stop_frames_p sends) [].
Proof. induction sends as [|ok sends IH]; cbn [stop_frames_p]; [done|]. destruct (negb ok); auto 20 with prog. Qed.
#[export] Hint Resolve ordered_rx_pass ordered_tx_pass ordered_apply_safe ordered_stop_frames : prog.
Lemma ordered_stop h sends : ordered [] (stop_p h sends) [].
Proof.
  unfold stop_p. eapply ordered_bind; [auto with prog|]. intros []. eapply ordered_bind; [auto with prog|].
  intros run. destruct (negb run); [done|]. eapply ordered_bind; [auto with prog|]. intros [].
  eapply ordered_bind; [auto with prog|]. intros []. apply (ordered_bind _ _ []).
  { destruct (tx_handle h); [|done]. split; [done|auto with prog]. }
  intros []. apply (ordered_bind _ _ []); [by destruct (rx_handle h)|]. intros []. auto with prog.
Qed.
Lemma ordered_start h e : ordered [] (start_p h e) [].
Proof.
  unfold start_p. eapply ordered_bind; [auto with prog|]. intros st. destruct (negb _); [done|].
  eapply ordered_bind; [auto with prog|]. intros []. eapply ordered_bind; [auto with prog|]. intros [].
  eapply ordered_bind; [auto with prog|]. intros []. eapply ordered_bind; [auto with prog|]. intros [].
  eapply ordered_bind; [auto with prog|]. intros []. destruct (open_tx e), (open_rx e); try done.
  eapply ordered_bind; [auto with prog|]. intros []. destruct (spawn_tx e); [done|].
  split; [done|]. intros tx. destruct (spawn_rx e); [done|]. split; [done|]. intros rx. auto with prog.
Qed.
#[export] Hint Resolve ordered_stop ordered_start : prog.
Lemma ordered_set_output sl ss d : ordered [] (set_output_data_p sl ss d) [].
Proof.
  unfold set_output_data_p. eapply ordered_bind; [auto with prog|]. intros st.
  destruct (output_writes_locked st); auto with prog.
Qed.
#[export] Hint Resolve ordered_set_output : prog.
Lemma ordered_read r : ordered [] (read_p r) [].
Proof. destruct r; cbn; repeat (split; [constructor|]; intros; exists []); done. Qed.
Lemma ordered_shared_call c : ordered [] (shared_call c) [].
Proof. destruct c; cbn [shared_call]; [apply ordered_read|auto 10 with prog..]. Qed.
Lemma ordered_exclusive_call h c : ordered [] (exclusive_call h c) [].
Proof. destruct c; cbn [exclusive_call]; auto 10 with prog. Qed.
#[export] Hint Resolve ordered_shared_call ordered_exclusive_call : prog.

(** ** Running one thread alone *)

(** No thread but [i] holds a lock. *)
Definition others_idle (i : nat) (ts : list thread) : Prop :=
  forall j t, j <> i -> ts !! j = Some t -> held t = [].

Lemma others_idle_put i t ts : others_idle i ts -> others_idle i (<[i := t]> ts).
Proof. intros H j u Hj Hu. rewrite list_lookup_insert_ne in Hu by done. by apply (H j). Qed.

Lemma lock_free_alone i t ts l :
  others_idle i ts -> ts !! i = Some t -> Forall (fun x => rank x < rank l)%nat (held t) ->
  lock_free l ts = true.
Proof.
  intros Ho Hi Hr. unfold lock_free. apply forallb_forall. intros u Hu%list_elem_of_In.
  apply list_elem_of_lookup in Hu as [j Hj]. apply negb_true_iff, bool_decide_eq_false. intros Hin.
  destruct (decide (j = i)) as [->|Hne].
  - rewrite Hj in Hi. injection Hi as ->. rewrite Forall_forall in Hr. specialize (Hr l Hin). lia.
  - rewrite (Ho j u Hne Hj) in Hin. set_solver.
Qed.

(** The innermost lock is released, and it was taken once. *)
Lemma ordered_top_once l h : Forall (fun x => rank x < rank l)%nat h ->
  release l (l :: h) = h.
Proof.
  intros Hr. unfold release. rewrite filter_cons_False by (intros Hn; by apply Hn).
  induction Hr as [|x h Hx _ IH]; [done|]. rewrite filter_cons_True by (intros ->; lia). by rewrite IH.
Qed.

(** Locks held in order: each above all that were taken before it. *)
Fixpoint stacked (h : list Lock) : Prop :=
  match h with
  | [] => True
  | l :: h => Forall (fun x => rank x < rank l)%nat h /\ stacked h
  end.

Lemma run_go c i n : run (repeat (i, Go) (S n)) c = let? c' := step c i Go in run (repeat (i, Go) n) c'.
Proof. done. Qed.

(** A local program that owns what it holds, with every other lock free, runs
    to its end as its [whole] action does. *)
Lemma solo (p : prog Cont) : forall i c r h k s ev,
  threads c !! i = Some (mkThread r h p false) -> others_idle i (threads c) ->
  local p -> stacked h -> ordered h p [] -> whole p (sh c) = Ok (k, s, ev) ->
  exists n es, run (repeat (i, Go) n) c =
      Ok (mkConfig s (<[i := mkThread r [] (Done k) false]> (threads c)) (trace c ++ es)) /\
    what <$> es = ev /\ Forall (fun e => by_thread e = i) es.
Proof.
  induction p as [a|C m k0 IH|l p IH|l p IH|x k0 IH|t p IH]; intros i c r h k s ev Hi Ho Hl Hst Hord Hw;
    cbn [local ordered whole] in *; try done.
  - subst h. injection Hw as <- <- <-. exists 0%nat, []. split_and!; [|done|done]. cbn.
    rewrite list_insert_id, app_nil_r by done. by destruct c.
  - unfold bindM in Hw. apply bind_Ok_inv in Hw as ([[b s1] e1] & Hm & Hw).
    apply bind_Ok_inv in Hw as ([[k1 s2] e2] & Hk & [= <- <- <-]).
    set (c1 := mkConfig s1 (<[i := mkThread r h (k0 b) false]> (threads c)) (trace c ++ (mkEntry i h <$> e1))).
    assert (Hstep : step c i Go = Ok c1) by (unfold step; rewrite Hi; cbn; by rewrite Hm).
    destruct (IH b i c1 r h k1 s2 e2) as (n & es & Hrun & Hes & Hby); try done.
    { cbn. rewrite list_lookup_insert_eq; [done|]. by eapply lookup_lt_Some. }
    { by apply others_idle_put. }
    exists (S n), ((mkEntry i h <$> e1) ++ es). rewrite run_go, Hstep. cbn [bind]. rewrite Hrun. split_and!.
    + cbn [threads trace c1]. by rewrite list_insert_insert_eq, app_assoc.
    + rewrite fmap_app, Hes, <- list_fmap_compose. by rewrite list_fmap_id.
    + apply Forall_app. split; [|done]. apply Forall_fmap, Forall_true. done.
  - destruct Hord as [Hr Hord].
    set (c1 := put i (mkThread r (l :: h) p false) c).
    assert (Hstep : step c i Go = Ok c1).
    { unfold step. rewrite Hi. cbn. rewrite (lock_free_alone i (mkThread r h (Lck l p) false)) by done. done. }
    destruct (IH i c1 r (l :: h) k s ev) as (n & es & Hrun & Hes & Hby); try done.
    { cbn. rewrite list_lookup_insert_eq; [done|]. by eapply lookup_lt_Some. }
    { by apply others_idle_put. }
    exists (S n), es. rewrite run_go, Hstep. cbn [bind]. rewrite Hrun. cbn. by rewrite list_insert_insert_eq.
  - destruct Hord as (h1 & -> & Hord). destruct Hst as [Hr Hst].
    set (c1 := put i (mkThread r h1 p false) c).
    assert (Hstep : step c i Go = Ok c1).
    { unfold step. rewrite Hi. cbn -[release]. by rewrite (ordered_top_once l h1 Hr). }
    destruct (IH i c1 r h1 k s ev) as (n & es & Hrun & Hes & Hby); try done.
    { cbn. rewrite list_lookup_insert_eq; [done|]. by eapply lookup_lt_Some. }
    { by apply others_idle_put. }
    exists (S n), es. rewrite run_go, Hstep. cbn [bind]. rewrite Hrun. cbn. by rewrite list_insert_insert_eq.
Qed.

(** The turn of thread [i] with choice [ch], from the head [k] of its loop or
    of its next call, has an uninterrupted schedule that does what [act] does
    and ends at [k' a]. *)
Definition turn_does (ch : choice) (k : Cont) {A} (act : M A) (k' : A -> Cont) : Prop :=
  forall i r c a s ev,
    threads c !! i = Some (mkThread r [] (Done k) false) -> others_idle i (threads c) ->
    running (sh c) = true -> resting Owner (threads c) = true -> act (sh c) = Ok (a, s, ev) ->
    exists n es, run ((i, ch) :: repeat (i, Go) n) c =
        Ok (mkConfig s (<[i := mkThread r [] (Done (k' a)) false]> (threads c)) (trace c ++ es)) /\
      what <$> es = ev /\ Forall (fun e => by_thread e = i) es.

Lemma turn_intro ch k {A} (p : prog A) (act : M A) (k' : A -> Cont) :
  local p -> ordered [] p [] -> whole p ≈ act ->
  (forall c, running (sh c) = true -> resting Owner (threads c) = true ->
     begin c k ch = Some (Pass (let% a := p in Done (k' a)))) ->
  turn_does ch k act k'.
Proof.
  intros Hl Ho Hw Hb i r c a s ev Hi Hidle Hrun Hrest Hact.
  set (q := let% a := p in Done (k' a)). set (c1 := put i (mkThread r [] q false) c).
  assert (Hstep : step c i ch = Ok c1) by (unfold step; rewrite Hi; cbn; rewrite Hb by done; done).
  destruct (solo q i c1 r [] (k' a) s ev) as (n & es & Hr & Hes).
  - cbn. rewrite list_lookup_insert_eq; [done|]. by eapply lookup_lt_Some.
  - by apply others_idle_put.
  - apply local_bind; [done|]. auto with prog.
  - done.
  - eapply ordered_bind; [done|]. auto with prog.
  - unfold q. rewrite (whole_bind _ _ Hl _). unfold bindM. rewrite Hw. cbn [sh put c1]. rewrite Hact. cbn.
    by rewrite app_nil_r.
  - exists n, es. split; [|done]. cbn [run]. rewrite Hstep. cbn [bind]. rewrite Hr. cbn.
    by rewrite list_insert_insert_eq.
Qed.
