(* ===== verification/Schedules.v ===== *)
(** * What holds under every schedule ([src/src/cyclic.rs])

    A rely-guarantee logic for the programs of [Threads], and with it the
    theorems about the controller that no interleaving of its threads can
    break: no panic and no corrupted state, callbacks outside the locks, no
    deadlock, the order and the content of the STOP frames.  The schedules that
    do go wrong are exhibited at the end. *)

From S2P Require Import Prelude Fmt Util Gsdml Rt Cyclic Idle Threads.

#[local] Open Scope list_scope.
#[local] Open Scope Z_scope.

Create HintDb law.

(** ** The logic *)

(** What a thread can see of a configuration, and what the others see of it. *)
Record World := mkWorld { w_sh : Shared; w_trace : list Entry; w_threads : list (Role * bool) }.

Definition status (t : thread) : Role * bool := (role t, ended t).
Definition view (c : Config) : World := mkWorld (sh c) (trace c) (status <$> threads c).

Definition live (i : nat) (w : World) : Prop := exists r, w_threads w !! i = Some (r, false).
Definition is_ended (i : nat) (w : World) : Prop := exists r, w_threads w !! i = Some (r, true).

(** A thread's law: what it allows the others, what it promises them for a step
    that holds [h], which threads it may wait for, and whether it may spawn. *)
Record Law := {
  Rely : World -> World -> Prop;
  Guar : list Lock -> World -> World -> Prop;
  Joinable : nat -> World -> Prop;
  Spawns : Prop;
}.

Definition after (i : nat) (h : list Lock) (w : World) (s : Shared) (ev : list Event) : World :=
  mkWorld s (w_trace w ++ (mkEntry i h <$> ev)) (w_threads w).
Definition with_thread (x : Spawned) (w : World) : World :=
  mkWorld (w_sh w) (w_trace w) (w_threads w ++ [status (spawned x)]).
Definition left_loop (i : nat) (r : Role) (w : World) : World :=
  mkWorld (w_sh w) (w_trace w) (<[i := (r, true)]> (w_threads w)).

(** Thread [i], holding [h] in [w], keeps its law through [p] whatever the
    others do between its steps, and ends with [Q]. *)
Fixpoint okp {A} (L : Law) (i : nat) (h : list Lock) (p : prog A) (Q : A -> World -> Prop)
    (w : World) : Prop :=
  forall w1, Rely L w w1 ->
  match p with
  | Done a => Q a w1
  | Do m k => wpM m (w_sh w1) (fun b s ev =>
      Guar L h w1 (after i h w1 s ev) /\ okp L i h (k b) Q (after i h w1 s ev))
  | Lck l p => okp L i (l :: h) p Q w1
  | Unl l p => okp L i (release l h) p Q w1
  | Spawn x k =>
      Spawns L /\ Guar L h w1 (with_thread x w1) /\
      okp L i h (k (length (w_threads w1))) Q (with_thread x w1)
  | Join t p => Joinable L t w1 /\ (is_ended t w1 -> okp L i h p Q w1)
  end.

(** A rely that is a preorder. *)
Class LawOk (L : Law) : Prop := {
  law_refl : Reflexive (Rely L);
  law_trans : Transitive (Rely L);
}.
#[global] Existing Instance law_refl.
#[global] Existing Instance law_trans.

Lemma okp_rely {A} L i h (p : prog A) Q w w1 :
  LawOk L -> okp L i h p Q w -> Rely L w w1 -> okp L i h p Q w1.
Proof. intros HL Hp Hr. destruct p; cbn in *; intros w2 Hr2; apply Hp; by transitivity w1. Qed.

Lemma okp_mono {A} L i (p : prog A) (Q Q' : A -> World -> Prop) : forall h w,
  okp L i h p Q w -> (forall a w', Q a w' -> Q' a w') -> okp L i h p Q' w.
Proof.
  induction p as [a|C m k IH|l p IH|l p IH|x k IH|t p IH]; cbn; intros h w Hp HQ w1 Hr; specialize (Hp w1 Hr).
  - by apply HQ.
  - eapply wpM_mono; [exact Hp|]. cbn. intros b s ev [Hg Hk]. split; [done|]. by apply IH.
  - by apply IH.
  - by apply IH.
  - destruct Hp as (? & ? & Hk). split_and!; [done|done|]. by apply IH.
  - destruct Hp as [Hj Hk]. split; [done|]. intros He. apply IH; auto.
Qed.

Lemma okp_bind {A B} L i (p : prog A) (f : A -> prog B) Q : LawOk L -> forall h h1 w,
  ordered h p h1 -> okp L i h p (fun a w' => okp L i h1 (f a) Q w') w -> stacked h -> okp L i h (bindP p f) Q w.
Proof.
  intros HL. induction p as [a|C m k IH|l p IH|l p IH|x k IH|t p IH]; cbn [bindP ordered okp]; intros h h1 w Ho Hp Hs.
  - subst. by apply (Hp w).
  - intros w1 Hr. specialize (Hp w1 Hr). eapply wpM_mono; [exact Hp|]. cbn. intros b s ev [Hg Hk].
    split; [done|]. by eapply IH.
  - intros w1 Hr. destruct Ho as [Ho1 Ho2]. eapply IH; [done|by apply Hp|done].
  - intros w1 Hr. destruct Ho as (h2 & -> & Ho). specialize (Hp w1 Hr). destruct Hs as [Hs1 Hs2].
    rewrite ordered_top_once in Hp |- * by done. by eapply IH.
  - intros w1 Hr. destruct Ho as [-> Ho]. destruct (Hp w1 Hr) as (? & ? & Hk). split_and!; [done|done|]. by eapply IH.
  - intros w1 Hr. destruct Ho as [-> Ho]. destruct (Hp w1 Hr) as [Hj Hk]. split; [done|]. intros He. eapply IH; eauto.
Qed.

Lemma ordered_spawned x : ordered (held (spawned x)) (code (spawned x)) [].
Proof. destruct x; cbn [spawned held code]; [done|]. unfold rx_start_p. auto with prog. Qed.

(** ** Soundness *)

Section soundness.
(** The law of thread [i] in its role, what holds at its heads, what is true
      of every world, and the choices of the schedules considered. *)
Context (law : nat -> Role -> Law) (post : nat -> Role -> Cont -> World -> Prop).
Context (world_ok : World -> Prop) (allowed : choice -> Prop).

Definition thread_ok (i : nat) (t : thread) (w : World) : Prop :=
    okp (law i (role t)) i (held t) (code t) (post i (role t)) w /\
    ordered (held t) (code t) [] /\ stacked (held t).

Record sound (c : Config) : Prop := {
    sound_threads : forall i t, threads c !! i = Some t -> ended t = false -> thread_ok i t (view c);
    sound_ended : forall i t, threads c !! i = Some t -> ended t = true -> held t = [] /\ at_head t = true;
    sound_exclusive : forall i j ti tj l, threads c !! i = Some ti -> threads c !! j = Some tj ->
      l ∈ held ti -> l ∈ held tj -> i = j;
    sound_world : world_ok (view c);
  }.

Context (laws : forall i r, LawOk (law i r)).
#[local] Existing Instance laws.

(** What a step promises is what the others rely on. *)
Context (compatible : forall i j ri rj h w w', i <> j -> world_ok w ->
    w_threads w !! i = Some (ri, false) -> w_threads w !! j = Some (rj, false) ->
    Guar (law i ri) h w w' -> Rely (law j rj) w w').
(** Leaving a loop disturbs nobody. *)
Context (leaving : forall i j ri rj k w, i <> j -> world_ok w ->
    w_threads w !! i = Some (ri, false) -> w_threads w !! j = Some (rj, false) ->
    post i ri k w -> (exists c ch, begin c k ch = Some Leave) -> Rely (law j rj) w (left_loop i ri w)).
Context (leaving_ok : forall i ri k w, world_ok w -> w_threads w !! i = Some (ri, false) ->
    post i ri k w -> (exists c ch, begin c k ch = Some Leave) -> world_ok (left_loop i ri w)).
Context (promised : forall i ri h w w', world_ok w -> w_threads w !! i = Some (ri, false) ->
    Guar (law i ri) h w w' -> world_ok w').
(** A pass or a call starts well, and so does a spawned thread. *)
Context (beginning : forall i ri k c ch p, sound c -> allowed ch ->
    w_threads (view c) !! i = Some (ri, false) -> post i ri k (view c) -> begin c k ch = Some (Pass p) ->
    okp (law i ri) i [] p (post i ri) (view c) /\ ordered [] p []).
Context (spawning : forall i ri x w, world_ok w ->
    w_threads w !! i = Some (ri, false) -> Spawns (law i ri) -> Guar (law i ri) [] w (with_thread x w) ->
    let j := length (w_threads w) in let t := spawned x in
    okp (law j (role t)) j (held t) (code t) (post j (role t)) (with_thread x w)).

Lemma view_put i t t' c :
    threads c !! i = Some t -> status t' = status t -> view (put i t' c) = view c.
Proof.
    intros Hi Hs. unfold view, put. cbn. f_equal. rewrite list_fmap_insert, Hs, list_insert_id; [done|].
    by rewrite list_lookup_fmap, Hi.
Qed.

(** The other threads keep their law when the world moves as they allow. *)
Lemma other_ok c w' j t :
    sound c -> threads c !! j = Some t -> ended t = false ->
    Rely (law j (role t)) (view c) w' -> thread_ok j t w'.
Proof.
    intros Hc Hj He Hr. destruct (sound_threads c Hc j t Hj He) as (H1 & H2 & H3). split_and!; [|done|done].
    by eapply okp_rely.
Qed.

Lemma exclusive_put (i : nat) (t t' : thread) (ts : list thread) :
    (forall (i j : nat) ti tj l, ts !! i = Some ti -> ts !! j = Some tj -> l ∈ held ti -> l ∈ held tj -> i = j) ->
    ts !! i = Some t ->
    (forall (j : nat) u l, ts !! j = Some u -> l ∈ held t' -> l ∈ held u -> j = i \/ l ∈ held t) ->
    forall (j k : nat) tj tk l, <[i := t']> ts !! j = Some tj -> <[i := t']> ts !! k = Some tk ->
      l ∈ held tj -> l ∈ held tk -> j = k.
Proof.
    intros Hex Hi Ht j k tj tk l Hj Hk Hlj Hlk.
    apply list_lookup_insert_Some in Hj as [(E1 & <- & _)|[Hij Hj]];
      apply list_lookup_insert_Some in Hk as [(E & <- & _)|[Hik Hk]].
    - congruence.
    - rewrite <- E1. destruct (Ht k tk l Hk Hlj Hlk) as [|Hl]; [done|]. by apply (Hex i k t tk l).
    - rewrite <- E. destruct (Ht j tj l Hj Hlk Hlj) as [|Hl]; [done|]. by apply (Hex j i tj t l).
    - by apply (Hex j k tj tk l).
Qed.

(** A step that changes thread [i] only, in a world the others allow. *)
Lemma sound_put c i t t' s tr :
    sound c -> threads c !! i = Some t -> ended t = false -> status t' = status t ->
    let c' := mkConfig s (<[i := t']> (threads c)) tr in
    (forall j u l, threads c !! j = Some u -> l ∈ held t' -> l ∈ held u -> j = i \/ l ∈ held t) ->
    thread_ok i t' (mkWorld s tr (status <$> threads c)) ->
    (forall j u, j <> i -> threads c !! j = Some u -> ended u = false ->
       Rely (law j (role u)) (view c) (mkWorld s tr (status <$> threads c))) ->
    world_ok (mkWorld s tr (status <$> threads c)) ->
    sound c'.
Proof.
    intros Hc Hi He Hst c' Hl Ht Hr Hw.
    assert (Hv : view c' = mkWorld s tr (status <$> threads c)).
    { unfold view, c'. cbn. f_equal. rewrite list_fmap_insert, Hst, list_insert_id; [done|].
      by rewrite list_lookup_fmap, Hi. }
    constructor.
    - intros j u Hj Hu. rewrite Hv. cbn in Hj. apply list_lookup_insert_Some in Hj as [(-> & <- & _)|[Hij Hj]]; [done|].
      by eapply other_ok; eauto.
    - intros j u Hj Hu. cbn in Hj. apply list_lookup_insert_Some in Hj as [(-> & <- & _)|[Hij Hj]].
      + injection Hst as _ Hst. congruence.
      + by apply (sound_ended c Hc j).
    - by apply (exclusive_put i t t'); [apply Hc|..].
    - by rewrite Hv.
Qed.

Lemma status_at c i t : threads c !! i = Some t -> ended t = false ->
    w_threads (view c) !! i = Some (role t, false).
Proof. intros Hi He. cbn. rewrite list_lookup_fmap, Hi. cbn. unfold status. by rewrite He. Qed.

Lemma same_locks c (i : nat) (h : list Lock) : forall (j : nat) u l, threads c !! j = Some u -> l ∈ h -> l ∈ held u -> j = i \/ l ∈ h.
Proof. by right. Qed.

Lemma status_go t h p : ended t = false -> status (mkThread (role t) h p false) = status t.
Proof. intros He. unfold status. cbn. by rewrite He. Qed.

Lemma begin_step c i t k ch :
    sound c -> allowed ch -> threads c !! i = Some t -> ended t = false -> code t = Done k ->
    total (step c i ch) sound.
Proof.
    intros Hc Ha Hi He Hcode. unfold step. rewrite Hi, He, Hcode.
    destruct (sound_threads c Hc i t Hi He) as (Hok & Hord & _). rewrite Hcode in Hok, Hord. cbn in Hord.
    assert (Hpost : post i (role t) k (view c)) by (by apply (Hok (view c))).
    pose proof (status_at c i t Hi He) as Hst.
    destruct (begin c k ch) as [[p|]|] eqn:Hb; [| |done].
    - cbn. apply (sound_put c i t); [done..|by apply status_go|by right| |by intros; reflexivity|apply Hc].
      destruct (beginning i (role t) k c ch p) as [Hp1 Hp2]; try done.
      unfold thread_ok. cbn. rewrite Hord. split_and!; done.
    - cbn. set (w' := left_loop i (role t) (view c)).
      assert (Hv : view (put i (mkThread (role t) (held t) (Done k) true) c) = w').
      { unfold view, w', left_loop, put. cbn. f_equal. by rewrite list_fmap_insert. }
      constructor.
      + intros j u Hj Hu. rewrite Hv. cbn in Hj.
        apply list_lookup_insert_Some in Hj as [(_ & <- & _)|[Hij Hj]]; [done|].
        eapply other_ok; [done..|]. apply (leaving i j _ _ k); eauto; [apply Hc|by apply status_at].
      + intros j u Hj Hu. cbn in Hj. apply list_lookup_insert_Some in Hj as [(_ & <- & _)|[Hij Hj]]; [cbn; by rewrite Hord|].
        by apply (sound_ended c Hc j).
      + apply (exclusive_put i t); [apply Hc|done|]. by right.
      + rewrite Hv. apply (leaving_ok i _ k); eauto. apply Hc.
Qed.

Lemma do_step c i t {B} (m : M B) k :
    sound c -> threads c !! i = Some t -> ended t = false -> code t = Do m k ->
    total (step c i Go) sound.
Proof.
    intros Hc Hi He Hcode. unfold step. rewrite Hi, He, Hcode.
    destruct (sound_threads c Hc i t Hi He) as (Hok & Hord & Hst). rewrite Hcode in Hok, Hord. cbn in Hok, Hord.
    apply wp_bind. eapply total_mono; [apply (Hok (view c)); reflexivity|].
    intros [[b s] ev] [Hg Hk]. cbn. apply (sound_put c i t); [done..|by apply status_go|by right| | |].
    - split_and!; [exact Hk|by apply Hord|done].
    - intros j u Hij Hj Hu. apply (compatible i j (role t) (role u) (held t)); [done|apply Hc|..|exact Hg];
        by apply status_at.
    - eapply (promised i (role t)); [apply Hc|by apply status_at|exact Hg].
Qed.

Lemma lock_step c i t l p :
    sound c -> threads c !! i = Some t -> ended t = false -> code t = Lck l p ->
    total (step c i Go) sound.
Proof.
    intros Hc Hi He Hcode. unfold step. rewrite Hi, He, Hcode.
    destruct (sound_threads c Hc i t Hi He) as (Hok & Hord & Hst). rewrite Hcode in Hok, Hord. cbn in Hok, Hord.
    destruct (lock_free l (threads c)) eqn:Hf; [|done]. cbn.
    apply (sound_put c i t); [done..|by apply status_go| | |by intros; reflexivity|apply Hc].
    - cbn. intros j u x Hj Hx Hu. apply elem_of_cons in Hx as [->|Hx]; [|by right]. left. exfalso.
      unfold lock_free in Hf. rewrite forallb_forall in Hf.
      assert (Hin : In u (threads c)) by (apply list_elem_of_In, list_elem_of_lookup; eauto).
      specialize (Hf u Hin). by apply negb_true_iff, bool_decide_eq_false in Hf.
    - destruct Hord as [Hr Hord]. split_and!; [by apply (Hok (view c))|done|done].
Qed.

Lemma unlock_step c i t l p :
    sound c -> threads c !! i = Some t -> ended t = false -> code t = Unl l p ->
    total (step c i Go) sound.
Proof.
    intros Hc Hi He Hcode. unfold step. rewrite Hi, He, Hcode.
    destruct (sound_threads c Hc i t Hi He) as (Hok & Hord & Hst). rewrite Hcode in Hok, Hord.
    destruct Hord as (h & Hh & Hord). cbn -[release] in Hok |- *. rewrite Hh in *. destruct Hst as [Hr Hst].
    rewrite (ordered_top_once l h Hr) in *.
    apply (sound_put c i t); [done..|by apply status_go| | |by intros; reflexivity|apply Hc].
    - cbn. intros j u x _ Hx _. right. rewrite Hh. by right.
    - split_and!; [by apply (Hok (view c))|done|done].
Qed.

Lemma spawn_step c i t x k :
    sound c -> threads c !! i = Some t -> ended t = false -> code t = Spawn x k ->
    total (step c i Go) sound.
Proof.
    intros Hc Hi He Hcode. unfold step. rewrite Hi, He, Hcode.
    destruct (sound_threads c Hc i t Hi He) as (Hok & Hord & Hst). rewrite Hcode in Hok, Hord. cbn in Hok, Hord.
    destruct Hord as [Hh Hord]. destruct (Hok (view c)) as (Hsp & Hg & Hk); [reflexivity|]. rewrite Hh in *.
    assert (Hlen : length (w_threads (view c)) = length (threads c)) by apply length_fmap.
    pose proof (spawning i (role t) x (view c) (sound_world c Hc) (status_at c i t Hi He) Hsp Hg) as Hnew.
    rewrite Hlen in *. cbn.
    set (t' := mkThread (role t) [] (k (length (threads c))) false).
    set (c' := mkConfig _ _ _).
    assert (Hv : view c' = with_thread x (view c)).
    { unfold view, c', with_thread. cbn. f_equal. rewrite fmap_app. f_equal.
      rewrite list_fmap_insert. assert (status t' = status t) as -> by (by apply status_go). rewrite list_insert_id; [done|].
      by rewrite list_lookup_fmap, Hi. }
    assert (Hheld : forall j u, threads c' !! j = Some u ->
      (j = i /\ u = t') \/ (j <> i /\ threads c !! j = Some u) \/ (j = length (threads c) /\ u = spawned x)).
    { intros j u Hj. cbn in Hj. apply lookup_app_Some in Hj as [Hj|[Hl Hj]].
      - apply list_lookup_insert_Some in Hj as [(E & <- & _)|[Hij Hj]]; [by left|right; left; auto].
      - rewrite length_insert in Hl, Hj. apply list_lookup_singleton_Some in Hj as [Hj <-]. right; right. split; [lia|done]. }
    assert (Hnone : held (spawned x) = []) by by destruct x.
    constructor.
    - intros j u Hj Hu. rewrite Hv. destruct (Hheld j u Hj) as [[-> ->]|[[Hij Hj']|[-> ->]]].
      + split_and!; [exact Hk|apply Hord|done].
      + eapply other_ok; [done..|]. apply (compatible i j (role t) (role u) []); [done|apply Hc|..|exact Hg];
          by apply status_at.
      + split_and!; [exact Hnew|apply ordered_spawned|by rewrite Hnone].
    - intros j u Hj Hu. destruct (Hheld j u Hj) as [[-> ->]|[[Hij Hj']|[-> ->]]]; [done|by apply (sound_ended c Hc j)|by destruct x].
    - intros j1 j2 u1 u2 l Hj1 Hj2 H1 H2.
      destruct (Hheld j1 u1 Hj1) as [[-> ->]|[[Hij1 Hj1']|[-> ->]]]; [by apply elem_of_nil in H1| |by rewrite Hnone in H1; apply elem_of_nil in H1].
      destruct (Hheld j2 u2 Hj2) as [[-> ->]|[[Hij2 Hj2']|[-> ->]]]; [by apply elem_of_nil in H2| |by rewrite Hnone in H2; apply elem_of_nil in H2].
      by apply (sound_exclusive c Hc j1 j2 u1 u2 l).
    - rewrite Hv. eapply (promised i (role t)); [apply Hc|by apply status_at|exact Hg].
Qed.

Lemma join_step c i t n p :
    sound c -> threads c !! i = Some t -> ended t = false -> code t = Join n p ->
    total (step c i Go) sound.
Proof.
    intros Hc Hi He Hcode. unfold step. rewrite Hi, He, Hcode.
    destruct (sound_threads c Hc i t Hi He) as (Hok & Hord & Hst). rewrite Hcode in Hok, Hord. cbn in Hok, Hord.
    destruct (has_ended n (threads c)) eqn:Hn; [|done]. cbn.
    apply (sound_put c i t); [done..|by apply status_go|by right| |by intros; reflexivity|apply Hc].
    destruct Hord as [Hh Hord]. rewrite Hh in *. split_and!; [|done|done].
    apply (Hok (view c)); [reflexivity|]. unfold has_ended in Hn.
    destruct (threads c !! n) as [u|] eqn:Hu; [|done]. exists (role u). cbn. rewrite list_lookup_fmap, Hu. cbn.
    unfold status. by rewrite Hn.
Qed.

(** Every step of every thread keeps the configuration sound, and none
      panics. *)
Lemma step_sound c i ch : sound c -> allowed ch -> total (step c i ch) sound.
Proof.
    intros Hc Ha. destruct (threads c !! i) as [t|] eqn:Hi; [|by unfold step; rewrite Hi].
    destruct (ended t) eqn:He; [by unfold step; rewrite Hi, He|].
    destruct (code t) as [k|B m k|l p|l p|x k|n p] eqn:Hcode; [by eapply begin_step|..].
    all: destruct ch; try (by unfold step; rewrite Hi, He, Hcode).
    - by eapply do_step.
    - by eapply lock_step.
    - by eapply unlock_step.
    - by eapply spawn_step.
    - by eapply join_step.
Qed.

Lemma run_sound l c : sound c -> Forall (fun x => allowed (snd x)) l -> total (run l c) sound.
Proof.
    revert c. induction l as [|[i ch] l IH]; intros c Hc Hl; [done|]. cbn [run].
    apply Forall_cons in Hl as [Ha Hl]. apply wp_bind. eapply total_mono; [by apply step_sound|]. intros c' Hc'. by apply IH.
Qed.
End soundness.

(** ** Critical sections *)

(** The invariant of the shared state that every atomic step keeps: all of
    [shared_ok] but that FAULT is noted in [ever_faulted], which [transition]
    stores after it has released the state. *)
Definition wf (s : Shared) : Prop := shared_ok (set_ever_faulted true s).

Lemma shared_ok_wf s : shared_ok s -> wf s.
Proof. intros []. constructor; cbn; auto. Qed.

(** A silent critical section: it keeps [wf] and the configuration, and stays
    within [D]. *)
Definition block {A} (D : Shared -> Shared -> Prop) (m : M A) : Prop := forall s, wf s ->
  wpM m s (fun _ s' ev => wf s' /\ same_config s s' /\ D s s' /\ ev = []).

Section blocks.
Context (D : Shared -> Shared -> Prop) `{HD : !PreOrder D}.

Lemma block_ret {A} (a : A) : block D (ret a).
Proof. intros s Hs. by apply wpM_ret. Qed.
Lemma block_gets {A} (f : Shared -> A) : block D (gets f).
Proof. intros s Hs. by apply wpM_gets. Qed.
Lemma block_bind {A B} (m : M A) (k : A -> M B) : block D m -> (forall a, block D (k a)) -> block D (bindM m k).
Proof.
    intros Hm Hk s Hs. apply wpM_bind. eapply wpM_mono; [by apply Hm|]. intros a s1 e1 (H1 & H2 & H3 & ->).
    eapply wpM_mono; [by apply Hk|]. intros b s2 e2 (G1 & G2 & G3 & ->). split_and!; [done|by etransitivity|by etransitivity|done].
Qed.
(** An update that does not look at [ever_faulted]. *)
Lemma block_modify f : keeps (modify f) -> (forall s, f (set_ever_faulted true s) = set_ever_faulted true (f s)) ->
    (forall s, D s (f s)) -> block D (modify f).
Proof.
    intros Hk Hf HDf s Hs. apply wpM_modify. destruct (Hk _ Hs) as [H1 H2]. rewrite Hf in H1, H2.
    split_and!; [done| |done..]. exact H2.
Qed.
Lemma block_stats f : keeps (modify_stats f) -> (forall s, D s (set_stats (f (stats s)) s)) -> block D (modify_stats f).
Proof. intros Hk HDf. by apply block_modify. Qed.
Lemma block_builder f : keeps (with_builder f) ->
    (forall s b, wf s -> f (output_builder s) = Ok b -> D s (set_output_builder b s)) -> block D (with_builder f).
Proof.
    intros Hk HDf s Hs. specialize (Hk _ Hs). apply wpM_with_builder.
    unfold wpM, with_builder, bindM, gets, lift, modify in Hk. cbn in Hk.
    destruct (f (output_builder s)) as [b| | |] eqn:E; cbn in Hk |- *; try done.
    destruct Hk as [H1 H2]. split_and!; [exact H1|exact H2|by apply HDf|done].
Qed.
Lemma block_if {A} (b : bool) (m m' : M A) : block D m -> block D m' -> block D (if b then m else m').
Proof. by destruct b. Qed.
End blocks.

(** ** Programs of critical sections and callbacks *)

(** [lawful D E h p]: holding [h], [p] spawns and joins nothing, its sections
    stay within [D] and its events within [E]. *)
Fixpoint lawful {A} (D : Shared -> Shared -> Prop) (E : list Lock -> Event -> Prop) (h : list Lock)
    (p : prog A) : Prop :=
  match p with
  | Done _ => True
  | Do m k => forall s, wf s -> wpM m s (fun b s' ev =>
      (wf s' /\ same_config s s' /\ D s s' /\ Forall (E h) ev) /\ lawful D E h (k b))
  | Lck l p => lawful D E (l :: h) p
  | Unl l p => lawful D E (release l h) p
  | Spawn _ _ | Join _ _ => False
  end.

Section lawful.
Context (D : Shared -> Shared -> Prop) (E : list Lock -> Event -> Prop) `{HD : !PreOrder D}.

Lemma lawful_bind {A B} (p : prog A) (f : A -> prog B) h1 : forall h,
    ordered h p h1 -> stacked h -> lawful D E h p -> (forall a, lawful D E h1 (f a)) -> lawful D E h (bindP p f).
Proof.
    induction p as [a|C m k IH|l p IH|l p IH|x k IH|t p IH]; cbn [ordered lawful bindP]; intros h Ho Hs Hp Hf; try done.
    - by subst.
    - intros s Hw. eapply wpM_mono; [by apply Hp|]. cbn. intros b s' ev [H1 H2]. split; [done|]. by apply IH.
    - destruct Ho as [Hr Ho]. by apply IH.
    - destruct Ho as (h2 & -> & Ho). destruct Hs as [Hr Hs]. rewrite ordered_top_once in * by done. by apply IH.
Qed.
Lemma lawful_locked {A} l (m : M A) h : block D m -> lawful D E h (locked l m).
Proof.
    intros Hm s Hs. eapply wpM_mono; [by apply Hm|]. cbn. intros b s' ev (H1 & H2 & H3 & ->). by split_and!.
Qed.
Lemma lawful_atomic {A} (m : M A) h : block D m -> lawful D E h (atomic m).
Proof.
    intros Hm s Hs. eapply wpM_mono; [by apply Hm|]. cbn. intros b s' ev (H1 & H2 & H3 & ->). by split_and!.
Qed.
Lemma lawful_emit e h : E h e -> lawful D E h (atomic (emit e)).
Proof. intros He s Hs. apply wpM_emit. split_and!; try done. by repeat constructor. Qed.
Lemma lawful_whenP b p h : lawful D E h p -> lawful D E h (whenP b p).
Proof. by destruct b. Qed.
Lemma lawful_done {A} (a : A) h : lawful D E h (Done a).
Proof. done. Qed.
End lawful.

Lemma stacked_nil : stacked [].
Proof. done. Qed.
Lemma stacked_safe : stacked [LSafeOutput].
Proof. by repeat constructor. Qed.
#[export] Hint Resolve stacked_nil stacked_safe lawful_done lawful_whenP lawful_locked lawful_atomic : law.
#[export] Hint Resolve block_ret block_gets block_bind block_if : law.
#[export] Hint Extern 2 (ordered _ _ _) => solve [auto 20 with prog] : law.

(** ** What each thread may change *)

Definition image (s : Shared) : list Z := write_buffer (output_builder s).

(** A submodule shown with its data GOOD stays so. *)
Definition keeps_shown (s s' : Shared) : Prop :=
  forall o d, o ∈ objects (output_iocr s) -> 0 < o_data_length o -> shows (image s) o d -> shows (image s') o d.

Definition same_run (s s' : Shared) : Prop := running s' = running s.
Definition anything (s s' : Shared) : Prop := True.
(** The transmit loop: the counter, the send buffer and the statistics. *)
Definition tx_conduct (s s' : Shared) : Prop :=
  running s' = running s /\ state s' = state s /\ ever_faulted s' = ever_faulted s /\
  safe_output s' = safe_output s /\ output_iocr s' = output_iocr s /\ image s' = image s.
(** The receive loop: the state, the inputs, the statistics, and of the output
    image the consumer status. *)
Definition rx_conduct (s s' : Shared) : Prop :=
  running s' = running s /\ safe_output s' = safe_output s /\ output_iocr s' = output_iocr s /\
  cycle_counter_ s' = cycle_counter_ s /\ keeps_shown s s'.

#[global] Instance same_run_preorder : PreOrder same_run.
Proof. split; [done|]. unfold same_run. intros a b c. congruence. Qed.
#[global] Instance anything_preorder : PreOrder anything.
Proof. by split; repeat intros ?. Qed.
#[global] Instance tx_conduct_preorder : PreOrder tx_conduct.
Proof. split; [done|]. unfold tx_conduct. intros a b c (?&?&?&?&?&?) (?&?&?&?&?&?). split_and!; congruence. Qed.
#[global] Instance rx_conduct_preorder : PreOrder rx_conduct.
Proof.
  split; unfold rx_conduct, keeps_shown; [intros s; by split_and!; auto|]. intros a b c (?&?&Hab&?&Ha) (?&?&Hbc&?&Hb).
  split_and!; [congruence..|]. intros o d Ho Hd Hs. apply Hb; [congruence|done|]. by apply Ha.
Qed.

#[export] Hint Extern 3 (same_run _ _) => exact eq_refl : law.
#[export] Hint Extern 3 (anything _ _) => exact I : law.
#[export] Hint Extern 3 (tx_conduct _ _) => (split_and!; reflexivity) : law.
#[export] Hint Extern 3 (rx_conduct _ _) => (split_and!; [reflexivity..|by intros ? ? ? ? ?]) : law.

(** An update of neither the state machine nor the images. *)
Lemma keeps_simple f :
  (forall s, shared_ok s -> shared_ok (f s)) -> (forall s, same_config s (f s)) -> keeps (modify f).
Proof. intros H1 H2. apply keeps_modify. auto. Qed.
Lemma keeps_set_counter v : u16_ok v -> keeps (modify (set_cycle_counter_ v)).
Proof. intros Hv. apply keeps_simple; [|by repeat split]. intros s []. constructor; cbn; auto. Qed.
Lemma keeps_set_inputs v : keeps (modify (set_input_data v)).
Proof. apply keeps_simple; [|by repeat split]. intros s []. constructor; cbn; auto. Qed.
Lemma keeps_callbacks v : keeps (modify (fun s => set_callbacks (v (callbacks s)) s)).
Proof. apply keeps_simple; [|by repeat split]. intros s []. constructor; cbn; auto. Qed.
Lemma keeps_safe_image sl ss d : bytes_ok d -> keeps (set_safe_output_ sl ss d).
Proof.
  intros Hd. apply keeps_simple; [|by repeat split]. intros s []. constructor; cbn; auto.
  intros ? ? ? [= _ _ <-]. done.
Qed.

Section sections.
Context (D : Shared -> Shared -> Prop) `{HD : !PreOrder D}.

Lemma block_state st : (forall s, D s (set_state st s)) -> block D (swap_state st).
Proof.
    intros H. unfold swap_state. apply block_bind; [done|by apply block_gets|]. intros old.
    destruct (state_eqb old st); [by apply block_ret|]. apply block_bind; [done| |intros; by apply block_ret].
    intros s Hs. apply wpM_modify. split_and!; [|by repeat split|apply H|done].
    destruct Hs. constructor; cbn in *; auto.
Qed.
Lemma block_faulted v : (forall s, D s (set_ever_faulted v s)) -> block D (modify (set_ever_faulted v)).
Proof. intros H s Hs. apply wpM_modify. split_and!; [|by repeat split|apply H|done]. exact Hs. Qed.
Lemma block_counter : (forall s v, D s (set_cycle_counter_ v s)) -> block D advance_counter.
Proof.
    intros H. unfold advance_counter. apply block_bind; [done|by apply block_gets|]. intros c.
    apply block_bind; [done|by apply block_gets|]. intros st. apply block_bind; [done| |intros; by apply block_ret].
    apply block_modify; [apply keeps_set_counter, land_ffff|done|auto].
Qed.
(** [swap] leaves the image that is written alone. *)
Lemma block_swap : (forall s b, image (set_output_builder b s) = image s -> D s (set_output_builder b s)) ->
    block D (with_builder swap).
Proof.
    intros H. apply block_builder; [apply keeps_swap|]. intros s b Hs Hb. apply H.
    unfold image. cbn. destruct (swap_publishes _ _ (ok_image _ Hs) Hb) as (_ & -> & _). done.
Qed.
Lemma block_commit : (forall s b, image (set_output_builder b s) = image s -> D s (set_output_builder b s)) ->
    block D commit_image.
Proof. intros H. apply block_bind; [done|by apply block_swap|]. intros. by apply block_gets. Qed.
Lemma block_track prev c : (forall s v, D s (set_stats v s)) -> (forall s v, D s (set_last_rx_cycle_counter v s)) ->
    block D (count_frame prev c).
Proof.
    intros H1 H2. unfold count_frame. apply block_bind; [done|by apply block_gets|]. intros st. cbv zeta.
    assert (Hl : forall v, block D (modify (set_last_rx_cycle_counter v))).
    { intros v. apply block_modify; [apply keeps_set_last|done|auto]. }
    assert (Hs : forall f, (forall s, u32_ok (consecutive_timeouts s) -> u32_ok (consecutive_timeouts (f s))) ->
      block D (modify_stats f)).
    { intros f Hf. apply block_stats; [by apply keeps_stats|auto]. }
    apply block_if; [by apply Hs|]. apply block_if; [|done]. apply block_bind; [done| |intros; done].
    apply block_if; by apply Hs.
Qed.
End sections.

(** A byte outside a submodule's data and provider status. *)
Lemma shows_insert w o d i v :
  0 <= frame_offset o -> 0 < o_data_length o -> iops_offset o = frame_offset o + o_data_length o ->
  0 <= i < len w -> i < frame_offset o \/ iops_offset o < i ->
  shows w o d -> shows (<[Z.to_nat i := v]> w) o d.
Proof.
  intros Ho Hd Hp Hi Hout [H1 H2]. unfold shows. cbv zeta. split.
  - rewrite <- H1. destruct Hout; [apply slice_insert_below; lia|apply slice_insert_out; lia].
  - assert (Hr : 0 <= iops_offset o < len w).
    { unfold idx in H2. destruct ((0 <=? iops_offset o) && (iops_offset o <? len w)) eqn:E; [lia|done]. }
    rewrite <- H2, !idx_spec by (rewrite ?length_insert; lia). rewrite list_lookup_insert_ne by lia. done.
Qed.

(** Writing the consumer status leaves every submodule's data and provider
    status alone. *)
Lemma iocs_keep_shown s v b : wf s -> set_all_iocs (output_builder s) v = Ok b ->
  keeps_shown s (set_output_builder b s).
Proof.
  intros Hs Hb o d Hin Hpos Hsh. unfold image in *. cbn.
  assert (Hcfg : config (output_builder s) = output_iocr s) by exact (ok_config _ Hs). rewrite <- Hcfg in Hin.
  pose proof (ok_builder _ Hs) as Hok. cbn in Hok. unfold set_all_iocs in Hb.
  assert (Ht : total (for_each (objects (config (output_builder s))) (fun o b => match iocs_offset o with
        | Some off => let? v' := idx (write_buffer b) off in
            if negb (v' =? v) then let? w := set_idx (write_buffer b) off v in Ok (with_write b w true) else Ok b
        | None => Ok b end) (output_builder s))
      (fun b' => builder_ok b' /\ config b' = config (output_builder s) /\ shows (write_buffer b') o d)).
  { apply wp_for_each; [done|]. intros o' b1 Hin' (Hb1 & Hc1 & Hs1). pose proof Hb1 as (Hc & Hw & _).
    destruct (iocs_offset o') as [off|] eqn:Hoff; [|done]. rewrite <- Hc1 in Hin'.
    pose proof (config_ok_iocs _ _ _ Hc Hin' Hoff). apply wp_bind, wp_idx; [lia|]. intros y _.
    destruct (negb (y =? v)); [|done]. apply wp_bind, wp_set_idx; [lia|]. cbn. split_and!; [|done|].
    { apply builder_ok_write; [done|]. by rewrite length_insert. }
    rewrite <- Hc1 in Hin. destruct (config_ok_iops _ _ Hc Hin Hpos) as (Hi1 & ? & Hos).
    destruct (config_ok_data _ _ Hc Hin) as (? & _).
    destruct (config_ok_in _ _ Hc Hin') as ([(_ & _ & ?)|(Hd' & Ho' & _)] & _ & _); [congruence|].
    assert (off = frame_offset o') by congruence. pose proof (osize_pos o').
    apply shows_insert; [lia|done| |lia| |done].
    - destruct (config_ok_in _ _ Hc Hin) as ([(_ & -> & _)|(? & _)] & _ & _); [done|lia].
    - pose proof Hc as (e & He & _). destruct (laid_out_disjoint _ _ _ o o' He Hin Hin'); [intros ->; lia|lia|lia]. }
  rewrite Hb in Ht. apply Ht.
Qed.

(** ** What each thread may say *)

(** Callbacks and frames come from threads that hold no lock, but for the one
    error of a safe output that cannot be applied; and only the transmit loop
    and the owner send. *)
Definition event_ok (r : Role) (h : list Lock) (e : Event) : Prop :=
  (h = [] \/ h = [LSafeOutput] /\ exists m, e = ErrorMessage ("safe output not applied: " +:+ m)) /\
  (forall f, e = Sent f -> r = TxLoop \/ r = Owner).

Lemma event_callback r e : (forall f, e <> Sent f) -> event_ok r [] e.
Proof. intros H. split; [by left|]. intros f ->. by destruct (H f). Qed.
#[export] Hint Extern 1 (event_ok _ [] _) => (apply event_callback; intros ? [=]) : law.

Section programs.
Context (D : Shared -> Shared -> Prop) (r : Role) `{HD : !PreOrder D}.

Lemma lawful_error m h : low h -> stacked h -> event_ok r h (ErrorMessage m) -> lawful D (event_ok r) h (emit_error_p m).
Proof.
    intros Hl Hs He. unfold emit_error_p. apply (lawful_bind _ _ _ _ h); [by auto with prog|done| |].
    - by apply lawful_locked, block_gets.
    - intros cb. by apply lawful_whenP, lawful_emit.
Qed.
Lemma lawful_transition st : (forall s, D s (set_state st s)) ->
    (st = Fault -> forall s, D s (set_ever_faulted true s)) -> lawful D (event_ok r) [] (transition_p st).
Proof.
    intros H1 H2. unfold transition_p. apply (lawful_bind _ _ _ _ []); [by auto with prog|done| |].
    - by apply lawful_locked, block_state.
    - intros [old|]; [|done]. apply (lawful_bind _ _ _ _ []); [by auto with prog|done| |].
      + destruct (state_eqb st Fault) eqn:Hf; [|done]. apply lawful_atomic, block_faulted, H2. by apply state_eqb_eq.
      + intros _. apply (lawful_bind _ _ _ _ []); [by auto with prog|done| |].
        * by apply lawful_locked, block_gets.
        * intros cb. apply lawful_whenP, lawful_emit; auto with law.
Qed.
Lemma lawful_frame st : (forall s v, D s (set_cycle_counter_ v s)) ->
    (forall s b, image (set_output_builder b s) = image s -> D s (set_output_builder b s)) ->
    lawful D (event_ok r) [] (next_output_frame_p st).
Proof.
    intros H1 H2. unfold next_output_frame_p. apply (lawful_bind _ _ _ _ []); [by auto with prog|done| |].
    - by apply lawful_locked, block_counter.
    - intros c. apply (lawful_bind _ _ _ _ []); [by auto with prog|done| |].
      + by apply lawful_locked, block_commit.
      + intros f. by apply lawful_atomic, block_gets.
Qed.
Lemma lawful_stats f : keeps (modify_stats f) -> (forall s v, D s (set_stats v s)) ->
    lawful D (event_ok r) [] (locked LStats (modify_stats f)).
Proof. intros H1 H2. apply lawful_locked, block_stats; auto. Qed.
Lemma lawful_fire l : Forall (event_ok r []) l -> lawful D (event_ok r) [] (fire_all l).
Proof.
    induction 1 as [|e l He Hl IH]; cbn [fire_all]; [done|]. apply (lawful_bind _ _ _ _ []); [done|done|by apply lawful_emit|done].
Qed.
End programs.

#[export] Hint Extern 1 (ordered _ (match ?x with _ => _ end) _) => destruct x : prog.

(** Sequencing with nothing held: the order of the locks by the hints. *)
Ltac law_bind := apply (lawful_bind _ _ _ _ []); [solve [auto 20 with prog]|exact I| |].
Ltac law_read := law_bind; [first [apply lawful_locked|apply lawful_atomic]; apply block_gets; apply _|].

Lemma tx_pass_lawful now send l : lawful tx_conduct (event_ok TxLoop) [] (tx_pass_p now send l).
Proof.
  unfold tx_pass_p. destruct (next_send l <=? now); [|done]. law_read. intros cycle. cbv zeta.
  law_bind; [apply lawful_frame; [apply _|auto with law..]|].
  { intros s b Hb. by split_and!. }
  intros f. law_bind; [|intros []].
  { destruct send; [apply lawful_error; [apply _|apply low_nil|done|auto with law]|].
    apply lawful_emit; [apply _|]. split; [by left|]. intros _ _. by left. }
  law_bind; [apply lawful_stats; [by apply keeps_stats|auto with law]|]. intros [].
  law_bind; [|done]. apply lawful_whenP, lawful_stats; [|auto with law].
  apply keeps_stats. intros s Hs. unfold tx_stats. cbn. by destruct (_ <? _).
Qed.

Lemma block_lift {A} D (o : outcome A) `{!PreOrder D} : total o (fun _ => True) -> block D (lift o).
Proof. intros H s Hs. apply wpM_lift. eapply wp_mono; [exact H| |done]. by intros. Qed.

Definition silent_event (e : Event) : Prop := forall f, e <> Sent f.

(** The events of an accumulation are inputs and statuses. *)
Definition acc_ok (acc : InputAcc) : Prop := Forall silent_event (acc_status acc) /\ Forall silent_event (acc_updates acc).

Lemma process_object_acc want p o acc :
  0 <= iops_offset o -> 0 <= frame_offset o -> 0 <= o_data_length o -> acc_ok acc ->
  total (process_object want p o acc) acc_ok.
Proof.
  intros ? ? ? [H1 H2]. unfold process_object, total.
  destruct ((len p <=? iops_offset o) || (len p <? frame_offset o + o_data_length o)) eqn:E; [done|].
  apply wp_bind, wp_idx_byte; [lia|]. intros v _. apply wp_bind, wp_slice; [lia|lia|]. intros d. cbn.
  split; cbn; [destruct (eqb _ _)|destruct (_ && _)]; try done; apply Forall_app; split; try done;
    by repeat constructor.
Qed.

(** The inputs' section, and the callbacks it leaves to be fired. *)
Lemma store_lawful p : lawful rx_conduct (event_ok RxLoop) [] (store_inputs_p p).
Proof.
  unfold store_inputs_p. law_read. intros cbs. unfold locked. cbn [bindP lawful].
  intros s Hs. unfold store_objects. wpM_auto. apply wpM_lift.
  eapply (total_mono _ acc_ok).
  { apply wp_for_each; [by split; constructor|]. intros o acc Hin Hacc.
    destruct (config_ok_offsets _ _ (ok_input _ Hs) Hin) as (? & ? & ?). by apply process_object_acc. }
  intros acc [Ha1 Ha2]. wpM_auto. cbn [app]. split.
  - split_and!; [|by repeat split|by split_and!; [..|intros ? ? ? ? ?]|constructor].
    apply (keeps_set_inputs (acc_data acc) _ Hs).
  - cbn [release]. change (release LInputData [LInputData]) with (@nil Lock).
    assert (Hfire : forall b l, Forall silent_event l -> lawful rx_conduct (event_ok RxLoop) [] (whenP b (fire_all l))).
    { intros b l Hl. apply lawful_whenP, lawful_fire; [apply _|]. eapply Forall_impl; [exact Hl|]. apply event_callback. }
    law_bind; [by apply Hfire|]. intros []. by apply Hfire.
Qed.

Lemma block_all_iocs v : byte_ok v -> block rx_conduct (with_builder (fun b => set_all_iocs b v)).
Proof.
  intros Hv. apply block_builder; [by apply keeps_set_all_iocs|]. intros s b Hs Hb.
  split_and!; try reflexivity. by apply (iocs_keep_shown s v).
Qed.

Lemma rx_transition_lawful st : lawful rx_conduct (event_ok RxLoop) [] (transition_p st).
Proof. apply lawful_transition; [apply _|..]; auto with law. Qed.
Lemma rx_error_lawful m : lawful rx_conduct (event_ok RxLoop) [] (emit_error_p m).
Proof. apply lawful_error; [apply _|apply low_nil|done|auto with law]. Qed.
Lemma rx_stats_lawful f : keeps (modify_stats f) -> lawful rx_conduct (event_ok RxLoop) [] (locked LStats (modify_stats f)).
Proof. intros H. apply lawful_stats; [done|auto with law]. Qed.
#[export] Hint Resolve rx_transition_lawful rx_error_lawful store_lawful : law.

Lemma track_lawful c : lawful rx_conduct (event_ok RxLoop) [] (track_cycle_counter_p c).
Proof.
  intros s Hs. apply wpM_gets. split; [by split_and!; [..|constructor]|].
  assert (Hb : forall {B} (m : M B) h (k : B -> prog unit), block rx_conduct m ->
    (forall b, lawful rx_conduct (event_ok RxLoop) h (k b)) -> lawful rx_conduct (event_ok RxLoop) h (Do m k)).
  { intros B m h k Hm Hk s1 Hs1. eapply wpM_mono; [by apply Hm|]. intros b s2 ev (? & ? & ? & ->). by split_and!. }
  destruct (last_rx_cycle_counter s) as [prev|].
  - change (lawful rx_conduct (event_ok RxLoop) [LStats; LLastRx]
              (Do (count_frame prev c) (fun _ => Unl LStats (Unl LLastRx (Done tt))))).
    refine (Hb _ (count_frame prev c) [LStats; LLastRx] _ _ _); [|done].
    apply block_track; [apply _|auto with law..].
  - refine (Hb _ (modify (set_last_rx_cycle_counter (Some c))) [LLastRx] _ _ _); [|done].
    apply block_modify; [apply keeps_set_last|done|auto with law].
Qed.

Lemma process_lawful now d : lawful rx_conduct (event_ok RxLoop) [] (process_input_frame_p now d).
Proof.
  unfold process_input_frame_p. law_bind.
  { apply lawful_atomic. unfold filter_frame. destruct (len d <? 18) eqn:Hl; [by apply block_ret, _|].
    apply block_bind; [apply _|apply block_lift; [apply _|]; apply wp_slice; [lia|lia|by intros]|]. intros mac.
    apply block_bind; [apply _|by apply block_gets, _|]. intros dst. apply block_if; [by apply block_ret, _|].
    apply block_bind; [apply _|apply block_lift; [apply _|]; apply parse_ethernet_total|].
    intros [f|]; [|by apply block_ret, _]. apply block_bind; [apply _|by apply block_gets, _|]. intros fid.
    apply block_if; by apply block_ret, _. }
  intros [f|]; [|done]. unfold accept_frame_p. cbv zeta. law_read. intros target.
  law_bind; [apply rx_stats_lawful, keeps_receive_stats|]. intros [].
  law_bind. { apply lawful_whenP. law_read. intros st. apply lawful_whenP; auto with law. }
  intros []. law_bind; [apply track_lawful|]. intros [].
  destruct (negb (frame_is_alive f)); [by apply rx_stats_lawful, keeps_stats|].
  law_bind; [apply lawful_locked, block_all_iocs, ioxs_good_byte|]. intros []. auto with law.
Qed.

Lemma watchdog_lawful w a b : lawful rx_conduct (event_ok RxLoop) [] (check_receive_watchdog_p w a b).
Proof.
  unfold check_receive_watchdog_p. law_read. intros last. apply lawful_whenP. law_bind; [|intros []].
  2: by apply rx_stats_lawful, keeps_stats.
  unfold handle_watchdog_timeout_p. law_bind.
  { apply lawful_locked. unfold count_timeout.
    assert (Hs : forall f, (forall s, u32_ok (consecutive_timeouts s) -> u32_ok (consecutive_timeouts (f s))) ->
      block rx_conduct (modify_stats f)).
    { intros f Hf. apply block_stats; [by apply keeps_stats|auto with law]. }
    do 3 (apply block_bind; [apply _|apply Hs; intros; done || apply wrap_add32_ok|intros []]). by apply block_gets, _. }
  intros n. law_read. intros max. law_bind.
  { apply lawful_whenP, lawful_locked, block_all_iocs, ioxs_bad_byte. }
  intros []. law_read. intros cb. law_bind; [apply lawful_whenP, lawful_emit; [apply _|auto with law]|]. intros [].
  apply lawful_whenP. law_read. intros st. apply lawful_whenP. law_bind; auto with law.
Qed.

Lemma rx_pass_lawful r t1 t2 t3 : lawful rx_conduct (event_ok RxLoop) [] (rx_pass_p r t1 t2 t3).
Proof.
  unfold rx_pass_p. law_read. intros w. destruct r as [d| |e].
  - law_bind; [apply process_lawful|]. intros []. law_bind; [apply watchdog_lawful|done].
  - law_bind; [done|]. intros []. law_bind; [apply watchdog_lawful|done].
  - law_read. intros run. law_bind; [|done]. apply lawful_whenP. law_bind; [auto with law|]. intros [].
    law_read. intros st. apply lawful_whenP. auto with law.
Qed.

(** ** The calls *)

Lemma block_set_data {A} D sl ss d (herr : string -> M A) (hok : M A) : PreOrder D -> bytes_ok d ->
  (forall e, block D (herr e)) -> block D hok -> (forall s b, D s (set_output_builder b s)) ->
  block D (let* b := gets output_builder in
           match set_data b sl ss d with
           | Err e => herr e
           | o => let* b := lift o in do* modify (set_output_builder b); hok
           end).
Proof.
  intros HD Hd He Hk HDb s Hs. apply wpM_bind, wpM_gets.
  destruct (set_data_cases (output_builder s) sl ss d Hd (ok_builder _ Hs) (ok_image _ Hs))
    as [[e ->]|(b' & -> & H1 & H2 & H3)]; [by apply He|].
  apply wpM_bind, wpM_lift. cbn. apply wpM_bind, wpM_modify.
  assert (Hs' : wf (set_output_builder b' s)).
  { pose proof (ok_config _ Hs). destruct Hs; constructor; cbn in *; auto. congruence. }
  eapply wpM_mono; [by apply Hk|]. intros a s2 e2 (? & Hc & HD2 & ->). split_and!; [done| | |done].
  - transitivity (set_output_builder b' s); [by repeat split|done].
  - by transitivity (set_output_builder b' s).
Qed.

Lemma block_iops D sl ss : (forall s b, D s (set_output_builder b s)) ->
  block D (with_builder (fun b => set_iops b sl ss IOXS_GOOD)).
Proof. intros H. apply block_builder; [apply keeps_set_iops, ioxs_good_byte|auto]. Qed.

Definition call_ok (c : SharedCall) : Prop :=
  match c with CallSetOutput _ _ d | CallSetSafe _ _ d => bytes_ok d | _ => True end.

Lemma read_lawful E r : lawful same_run E [] (read_p r).
Proof. destruct r; by repeat law_read. Qed.

(** A borrower's call is silent. *)
Lemma shared_call_lawful E c : call_ok c -> lawful same_run E [] (shared_call c).
Proof.
  intros Hc. destruct c as [r|sl ss d|sl ss d|f]; cbn [shared_call call_ok] in *.
  - by apply read_lawful.
  - law_bind; [|done]. unfold set_output_data_p. law_read. intros st. destruct (output_writes_locked st); [done|].
    apply lawful_locked, (block_set_data same_run); [apply _|done|intros; by apply block_ret, _| |done].
    apply block_bind; [apply _|by apply block_iops|]. intros. by apply block_ret, _.
  - law_bind; [|done]. apply lawful_locked, block_modify; [by apply keeps_safe_image|done|done].
  - law_bind; [|done]. apply lawful_locked, block_modify; [apply keeps_callbacks|done|done].
Qed.

(** What the owner's parts do under a conduct that leaves them the builder. *)
Lemma safe_lawful D : PreOrder D -> (forall s b, D s (set_output_builder b s)) ->
  lawful D (event_ok Owner) [] apply_safe_output_p.
Proof.
  intros HD HDb s Hs. apply wpM_gets. split; [by split_and!; [..|constructor]|].
  destruct (safe_output s) as [[[sl ss] d]|] eqn:Hd; [|done].
  pose proof (ok_safe _ Hs _ _ _ Hd) as Hb.
  apply (lawful_bind _ _ _ _ [LSafeOutput]); [by apply ordered_locked; repeat constructor|apply stacked_safe| |].
  - apply lawful_locked, block_set_data; [done|done|intros; by apply block_ret, _| |done].
    apply block_bind; [done|by apply block_iops|]. intros []. apply block_bind; [done|by apply block_swap|].
    intros []. by apply block_ret.
  - intros failed. apply (lawful_bind _ _ _ _ [LSafeOutput]); [|apply stacked_safe| |done].
    + destruct failed; [|done]. apply ordered_error. by repeat constructor.
    + destruct failed as [e|]; [|done]. apply lawful_error; [done|by repeat constructor|apply stacked_safe|].
      split; [|by intros ? [=]]. right. split; [done|by exists e].
Qed.

Lemma stop_frames_lawful D sends : PreOrder D -> (forall s b, image (set_output_builder b s) = image s -> D s (set_output_builder b s)) ->
  (forall s v, D s (set_cycle_counter_ v s)) -> (forall s v, D s (set_stats v s)) ->
  lawful D (event_ok Owner) [] (stop_frames_p sends).
Proof.
  intros HD H1 H2 H3. induction sends as [|ok sends IH]; cbn [stop_frames_p]; [done|].
  law_bind; [by apply lawful_locked, block_swap|]. intros [].
  law_bind; [by apply lawful_frame|]. intros f. destruct (negb ok); [done|].
  law_bind. { apply lawful_emit; [done|]. split; [by left|]. intros _ _. by right. }
  intros []. law_bind; [|intros []; apply IH]. apply lawful_stats; [by apply keeps_stats|done].
Qed.

(** ** From lawful to the logic *)

Lemma lawful_okp {A} L i D E (I : World -> Prop) (p : prog A) : LawOk L ->
  (forall w w', I w -> Rely L w w' -> I w') -> (forall w, I w -> wf (w_sh w)) ->
  (forall h w s ev, I w -> wf s -> same_config (w_sh w) s -> D (w_sh w) s -> Forall (E h) ev ->
     Guar L h w (after i h w s ev) /\ I (after i h w s ev)) ->
  forall h w, lawful D E h p -> I w -> okp L i h p (fun _ => I) w.
Proof.
  intros HL Hst Hwf Hg. induction p as [a|C m k IH|l p IH|l p IH|x k IH|t p IH]; cbn [lawful okp];
    intros h w Hp Hi w1 Hr; try done; pose proof (Hst _ _ Hi Hr) as Hi1.
  - done.
  - eapply wpM_mono; [by apply Hp, Hwf|]. cbn. intros b s ev [(H1 & H2 & H3 & H4) Hk].
    destruct (Hg h w1 s ev) as [Hg1 Hg2]; try done. split; [done|]. by apply IH.
  - by apply IH.
  - by apply IH.
Qed.

(** ** The laws of the controller's threads *)

(** Threads keep their role and stay ended. *)
Definition grows (l l' : list (Role * bool)) : Prop :=
  forall j r b, l !! j = Some (r, b) -> exists b', l' !! j = Some (r, b') /\ (b = true -> b' = true).

#[global] Instance grows_preorder : PreOrder grows.
Proof.
  split; [by intros l j r b H; exists b|]. intros l1 l2 l3 H1 H2 j r b H.
  destruct (H1 j r b H) as (b1 & G1 & G2). destruct (H2 j r b1 G1) as (b2 & G3 & G4). exists b2. auto.
Qed.

(** Every event of the trace was said by a thread that may say it. *)
Definition entry_ok (l : list (Role * bool)) (e : Entry) : Prop :=
  exists r b, l !! by_thread e = Some (r, b) /\ event_ok r (under e) (what e).

Record good (w : World) : Prop := {
  good_wf : wf (w_sh w);
  good_trace : Forall (entry_ok (w_threads w)) (w_trace w);
  good_owner : w_threads w !! 0%nat = Some (Owner, false);
  good_single : forall j b, w_threads w !! j = Some (Owner, b) -> j = 0%nat;
}.

Definition moves (w w' : World) : Prop :=
  same_config (w_sh w) (w_sh w') /\ grows (w_threads w) (w_threads w').
#[global] Instance moves_preorder : PreOrder moves.
Proof. split; [done|]. intros a b c [] []. split; by etransitivity. Qed.

(** What a step of thread [i] in its role does at most. *)
Definition conduct (r : Role) : Shared -> Shared -> Prop :=
  match r with
  | Owner => anything | Caller => same_run | TxLoop => tx_conduct | RxLoop => rx_conduct
  end.
#[global] Instance conduct_preorder r : PreOrder (conduct r).
Proof. destruct r; apply _. Qed.

Record promise (i : nat) (r : Role) (h : list Lock) (w w' : World) : Prop := {
  promise_good : good w -> good w';
  promise_moves : moves w w';
  promise_conduct : conduct r (w_sh w) (w_sh w');
  promise_trace : exists es, w_trace w' = w_trace w ++ es /\
    Forall (fun e => by_thread e = i /\ event_ok r (under e) (what e)) es;
  promise_spawns : r <> Owner -> w_threads w' = w_threads w;
}.

(** All rely on a good world of the same configuration; the owner alone
    changes [running]. *)
Definition expects (r : Role) (w w' : World) : Prop :=
  (good w -> good w') /\ moves w w' /\ (r = Owner -> same_run (w_sh w) (w_sh w')).

Definition is_loop (t : nat) (w : World) : Prop :=
  exists r b, w_threads w !! t = Some (r, b) /\ (r = TxLoop \/ r = RxLoop).

Definition law (i : nat) (r : Role) : Law := {|
  Rely := expects r;
  Guar := promise i r;
  Joinable t w := r = Owner /\ running (w_sh w) = false /\ is_loop t w;
  Spawns := r = Owner;
|}.

#[global] Instance law_ok i r : LawOk (law i r).
Proof.
  split.
  - intros w. by split_and!.
  - intros a b c (H1 & H2 & H3) (G1 & G2 & G3). split_and!; [auto|by etransitivity|].
    intros Hr. etransitivity; [by apply H3|by apply G3].
Qed.

Definition valid (h : Handles) (w : World) : Prop :=
  (forall t, tx_handle h = Some t -> is_loop t w) /\ (forall t, rx_handle h = Some t -> is_loop t w).

Definition fits (r : Role) (k : Cont) : Prop :=
  match r, k with
  | Owner, NextOwner _ _ | Caller, NextCaller _ | TxLoop, NextTx _ | RxLoop, NextRx _ => True
  | _, _ => False
  end.
Definition post (i : nat) (r : Role) (k : Cont) (w : World) : Prop :=
  good w /\ fits r k /\ match k with NextOwner h _ => valid h w | _ => True end.

(** Choices whose data are bytes. *)
Definition choice_ok (ch : choice) : Prop :=
  match ch with
  | Call c => call_ok c
  | Own (CallStopSafe _ _ d _) => bytes_ok d
  | _ => True
  end.

Lemma is_loop_grows t w w' : moves w w' -> is_loop t w -> is_loop t w'.
Proof. intros [_ Hg] (r & b & Ht & Hr). destruct (Hg _ _ _ Ht) as (b' & ? & _). by exists r, b'. Qed.
Lemma valid_moves h w w' : moves w w' -> valid h w -> valid h w'.
Proof. intros Hm [H1 H2]. split; intros t Ht; eapply is_loop_grows; eauto. Qed.

Lemma entry_ok_grows l l' e : grows l l' -> entry_ok l e -> entry_ok l' e.
Proof. intros Hg (r & b & Hl & He). destruct (Hg _ _ _ Hl) as (b' & ? & _). by exists r, b'. Qed.

(** A thread's standing facts while it runs. *)
Definition standing (i : nat) (r : Role) (w : World) : Prop := good w /\ exists b, w_threads w !! i = Some (r, b).

(** One step within a conduct is a promise kept. *)
Lemma step_promise i r h w s ev :
  standing i r w -> wf s -> same_config (w_sh w) s -> conduct r (w_sh w) s ->
  Forall (event_ok r h) ev -> promise i r h w (after i h w s ev) /\ standing i r (after i h w s ev).
Proof.
  intros [Hg [b Hi]] Hwf Hc HD Hev. assert (Hg' : good (after i h w s ev)).
  { destruct Hg as [H1 H2 H3 H4]. constructor; cbn; [done|..|done|done].
    apply Forall_app. split; [done|]. apply Forall_fmap. eapply Forall_impl; [exact Hev|]. intros e He.
    by exists r, b. }
  split; [|split; [done|by exists b]]. constructor; [done|done|done| |done].
  exists (mkEntry i h <$> ev). split; [done|]. apply Forall_fmap. eapply Forall_impl; [exact Hev|]. by intros.
Qed.

Lemma standing_expects i r r' w w' : expects r' w w' -> standing i r w -> standing i r w'.
Proof.
  intros (H1 & [_ Hg] & _) [Hw [b Hi]]. split; [auto|]. destruct (Hg _ _ _ Hi) as (b' & ? & _). by exists b'.
Qed.

(** A lawful program keeps its thread's law, and any [X] the others and its own
    conduct leave standing. *)
Lemma lawful_law {A} i r (D : Shared -> Shared -> Prop) (X : World -> Prop) (p : prog A) h w :
  (forall s s', D s s' -> conduct r s s') -> (forall w w', X w -> expects r w w' -> X w') ->
  (forall h w s ev, X w -> same_config (w_sh w) s -> D (w_sh w) s -> X (after i h w s ev)) ->
  lawful D (event_ok r) h p -> standing i r w -> X w ->
  okp (law i r) i h p (fun _ w' => standing i r w' /\ X w') w.
Proof.
  intros HD Hst Hown Hp Hs Hx. apply (lawful_okp _ _ D (event_ok r) (fun w => standing i r w /\ X w)); try done.
  - apply _.
  - intros w1 w2 [H1 H2] He. split; [by apply (standing_expects i r r w1 w2)|by apply (Hst w1 w2)].
  - intros w1 [[H _] _]. apply H.
  - intros h1 w1 s ev [H1 H2] H3 H4 H5 H6. destruct (step_promise i r h1 w1 s ev) as [G1 G2]; auto.
Qed.

Lemma standing_good i r w : standing i r w -> good w.
Proof. by intros [H _]. Qed.

(** The passes and calls of the other threads. *)
Lemma turn_law {A} i r (p : prog A) (k : A -> Cont) w :
  lawful (conduct r) (event_ok r) [] p -> ordered [] p [] -> (forall a, fits r (k a)) ->
  (forall a h rep, k a <> NextOwner h rep) -> standing i r w ->
  okp (law i r) i [] (let% a := p in Done (k a)) (post i r) w.
Proof.
  intros Hp Ho Hk Hn Hs. apply (okp_bind _ _ _ _ _ _ [] []); [done| |done].
  eapply okp_mono; [apply (lawful_law i r (conduct r) (fun _ => True)); auto|].
  intros a w1 [Hs1 _] w2 He. split_and!; [|done|].
  - exact (standing_good i r w2 (standing_expects i r r w1 w2 He Hs1)).
  - specialize (Hn a). destruct (k a); try done. by destruct (Hn h r0).
Qed.

(** ** The owner's calls *)

(** Sequencing for the owner: what a lawful part leaves standing. *)
Lemma owner_part {A B} D (X : World -> Prop) (p : prog A) (f : A -> prog B) Q w :
  (forall w w', X w -> expects Owner w w' -> X w') ->
  (forall h w s ev, X w -> same_config (w_sh w) s -> D (w_sh w) s -> X (after 0 h w s ev)) ->
  lawful D (event_ok Owner) [] p -> ordered [] p [] -> standing 0 Owner w -> X w ->
  (forall a w', standing 0 Owner w' -> X w' -> okp (law 0 Owner) 0 [] (f a) Q w') ->
  okp (law 0 Owner) 0 [] (bindP p f) Q w.
Proof.
  intros H1 H2 Hp Ho Hs Hx Hf. apply (okp_bind _ _ _ _ _ _ [] []); [done| |done].
  apply (okp_mono _ _ _ (fun _ w' => standing 0 Owner w' /\ X w')); [apply (lawful_law 0 Owner D X); auto|].
  - by intros.
  - intros a w1 [Hs1 Hx1]. by apply Hf.
Qed.

(** The owner holds valid handles; and those, with the run ended. *)
Definition halted (h : Handles) (w : World) : Prop := valid h w /\ running (w_sh w) = false.

Lemma valid_stable h w w' : valid h w -> expects Owner w w' -> valid h w'.
Proof. intros H (_ & Hm & _). by eapply valid_moves. Qed.
Lemma halted_stable h w w' : halted h w -> expects Owner w w' -> halted h w'.
Proof. intros [H1 H2] He. split; [by eapply valid_stable|]. destruct He as (_ & _ & He). by rewrite (He eq_refl). Qed.

Lemma any_spawn x w : good w -> promise 0 Owner [] w (with_thread x w) /\ good (with_thread x w) /\
  is_loop (length (w_threads w)) (with_thread x w).
Proof.
  intros Hw. assert (Hm : moves w (with_thread x w)).
  { split; [done|]. intros j r b Hj. exists b. split; [|done]. by apply lookup_app_l_Some. }
  assert (Hr : role (spawned x) <> Owner) by by destruct x.
  assert (Hg : good (with_thread x w)).
  { destruct Hw as [H1 H2 H3 H4]. constructor; cbn; [done| |by apply lookup_app_l_Some|].
    - eapply Forall_impl; [exact H2|]. intros e. apply entry_ok_grows, Hm.
    - intros j b Hj. apply lookup_app_Some in Hj as [Hj|[_ Hj]]; [by eapply H4|].
      apply list_lookup_singleton_Some in Hj as [_ [= Hj _]]. done. }
  split_and!; [|done|].
  - constructor; [done|done|exact I| |done]. exists []. split; [by rewrite app_nil_r|constructor].
  - exists (role (spawned x)), false. split; [|destruct x; auto]. cbn. rewrite list_lookup_middle by done. destruct x; done.
Qed.

Lemma standing_spawn x w : standing 0 Owner w -> standing 0 Owner (with_thread x w).
Proof.
  intros [Hw [b Hb]]. destruct (any_spawn x w Hw) as (_ & Hg & _). split; [done|]. exists b. by apply lookup_app_l_Some.
Qed.
Lemma spawn_moves x w : moves w (with_thread x w).
Proof. split; [done|]. intros j r b Hj. exists b. split; [|done]. by apply lookup_app_l_Some. Qed.

(** The owner's steps do not touch the threads. *)
Lemma after_moves i h w s ev : same_config (w_sh w) s -> moves w (after i h w s ev).
Proof. intros Hc. by split. Qed.
Lemma valid_after h i hl w s ev : valid h w -> same_config (w_sh w) s -> valid h (after i hl w s ev).
Proof. intros Hv Hc. eapply valid_moves; [by apply after_moves|done]. Qed.

(** Parts under which the handles stay valid, and under which the run also
    stays ended. *)
Lemma valid_part {A B} h (p : prog A) (f : A -> prog B) Q w :
  lawful anything (event_ok Owner) [] p -> ordered [] p [] -> standing 0 Owner w -> valid h w ->
  (forall a w', standing 0 Owner w' -> valid h w' -> okp (law 0 Owner) 0 [] (f a) Q w') ->
  okp (law 0 Owner) 0 [] (bindP p f) Q w.
Proof.
  intros Hp Ho Hs Hv Hf. apply (owner_part anything (valid h)); [by intros; eapply valid_stable|by intros; apply valid_after|done..].
Qed.
Lemma halted_part {A B} h (p : prog A) (f : A -> prog B) Q w :
  lawful same_run (event_ok Owner) [] p -> ordered [] p [] -> standing 0 Owner w -> halted h w ->
  (forall a w', standing 0 Owner w' -> halted h w' -> okp (law 0 Owner) 0 [] (f a) Q w') ->
  okp (law 0 Owner) 0 [] (bindP p f) Q w.
Proof.
  intros Hp Ho Hs Hv Hf. apply (owner_part same_run (halted h)); try done.
  - intros. by eapply halted_stable.
  - intros hl w1 s ev [H1 H2] Hc Hr. split; [by apply valid_after|]. cbn. by rewrite Hr.
Qed.

Lemma owner_done {A} (a : A) h w : standing 0 Owner w -> valid h w ->
  okp (law 0 Owner) 0 [] (Done (h, a)) (fun x w' => standing 0 Owner w' /\ valid (fst x) w') w.
Proof.
  intros Hs Hv w1 He. cbn. split; [by apply (standing_expects 0 Owner Owner w)|by eapply valid_stable].
Qed.

Lemma lawful_set_running v : lawful anything (event_ok Owner) [] (atomic (modify (set_running v))).
Proof. apply lawful_atomic, block_modify; [apply keeps_set_running|done|done]. Qed.

Lemma no_handles_valid w : valid no_handles w.
Proof. by split. Qed.

Lemma halted_law h (p : prog unit) w : lawful same_run (event_ok Owner) [] p -> standing 0 Owner w -> halted h w ->
  okp (law 0 Owner) 0 [] p (fun _ w' => standing 0 Owner w' /\ halted h w') w.
Proof.
  intros Hp Hs Hh. apply (lawful_law 0 Owner same_run (halted h)); [done|by intros; eapply halted_stable| |done..].
  intros hl w1 s ev [H1 H2] Hc Hr. split; [by apply valid_after|]. cbn. by rewrite Hr.
Qed.

(** Waiting for a loop that has been told to leave, if there is one. *)
Lemma join_law h (t : option nat) (p : prog unit) w :
  (forall n w', t = Some n -> valid h w' -> is_loop n w') -> lawful same_run (event_ok Owner) [] p ->
  standing 0 Owner w -> halted h w ->
  okp (law 0 Owner) 0 [] (match t with Some n => Join n p | None => Done tt end)
    (fun _ w' => standing 0 Owner w' /\ halted h w') w.
Proof.
  intros Ht Hp Hs Hh. destruct t as [n|]; [|by apply halted_law]. intros w1 He.
  pose proof (standing_expects 0 Owner Owner w w1 He Hs) as Hs1. pose proof (halted_stable h w w1 Hh He) as Hh1.
  split; [|intros _; by apply halted_law]. destruct Hh1 as [Hv1 Hr1]. split_and!; [done|done|by apply (Ht n)].
Qed.

(** The run flag goes down. *)
Lemma halt_law h w : standing 0 Owner w -> valid h w ->
  okp (law 0 Owner) 0 [] (atomic (modify (set_running false))) (fun _ w' => standing 0 Owner w' /\ halted h w') w.
Proof.
  intros Hs Hv w1 He1. pose proof (standing_expects 0 Owner Owner w w1 He1 Hs) as Hs1.
  pose proof (valid_stable h w w1 Hv He1) as Hv1. apply wpM_modify.
  assert (Hwf : wf (set_running false (w_sh w1))).
  { exact (proj1 (keeps_set_running false _ (good_wf _ (standing_good _ _ _ Hs1)))). }
  destruct (step_promise 0 Owner [] w1 (set_running false (w_sh w1)) []) as [Hp Hs2]; [done|done|by repeat split|done|done|].
  split; [exact Hp|]. intros w2 He2. split; [by apply (standing_expects 0 Owner Owner _ w2 He2)|].
  eapply halted_stable; [|exact He2]. split; [by apply valid_after|done].
Qed.

Lemma stop_law h sends w : standing 0 Owner w -> valid h w ->
  okp (law 0 Owner) 0 [] (stop_p h sends) (fun h' w' => standing 0 Owner w' /\ valid h' w') w.
Proof.
  intros Hs Hv. unfold stop_p.
  apply (valid_part h); [by apply safe_lawful|auto with prog|done|done|]. clear w Hs Hv. intros [] w Hs Hv.
  apply (valid_part h); [by apply lawful_atomic, block_gets, _|auto with prog|done|done|]. clear w Hs Hv.
  intros run w Hs Hv. destruct (negb run).
  { intros w1 He. split; [by apply (standing_expects 0 Owner Owner w)|by eapply valid_stable]. }
  apply (valid_part h); [by apply lawful_transition|auto with prog|done|done|]. clear w Hs Hv. intros [] w Hs Hv.
  apply (okp_bind _ _ _ _ _ _ [] []); [by auto with prog| |done].
  eapply okp_mono; [by apply (halt_law h)|]. clear w Hs Hv. intros [] w [Hs Hh].
  apply (okp_bind _ _ _ _ _ _ [] []); [by destruct (tx_handle h); cbn; auto with prog| |done].
  eapply okp_mono; [apply (join_law h); [intros n w' Ht Hv; by apply (proj1 Hv)| |done|done]|].
  { apply stop_frames_lawful; [apply _|auto with law..]. }
  clear w Hs Hh. intros [] w [Hs Hh].
  apply (okp_bind _ _ _ _ _ _ [] []); [by destruct (rx_handle h)| |done].
  eapply okp_mono; [by apply (join_law h); [intros n w' Ht Hv; apply (proj2 Hv)|..]|].
  clear w Hs Hh. intros [] w [Hs Hh].
  apply (halted_part h); [apply lawful_transition; [apply _|auto with law..]|auto with prog|done|done|].
  clear w Hs Hh. intros [] w Hs Hh w1 He.
  split; [by apply (standing_expects 0 Owner Owner w)|apply no_handles_valid].
Qed.

(** A spawn of the owner: the new thread is one of its loops. *)
Lemma spawn_law {A} x (k : nat -> prog A) h Q w : standing 0 Owner w -> valid h w ->
  (forall t w', standing 0 Owner w' -> valid h w' -> is_loop t w' -> okp (law 0 Owner) 0 [] (k t) Q w') ->
  okp (law 0 Owner) 0 [] (Spawn x k) Q w.
Proof.
  intros Hs Hv Hk w1 He. pose proof (standing_expects 0 Owner Owner w w1 He Hs) as Hs1.
  pose proof (valid_stable h w w1 Hv He) as Hv1. destruct (any_spawn x w1 (standing_good _ _ _ Hs1)) as (Hp & _ & Hl).
  split; [done|]. split; [exact Hp|]. apply Hk; [by apply standing_spawn| |done].
  eapply valid_moves; [apply spawn_moves|done].
Qed.

Lemma start_law h e w : standing 0 Owner w -> valid h w ->
  okp (law 0 Owner) 0 [] (start_p h e) (fun x w' => standing 0 Owner w' /\ valid (fst x) w') w.
Proof.
  intros Hs Hv. unfold start_p.
  assert (Hatomic : forall {A} (m : M A), block anything m -> lawful anything (event_ok Owner) [] (atomic m))
    by (intros; by apply lawful_atomic).
  apply (valid_part h); [by apply lawful_locked, block_gets, _|auto with prog|done|done|]. clear w Hs Hv. intros st w Hs Hv.
  destruct (negb (startable st)); [by apply owner_done|].
  apply (valid_part h); [by apply lawful_transition|auto with prog|done|done|]. clear w Hs Hv. intros [] w Hs Hv.
  apply (valid_part h); [apply lawful_set_running|auto with prog|done|done|]. clear w Hs Hv. intros [] w Hs Hv.
  apply (valid_part h); [|auto with prog|done|done|].
  { apply lawful_stats; [|done]. apply keeps_stats. intros. unfold u32_ok. cbn. lia. }
  clear w Hs Hv. intros [] w Hs Hv.
  apply (valid_part h); [by apply lawful_atomic, block_faulted|auto with prog|done|done|]. clear w Hs Hv. intros [] w Hs Hv.
  apply (valid_part h); [by apply lawful_locked, block_modify; [apply keeps_set_last|..]|auto with prog|done|done|].
  clear w Hs Hv. intros [] w Hs Hv.
  destruct (open_tx e); [by apply owner_done|]. destruct (open_rx e); [by apply owner_done|].
  apply (valid_part h); [by apply lawful_locked, block_swap|auto with prog|done|done|]. clear w Hs Hv. intros [] w Hs Hv.
  destruct (spawn_tx e); [by apply owner_done|].
  apply (spawn_law _ _ h); [done|done|]. clear w Hs Hv. intros tx w Hs Hv Htx.
  destruct (spawn_rx e).
  { apply owner_done; [done|]. split; cbn; [by intros t [= <-]|apply Hv]. }
  set (h1 := {| tx_handle := Some tx; rx_handle := rx_handle h |}).
  apply (spawn_law _ _ h1); [done| |]. { split; [by intros t [= <-]|apply Hv]. }
  clear w Hs Hv Htx. intros rx w Hs Hv Hrx. set (h2 := {| tx_handle := Some tx; rx_handle := Some rx |}).
  assert (Hv2 : valid h2 w). { split; [intros t [= <-]; by apply (proj1 Hv)|by intros t [= <-]]. }
  apply (valid_part h2); [by apply lawful_transition|auto with prog|done|done|]. clear w Hs Hv Hrx Hv2. intros [] w Hs Hv.
  by apply owner_done.
Qed.

Lemma exclusive_law h c w : choice_ok (Own c) -> standing 0 Owner w -> valid h w ->
  okp (law 0 Owner) 0 [] (let% r := exclusive_call h c in Done (NextOwner (fst r) (snd r))) (post 0 Owner) w.
Proof.
  intros Hc Hs Hv. apply (okp_bind _ _ _ _ _ _ [] []); [by auto with prog| |done].
  apply (okp_mono _ _ _ (fun x w' => standing 0 Owner w' /\ valid (fst x) w')).
  2: { intros [h' r] w1 [Hs1 Hv1] w2 He. split_and!; [|done|].
       - exact (standing_good _ _ _ (standing_expects 0 Owner Owner w1 w2 He Hs1)).
       - by eapply valid_stable. }
  assert (Hstop : forall sends w, standing 0 Owner w -> valid h w ->
    okp (law 0 Owner) 0 [] (let% h' := stop_p h sends in Done (h', RNone))
      (fun x w' => standing 0 Owner w' /\ valid (fst x) w') w).
  { clear w Hs Hv. intros sends w Hs Hv. apply (okp_bind _ _ _ _ _ _ [] []); [by auto with prog| |done].
    eapply okp_mono; [by apply stop_law|]. intros h' w1 [Hs1 Hv1]. by apply owner_done. }
  destruct c as [e|sends|sl ss d sends]; cbn [exclusive_call]; [|by apply Hstop|].
  - apply (okp_bind _ _ _ _ _ _ [] []); [by auto with prog| |done].
    eapply okp_mono; [by apply start_law|]. intros [h' r] w1 [Hs1 Hv1]. by apply owner_done.
  - apply (valid_part h); [|auto with prog|done|done|intros [] w1 Hs1 Hv1; by apply Hstop].
    apply lawful_locked, block_modify; [by apply keeps_safe_image|done|done].
Qed.

(** ** Reachable configurations *)

(** What every schedule from a controller in [w0] maintains. *)
Definition good_from (w0 w : World) : Prop := good w /\ moves w0 w.
Definition reachable_ok (w0 : World) : Config -> Prop := sound law post (good_from w0).

Lemma law_compatible i j ri rj h w w' : i <> j -> good w ->
  w_threads w !! i = Some (ri, false) -> w_threads w !! j = Some (rj, false) ->
  promise i ri h w w' -> expects rj w w'.
Proof.
  intros Hij Hw Hi Hj Hp. split_and!; [apply Hp|apply Hp|]. intros ->.
  pose proof (good_single w Hw _ _ Hj) as ->. pose proof (promise_conduct _ _ _ _ _ Hp) as Hc.
  destruct ri; [by pose proof (good_single w Hw _ _ Hi)|apply Hc..].
Qed.

Lemma begin_leave c ch k : begin c k ch = Some Leave -> (exists l, k = NextTx l) \/ exists b, k = NextRx b.
Proof.
  destruct k as [l|b|h r|r], ch; cbn; try done; eauto; intros H; by repeat case_match.
Qed.

Lemma leaving_good i ri k w : good w -> w_threads w !! i = Some (ri, false) -> post i ri k w ->
  (exists c ch, begin c k ch = Some Leave) -> good (left_loop i ri w) /\ moves w (left_loop i ri w).
Proof.
  intros Hw Hi (_ & Hf & _) (c & ch & Hb). assert (Hr : ri <> Owner).
  { apply begin_leave in Hb as [[l ->]|[b ->]]; by destruct ri. }
  assert (Hm : grows (w_threads w) (<[i := (ri, true)]> (w_threads w))).
  { intros j r b Hj. destruct (decide (i = j)) as [<-|Hij].
    - exists true. rewrite list_lookup_insert_eq by (by eapply lookup_lt_Some). by simplify_eq.
    - exists b. by rewrite list_lookup_insert_ne. }
  split; [|by split]. destruct Hw as [H1 H2 H3 H4]. constructor; cbn; [done| | |].
  - eapply Forall_impl; [exact H2|]. intros e. by apply entry_ok_grows.
  - rewrite list_lookup_insert_ne; [done|]. intros ->. congruence.
  - intros j b Hj. apply list_lookup_insert_Some in Hj as [(_ & [= E _] & _)|[_ Hj]]; [congruence|by eapply H4].
Qed.

Lemma Pass_inj p q : Some (Pass p) = Some (Pass q) -> p = q.
Proof. congruence. Qed.

Lemma begin_law i ri k c ch p : choice_ok ch -> w_threads (view c) !! i = Some (ri, false) -> post i ri k (view c) ->
  begin c k ch = Some (Pass p) -> okp (law i ri) i [] p (post i ri) (view c) /\ ordered [] p [].
Proof.
  intros Ha Hi (Hg & Hf & Hk) Hb. assert (Hs : standing i ri (view c)) by (split; [done|by exists false]).
  destruct k as [l|[]|h rep|rep], ch as [|now send|r t1 t2 t3|call|call]; unfold begin in Hb; try done.
  - destruct (running (sh c)); [|done]. apply Pass_inj in Hb as <-. destruct ri; try done. split; [|auto with prog].
    apply (turn_law i TxLoop (tx_pass_p now send l) NextTx); [apply tx_pass_lawful|auto with prog|done|done|done].
  - destruct (running (sh c)); [|done]. apply Pass_inj in Hb as <-. destruct ri; try done. split; [|auto with prog].
    apply (turn_law i RxLoop (rx_pass_p r t1 t2 t3) NextRx); [apply rx_pass_lawful|auto with prog|done|done|done].
  - destruct (resting Caller (threads c)); [|done]. apply Pass_inj in Hb as <-. destruct ri; try done.
    pose proof (good_single _ Hg _ _ Hi) as ->. split; [by apply exclusive_law|auto with prog].
  - destruct (resting Owner (threads c)); [|done]. apply Pass_inj in Hb as <-. destruct ri; try done. split; [|auto with prog].
    apply (turn_law i Caller (shared_call call) NextCaller); [by apply shared_call_lawful|auto with prog|done|done|done].
Qed.

Lemma spawned_law x w : good (with_thread x w) ->
  let j := length (w_threads w) in let t := spawned x in
  okp (law j (role t)) j (held t) (code t) (post j (role t)) (with_thread x w).
Proof.
  intros Hg j t. assert (Hs : standing j (role t) (with_thread x w)).
  { split; [done|]. exists false. cbn. rewrite list_lookup_middle by done. by destruct x. }
  destruct x as [now|now]; subst t; cbn [spawned role held code] in *.
  - intros w1 He. split_and!; [|done|done]. exact (standing_good _ _ _ (standing_expects j _ _ _ _ He Hs)).
  - apply turn_law; [|unfold rx_start_p; auto with prog|done|done|done]. apply rx_stats_lawful. by apply keeps_stats.
Qed.

(** Every step from a reachable configuration stays reachable, and none
    panics. *)
Lemma reachable_step w0 c i ch : reachable_ok w0 c -> choice_ok ch -> total (step c i ch) (reachable_ok w0).
Proof.
  apply (step_sound law post (good_from w0) choice_ok); clear c i ch.
  - intros. by apply law_ok.
  - intros i j ri rj h w w' Hij [Hw _]. by apply law_compatible.
  - intros i j ri rj k w Hij [Hw _] Hi Hj Hp Hb. destruct (leaving_good i ri k w Hw Hi Hp Hb) as [H1 H2]. by split_and!.
  - intros i ri k w [Hw Hm] Hi Hp Hb. destruct (leaving_good i ri k w Hw Hi Hp Hb) as [H1 H2].
    split; [done|by etransitivity].
  - intros i ri h w w' [Hw Hm] Hi Hp. split; [by apply (promise_good _ _ _ _ _ Hp)|].
    etransitivity; [done|apply Hp].
  - intros i ri k c ch p Hc Ha Hi Hp Hb. by apply (begin_law i ri k c ch).
  - intros i ri x w [Hw _] Hi Hsp Hp. apply spawned_law, (promise_good _ _ _ _ _ Hp), Hw.
Qed.

Lemma reachable_run w0 l c : reachable_ok w0 c -> Forall (fun x => choice_ok (snd x)) l ->
  total (run l c) (reachable_ok w0).
Proof.
  revert c. induction l as [|[i ch] l IH]; intros c Hc Hl; [done|]. cbn [run].
  apply Forall_cons in Hl as [Ha Hl]. apply wp_bind. eapply total_mono; [by apply reachable_step|]. intros c' Hc'. by apply IH.
Qed.

Lemma fresh_lookup s n i t : threads (fresh s n) !! i = Some t -> (i = 0%nat /\ t = owner_thread) \/ (i <> 0%nat /\ t = caller_thread).
Proof.
  destruct i as [|i]; cbn; [intros [= <-]; by left|]. intros [-> _]%lookup_replicate. by right.
Qed.

Lemma fresh_reachable s n : wf s -> reachable_ok (view (fresh s n)) (fresh s n).
Proof.
  intros Hs. assert (Hg : good (view (fresh s n))).
  { constructor; [done|constructor|done|]. intros j b Hj. cbn [w_threads view] in Hj. rewrite list_lookup_fmap in Hj.
    destruct (threads (fresh s n) !! j) as [t|] eqn:Ht; [|done]. by destruct (fresh_lookup _ _ _ _ Ht) as [[-> _]|[_ ->]]. }
  constructor; [| | |by split].
  - intros i t Hi _. destruct (fresh_lookup _ _ _ _ Hi) as [[-> ->]|[_ ->]]; (split_and!; [|done|done]);
      intros w1 He; (split_and!; [by apply He|done|]); by try apply no_handles_valid.
  - intros i t Hi _. by destruct (fresh_lookup _ _ _ _ Hi) as [[-> ->]|[_ ->]].
  - intros i j ti tj l Hi Hj Hl. destruct (fresh_lookup _ _ _ _ Hi) as [[-> ->]|[_ ->]]; by apply elem_of_nil in Hl.
Qed.

(** ** Theorems *)

(** A schedule whose data are bytes. *)
Definition schedule_ok (l : schedule) : Prop := Forall (fun x => choice_ok (snd x)) l.

Lemma fresh_run s n l : shared_ok s -> schedule_ok l ->
  total (run l (fresh s n)) (reachable_ok (view (fresh s n))).
Proof. intros Hs Hl. by apply reachable_run, Hl; apply fresh_reachable, shared_ok_wf. Qed.

(** C7: No schedule breaks the controller.  However the scheduler interleaves,
    lock by lock, the transmit and receive loops, the owner's starts and stops
    (also repeated ones, and a start that fails) and the calls of any number of
    other borrowers, with whatever the sockets and clocks answer, no step
    panics; the shared state keeps its invariant and its configuration, and no
    lock is ever held by two threads. *)
Theorem every_schedule_is_safe s n l :
  shared_ok s -> schedule_ok l ->
  total (run l (fresh s n)) (fun c =>
    wf (sh c) /\ same_config s (sh c) /\
    forall i j ti tj k, threads c !! i = Some ti -> threads c !! j = Some tj ->
      k ∈ held ti -> k ∈ held tj -> i = j).
Proof.
  intros Hs Hl. eapply total_mono; [by apply fresh_run|]. intros c Hc.
  destruct (sound_world _ _ _ c Hc) as [Hg [Hm _]]. split_and!; [apply Hg|done|apply Hc].
Qed.

(** C9: A callback never runs under a lock.  In every schedule each callback
    and each frame comes from a thread that holds no lock, with one exception,
    the error of a stop whose safe output cannot be applied, which runs under
    the lock of the safe output; and frames come from a transmit loop or from
    the owner only. *)
Theorem callbacks_run_unlocked s n l :
  shared_ok s -> schedule_ok l ->
  total (run l (fresh s n)) (fun c => forall e, e ∈ trace c ->
    (under e = [] \/
     under e = [LSafeOutput] /\ exists m, what e = ErrorMessage ("safe output not applied: " +:+ m)) /\
    forall f, what e = Sent f ->
      exists t, threads c !! by_thread e = Some t /\ (role t = TxLoop \/ role t = Owner)).
Proof.
  intros Hs Hl. eapply total_mono; [by apply fresh_run|]. intros c Hc e He.
  destruct (sound_world _ _ _ c Hc) as [[_ Ht _ _] _]. rewrite Forall_forall in Ht.
  destruct (Ht e He) as (r & b & Hr & He1 & He2). split; [done|]. intros f Hf.
  cbn in Hr. rewrite list_lookup_fmap in Hr. destruct (threads c !! by_thread e) as [t|]; [|done].
  exists t. split; [done|]. injection Hr as <- _. by eapply He2.
Qed.
