(* ===== verification/Interleave.v ===== *)
(** * Deadlock, the interleaved stop, and the schedules that go wrong
    ([src/src/cyclic.rs])

    The theorems of the controller's threads that need more than the invariant
    of [Schedules]: every call returns whatever has been interleaved before;
    the STOP frames are the last of the wire and carry the safe output under
    every schedule; and the interleavings the code does not survive, run
    concretely. *)

From S2P Require Import Prelude Fmt Util Gsdml Rt Cyclic Idle Threads Schedules.

#[local] Open Scope list_scope.
#[local] Open Scope Z_scope.

(** ** The steps a thread has left *)

(** [t'] is [t] one step further, or out of its loop. *)
Definition next_of (t' t : thread) : Prop :=
  ended t = false /\
  match code t with
  | Done k => t' = mkThread (role t) (held t) (Done k) true
  | Do m k => exists b, t' = mkThread (role t) (held t) (k b) false
  | Lck l p => t' = mkThread (role t) (l :: held t) p false
  | Unl l p => t' = mkThread (role t) (release l (held t)) p false
  | Spawn x k => exists n, t' = mkThread (role t) (held t) (k n) false
  | Join n p => t' = mkThread (role t) (held t) p false
  end.

Lemma next_of_acc t : Acc next_of t.
Proof.
  assert (Hend : forall t, ended t = true -> Acc next_of t).
  { intros u Hu. constructor. intros t' [He _]. congruence. }
  destruct t as [r h p []]; [by apply Hend|]. revert h.
  induction p as [k|B m k IH|l p IH|l p IH|x k IH|n p IH]; intros h; constructor; intros t' [_ Ht]; cbn in Ht.
  - subst. by apply Hend.
  - destruct Ht as [b ->]. apply IH.
  - subst. apply IH.
  - subst. apply IH.
  - destruct Ht as [b ->]. apply IH.
  - subst. apply IH.
Qed.

(** The measure of a configuration, for a well-founded measure of a thread. *)
Section measure.
Context (nx : thread -> thread -> Prop) (nx_acc : forall t, Acc nx t).

(** One of the threads is a step further. *)
Definition nexts (l' l : list thread) : Prop :=
  exists i t t', l !! i = Some t /\ nx t' t /\ l' = <[i := t']> l.

Lemma nexts_acc l : Acc nexts l.
Proof.
  induction l as [|t l IH].
  - constructor. intros l' (i & t & t' & Hi & _). done.
  - revert l IH. induction (nx_acc t) as [t _ IHt]. intros l Hl. induction Hl as [l Hl IHl].
    constructor. intros l' (i & u & u' & Hi & Hu & ->). destruct i as [|i]; cbn in *.
    + injection Hi as ->. apply IHt; [done|]. by constructor.
    + apply IHl. by exists i, u, u'.
Qed.

(** The owner's steps first: they may spawn. *)
Definition shorter (c' c : Config) : Prop :=
  exists t l, threads c = t :: l /\
    ((exists t' l', threads c' = t' :: l' /\ nx t' t) \/
     (exists l', threads c' = t :: l' /\ nexts l' l)).

Lemma shorter_acc c : Acc shorter c.
Proof.
  destruct (threads c) as [|t l] eqn:Hc.
  { constructor. intros c' (t & l & Ht & _). congruence. }
  revert l c Hc. induction (nx_acc t) as [t _ IHt]. intros l.
  induction (nexts_acc l) as [l _ IHl]. intros c Hc. constructor. intros c' (u & k & Hu & H).
  assert (u = t /\ k = l) as [-> ->] by (split; congruence).
  destruct H as [(t' & l' & Hc' & Hn)|(l' & Hc' & Hn)]; eauto.
Qed.

(** A step of one thread, with the threads it may have spawned, shortens. *)
Lemma shorter_put i t t' new c c' : threads c !! i = Some t -> nx t' t ->
  threads c' = <[i := t']> (threads c) ++ new -> (new = [] \/ i = 0%nat) -> shorter c' c.
Proof.
  intros Hi Hn Hc' Hnew. destruct (threads c) as [|u l] eqn:Hc; [done|]. exists u, l. split; [done|].
  destruct i as [|i]; cbn in *; [injection Hi as ->; left; eauto|].
  right. destruct Hnew as [->|]; [|done]. rewrite app_nil_r in Hc'. eexists. split; [exact Hc'|]. by exists i, t, t'.
Qed.
End measure.

(** ** Some thread can always go on *)

(** A choice that starts no new call. *)
Definition quiet (ch : choice) : Prop :=
  match ch with Call _ | Own _ => False | _ => True end.

Lemma quiet_ok l : Forall (fun x => quiet (snd x)) l -> schedule_ok l.
Proof. intros H. eapply Forall_impl; [exact H|]. intros [i ch] Hq. by destruct ch. Qed.

(** The thread is inside a pass or a call and its next step is enabled. *)
Definition ready (c : Config) (t : thread) : bool :=
  match code t with
  | Done _ => false
  | Lck l _ => lock_free l (threads c)
  | Join n _ => has_ended n (threads c)
  | _ => true
  end.

(** A step that is ready takes its thread further; only the owner may also add
    a thread. *)
Lemma ready_step c c' i t : threads c !! i = Some t -> ended t = false -> ready c t = true ->
  (forall x k, code t = Spawn x k -> i = 0%nat) -> step c i Go = Ok c' ->
  exists t' new, threads c' = <[i := t']> (threads c) ++ new /\ next_of t' t /\ (new = [] \/ i = 0%nat).
Proof.
  intros Hi He Hr Hsp Hs. unfold step in Hs. rewrite Hi, He in Hs.
  unfold ready, next_of in *. destruct (code t) as [k|B m k|l p|l p|x k|n p]; try done.
  - apply bind_Ok_inv in Hs as ([[b s] ev] & _ & [= <-]). eexists _, []. rewrite app_nil_r. by split_and!; eauto.
  - rewrite Hr in Hs. injection Hs as <-. eexists _, []. rewrite app_nil_r. by split_and!; eauto.
  - injection Hs as <-. eexists _, []. rewrite app_nil_r. by split_and!; eauto.
  - injection Hs as <-. eexists _, _. split_and!; [done|done|by eauto|]. right. by eapply Hsp.
  - rewrite Hr in Hs. injection Hs as <-. eexists _, []. rewrite app_nil_r. by split_and!; eauto.
Qed.

Lemma lock_held l ts : lock_free l ts = false -> exists (j : nat) u, ts !! j = Some u /\ l ∈ held u.
Proof.
  induction ts as [|t ts IH]; [done|]. unfold lock_free in *. cbn [forallb].
  destruct (decide (l ∈ held t)) as [Hl|Hl]; [by exists 0%nat, t|].
  rewrite bool_decide_eq_false_2 by done. cbn [negb andb]. intros (j & u & ? & ?)%IH. by exists (S j), u.
Qed.

Section live.
(** Laws under which the owner alone spawns and waits. *)
Context (L : nat -> Role -> Law) `{Hok : !forall i r, LawOk (L i r)}.
Context (L_spawns : forall i r, Spawns (L i r) -> r = Owner).
Context (L_joins : forall i r n w, Joinable (L i r) n w -> r = Owner /\ running (w_sh w) = false /\ is_loop n w).
Context (w0 : World) (c : Config) (Hc : sound L post (good_from w0) c).

Lemma live_facts i t : threads c !! i = Some t -> ended t = false ->
    okp (L i (role t)) i (held t) (code t) (post i (role t)) (view c) /\ ordered (held t) (code t) [].
Proof. intros Hi He. by destruct (sound_threads _ _ _ c Hc i t Hi He) as (? & ? & _). Qed.

Lemma owner_index i t : threads c !! i = Some t -> role t = Owner -> i = 0%nat.
Proof.
    intros Hi Hr. destruct (sound_world _ _ _ c Hc) as [[_ _ _ H] _]. apply (H i (ended t)). cbn.
    rewrite list_lookup_fmap, Hi. cbn. unfold status. by rewrite Hr.
Qed.

(** Only the owner spawns and waits, and it waits for loops it has told to
      leave. *)
Lemma spawn_is_owner i t x k : threads c !! i = Some t -> ended t = false -> code t = Spawn x k -> i = 0%nat.
Proof.
    intros Hi He Hk. destruct (live_facts i t Hi He) as [Hl _]. rewrite Hk in Hl.
    destruct (Hl (view c)) as (Hsp & _); [reflexivity|]. eapply owner_index; [done|by eapply L_spawns].
Qed.
Lemma join_facts i t n p : threads c !! i = Some t -> ended t = false -> code t = Join n p ->
    i = 0%nat /\ running (sh c) = false /\ is_loop n (view c).
Proof.
    intros Hi He Hk. destruct (live_facts i t Hi He) as [Hl _]. rewrite Hk in Hl.
    destruct (Hl (view c)) as ((Hr & H1 & H2)%L_joins & _); [reflexivity|]. split_and!; [by eapply owner_index|done|done].
Qed.

(** Along the locks: whoever waits for one waits for a thread that holds a
      lock of lower rank and waits, if at all, for one of higher rank. *)
Lemma lock_chain n : forall l, (8 - rank l <= n)%nat -> lock_free l (threads c) = false ->
    exists j u, threads c !! j = Some u /\ ended u = false /\ ready c u = true.
Proof.
    induction n as [|n IH]; intros l Hn Hf; [by destruct l; cbn in Hn; lia|].
    assert (exists j u, threads c !! j = Some u /\ l ∈ held u) as (j & u & Hj & Hl).
    { by apply lock_held. }
    destruct (ended u) eqn:He; [rewrite (proj1 (sound_ended _ _ _ c Hc j u Hj He)) in Hl; by apply elem_of_nil in Hl|].
    destruct (live_facts j u Hj He) as [_ Ho]. unfold ready.
    destruct (code u) as [k|B m k|l' p|l' p|x k|m p] eqn:Hcode; cbn in Ho.
    - rewrite Ho in Hl. by apply elem_of_nil in Hl.
    - exists j, u. by rewrite Hcode.
    - destruct Ho as [Hr _]. rewrite Forall_forall in Hr. specialize (Hr l Hl).
      destruct (lock_free l' (threads c)) eqn:Hf'; [exists j, u; by rewrite Hcode|]. apply (IH l'); [lia|done].
    - exists j, u. by rewrite Hcode.
    - destruct Ho as [Ho _]. rewrite Ho in Hl. by apply elem_of_nil in Hl.
    - destruct Ho as [Ho _]. rewrite Ho in Hl. by apply elem_of_nil in Hl.
Qed.

(** A thread inside its pass or call: some thread is ready, or a loop may
      leave. *)
Lemma someone_ready i t : threads c !! i = Some t -> ended t = false -> at_head t = false ->
    (exists j u, threads c !! j = Some u /\ ended u = false /\ ready c u = true) \/
    (exists j u k, threads c !! j = Some u /\ ended u = false /\ code u = Done k /\ running (sh c) = false /\
       (role u = TxLoop \/ role u = RxLoop)).
Proof.
    assert (Hmid : forall i t, threads c !! i = Some t -> ended t = false -> at_head t = false ->
      (forall n p, code t <> Join n p) -> exists j u, threads c !! j = Some u /\ ended u = false /\ ready c u = true).
    { intros j u Hj He Hh Hno. destruct (ready c u) eqn:Hr; [eauto|]. unfold ready, at_head in *.
      destruct (code u) as [k|B m k|l p|l p|x k|n p]; try done; [by apply (lock_chain 8 l); [lia|]|].
      by destruct (Hno n p). }
    intros Hi He Hh. destruct (code t) as [k|B m k|l p|l p|x k|n p] eqn:Hcode;
      try (left; eapply (Hmid i t); try done; intros ? ?; rewrite Hcode; done).
    destruct (join_facts i t n p Hi He Hcode) as (-> & Hrun & r & b & Hn & Hr).
    cbn in Hn. rewrite list_lookup_fmap in Hn. destruct (threads c !! n) as [u|] eqn:Hu; [|done]. injection Hn as Hru Hbu.
    destruct (ended u) eqn:Heu.
    { left. exists 0%nat, t. split_and!; [done|done|]. unfold ready. rewrite Hcode. unfold has_ended. by rewrite Hu. }
    destruct (code u) as [k| | | | |] eqn:Hcu; [right; exists n, u, k; split_and!; try done; by rewrite Hru|..].
    all: left; eapply (Hmid n u); [done|done|unfold at_head; by rewrite Hcu|]; intros m0 q Hq.
    all: destruct (join_facts n u m0 q Hu Heu Hq) as (-> & _); assert (u = t) as -> by congruence.
    all: destruct (sound_world _ _ _ c Hc) as [[_ _ Ho _] _]; cbn in Ho; rewrite list_lookup_fmap, Hi in Ho.
    all: injection Ho as Ho _; rewrite <- Hru, Ho in Hr; by destruct Hr.
Qed.

(** The choice that makes a loop leave. *)
Lemma leave_step j u k : threads c !! j = Some u -> ended u = false -> code u = Done k ->
    running (sh c) = false -> (role u = TxLoop \/ role u = RxLoop) ->
    exists ch, quiet ch /\ step c j ch = Ok (put j (mkThread (role u) (held u) (Done k) true) c).
Proof.
    intros Hj He Hk Hrun Hr. destruct (live_facts j u Hj He) as [Hl _]. rewrite Hk in Hl.
    assert (Hp : post j (role u) k (view c)) by (by apply (Hl (view c))). destruct Hp as (_ & Hf & _).
    assert (exists ch, quiet ch /\ begin c k ch = Some Leave) as (ch & H1 & Hb).
    { destruct k as [l|b|h rep|rep].
      - exists (TxTurn 0 None). split; [done|]. cbn. by rewrite Hrun.
      - exists (RxTurn RecvNothing 0 0 0). split; [done|]. destruct b; cbn; by rewrite ?Hrun.
      - by destruct Hr as [Hr|Hr]; rewrite Hr in Hf.
      - by destruct Hr as [Hr|Hr]; rewrite Hr in Hf. }
    exists ch. split; [done|]. unfold step. by rewrite Hj, He, Hk, Hb.
Qed.

(** While a thread is inside its pass or call, a step that starts no new call
    takes some thread further. *)
Lemma progress i t : (forall j ch, choice_ok ch -> total (step c j ch) (fun _ => True)) ->
    threads c !! i = Some t -> ended t = false -> at_head t = false ->
    exists j ch u u' new c1, quiet ch /\ threads c !! j = Some u /\ step c j ch = Ok c1 /\
      threads c1 = <[j := u']> (threads c) ++ new /\ next_of u' u /\ (new = [] \/ j = 0%nat).
Proof.
    intros Htot Hi He Hh.
    destruct (someone_ready i t Hi He Hh) as [(j & u & Hj & Heu & Hr)|(j & u & k & Hj & Heu & Hk & Hrun & Hr)].
    - destruct (total_Ok _ _ (Htot j Go I)) as (c1 & Hs & _).
      destruct (ready_step c c1 j u Hj Heu Hr) as (u' & new & H1 & H2 & H3); [|done|].
      { intros x k. by apply spawn_is_owner. }
      exists j, Go, u, u', new, c1. by split_and!.
    - destruct (leave_step j u k Hj Heu Hk Hrun Hr) as (ch & Hq & Hs).
      eexists j, ch, u, _, [], _. split_and!; [done|done|exact Hs|by rewrite app_nil_r| |by left].
      unfold next_of. by rewrite Hk.
Qed.
End live.

(** ** No deadlock *)

Section settling.
(** Steps [go] that keep the configuration sound and that take a thread further
    whenever those of the scheduler do. *)
Context (go : Config -> nat -> choice -> outcome Config) (nx : thread -> thread -> Prop).
Context (nx_acc : forall t, Acc nx t).
Context (L : nat -> Role -> Law) `{Hok : !forall i r, LawOk (L i r)}.
Context (L_spawns : forall i r, Spawns (L i r) -> r = Owner).
Context (L_joins : forall i r n w, Joinable (L i r) n w -> r = Owner /\ running (w_sh w) = false /\ is_loop n w).
Context (w0 : World).
Context (step_total : forall c i ch, sound L post (good_from w0) c -> choice_ok ch -> total (step c i ch) (fun _ => True)).
Context (go_sound : forall c i ch, sound L post (good_from w0) c -> choice_ok ch ->
  total (go c i ch) (sound L post (good_from w0))).
Context (go_next : forall c i ch t t' new c1 c', sound L post (good_from w0) c -> quiet ch -> threads c !! i = Some t ->
  step c i ch = Ok c1 -> threads c1 = <[i := t']> (threads c) ++ new -> next_of t' t -> (new = [] \/ i = 0%nat) ->
  go c i ch = Ok c' -> shorter nx c' c).

Fixpoint drive (l : schedule) (c : Config) : outcome Config :=
  match l with
  | [] => Ok c
  | (i, ch) :: l => let? c' := go c i ch in drive l c'
  end.

Lemma drive_sound l c : sound L post (good_from w0) c -> Forall (fun x => choice_ok (snd x)) l ->
  total (drive l c) (sound L post (good_from w0)).
Proof.
  revert c. induction l as [|[i ch] l IH]; intros c Hc Hl; [done|]. cbn [drive].
  apply Forall_cons in Hl as [Ha Hl]. apply wp_bind. eapply total_mono; [by apply go_sound|]. intros c' Hc'. by apply IH.
Qed.

Lemma settles c : sound L post (good_from w0) c ->
  exists l c', Forall (fun x => quiet (snd x)) l /\ drive l c = Ok c' /\ sound L post (good_from w0) c' /\
    Forall (fun t => at_head t = true) (threads c').
Proof.
  induction (shorter_acc nx nx_acc c) as [c _ IH]. intros Hc.
  destruct (decide (Forall (fun t => at_head t = true) (threads c))) as [Hall|Hno].
  { exists [], c. by split_and!. }
  apply not_Forall_Exists, Exists_exists in Hno as (t & Ht & Hh); [|apply _].
  apply list_elem_of_lookup in Ht as [i Hi]. apply not_true_is_false in Hh.
  assert (He : ended t = false).
  { destruct (ended t) eqn:He; [|done]. destruct (sound_ended _ _ _ c Hc i t Hi He). congruence. }
  destruct (progress L L_spawns L_joins w0 c Hc i t) as (j & ch & u & u' & new & c1 & Hq & Hj & Hs & Hc1 & Hn & Hnew);
    [by intros; apply step_total|done..|].
  assert (Ha : choice_ok ch) by by destruct ch.
  destruct (total_Ok _ _ (go_sound c j ch Hc Ha)) as (c2 & Hg & Hc2).
  destruct (IH c2 (go_next _ _ _ _ _ _ _ _ Hc Hq Hj Hs Hc1 Hn Hnew Hg) Hc2) as (l & c' & Hl & Hrun & Hc' & Hall).
  exists ((j, ch) :: l), c'. split_and!; [by constructor|cbn; by rewrite Hg|done|done].
Qed.

(** At the head nothing is held. *)
Lemma heads_hold_nothing c : sound L post (good_from w0) c -> Forall (fun t => at_head t = true) (threads c) ->
  Forall (fun t => at_head t = true /\ held t = []) (threads c).
Proof.
  intros Hc Hh. apply Forall_lookup. intros i t Hi. rewrite Forall_lookup in Hh. specialize (Hh i t Hi). split; [done|].
  destruct (ended t) eqn:He; [by apply (sound_ended _ _ _ c Hc i)|].
  destruct (live_facts L w0 c Hc i t Hi He) as [_ Ho]. unfold at_head in Hh. by destruct (code t).
Qed.
End settling.

Lemma run_drive l c : run l c = drive step l c.
Proof. revert c. induction l as [|[i ch] l IH]; intros c; cbn; [done|]. destruct (step c i ch); cbn; [apply IH|done..]. Qed.

Lemma law_spawns i r : Spawns (law i r) -> r = Owner.
Proof. done. Qed.
Lemma law_joins i r n w : Joinable (law i r) n w -> r = Owner /\ running (w_sh w) = false /\ is_loop n w.
Proof. done. Qed.

(** No schedule deadlocks.  Whatever has been interleaved, the calls under
    way return and every loop comes to the head of its next pass, with no new
    call and every lock released: no two threads ever wait for each other's
    locks, and the owner's stop waits only for loops it has told to leave. *)
Theorem no_schedule_deadlocks s n l c :
  shared_ok s -> schedule_ok l -> run l (fresh s n) = Ok c ->
  exists l' c', Forall (fun x => quiet (snd x)) l' /\ run l' c = Ok c' /\
    Forall (fun t => at_head t = true /\ held t = []) (threads c').
Proof.
  intros Hs Hl Hrun. pose proof (fresh_run s n l Hs Hl) as Hc. rewrite Hrun in Hc.
  destruct (settles step next_of next_of_acc law law_spawns law_joins (view (fresh s n))) with c
    as (l' & c' & Hq & Hr' & Hc' & Hh); [| | |done|].
  - intros c1 i ch Hc1 Ha. eapply total_mono; [by apply (reachable_step (view (fresh s n)))|done].
  - intros c1 i ch. apply reachable_step.
  - intros c1 i ch t t' new c2 c3 _ _ Hi Hs2 Ht2 Hn Hnew Hs3. assert (c3 = c2) as -> by congruence.
    by eapply shorter_put.
  - exists l', c'. split_and!; [done|by rewrite run_drive|by eapply heads_hold_nothing].
Qed.

(** ** Single steps in the logic *)

Lemma okp_locked {A} L i h l (m : M A) (Q : A -> World -> Prop) w :
  LawOk L -> Forall (fun x => rank x < rank l)%nat h ->
  (forall w1, Rely L w w1 -> wpM m (w_sh w1) (fun b s ev =>
     Guar L (l :: h) w1 (after i (l :: h) w1 s ev) /\ forall w3, Rely L (after i (l :: h) w1 s ev) w3 -> Q b w3)) ->
  okp L i h (locked l m) Q w.
Proof.
  intros HL Hr Hm w1 H1 w2 H2. eapply wpM_mono; [apply Hm; by transitivity w1|]. cbn -[release].
  intros b s ev [Hg Hq]. split; [done|]. intros w3 H3 w4 H4. apply Hq. by transitivity w3.
Qed.
Lemma okp_atomic {A} L i h (m : M A) (Q : A -> World -> Prop) w :
  (forall w1, Rely L w w1 -> wpM m (w_sh w1) (fun b s ev =>
     Guar L h w1 (after i h w1 s ev) /\ forall w3, Rely L (after i h w1 s ev) w3 -> Q b w3)) ->
  okp L i h (atomic m) Q w.
Proof. intros Hm w1 H1. by apply Hm. Qed.

(** The frames of a trace, with the thread that sent each. *)
Definition frames (es : list Entry) : list (nat * list Z) :=
  omap (fun e => match what e with Sent f => Some (by_thread e, f) | _ => None end) es.

Lemma frames_app a b : frames (a ++ b) = frames a ++ frames b.
Proof. apply omap_app. Qed.
Lemma frames_none es : Forall (fun e => silent_event (what e)) es -> frames es = [].
Proof.
  induction 1 as [|e es He _ IH]; [done|]. unfold frames in *. cbn. destruct (what e); try done. by destruct (He frame).
Qed.
Lemma frames_by (P : nat -> Prop) es : Forall (fun e => forall f, what e = Sent f -> P (by_thread e)) es ->
  Forall (fun x => P (fst x)) (frames es).
Proof.
  induction 1 as [|e es He _ IH]; [constructor|]. unfold frames in *. cbn. destruct (what e); try done.
  constructor; [by eapply He|done].
Qed.

(** ** The stop, interleaved *)

Section stop_order.
(** A running controller whose owner is about to stop it: its loops are [tx]
      and [rx], its safe output [d] for the submodule of [o]. *)
Context (c0 : Config) (tx rx : nat) (sl ss : Z) (d : list Z) (o : IoDataObject).
Context (Hobj : object_for sl ss (objects (output_iocr (sh c0))) = Some o) (Hpos : 0 < o_data_length o).

Definition loops_over (w : World) : Prop := is_ended tx w /\ is_ended rx w.
Definition linked (w : World) : Prop := forall j r, w_threads w !! j = Some (r, false) ->
    (r = TxLoop -> j = tx) /\ (r = RxLoop -> j = rx).

(** What the owner may count on while it stops: nobody else writes the safe
      output or unmakes the image; only [tx] sends, and not once it ended; and
      the state moves only while a loop lives. *)
Definition rely_stop (w w' : World) : Prop :=
    (good w -> good w') /\ moves w w' /\ same_run (w_sh w) (w_sh w') /\
    safe_output (w_sh w') = safe_output (w_sh w) /\ keeps_shown (w_sh w) (w_sh w') /\
    (loops_over w -> state (w_sh w') = state (w_sh w)) /\
    exists es, w_trace w' = w_trace w ++ es /\
      Forall (fun e => forall f, what e = Sent f -> by_thread e = tx /\ ~ is_ended tx w) es.

Lemma ended_moves t w w' : moves w w' -> is_ended t w -> is_ended t w'.
Proof. intros [_ Hg] [r Ht]. destruct (Hg _ _ _ Ht) as (b & Hb & He). exists r. by rewrite Hb, (He eq_refl). Qed.

Lemma rely_stop_trans : Transitive rely_stop.
Proof.
    intros a b c (A1 & A2 & A3 & A4 & A5 & A6 & es1 & A7 & A8) (B1 & B2 & B3 & B4 & B5 & B6 & es2 & B7 & B8).
    split_and!; [auto|by etransitivity|by etransitivity|congruence| | |].
    - intros o' d' Ho Hd Hs. apply B5; [|done|by apply A5]. destruct A2 as [(_&_&_&->&_) _]. done.
    - intros [H1 H2]. rewrite B6; [by apply A6|]. by split; eapply ended_moves.
    - exists (es1 ++ es2). split; [by rewrite B7, A7, app_assoc|]. apply Forall_app. split; [done|].
      eapply Forall_impl; [exact B8|]. intros e He f Hf. destruct (He f Hf) as [H1 H2]. split; [done|].
      intros Ht. apply H2. by eapply ended_moves.
Qed.

Definition law_stop (i : nat) (r : Role) : Law :=
    match r with
    | Owner => {| Rely := rely_stop;
                  Guar h w w' := promise 0 Owner h w w' /\ w_threads w' = w_threads w;
                  Joinable _ _ := True; Spawns := False |}
    | Caller => {| Rely _ _ := True; Guar _ _ _ := False; Joinable _ _ := False; Spawns := False |}
    | _ => law i r
    end.

#[local] Instance law_stop_ok i r : LawOk (law_stop i r).
Proof.
    destruct r; [|by split; repeat intros ?|apply law_ok..]. split; [|exact rely_stop_trans].
    intros w. split_and!; [done|done|done|done|by intros ? ?|done|]. exists []. split; [by rewrite app_nil_r|constructor].
Qed.

Definition stop_frame_ok (f : list Z) : Prop :=
    exists img, is_stop_frame (sh c0) img f /\ shows img o d.

(** The wire since the call: frames of [tx], then [n] STOP frames. *)
Definition wire (n : nat) (w : World) : Prop :=
    exists es a b, w_trace w = trace c0 ++ es /\ frames es = a ++ b /\
      Forall (fun x => fst x = tx) a /\ Forall (fun x => fst x = 0%nat /\ stop_frame_ok (snd x)) b /\ length b = n.

Lemma wire_rely n w w' : rely_stop w w' -> n = O \/ is_ended tx w -> wire n w -> wire n w'.
Proof.
    intros (_ & _ & _ & _ & _ & _ & es' & Ht & Hes) Hn (es & a & b & Hw & Hf & Ha & Hb & Hl).
    destruct Hn as [->|Hn].
    - destruct b; [|done]. rewrite app_nil_r in Hf. exists (es ++ es'), (a ++ frames es'), [].
      split_and!; [by rewrite Ht, Hw, app_assoc|by rewrite frames_app, Hf, app_nil_r| |done|done].
      apply Forall_app. split; [done|]. apply (frames_by (fun i => i = tx)).
      eapply Forall_impl; [exact Hes|]. intros e He f Hef. by apply (He f).
    - exists (es ++ es'), a, b. split_and!; [by rewrite Ht, Hw, app_assoc| |done..].
      rewrite frames_app, Hf, (frames_none es'), app_nil_r; [done|].
      eapply Forall_impl; [exact Hes|]. intros e He f Hef. by destruct (He f Hef) as [_ Hno].
Qed.
Lemma wire_silent n h w s ev : Forall silent_event ev -> wire n w -> wire n (after 0 h w s ev).
Proof.
    intros Hev (es & a & b & Hw & Hf & Hab). exists (es ++ (mkEntry 0 h <$> ev)), a, b.
    split; [cbn; by rewrite Hw, app_assoc|]. split; [|done].
    rewrite frames_app, Hf, (frames_none (mkEntry 0 h <$> ev)), app_nil_r; [done|]. by apply Forall_fmap.
Qed.
Lemma wire_sent n w s f : stop_frame_ok f -> wire n w -> wire (S n) (after 0 [] w s [Sent f]).
Proof.
    intros Hok (es & a & b & Hw & Hf & Ha & Hb & Hl). exists (es ++ [mkEntry 0 [] (Sent f)]), a, (b ++ [(0%nat, f)]).
    split_and!; [cbn; by rewrite Hw, app_assoc|by rewrite frames_app, Hf, <- app_assoc|done| |].
    - apply Forall_app. split; [done|]. by repeat constructor.
    - rewrite length_app. cbn. lia.
Qed.

(** The owner in the middle of its stop. *)
Definition based (w : World) : Prop := standing 0 Owner w /\ moves (view c0) w.
Definition shown (w : World) : Prop := shows (image (w_sh w)) o d.

Lemma based_rely w w' : rely_stop w w' -> based w -> based w'.
Proof.
    intros (H1 & H2 & H3 & _) [Hs Hm]. split; [|by etransitivity].
    apply (standing_expects 0 Owner Owner w); [|done]. by split_and!.
Qed.
Lemma based_object w : based w -> object_for sl ss (objects (output_iocr (w_sh w))) = Some o /\
    o ∈ objects (output_iocr (w_sh w)).
Proof. intros [_ [(_&_&_&Ho&_) _]]. cbn in Ho. rewrite Ho. split; [done|]. by apply (object_for_in _ _ _ _ Hobj). Qed.
Lemma shown_rely w w' : rely_stop w w' -> based w -> shown w -> shown w'.
Proof. intros (_ & _ & _ & _ & Hk & _) Hb Hs. apply Hk; [by apply based_object|done|done]. Qed.

Lemma based_step h w s ev : based w -> wf s -> same_config (w_sh w) s -> Forall (event_ok Owner h) ev ->
    Guar (law_stop 0 Owner) h w (after 0 h w s ev) /\ based (after 0 h w s ev).
Proof.
    intros [Hs Hm] Hwf Hc Hev. destruct (step_promise 0 Owner h w s ev) as [Hp Hs']; [done..|].
    split; [by split|]. split; [done|]. etransitivity; [done|apply Hp].
Qed.

(** Parts of the stop that send nothing and leave the image: the conduct. *)
Definition stop_conduct (s s' : Shared) : Prop :=
    image s' = image s /\ running s' = running s /\ output_iocr s' = output_iocr s.
#[local] Instance stop_conduct_preorder : PreOrder stop_conduct.
Proof. split; [done|]. unfold stop_conduct. intros a b c (?&?&?) (?&?&?). split_and!; congruence. Qed.

(** A phase of the stop: what the rely and the silent parts leave standing. *)
Record phase (X : World -> Prop) : Prop := {
    phase_rely : forall w w', rely_stop w w' -> based w -> X w -> X w';
    phase_step : forall h w s ev, X w -> stop_conduct (w_sh w) s -> Forall silent_event ev -> X (after 0 h w s ev);
  }.

Lemma caller_events h ev : Forall (event_ok Caller h) ev -> Forall (event_ok Owner h) ev /\ Forall silent_event ev.
Proof.
    intros H. split; (eapply Forall_impl; [exact H|]); intros e [H1 H2].
    - split; [done|]. intros f Hf. by destruct (H2 f Hf).
    - intros f Hf. by destruct (H2 f Hf).
Qed.

Lemma stop_part {A B} X (p : prog A) (f : A -> prog B) Q w :
    phase X -> lawful stop_conduct (event_ok Caller) [] p -> ordered [] p [] -> based w -> X w ->
    (forall a w', based w' -> X w' -> okp (law_stop 0 Owner) 0 [] (f a) Q w') ->
    okp (law_stop 0 Owner) 0 [] (bindP p f) Q w.
Proof.
    intros [HX1 HX2] Hp Ho Hb Hx Hf. apply (okp_bind _ _ _ _ _ _ [] []); [done| |done].
    apply (okp_mono _ _ _ (fun _ w' => based w' /\ X w')); [|by intros a w' [? ?]; apply Hf].
    apply (lawful_okp _ _ stop_conduct (event_ok Caller)); [apply _|..|done|done].
    - intros w1 w2 [H1 H2] Hr. split; [by eapply based_rely|by eapply HX1].
    - intros w1 [[[H _] _] _]. apply H.
    - intros h w1 s ev [H1 H2] Hwf Hc HD Hev. destruct (caller_events h ev Hev) as [He1 He2].
      destruct (based_step h w1 s ev) as [G1 G2]; [done..|]. split; [exact G1|]. split; [done|by apply HX2].
Qed.

(** [stop_part] for one section whose result matters. *)
Lemma stop_section {A} (P : A -> Prop) X l (m : M A) w :
    phase X -> (forall s, wf s -> same_config (sh c0) s -> wpM m s (fun b s' ev =>
      P b /\ wf s' /\ same_config s s' /\ stop_conduct s s' /\ ev = [])) ->
    based w -> X w -> okp (law_stop 0 Owner) 0 [] (locked l m) (fun b w' => P b /\ based w' /\ X w') w.
Proof.
    intros [HX1 HX2] Hm Hb Hx. apply okp_locked; [apply _|constructor|]. intros w1 Hr.
    pose proof (based_rely w w1 Hr Hb) as Hb1. pose proof (HX1 w w1 Hr Hb Hx) as Hx1.
    eapply wpM_mono; [apply Hm; [apply Hb1|apply Hb1]|]. cbn. intros b s ev (HP & Hwf & Hc & HD & ->).
    destruct (based_step [l] w1 s []) as [G1 G2]; [done..|]. split; [exact G1|]. intros w3 Hr3.
    split; [done|]. split; [by eapply based_rely|]. eapply HX1; [exact Hr3|done|by apply HX2].
Qed.

(** Building a STOP frame while the image shows the safe output. *)
Lemma commit_effect s : wf s -> shows (image s) o d -> wpM commit_image s (fun img s' ev =>
    (bytes_ok img /\ shows img o d) /\ wf s' /\ same_config s s' /\ stop_conduct s s' /\ ev = []).
Proof.
    intros Hs Hsh. unfold commit_image. apply wpM_bind, wpM_with_builder.
    eapply (total_inv _ _ _ (swap_total _ (ok_builder _ Hs) (ok_image _ Hs))).
    intros b Eb (Hb1 & Hb2 & Hb3). cbn in Eb. destruct (swap_publishes _ _ (ok_image _ Hs) Eb) as (Hp1 & Hp2 & _).
    apply wpM_gets. cbn. rewrite Hp1. split_and!; try done; [apply (ok_image _ Hs)|].
    pose proof (ok_config _ Hs). destruct Hs; constructor; cbn in *; auto. congruence.
Qed.

Lemma stop_frame_law X w : phase X -> (forall w, X w -> shown w) -> based w -> X w ->
    okp (law_stop 0 Owner) 0 [] (next_output_frame_p (Some STOP_STATUS))
      (fun f w' => stop_frame_ok f /\ based w' /\ X w') w.
Proof.
    intros HX Hsh Hb Hx. unfold next_output_frame_p.
    apply (okp_bind _ _ _ _ _ _ [] []); [by auto with prog| |done].
    eapply okp_mono; [apply (stop_section u16_ok X); [done| |done|done]|].
    { intros s Hs _. eapply wpM_mono.
      - apply wpM_and; [by apply (block_counter stop_conduct)|].
        instantiate (1 := fun c _ _ => u16_ok c). unfold advance_counter. wpM_auto. apply land_ffff.
      - cbn. intros c s' ev [(? & ? & ? & ?) ?]. by split_and!. }
    clear w Hb Hx. intros c w (Hc & Hb & Hx).
    apply (okp_bind _ _ _ _ _ _ [] []); [by auto with prog| |done].
    (* the section that commits the image *)
    apply (okp_mono _ _ _ (fun img w' => (bytes_ok img /\ shows img o d) /\ based w' /\ X w')).
    { apply okp_locked; [apply _|constructor|]. intros w1 Hr.
      pose proof (based_rely w w1 Hr Hb) as Hb1. pose proof (phase_rely X HX w w1 Hr Hb Hx) as Hx1.
      eapply wpM_mono; [apply commit_effect; [apply Hb1|by apply Hsh]|]. intros img s ev (Hi & Hwf & Hsc & HD & ->).
      destruct (based_step [LOutputBuilder] w1 s []) as [G1 G2]; [done..|]. split; [exact G1|]. intros w3 Hr3.
      split; [done|]. split; [by eapply based_rely|]. eapply (phase_rely X HX); [exact Hr3|done|by apply (phase_step X HX)]. }
    clear w Hb Hx. intros img w ([Hi1 Hi2] & Hb & Hx).
    (* the frame *)
    apply okp_atomic. intros w1 Hr. pose proof (based_rely w w1 Hr Hb) as Hb1.
    pose proof (phase_rely X HX w w1 Hr Hb Hx) as Hx1. apply wpM_gets.
    assert (Hwf : wf (w_sh w1)) by apply Hb1. destruct (based_step [] w1 (w_sh w1) []) as [G1 G2]; [done..|].
    split; [exact G1|]. intros w3 Hr3. split_and!; [|by eapply based_rely|].
    2: { eapply (phase_rely X HX); [exact Hr3|done|]. apply (phase_step X HX); [done|done|constructor]. }
    exists img. split; [|done]. destruct Hb1 as [_ [(_ & _ & _ & Ho & _) _]]. cbn in Ho.
    eexists. split; [apply parse_build_ethernet; [apply (ok_dst _ Hwf)|apply (ok_src _ Hwf)|]|].
    - split_and!; [apply (ok_frame_id _ Hwf)|apply Hc..|apply stop_status_byte| |done].
      all: unfold byte_ok; cbn; lia.
    - cbn. rewrite Ho. by split_and!.
Qed.

(** The image shown, the run flag, the wire so far and the loops joined. *)
Definition during (run_ : bool) (n : nat) (over : list nat) (w : World) : Prop :=
    shown w /\ running (w_sh w) = run_ /\ wire n w /\ Forall (fun t => is_ended t w) over.

Lemma during_phase b n over : n = O \/ tx ∈ over -> phase (during b n over).
Proof.
    intros Hn. split.
    - intros w w' Hr Hb (H1 & H2 & H3 & H4). split_and!.
      + by eapply shown_rely.
      + destruct Hr as (_ & _ & Hr & _). by rewrite Hr.
      + apply (wire_rely n w); [done| |done]. destruct Hn as [|Hn]; [by left|right]. rewrite Forall_forall in H4. by apply H4.
      + eapply Forall_impl; [exact H4|]. intros t. apply ended_moves, Hr.
    - intros h w s ev (H1 & H2 & H3 & H4) (G1 & G2 & _) Hev. split_and!.
      + unfold shown. cbn. by rewrite G1.
      + cbn. by rewrite G2.
      + by apply wire_silent.
      + done.
Qed.

(** The same facts with one more frame on the wire. *)
Lemma during_sent b n over w f : stop_frame_ok f -> during b n over w ->
    during b (S n) over (after 0 [] w (w_sh w) [Sent f]).
Proof. intros Hf (H1 & H2 & H3 & H4). split_and!; [done|done|by apply wire_sent|done]. Qed.

Lemma stats_section f : (forall s, u32_ok (consecutive_timeouts s) -> u32_ok (consecutive_timeouts (f s))) ->
    lawful stop_conduct (event_ok Caller) [] (locked LStats (modify_stats f)).
Proof. intros Hf. apply lawful_stats; [by apply keeps_stats|by intros; split_and!]. Qed.

Lemma stop_frames_law over sends : tx ∈ over -> forall n w, based w -> during false n over w ->
    okp (law_stop 0 Owner) 0 [] (stop_frames_p sends)
      (fun _ w' => based w' /\ during false (n + sent_count sends) over w') w.
Proof.
    intros Hin. assert (Hph : forall n, phase (during false n over)) by (intros; apply during_phase; by right).
    assert (Hdone : forall n w, based w -> during false n over w ->
      okp (law_stop 0 Owner) 0 [] (Done tt) (fun _ w' => based w' /\ during false (n + 0) over w') w).
    { intros n w Hb Hd w1 Hr. rewrite Nat.add_0_r. split; [by eapply based_rely|by eapply (phase_rely _ (Hph n))]. }
    induction sends as [|ok sends IH]; intros n w Hb Hd; cbn [stop_frames_p sent_count]; [by apply Hdone|].
    apply (stop_part (during false n over)); [done| |auto with prog|done|done|].
    { apply lawful_locked, block_swap. intros s b Hi. by split_and!. }
    clear w Hb Hd. intros [] w Hb Hd. apply (okp_bind _ _ _ _ _ _ [] []); [by auto with prog| |done].
    eapply okp_mono; [apply (stop_frame_law (during false n over)); [done|by intros ? []|done|done]|].
    clear w Hb Hd. intros f w (Hf & Hb & Hd). destruct ok; cbn [negb]; [|by apply Hdone].
    apply (okp_bind _ _ _ _ _ _ [] []); [by auto with prog| |done]. apply okp_atomic. intros w1 Hr.
    pose proof (based_rely w w1 Hr Hb) as Hb1. pose proof (phase_rely _ (Hph n) w w1 Hr Hb Hd) as Hd1.
    apply wpM_emit. destruct (based_step [] w1 (w_sh w1) [Sent f]) as [G1 G2]; [done|apply Hb1|done| |].
    { apply Forall_singleton. split; [by left|]. intros. by right. }
    split; [exact G1|]. intros w3 Hr3. pose proof (during_sent false n over w1 f Hf Hd1) as Hd2.
    apply (stop_part (during false (S n) over)); [done|by apply stats_section|auto with prog|by eapply based_rely| |].
    { by eapply (phase_rely _ (Hph (S n))). }
    clear - IH. intros [] w Hb Hd. replace (n + S (sent_count sends))%nat with (S n + sent_count sends)%nat by lia. by apply IH.
Qed.

Lemma apply_image_effect s : wf s -> bytes_ok d -> object_for sl ss (objects (output_iocr s)) = Some o ->
    wpM (apply_image sl ss d) s (fun r s' ev => r = None /\ wf s' /\ same_config s s' /\ running s' = running s /\
      ev = [] /\ shows (image s') o d).
Proof.
    intros Hs Hd Ho. assert (Hcfg : config (output_builder s) = output_iocr s) by exact (ok_config _ Hs).
    rewrite <- Hcfg in Ho. unfold apply_image. wpM_auto.
    destruct (write_good _ sl ss d o (ok_builder _ Hs) (ok_image _ Hs) Hd Ho)
      as (b1 & b2 & E1 & E2 & Hb2 & Hi2 & Hcfg2 & Hsh). cbn in E1, Hcfg2.
    rewrite E1. apply wpM_bind, wpM_lift. cbn [total wp]. wpM_auto. apply wpM_with_builder. cbn [output_builder set_output_builder].
    rewrite E2. cbn [total wp]. wpM_auto. apply wpM_with_builder. cbn [output_builder set_output_builder].
    eapply (total_inv _ _ _ (swap_total b2 Hb2 Hi2)). intros b3 E3 (Hb3 & Hi3 & Hcfg3).
    destruct (swap_publishes _ _ Hi2 E3) as (_ & Hp & _). wpM_auto. split_and!; try done.
    - destruct Hs; constructor; cbn in *; auto. congruence.
    - unfold image. cbn. rewrite Hp. auto.
Qed.

(** Before the image is applied. *)
Definition armed (w : World) : Prop :=
    safe_output (w_sh w) = Some (sl, ss, d) /\ running (w_sh w) = true /\ wire 0 w.
Lemma armed_rely w w' : rely_stop w w' -> armed w -> armed w'.
Proof.
    intros Hr (H1 & H2 & H3). pose proof (wire_rely 0 w w' Hr (or_introl eq_refl) H3).
    destruct Hr as (_ & _ & Hrun & Hsafe & _). split_and!; [congruence|by rewrite Hrun|done].
Qed.

Lemma apply_safe_law w : based w -> armed w ->
    okp (law_stop 0 Owner) 0 [] apply_safe_output_p (fun _ w' => based w' /\ during true 0 [] w') w.
Proof.
    intros Hb Ha w1 Hr1 w2 Hr2. assert (Hr : rely_stop w w2) by (by eapply rely_stop_trans).
    pose proof (based_rely w w2 Hr Hb) as Hb2. pose proof (armed_rely w w2 Hr Ha) as Ha2. clear w w1 Hr1 Hr2 Hr Hb Ha.
    apply wpM_gets. assert (Hwf : wf (w_sh w2)) by apply Hb2.
    destruct (based_step [LSafeOutput] w2 (w_sh w2) []) as [G1 G2]; [done..|]. split; [exact G1|].
    assert (Ha3 : armed (after 0 [LSafeOutput] w2 (w_sh w2) [])).
    { destruct Ha2 as (H1 & H2 & H3). split_and!; [done|done|by apply wire_silent]. }
    destruct Ha2 as (Hsafe & _ & _). rewrite Hsafe. pose proof (ok_safe _ Hwf _ _ _ Hsafe) as Hbytes.
    apply (okp_bind _ _ _ _ _ _ [LSafeOutput] [LSafeOutput]); [by apply ordered_locked; repeat constructor| |apply stacked_safe].
    apply (okp_mono _ _ _ (fun r w' => r = None /\ based w' /\ during true 0 [] w')).
    2: { intros r w (-> & Hb & Hd) w3 Hr3 w4 Hr4. assert (Hr : rely_stop w w4) by (by eapply rely_stop_trans).
         split; [by eapply based_rely|]. eapply (phase_rely _ (during_phase true 0 [] (or_introl eq_refl))); done. }
    apply okp_locked; [apply _|by repeat constructor|]. intros w3 Hr3.
    pose proof (based_rely _ w3 Hr3 G2) as Hb3. destruct (armed_rely _ w3 Hr3 Ha3) as (_ & Hrun3 & Hw3).
    eapply wpM_mono; [apply apply_image_effect; [apply Hb3|done|by apply based_object]|].
    intros r s ev (-> & Hwf3 & Hc3 & Hrs & -> & Hsh).
    destruct (based_step [LOutputBuilder; LSafeOutput] w3 s []) as [F1 F2]; [done..|]. split; [exact F1|]. intros w4 Hr4.
    split; [done|]. split; [by eapply based_rely|].
    eapply (phase_rely _ (during_phase true 0 [] (or_introl eq_refl))); [exact Hr4|done|].
    split_and!; [done|cbn; congruence|by apply wire_silent|constructor].
Qed.

(** What the owner finds when its stop has returned. *)
Definition stopped (n : nat) (h : Handles) (w : World) : Prop :=
    based w /\ h = no_handles /\ during false n [rx; tx] w /\ state (w_sh w) = Stopped.

Lemma stopped_rely n h w w' : rely_stop w w' -> stopped n h w -> stopped n h w'.
Proof.
    intros Hr (H1 & H2 & H3 & H4). split_and!; [by eapply based_rely|done| |].
    - eapply (phase_rely _ (during_phase false n [rx; tx] ltac:(right; set_solver))); done.
    - destruct Hr as (_ & _ & _ & _ & _ & Hr & _). rewrite Hr; [done|]. destruct H3 as (_ & _ & _ & H3).
      rewrite !Forall_cons in H3. split; apply H3.
Qed.

(** Steps that leave the state as it is. *)
Definition unchanged (s s' : Shared) : Prop := s' = s.
#[local] Instance unchanged_preorder : PreOrder unchanged.
Proof. split; [done|]. unfold unchanged. intros a b c. congruence. Qed.

Lemma stopped_step n h hl w ev : stopped n h w -> Forall (event_ok Caller hl) ev ->
    Guar (law_stop 0 Owner) hl w (after 0 hl w (w_sh w) ev) /\ stopped n h (after 0 hl w (w_sh w) ev).
Proof.
    intros (H1 & H2 & H3 & H4) Hev. destruct (caller_events hl ev Hev) as [He1 He2].
    destruct (based_step hl w (w_sh w) ev) as [G1 G2]; [done|apply H1|done|done|]. split; [exact G1|].
    split_and!; [done|done| |done]. by apply (phase_step _ (during_phase false n [rx; tx] ltac:(right; set_solver))).
Qed.

(** The last transition ends in STOPPED: no loop is left to move it on. *)
Lemma stopped_law n w : based w -> during false n [rx; tx] w ->
    okp (law_stop 0 Owner) 0 [] (transition_p Stopped) (fun _ w' => stopped n no_handles w') w.
Proof.
    intros Hb Hd. pose proof (during_phase false n [rx; tx] ltac:(right; set_solver)) as Hph.
    unfold transition_p. apply (okp_bind _ _ _ _ _ _ [] []); [by auto with prog| |done].
    apply (okp_mono _ _ _ (fun _ w' => stopped n no_handles w')).
    - apply okp_locked; [apply _|constructor|]. intros w1 Hr.
      pose proof (based_rely w w1 Hr Hb) as Hb1. pose proof (phase_rely _ Hph w w1 Hr Hb Hd) as Hd1.
      eapply wpM_mono; [apply wpM_and; [apply (block_state stop_conduct); [by intros; split_and!|apply Hb1]|]|].
      { instantiate (1 := fun _ s' _ => state s' = Stopped). unfold swap_state. wpM_auto.
        destruct (state_eqb _ _) eqn:E; [by apply wpM_ret, state_eqb_eq|]. by wpM_auto. }
      cbn. intros r s ev [(Hwf & Hc & HD & ->) Hst]. destruct (based_step [LState] w1 s []) as [G1 G2]; [done..|].
      split; [exact G1|]. intros w3 Hr3. eapply stopped_rely; [exact Hr3|]. split_and!; [done|done| |done].
      by apply (phase_step _ Hph).
    - intros [old|] w1 Hs1; [|intros w2 Hr2; by eapply stopped_rely].
      apply (lawful_okp _ _ unchanged (event_ok Caller) (stopped n no_handles)); [apply _|..|done].
      + intros w2 w3 Hs Hr. by eapply stopped_rely.
      + intros w2 (Hb2 & _). apply Hb2.
      + intros hl w2 s ev Hs Hwf Hc -> Hev. by apply stopped_step.
      + cbn [state_eqb]. change (state_eqb Stopped Fault) with false. cbn [whenP bindP].
        law_read. intros cb. apply lawful_whenP, lawful_emit; [apply _|auto with law].
Qed.

(** The run flag goes down. *)
Lemma run_flag_law w : based w -> during true 0 [] w ->
    okp (law_stop 0 Owner) 0 [] (atomic (modify (set_running false))) (fun _ w' => based w' /\ during false 0 [] w') w.
Proof.
    intros Hb Hd. apply okp_atomic. intros w1 Hr. pose proof (based_rely w w1 Hr Hb) as Hb1.
    destruct (phase_rely _ (during_phase true 0 [] (or_introl eq_refl)) w w1 Hr Hb Hd) as (H1 & H2 & H3 & H4).
    apply wpM_modify. assert (Hwf : wf (w_sh w1)) by apply Hb1.
    destruct (based_step [] w1 (set_running false (w_sh w1)) []) as [G1 G2];
      [done|exact (proj1 (keeps_set_running false _ Hwf))|by repeat split|done|].
    split; [exact G1|]. intros w3 Hr3. split; [by eapply based_rely|].
    eapply (phase_rely _ (during_phase false 0 [] (or_introl eq_refl))); [exact Hr3|done|].
    split_and!; [done|done|by apply wire_silent|done].
Qed.

Lemma stop_interleaved h sends w : tx_handle h = Some tx -> rx_handle h = Some rx -> based w -> armed w ->
    okp (law_stop 0 Owner) 0 [] (stop_p h sends) (stopped (sent_count (sends <$> seqZ 0 STOP_FRAME_COUNT))) w.
Proof.
    intros Htx Hrx Hb Ha. unfold stop_p. rewrite Htx, Hrx. set (N := sent_count _).
    assert (Hph : phase (during true 0 [])) by (apply during_phase; by left).
    apply (okp_bind _ _ _ _ _ _ [] []); [by auto with prog| |done].
    eapply okp_mono; [by apply apply_safe_law|]. clear w Hb Ha. intros [] w [Hb Hd].
    apply (okp_bind _ _ _ _ _ _ [] []); [by auto with prog| |done].
    apply (okp_mono _ _ _ (fun r w' => r = true /\ based w' /\ during true 0 [] w')).
    { apply okp_atomic. intros w1 Hr. pose proof (based_rely w w1 Hr Hb) as Hb1. pose proof (phase_rely _ Hph w w1 Hr Hb Hd) as Hd1.
      apply wpM_gets. destruct (based_step [] w1 (w_sh w1) []) as [G1 G2]; [done|apply Hb1|done|done|].
      split; [exact G1|]. intros w3 Hr3. split; [apply Hd1|]. split; [by eapply based_rely|].
      eapply (phase_rely _ Hph); [exact Hr3|done|]. by apply (phase_step _ Hph). }
    clear w Hb Hd. intros r w (-> & Hb & Hd). cbn [negb].
    apply (stop_part (during true 0 [])); [done|by apply lawful_transition; [apply _|..]|auto with prog|done|done|].
    clear w Hb Hd. intros [] w Hb Hd. apply (okp_bind _ _ _ _ _ _ [] []); [by auto with prog| |done].
    eapply okp_mono; [by apply run_flag_law|]. clear w Hb Hd. intros [] w [Hb Hd].
    apply (okp_bind _ _ _ _ _ _ [] []); [by split; auto with prog| |done].
    apply (okp_mono _ _ _ (fun _ w' => based w' /\ during false N [tx] w')).
    { intros w1 Hr. split; [done|]. intros He. apply (stop_frames_law [tx] _ ltac:(set_solver) 0).
      - by eapply based_rely.
      - destruct (phase_rely _ (during_phase false 0 [] (or_introl eq_refl)) w w1 Hr Hb Hd) as (H1 & H2 & H3 & _).
        split_and!; [done..|by apply Forall_singleton]. }
    clear w Hb Hd. intros [] w [Hb Hd].
    assert (Hph' : phase (during false N [tx])) by (apply during_phase; right; set_solver).
    apply (okp_bind _ _ _ _ _ _ [] []); [by split| |done].
    apply (okp_mono _ _ _ (fun _ w' => based w' /\ during false N [rx; tx] w')).
    { intros w1 Hr. split; [done|]. intros He w2 Hr2. assert (Hr' : rely_stop w w2) by (by eapply rely_stop_trans).
      split; [by eapply based_rely|]. destruct (phase_rely _ Hph' w w2 Hr' Hb Hd) as (H1 & H2 & H3 & H4).
      split_and!; [done..|]. constructor; [|done]. eapply ended_moves; [apply Hr2|done]. }
    clear w Hb Hd. intros [] w [Hb Hd]. apply (okp_bind _ _ _ _ _ _ [] []); [by auto with prog| |done].
    eapply okp_mono; [by apply stopped_law|]. clear w Hb Hd. intros [] w Hs w1 Hr. by eapply stopped_rely.
Qed.

(** The schedules from the call on. *)
Definition post_stop (n : nat) (i : nat) (r : Role) (k : Cont) (w : World) : Prop :=
    match r with
    | Owner => k = NextOwner no_handles RNone /\ stopped n no_handles w
    | Caller => fits Caller k
    | _ => post i r k w
    end.
Definition world_stop (w : World) : Prop := good w /\ moves (view c0) w /\ linked w.

Lemma linked_threads w w' : w_threads w' = w_threads w -> linked w -> linked w'.
Proof. intros E H j r Hj. apply H. by rewrite <- E. Qed.

Lemma stop_compatible i j ri rj h w w' : i <> j -> world_stop w ->
    w_threads w !! i = Some (ri, false) -> w_threads w !! j = Some (rj, false) ->
    Guar (law_stop i ri) h w w' -> Rely (law_stop j rj) w w'.
Proof.
    intros Hij (Hw & _ & Hlink) Hi Hj Hg.
    assert (Hp : ri <> Caller -> promise i ri h w w').
    { intros Hri. destruct ri; try done; [|apply Hg..]. destruct Hg as [Hg _].
      by rewrite <- (good_single w Hw i false Hi) in Hg. }
    destruct ri; [| by destruct Hg|..]; specialize (Hp ltac:(done)).
    { destruct rj; [|done|by apply (law_compatible i j Owner TxLoop h)|by apply (law_compatible i j Owner RxLoop h)].
      destruct Hij. by rewrite (good_single w Hw _ _ Hi), (good_single w Hw _ _ Hj). }
    all: destruct rj; [|done|by eapply (law_compatible i j)|by eapply (law_compatible i j)].
    all: destruct (promise_trace _ _ _ _ _ Hp) as (es & Hes & Hev); pose proof (promise_conduct _ _ _ _ _ Hp) as Hcon.
    all: split; [apply Hp|]; split; [apply Hp|].
    - destruct Hcon as (H1 & H2 & H3 & H4 & H5 & H6). destruct (Hlink i TxLoop Hi) as [Htx _]. specialize (Htx eq_refl).
      split_and!; [done|done|intros o' d' _ _; by rewrite H6|done|]. exists es. split; [done|].
      eapply Forall_impl; [exact Hev|]. intros e [Hby _] f _. subst i. split; [done|]. intros [r Hr]. congruence.
    - destruct Hcon as (H1 & H2 & H3 & H4 & H5). destruct (Hlink i RxLoop Hi) as [_ Hrx]. specialize (Hrx eq_refl).
      split_and!; [done|done|done|intros [_ [r Hr]]; congruence|]. exists es. split; [done|].
      eapply Forall_impl; [exact Hev|]. intros e [_ [_ He]] f Hf. by destruct (He f Hf).
Qed.

Lemma left_linked i r w : linked w -> linked (left_loop i r w).
Proof.
    intros H j rj Hj. cbn in Hj. apply list_lookup_insert_Some in Hj as [(_ & [= _] & _)|[_ Hj]]. by apply H.
Qed.

Lemma left_rely i ri rj w : good w -> good (left_loop i ri w) -> moves w (left_loop i ri w) ->
    forall j, Rely (law_stop j rj) w (left_loop i ri w).
Proof.
    intros Hg Hg' Hm j. destruct rj; [|done|by split_and!..].
    split_and!; [done|done|done|done|by intros ? ?|done|]. exists []. split; [by rewrite app_nil_r|constructor].
Qed.

Lemma leaver_posts n i ri k w : post_stop n i ri k w -> (exists c ch, begin c k ch = Some Leave) -> post i ri k w.
Proof.
    intros Hp (c & ch & Hb). destruct ri; [| |done..].
    - destruct Hp as [-> _]. by apply begin_leave in Hb as [[l [=]]|[b [=]]].
    - by apply begin_leave in Hb as [[l ->]|[b ->]].
Qed.

Lemma stop_run n l c : sound law_stop (post_stop n) world_stop c -> Forall (fun x => quiet (snd x)) l ->
    total (run l c) (sound law_stop (post_stop n) world_stop).
Proof.
    apply (run_sound law_stop (post_stop n) world_stop quiet); clear c l.
    - apply law_stop_ok.
    - apply stop_compatible.
    - intros i j ri rj k w Hij (Hw & _) Hi Hj Hp Hb.
      destruct (leaving_good i ri k w Hw Hi (leaver_posts n i ri k w Hp Hb) Hb). by apply left_rely.
    - intros i ri k w (Hw & Hm & Hl) Hi Hp Hb.
      destruct (leaving_good i ri k w Hw Hi (leaver_posts n i ri k w Hp Hb) Hb) as [H1 H2].
      split_and!; [done|by etransitivity|by apply left_linked].
    - intros i ri h w w' (Hw & Hm & Hl) Hi Hg.
      assert (Hp : good w' /\ moves w w' /\ w_threads w' = w_threads w).
      { destruct ri; [destruct Hg as [Hg ?]| |..]; [|by destruct Hg|..];
          split_and!; try (by apply Hg); try done; try apply Hg; done. }
      destruct Hp as (H1 & H2 & H3). split_and!; [done|by etransitivity|by apply (linked_threads w)].
    - intros i ri k c ch p Hc Hq Hi Hp Hb. destruct ri.
      + by destruct Hp as [-> _], ch.
      + destruct k; try done. by destruct ch.
      + apply (begin_law i TxLoop k c ch); [by destruct ch|done..].
      + apply (begin_law i RxLoop k c ch); [by destruct ch|done..].
    - intros i ri x w Hw Hi Hsp. by destruct ri.
Qed.

(** The moment of the call: the owner at the head of its next call, with the
      handles of the two loops that live, and no borrower in a call. *)
Record stoppable (rep : Reply) : Prop := {
    can_reach : exists w0, reachable_ok w0 c0;
    can_call : threads c0 !! 0%nat =
      Some (mkThread Owner [] (Done (NextOwner {| tx_handle := Some tx; rx_handle := Some rx |} rep)) false);
    can_borrow : resting Caller (threads c0) = true;
    can_link : linked (view c0);
    can_run : running (sh c0) = true;
    can_safe : safe_output (sh c0) = Some (sl, ss, d);
  }.

Definition stop_call (sends : Z -> bool) : prog Cont :=
    let% r := exclusive_call {| tx_handle := Some tx; rx_handle := Some rx |} (CallStop sends) in
    Done (NextOwner (fst r) (snd r)).
Definition calling (sends : Z -> bool) : Config := put 0 (mkThread Owner [] (stop_call sends) false) c0.

Lemma stop_call_ordered sends : ordered [] (stop_call sends) [].
Proof. unfold stop_call. eapply ordered_bind; [apply ordered_exclusive_call|done]. Qed.

Lemma stop_call_law n sends w : n = sent_count (sends <$> seqZ 0 STOP_FRAME_COUNT) -> based w -> armed w ->
    okp (law_stop 0 Owner) 0 [] (stop_call sends) (post_stop n 0 Owner) w.
Proof.
    intros -> Hb Ha. unfold stop_call. cbn [exclusive_call].
    apply (okp_bind _ _ _ _ _ _ [] []); [by eapply ordered_bind; [apply ordered_stop|]| |done].
    apply (okp_bind _ _ _ _ _ _ [] []); [apply ordered_stop| |done].
    eapply okp_mono; [by apply stop_interleaved|]. intros h w1 Hs w2 Hr2 w3 Hr3.
    assert (h = no_handles) as -> by apply Hs. split; [done|].
    apply (stopped_rely _ _ w1 w3); [by apply (rely_stop_trans w1 w2 w3)|done].
Qed.

Lemma calling_sound rep sends n : n = sent_count (sends <$> seqZ 0 STOP_FRAME_COUNT) -> stoppable rep ->
    sound law_stop (post_stop n) world_stop (calling sends).
Proof.
    intros Hn [[w0 Hreach] Hcall Hborrow Hlink Hrun Hsafe].
    assert (Hv : view (calling sends) = view c0) by (by eapply view_put).
    destruct (sound_world _ _ _ c0 Hreach) as [Hg _].
    assert (Hst : standing 0 Owner (view c0)) by (split; [done|exists false; apply Hg]).
    constructor.
    - intros i t Hi He. rewrite Hv. cbn in Hi. apply list_lookup_insert_Some in Hi as [(<- & <- & _)|[Hne Hi]].
      + split_and!; [|apply stop_call_ordered|done]. apply (stop_call_law n); [done|by split|].
        split_and!; [done|done|]. exists [], [], []. split_and!; try done. by rewrite app_nil_r.
      + destruct (sound_threads _ _ _ c0 Hreach i t Hi He) as (H1 & H2 & H3). split_and!; [|done|done].
        destruct t as [r hl p e]. cbn in *. destruct r; [| |exact H1|exact H1].
        * destruct Hne. symmetry. by apply (owner_index law w0 c0 Hreach i _ Hi).
        * unfold resting in Hborrow. rewrite forallb_forall in Hborrow.
          assert (Hh := Hborrow _ (proj1 (list_elem_of_In _ _) (list_elem_of_lookup_2 _ _ _ Hi))). cbn in Hh.
          unfold at_head in Hh. destruct p as [k| | | | |]; try done. intros w1 _. by apply (H1 (view c0)).
    - intros i t Hi He. cbn in Hi. apply list_lookup_insert_Some in Hi as [(_ & <- & _)|[Hne Hi]]; [done|].
      by apply (sound_ended _ _ _ c0 Hreach i).
    - eapply exclusive_put; [apply Hreach|exact Hcall|]. intros j u l _ Hl. by apply elem_of_nil in Hl.
    - rewrite Hv. split_and!; done.
Qed.
End stop_order.

(** C6: A stop is safe and last under every schedule.  When the owner stops a
    running controller whose safe output is registered, then, wherever the two
    loops are in their passes and however they are interleaved with the stop,
    what the wire carries from the call on is first frames of the transmit
    loop and then, with none of those in between or behind, the STOP frames:
    ProviderRun cleared, the safe bytes in the submodule's data and its
    provider status GOOD, one per send until the third or the first failure.
    The stop returns with both loops ended and the state STOPPED. *)
Theorem stop_in_every_schedule c0 tx rx sl ss d o rep sends l c :
  object_for sl ss (objects (output_iocr (sh c0))) = Some o -> 0 < o_data_length o ->
  stoppable c0 tx rx sl ss d rep -> Forall (fun x => quiet (snd x)) l ->
  run ((0%nat, Own (CallStop sends)) :: l) c0 = Ok c ->
  forall t, threads c !! 0%nat = Some t -> at_head t = true ->
  state (sh c) = Stopped /\ running (sh c) = false /\
  has_ended tx (threads c) = true /\ has_ended rx (threads c) = true /\
  exists es a b, trace c = trace c0 ++ es /\ frames es = a ++ b /\
    Forall (fun x => fst x = tx) a /\
    Forall (fun x => fst x = 0%nat /\ exists img, is_stop_frame (sh c0) img (snd x) /\ shows img o d) b /\
    length b = sent_count (sends <$> [0; 1; 2]).
Proof.
  intros Hobj Hpos Hst Hl Hrun t Ht Hh. set (n := sent_count (sends <$> [0; 1; 2])).
  pose proof (calling_sound c0 tx rx sl ss d o Hobj Hpos rep sends n eq_refl Hst) as Hc1.
  assert (Hstep : step c0 0 (Own (CallStop sends)) = Ok (calling c0 tx rx sends)).
  { unfold step. rewrite (can_call _ _ _ _ _ _ _ Hst). cbn [ended code begin]. by rewrite (can_borrow _ _ _ _ _ _ _ Hst). }
  cbn [run] in Hrun. rewrite Hstep in Hrun. cbn [bind] in Hrun.
  pose proof (stop_run c0 tx rx d o n l _ Hc1 Hl) as Hs. rewrite Hrun in Hs. cbn in Hs.
  destruct (sound_world _ _ _ c Hs) as (Hg & _). pose proof (good_owner _ Hg) as Ho. cbn in Ho.
  rewrite list_lookup_fmap, Ht in Ho. injection Ho as Hrole Hended.
  destruct (sound_threads _ _ _ c Hs 0 t Ht Hended) as (Hok & _). rewrite Hrole in Hok. unfold at_head in Hh.
  destruct (code t) as [k| | | | |]; try done.
  destruct (Hok (view c)) as (_ & Hb & _ & (_ & Hrun' & Hw & Hends) & Hstate).
  { apply (@law_refl (law_stop tx rx 0 Owner) (law_stop_ok tx rx 0 Owner)). }
  rewrite !Forall_cons in Hends. destruct Hends as (Hrx & Htx & _).
  assert (Hend : forall j, is_ended j (view c) -> has_ended j (threads c) = true).
  { intros j [r Hj]. cbn in Hj. rewrite list_lookup_fmap in Hj. unfold has_ended. destruct (threads c !! j); [|done].
    by injection Hj as _ ->. }
  split_and!; [done|done|by apply Hend|by apply Hend|]. exact Hw.
Qed.

(** ** When only transmit loops are left *)

(** Nobody else has a step before the next call. *)
Definition only_tx (c : Config) : Prop := forall i t, threads c !! i = Some t -> ended t = false ->
  role t = TxLoop \/ at_head t = true /\ (role t = Owner \/ role t = Caller).

(** Thread [i] alone moved, in its role, or it was a transmit loop. *)
Lemma only_tx_put c i t t' s tr : only_tx c -> threads c !! i = Some t -> ended t = false -> role t = TxLoop ->
  role t' = TxLoop -> only_tx (mkConfig s (<[i := t']> (threads c)) tr).
Proof.
  intros Hc Hi He Hr Hr' j u Hj Hu. cbn in Hj.
  apply list_lookup_insert_Some in Hj as [(_ & <- & _)|[_ Hj]]; [by left|by apply (Hc j)].
Qed.

Lemma only_tx_step w0 c i ch c' : reachable_ok w0 c -> quiet ch -> only_tx c -> step c i ch = Ok c' ->
  only_tx c' /\ tx_conduct (sh c) (sh c').
Proof.
  intros Hc Hq Hot Hs. assert (Hsame : only_tx c /\ tx_conduct (sh c) (sh c)) by (split; [done|reflexivity]).
  unfold step in Hs. destruct (threads c !! i) as [t|] eqn:Hi; [|by injection Hs as <-].
  destruct (ended t) eqn:He; [by injection Hs as <-|].
  destruct (Hot i t Hi He) as [Hr|[Hh Hr]].
  - destruct (live_facts law w0 c Hc i t Hi He) as [Hok _]. rewrite Hr in Hok.
    assert (Hput : forall t', role t' = TxLoop -> only_tx (put i t' c) /\ tx_conduct (sh c) (sh c))
      by (intros; split; [by eapply only_tx_put|reflexivity]).
    destruct (code t) as [k|B m k|l p|l p|x k|n p] eqn:Hcode; destruct ch; try done; try (by injection Hs as <-).
    all: try (by destruct k; cbn in Hs; repeat case_match; injection Hs as <-; try done; apply Hput).
    + apply bind_Ok_inv in Hs as ([[b s] ev] & Hm & [= <-]). specialize (Hok (view c) ltac:(reflexivity)).
      unfold wpM in Hok. cbn in Hok. rewrite Hm in Hok. destruct Hok as [Hg _].
      split; [by eapply only_tx_put|]. apply (promise_conduct _ _ _ _ _ Hg).
    + injection Hs as <-. destruct (lock_free l (threads c)); [by apply Hput|done].
    + injection Hs as <-. by apply Hput.
    + destruct (Hok (view c) ltac:(reflexivity)) as [Hsp _]. done.
    + destruct (Hok (view c) ltac:(reflexivity)) as [[Hsp _] _]. done.
  - destruct (live_facts law w0 c Hc i t Hi He) as [Hok _]. unfold at_head in Hh.
    destruct (code t) as [k| | | | |]; try done. destruct (Hok (view c) ltac:(reflexivity)) as (_ & Hf & _).
    destruct Hr as [Hr|Hr]; rewrite Hr in Hf; destruct k; try done; destruct ch; try done; by injection Hs as <-.
Qed.

Lemma only_tx_run w0 l : forall c c', reachable_ok w0 c -> Forall (fun x => quiet (snd x)) l -> only_tx c ->
  run l c = Ok c' -> only_tx c' /\ tx_conduct (sh c) (sh c').
Proof.
  induction l as [|[i ch] l IH]; intros c c' Hc Hq Hot Hr; cbn [run] in Hr.
  { injection Hr as <-. by split. }
  apply Forall_cons in Hq as [Hq Hl]. apply bind_Ok_inv in Hr as (c1 & Hs & Hr).
  destruct (only_tx_step w0 c i ch c1 Hc Hq Hot Hs) as [H1 H2].
  assert (Hc1 : reachable_ok w0 c1).
  { assert (Hok : choice_ok ch) by by destruct ch. pose proof (reachable_step w0 c i ch Hc Hok) as Hst. by rewrite Hs in Hst. }
  destruct (IH c1 c' Hc1 Hl H1 Hr) as [H3 H4]. split; [done|by etransitivity].
Qed.

(** ** Concrete schedules *)

(** An idle controller with its safe output registered. *)
Definition idle_shared : Shared := set_state Idle (set_running false demo_shared).

Lemma idle_shared_ok : shared_ok idle_shared.
Proof. destruct demo_shared_ok. constructor; cbn in *; auto. done. Qed.

Definition start_env : StartEnv :=
  {| reset_now := 0; open_tx := None; open_rx := None; spawn_tx := None; spawn_rx := None;
     tx_now := 0; rx_now := 0 |}.

(** [n] steps of thread [i]. *)
Definition go (i n : nat) : schedule := repeat (i, Go) n.

(** A started controller: the owner, a transmit loop 1 and a receive loop 2. *)
Definition started : schedule := (0%nat, Own (CallStart start_env)) :: go 0 40 ++ go 2 5.

(** What is looked at when a schedule has run with [n] borrowers. *)
Definition seen {A} (n : nat) (l : schedule) (f : Config -> A) : option A :=
  match run l (fresh idle_shared n) with Ok c => Some (f c) | _ => None end.

Lemma seen_run {A} n l c (f : Config -> A) a : run l (fresh idle_shared n) = Ok c -> seen n l f = Some a -> f c = a.
Proof. unfold seen. intros ->. by intros [= ->]. Qed.

Definition rx_dies : choice := RxTurn (RecvError "gone") 0 0 0.

(** The receive loop meets its error between its spawn and the owner's last
    transition. *)
Definition deaf_schedule : schedule :=
  (0%nat, Own (CallStart start_env)) :: go 0 22 ++ go 2 5 ++ [(2%nat, rx_dies)] ++ go 2 30
    ++ [(2%nat, rx_dies)] ++ go 0 20.

(** A link that dies while [start] returns is reported RUNNING for good.  A
    receive error that arrives after the loops are spawned and before the
    owner's transition to RUNNING finds the state STARTING, so it records no
    fault; [start] then succeeds, the receive loop is gone, and whatever the
    transmit loop does from there, the state stays RUNNING and no fault is ever
    noted. *)
Theorem rx_death_at_start_unseen :
  exists c, run deaf_schedule (fresh idle_shared 0) = Ok c /\
    threads c !! 0%nat = Some (mkThread Owner []
      (Done (NextOwner {| tx_handle := Some 1%nat; rx_handle := Some 2%nat |} (RResult None))) false) /\
    has_ended 2 (threads c) = true /\ state (sh c) = Running /\ ever_faulted (sh c) = false /\
    forall l c', Forall (fun x => quiet (snd x)) l -> run l c = Ok c' ->
      state (sh c') = Running /\ ever_faulted (sh c') = false.
Proof.
  assert (Hok : schedule_ok deaf_schedule) by (repeat constructor).
  destruct (total_Ok _ _ (fresh_run idle_shared 0 deaf_schedule idle_shared_ok Hok)) as (c & Hr & Hc).
  assert (Hst : (state (sh c), ever_faulted (sh c), threads c) = (Running, false,
      [mkThread Owner [] (Done (NextOwner {| tx_handle := Some 1%nat; rx_handle := Some 2%nat |} (RResult None))) false;
       mkThread TxLoop [] (Done (NextTx (tx_start 0))) false; mkThread RxLoop [] (Done (NextRx false)) true])).
  { apply (seen_run 0 deaf_schedule c (fun c => (state (sh c), ever_faulted (sh c), threads c)) _ Hr).
    vm_compute. reflexivity. }
  injection Hst as H1 H2 H3. exists c. split; [exact Hr|]. clear Hr Hok. rewrite H3. split_and!; [done..|].
  intros l c' Hl Hrun. rewrite <- H1 at 1. rewrite <- H2. clear H1 H2.
  assert (Hot : only_tx c).
  { intros i t Hi He. rewrite H3 in Hi. destruct i as [|[|[|i]]]; [| | |done]; injection Hi as <-; auto. by cbn in He. }
  destruct (only_tx_run _ l c c' Hc Hl Hot Hrun) as [_ (_ & Hs & Hf & _)]. by split.
Qed.

(** The controller is started again out of FAULT while its first transmit loop
    is about to send. *)
Definition restart_schedule : schedule :=
  (0%nat, Own (CallStart start_env)) :: go 0 40 ++ go 3 5
    ++ (1%nat, Call (CallSetOutput 1 1 [9; 9; 9])) :: go 1 20
    ++ [(3%nat, rx_dies)] ++ go 3 30 ++ [(3%nat, rx_dies); (2%nat, TxTurn 0 None)] ++ go 2 8
    ++ (0%nat, Own (CallStart start_env)) :: go 0 40
    ++ (0%nat, Own (CallStop (fun _ => true))) :: go 0 40 ++ go 5 40
    ++ [(4%nat, TxTurn 0 None)] ++ go 0 100 ++ [(5%nat, rx_dies)] ++ go 0 60 ++ go 2 30.

(** What the wire carried: provider stopped, and the first bytes of the image. *)
Definition frame_view (x : nat * list Z) : option (nat * bool * outcome (list Z)) :=
  match parse_ethernet_frame (snd x) with
  | Ok (Some fr) => Some (fst x, Rt.is_running fr, slice (payload fr) 0 3)
  | _ => None
  end.

(** A start out of FAULT leaks the first transmit loop.  [start] accepts
    FAULT with the loops of the first run alive: they keep running, [stop]
    joins only the new ones, and after it has returned STOPPED and sent its
    STOP frames the old loop still sends a frame with ProviderRun set and the
    output bytes of before the stop. *)
Theorem restarted_loop_outlives_stop :
  exists c, run restart_schedule (fresh idle_shared 1) = Ok c /\
    state (sh c) = Stopped /\ has_ended 2 (threads c) = false /\ safe_output (sh c) = Some (1, 1, [0; 0; 0]) /\
    frame_view <$> frames (trace c) =
      [Some (0%nat, false, Ok [0; 0; 0]); Some (0%nat, false, Ok [0; 0; 0]); Some (0%nat, false, Ok [0; 0; 0]);
       Some (2%nat, true, Ok [9; 9; 9])].
Proof.
  assert (Hok : schedule_ok restart_schedule).
  { unfold restart_schedule. repeat constructor; unfold byte_ok; lia. }
  destruct (total_Ok _ _ (fresh_run idle_shared 1 restart_schedule idle_shared_ok Hok)) as (c & Hr & _).
  exists c. split; [exact Hr|].
  assert (H : (state (sh c), has_ended 2 (threads c), safe_output (sh c), frame_view <$> frames (trace c)) =
    (Stopped, false, Some (1, 1, [0; 0; 0]),
      [Some (0%nat, false, Ok [0; 0; 0]); Some (0%nat, false, Ok [0; 0; 0]); Some (0%nat, false, Ok [0; 0; 0]);
       Some (2%nat, true, Ok [9; 9; 9])])).
  { apply (seen_run 1 restart_schedule c (fun c => (state (sh c), has_ended 2 (threads c), safe_output (sh c),
      frame_view <$> frames (trace c))) _ Hr). vm_compute. reflexivity. }
  clear Hr. injection H as H1 H2 H3 H4. by split_and!.
Qed.

(** A borrower registers an error handler and a safe output for a submodule
    that does not exist; the owner stops. *)
Definition unsafe_schedule : schedule :=
  (1%nat, Call (CallRegister (fun c => {| on_input_data := false; on_input_status := false; on_timeout := false;
       on_error := true; on_state_change := false |}))) :: go 1 5
    ++ (1%nat, Call (CallSetSafe 7 7 [0])) :: go 1 5
    ++ (0%nat, Own (CallStop (fun _ => true))) :: go 0 20.

(** One callback does run under a lock.  A stop whose safe output names
    no submodule invokes the error handler while it holds the lock of the safe
    output: a handler that registers a safe output there waits for its own
    thread. *)
Theorem safe_output_error_under_lock :
  exists c e, run unsafe_schedule (fresh idle_shared 1) = Ok c /\ trace c = [e] /\
    by_thread e = 0%nat /\ under e = [LSafeOutput] /\ exists m, what e = ErrorMessage m.
Proof.
  assert (Hok : schedule_ok unsafe_schedule).
  { unfold unsafe_schedule. repeat constructor; unfold byte_ok; lia. }
  destruct (total_Ok _ _ (fresh_run idle_shared 1 unsafe_schedule idle_shared_ok Hok)) as (c & Hr & _).
  assert (Ht : exists m, trace c = [mkEntry 0 [LSafeOutput] (ErrorMessage m)]).
  { eexists. apply (seen_run 1 unsafe_schedule c trace _ Hr). vm_compute. reflexivity. }
  destruct Ht as [m Ht]. exists c, (mkEntry 0 [LSafeOutput] (ErrorMessage m)). split; [exact Hr|]. clear Hr.
  split_and!; [done|done|done|by exists m].
Qed.

(** A pass is a schedule.  From any configuration in which no other thread
    holds a lock, a turn of the transmit loop, a turn of the receive loop and a
    call of [set_output_data], scheduled without interruption, do exactly what
    the one action of the sequential model does: the same shared state, the
    same result, the same events in the same order. *)
Theorem passes_are_schedules :
  (forall now send l, turn_does (TxTurn now send) (NextTx l) (tx_pass now send l) NextTx) /\
  (forall r t1 t2 t3, turn_does (RxTurn r t1 t2 t3) (NextRx true) (rx_pass r t1 t2 t3) NextRx) /\
  (forall sl ss d rep, turn_does (Call (CallSetOutput sl ss d)) (NextCaller rep)
     (let* r := set_output_data sl ss d in ret (RResult r)) NextCaller).
Proof.
  split_and!; intros.
  - apply (turn_intro _ _ (tx_pass_p now send l)); [auto with prog|auto with prog|apply whole_tx_pass|].
    intros c Hr _. cbn [begin]. by rewrite Hr.
  - apply (turn_intro _ _ (rx_pass_p r t1 t2 t3)); [auto with prog|auto with prog|apply whole_rx_pass|].
    intros c Hr _. cbn [begin]. by rewrite Hr.
  - apply (turn_intro _ _ (shared_call (CallSetOutput sl ss d))); [|auto with prog| |].
    + cbn [shared_call]. unfold set_output_data_p. local_auto.
    + cbn [shared_call]. apply whole_seq; [unfold set_output_data_p; local_auto|apply whole_set_output|done].
    + intros c _ Hr. cbn [begin]. by rewrite Hr.
Qed.

(** ** Witnesses *)

(** A started controller in full swing: an output written, an input received, a
    frame of the transmit loop sent and its next one under way. *)
Definition busy : schedule :=
  (0%nat, Own (CallStart start_env)) :: go 0 40 ++ go 3 5
    ++ (1%nat, Call (CallSetOutput 1 1 [9; 9; 9])) :: go 1 20
    ++ (2%nat, TxTurn 0 None) :: go 2 20
    ++ (3%nat, RxTurn (RecvFrame (demo_input 0x35)) 1 2 3) :: go 3 7
    ++ (2%nat, TxTurn 40000000 None) :: go 2 8.

Lemma busy_ok : schedule_ok busy.
Proof. unfold busy. repeat constructor; unfold byte_ok; lia. Qed.

(** The rest of the stop, with both loops going on for a while. *)
Definition stopping : schedule :=
  go 0 9 ++ go 3 9 ++ go 0 20 ++ go 2 20 ++ (2%nat, TxTurn 80000000 None) :: go 0 3 ++ go 3 60 ++ go 0 60
    ++ (3%nat, RxTurn RecvNothing 4 5 6) :: go 0 30.

Lemma every_schedule_is_safe_witness :
  schedule_ok (busy ++ stopping) /\
  total (run (busy ++ stopping) (fresh idle_shared 1)) (fun c => wf (sh c)).
Proof.
  assert (H : schedule_ok (busy ++ stopping)).
  { apply Forall_app. split; [exact busy_ok|]. unfold stopping. repeat constructor. }
  split; [exact H|]. eapply total_mono; [apply (every_schedule_is_safe idle_shared 1 _ idle_shared_ok H)|].
  intros c [Hw _]. exact Hw.
Defined.

Lemma callbacks_run_unlocked_witness :
  schedule_ok busy /\
  total (run busy (fresh idle_shared 1)) (fun c => Forall (fun e => forall f, what e = Sent f -> under e = []) (trace c)).
Proof.
  split; [exact busy_ok|]. eapply total_mono; [apply (callbacks_run_unlocked idle_shared 1 busy idle_shared_ok busy_ok)|].
  intros c H. apply Forall_forall. intros e He f Hf. destruct (H e He) as [[Hu|[_ [m Hm]]] _]; congruence.
Defined.

Lemma no_schedule_deadlocks_witness :
  exists c l' c', run busy (fresh idle_shared 1) = Ok c /\ run l' c = Ok c' /\
    Forall (fun t => at_head t = true /\ held t = []) (threads c').
Proof.
  destruct (total_Ok _ _ (fresh_run idle_shared 1 busy idle_shared_ok busy_ok)) as (c & Hr & _).
  destruct (no_schedule_deadlocks idle_shared 1 busy c idle_shared_ok busy_ok Hr) as (l' & c' & _ & H).
  exists c, l', c'. split; [exact Hr|exact H].
Defined.

Lemma stop_in_every_schedule_witness :
  exists c0 c, run busy (fresh idle_shared 1) = Ok c0 /\
    stoppable c0 2 3 1 1 [0; 0; 0] (RResult None) /\
    run ((0%nat, Own (CallStop (fun _ => true))) :: stopping) c0 = Ok c /\
    state (sh c) = Stopped /\ fst <$> frames (trace c) = [2%nat; 2%nat; 0%nat; 0%nat; 0%nat].
Proof.
  destruct (total_Ok _ _ (fresh_run idle_shared 1 busy idle_shared_ok busy_ok)) as (c0 & Hr & Hc0).
  set (l := (0%nat, Own (CallStop (fun _ => true))) :: stopping).
  assert (Hq : Forall (fun x => quiet (snd x)) stopping) by (unfold stopping; repeat constructor).
  assert (Hl : schedule_ok l) by (constructor; [exact I|apply quiet_ok, Hq]).
  destruct (total_Ok _ _ (reachable_run _ l c0 Hc0 Hl)) as (c & Hr' & _).
  assert (Hst : stoppable c0 2 3 1 1 [0; 0; 0] (RResult None)).
  { assert (Hfacts : (threads c0 !! 0%nat, resting Caller (threads c0), status <$> threads c0, running (sh c0), safe_output (sh c0)) =
      (Some (mkThread Owner [] (Done (NextOwner {| tx_handle := Some 2%nat; rx_handle := Some 3%nat |} (RResult None))) false),
       true, [(Owner, false); (Caller, false); (TxLoop, false); (RxLoop, false)], true, Some (1, 1, [0; 0; 0]))).
    { apply (seen_run 1 busy c0 (fun c0 => (threads c0 !! 0%nat, resting Caller (threads c0), status <$> threads c0,
        running (sh c0), safe_output (sh c0))) _ Hr). vm_compute. reflexivity. }
    injection Hfacts as H1 H2 H3 H4 H5. constructor; [by eexists|done|done| |done|done].
    intros j r Hj. cbn [w_threads view] in Hj. rewrite H3 in Hj.
    destruct j as [|[|[|[|j]]]]; [..|done]; injection Hj as <-; by split. }
  exists c0, c. split; [exact Hr|]. split; [exact Hst|]. split; [exact Hr'|].
  assert (Hrun : run (busy ++ l) (fresh idle_shared 1) = Ok c) by (rewrite run_app, Hr; exact Hr').
  assert (Hend : (at_head <$> threads c !! 0%nat, fst <$> frames (trace c)) = (Some true, [2%nat; 2%nat; 0%nat; 0%nat; 0%nat])).
  { apply (seen_run 1 (busy ++ l) c (fun c => (at_head <$> threads c !! 0%nat, fst <$> frames (trace c))) _ Hrun).
    vm_compute. reflexivity. }
  injection Hend as Hh Hf. split; [|exact Hf]. destruct (threads c !! 0%nat) as [t|] eqn:Ht; [|done]. injection Hh as Hh.
  apply (stop_in_every_schedule c0 2 3 1 1 [0; 0; 0]
    {| o_slot := 1; o_subslot := 1; frame_offset := 0; o_data_length := 3; iops_offset := 3; iocs_offset := None |}
    (RResult None) (fun _ => true) stopping c) with t; [|reflexivity|exact Hst|exact Hq|exact Hr'|exact Ht|exact Hh].
  assert (Hio : output_iocr (sh c0) = snd demo_configs).
  { destruct (sound_world _ _ _ c0 Hc0) as [_ [(_ & _ & _ & H & _) _]]. exact H. }
  rewrite Hio. vm_compute. reflexivity.
Defined.
