(* ===== verification/Reentry.v ===== *)
(** * Handlers that call back into the controller ([src/src/cyclic.rs])

    A registered handler runs on the thread that fires its callback, between
    that step and the thread's next one, and may call the controller it was
    given by.  Here each callback's handler is a list of borrowers' calls,
    executed lock by lock like everything else; the theorem of [Interleave]
    that nothing deadlocks extends to them, and the one handler it does not
    extend to is run. *)

From S2P Require Import Prelude Fmt Util Gsdml Rt Cyclic Idle Threads Schedules Interleave.

#[local] Open Scope list_scope.
#[local] Open Scope Z_scope.

(** ** Steps with handlers *)

(** What the handlers registered for an event call. *)
Definition handler := Event -> list SharedCall.

(** A frame sent is no callback. *)
Definition calls_of (h : handler) (e : Event) : list SharedCall :=
  match e with Sent _ => [] | _ => h e end.

(** The calls first, then what the thread still has to do. *)
Fixpoint reenter {A} (cs : list SharedCall) (p : prog A) : prog A :=
  match cs with
  | [] => p
  | c :: cs => do% shared_call c; reenter cs p
  end.

Definition resume (cs : list SharedCall) (t : thread) : thread :=
  mkThread (role t) (held t) (reenter cs (code t)) (ended t).

(** The events of the last step. *)
Definition fired (c c' : Config) : list Event := what <$> drop (length (trace c)) (trace c').

(** A step of the scheduler, after which the thread runs the handlers of the
    callbacks the step fired. *)
Definition hstep (h : handler) (c : Config) (i : nat) (ch : choice) : outcome Config :=
  let? c' := step c i ch in
  match threads c' !! i with
  | Some t => Ok (put i (resume (fired c c' ≫= calls_of h) t) c')
  | None => Ok c'
  end.

Definition hrun (h : handler) : schedule -> Config -> outcome Config := drive (hstep h).

(** Handlers whose data are bytes, and that do not register a safe output while
    told that it could not be applied. *)
Definition sets_safe (c : SharedCall) : bool := match c with CallSetSafe _ _ _ => true | _ => false end.

Record handler_ok (h : handler) : Prop := {
  handler_bytes : forall e, Forall call_ok (h e);
  handler_unsafe : forall m, Forall (fun c => sets_safe c = false)
    (h (ErrorMessage ("safe output not applied: " +:+ m)));
}.

(** ** Without handlers *)

Lemma put_same i t c : threads c !! i = Some t -> put i (resume [] t) c = c.
Proof. intros Hi. unfold put, resume. cbn. destruct t, c. cbn in *. by rewrite list_insert_id. Qed.

Lemma silent_calls es : es ≫= calls_of (fun _ => []) = [].
Proof. induction es as [|e es IH]; [done|]. cbn. rewrite IH. by destruct e. Qed.

(** With handlers that call nothing these are the schedules of [Threads]. *)
Lemma hrun_silent l c : hrun (fun _ => []) l c = run l c.
Proof.
  rewrite run_drive. revert c. induction l as [|[i ch] l IH]; intros c; [done|].
  unfold hrun in *. cbn [drive]. unfold hstep. destruct (step c i ch) as [c'| | |]; cbn; try done.
  destruct (threads c' !! i) as [t|] eqn:Hi; cbn; [|apply IH]. rewrite silent_calls, put_same by done. apply IH.
Qed.

(** ** The law of a thread that runs handlers *)

(** What a step of thread [i] does at most when it may be a handler's. *)
Definition open_conduct (r : Role) : Shared -> Shared -> Prop :=
  match r with Owner => anything | _ => same_run end.
#[global] Instance open_conduct_preorder r : PreOrder (open_conduct r).
Proof. destruct r; apply _. Qed.

Record open_promise (i : nat) (r : Role) (h : list Lock) (w w' : World) : Prop := {
  open_good : good w -> good w';
  open_moves : moves w w';
  open_run : open_conduct r (w_sh w) (w_sh w');
  open_trace : exists es, w_trace w' = w_trace w ++ es /\
    Forall (fun e => by_thread e = i /\ event_ok r (under e) (what e)) es;
  open_spawns : r <> Owner -> w_threads w' = w_threads w;
}.

Definition open_law (i : nat) (r : Role) : Law := {|
  Rely := expects r;
  Guar := open_promise i r;
  Joinable t w := r = Owner /\ running (w_sh w) = false /\ is_loop t w;
  Spawns := r = Owner;
|}.
#[global] Instance open_law_ok i r : LawOk (open_law i r).
Proof. destruct (law_ok i r). by constructor. Qed.

Lemma conduct_open r s s' : conduct r s s' -> open_conduct r s s'.
Proof. destruct r; cbn; [done|done|by intros []|by intros []]. Qed.
Lemma promise_open i r h w w' : promise i r h w w' -> open_promise i r h w w'.
Proof. intros [H1 H2 H3 H4 H5]. constructor; auto. by apply conduct_open. Qed.

(** A thread that keeps its law keeps the open one. *)
Lemma okp_open {A} i r (p : prog A) (Q : A -> World -> Prop) : forall h w,
  okp (law i r) i h p Q w -> okp (open_law i r) i h p Q w.
Proof.
  induction p as [a|C m k IH|l p IH|l p IH|x k IH|t p IH]; cbn; intros h w Hp w1 Hr; specialize (Hp w1 Hr).
  - done.
  - eapply wpM_mono; [exact Hp|]. cbn. intros b s ev [Hg Hk]. split; [by apply promise_open|by apply IH].
  - by apply IH.
  - by apply IH.
  - destruct Hp as (? & Hg & Hk). split_and!; [done|by apply promise_open|by apply IH].
  - destruct Hp as [Hj Hk]. split; [done|]. intros He. apply IH; auto.
Qed.

Definition open_ok (w0 : World) : Config -> Prop := sound open_law post (good_from w0).

Lemma fresh_open s n : wf s -> open_ok (view (fresh s n)) (fresh s n).
Proof.
  intros Hs. destruct (fresh_reachable s n Hs) as [H1 H2 H3 H4]. constructor; [|done..].
  intros i t Hi He. destruct (H1 i t Hi He) as (Hp & Ho & Hst). split_and!; [by apply okp_open|done..].
Qed.

Lemma open_step w0 c i ch : open_ok w0 c -> choice_ok ch -> total (step c i ch) (open_ok w0).
Proof.
  apply (step_sound open_law post (good_from w0) choice_ok); clear c i ch.
  - intros. by apply open_law_ok.
  - intros i j ri rj h w w' Hij [Hw _] Hi Hj Hp. split_and!; [apply Hp|apply Hp|]. intros ->.
    pose proof (good_single w Hw _ _ Hj) as ->. pose proof (open_run _ _ _ _ _ Hp) as Hc.
    destruct ri; [by pose proof (good_single w Hw _ _ Hi)|exact Hc..].
  - intros i j ri rj k w Hij [Hw _] Hi Hj Hp Hb. destruct (leaving_good i ri k w Hw Hi Hp Hb) as [H1 H2]. by split_and!.
  - intros i ri k w [Hw Hm] Hi Hp Hb. destruct (leaving_good i ri k w Hw Hi Hp Hb) as [H1 H2].
    split; [done|by etransitivity].
  - intros i ri h w w' [Hw Hm] Hi Hp. split; [by apply (open_good _ _ _ _ _ Hp)|]. etransitivity; [done|apply Hp].
  - intros i ri k c ch p Hc Ha Hi Hp Hb. destruct (begin_law i ri k c ch p) as [H1 H2]; [done..|].
    split; [by apply okp_open|done].
  - intros i ri x w [Hw _] Hi Hsp Hp. apply okp_open, spawned_law, (open_good _ _ _ _ _ Hp), Hw.
Qed.

(** ** The handlers' calls keep it *)

Definition no_event (h : list Lock) (e : Event) : Prop := False.

(** Silence does not depend on what is held. *)
Lemma lawful_held {A} D (p : prog A) : forall h h', lawful D no_event h p -> lawful D no_event h' p.
Proof.
  induction p as [a|C m k IH|l p IH|l p IH|x k IH|t p IH]; cbn; intros h h' Hp; try done.
  - intros s Hs. eapply wpM_mono; [by apply Hp|]. cbn. intros b s' ev [H1 H2]. split; [done|]. by eapply IH.
  - by eapply IH.
  - by eapply IH.
Qed.

Lemma open_step_promise i r h w s ev :
  standing i r w -> wf s -> same_config (w_sh w) s -> open_conduct r (w_sh w) s ->
  Forall (event_ok r h) ev -> open_promise i r h w (after i h w s ev) /\ standing i r (after i h w s ev).
Proof.
  intros [Hg [b Hi]] Hwf Hc HD Hev. assert (Hg' : good (after i h w s ev)).
  { destruct Hg as [H1 H2 H3 H4]. constructor; cbn; [done|..|done|done].
    apply Forall_app. split; [done|]. apply Forall_fmap. eapply Forall_impl; [exact Hev|]. intros e He.
    by exists r, b. }
  split; [|split; [done|by exists b]]. constructor; [done|done|done| |done].
  exists (mkEntry i h <$> ev). split; [done|]. apply Forall_fmap. eapply Forall_impl; [exact Hev|]. by intros.
Qed.

(** A call on the thread's own stack is to the rest of its program what a step
    of another thread is. *)
Lemma call_okp {A} i r h c (p : prog A) Q w :
  call_ok c -> standing i r w -> okp (open_law i r) i h p Q w ->
  okp (open_law i r) i h (shared_call c) (fun _ w' => standing i r w' /\ okp (open_law i r) i h p Q w') w.
Proof.
  intros Hc Hs Hp.
  apply (lawful_okp _ _ same_run no_event (fun w' => standing i r w' /\ okp (open_law i r) i h p Q w')).
  - apply _.
  - intros w1 w2 [H1 H2] He. split; [by apply (standing_expects i r r w1 w2)|]. by apply (okp_rely (open_law i r) i h p Q w1 w2); [apply _|..].
  - intros w1 [[H _] _]. apply H.
  - intros h1 w1 s ev [H1 H2] Hwf Hcfg HD Hev. destruct ev as [|e ev]; [|by apply Forall_cons in Hev as [[] _]].
    destruct (open_step_promise i r h1 w1 s [] H1 Hwf Hcfg) as [G1 G2]; [destruct r; [exact I|exact HD..]|constructor|].
    split; [exact G1|]. split; [exact G2|]. apply (okp_rely (open_law i r) i h p Q w1); [apply _|exact H2|].
    split_and!; [apply G1|apply G1|done].
  - apply (lawful_held _ _ []). by apply shared_call_lawful.
  - by split.
Qed.

Lemma reenter_okp {A} i r h (p : prog A) Q cs w :
  Forall call_ok cs -> Forall (fun c => ordered h (shared_call c) h) cs -> stacked h -> standing i r w ->
  okp (open_law i r) i h p Q w -> okp (open_law i r) i h (reenter cs p) Q w.
Proof.
  intros Hcs Ho Hst. revert w. induction cs as [|c cs IH]; intros w Hs Hp; [done|]. cbn [reenter].
  apply Forall_cons in Hcs as [Hc Hcs]. apply Forall_cons in Ho as [Hoc Ho].
  apply (okp_bind _ _ _ _ _ _ h h); [done| |done].
  eapply okp_mono; [by apply (call_okp i r h c p Q)|]. intros _ w' [Hs' Hp']. by apply IH.
Qed.

Lemma reenter_ordered {A} h (p : prog A) h' cs :
  Forall (fun c => ordered h (shared_call c) h) cs -> ordered h p h' -> ordered h (reenter cs p) h'.
Proof.
  intros Hcs Hp. induction Hcs as [|c cs Hc Hcs IH]; [done|]. cbn [reenter]. by eapply ordered_bind.
Qed.

(** Under the lock of the safe output every call but one is in order. *)
Lemma ordered_under_safe c : sets_safe c = false -> ordered [LSafeOutput] (shared_call c) [LSafeOutput].
Proof.
  assert (Hl : forall {A} l (m : M A), (0 < rank l)%nat -> ordered [LSafeOutput] (locked l m) [LSafeOutput]).
  { intros A l m Hl. apply ordered_locked. by constructor. }
  destruct c as [r|sl ss d| |f]; intros Hc; try done; cbn [shared_call].
  - destruct r; cbn [read_p]; eapply ordered_bind; try (by intros); try (by apply Hl; cbn; lia); try done.
    eapply ordered_bind; [apply Hl; cbn; lia|by intros].
  - eapply ordered_bind; [|by intros]. unfold set_output_data_p. eapply ordered_bind; [apply Hl; cbn; lia|].
    intros st. destruct (output_writes_locked st); [done|apply Hl; cbn; lia].
  - eapply ordered_bind; [apply Hl; cbn; lia|by intros].
Qed.

(** The calls a thread's events bring about, in order under what it holds. *)
Lemma handler_calls h r hl ev : handler_ok h -> Forall (event_ok r hl) ev ->
  Forall call_ok (ev ≫= calls_of h) /\ Forall (fun c => ordered hl (shared_call c) hl) (ev ≫= calls_of h).
Proof.
  intros Hh. induction 1 as [|e ev He Hev IH]; [by split; constructor|]. destruct IH as [IH1 IH2].
  cbn. split; apply Forall_app; (split; [|done]).
  - destruct e; try constructor; apply (handler_bytes h Hh).
  - destruct He as [[->|[-> [m ->]]] _].
    + apply Forall_forall. intros c _. apply ordered_shared_call.
    + cbn. eapply Forall_impl; [apply (handler_unsafe h Hh)|]. intros c. apply ordered_under_safe.
Qed.

(** ** Steps with handlers keep the configuration sound *)

(** Only a step of a program's body fires anything. *)
Lemma step_fires c i ch c' : step c i ch = Ok c' ->
  (trace c' = trace c /\ forall t B (m : M B) k, threads c !! i = Some t -> code t = Do m k -> c' = c) \/
  exists t B (m : M B) k b s ev, threads c !! i = Some t /\ ended t = false /\ code t = Do m k /\
    m (sh c) = Ok (b, s, ev) /\
    c' = mkConfig s (<[i := mkThread (role t) (held t) (k b) false]> (threads c)) (trace c ++ (mkEntry i (held t) <$> ev)).
Proof.
  assert (Hsame : forall c1, Ok c = Ok c1 -> trace c1 = trace c /\
    forall t B (m : M B) k, threads c !! i = Some t -> code t = Do m k -> c1 = c) by (by intros c1 [= ->]).
  unfold step. destruct (threads c !! i) as [t|] eqn:Hi; [|left; by apply Hsame].
  destruct (ended t) eqn:He; [left; by apply Hsame|].
  assert (Hother : forall c1, trace c1 = trace c -> (forall B (m : M B) k, code t <> Do m k) ->
    trace c1 = trace c /\ forall u B (m : M B) k, Some t = Some u -> code u = Do m k -> c1 = c).
  { intros c1 Htr Hno. split; [done|]. intros u B m k [= <-] Hk. by destruct (Hno B m k). }
  destruct (code t) as [k|B m k|l p|l p|x k|n p] eqn:Hk.
  - destruct (begin c k ch) as [[p|]|]; intros [= <-]; left; by apply Hother.
  - destruct ch; try (left; by apply Hsame). intros ([[b s] ev] & Hm & [= <-])%bind_Ok_inv. right.
    exists t, B, m, k, b, s, ev. by split_and!.
  - destruct ch; intros [= <-]; left; try (by apply Hother). apply Hother; [by destruct (lock_free l (threads c))|done].
  - destruct ch; intros [= <-]; left; by apply Hother.
  - destruct ch; intros [= <-]; left; by apply Hother.
  - destruct ch; intros [= <-]; left; try (by apply Hother). apply Hother; [by destruct (has_ended n (threads c))|done].
Qed.

Lemma fired_none c c' : trace c' = trace c -> fired c c' = [].
Proof. intros H. unfold fired. by rewrite H, drop_all. Qed.
Lemma fired_some c i hl ev s l : fired c (mkConfig s l (trace c ++ (mkEntry i hl <$> ev))) = ev.
Proof.
  unfold fired. cbn. rewrite drop_app_length, <- list_fmap_compose. unfold compose. cbn. apply list_fmap_id.
Qed.

Lemma resumed_ok w0 c i t cs : open_ok w0 c -> threads c !! i = Some t -> ended t = false ->
  Forall call_ok cs -> Forall (fun x => ordered (held t) (shared_call x) (held t)) cs ->
  open_ok w0 (put i (resume cs t) c).
Proof.
  intros Hc Hi He Hcs Ho. destruct (sound_threads _ _ _ c Hc i t Hi He) as (Hok & Hord & Hst).
  pose proof (sound_world _ _ _ c Hc) as Hw.
  apply (sound_put open_law post (good_from w0) open_law_ok c i t); try done.
  - by right.
  - split_and!; [|by apply reenter_ordered|done]. cbn. apply reenter_okp; try done.
    split; [apply Hw|]. exists false. cbn. rewrite list_lookup_fmap, Hi. cbn. unfold status. by rewrite He.
Qed.

Lemma hstep_ok h w0 c i ch : handler_ok h -> open_ok w0 c -> choice_ok ch -> total (hstep h c i ch) (open_ok w0).
Proof.
  intros Hh Hc Ha. pose proof (open_step w0 c i ch Hc Ha) as Hst. unfold hstep.
  destruct (step c i ch) as [c'| | |] eqn:Hs; [|done..]. cbn in Hst |- *.
  destruct (threads c' !! i) as [t'|] eqn:Hi'; [|done]. cbn.
  destruct (step_fires c i ch c' Hs) as [[Htr _]|(t & B & m & k & b & s & ev & Hi & He & Hk & Hm & ->)].
  { rewrite fired_none, put_same by done. exact Hst. }
  rewrite fired_some. cbn in Hi'. rewrite list_lookup_insert_eq in Hi' by (by eapply lookup_lt_Some). injection Hi' as <-.
  destruct (sound_threads _ _ _ c Hc i t Hi He) as (Hok & _ & _). rewrite Hk in Hok. cbn in Hok.
  specialize (Hok (view c) (@law_refl (open_law i (role t)) _ (view c))). unfold wpM in Hok. cbn in Hok.
  rewrite Hm in Hok. destruct Hok as [Hg _].
  destruct (open_trace _ _ _ _ _ Hg) as (es & Htr & Hes). cbn in Htr. apply app_inv_head in Htr as <-.
  apply Forall_fmap in Hes. destruct (handler_calls h (role t) (held t) ev Hh) as [H1 H2].
  { eapply Forall_impl; [exact Hes|]. by intros e [_ H]. }
  apply resumed_ok; [exact Hst| |done|exact H1|exact H2]. cbn. apply list_lookup_insert_eq. by eapply lookup_lt_Some.
Qed.

(** ** Handlers end *)

(** A section that fires nothing, and a program of such sections. *)
Definition quiet_section {A} (m : M A) : Prop := forall s b s' ev, m s = Ok (b, s', ev) -> ev = [].

Fixpoint quiet_prog {A} (p : prog A) : Prop :=
  match p with
  | Done _ => True
  | Do m k => quiet_section m /\ forall b, quiet_prog (k b)
  | Lck _ p | Unl _ p => quiet_prog p
  | Spawn _ _ | Join _ _ => False
  end.

Lemma quiet_section_ret {A} (a : A) : quiet_section (ret a).
Proof. by intros s b s' ev [= _ _ <-]. Qed.
Lemma quiet_gets {A} (f : Shared -> A) : quiet_section (gets f).
Proof. by intros s b s' ev [= _ _ <-]. Qed.
Lemma quiet_section_modify f : quiet_section (modify f).
Proof. by intros s b s' ev [= _ _ <-]. Qed.
Lemma quiet_section_lift {A} (o : outcome A) : quiet_section (lift o).
Proof. intros s b s' ev. unfold lift. by destruct o; intros [= _ _ <-]. Qed.
Lemma quiet_bindM {A B} (m : M A) (k : A -> M B) : quiet_section m -> (forall a, quiet_section (k a)) -> quiet_section (bindM m k).
Proof.
  intros Hm Hk s b s' ev. unfold bindM. intros ([[a s1] e1] & H1 & ([[x s2] e2] & H2 & [= _ _ <-])%bind_Ok_inv)%bind_Ok_inv.
  by rewrite (Hm _ _ _ _ H1), (Hk _ _ _ _ _ H2).
Qed.
#[local] Hint Resolve quiet_section_ret quiet_gets quiet_section_modify quiet_section_lift quiet_bindM : law.

Lemma quiet_with_builder f : quiet_section (with_builder f).
Proof. unfold with_builder. auto 10 with law. Qed.

Lemma quiet_prog_bind {A B} (p : prog A) (f : A -> prog B) : quiet_prog p -> (forall a, quiet_prog (f a)) -> quiet_prog (bindP p f).
Proof.
  induction p as [a|C m k IH|l p IH|l p IH|x k IH|t p IH]; cbn; intros Hp Hf; try done; [|by apply IH..].
  destruct Hp as [Hm Hk]. split; [done|]. intros b. by apply IH.
Qed.

Lemma quiet_locked {A} l (m : M A) : quiet_section m -> quiet_prog (locked l m).
Proof. by intros Hm. Qed.

Lemma quiet_call c : quiet_prog (shared_call c).
Proof.
  destruct c as [r|sl ss d|sl ss d|f]; cbn [shared_call].
  - destruct r; cbn; split_and!; auto with law; intros; auto with law.
  - apply quiet_prog_bind; [|done]. apply quiet_prog_bind; [by apply quiet_locked, quiet_gets|].
    intros st. destruct (output_writes_locked st); [done|]. apply quiet_locked. unfold write_output.
    apply quiet_bindM; [auto with law|]. intros b.
    assert (Hrest : quiet_section (let* b' := lift (set_data b sl ss d) in do* modify (set_output_builder b');
        do* with_builder (fun b => set_iops b sl ss IOXS_GOOD); ret (@None string))).
    { apply quiet_bindM; [auto with law|]. intros b'. apply quiet_bindM; [auto with law|]. intros [].
      apply quiet_bindM; [apply quiet_with_builder|]. auto with law. }
    destruct (set_data b sl ss d); [exact Hrest|apply quiet_section_ret|exact Hrest..].
  - apply quiet_prog_bind; [|done]. apply quiet_locked. unfold set_safe_output_. auto with law.
  - apply quiet_prog_bind; [|done]. apply quiet_locked. unfold register. auto with law.
Qed.

(** [t'] is [t] one step further, its handlers' calls before it. *)
Definition hnext (h : handler) (t' t : thread) : Prop :=
  ended t = false /\
  match code t with
  | Do m k => exists s b s' ev, m s = Ok (b, s', ev) /\
      t' = resume (ev ≫= calls_of h) (mkThread (role t) (held t) (k b) false)
  | _ => next_of t' t
  end.

Section measure.
Context (h : handler).

Lemma acc_irreflexive {A} (R : A -> A -> Prop) x : Acc R x -> ~ R x x.
Proof. induction 1 as [x _ IH]. intros Hx. by apply (IH x Hx). Qed.

Lemma hnext_ended t : ended t = true -> Acc (hnext h) t.
Proof. intros Ht. constructor. intros t' [He _]. congruence. Qed.

Lemma hnext_calls r (p : prog Cont) cs : (forall hl, Acc (hnext h) (mkThread r hl p false)) ->
  forall hl, Acc (hnext h) (mkThread r hl (reenter cs p) false).
Proof.
  intros Hp. induction cs as [|c cs IH]; [done|]. cbn [reenter]. set (rest := reenter cs p) in *. clearbody rest.
  generalize (quiet_call c). generalize (shared_call c). intros q.
  induction q as [a|B m k IHq|l q IHq|l q IHq|x k IHq|t q IHq]; cbn [quiet_prog bindP]; intros Hq hl;
    [| | | |destruct Hq..].
  - apply IH.
  - destruct Hq as [Hm Hk]. constructor. intros t' [_ (s & b & s' & ev & Hs & ->)]. rewrite (Hm _ _ _ _ Hs).
    by apply IHq.
  - constructor. intros t' [_ [_ Ht]]. cbn in Ht. subst. by apply IHq.
  - constructor. intros t' [_ [_ Ht]]. cbn in Ht. subst. by apply IHq.
Qed.

Lemma hnext_acc t : Acc (hnext h) t.
Proof.
  destruct t as [r hl p []]; [by apply hnext_ended|]. revert hl.
  induction p as [k|B m k IH|l p IH|l p IH|x k IH|n p IH]; intros hl; constructor; intros t' [_ Ht]; cbn in Ht.
  - destruct Ht as [_ ->]. by apply hnext_ended.
  - destruct Ht as (s & b & s' & ev & _ & ->). unfold resume. cbn. apply hnext_calls, IH.
  - destruct Ht as [_ ->]. apply IH.
  - destruct Ht as [_ ->]. apply IH.
  - destruct Ht as [_ [b ->]]. apply IH.
  - destruct Ht as [_ ->]. apply IH.
Qed.

(** Every step with handlers takes its thread further in this sense. *)
Lemma hstep_next w0 c i ch t t' new c1 c' : open_ok w0 c -> quiet ch -> threads c !! i = Some t ->
  step c i ch = Ok c1 -> threads c1 = <[i := t']> (threads c) ++ new -> next_of t' t -> (new = [] \/ i = 0%nat) ->
  hstep h c i ch = Ok c' -> shorter (hnext h) c' c.
Proof.
  intros Hc Hq Hi Hs Ht Hn Hnew. pose proof (lookup_lt_Some _ _ _ Hi) as Hlt. unfold hstep. rewrite Hs. cbn.
  assert (Hl : threads c1 !! i = Some t').
  { rewrite Ht. apply lookup_app_l_Some. by apply list_lookup_insert_eq. }
  rewrite Hl. cbn. intros [= <-].
  destruct (step_fires c i ch c1 Hs) as [[Htr Hstay]|(u & B & m & k & b & s & ev & Hu & He & Hk & Hm & ->)].
  - rewrite fired_none, put_same by done. apply (shorter_put (hnext h) i t t' new c c1); [done| |done|done].
    split; [apply Hn|]. destruct (code t) as [k|B m k|l p|l p|x k|n p] eqn:Hcode; try exact Hn.
    exfalso. assert (t' = t) as ->.
    { rewrite (Hstay t B m k Hi Hcode) in Hl. congruence. }
    by apply (acc_irreflexive next_of t (next_of_acc t)).
  - rewrite fired_some. assert (u = t) as -> by congruence. cbn in Hl, Ht. rewrite list_lookup_insert_eq in Hl by done.
    injection Hl as <-. eapply (shorter_put (hnext h) i t _ []); [done| |cbn; rewrite app_nil_r; apply list_insert_insert_eq|by left].
    split; [done|]. rewrite Hk. by exists (sh c), b, s, ev.
Qed.
End measure.

(** ** Theorems *)

Lemma hrun_ok h w0 l c : handler_ok h -> open_ok w0 c -> Forall (fun x => choice_ok (snd x)) l ->
  total (hrun h l c) (open_ok w0).
Proof.
  intros Hh. apply (drive_sound (hstep h) open_law w0). intros c1 i ch. by apply hstep_ok.
Qed.

Lemma hrun_settles h w0 c : handler_ok h -> open_ok w0 c ->
  exists l' c', Forall (fun x => quiet (snd x)) l' /\ hrun h l' c = Ok c' /\
    Forall (fun t => at_head t = true /\ held t = []) (threads c').
Proof.
  intros Hh Hc.
  destruct (settles (hstep h) (hnext h) (hnext_acc h) open_law ltac:(done) ltac:(done) w0) with c
    as (l' & c' & Hq & Hr & Hc' & Hall); [| | |done|].
  - intros c1 i ch Hc1 Ha. eapply total_mono; [by apply (open_step w0)|done].
  - intros c1 i ch. by apply hstep_ok.
  - intros c1 i ch t t' new c2 c3. apply (hstep_next h w0).
  - exists l', c'. split_and!; [done|done|by apply (heads_hold_nothing open_law w0)].
Qed.

(** C8: Handlers may call back.  Let every callback's handler make any calls of
    a borrower (read the state, the statistics, the inputs, write outputs,
    register handlers, register a safe output), with one exception
    ([handler_ok]): while it is told that the safe output could not be applied
    it registers no safe output, for that handler blocks [stop] for ever
    ([error_handler_deadlocks_stop]).  Then under every schedule of the loops,
    the owner and the borrowers no step panics, the shared state keeps its
    invariant and no lock has two holders; and whatever has been interleaved,
    every call under way returns and every loop reaches its next pass,
    handlers included, with all locks released. *)
Theorem handlers_may_call_back h s n l :
  shared_ok s -> handler_ok h -> schedule_ok l ->
  total (hrun h l (fresh s n)) (fun c =>
    wf (sh c) /\ same_config s (sh c) /\
    (forall i j ti tj k, threads c !! i = Some ti -> threads c !! j = Some tj ->
       k ∈ held ti -> k ∈ held tj -> i = j) /\
    exists l' c', Forall (fun x => quiet (snd x)) l' /\ hrun h l' c = Ok c' /\
      Forall (fun t => at_head t = true /\ held t = []) (threads c')).
Proof.
  intros Hs Hh Hl. eapply total_mono.
  { apply (hrun_ok h (view (fresh s n))); [done|by apply fresh_open, shared_ok_wf|done]. }
  intros c Hc. destruct (sound_world _ _ _ c Hc) as [Hg [Hm _]].
  split_and!; [apply Hg|done|apply Hc|by apply (hrun_settles h (view (fresh s n)))].
Qed.

(** ** The handler that may not *)

Lemma step_other c i ch c' j t : step c i ch = Ok c' -> j <> i -> threads c !! j = Some t -> threads c' !! j = Some t.
Proof.
  intros Hs Hij Hj. assert (Hins : forall u, <[i := u]> (threads c) !! j = Some t) by (intros u; by rewrite list_lookup_insert_ne).
  revert Hs. unfold step. destruct (threads c !! i) as [u|]; [|by intros [= <-]].
  destruct (ended u); [by intros [= <-]|]. destruct (code u) as [k|B m k|l p|l p|x k|n p].
  - destruct (begin c k ch) as [[p|]|]; intros [= <-]; first [apply Hins|exact Hj].
  - destruct ch; try (by intros [= <-]). intros ([[b s] ev] & _ & [= <-])%bind_Ok_inv. apply Hins.
  - destruct ch; intros [= <-]; try exact Hj. destruct (lock_free l (threads c)); [apply Hins|exact Hj].
  - destruct ch; intros [= <-]; first [apply Hins|exact Hj].
  - destruct ch; intros [= <-]; try exact Hj. apply lookup_app_l_Some, Hins.
  - destruct ch; intros [= <-]; try exact Hj. destruct (has_ended n (threads c)); [apply Hins|exact Hj].
Qed.

(** A thread that waits for a lock it holds itself. *)
Definition stuck (t : thread) : Prop :=
  ended t = false /\ exists l p, code t = Lck l p /\ l ∈ held t.

Lemma stuck_hstep h c i ch c' j t : stuck t -> threads c !! j = Some t -> hstep h c i ch = Ok c' -> threads c' !! j = Some t.
Proof.
  intros (He & l & p & Hk & Hl) Hj. unfold hstep. intros (c1 & Hs & H)%bind_Ok_inv.
  destruct (decide (j = i)) as [->|Hij].
  - assert (c1 = c) as ->.
    { revert Hs. unfold step. rewrite Hj, He, Hk. destruct ch; intros [= <-]; try done.
      destruct (lock_free l (threads c)) eqn:Hf; [|done]. unfold lock_free in Hf. rewrite forallb_forall in Hf.
      specialize (Hf t (proj1 (list_elem_of_In _ _) (list_elem_of_lookup_2 _ _ _ Hj))). by rewrite bool_decide_eq_true_2 in Hf. }
    rewrite Hj, fired_none, put_same in H by done. by injection H as <-.
  - pose proof (step_other c i ch c1 j t Hs Hij Hj) as Hj1.
    destruct (threads c1 !! i) as [u|]; injection H as <-; [|done]. cbn. by rewrite list_lookup_insert_ne.
Qed.

Lemma stuck_hrun h j t l : forall c c', stuck t -> threads c !! j = Some t -> hrun h l c = Ok c' -> threads c' !! j = Some t.
Proof.
  induction l as [|[i ch] l IH]; intros c c' Ht Hj; [by intros [= <-]|].
  unfold hrun. cbn [drive]. intros (c1 & Hs & H)%bind_Ok_inv. apply (IH c1 c' Ht); [|done]. by eapply stuck_hstep.
Qed.

(** An error handler that answers every error with another safe output. *)
Definition resets_safe : handler := fun e =>
  match e with ErrorMessage _ => [CallSetSafe 1 1 [0; 0; 0]] | _ => [] end.

(** Such a handler stops [stop] for ever.  A stop whose safe output names no
    submodule tells the error handler under the lock of the safe output; the
    handler registers another one, and from then on, whatever is scheduled, the
    owner waits for the lock it holds itself: the stop never returns, and
    neither the run flag is cleared nor a STOP frame sent. *)
Theorem error_handler_deadlocks_stop :
  exists c t, hrun resets_safe unsafe_schedule (fresh idle_shared 1) = Ok c /\
    threads c !! 0%nat = Some t /\ held t = [LSafeOutput] /\ at_head t = false /\ frames (trace c) = [] /\
    forall l c', hrun resets_safe l c = Ok c' -> threads c' !! 0%nat = Some t.
Proof.
  assert (H : match hrun resets_safe unsafe_schedule (fresh idle_shared 1) with
    | Ok c => match threads c !! 0%nat with
              | Some t => Some (ended t, held t, match code t with Lck l _ => Some l | _ => None end, frames (trace c))
              | None => None
              end
    | _ => None
    end = Some (false, [LSafeOutput], Some LSafeOutput, [])) by (vm_compute; reflexivity).
  destruct (hrun resets_safe unsafe_schedule (fresh idle_shared 1)) as [c| | |] eqn:Hr; try discriminate H.
  destruct (threads c !! 0%nat) as [t|] eqn:Ht; [|discriminate H]. injection H as He Hh Hk Hf. exists c, t. unfold at_head.
  destruct (code t) as [k|B m k|l p|l p|x k|n p] eqn:Hcode; try discriminate Hk. injection Hk as ->.
  split; [reflexivity|]. split; [exact Ht|]. split; [exact Hh|]. split; [reflexivity|]. split; [exact Hf|]. clear Hr.
  intros l c' Hl. eapply stuck_hrun; [|exact Ht|exact Hl].
  split; [exact He|]. exists LSafeOutput, p. split; [exact Hcode|]. rewrite Hh. by left.
Qed.

(** ** Witness *)

(** Handlers that read what they are told of, and switch an output off. *)
Definition careful : handler := fun e =>
  match e with
  | StateChange _ _ => [CallRead ReadState; CallRead ReadStats]
  | Timeout => [CallSetOutput 1 1 [0; 0; 0]; CallSetSafe 1 1 [0; 0; 0]]
  | ErrorMessage _ => [CallRead ReadFaulted; CallRegister id]
  | _ => [CallRead (ReadInput 1 1); CallSetOutput 1 1 [9; 9; 9]]
  end.

Lemma careful_ok : handler_ok careful.
Proof.
  split.
  - intros e. destruct e; repeat constructor; unfold byte_ok; lia.
  - intros m. repeat constructor.
Qed.

(** Handlers registered, then the started controller of [busy]. *)
Definition registered : schedule :=
  (1%nat, Call (CallRegister (fun _ => {| on_input_data := true; on_input_status := true; on_timeout := true;
       on_error := true; on_state_change := true |}))) :: go 1 5 ++ busy.

Lemma handlers_may_call_back_witness :
  exists c l' c', hrun careful registered (fresh idle_shared 1) = Ok c /\
    existsb (fun e => match what e with StateChange _ _ => true | _ => false end) (trace c) = true /\
    hrun careful l' c = Ok c' /\ Forall (fun t => at_head t = true /\ held t = []) (threads c').
Proof.
  assert (Hl : schedule_ok registered).
  { unfold registered. constructor; [exact I|]. apply Forall_app. split; [repeat constructor|exact busy_ok]. }
  destruct (total_Ok _ _ (handlers_may_call_back careful idle_shared 1 registered idle_shared_ok careful_ok Hl))
    as (c & Hr & _ & _ & _ & l' & c' & _ & H1 & H2).
  exists c, l', c'. split; [exact Hr|]. split; [|split; [exact H1|exact H2]].
  assert (H : match hrun careful registered (fresh idle_shared 1) with
    | Ok c => existsb (fun e => match what e with StateChange _ _ => true | _ => false end) (trace c)
    | _ => false end = true) by (vm_compute; reflexivity).
  rewrite Hr in H. exact H.
Defined.
