(* ===== verification/Alarms.v ===== *)
(** * Alarm notifications ([src/src/alarms.rs])

    The notification parser with its item types, the name tables and the scan
    for the AlarmCRBlockRes. *)

From S2P Require Import Prelude Fmt.

#[local] Open Scope string_scope.
#[local] Open Scope list_scope.
#[local] Open Scope Z_scope.

(** ** Block types, alarm types and item identifiers *)

Definition BLOCK_ALARM_NOTIFICATION_HIGH : Z := 0x0001.
Definition BLOCK_ALARM_ACK_HIGH : Z := 0x8001.
Definition BLOCK_ALARM_NOTIFICATION_LOW : Z := 0x0002.
Definition BLOCK_ALARM_ACK_LOW : Z := 0x8002.
Definition BLOCK_ALARM_CR_REQ : Z := 0x0103.
Definition BLOCK_ALARM_CR_RES : Z := 0x8103.
Definition ALARM_TYPE_DIAGNOSIS : Z := 0x0001.
Definition ALARM_TYPE_PROCESS : Z := 0x0002.
Definition ALARM_TYPE_PULL : Z := 0x0003.
Definition ALARM_TYPE_PLUG : Z := 0x0004.
Definition ALARM_TYPE_STATUS : Z := 0x0005.
Definition ALARM_TYPE_UPDATE : Z := 0x0006.
Definition ALARM_TYPE_REDUNDANCY : Z := 0x0007.
Definition ALARM_TYPE_CONTROLLED_BY_SUPERVISOR : Z := 0x0008.
Definition ALARM_TYPE_RELEASED : Z := 0x0009.
Definition ALARM_TYPE_PLUG_WRONG_SUBMODULE : Z := 0x000A.
Definition ALARM_TYPE_RETURN_OF_SUBMODULE : Z := 0x000B.
Definition ALARM_TYPE_DIAGNOSIS_DISAPPEARS : Z := 0x000C.
Definition ALARM_TYPE_MULTICAST_MISMATCH : Z := 0x000D.
Definition ALARM_TYPE_PORT_DATA_CHANGE : Z := 0x000E.
Definition ALARM_TYPE_SYNC_DATA_CHANGED : Z := 0x000F.
Definition ALARM_TYPE_ISOCHRONOUS_MODE_PROBLEM : Z := 0x0010.
Definition ALARM_TYPE_NETWORK_COMPONENT_PROBLEM : Z := 0x0011.
Definition ALARM_TYPE_TIME_DATA_CHANGED : Z := 0x0012.
Definition ALARM_TYPE_DFP_PROBLEM : Z := 0x0013.
Definition ALARM_TYPE_UPLOAD_RETRIEVAL : Z := 0x001E.
Definition ALARM_TYPE_PULL_MODULE : Z := 0x001F.
Definition USI_CHANNEL_DIAGNOSIS : Z := 0x8000.
Definition USI_MULTIPLE_DIAGNOSIS : Z := 0x8001.
Definition USI_EXT_CHANNEL_DIAGNOSIS : Z := 0x8002.
Definition USI_QUALIFIED_CHANNEL_DIAGNOSIS : Z := 0x8003.
Definition USI_MAINTENANCE : Z := 0x8100.
Definition USI_UPLOAD : Z := 0x8200.
Definition USI_IPARAMETER : Z := 0x8201.
Definition USI_RS_ALARM_LOW : Z := 0x8300.
Definition USI_RS_ALARM_HIGH : Z := 0x8301.
Definition USI_RS_ALARM_SUBMODULE : Z := 0x8302.
Definition USI_PE_ALARM : Z := 0x8310.
Definition USI_PRAL_ALARM : Z := 0x8320.
Definition PE_MODE_POWER_OFF : Z := 0x00.
Definition PE_MODE_ENERGY_SAVING_MIN : Z := 0x01.
Definition PE_MODE_ENERGY_SAVING_MAX : Z := 0x1F.
Definition PE_MODE_OPERATE : Z := 0xF0.
Definition PE_MODE_SLEEP_MODE_WOL : Z := 0xFE.
Definition PE_MODE_READY_TO_OPERATE : Z := 0xFF.

Definition get_alarm_type_name (alarm_type : Z) : string :=
  if alarm_type =? ALARM_TYPE_DIAGNOSIS then "Diagnosis"
  else if alarm_type =? ALARM_TYPE_PROCESS then "Process"
  else if alarm_type =? ALARM_TYPE_PULL then "Pull"
  else if alarm_type =? ALARM_TYPE_PLUG then "Plug"
  else if alarm_type =? ALARM_TYPE_STATUS then "Status"
  else if alarm_type =? ALARM_TYPE_UPDATE then "Update"
  else if alarm_type =? ALARM_TYPE_REDUNDANCY then "Redundancy"
  else if alarm_type =? ALARM_TYPE_CONTROLLED_BY_SUPERVISOR then "ControlledBySupervisor"
  else if alarm_type =? ALARM_TYPE_RELEASED then "Released"
  else if alarm_type =? ALARM_TYPE_PLUG_WRONG_SUBMODULE then "PlugWrongSubmodule"
  else if alarm_type =? ALARM_TYPE_RETURN_OF_SUBMODULE then "ReturnOfSubmodule"
  else if alarm_type =? ALARM_TYPE_DIAGNOSIS_DISAPPEARS then "DiagnosisDisappears"
  else if alarm_type =? ALARM_TYPE_MULTICAST_MISMATCH then "MulticastMismatch"
  else if alarm_type =? ALARM_TYPE_PORT_DATA_CHANGE then "PortDataChange"
  else if alarm_type =? ALARM_TYPE_SYNC_DATA_CHANGED then "SyncDataChanged"
  else if alarm_type =? ALARM_TYPE_ISOCHRONOUS_MODE_PROBLEM then "IsochronousModeProblem"
  else if alarm_type =? ALARM_TYPE_NETWORK_COMPONENT_PROBLEM then "NetworkComponentProblem"
  else if alarm_type =? ALARM_TYPE_TIME_DATA_CHANGED then "TimeDataChanged"
  else if alarm_type =? ALARM_TYPE_DFP_PROBLEM then "DynamicFramePackingProblem"
  else if alarm_type =? ALARM_TYPE_UPLOAD_RETRIEVAL then "UploadAndRetrieval"
  else if alarm_type =? ALARM_TYPE_PULL_MODULE then "PullModule"
  else "Unknown(0x" +:+ hexu 4 alarm_type +:+ ")".

Definition get_usi_name (usi : Z) : string :=
  if usi =? USI_CHANNEL_DIAGNOSIS then "ChannelDiagnosis"
  else if usi =? USI_MULTIPLE_DIAGNOSIS then "MultipleDiagnosis"
  else if usi =? USI_EXT_CHANNEL_DIAGNOSIS then "ExtChannelDiagnosis"
  else if usi =? USI_QUALIFIED_CHANNEL_DIAGNOSIS then "QualifiedChannelDiagnosis"
  else if usi =? USI_MAINTENANCE then "MaintenanceItem"
  else if usi =? USI_UPLOAD then "UploadRecord"
  else if usi =? USI_IPARAMETER then "iParameterItem"
  else if usi =? USI_RS_ALARM_LOW then "RS_AlarmItem_Low"
  else if usi =? USI_RS_ALARM_HIGH then "RS_AlarmItem_High"
  else if usi =? USI_RS_ALARM_SUBMODULE then "RS_AlarmItem_Submodule"
  else if usi =? USI_PE_ALARM then "PE_AlarmItem"
  else if usi =? USI_PRAL_ALARM then "PRAL_AlarmItem"
  else if (0x0000 <=? usi) && (usi <=? 0x7FFF) then "ManufacturerSpecific(0x" +:+ hexu 4 usi +:+ ")"
  else if (0x9000 <=? usi) && (usi <=? 0x9FFF) then "ProfileSpecific(0x" +:+ hexu 4 usi +:+ ")"
  else "Reserved(0x" +:+ hexu 4 usi +:+ ")".

Definition get_pe_mode_name (mode : Z) : string :=
  if mode =? PE_MODE_POWER_OFF then "PE_PowerOff"
  else if (PE_MODE_ENERGY_SAVING_MIN <=? mode) && (mode <=? PE_MODE_ENERGY_SAVING_MAX) then "PE_EnergySavingMode_" +:+ dec mode
  else if mode =? PE_MODE_OPERATE then "PE_Operate"
  else if mode =? PE_MODE_SLEEP_MODE_WOL then "PE_SleepModeWOL"
  else if mode =? PE_MODE_READY_TO_OPERATE then "PE_ReadyToOperate"
  else "PE_Reserved(0x" +:+ hexu 2 mode +:+ ")".

(** ** Items *)

Record DiagnosisItem := {
  di_user_structure_id : Z;
  channel_number : Z;
  channel_properties : Z;
  channel_error_type : Z;
  ext_channel_error_type : Z;
  ext_channel_add_value : Z;
  qualified_channel_qualifier : Z;
}.

Definition channel_number_value (i : DiagnosisItem) : Z := Z.land (channel_number i) 0x7FFF.
Definition is_accumulative (i : DiagnosisItem) : bool := negb (Z.land (channel_number i) 0x8000 =? 0).
Definition channel_type (i : DiagnosisItem) : Z := Z.land (channel_properties i) 0xFF.
Definition is_extended (i : DiagnosisItem) : bool :=
  (di_user_structure_id i =? USI_EXT_CHANNEL_DIAGNOSIS)
  || (di_user_structure_id i =? USI_QUALIFIED_CHANNEL_DIAGNOSIS).
Definition is_qualified (i : DiagnosisItem) : bool :=
  di_user_structure_id i =? USI_QUALIFIED_CHANNEL_DIAGNOSIS.

Record MaintenanceItem := {
  mi_block_type : Z;
  mi_block_length : Z;
  mi_block_version : Z;
  maintenance_status : Z;
}.

Definition maintenance_required (i : MaintenanceItem) : bool :=
  negb (Z.land (maintenance_status i) 0x01 =? 0).
Definition maintenance_demanded (i : MaintenanceItem) : bool :=
  negb (Z.land (maintenance_status i) 0x02 =? 0).

Record UploadRetrievalItem := {
  ur_user_structure_id : Z;
  ur_block_type : Z;
  ur_block_length : Z;
  ur_block_version : Z;
  ur_record_index : Z;
  ur_record_length : Z;
}.

Definition is_upload (i : UploadRetrievalItem) : bool := ur_user_structure_id i =? USI_UPLOAD.
Definition is_retrieval (i : UploadRetrievalItem) : bool := ur_user_structure_id i =? USI_IPARAMETER.

Record PeAlarmItem := {
  pe_block_type : Z;
  pe_block_length : Z;
  pe_block_version : Z;
  pe_operational_mode : Z;
}.

Definition mode_name (i : PeAlarmItem) : string := get_pe_mode_name (pe_operational_mode i).

Record RsAlarmItem := { rs_user_structure_id : Z; rs_alarm_info : Z }.

Definition rs_specifier (i : RsAlarmItem) : Z := Z.land (rs_alarm_info i) 0x07FF.
Definition rs_sequence_number (i : RsAlarmItem) : Z := rs_specifier i.

Record PralAlarmItem := {
  pral_channel_number : Z;
  pral_channel_properties : Z;
  pral_reason : Z;
  pral_ext_reason : Z;
  pral_reason_add_value : list Z;
}.

Inductive AlarmItem :=
| Diagnosis (i : DiagnosisItem)
| Maintenance (i : MaintenanceItem)
| UploadRetrieval (i : UploadRetrievalItem)
| Pe (i : PeAlarmItem)
| Rs (i : RsAlarmItem)
| Pral (i : PralAlarmItem)
| Generic (usi : Z) (raw_data : list Z).

Definition user_structure_id (i : AlarmItem) : Z :=
  match i with
  | Diagnosis i => di_user_structure_id i
  | Maintenance _ => USI_MAINTENANCE
  | UploadRetrieval i => ur_user_structure_id i
  | Pe _ => USI_PE_ALARM
  | Rs i => rs_user_structure_id i
  | Pral _ => USI_PRAL_ALARM
  | Generic usi _ => usi
  end.

Definition usi_name (i : AlarmItem) : string := get_usi_name (user_structure_id i).

(** ** Notifications *)

Record AlarmNotification := {
  block_type : Z;
  block_version : Z * Z;
  alarm_type : Z;
  api : Z;
  slot_number : Z;
  subslot_number : Z;
  module_ident_number : Z;
  submodule_ident_number : Z;
  alarm_sequence_number : Z;
  channel_diagnosis : bool;
  manufacturer_specific : bool;
  submodule_diagnosis_state : bool;
  ar_diagnosis_state : bool;
  items : list AlarmItem;
  raw_payload : list Z;
}.

Definition is_high_priority (n : AlarmNotification) : bool :=
  block_type n =? BLOCK_ALARM_NOTIFICATION_HIGH.
Definition is_low_priority (n : AlarmNotification) : bool :=
  block_type n =? BLOCK_ALARM_NOTIFICATION_LOW.
Definition alarm_type_name (n : AlarmNotification) : string := get_alarm_type_name (alarm_type n).
Definition location (n : AlarmNotification) : string :=
  dec (api n) +:+ ":" +:+ dec (slot_number n) +:+ ":0x" +:+ hexu 4 (subslot_number n).

(** ** Parsing items: the item and the offset behind it *)

Definition parse_diagnosis_item (d : list Z) (offset usi : Z) : outcome (AlarmItem * Z) :=
  if len d <? offset + 6 then Err "Truncated DiagnosisItem"
  else
    let? cn := rd_be16 d offset in
    let? cp := rd_be16 d (offset + 2) in
    let? ce := rd_be16 d (offset + 4) in
    let offset := offset + 6 in
    let? ext :=
      (if (usi =? USI_EXT_CHANNEL_DIAGNOSIS) || (usi =? USI_QUALIFIED_CHANNEL_DIAGNOSIS) then
         if len d <? offset + 6 then Err "Truncated ExtChannelDiagnosis"
         else
           let? et := rd_be16 d offset in
           let? ev := rd_be32 d (offset + 2) in
           Ok (et, ev, offset + 6)
       else Ok (0, 0, offset)) in
    let '(et, ev, offset) := ext in
    let? q :=
      (if usi =? USI_QUALIFIED_CHANNEL_DIAGNOSIS then
         if len d <? offset + 4 then Err "Truncated QualifiedChannelDiagnosis"
         else let? q := rd_be32 d offset in Ok (q, offset + 4)
       else Ok (0, offset)) in
    Ok (Diagnosis {| di_user_structure_id := usi; channel_number := cn; channel_properties := cp;
                     channel_error_type := ce; ext_channel_error_type := et;
                     ext_channel_add_value := ev; qualified_channel_qualifier := fst q |}, snd q).

Definition parse_maintenance_item (d : list Z) (offset : Z) : outcome (AlarmItem * Z) :=
  if len d <? offset + 12 then Err "Truncated MaintenanceItem"
  else
    let? bt := rd_be16 d offset in
    let? bl := rd_be16 d (offset + 2) in
    let? bv := rd_be16 d (offset + 4) in
    let? ms := rd_be32 d (offset + 8) in
    Ok (Maintenance {| mi_block_type := bt; mi_block_length := bl; mi_block_version := bv;
                       maintenance_status := ms |}, offset + 12).

Definition parse_upload_retrieval_item (d : list Z) (offset usi : Z) : outcome (AlarmItem * Z) :=
  if len d <? offset + 16 then Err "Truncated UploadRetrievalItem"
  else
    let? bt := rd_be16 d offset in
    let? bl := rd_be16 d (offset + 2) in
    let? bv := rd_be16 d (offset + 4) in
    let? ri := rd_be32 d (offset + 8) in
    let? rl := rd_be32 d (offset + 12) in
    Ok (UploadRetrieval {| ur_user_structure_id := usi; ur_block_type := bt; ur_block_length := bl;
                           ur_block_version := bv; ur_record_index := ri; ur_record_length := rl |},
        offset + 16).

Definition parse_pe_alarm_item (d : list Z) (offset : Z) : outcome (AlarmItem * Z) :=
  if len d <? offset + 7 then Err "Truncated PE_AlarmItem"
  else
    let? bt := rd_be16 d offset in
    let? bl := rd_be16 d (offset + 2) in
    let? bv := rd_be16 d (offset + 4) in
    let? m := idx d (offset + 6) in
    Ok (Pe {| pe_block_type := bt; pe_block_length := bl; pe_block_version := bv;
              pe_operational_mode := m |}, offset + 7).

Definition parse_rs_alarm_item (d : list Z) (offset usi : Z) : outcome (AlarmItem * Z) :=
  if len d <? offset + 2 then Err "Truncated RS_AlarmItem"
  else
    let? i := rd_be16 d offset in
    Ok (Rs {| rs_user_structure_id := usi; rs_alarm_info := i |}, offset + 2).

Definition parse_pral_alarm_item (d : list Z) (offset : Z) : outcome (AlarmItem * Z) :=
  if len d <? offset + 8 then Err "Truncated PRAL_AlarmItem"
  else
    let? cn := rd_be16 d offset in
    let? cp := rd_be16 d (offset + 2) in
    let? r := rd_be16 d (offset + 4) in
    let? er := rd_be16 d (offset + 6) in
    let? v := slice_from d (offset + 8) in
    Ok (Pral {| pral_channel_number := cn; pral_channel_properties := cp; pral_reason := r;
                pral_ext_reason := er; pral_reason_add_value := v |}, len d).

Definition is_diagnosis_usi (usi : Z) : bool :=
  (usi =? USI_CHANNEL_DIAGNOSIS) || (usi =? USI_EXT_CHANNEL_DIAGNOSIS)
  || (usi =? USI_QUALIFIED_CHANNEL_DIAGNOSIS).
Definition is_upload_usi (usi : Z) : bool := (usi =? USI_UPLOAD) || (usi =? USI_IPARAMETER).
Definition is_rs_usi (usi : Z) : bool :=
  (usi =? USI_RS_ALARM_LOW) || (usi =? USI_RS_ALARM_HIGH) || (usi =? USI_RS_ALARM_SUBMODULE).

Definition parse_alarm_item (d : list Z) (offset : Z) : outcome (AlarmItem * Z) :=
  if len d <? offset + 2 then Err "Insufficient data for USI"
  else
    let? usi := rd_be16 d offset in
    let offset := offset + 2 in
    if is_diagnosis_usi usi then parse_diagnosis_item d offset usi
    else if usi =? USI_MAINTENANCE then parse_maintenance_item d offset
    else if is_upload_usi usi then parse_upload_retrieval_item d offset usi
    else if is_rs_usi usi then parse_rs_alarm_item d offset usi
    else if usi =? USI_PE_ALARM then parse_pe_alarm_item d offset
    else if usi =? USI_PRAL_ALARM then parse_pral_alarm_item d offset
    else let? raw := slice_from d offset in Ok (Generic usi raw, len d).

Definition ALARM_BODY_LEN : Z := 20.

(** One pass of the item loop; the first item that does not parse ends it. *)
Definition alarm_items_body (p : list Z) (st : list AlarmItem * Z)
    : outcome (step (list AlarmItem * Z) (list AlarmItem)) :=
  let (its, item_offset) := st in
  if item_offset <? len p then
    match parse_alarm_item p item_offset with
    | Ok (item, next) => Ok (Continue (its ++ [item], next))
    | Err _ => Ok (Break its)
    | Panic => Panic
    | OutOfFuel => OutOfFuel
    end
  else Ok (Break its).

Definition parse_alarm_items (p : list Z) : outcome (list AlarmItem) :=
  loop (S (length p)) (alarm_items_body p) ([], 0).

Definition spec_bit (v m : Z) : bool := negb (Z.land v m =? 0).

Definition parse_alarm_notification (d : list Z) : outcome AlarmNotification :=
  if len d <? 6 + ALARM_BODY_LEN then Err "AlarmNotification too short"
  else
    let? bt := rd_be16 d 0 in
    let? vh := idx d 4 in
    let? vl := idx d 5 in
    let? bl := rd_be16 d 2 in
    let block_end := 4 + bl in
    let? d := (if (6 + ALARM_BODY_LEN <=? block_end) && (block_end <? len d) then slice d 0 block_end
               else Ok d) in
    let? aty := rd_be16 d 6 in
    let? ap := rd_be32 d 8 in
    let? sl := rd_be16 d 12 in
    let? ss := rd_be16 d 14 in
    let? mo := rd_be32 d 16 in
    let? su := rd_be32 d 20 in
    let? spec := rd_be16 d 24 in
    let? p := slice_from d (6 + ALARM_BODY_LEN) in
    let? its := parse_alarm_items p in
    Ok {| block_type := bt; block_version := (vh, vl); alarm_type := aty; api := ap;
          slot_number := sl; subslot_number := ss; module_ident_number := mo;
          submodule_ident_number := su; alarm_sequence_number := Z.land spec 0x07FF;
          channel_diagnosis := spec_bit spec 0x0800; manufacturer_specific := spec_bit spec 0x1000;
          submodule_diagnosis_state := spec_bit spec 0x2000;
          ar_diagnosis_state := spec_bit spec 0x8000; items := its; raw_payload := p |}.

Definition alarm_cr_body (d : list Z) (offset : Z) : outcome (step Z (option Z)) :=
  if offset + 6 <=? len d then
    let? bt := rd_be16 d offset in
    let? bl := rd_be16 d (offset + 2) in
    if (bt =? BLOCK_ALARM_CR_RES) && (offset + 12 <=? len d) then
      let? r := rd_be16 d (offset + 8) in Ok (Break (Some r))
    else Ok (Continue (offset + (4 + bl)))
  else Ok (Break None).

Definition parse_alarm_cr_res (response_data : list Z) : outcome (option Z) :=
  loop (S (length response_data)) (alarm_cr_body response_data) 0.

(** ** The wire form of a notification, as a device sends it *)

Definition item_body (i : AlarmItem) : list Z :=
  match i with
  | Diagnosis i =>
      be16_bytes (channel_number i) ++ be16_bytes (channel_properties i)
      ++ be16_bytes (channel_error_type i)
      ++ (if is_extended i then be16_bytes (ext_channel_error_type i)
                                ++ be32_bytes (ext_channel_add_value i) else [])
      ++ (if is_qualified i then be32_bytes (qualified_channel_qualifier i) else [])
  | Maintenance i =>
      be16_bytes (mi_block_type i) ++ be16_bytes (mi_block_length i)
      ++ be16_bytes (mi_block_version i) ++ [0; 0] ++ be32_bytes (maintenance_status i)
  | UploadRetrieval i =>
      be16_bytes (ur_block_type i) ++ be16_bytes (ur_block_length i)
      ++ be16_bytes (ur_block_version i) ++ [0; 0] ++ be32_bytes (ur_record_index i)
      ++ be32_bytes (ur_record_length i)
  | Pe i =>
      be16_bytes (pe_block_type i) ++ be16_bytes (pe_block_length i)
      ++ be16_bytes (pe_block_version i) ++ [pe_operational_mode i]
  | Rs i => be16_bytes (rs_alarm_info i)
  | Pral i =>
      be16_bytes (pral_channel_number i) ++ be16_bytes (pral_channel_properties i)
      ++ be16_bytes (pral_reason i) ++ be16_bytes (pral_ext_reason i) ++ pral_reason_add_value i
  | Generic _ raw => raw
  end.

Definition item_bytes (i : AlarmItem) : list Z := be16_bytes (user_structure_id i) ++ item_body i.

(** The identifiers that select the other items. *)
Definition known_usi (usi : Z) : bool :=
  is_diagnosis_usi usi || (usi =? USI_MAINTENANCE) || is_upload_usi usi || is_rs_usi usi
  || (usi =? USI_PE_ALARM) || (usi =? USI_PRAL_ALARM).

Definition item_ok (i : AlarmItem) : Prop :=
  match i with
  | Diagnosis i =>
      is_diagnosis_usi (di_user_structure_id i) = true /\ u16_ok (channel_number i) /\
      u16_ok (channel_properties i) /\ u16_ok (channel_error_type i) /\
      u16_ok (ext_channel_error_type i) /\ u32_ok (ext_channel_add_value i) /\
      u32_ok (qualified_channel_qualifier i) /\
      (is_extended i = false -> ext_channel_error_type i = 0 /\ ext_channel_add_value i = 0) /\
      (is_qualified i = false -> qualified_channel_qualifier i = 0)
  | Maintenance i =>
      u16_ok (mi_block_type i) /\ u16_ok (mi_block_length i) /\ u16_ok (mi_block_version i) /\
      u32_ok (maintenance_status i)
  | UploadRetrieval i =>
      is_upload_usi (ur_user_structure_id i) = true /\ u16_ok (ur_block_type i) /\
      u16_ok (ur_block_length i) /\ u16_ok (ur_block_version i) /\ u32_ok (ur_record_index i) /\
      u32_ok (ur_record_length i)
  | Pe i =>
      u16_ok (pe_block_type i) /\ u16_ok (pe_block_length i) /\ u16_ok (pe_block_version i)
  | Rs i => is_rs_usi (rs_user_structure_id i) = true /\ u16_ok (rs_alarm_info i)
  | Pral i =>
      u16_ok (pral_channel_number i) /\ u16_ok (pral_channel_properties i) /\
      u16_ok (pral_reason i) /\ u16_ok (pral_ext_reason i)
  | Generic usi _ => u16_ok usi /\ known_usi usi = false
  end.

(** Items that run to the end of the payload. *)
Definition open_ended (i : AlarmItem) : bool :=
  match i with Pral _ | Generic _ _ => true | _ => false end.

(** Only the last item may be open-ended. *)
Fixpoint items_ok (l : list AlarmItem) : Prop :=
  match l with
  | [] => True
  | i :: l => item_ok i /\ (open_ended i = true -> l = []) /\ items_ok l
  end.

Lemma usi_cases_diag usi : is_diagnosis_usi usi = true ->
  usi = USI_CHANNEL_DIAGNOSIS \/ usi = USI_EXT_CHANNEL_DIAGNOSIS \/ usi = USI_QUALIFIED_CHANNEL_DIAGNOSIS.
Proof. unfold is_diagnosis_usi. lia. Qed.

Lemma usi_ok i : item_ok i -> u16_ok (user_structure_id i).
Proof.
  destruct i; cbn; unfold u16_ok, is_diagnosis_usi, is_upload_usi, is_rs_usi, USI_CHANNEL_DIAGNOSIS,
    USI_EXT_CHANNEL_DIAGNOSIS, USI_QUALIFIED_CHANNEL_DIAGNOSIS, USI_UPLOAD, USI_IPARAMETER,
    USI_RS_ALARM_LOW, USI_RS_ALARM_HIGH, USI_RS_ALARM_SUBMODULE, USI_MAINTENANCE, USI_PE_ALARM,
    USI_PRAL_ALARM; lia.
Qed.

Ltac wire := unfold be16_bytes, be32_bytes; simpl app.

Lemma parse_diagnosis_ok p i rest : item_ok (Diagnosis i) ->
  parse_diagnosis_item (p ++ item_body (Diagnosis i) ++ rest) (len p) (di_user_structure_id i)
  = Ok (Diagnosis i, len p + len (item_body (Diagnosis i))).
Proof.
  intros (Hu & Hcn & Hcp & Hce & Het & Hev & Hq & Hx1 & Hx2).
  destruct i as [usi cn cp ce et ev q].
  cbn [di_user_structure_id channel_number channel_properties channel_error_type
    ext_channel_error_type ext_channel_add_value qualified_channel_qualifier] in *.
  unfold parse_diagnosis_item, item_body, is_extended, is_qualified in *. 
  cbn [di_user_structure_id channel_number channel_properties channel_error_type
    ext_channel_error_type ext_channel_add_value qualified_channel_qualifier] in *.
  apply usi_cases_diag in Hu as [-> | [-> | ->]].
  - destruct (Hx1 eq_refl) as [-> ->]. rewrite (Hx2 eq_refl). wire. len_ok.
    do 3 skip_step. cbn [bind]. done.
  - rewrite (Hx2 eq_refl). wire. len_ok. do 3 skip_step. cbn [orb Z.eqb].
    eapply (bind_step _ _ (et, ev, len p + 6 + 6)).
    { eval_if. len_ok. do 2 skip_step. done. }
    cbv beta iota. eapply (bind_step _ _ (0, len p + 6 + 6)); [done|]. cbn [fst snd].
    do 2 f_equal. simpl length. lia.
  - wire. len_ok. do 3 skip_step.
    eapply (bind_step _ _ (et, ev, len p + 6 + 6)).
    { eval_if. len_ok. do 2 skip_step. done. }
    cbv beta iota. eapply (bind_step _ _ (q, len p + 6 + 6 + 4)).
    { eval_if. len_ok. skip_step. done. }
    cbn [fst snd]. do 2 f_equal. simpl length. lia.
Qed.

Lemma shift2 {A} (p : list A) (u q : list A) : p ++ u ++ q = (p ++ u) ++ q.
Proof. by rewrite app_assoc. Qed.

(** One item at its place in the payload. *)
Lemma parse_item_at p i rest :
  item_ok i -> (open_ended i = true -> rest = []) ->
  parse_alarm_item (p ++ item_bytes i ++ rest) (len p) = Ok (i, len p + len (item_bytes i)).
Proof.
  intros Hi Hopen. pose proof (usi_ok i Hi) as Hu.
  assert (Hl : len (item_bytes i) = 2 + len (item_body i)) by (unfold item_bytes; rewrite length_app; simpl; lia).
  unfold parse_alarm_item. unfold item_bytes at 2. rewrite <- app_assoc. wire.
  len_ok. skip_step. set (usi := user_structure_id i) in *.
  set (P := p ++ [usi / 256 mod 256; usi mod 256]).
  assert (HP : len p + 2 = len P) by (unfold P; rewrite length_app; simpl; lia).
  change (usi / 256 mod 256 :: usi mod 256 :: item_body i ++ rest)
    with ([usi / 256 mod 256; usi mod 256] ++ item_body i ++ rest).
  rewrite shift2. fold P. rewrite HP, Hl. replace (len p + (2 + len (item_body i))) with (len P + len (item_body i)) by lia.
  clearbody P. clear HP Hl Hu. destruct i as [i|i|i|i|i|i|u raw]; subst usi; cbn [user_structure_id] in *.
  - pose proof (proj1 Hi) as Hd. rewrite Hd. by apply parse_diagnosis_ok.
  - destruct i as [a b c s]. destruct Hi as (H1 & H2 & H3 & H4). cbn in *.
    unfold parse_maintenance_item. wire. len_ok. do 4 skip_step. done.
  - destruct i as [u a b c s t]. destruct Hi as (Hus & H1 & H2 & H3 & H4 & H5). cbn in *.
    assert (is_diagnosis_usi u = false) as -> by (unfold is_upload_usi, is_diagnosis_usi, USI_UPLOAD,
      USI_IPARAMETER, USI_CHANNEL_DIAGNOSIS, USI_EXT_CHANNEL_DIAGNOSIS, USI_QUALIFIED_CHANNEL_DIAGNOSIS in *; lia).
    assert ((u =? USI_MAINTENANCE) = false) as -> by (unfold is_upload_usi, USI_UPLOAD, USI_IPARAMETER,
      USI_MAINTENANCE in *; lia).
    rewrite Hus. unfold parse_upload_retrieval_item. wire. len_ok. do 5 skip_step. done.
  - destruct i as [a b c m]. destruct Hi as (H1 & H2 & H3). cbn in *.
    unfold parse_pe_alarm_item. wire. len_ok. do 4 skip_step. done.
  - destruct i as [u a]. destruct Hi as (Hus & H1). cbn in *.
    assert (is_diagnosis_usi u = false) as -> by (unfold is_rs_usi, is_diagnosis_usi, USI_RS_ALARM_LOW,
      USI_RS_ALARM_HIGH, USI_RS_ALARM_SUBMODULE, USI_CHANNEL_DIAGNOSIS, USI_EXT_CHANNEL_DIAGNOSIS,
      USI_QUALIFIED_CHANNEL_DIAGNOSIS in *; lia).
    assert ((u =? USI_MAINTENANCE) = false) as -> by (unfold is_rs_usi, USI_RS_ALARM_LOW,
      USI_RS_ALARM_HIGH, USI_RS_ALARM_SUBMODULE, USI_MAINTENANCE in *; lia).
    assert (is_upload_usi u = false) as -> by (unfold is_rs_usi, is_upload_usi, USI_RS_ALARM_LOW,
      USI_RS_ALARM_HIGH, USI_RS_ALARM_SUBMODULE, USI_UPLOAD, USI_IPARAMETER in *; lia).
    rewrite Hus. unfold parse_rs_alarm_item. wire. len_ok. skip_step. done.
  - destruct i as [a b c e v]. destruct Hi as (H1 & H2 & H3 & H4). rewrite Hopen by done. rewrite app_nil_r.
    cbn in *. unfold parse_pral_alarm_item. wire. len_ok. do 5 skip_step.
    do 2 f_equal. rewrite length_app. simpl length. lia.
  - destruct Hi as (H1 & H2). rewrite Hopen by done. rewrite app_nil_r. cbn in *.
    unfold known_usi in H2. rewrite !orb_false_iff in H2. destruct H2 as (((((-> & ->) & ->) & ->) & ->) & ->).
    rewrite slice_app_suffix by done. cbn [bind]. by rewrite length_app, Nat2Z.inj_add.
Qed.

Definition items_bytes (l : list AlarmItem) : list Z := mjoin (item_bytes <$> l).

Lemma item_bytes_ne i : (2 <= length (item_bytes i))%nat.
Proof. unfold item_bytes. rewrite length_app. simpl. lia. Qed.

Lemma parse_items_loop l : forall fuel p acc,
  items_ok l -> (length l < fuel)%nat ->
  loop fuel (alarm_items_body (p ++ items_bytes l)) (acc, len p) = Ok (acc ++ l).
Proof.
  induction l as [|i l IH]; intros [|fuel] p acc; cbn [length items_ok]; try lia.
  - intros _ _. rewrite loop_S. unfold alarm_items_body, items_bytes. cbn [fmap list_fmap].
    change (mjoin ([] : list (list Z))) with (@nil Z). rewrite app_nil_r.
    replace (len p <? len p) with false by lia. by rewrite app_nil_r.
  - intros (Hi & Hopen & Hl) Hf. rewrite loop_S. unfold alarm_items_body at 1.
    change (items_bytes (i :: l)) with (item_bytes i ++ items_bytes l) in *.
    pose proof (item_bytes_ne i).
    replace (len p <? _) with true by (symmetry; apply Z.ltb_lt; rewrite !length_app; lia).
    rewrite parse_item_at; [|done|intros E; by rewrite (Hopen E)].
    change (p ++ item_bytes i ++ items_bytes l) with (p ++ item_bytes i ++ items_bytes l).
    rewrite app_assoc. replace (len p + len (item_bytes i)) with (len (p ++ item_bytes i))
      by (rewrite length_app; lia).
    rewrite IH; [|done|lia]. by rewrite <- app_assoc.
Qed.

Lemma items_bytes_length l : (2 * length l <= length (items_bytes l))%nat.
Proof.
  induction l as [|i l IH]; [simpl; lia|].
  change (items_bytes (i :: l)) with (item_bytes i ++ items_bytes l).
  rewrite length_app. pose proof (item_bytes_ne i). simpl. lia.
Qed.

Lemma parse_items_ok l : items_ok l -> parse_alarm_items (items_bytes l) = Ok l.
Proof.
  intros Hl. unfold parse_alarm_items. pose proof (items_bytes_length l).
  apply (parse_items_loop l _ [] []); [done|lia].
Qed.

(** The AlarmSpecifier word, bit 14 reserved. *)
Definition specifier (n : AlarmNotification) (reserved : bool) : Z :=
  Z.land (alarm_sequence_number n) 0x07FF
  + (if channel_diagnosis n then 0x0800 else 0) + (if manufacturer_specific n then 0x1000 else 0)
  + (if submodule_diagnosis_state n then 0x2000 else 0) + (if reserved then 0x4000 else 0)
  + (if ar_diagnosis_state n then 0x8000 else 0).

Definition notification_bytes (n : AlarmNotification) (reserved : bool) : list Z :=
  be16_bytes (block_type n) ++ be16_bytes (22 + len (items_bytes (items n)))
  ++ [fst (block_version n)] ++ [snd (block_version n)]
  ++ be16_bytes (alarm_type n) ++ be32_bytes (api n) ++ be16_bytes (slot_number n)
  ++ be16_bytes (subslot_number n) ++ be32_bytes (module_ident_number n)
  ++ be32_bytes (submodule_ident_number n) ++ be16_bytes (specifier n reserved)
  ++ items_bytes (items n).

Definition notification_ok (n : AlarmNotification) : Prop :=
  u16_ok (block_type n) /\ u16_ok (alarm_type n) /\ u32_ok (api n) /\ u16_ok (slot_number n) /\
  u16_ok (subslot_number n) /\ u32_ok (module_ident_number n) /\ u32_ok (submodule_ident_number n) /\
  0 <= alarm_sequence_number n < 2048 /\ items_ok (items n) /\
  raw_payload n = items_bytes (items n) /\ len (items_bytes (items n)) < 65000.

Lemma specifier_bits q : 0 <= q < 2048 ->
  forall cd ms sd rs ar : bool,
  let v := Z.land q 0x07FF + (if cd then 0x0800 else 0) + (if ms then 0x1000 else 0)
           + (if sd then 0x2000 else 0) + (if rs then 0x4000 else 0) + (if ar then 0x8000 else 0) in
  u16_ok v /\ Z.land v 0x07FF = q /\ spec_bit v 0x0800 = cd /\ spec_bit v 0x1000 = ms /\
  spec_bit v 0x2000 = sd /\ spec_bit v 0x8000 = ar.
Proof.
  intros Hq cd ms sd rs ar. cbv zeta. change 0x07FF with (Z.ones 11). rewrite Z.land_ones by lia.
  rewrite (Z.mod_small q) by done.
  set (h := (if cd then 1 else 0) + (if ms then 2 else 0) + (if sd then 4 else 0)
            + (if rs then 8 else 0) + (if ar then 16 else 0)).
  replace (q + _ + _ + _ + _ + _) with (q + h * 2 ^ 11)
    by (unfold h; destruct cd, ms, sd, rs, ar; lia).
  assert (Hh : 0 <= h < 32) by (unfold h; destruct cd, ms, sd, rs, ar; lia).
  assert (Hb : forall k, 0 <= k -> Z.testbit (q + h * 2 ^ 11) (11 + k) = Z.testbit h k).
  { intros k Hk. rewrite Z.add_comm with (n := 11). rewrite <- Z.shiftr_spec by lia.
    rewrite Z.shiftr_div_pow2 by lia. rewrite Z.div_add by lia. by rewrite Z.div_small. }
  assert (Hm : forall k, 0 <= k -> spec_bit (q + h * 2 ^ 11) (2 ^ (11 + k)) = Z.testbit h k).
  { intros k Hk. unfold spec_bit. rewrite <- Hb by done.
    destruct (Z.testbit (q + h * 2 ^ 11) (11 + k)) eqn:E.
    - apply negb_true_iff, Z.eqb_neq. intros H0.
      assert (Ht : Z.testbit (Z.land (q + h * 2 ^ 11) (2 ^ (11 + k))) (11 + k) = true)
        by (rewrite Z.land_spec, E, Z.pow2_bits_true by lia; done).
      by rewrite H0, Z.bits_0 in Ht.
    - apply negb_false_iff, Z.eqb_eq, Z.bits_inj'. intros m Hm. rewrite Z.land_spec, Z.bits_0.
      destruct (decide (m = 11 + k)) as [->|]; [by rewrite E|].
      rewrite Z.pow2_bits_false by lia. apply andb_false_r. }
  change 0x0800 with (2 ^ (11 + 0)). change 0x1000 with (2 ^ (11 + 1)).
  change 0x2000 with (2 ^ (11 + 2)). change 0x8000 with (2 ^ (11 + 4)).
  rewrite !Hm by lia. split_and!.
  - unfold u16_ok. change (2 ^ 11) with 2048. lia.
  - rewrite Z.land_ones by lia. rewrite Z.mod_add by lia. by apply Z.mod_small.
  - unfold h. by destruct cd, ms, sd, rs, ar.
  - unfold h. by destruct cd, ms, sd, rs, ar.
  - unfold h. by destruct cd, ms, sd, rs, ar.
  - unfold h. by destruct cd, ms, sd, rs, ar.
Qed.

Lemma notification_bytes_length n r :
  len (notification_bytes n r) = 26 + len (items_bytes (items n)).
Proof. unfold notification_bytes. rewrite !length_app. simpl length. lia. Qed.

(** C38: An alarm notification is understood as the device meant it.  The bytes
    of any well-formed notification, with every kind of item (only the last one
    open-ended), parse back to it, however many padding bytes an Ethernet frame
    carries behind it and whatever the reserved specifier bit. *)
Theorem alarm_notification_roundtrip n reserved pad :
  notification_ok n ->
  parse_alarm_notification (notification_bytes n reserved ++ pad) = Ok n.
Proof.
  intros (Hbt & Hat & Hap & Hsl & Hss & Hmo & Hsu & Hsq & Hits & Hraw & Hlen).
  destruct (specifier_bits _ Hsq (channel_diagnosis n) (manufacturer_specific n)
    (submodule_diagnosis_state n) reserved (ar_diagnosis_state n)) as (S0 & S1 & S2 & S3 & S4 & S5).
  fold (specifier n reserved) in S0, S1, S2, S3, S4, S5.
  pose proof (notification_bytes_length n reserved) as HL.
  assert (Hbl : u16_ok (22 + len (items_bytes (items n)))) by (unfold u16_ok; lia).
  assert (Hcut : (if (6 + ALARM_BODY_LEN <=? 4 + (22 + len (items_bytes (items n)))) &&
       (4 + (22 + len (items_bytes (items n))) <? len (notification_bytes n reserved ++ pad))
     then slice (notification_bytes n reserved ++ pad) 0 (4 + (22 + len (items_bytes (items n))))
     else Ok (notification_bytes n reserved ++ pad)) = Ok (notification_bytes n reserved)).
  { unfold ALARM_BODY_LEN. rewrite length_app.
    destruct (_ && _) eqn:E; [rewrite slice_prefix by lia; done|].
    assert (pad = []) as -> by (destruct pad; [done|simpl in E; lia]). by rewrite app_nil_r. }
  unfold parse_alarm_notification.
  replace (len (notification_bytes n reserved ++ pad) <? 6 + ALARM_BODY_LEN) with false
    by (symmetry; apply Z.ltb_ge; rewrite length_app; unfold ALARM_BODY_LEN; lia).
  set (spec := specifier n reserved) in *. set (I := items_bytes (items n)) in *.
  assert (R : rd_be16 (notification_bytes n reserved ++ pad) 0 = Ok (block_type n) /\
              idx (notification_bytes n reserved ++ pad) 4 = Ok (fst (block_version n)) /\
              idx (notification_bytes n reserved ++ pad) 5 = Ok (snd (block_version n)) /\
              rd_be16 (notification_bytes n reserved ++ pad) 2 = Ok (22 + len I)).
  { unfold notification_bytes. fold I. rewrite <- !app_assoc. wire. split_and!; lit_read. }
  destruct R as (-> & -> & -> & ->). cbn [bind]. rewrite Hcut. cbn [bind].
  unfold notification_bytes. fold spec. fold I. wire. do 7 lit_step.
  change (6 + ALARM_BODY_LEN) with 26. lit_step. unfold I. rewrite parse_items_ok by done. cbn [bind].
  fold I. rewrite S1, S2, S3, S4, S5, <- Hraw. destruct n as [? [] ]. done.
Qed.

Definition demo_notification : AlarmNotification :=
  {| block_type := 1; block_version := (1, 0); alarm_type := 1; api := 0; slot_number := 2;
     subslot_number := 3; module_ident_number := 4; submodule_ident_number := 5;
     alarm_sequence_number := 6; channel_diagnosis := true; manufacturer_specific := false;
     submodule_diagnosis_state := true; ar_diagnosis_state := true;
     items := [Rs {| rs_user_structure_id := 0x8300; rs_alarm_info := 9 |};
               Generic 0x0010 [1; 2; 3]];
     raw_payload := [0x83; 0; 0; 9; 0; 0x10; 1; 2; 3] |}.

Lemma alarm_notification_roundtrip_witness :
  notification_ok demo_notification /\
  parse_alarm_notification (notification_bytes demo_notification true ++ rep 20 0) = Ok demo_notification.
Proof.
  assert (H : notification_ok demo_notification).
  { unfold notification_ok, u16_ok, u32_ok. simpl. unfold u16_ok. split_and!; try lia; try done. }
  split; [exact H|]. exact (alarm_notification_roundtrip demo_notification true (rep 20 0) H).
Defined.

(** ** Totality *)

Lemma parse_alarm_item_wp d o E :
  0 <= o -> (forall e, E e) -> wp (parse_alarm_item d o) (fun r => o + 2 <= snd r) E.
Proof.
  intros Ho HE. unfold parse_alarm_item, parse_diagnosis_item, parse_maintenance_item,
    parse_upload_retrieval_item, parse_rs_alarm_item, parse_pe_alarm_item, parse_pral_alarm_item.
  destruct (len d <? o + 2) eqn:H0; [apply HE|]. wp_step. apply wp_rd_be16; [lia|lia|]. intros usi _.
  destruct (is_diagnosis_usi usi).
  { destruct (len d <? o + 2 + 6) eqn:K1; [apply HE|]. do 6 wp_step.
    apply wp_bind. destruct ((usi =? _) || _).
    - destruct (len d <? o + 2 + 6 + 6) eqn:K2; [apply HE|]. wp_auto; cbn [snd]; try lia; apply HE.
    - wp_auto; cbn [snd]; try lia; apply HE. }
  repeat (lazymatch goal with |- wp (if ?b then _ else _) _ _ => destruct b eqn:? end);
    try apply HE; wp_auto; cbn [snd]; lia.
Qed.

Lemma parse_alarm_items_total p : total (parse_alarm_items p) (fun its => 2 * len its <= len p + 1).
Proof.
  unfold parse_alarm_items, total.
  apply wp_loop with
    (I := fun s : list AlarmItem * Z => 0 <= snd s /\ 2 * len (fst s) <= snd s /\ 2 * len (fst s) <= len p + 1)
    (m := fun s : list AlarmItem * Z => Z.to_nat (len p - snd s)).
  - intros [its o] (H1 & H2 & H3). cbn [fst snd] in *. unfold alarm_items_body.
    destruct (o <? len p) eqn:Ho; [|by cbn].
    pose proof (parse_alarm_item_wp p o (fun _ => True) H1 (fun _ => I)) as W.
    destruct (parse_alarm_item p o) as [[it nx]|e| |]; cbn in *; try done.
    rewrite length_app. simpl. lia.
  - cbn. lia.
  - cbn. lia.
Qed.

Lemma parse_alarm_notification_wp d :
  wp (parse_alarm_notification d) (fun n => 2 * len (items n) <= len (raw_payload n) + 1)
     (fun _ => True).
Proof.
  unfold parse_alarm_notification, ALARM_BODY_LEN.
  destruct (len d <? 6 + 20) eqn:H0; [done|]. do 8 wp_step.
  apply wp_bind. eapply (wp_mono _ (fun d' => 26 <= len d') _ (fun _ => True)); [| |done].
  { wp_auto; lia. }
  intros d' Hd'. wp_auto. eapply wp_mono; [apply parse_alarm_items_total| |done].
  intros its Hits. exact Hits.
Qed.

(** Both alarm parsers are total on arbitrary bytes: [parse_alarm_notification]
    yields a notification or an error, never an out-of-range read and never an
    endless item loop, with at most one item per two payload bytes; the scan for
    the AlarmCRBlockRes always ends. *)
Theorem alarm_parsers_total d :
  wp (parse_alarm_notification d) (fun n => 2 * len (items n) <= len (raw_payload n) + 1)
     (fun _ => True) /\
  (bytes_ok d -> total (parse_alarm_cr_res d) (fun _ => True)).
Proof.
  split; [apply parse_alarm_notification_wp|].
  intros Hd. unfold parse_alarm_cr_res, total.
    apply wp_loop with (I := fun o => 0 <= o) (m := fun o => Z.to_nat (len d - o)); [|lia|lia].
    intros o Ho. unfold alarm_cr_body. destruct (o + 6 <=? len d) eqn:H1; [|done].
    do 2 wp_step. wp_step. apply wp_rd_be16; [lia|lia|]. intros bl Hbl. specialize (Hbl Hd).
    unfold u16_ok in Hbl. destruct ((_ =? _) && (o + 12 <=? len d)) eqn:H2; wp_auto; lia.
Qed.

Example alarm_parsers_total_witness :
  total (parse_alarm_cr_res [0x81; 0x03; 0; 8; 1; 0; 0; 1; 0; 9; 0; 200]) (fun _ => True).
Proof.
  apply (proj2 (alarm_parsers_total _)). repeat constructor; unfold byte_ok; lia.
Defined.
