(* ===== verification/AlarmListener.v ===== *)
(** * Alarm transport ([src/src/alarm_listener.rs])

    RTA headers and frames, the sequence bookkeeping, the per-priority send
    window and the receive loop.  The socket is outside: frames sent are
    outputs, what a receive returned is an argument; instants are nanoseconds. *)

From S2P Require Import Prelude Fmt Util Alarms.

#[local] Open Scope string_scope.
#[local] Open Scope list_scope.
#[local] Open Scope Z_scope.

Definition FRAME_ID_ALARM_HIGH : Z := 0xFC01.
Definition FRAME_ID_ALARM_LOW : Z := 0xFE01.
Definition ETHERTYPE_PROFINET : Z := 0x8892.
Definition ALARM_UDP_PORT : Z := 34964.
Definition ADD_FLAGS_WINDOW_1 : Z := 0x01.
Definition ADD_FLAGS_TACK : Z := 0x10.
Definition SEQ_NUM_INIT : Z := 0xFFFF.
Definition SEQ_NUM_INIT_O : Z := 0xFFFE.
Definition SEQ_NUM_MASK : Z := 0x7FFF.
Definition VLAN_TAG_ALARM_HIGH : list Z := [0x81; 0x00; 0xC0; 0x00].
Definition VLAN_TAG_ALARM_LOW : list Z := [0x81; 0x00; 0xA0; 0x00].

(** ** Headers *)

Record RtaHeader := {
  alarm_dst_endpoint : Z;
  alarm_src_endpoint : Z;
  pdu_type : Z;
  add_flags : Z;
  send_seq_num : Z;
  ack_seq_num : Z;
  var_part_len : Z;
}.

Definition SIZE : Z := 12.
Definition RTA_TYPE_DATA : Z := 0x01.
Definition RTA_TYPE_NACK : Z := 0x02.
Definition RTA_TYPE_ACK : Z := 0x03.
Definition RTA_TYPE_ERR : Z := 0x04.
Definition VERSION_1 : Z := 0x01.
Definition VERSION_2 : Z := 0x02.

Definition kind (h : RtaHeader) : Z := Z.land (pdu_type h) 0x0F.
Definition version (h : RtaHeader) : Z := Z.land (Z.shiftr (pdu_type h) 4) 0x0F.
Definition encode_pdu_type (version kind : Z) : Z :=
  Z.lor (as_u8 (Z.shiftl (Z.land version 0x0F) 4)) (Z.land kind 0x0F).

Definition rta_from_bytes (d : list Z) : outcome RtaHeader :=
  if len d <? SIZE then Err "RTA header too short"
  else
    let? de := rd_be16 d 0 in
    let? se := rd_be16 d 2 in
    let? pt := idx d 4 in
    let? af := idx d 5 in
    let? ss := rd_be16 d 6 in
    let? as_ := rd_be16 d 8 in
    let? vl := rd_be16 d 10 in
    Ok {| alarm_dst_endpoint := de; alarm_src_endpoint := se; pdu_type := pt; add_flags := af;
          send_seq_num := ss; ack_seq_num := as_; var_part_len := vl |}.

Definition rta_to_bytes (h : RtaHeader) : list Z :=
  be16_bytes (alarm_dst_endpoint h) ++ be16_bytes (alarm_src_endpoint h) ++ [pdu_type h]
  ++ [add_flags h] ++ be16_bytes (send_seq_num h) ++ be16_bytes (ack_seq_num h)
  ++ be16_bytes (var_part_len h).

Record AlarmEndpoint := {
  interface : string;
  controller_ref : Z;
  device_ref : Z;
  device_mac : list Z;
  transport : Z;
  rta_timeout_factor : Z;
  rta_retries : Z;
}.

(** ** Receiving a frame *)

Definition check_layer2_frame (d device_mac : list Z) : outcome (option (bool * list Z)) :=
  if len d <? 14 then Ok None
  else
    let? mac := slice d 6 12 in
    if negb (bool_decide (mac = device_mac)) then Ok None
    else
      let? end_ := skip_vlan_tags d in
      let tag := end_ - 12 in
      if len d <? 16 + tag then Ok None
      else
        let? ethertype := rd_be16 d (12 + tag) in
        if negb (ethertype =? ETHERTYPE_PROFINET) then Ok None
        else
          let? frame_id := rd_be16 d (14 + tag) in
          if frame_id =? FRAME_ID_ALARM_HIGH then
            let? p := slice_from d (16 + tag) in Ok (Some (true, p))
          else if frame_id =? FRAME_ID_ALARM_LOW then
            let? p := slice_from d (16 + tag) in Ok (Some (false, p))
          else Ok None.

Definition process_layer2_alarm (p : list Z) (controller_ref : Z)
    : outcome (option (option RtaHeader * AlarmNotification)) :=
  if SIZE <=? len p then
    let? rta := rta_from_bytes p in
    if negb (alarm_dst_endpoint rta =? controller_ref) then Ok None
    else if negb (version rta =? VERSION_1) then Ok None
    else if negb (kind rta =? RTA_TYPE_DATA) then Ok None
    else
      let? alarm_data := slice_from p SIZE in
      let? alarm := parse_alarm_notification alarm_data in
      Ok (Some (Some rta, alarm))
  else
    let? alarm := parse_alarm_notification p in Ok (Some (None, alarm)).

(** ** Building frames *)

Definition ack_specifier (a : AlarmNotification) : Z :=
  Z.lor (Z.lor (Z.lor (Z.lor (Z.land (alarm_sequence_number a) 0x07FF)
    (if channel_diagnosis a then 0x0800 else 0))
    (if manufacturer_specific a then 0x1000 else 0))
    (if submodule_diagnosis_state a then 0x2000 else 0))
    (if ar_diagnosis_state a then 0x8000 else 0).

Definition build_alarm_ack (a : AlarmNotification) : list Z :=
  let block_type := if is_high_priority a then 0x8001 else 0x8002 in
  be16_bytes block_type ++ be16_bytes 18 ++ [0x01] ++ [0x00] ++ be16_bytes (alarm_type a)
  ++ be32_bytes (api a) ++ be16_bytes (slot_number a) ++ be16_bytes (subslot_number a)
  ++ be16_bytes (ack_specifier a) ++ be32_bytes 0.

Record RtaPdu := {
  p_kind : Z;
  p_add_flags : Z;
  p_send_seq_num : Z;
  p_ack_seq_num : Z;
  var_part : list Z;
  p_high_priority : bool;
}.

Definition build_rta_frame (ep : AlarmEndpoint) (controller_mac : list Z) (p : RtaPdu) : list Z :=
  let rta := {| alarm_dst_endpoint := device_ref ep; alarm_src_endpoint := controller_ref ep;
                pdu_type := encode_pdu_type VERSION_1 (p_kind p); add_flags := p_add_flags p;
                send_seq_num := p_send_seq_num p; ack_seq_num := p_ack_seq_num p;
                var_part_len := as_u16 (len (var_part p)) |} in
  let '(frame_id, vlan_tag) :=
    if p_high_priority p then (FRAME_ID_ALARM_HIGH, VLAN_TAG_ALARM_HIGH)
    else (FRAME_ID_ALARM_LOW, VLAN_TAG_ALARM_LOW) in
  device_mac ep ++ controller_mac ++ vlan_tag ++ be16_bytes ETHERTYPE_PROFINET
  ++ be16_bytes frame_id ++ rta_to_bytes rta ++ var_part p.

Definition build_layer2_ack_frame (ep : AlarmEndpoint) (mac : list Z) (send_seq ack_seq : Z)
    (ack_data : list Z) (high : bool) : list Z :=
  build_rta_frame ep mac
    {| p_kind := RTA_TYPE_DATA; p_add_flags := Z.lor ADD_FLAGS_WINDOW_1 ADD_FLAGS_TACK;
       p_send_seq_num := send_seq; p_ack_seq_num := ack_seq; var_part := ack_data;
       p_high_priority := high |}.

Definition build_rta_control_frame (ep : AlarmEndpoint) (mac : list Z) (kind send_seq ack_seq : Z)
    (high : bool) : list Z :=
  build_rta_frame ep mac
    {| p_kind := kind; p_add_flags := ADD_FLAGS_WINDOW_1; p_send_seq_num := send_seq;
       p_ack_seq_num := ack_seq; var_part := []; p_high_priority := high |}.

Definition build_transport_ack_frame (ep : AlarmEndpoint) (mac : list Z) (send_seq ack_seq : Z)
    (high : bool) : list Z :=
  build_rta_control_frame ep mac RTA_TYPE_ACK send_seq ack_seq high.

Definition build_nack_frame (ep : AlarmEndpoint) (mac : list Z) (send_seq ack_seq : Z)
    (high : bool) : list Z :=
  build_rta_control_frame ep mac RTA_TYPE_NACK send_seq ack_seq high.

(** ** Sequence bookkeeping *)

Inductive RtaAction :=
| Ignore | OurDataAcked | DeviceNack | DeviceError | ReAck | SendNack | Accept.

#[global] Instance RtaAction_eq_dec : EqDecision RtaAction.
Proof. solve_decision. Defined.

Record RtaSequencer := {
  sq_send : Z;
  sq_send_o : Z;
  sq_exp : Z;
  sq_exp_o : Z;
}.

Definition sequencer_new : RtaSequencer :=
  {| sq_send := SEQ_NUM_INIT; sq_send_o := SEQ_NUM_INIT_O; sq_exp := SEQ_NUM_INIT;
     sq_exp_o := SEQ_NUM_INIT_O |}.

Definition ack_seq_pair (s : RtaSequencer) : Z * Z := (sq_send_o s, sq_exp_o s).
Definition data_seq_pair (s : RtaSequencer) : Z * Z := (sq_send s, sq_exp_o s).

Definition next_seq (n : Z) : Z := Z.land (wrap_add16 n 1) SEQ_NUM_MASK.

Definition advance_send (s : RtaSequencer) : RtaSequencer :=
  {| sq_send := next_seq (sq_send s); sq_send_o := sq_send s; sq_exp := sq_exp s;
     sq_exp_o := sq_exp_o s |}.

Definition on_pdu (s : RtaSequencer) (h : RtaHeader) : RtaSequencer * RtaAction :=
  if negb (version h =? VERSION_1) then (s, Ignore)
  else if kind h =? RTA_TYPE_ACK then
    if ack_seq_num h =? sq_send s then (advance_send s, OurDataAcked) else (s, Ignore)
  else if kind h =? RTA_TYPE_NACK then (s, DeviceNack)
  else if kind h =? RTA_TYPE_ERR then (s, DeviceError)
  else if kind h =? RTA_TYPE_DATA then
    if Z.land (add_flags h) ADD_FLAGS_TACK =? 0 then (s, Ignore)
    else if send_seq_num h =? sq_exp_o s then (s, ReAck)
    else if negb (send_seq_num h =? sq_exp s) then (s, SendNack)
    else
      let s := {| sq_send := sq_send s; sq_send_o := sq_send_o s; sq_exp := next_seq (sq_exp s);
                  sq_exp_o := sq_exp s |} in
      ((if ack_seq_num h =? sq_send s then advance_send s else s), Accept)
  else (s, Ignore).

(** ** The send window of one priority *)

Record AlarmChannel := {
  seq : RtaSequencer;
  pending : option (list Z * Z * Z);
  queued : list (list Z);
  high_priority : bool;
}.

Definition channel_new (high : bool) : AlarmChannel :=
  {| seq := sequencer_new; pending := None; queued := []; high_priority := high |}.

Definition with_pending (c : AlarmChannel) (p : option (list Z * Z * Z)) : AlarmChannel :=
  {| seq := seq c; pending := p; queued := queued c; high_priority := high_priority c |}.

(** The channel afterwards and the frames it sent. *)
Definition service (ep : AlarmEndpoint) (mac : list Z) (retransmit_after now : Z) (c : AlarmChannel)
    : AlarmChannel * list (list Z) :=
  let '(c, sent) :=
    match pending c with
    | Some (frame, due, retries_left) =>
        if due <=? now then
          if 0 <? retries_left then
            (with_pending c (Some (frame, now + retransmit_after, retries_left - 1)), [frame])
          else (with_pending c None, [])
        else (c, [])
    | None => (c, [])
    end in
  match pending c with
  | Some _ => (c, sent)
  | None =>
      match queued c with
      | [] => (c, sent)
      | ack_data :: rest =>
          let '(send_seq, ack_seq) := data_seq_pair (seq c) in
          let frame := build_layer2_ack_frame ep mac send_seq ack_seq ack_data (high_priority c) in
          ({| seq := seq c; pending := Some (frame, now + retransmit_after, rta_retries ep);
              queued := rest; high_priority := high_priority c |}, sent ++ [frame])
      end
  end.

Definition next_due (c : AlarmChannel) : option Z := (fun p => snd (fst p)) <$> pending c.

(** ** The listener *)

Record Channels := { low : AlarmChannel; high_ch : AlarmChannel }.

Definition channel (cs : Channels) (high : bool) : AlarmChannel := if high then high_ch cs else low cs.
Definition set_channel (cs : Channels) (high : bool) (c : AlarmChannel) : Channels :=
  if high then {| low := low cs; high_ch := c |} else {| low := c; high_ch := high_ch cs |}.

Inductive Output := SendFrame (f : list Z) | Deliver (a : AlarmNotification).

(** The body of the loop for a received frame; [now] is the clock when the
    AlarmAck is queued. *)
Definition handle_frame (ep : AlarmEndpoint) (mac : list Z) (retransmit_after now : Z)
    (cs : Channels) (frame : list Z) : outcome (Channels * list Output) :=
  let? checked := check_layer2_frame frame (device_mac ep) in
  match checked with
  | None => Ok (cs, [])
  | Some (is_high, p) =>
      let? header := ok_ (rta_from_bytes p) in
      match header with
      | None => Ok (cs, [])
      | Some rta =>
          if negb (alarm_dst_endpoint rta =? controller_ref ep) then Ok (cs, [])
          else
            let c := channel cs is_high in
            let '(sq, action) := on_pdu (seq c) rta in
            let c := {| seq := sq; pending := pending c; queued := queued c;
                        high_priority := high_priority c |} in
            let cs := set_channel cs is_high c in
            match action with
            | OurDataAcked => Ok (set_channel cs is_high (with_pending c None), [])
            | SendNack =>
                let '(ss, sa) := ack_seq_pair sq in
                Ok (cs, [SendFrame (build_nack_frame ep mac ss sa is_high)])
            | Ignore | DeviceNack | DeviceError => Ok (cs, [])
            | ReAck =>
                let '(ss, sa) := ack_seq_pair sq in
                Ok (cs, [SendFrame (build_transport_ack_frame ep mac ss sa is_high)])
            | Accept =>
                let '(ss, sa) := ack_seq_pair sq in
                let ack := [SendFrame (build_transport_ack_frame ep mac ss sa is_high)] in
                let? alarm := ok_ (process_layer2_alarm p (controller_ref ep)) in
                match alarm with
                | Some (Some (_, alarm)) =>
                    let hp := is_high_priority alarm in
                    let ac := channel cs hp in
                    let ac := {| seq := seq ac; pending := pending ac;
                                 queued := queued ac ++ [build_alarm_ack alarm];
                                 high_priority := high_priority ac |} in
                    let '(ac, sent) := service ep mac retransmit_after now ac in
                    Ok (set_channel cs hp ac, ack ++ (SendFrame <$> sent) ++ [Deliver alarm])
                | _ => Ok (cs, ack)
                end
            end
      end
  end.

Inductive RecvOutcome := Received (f : list Z) | ReceivedNothing | ReceiveError.

(** How long the receive may block: a second, but not past a deadline. *)
Definition recv_wait (cs : Channels) (now : Z) : Z :=
  let w := foldl (fun w due => Z.min w (sat_sub due now)) 1000000000
             (omap id [next_due (low cs); next_due (high_ch cs)]) in
  Z.max w 1000000.

(** One pass of the thread; [None] ends it. *)
Definition listen_pass (ep : AlarmEndpoint) (mac : list Z) (retransmit_after now now' : Z)
    (r : RecvOutcome) (cs : Channels) : outcome (option Channels * list Output) :=
  let '(l, s1) := service ep mac retransmit_after now (low cs) in
  let '(h, s2) := service ep mac retransmit_after now (high_ch cs) in
  let cs := {| low := l; high_ch := h |} in
  let pre := SendFrame <$> (s1 ++ s2) in
  match r with
  | ReceiveError => Ok (None, pre)
  | ReceivedNothing => Ok (Some cs, pre)
  | Received f =>
      let? res := handle_frame ep mac retransmit_after now' cs f in
      Ok (Some (fst res), pre ++ snd res)
  end.

(** The handle: its run flag is only cleared by [stop]; callbacks by id. *)
Record AlarmListener := {
  endpoint : AlarmEndpoint;
  controller_mac : list Z;
  running : bool;
  callbacks : list Z;
  next_callback_id : Z;
  thread : option (option Channels);
}.

Definition listener_new (ep : AlarmEndpoint) (mac : option (list Z)) : AlarmListener :=
  {| endpoint := ep; controller_mac := default (rep 6 0) mac; running := false; callbacks := [];
     next_callback_id := 0; thread := None |}.

Definition add_callback (l : AlarmListener) : AlarmListener * Z :=
  let id := next_callback_id l in
  ({| endpoint := endpoint l; controller_mac := controller_mac l; running := running l;
      callbacks := callbacks l ++ [id]; next_callback_id := id + 1; thread := thread l |}, id).

Definition remove_callback (l : AlarmListener) (id : Z) : AlarmListener :=
  {| endpoint := endpoint l; controller_mac := controller_mac l; running := running l;
     callbacks := filter (fun c => c <> id) (callbacks l);
     next_callback_id := next_callback_id l; thread := thread l |}.

Definition callback_count (l : AlarmListener) : Z := len (callbacks l).
Definition is_running (l : AlarmListener) : bool := running l.

Definition with_thread (l : AlarmListener) (r : bool) (t : option (option Channels)) : AlarmListener :=
  {| endpoint := endpoint l; controller_mac := controller_mac l; running := r;
     callbacks := callbacks l; next_callback_id := next_callback_id l; thread := t |}.

(** [open_] is the error of [RawSocket::open]. *)
Definition listener_start (l : AlarmListener) (open_ : option string) : outcome AlarmListener :=
  if running l then Ok l
  else if negb (transport (endpoint l) =? 0) then
    Err "only Layer-2 (transport 0) alarm reception is supported"
  else
    match open_ with
    | Some e => Err e
    | None => Ok (with_thread l true (Some (Some {| low := channel_new false; high_ch := channel_new true |})))
    end.

Definition retransmit_after (ep : AlarmEndpoint) : Z := 100 * Z.max (rta_timeout_factor ep) 1 * 1000000.

(** A pass of the listener's thread while it lives. *)
Definition thread_pass (l : AlarmListener) (now now' : Z) (r : RecvOutcome)
    : outcome (AlarmListener * list Output) :=
  match thread l with
  | Some (Some cs) =>
      if running l then
        let? res := listen_pass (endpoint l) (controller_mac l) (retransmit_after (endpoint l)) now now' r cs in
        Ok (with_thread l (running l) (Some (fst res)), snd res)
      else Ok (with_thread l (running l) (Some None), [])
  | _ => Ok (l, [])
  end.

Definition listener_stop (l : AlarmListener) : AlarmListener :=
  if negb (running l) then l else with_thread l false None.

(** ** Frames: lemmas *)

Definition header_ok (h : RtaHeader) : Prop :=
  u16_ok (alarm_dst_endpoint h) /\ u16_ok (alarm_src_endpoint h) /\ byte_ok (pdu_type h) /\
  byte_ok (add_flags h) /\ u16_ok (send_seq_num h) /\ u16_ok (ack_seq_num h) /\ u16_ok (var_part_len h).

Lemma rta_roundtrip h rest : header_ok h -> rta_from_bytes (rta_to_bytes h ++ rest) = Ok h.
Proof.
  intros (H1 & H2 & H3 & H4 & H5 & H6 & H7). unfold rta_from_bytes, rta_to_bytes, SIZE.
  rewrite <- !app_assoc. unfold be16_bytes. simpl app. len_ok. do 7 lit_step. by destruct h.
Qed.

Lemma rta_from_bytes_safe d : safe (rta_from_bytes d).
Proof. unfold rta_from_bytes, SIZE. wp_auto; auto. Qed.

Lemma check_layer2_total d mac :
  total (check_layer2_frame d mac) (fun _ => True).
Proof.
  unfold check_layer2_frame, total. destruct (len d <? 14) eqn:H0; [done|].
  wp_step. apply wp_slice; [lia|lia|]. intros m _ _. destruct (negb _); [done|].
  wp_step. apply wp_skip_vlan. intros o (Ho & _). cbv zeta.
  destruct (len d <? 16 + (o - 12)) eqn:H1; [done|]. wp_auto; auto.
Qed.

Lemma process_layer2_safe p r : safe (process_layer2_alarm p r).
Proof.
  assert (S : forall d, safe (parse_alarm_notification d)) by (intros d; eapply wp_safe, parse_alarm_notification_wp).
  unfold process_layer2_alarm, safe, SIZE. destruct (12 <=? len p) eqn:H0.
  - wp_step. eapply wp_mono; [apply rta_from_bytes_safe| |done]. intros h _.
    destruct (negb _); [done|]. destruct (negb _); [done|]. destruct (negb _); [done|].
    wp_auto. eapply wp_mono; [apply S| |done]. done.
  - wp_auto. eapply wp_mono; [apply S| |done]. done.
Qed.

Lemma encode_pdu_type_v1 n : 0 <= n < 16 -> encode_pdu_type VERSION_1 n = 16 + n.
Proof.
  intros Hn. destruct n as [|p|p]; [done| |lia]. do 4 (destruct p as [p|p|]; try done); lia.
Qed.

Lemma nibble_parts n :
  0 <= n < 16 -> Z.land (16 + n) 0x0F = n /\ Z.land (Z.shiftr (16 + n) 4) 0x0F = 1.
Proof.
  intros Hn. destruct n as [|p|p]; [done| |lia]. do 4 (destruct p as [p|p|]; try done); lia.
Qed.

(** What the peer gets out of a built frame. *)
Lemma check_built_frame ep mac p :
  length (device_mac ep) = 6%nat -> length mac = 6%nat ->
  exists h, check_layer2_frame (build_rta_frame ep mac p) mac
            = Ok (Some (p_high_priority p, rta_to_bytes h ++ var_part p)) /\
            h = {| alarm_dst_endpoint := device_ref ep; alarm_src_endpoint := controller_ref ep;
                   pdu_type := encode_pdu_type VERSION_1 (p_kind p); add_flags := p_add_flags p;
                   send_seq_num := p_send_seq_num p; ack_seq_num := p_ack_seq_num p;
                   var_part_len := as_u16 (len (var_part p)) |}.
Proof.
  intros Hd Hm. eexists. split; [|done]. set (h := {| alarm_dst_endpoint := _ |}).
  set (fid := if p_high_priority p then FRAME_ID_ALARM_HIGH else FRAME_ID_ALARM_LOW).
  set (pcp := if p_high_priority p then 0xC0 else 0xA0).
  assert (Hf : build_rta_frame ep mac p =
    (device_mac ep ++ mac) ++ 0x81 :: 0 :: pcp :: 0 :: 0x88 :: 0x92 :: fid / 256 mod 256 :: fid mod 256
      :: rta_to_bytes h ++ var_part p).
  { unfold build_rta_frame, fid, pcp. destruct (p_high_priority p); rewrite <- !app_assoc; done. }
  assert (Hpre : len (device_mac ep ++ mac) = 12) by (rewrite length_app; lia).
  unfold check_layer2_frame. rewrite Hf. set (P := device_mac ep ++ mac) in *.
  set (T := rta_to_bytes h ++ var_part p).
  replace (len (P ++ _) <? 14) with false by (symmetry; apply Z.ltb_ge; rewrite length_app; simpl; lia).
  assert (Hmac : slice (P ++ 0x81 :: 0 :: pcp :: 0 :: 0x88 :: 0x92 :: fid / 256 mod 256 :: fid mod 256 :: T) 6 12 = Ok mac).
  { unfold P. rewrite <- app_assoc. apply slice_app_mid; lia. }
  rewrite Hmac. cbn [bind]. rewrite bool_decide_true by done. cbn [negb].
  assert (R : forall c v, rd_be16 (0x81 :: 0 :: pcp :: 0 :: 0x88 :: 0x92 :: fid / 256 mod 256 :: fid mod 256 :: T) c = Ok v ->
     0 <= c -> rd_be16 (P ++ 0x81 :: 0 :: pcp :: 0 :: 0x88 :: 0x92 :: fid / 256 mod 256 :: fid mod 256 :: T) (12 + c) = Ok v).
  { intros c v Hc H0. eapply rd_be16_skip; [|exact H0|exact Hc]. lia. }
  rewrite (skip_vlan_eq _ 16).
  - cbn [bind]. change (16 - 12) with 4.
    replace (len (P ++ _) <? 16 + 4) with false by (symmetry; apply Z.ltb_ge; rewrite length_app; simpl; lia).
    change (12 + 4) with (12 + 4). rewrite (R 4 0x8892) by (lia || lit_read). cbn [bind negb Z.eqb].
    eval_if. change (14 + 4) with (12 + 6). rewrite (R 6 fid).
    + cbn [bind]. assert (Hsl : slice_from (P ++ 0x81 :: 0 :: pcp :: 0 :: 0x88 :: 0x92 :: fid / 256 mod 256 :: fid mod 256 :: T) (16 + 4) = Ok T).
      { eapply (slice_from_skip _ _ _ 8); [lia|lia|]. lit_read. }
      rewrite Hsl. unfold fid. by destruct (p_high_priority p).
    + assert (u16_ok fid) by (unfold fid, u16_ok, FRAME_ID_ALARM_HIGH, FRAME_ID_ALARM_LOW; destruct (p_high_priority p); lia).
      lit_read.
    + lia.
  - split_and!; [lia|done|rewrite length_app; simpl; lia| |].
    + intros o Ho Hmod. assert (o = 12 + 0) as -> by zdiv.
      split; [rewrite length_app; simpl; lia|]. exists 0x8100. by rewrite (R 0 0x8100) by (lia || lit_read).
    + intros (_ & t & Ht & Hp). change 16 with (12 + 4) in Ht. rewrite (R 4 0x8892) in Ht by (lia || lit_read).
      by injection Ht as <-.
Qed.

(** ** Sequence numbers *)

(** The numbers a sender runs through: 0xFFFF, then 0, 1, ... modulo 0x8000. *)
Definition seq_at (n : Z) : Z := if n =? 0 then 0xFFFF else (n - 1) mod 0x8000.

Lemma next_seq_at n : 0 <= n -> next_seq (seq_at n) = seq_at (n + 1).
Proof.
  intros Hn. unfold next_seq, seq_at, wrap_add16, SEQ_NUM_MASK.
  replace (n + 1 =? 0) with false by lia. change 0x7FFF with (Z.ones 15). rewrite Z.land_ones by lia.
  change (2 ^ 15) with 0x8000. destruct (n =? 0) eqn:E.
  - assert (n = 0) as -> by lia. done.
  - replace (n + 1 - 1) with n by lia. zdiv.
Qed.

Fixpoint run_pdus (s : RtaSequencer) (l : list RtaHeader) : RtaSequencer * list (RtaHeader * RtaAction) :=
  match l with
  | [] => (s, [])
  | h :: l =>
      let '(s1, a) := on_pdu s h in
      let '(s2, r) := run_pdus s1 l in (s2, (h, a) :: r)
  end.

Definition accepted (l : list (RtaHeader * RtaAction)) : list Z :=
  omap (fun p => match snd p with Accept => Some (send_seq_num (fst p)) | _ => None end) l.

(** The receive counters after [n] accepted PDUs. *)
Definition received (n : Z) (s : RtaSequencer) : Prop :=
  sq_exp s = seq_at n /\ sq_exp_o s = (if n =? 0 then SEQ_NUM_INIT_O else seq_at (n - 1)).

Lemma on_pdu_received n s h :
  0 <= n -> received n s ->
  match on_pdu s h with
  | (s', Accept) => send_seq_num h = seq_at n /\ received (n + 1) s'
  | (s', _) => received n s'
  end.
Proof.
  intros Hn R. assert (R' : received n (advance_send s)) by exact R. pose proof R as [He Ho]. unfold on_pdu.
  destruct (negb (version h =? VERSION_1)); [done|].
  destruct (kind h =? RTA_TYPE_ACK); [destruct (ack_seq_num h =? sq_send s); done|].
  destruct (kind h =? RTA_TYPE_NACK); [done|]. destruct (kind h =? RTA_TYPE_ERR); [done|].
  destruct (kind h =? RTA_TYPE_DATA); [|done].
  destruct (Z.land (add_flags h) ADD_FLAGS_TACK =? 0); [done|]. destruct (send_seq_num h =? sq_exp_o s); [done|].
  destruct (send_seq_num h =? sq_exp s) eqn:E; [|done]. cbn [negb].
  split; [lia|]. unfold received. replace (n + 1 =? 0) with false by lia.
  replace (n + 1 - 1) with n by lia.
  destruct (ack_seq_num h =? _); cbn [sq_exp sq_exp_o advance_send]; (rewrite He; split; [by apply next_seq_at|done]).
Qed.

Lemma run_pdus_accepted l : forall n s, 0 <= n -> received n s ->
  exists k, accepted (snd (run_pdus s l)) = seq_at <$> seqZ n k /\ 0 <= k /\
            received (n + k) (fst (run_pdus s l)).
Proof.
  induction l as [|h l IH]; intros n s Hn Hs; cbn [run_pdus].
  { exists 0. rewrite Z.add_0_r. done. }
  pose proof (on_pdu_received n s h Hn Hs) as H. destruct (on_pdu s h) as [s1 a].
  assert (Hcase : (a = Accept /\ send_seq_num h = seq_at n /\ received (n + 1) s1) \/ (a <> Accept /\ received n s1)).
  { destruct a; auto. }
  destruct Hcase as [(-> & Hq & Hr)|(Ha & Hr)].
  - destruct (IH (n + 1) s1) as (k & Hk1 & Hk2 & Hk3); [lia|done|].
    destruct (run_pdus s1 l) as [s2 r]. cbn [fst snd] in *. exists (k + 1). split_and!.
    + unfold accepted in *. cbn [omap list_omap fst snd]. rewrite Hk1, Hq.
      rewrite (seqZ_cons n (k + 1)) by lia. cbn. by replace (Z.pred (k + 1)) with k by lia.
    + lia.
    + by replace (n + (k + 1)) with (n + 1 + k) by lia.
  - destruct (IH n s1) as (k & Hk1 & Hk2 & Hk3); [lia|done|].
    destruct (run_pdus s1 l) as [s2 r]. cbn [fst snd] in *. exists k. split_and!; [|done|done].
    unfold accepted in *. cbn [omap list_omap fst snd]. by destruct a.
Qed.


Lemma check_layer2_ok d mac : exists r, check_layer2_frame d mac = Ok r.
Proof. destruct (total_Ok _ _ (check_layer2_total d mac)) as (r & H & _). by exists r. Qed.

Lemma safe_ok {A} (m : outcome A) : safe m -> exists o, ok_ m = Ok o /\ (forall a, o = Some a -> m = Ok a).
Proof.
  intros H. destruct m as [a|e| |]; try by destruct H.
  - exists (Some a). split; [done|]. by intros ? [= ->].
  - by exists None.
Qed.

Lemma set_channel_same cs b c : channel (set_channel cs b c) b = c.
Proof. by destruct b. Qed.

Lemma set_channel_other cs b b' c : b <> b' -> channel (set_channel cs b c) b' = channel cs b'.
Proof. by destruct b, b'. Qed.

Lemma service_seq ep mac ra now c : seq (fst (service ep mac ra now c)) = seq c.
Proof.
  unfold service, with_pending. destruct (pending c) as [[[f due] r]|] eqn:E; [destruct (due <=? now); [destruct (0 <? r)|]|];
    cbn; try rewrite E; cbn; try done; by destruct (queued c).
Qed.

(** ** The send window *)

Section SendWindow.

Context (ep : AlarmEndpoint) (mac : list Z) (ra : Z).
Hypothesis Hmac : length mac = 6%nat.
Hypothesis Hdev : length (device_mac ep) = 6%nat.
Hypothesis Hretries : 0 <= rta_retries ep.

(** What happens to a channel: an AlarmAck is queued, a PDU arrives, the
    loop services it. *)
Inductive channel_event := QueueAck (p : list Z) | ArrivedPdu (h : RtaHeader) | Serviced (now : Z).

Definition channel_step (c : AlarmChannel) (e : channel_event) : AlarmChannel * list (list Z) :=
  match e with
  | QueueAck p =>
      ({| seq := seq c; pending := pending c; queued := queued c ++ [p];
          high_priority := high_priority c |}, [])
  | ArrivedPdu h =>
      let '(s, a) := on_pdu (seq c) h in
      ({| seq := s; pending := (match a with OurDataAcked => None | _ => pending c end);
          queued := queued c; high_priority := high_priority c |}, [])
  | Serviced now => service ep mac ra now c
  end.

Fixpoint channel_run (c : AlarmChannel) (l : list channel_event) : AlarmChannel * list (list Z) :=
  match l with
  | [] => (c, [])
  | e :: l =>
      let '(c1, s1) := channel_step c e in let '(c2, s2) := channel_run c1 l in (c2, s1 ++ s2)
  end.

Definition queued_by (l : list channel_event) : list (list Z) :=
  omap (fun e => match e with QueueAck p => Some p | _ => None end) l.

(** The payload of a frame: what follows Ethernet, tag and RTA headers. *)
Definition frame_payload (f : list Z) : list Z := drop 32 f.

Definition expand (b : list (nat * list Z)) : list (list Z) :=
  mjoin ((fun p => replicate (fst p) (snd p)) <$> b).

Lemma expand_app b1 b2 : expand (b1 ++ b2) = expand b1 ++ expand b2.
Proof. unfold expand. by rewrite fmap_app, join_app. Qed.

Lemma expand_one k p : expand [(k, p)] = replicate k p.
Proof. unfold expand. cbn. by rewrite app_nil_r. Qed.

Lemma ack_frame_payload ss sa p h : frame_payload (build_layer2_ack_frame ep mac ss sa p h) = p.
Proof.
  unfold frame_payload, build_layer2_ack_frame, build_rta_frame. cbn [p_high_priority].
  destruct h; cbn [p_kind p_add_flags p_send_seq_num p_ack_seq_num var_part p_high_priority].
  all: destruct (device_mac ep) as [|? [|? [|? [|? [|? [|? [|]]]]]]]; try done;
       destruct mac as [|? [|? [|? [|? [|? [|? [|]]]]]]]; try done.
Qed.

Definition burst_ok (b : nat * list Z) : Prop := (1 <= fst b)%nat /\ Z.of_nat (fst b) <= 1 + rta_retries ep.

(** The bursts [b] sent so far, one per AlarmAck that left the queue. *)
Definition window_inv (c : AlarmChannel) (asked sent : list (list Z)) : Prop :=
  exists b, asked = (snd <$> b) ++ queued c /\ frame_payload <$> sent = expand b /\
    Forall burst_ok b /\
    match pending c with
    | Some (f, _, r) => exists b' k, b = b' ++ [(k, frame_payload f)] /\ 0 <= r /\
                          Z.of_nat k + r <= 1 + rta_retries ep
    | None => True
    end.

Lemma window_send c asked sent now :
  pending c = None -> window_inv c asked sent ->
  window_inv (fst (service ep mac ra now c)) asked (sent ++ snd (service ep mac ra now c)).
Proof.
  intros Hp (b & Ha & Hs & Hb & _). unfold service. rewrite Hp. cbn. rewrite Hp.
  destruct (queued c) as [|q rest] eqn:Eq; cbn.
  - exists b. rewrite app_nil_r, Hp, Eq. done.
  - exists (b ++ [(1%nat, q)]). cbn [queued pending]. split_and!.
    + by rewrite Ha, fmap_app, <- app_assoc.
    + rewrite fmap_app, Hs, expand_app. cbn [fmap list_fmap]. by rewrite ack_frame_payload, expand_one.
    + apply Forall_app; split; [done|]. constructor; [|done]. split; cbn; lia.
    + exists b, 1%nat. rewrite ack_frame_payload. split_and!; [done|lia|lia].
Qed.

Lemma window_service c asked sent now :
  window_inv c asked sent ->
  window_inv (fst (service ep mac ra now c)) asked (sent ++ snd (service ep mac ra now c)).
Proof.
  intros H. destruct (pending c) as [[[f due] r]|] eqn:Hp; [|by apply window_send].
  destruct (due <=? now) eqn:Hd; [destruct (0 <? r) eqn:Hr|].
  - unfold service. rewrite Hp, Hd, Hr. cbn. destruct H as (b & Ha & Hs & Hb & Hw). rewrite Hp in Hw.
    destruct Hw as (b' & k & -> & Hr0 & Hk). apply Forall_app in Hb as [Hb Hbk].
    inversion Hbk as [|? ? [Hk1 Hk2] _]; subst. cbn in Hk1, Hk2.
    exists (b' ++ [(S k, frame_payload f)]). cbn [queued pending with_pending]. split_and!.
    + by rewrite !fmap_app.
    + rewrite fmap_app, Hs, !expand_app, !expand_one, <- app_assoc. cbn [fmap list_fmap].
      f_equal. by rewrite <- replicate_cons_app.
    + apply Forall_app; split; [done|]. constructor; [|done]. split; cbn [fst]; lia.
    + exists b', (S k). split_and!; [done|lia|lia].
  - assert (Hs : service ep mac ra now c = service ep mac ra now (with_pending c None)).
    { unfold service. rewrite Hp, Hd, Hr. done. }
    rewrite Hs. apply window_send; [done|]. destruct H as (b & Ha & Hse & Hb & _). by exists b.
  - unfold service. rewrite Hp, Hd. cbn. rewrite Hp. cbn. by rewrite app_nil_r.
Qed.

Lemma window_step c asked sent e :
  window_inv c asked sent ->
  window_inv (fst (channel_step c e)) (asked ++ queued_by [e]) (sent ++ snd (channel_step c e)).
Proof.
  intros H. destruct e as [p|h|now]; cbn.
  - destruct H as (b & Ha & Hs & Hb & Hw). exists b. rewrite app_nil_r. cbn [queued pending].
    split_and!; [|done..]. by rewrite Ha, <- app_assoc.
  - destruct (on_pdu (seq c) h) as [s a]. cbn. rewrite !app_nil_r.
    destruct H as (b & Ha & Hs & Hb & Hw). exists b. cbn [queued pending]. split_and!; [done..|].
    by destruct a.
  - rewrite app_nil_r. by apply window_service.
Qed.

Lemma window_run l : forall c asked sent,
  window_inv c asked sent ->
  window_inv (fst (channel_run c l)) (asked ++ queued_by l) (sent ++ snd (channel_run c l)).
Proof.
  induction l as [|e l IH]; intros c asked sent H; cbn [channel_run].
  { cbn. by rewrite !app_nil_r. }
  apply (window_step _ _ _ e) in H. destruct (channel_step c e) as [c1 s1]. cbn [fst snd] in *.
  apply IH in H. destruct (channel_run c1 l) as [c2 s2]. cbn [fst snd] in *.
  replace (queued_by (e :: l)) with (queued_by [e] ++ queued_by l); [by rewrite !app_assoc|].
  cbn. by destruct e.
Qed.
End SendWindow.

(** ** Properties *)

(** A frame built for any PDU passes the peer's frame filter on the
    priority it was sent with, and the bytes after the frame ID parse back to
    the addressed header (low nibble the type, high nibble version 1), the
    variable part following it unchanged. *)
Theorem rta_frame_roundtrip ep mac p :
  length (device_mac ep) = 6%nat -> length mac = 6%nat ->
  u16_ok (device_ref ep) -> u16_ok (controller_ref ep) -> byte_ok (p_add_flags p) ->
  u16_ok (p_send_seq_num p) -> u16_ok (p_ack_seq_num p) -> 0 <= p_kind p < 16 ->
  len (var_part p) < 0x10000 ->
  exists body h,
    check_layer2_frame (build_rta_frame ep mac p) mac = Ok (Some (p_high_priority p, body)) /\
    rta_from_bytes body = Ok h /\ slice_from body SIZE = Ok (var_part p) /\
    alarm_dst_endpoint h = device_ref ep /\ alarm_src_endpoint h = controller_ref ep /\
    kind h = p_kind p /\ version h = VERSION_1 /\ add_flags h = p_add_flags p /\
    send_seq_num h = p_send_seq_num p /\ ack_seq_num h = p_ack_seq_num p /\
    var_part_len h = len (var_part p).
Proof.
  intros Hd Hm Hdr Hcr Hf Hs Ha Hk Hv.
  destruct (check_built_frame ep mac p Hd Hm) as (h & Hc & Hh).
  assert (Hpt : pdu_type h = 16 + p_kind p) by (rewrite Hh; by apply encode_pdu_type_v1).
  destruct (nibble_parts (p_kind p) Hk) as [Hlow Hhigh].
  assert (Hh' : header_ok h).
  { unfold header_ok. rewrite Hpt, Hh. cbn. unfold u16_ok, byte_ok, as_u16 in *. split_and!; try lia; zdiv. }
  exists (rta_to_bytes h ++ var_part p), h. split_and!; try (by rewrite Hh).
  - done.
  - by apply rta_roundtrip.
  - by apply slice_app_suffix.
  - unfold kind. by rewrite Hpt.
  - unfold version. by rewrite Hpt.
  - rewrite Hh. cbn. unfold as_u16. rewrite Z.mod_small; [done|lia].
Qed.

Definition ep0 : AlarmEndpoint :=
  {| interface := "eth0"; controller_ref := 1; device_ref := 2; device_mac := [2; 0; 0; 0; 0; 9];
     transport := 0; rta_timeout_factor := 1; rta_retries := 3 |}.
Definition mac0 : list Z := [2; 0; 0; 0; 0; 1].
Definition data_header (n a : Z) : RtaHeader :=
  {| alarm_dst_endpoint := 1; alarm_src_endpoint := 2; pdu_type := 0x11; add_flags := 0x11;
     send_seq_num := n; ack_seq_num := a; var_part_len := 0 |}.

Example rta_frame_roundtrip_witness :
  exists body h,
    check_layer2_frame (build_nack_frame ep0 mac0 7 8 true) mac0 = Ok (Some (true, body)) /\
    rta_from_bytes body = Ok h /\ kind h = RTA_TYPE_NACK /\ send_seq_num h = 7.
Proof.
  destruct (rta_frame_roundtrip ep0 mac0
    {| p_kind := RTA_TYPE_NACK; p_add_flags := 1; p_send_seq_num := 7; p_ack_seq_num := 8;
       var_part := []; p_high_priority := true |}) as (b & h & H1 & H2 & _ & _ & _ & H6 & _ & _ & H9 & _);
    try reflexivity; try (split; vm_compute; congruence).
  exists b, h. split; [exact H1|]. split; [exact H2|]. split; [exact H6|exact H9].
Defined.

(** C20: Whatever PDUs arrive, a fresh channel accepts exactly the sequence
    numbers 0xFFFF, 0, 1, 2, ... (modulo 0x8000), each once and in order; a
    DATA PDU that asks for an acknowledgment is acknowledged again without
    being accepted when it repeats the last accepted number, accepted when it
    is the next one, and refused with a NACK otherwise. *)
Theorem sequencer_exactly_once l h :
  version h = VERSION_1 -> kind h = RTA_TYPE_DATA -> Z.land (add_flags h) ADD_FLAGS_TACK <> 0 ->
  exists n, 0 <= n /\
    accepted (snd (run_pdus sequencer_new l)) = seq_at <$> seqZ 0 n /\
    snd (on_pdu (fst (run_pdus sequencer_new l)) h)
    = if send_seq_num h =? (if n =? 0 then SEQ_NUM_INIT_O else seq_at (n - 1)) then ReAck
      else if send_seq_num h =? seq_at n then Accept else SendNack.
Proof.
  intros Hv Hk Hf. destruct (run_pdus_accepted l 0 sequencer_new) as (n & Ha & Hn & He & Ho); [lia|done|].
  rewrite Z.add_0_l in *. exists n. split_and!; [done..|]. unfold on_pdu. rewrite Hv, Hk. cbn [negb Z.eqb].
  unfold VERSION_1, RTA_TYPE_DATA, RTA_TYPE_ACK, RTA_TYPE_NACK, RTA_TYPE_ERR. cbn [negb Z.eqb Pos.eqb].
  replace (Z.land _ _ =? 0) with false by lia. rewrite He, Ho.
  destruct (send_seq_num h =? _); [done|]. by destruct (send_seq_num h =? seq_at n).
Qed.

Example sequencer_exactly_once_witness :
  let l := [data_header 0xFFFF 0; data_header 0xFFFF 0; data_header 5 0; data_header 0 0] in
  accepted (snd (run_pdus sequencer_new l)) = [0xFFFF; 0] /\
  exists n, accepted (snd (run_pdus sequencer_new l)) = seq_at <$> seqZ 0 n.
Proof.
  split; [reflexivity|].
  destruct (sequencer_exactly_once [data_header 0xFFFF 0; data_header 0xFFFF 0; data_header 5 0; data_header 0 0]
              (data_header 1 0)) as (n & _ & H & _); [reflexivity|reflexivity|discriminate|].
  exists n. exact H.
Defined.



(** ** What the AlarmAck says *)

Lemma idx_front {A} (d r : list A) e i :
  slice d 0 e = Ok r -> 0 <= i < e -> idx r i = idx d i.
Proof.
  intros Hs Hi. pose proof (slice_length _ _ _ _ Hs) as (Hlen & _ & Hle).
  rewrite slice_ok in Hs by lia. injection Hs as Hr.
  unfold idx. replace (i <? len r) with true by lia. replace (i <? len d) with true by lia.
  rewrite <- Hr. cbn [drop Z.to_nat Z.sub]. rewrite drop_0, lookup_take_lt; [done|lia].
Qed.

Lemma rd_be16_front d r e o : slice d 0 e = Ok r -> 0 <= o -> o + 1 < e -> rd_be16 r o = rd_be16 d o.
Proof. intros Hs ? ?. unfold rd_be16. by rewrite !(idx_front d r e) by (done || lia). Qed.

Lemma rd_be32_front d r e o : slice d 0 e = Ok r -> 0 <= o -> o + 3 < e -> rd_be32 r o = rd_be32 d o.
Proof. intros Hs ? ?. unfold rd_be32. by rewrite !(idx_front d r e) by (done || lia). Qed.

Ltac bind_inv H :=
  let v := fresh "v" in let E := fresh "E" in apply bind_Ok_inv in H as (v & E & H).

(** The fixed fields of a parsed notification are those of the bytes. *)
Lemma parse_alarm_fields d a :
  parse_alarm_notification d = Ok a ->
  rd_be16 d 0 = Ok (block_type a) /\ rd_be16 d 6 = Ok (alarm_type a) /\ rd_be32 d 8 = Ok (api a) /\
  rd_be16 d 12 = Ok (slot_number a) /\ rd_be16 d 14 = Ok (subslot_number a) /\
  exists spec, rd_be16 d 24 = Ok spec /\ alarm_sequence_number a = Z.land spec 0x07FF /\
    channel_diagnosis a = spec_bit spec 0x0800 /\ manufacturer_specific a = spec_bit spec 0x1000 /\
    submodule_diagnosis_state a = spec_bit spec 0x2000 /\ ar_diagnosis_state a = spec_bit spec 0x8000.
Proof.
  unfold parse_alarm_notification, ALARM_BODY_LEN. destruct (len d <? 6 + 20); [done|]. intros H.
  do 4 bind_inv H. cbv zeta in H. apply bind_Ok_inv in H as (r & Hr & H).
  assert (F : (forall o, 0 <= o -> o <= 24 -> rd_be16 r o = rd_be16 d o) /\ rd_be32 r 8 = rd_be32 d 8).
  { destruct (_ && _) eqn:E'; [|by injection Hr as ->].
    split; [intros o Ho Ho'; apply (rd_be16_front _ _ _ _ Hr); lia|apply (rd_be32_front _ _ _ _ Hr); lia]. }
  destruct F as [F16 F32]. rewrite <- F32, <- (F16 6), <- (F16 12), <- (F16 14), <- (F16 24) by lia.
  do 9 bind_inv H. injection H as <-. cbn. split_and!; try done. by exists v9.
Qed.

Lemma spec_bit_land v i : 0 <= i -> (if spec_bit v (2 ^ i) then 2 ^ i else 0) = Z.land v (2 ^ i).
Proof.
  intros Hi. unfold spec_bit.
  assert (H : Z.land v (2 ^ i) = if Z.testbit v i then 2 ^ i else 0).
  { apply Z.bits_inj'. intros n Hn. rewrite Z.land_spec, Z.pow2_bits_eqb by lia.
    destruct (Z.eqb_spec i n) as [->|Hne].
    - destruct (Z.testbit v n); [by rewrite Z.pow2_bits_true by lia|by rewrite Z.bits_0].
    - rewrite andb_false_r. destruct (Z.testbit v i); [by rewrite Z.pow2_bits_false|by rewrite Z.bits_0]. }
  rewrite H. destruct (Z.testbit v i); [|done].
  destruct (Z.eqb_spec (2 ^ i) 0) as [E|]; [|done]. pose proof (Z.pow_pos_nonneg 2 i). lia.
Qed.

Lemma ack_specifier_land a spec :
  alarm_sequence_number a = Z.land spec 0x07FF ->
  channel_diagnosis a = spec_bit spec 0x0800 -> manufacturer_specific a = spec_bit spec 0x1000 ->
  submodule_diagnosis_state a = spec_bit spec 0x2000 -> ar_diagnosis_state a = spec_bit spec 0x8000 ->
  ack_specifier a = Z.land spec 0xBFFF.
Proof.
  intros H1 H2 H3 H4 H5. unfold ack_specifier. rewrite H1, H2, H3, H4, H5.
  pose proof (spec_bit_land spec 11 ltac:(lia)) as E11. pose proof (spec_bit_land spec 12 ltac:(lia)) as E12.
  pose proof (spec_bit_land spec 13 ltac:(lia)) as E13. pose proof (spec_bit_land spec 15 ltac:(lia)) as E15.
  change (2 ^ 11) with 0x0800 in E11. change (2 ^ 12) with 0x1000 in E12.
  change (2 ^ 13) with 0x2000 in E13. change (2 ^ 15) with 0x8000 in E15. rewrite E11, E12, E13, E15.
  rewrite <- Z.land_assoc, <- !Z.land_lor_distr_r. done.
Qed.

Lemma u16_land_l v m : u16_ok v -> 0 <= m -> u16_ok (Z.land v m).
Proof.
  intros [H1 H2] Hm. pose proof (Z.land_nonneg v m) as Hn. unfold u16_ok. split; [lia|].
  destruct (Z.eq_dec (Z.land v m) 0) as [->|Hz]; [lia|].
  change 65536 with (2 ^ 16). apply Z.log2_lt_pow2; [lia|].
  pose proof (Z.log2_land v m H1 Hm). assert (Z.log2 v < 16 \/ v = 0) as [?| ->].
  { destruct (Z.eq_dec v 0); [by right|left]. apply Z.log2_lt_pow2; lia. }
  - lia.
  - by rewrite Z.land_0_l in Hz.
Qed.

Lemma idx_byte_ok d o v : bytes_ok d -> idx d o = Ok v -> byte_ok v.
Proof.
  intros Hb. unfold idx. destruct (_ && _); [|done]. destruct (d !! _) as [x|] eqn:E; [|done].
  intros [= ->]. eapply Forall_lookup_1 in Hb; [exact Hb|exact E].
Qed.

Lemma rd_be16_range d o v : bytes_ok d -> rd_be16 d o = Ok v -> u16_ok v.
Proof.
  intros Hb (a & Ha & (b & Hb' & [= <-])%bind_Ok_inv)%bind_Ok_inv.
  pose proof (idx_byte_ok _ _ _ Hb Ha). pose proof (idx_byte_ok _ _ _ Hb Hb').
  unfold be16, u16_ok, byte_ok in *. lia.
Qed.

Lemma rd_be32_range d o v : bytes_ok d -> rd_be32 d o = Ok v -> u32_ok v.
Proof.
  intros Hb (a & Ha & (b & Hb' & (c & Hc & (e & He & [= <-])%bind_Ok_inv)%bind_Ok_inv)%bind_Ok_inv)%bind_Ok_inv.
  pose proof (idx_byte_ok _ _ _ Hb Ha). pose proof (idx_byte_ok _ _ _ Hb Hb').
  pose proof (idx_byte_ok _ _ _ Hb Hc). pose proof (idx_byte_ok _ _ _ Hb He).
  unfold be32, u32_ok, byte_ok in *. lia.
Qed.

(** The AlarmAck built for a parsed notification is 22 bytes, echoes the
    notification's alarm type, API, slot and subslot byte for byte and its
    alarm specifier with only the reserved bit 14 cleared, picks the block
    type by the notification's priority and reports status 0. *)
Theorem alarm_ack_echoes d a :
  bytes_ok d -> parse_alarm_notification d = Ok a ->
  len (build_alarm_ack a) = 22 /\
  rd_be16 (build_alarm_ack a) 0 = Ok (if is_high_priority a then 0x8001 else 0x8002) /\
  rd_be16 (build_alarm_ack a) 6 = rd_be16 d 6 /\ rd_be32 (build_alarm_ack a) 8 = rd_be32 d 8 /\
  rd_be16 (build_alarm_ack a) 12 = rd_be16 d 12 /\ rd_be16 (build_alarm_ack a) 14 = rd_be16 d 14 /\
  rd_be16 (build_alarm_ack a) 16 = (let? spec := rd_be16 d 24 in Ok (Z.land spec 0xBFFF)) /\
  rd_be32 (build_alarm_ack a) 18 = Ok 0.
Proof.
  intros Hb H. destruct (parse_alarm_fields _ _ H) as (H0 & H6 & H8 & H12 & H14 & spec & Hs & Q1 & Q2 & Q3 & Q4 & Q5).
  pose proof (rd_be16_range _ _ _ Hb H6). pose proof (rd_be32_range _ _ _ Hb H8).
  pose proof (rd_be16_range _ _ _ Hb H12). pose proof (rd_be16_range _ _ _ Hb H14).
  pose proof (u16_land_l _ 0xBFFF (rd_be16_range _ _ _ Hb Hs)) as Hspec.
  rewrite H6, H8, H12, H14, Hs. cbn [bind].
  unfold build_alarm_ack. rewrite (ack_specifier_land a spec) by done.
  set (bt := if is_high_priority a then 32769 else 32770).
  assert (u16_ok bt) by (unfold bt, u16_ok; destruct (is_high_priority a); lia).
  unfold be16_bytes, be32_bytes. simpl app. split_and!; [done| |..]; try lit_read; try (apply Hspec; lia).
Qed.

Definition notification0 : list Z :=
  [0x00; 0x02; 0x00; 0x16; 0x01; 0x00; 0x00; 0x01; 0; 0; 0; 0; 0; 3; 0; 1; 0; 0; 0; 5; 0; 0; 0; 6;
   0xE8; 0x2A].

Example alarm_ack_echoes_witness :
  exists a, parse_alarm_notification notification0 = Ok a /\
    rd_be16 (build_alarm_ack a) 16 = Ok 0xA82A.
Proof.
  destruct (parse_alarm_notification notification0) as [a| | |] eqn:E; [|discriminate E..].
  exists a. split; [reflexivity|].
  refine (eq_trans (proj1 (proj2 (proj2 (proj2 (proj2 (proj2 (proj2
    (alarm_ack_echoes notification0 a _ E)))))))) _); [|reflexivity].
  apply Forall_forall. intros x Hx. unfold byte_ok. repeat (apply elem_of_cons in Hx as [->|Hx]; [lia|]). inversion Hx.
Defined.

Definition delivered (out : list Output) : list AlarmNotification :=
  omap (fun o => match o with Deliver a => Some a | _ => None end) out.

Lemma delivered_frames l : delivered (SendFrame <$> l) = [].
Proof. induction l; [done|]. exact IHl. Qed.

Lemma delivered_app l1 l2 : delivered (l1 ++ l2) = delivered l1 ++ delivered l2.
Proof. apply omap_app. Qed.

Lemma accept_ack_number s h : snd (on_pdu s h) = Accept -> sq_exp_o (fst (on_pdu s h)) = send_seq_num h.
Proof.
  unfold on_pdu. repeat (destruct (negb (version h =? _)) || destruct (kind h =? _)); try done.
  - by destruct (_ =? _).
  - destruct (_ =? 0); [done|]. destruct (_ =? sq_exp_o s); [done|].
    destruct (send_seq_num h =? sq_exp s) eqn:E; [|done]. cbn [negb]. intros _.
    destruct (ack_seq_num h =? _); cbn; lia.
Qed.

Lemma process_layer2_parsed p rta r o a :
  rta_from_bytes p = Ok rta -> process_layer2_alarm p r = Ok (Some (o, a)) ->
  (let? d := slice_from p SIZE in parse_alarm_notification d) = Ok a.
Proof.
  unfold process_layer2_alarm. intros Hr. pose proof Hr as Hr'. unfold rta_from_bytes in Hr'.
  destruct (Z.ltb_spec (len p) SIZE); [done|]. replace (SIZE <=? len p) with true by lia. rewrite Hr. cbn [bind].
  repeat (destruct (negb _); [done|]). intros (d & -> & (al & Hal & [= <- <-])%bind_Ok_inv)%bind_Ok_inv. exact Hal.
Qed.

(** A channel that has taken in a PDU's header, and one with an AlarmAck queued. *)
Definition after_pdu (c : AlarmChannel) (rta : RtaHeader) : AlarmChannel :=
  {| seq := fst (on_pdu (seq c) rta); pending := pending c; queued := queued c; high_priority := high_priority c |}.
Definition with_ack (c : AlarmChannel) (d : list Z) : AlarmChannel :=
  {| seq := seq c; pending := pending c; queued := queued c ++ [d]; high_priority := high_priority c |}.

(** C30: One pass of the receive loop: handling any received bytes is total.  A
    notification is delivered at most once, only for a frame from the device
    to this controller whose header the channel of the frame's priority newly
    accepted, and it is what the bytes parse to.  Then the transport ACK of
    exactly that sequence number goes out first; the AlarmAck is queued on the
    channel of the priority the alarm block itself names, which may be the
    other one, that channel is serviced at once, and the delivery comes last.
    Without a delivery nothing is queued on either channel.  A channel changes
    only for a frame of its own priority or for an alarm block that names it,
    and its sequence counters only for the former. *)
Theorem handle_frame_spec ep mac ra now cs f :
  total (handle_frame ep mac ra now cs f) (fun r =>
    (forall b, seq (channel (fst r) b) <> seq (channel cs b) ->
       exists p, check_layer2_frame f (device_mac ep) = Ok (Some (b, p))) /\
    match delivered (snd r) with
    | [] =>
        (forall b, queued (channel (fst r) b) = queued (channel cs b)) /\
        (forall b, channel (fst r) b <> channel cs b ->
           exists p, check_layer2_frame f (device_mac ep) = Ok (Some (b, p)))
    | a :: rest => rest = [] /\ exists b p rta,
        check_layer2_frame f (device_mac ep) = Ok (Some (b, p)) /\ rta_from_bytes p = Ok rta /\
        alarm_dst_endpoint rta = controller_ref ep /\
        snd (on_pdu (seq (channel cs b)) rta) = Accept /\
        (let? d := slice_from p SIZE in parse_alarm_notification d) = Ok a /\
        let heard := set_channel cs b (after_pdu (channel cs b) rta) in
        let hp := is_high_priority a in
        let '(c, sent) := service ep mac ra now (with_ack (channel heard hp) (build_alarm_ack a)) in
        fst r = set_channel heard hp c /\
        snd r = SendFrame (build_transport_ack_frame ep mac (sq_send_o (seq (channel heard b))) (send_seq_num rta) b)
                  :: (SendFrame <$> sent) ++ [Deliver a]
    end).
Proof.
  unfold handle_frame. destruct (check_layer2_ok f (device_mac ep)) as (ck & Hck). rewrite Hck. cbn [bind].
  destruct ck as [[b p]|]; [|by split; [intros b []|split; [done|intros b []]]].
  assert (Hb : forall {A} (g : AlarmChannel -> A) cs', g (channel cs' (negb b)) = g (channel cs (negb b)) ->
    forall b', g (channel cs' b') <> g (channel cs b') -> exists p', Ok (Some (b, p)) = Ok (Some (b', p'))).
  { intros A g cs' He b' Hne. destruct (Bool.eqb_spec b b') as [->|Hn]; [by exists p|]. destruct b, b'; done. }
  destruct (safe_ok _ (rta_from_bytes_safe p)) as (o & Ho & Hrta). rewrite Ho. cbn [bind].
  destruct o as [rta|]; [|by split; [intros b' []|split; [done|intros b' []]]]. specialize (Hrta _ eq_refl).
  destruct (negb (_ =? _)) eqn:Hdst; [by split; [intros b' []|split; [done|intros b' []]]|]. cbv zeta.
  pose proof (accept_ack_number (seq (channel cs b)) rta) as Hacc.
  destruct (on_pdu (seq (channel cs b)) rta) as [sq act] eqn:Hon. cbn [fst snd] in Hacc.
  assert (Hq : forall b', queued (channel (set_channel cs b (after_pdu (channel cs b) rta)) b') = queued (channel cs b'))
    by (intros b'; by destruct b, b').
  assert (Hafter : forall c, c = after_pdu (channel cs b) rta ->
    (forall b', seq (channel (set_channel cs b c) b') <> seq (channel cs b') ->
       exists p', Ok (Some (b, p)) = Ok (Some (b', p'))) /\
    (forall b', queued (channel (set_channel cs b c) b') = queued (channel cs b')) /\
    (forall b', channel (set_channel cs b c) b' <> channel cs b' -> exists p', Ok (Some (b, p)) = Ok (Some (b', p')))).
  { intros c ->. split_and!; [apply (Hb _ seq)|exact Hq|apply (Hb _ (fun c => c))]; by rewrite set_channel_other by (by destruct b). }
  assert (Hc : {| seq := sq; pending := pending (channel cs b); queued := queued (channel cs b);
                  high_priority := high_priority (channel cs b) |} = after_pdu (channel cs b) rta)
    by (unfold after_pdu; by rewrite Hon).
  rewrite Hc. destruct act; cbn [ack_seq_pair fst snd]; try exact (Hafter _ eq_refl).
  { split; [|split]; [apply (Hb _ seq)|intros b'; by destruct b, b'|apply (Hb _ (fun c => c))]; by destruct b. }
  specialize (Hacc eq_refl).
  destruct (safe_ok _ (process_layer2_safe p (controller_ref ep))) as (o & Ho2 & Hal). rewrite Ho2. cbn [bind].
  destruct o as [[[o al]|]|]; cbn [ack_seq_pair]; try exact (Hafter _ eq_refl).
  specialize (Hal _ eq_refl). set (heard := set_channel cs b _). set (hp := is_high_priority al).
  change {| seq := _ |} with (with_ack (channel heard hp) (build_alarm_ack al)).
  pose proof (service_seq ep mac ra now (with_ack (channel heard hp) (build_alarm_ack al))) as Hss.
  destruct (service ep mac ra now _) as [ac sent] eqn:Esv. cbn [fst snd] in *. split.
  - apply (Hb _ seq). destruct b, hp; cbn in *; congruence.
  - cbn [fst snd]. rewrite !delivered_app, delivered_frames. cbn [delivered omap app list_omap]. split; [done|]. exists b, p, rta. rewrite Hon.
    split_and!; try done; [lia|by eapply process_layer2_parsed|]. cbv zeta. fold heard hp. rewrite Esv.
    split; [done|]. assert (seq (channel heard b) = sq) as -> by (unfold heard; rewrite <- Hc; by destruct b). by rewrite Hacc.
Qed.

(** ** Where the window slips *)

Fixpoint service_times (ep : AlarmEndpoint) (mac : list Z) (ra : Z) (c : AlarmChannel) (nows : list Z)
    : AlarmChannel * list (list Z) :=
  match nows with
  | [] => (c, [])
  | now :: nows =>
      let '(c1, s1) := service ep mac ra now c in
      let '(c2, s2) := service_times ep mac ra c1 nows in (c2, s1 ++ s2)
  end.

Lemma service_exhaust ep mac ra f : forall k due c,
  pending c = Some (f, due, Z.of_nat k) -> 0 <= ra ->
  exists nows c', service_times ep mac ra c nows = (c', replicate k f) /\
    seq c' = seq c /\ queued c' = queued c /\ high_priority c' = high_priority c /\
    exists due', pending c' = Some (f, due', 0).
Proof.
  induction k as [|k IH]; intros due c Hp Hra.
  - exists [], c. split_and!; try done. by exists due.
  - destruct (IH (due + ra) (with_pending c (Some (f, due + ra, Z.of_nat k))) eq_refl Hra)
      as (nows & c' & Hs & H1 & H2 & H3 & H4).
    exists (due :: nows), c'. split_and!; try done. cbn [service_times].
    unfold service. rewrite Hp, Z.leb_refl. replace (0 <? Z.of_nat (S k)) with true by lia.
    replace (Z.of_nat (S k) - 1) with (Z.of_nat k) by lia. cbn [with_pending pending]. by rewrite Hs.
Qed.

(** Once the retransmissions of an AlarmAck are used up without a
    transport ACK, the next queued AlarmAck goes out with the same sequence
    number: two different AlarmAcks under one number. *)
Theorem give_up_reuses_sequence_number ep mac ra high p1 p2 :
  0 <= ra -> 0 <= rta_retries ep ->
  exists nows c', let '(ss, sa) := data_seq_pair sequencer_new in
    service_times ep mac ra
      {| seq := sequencer_new; pending := None; queued := [p1; p2]; high_priority := high |} nows
    = (c', replicate (Z.to_nat (1 + rta_retries ep)) (build_layer2_ack_frame ep mac ss sa p1 high)
           ++ [build_layer2_ack_frame ep mac ss sa p2 high]).
Proof.
  intros Hra Hr. cbn [data_seq_pair]. set (f := build_layer2_ack_frame _ _ _ _ p1 _).
  set (c1 := {| seq := sequencer_new; pending := Some (f, 0 + ra, Z.of_nat (Z.to_nat (rta_retries ep)));
                queued := [p2]; high_priority := high |}).
  destruct (service_exhaust ep mac ra f _ _ c1 eq_refl Hra) as (nows & c2 & Hs & Hq & Hqu & Hh & due & Hp).
  assert (Happ : forall l1 l2 c, service_times ep mac ra c (l1 ++ l2) =
    (fst (service_times ep mac ra (fst (service_times ep mac ra c l1)) l2),
     snd (service_times ep mac ra c l1) ++ snd (service_times ep mac ra (fst (service_times ep mac ra c l1)) l2))).
  { induction l1 as [|n l1 IH]; intros l2 c; cbn [app service_times fst snd].
    - by destruct (service_times ep mac ra c l2).
    - destruct (service ep mac ra n c) as [c3 s3]. rewrite IH.
      destruct (service_times ep mac ra c3 l1) as [c4 s4]. cbn. by rewrite app_assoc. }
  exists (0 :: nows ++ [due]), (fst (service ep mac ra due c2)). cbn [service_times].
  assert (H0 : service ep mac ra 0 {| seq := sequencer_new; pending := None; queued := [p1; p2]; high_priority := high |}
               = (c1, [f])).
  { unfold service, c1. cbn. by rewrite Z2Nat.id by done. }
  rewrite H0, Happ, Hs. cbn [fst snd service_times].
  assert (H1 : snd (service ep mac ra due c2) = [build_layer2_ack_frame ep mac (sq_send sequencer_new) (sq_exp_o sequencer_new) p2 high]).
  { unfold service. rewrite Hp, Z.leb_refl. cbn [Z.ltb Z.compare with_pending pending queued].
    cbv beta iota zeta. cbn [with_pending pending queued seq high_priority data_seq_pair]. rewrite Hqu. cbn [app snd]. by rewrite Hq, Hh. }
  destruct (service ep mac ra due c2) as [c3 s3]. cbn [fst snd] in *. subst s3.
  rewrite Z2Nat.inj_add by lia. change (Z.to_nat 1) with 1%nat. cbn [Nat.add replicate]. by rewrite app_nil_r.
Qed.

Example give_up_reuses_sequence_number_witness :
  exists nows c', service_times ep0 mac0 100
      {| seq := sequencer_new; pending := None; queued := [[1]; [2]]; high_priority := false |} nows
    = (c', replicate 4 (build_layer2_ack_frame ep0 mac0 0xFFFF 0xFFFE [1] false)
           ++ [build_layer2_ack_frame ep0 mac0 0xFFFF 0xFFFE [2] false]).
Proof.
  apply (give_up_reuses_sequence_number ep0 mac0 100 false [1] [2]); vm_compute; congruence.
Defined.

(** An acknowledgment piggybacked on an accepted DATA PDU frees the
    sequence number of our outstanding AlarmAck but not the window: the frame
    stays pending, will be sent again when due, and the explicit transport
    ACK of the device for it is ignored from then on. *)
Theorem piggybacked_ack_keeps_pending ep mac ra c h hack f due r :
  version h = VERSION_1 -> kind h = RTA_TYPE_DATA -> Z.land (add_flags h) ADD_FLAGS_TACK <> 0 ->
  send_seq_num h = sq_exp (seq c) -> sq_exp (seq c) <> sq_exp_o (seq c) ->
  ack_seq_num h = sq_send (seq c) -> u16_ok (sq_send (seq c)) ->
  pending c = Some (f, due, r) -> 0 < r ->
  version hack = VERSION_1 -> kind hack = RTA_TYPE_ACK -> ack_seq_num hack = sq_send (seq c) ->
  snd (channel_run ep mac ra c [ArrivedPdu h; ArrivedPdu hack; Serviced due]) = [f].
Proof.
  intros Hv Hk Hf Hn Hne Ha Hu Hp Hr Hv' Hk' Ha'. cbn [channel_run channel_step].
  assert (E1 : on_pdu (seq c) h = ({| sq_send := next_seq (sq_send (seq c)); sq_send_o := sq_send (seq c);
      sq_exp := next_seq (sq_exp (seq c)); sq_exp_o := sq_exp (seq c) |}, Accept)).
  { unfold on_pdu. rewrite Hv, Hk. unfold VERSION_1, RTA_TYPE_DATA, RTA_TYPE_ACK, RTA_TYPE_NACK, RTA_TYPE_ERR.
    cbn [negb Z.eqb Pos.eqb]. replace (Z.land _ _ =? 0) with false by lia. rewrite Hn.
    replace (_ =? sq_exp_o _) with false by lia. rewrite Z.eqb_refl. cbn [negb sq_send].
    by replace (ack_seq_num h =? sq_send (seq c)) with true by lia. }
  rewrite E1. cbn [seq]. set (s1 := {| sq_send := next_seq _ |}).
  assert (E2 : on_pdu s1 hack = (s1, Ignore)).
  { unfold on_pdu. rewrite Hv', Hk'. unfold VERSION_1, RTA_TYPE_ACK. cbn [negb Z.eqb Pos.eqb].
    rewrite Ha'. unfold s1. cbn [sq_send].
    replace (sq_send (seq c) =? next_seq (sq_send (seq c))) with false; [done|]. symmetry. apply Z.eqb_neq.
    unfold next_seq, wrap_add16, SEQ_NUM_MASK. change 0x7FFF with (Z.ones 15). rewrite Z.land_ones by lia.
    change (2 ^ 15) with 32768. unfold u16_ok in Hu. intros Heq. zdiv. }
  rewrite E2. cbn [pending]. unfold service. cbn [pending queued]. rewrite Hp, Z.leb_refl.
  by replace (0 <? r) with true by lia.
Qed.

Example piggybacked_ack_keeps_pending_witness :
  snd (channel_run ep0 mac0 100
    {| seq := sequencer_new; pending := Some ([7], 100, 3); queued := []; high_priority := false |}
    [ArrivedPdu (data_header 0xFFFF 0xFFFF);
     ArrivedPdu {| alarm_dst_endpoint := 1; alarm_src_endpoint := 2; pdu_type := 0x13; add_flags := 1;
                   send_seq_num := 0; ack_seq_num := 0xFFFF; var_part_len := 0 |}; Serviced 100]) = [[7]].
Proof.
  eapply (piggybacked_ack_keeps_pending ep0 mac0 100 _ _ _ [7] 100 3);
    try reflexivity; try discriminate; split; vm_compute; congruence.
Defined.

(** A receive error ends the listener's thread but leaves the run flag
    set: the listener still reports itself running, [start] does nothing, and
    no frame is ever handled again until it is stopped; after [stop], [start]
    opens fresh channels. *)
Theorem receive_error_kills_listener l now now' open_ :
  running l = true -> (exists cs, thread l = Some (Some cs)) ->
  exists l' out, thread_pass l now now' ReceiveError = Ok (l', out) /\
    is_running l' = true /\ listener_start l' open_ = Ok l' /\
    (forall n n' r, thread_pass l' n n' r = Ok (l', [])) /\
    (transport (endpoint l) = 0 -> open_ = None ->
     exists l2, listener_start (listener_stop l') open_ = Ok l2 /\
       thread l2 = Some (Some {| low := channel_new false; high_ch := channel_new true |})).
Proof.
  intros Hr [cs Ht]. unfold thread_pass. rewrite Ht, Hr. unfold listen_pass.
  destruct (service _ _ _ _ (low cs)) as [l1 s1]. destruct (service _ _ _ _ (high_ch cs)) as [h1 s2].
  cbn [bind fst snd]. eexists _, _. split_and!; [done|done|done|done|].
  intros Htr ->. unfold listener_start, listener_stop, with_thread. cbn [running endpoint negb transport].
  rewrite Htr. by eexists.
Qed.

Example receive_error_kills_listener_witness :
  exists l l' out, listener_start (listener_new ep0 None) None = Ok l /\
    thread_pass l 0 0 ReceiveError = Ok (l', out) /\ listener_start l' None = Ok l'.
Proof.
  eexists. destruct (receive_error_kills_listener
    (with_thread (listener_new ep0 None) true (Some (Some {| low := channel_new false; high_ch := channel_new true |})))
    0 0 None eq_refl (ex_intro _ _ eq_refl)) as (l' & out & H1 & _ & H2 & _).
  exists l', out. split; [reflexivity|]. split; [exact H1|exact H2].
Defined.

Definition notification_frame : list Z :=
  [2; 0; 0; 0; 0; 1; 2; 0; 0; 0; 0; 9; 0x88; 0x92; 0xFE; 0x01] ++ rta_to_bytes (data_header 0xFFFF 0)
  ++ notification0.

Example handle_frame_spec_witness :
  exists r, handle_frame ep0 mac0 100 0 {| low := channel_new false; high_ch := channel_new true |}
              notification_frame = Ok r /\
    length (snd r) = 3%nat /\
    exists b p, check_layer2_frame notification_frame (device_mac ep0) = Ok (Some (b, p)).
Proof.
  destruct (total_Ok _ _ (handle_frame_spec ep0 mac0 100 0
    {| low := channel_new false; high_ch := channel_new true |} notification_frame)) as (r & Hr & Hs & _).
  exists r. vm_compute in Hr. injection Hr as <-. split; [reflexivity|]. split; [reflexivity|].
  exists false. apply Hs. vm_compute. discriminate.
Defined.
