(* ===== verification/Listening.v ===== *)
(** * The alarm listener's thread and its owner ([src/src/alarm_listener.rs])

    [AlarmListener] has the listener's loop as whole passes.  Here the thread
    and the calls on the handle interleave: the run flag is an atomic, the
    registry of callbacks a mutex the thread holds over the callbacks of one
    alarm, [stop] clears the flag and joins.  A callback may panic, which
    poisons the registry. *)

From S2P Require Import Prelude Fmt Util Alarms AlarmListener.

#[local] Open Scope list_scope.
#[local] Open Scope Z_scope.

(** ** The system *)

(** Where a thread of [start] is: about to read the run flag, in a pass, about
    to lock the registry for an alarm, holding it with callbacks left to call,
    or returned. *)
Inductive Worker :=
| Head (cs : Channels)
| Passing (cs : Channels)
| Locking (cs : Channels) (a : AlarmNotification)
| Calling (cs : Channels) (a : AlarmNotification) (rest : list Z)
| Gone.

(** What a call on the handle returned; [RPanic] is an [expect] that failed. *)
Inductive Answer :=
| RNone
| RId (id : Z)
| RCount (n : Z)
| RRunning (b : bool)
| RStarted (error : option string)
| RPanic.

(** Where the owner is between the steps of its calls. *)
Inductive Caller :=
| Resting (r : Answer)
| Adding (id : Z)
| Removing (id : Z)
| Counting
| Joining (t : nat).

Inductive Event := Wire (f : list Z) | Ran (id : Z) (a : AlarmNotification).

Record System := mkSystem {
  ep : AlarmEndpoint;
  cmac : list Z;
  flag : bool;
  registry : list Z;
  poisoned : bool;
  next_id : Z;
  workers : list Worker;
  handle : option nat;
  caller : Caller;
  log : list Event;
}.

Definition system_new (e : AlarmEndpoint) (mac : option (list Z)) : System :=
  mkSystem e (default (rep 6 0) mac) false [] false 0 [] None (Resting RNone) [].

Definition put (t : nat) (w : Worker) (s : System) : System :=
  mkSystem (ep s) (cmac s) (flag s) (registry s) (poisoned s) (next_id s)
    (<[t := w]> (workers s)) (handle s) (caller s) (log s).
Definition note (es : list Event) (s : System) : System :=
  mkSystem (ep s) (cmac s) (flag s) (registry s) (poisoned s) (next_id s) (workers s) (handle s)
    (caller s) (log s ++ es).
Definition at_call (c : Caller) (s : System) : System :=
  mkSystem (ep s) (cmac s) (flag s) (registry s) (poisoned s) (next_id s) (workers s) (handle s) c (log s).
Definition answer (r : Answer) (s : System) : System := at_call (Resting r) s.
Definition with_registry (l : list Z) (s : System) : System :=
  mkSystem (ep s) (cmac s) (flag s) l (poisoned s) (next_id s) (workers s) (handle s) (caller s) (log s).
Definition with_flag (b : bool) (h : option nat) (s : System) : System :=
  mkSystem (ep s) (cmac s) b (registry s) (poisoned s) (next_id s) (workers s) h (caller s) (log s).
Definition poison (s : System) : System :=
  mkSystem (ep s) (cmac s) (flag s) (registry s) true (next_id s) (workers s) (handle s) (caller s) (log s).

Definition holds_registry (w : Worker) : bool := match w with Calling _ _ _ => true | _ => false end.
Definition registry_free (s : System) : bool := forallb (fun w => negb (holds_registry w)) (workers s).

(** ** The thread *)

(** [while running.load()]. *)
Definition read_flag (t : nat) (cs : Channels) (s : System) : System :=
  put t (if flag s then Passing cs else Gone) s.

Definition wires (out : list Output) : list Event :=
  omap (fun o => match o with SendFrame f => Some (Wire f) | Deliver _ => None end) out.

(** A pass up to the registry: what it sends, and the alarm it delivers. *)
Definition turn (t : nat) (cs : Channels) (now now' : Z) (r : RecvOutcome) (s : System) : System :=
  match listen_pass (ep s) (cmac s) (retransmit_after (ep s)) now now' r cs with
  | Ok (None, out) => put t Gone (note (wires out) s)
  | Ok (Some cs', out) =>
      put t match delivered out with [] => Head cs' | a :: _ => Locking cs' a end (note (wires out) s)
  | _ => put t Gone s
  end.

(** [callbacks.lock().expect(..)]: a poisoned registry ends the thread. *)
Definition take_registry (t : nat) (cs : Channels) (a : AlarmNotification) (s : System) : option System :=
  if registry_free s
  then Some (put t (if poisoned s then Gone else Calling cs a (registry s)) s) else None.

(** One callback; one that panics unwinds the thread through the guard. *)
Definition invoke (t : nat) (cs : Channels) (a : AlarmNotification) (id : Z) (rest : list Z)
    (returns : bool) (s : System) : System :=
  let s := note [Ran id a] s in
  if returns then put t (Calling cs a rest) s else put t Gone (poison s).

(** ** The calls *)

(** [add_callback] takes its id before it locks. *)
Definition add_begin (s : System) : System :=
  mkSystem (ep s) (cmac s) (flag s) (registry s) (poisoned s) (next_id s + 1) (workers s) (handle s)
    (Adding (next_id s)) (log s).

(** A critical section on the registry by the owner. *)
Definition locked (f : System -> System) (s : System) : option System :=
  if registry_free s then Some (if poisoned s then answer RPanic s else f s) else None.
Definition add_end (id : Z) : System -> option System :=
  locked (fun s => answer (RId id) (with_registry (registry s ++ [id]) s)).
Definition remove_end (id : Z) : System -> option System :=
  locked (fun s => answer RNone (with_registry (filter (fun c => c <> id) (registry s)) s)).
Definition count_end : System -> option System :=
  locked (fun s => answer (RCount (len (registry s))) s).

(** [open_] is the error of [RawSocket::open]; [thread::spawn] panics when the
    system gives no thread. *)
Definition start_call (open_ : option string) (spawned : bool) (s : System) : System :=
  if flag s then answer (RStarted None) s
  else if negb (transport (ep s) =? 0) then
    answer (RStarted (Some "only Layer-2 (transport 0) alarm reception is supported"%string)) s
  else
    match open_ with
    | Some e => answer (RStarted (Some e)) s
    | None =>
        if spawned then
          mkSystem (ep s) (cmac s) true (registry s) (poisoned s) (next_id s)
            (workers s ++ [Head {| low := channel_new false; high_ch := channel_new true |}])
            (Some (length (workers s))) (Resting (RStarted None)) (log s)
        else answer RPanic (with_flag true (handle s) s)
    end.

(** [running.swap(false)], then the handle is taken and joined. *)
Definition stop_call (s : System) : System :=
  if negb (flag s) then answer RNone s
  else
    match handle s with
    | Some t => at_call (Joining t) (with_flag false None s)
    | None => answer RNone (with_flag false None s)
    end.

(** ** Steps *)

Inductive Choice :=
| ReadFlag (t : nat)
| Turn (t : nat) (now now' : Z) (r : RecvOutcome)
| TakeLock (t : nat)
| Invoke (t : nat) (returns : bool)
| DropLock (t : nat)
| AddCallback
| RemoveCallback (id : Z)
| CallbackCount
| IsRunning
| Start (open_ : option string) (spawned : bool)
| Stop
| Proceed.

(** A call begins when the owner has none under way. *)
Definition begin (f : System -> System) (s : System) : option System :=
  match caller s with Resting _ => Some (f s) | _ => None end.

(** [None]: the choice is not open to its thread, which is elsewhere or has to
    wait. *)
Definition step (s : System) (ch : Choice) : option System :=
  match ch with
  | ReadFlag t => match workers s !! t with Some (Head cs) => Some (read_flag t cs s) | _ => None end
  | Turn t now now' r =>
      match workers s !! t with Some (Passing cs) => Some (turn t cs now now' r s) | _ => None end
  | TakeLock t => match workers s !! t with Some (Locking cs a) => take_registry t cs a s | _ => None end
  | Invoke t returns =>
      match workers s !! t with
      | Some (Calling cs a (id :: rest)) => Some (invoke t cs a id rest returns s)
      | _ => None
      end
  | DropLock t =>
      match workers s !! t with Some (Calling cs a []) => Some (put t (Head cs) s) | _ => None end
  | AddCallback => begin add_begin s
  | RemoveCallback id => begin (at_call (Removing id)) s
  | CallbackCount => begin (at_call Counting) s
  | IsRunning => begin (fun s => answer (RRunning (flag s)) s) s
  | Start open_ spawned => begin (start_call open_ spawned) s
  | Stop => begin stop_call s
  | Proceed =>
      match caller s with
      | Adding id => add_end id s
      | Removing id => remove_end id s
      | Counting => count_end s
      | Joining t => match workers s !! t with Some Gone => Some (answer RNone s) | _ => None end
      | Resting _ => None
      end
  end.

Fixpoint run (l : list Choice) (s : System) : option System :=
  match l with
  | [] => Some s
  | ch :: l => s' ← step s ch; run l s'
  end.

(** The systems a new listener can get to. *)
Inductive reachable (e : AlarmEndpoint) (mac : option (list Z)) : System -> Prop :=
| reachable_new : reachable e mac (system_new e mac)
| reachable_step s ch s' : reachable e mac s -> step s ch = Some s' -> reachable e mac s'.

(** ** The invariant *)

(** Only the thread of the handle lives, or while a stop waits the one it waits
    for; callbacks run under a registry in order, which does not change under
    them; the ids of the registry are distinct, and never given twice. *)
Record sound (s : System) : Prop := {
  sound_alone : forall t w, workers s !! t = Some w ->
    w = Gone \/ if flag s then handle s = Some t else caller s = Joining t;
  sound_handle : forall t, handle s = Some t -> (t < length (workers s))%nat;
  sound_joining : forall t, caller s = Joining t -> flag s = false /\ (t < length (workers s))%nat;
  sound_calling : forall t cs a rest, workers s !! t = Some (Calling cs a rest) ->
    poisoned s = false /\ rest `suffix_of` registry s;
  sound_distinct : NoDup (registry s);
  sound_given : Forall (fun id => id < next_id s) (registry s);
  sound_adding : forall id, caller s = Adding id -> id < next_id s /\ id ∉ registry s;
}.

Lemma registry_free_spec s t cs a rest :
  registry_free s = true -> workers s !! t <> Some (Calling cs a rest).
Proof.
  unfold registry_free. rewrite forallb_forall. intros H Ht.
  specialize (H _ (proj1 (list_elem_of_In _ _) (list_elem_of_lookup_2 _ _ _ Ht))). done.
Qed.

(** What a step of a thread does to the system: that thread moves on, the log
    grows; a panic poisons. *)
Lemma sound_moves s t w w' p es :
  sound s -> workers s !! t = Some w -> w <> Gone ->
  (forall cs a rest, w' = Calling cs a rest -> p = false /\ rest `suffix_of` registry s) ->
  (p = poisoned s \/ w' = Gone /\ holds_registry w = true) ->
  sound (mkSystem (ep s) (cmac s) (flag s) (registry s) p (next_id s) (<[t := w']> (workers s))
           (handle s) (caller s) (log s ++ es)).
Proof.
  intros [Ha Hh Hj Hc Hd Hg Had] Ht Hw Hw' Hp.
  assert (Hmine : if flag s then handle s = Some t else caller s = Joining t) by (by destruct (Ha _ _ Ht)).
  constructor; cbn; try done.
  - intros u v [(<- & <- & _)|[_ Hu]]%list_lookup_insert_Some; [by right|by apply Ha].
  - rewrite length_insert. done.
  - rewrite length_insert. done.
  - intros u cs a rest [(<- & -> & _)|[Hn Hu]]%list_lookup_insert_Some; [by eapply Hw'|].
    destruct (Ha _ _ Hu) as [|Hu']; [done|]. destruct (flag s); congruence.
Qed.

Lemma note_nil s : note [] s = s.
Proof. destruct s. unfold note. cbn. by rewrite app_nil_r. Qed.

Lemma system_sound_put s t w w' es :
  sound s -> workers s !! t = Some w -> w <> Gone ->
  (forall cs a rest, w' = Calling cs a rest -> poisoned s = false /\ rest `suffix_of` registry s) ->
  sound (put t w' (note es s)).
Proof. intros Hs Ht Hw Hw'. apply (sound_moves s t w w' (poisoned s) es); auto. Qed.

Lemma sound_put_quiet s t w w' :
  sound s -> workers s !! t = Some w -> w <> Gone ->
  (forall cs a rest, w' = Calling cs a rest -> poisoned s = false /\ rest `suffix_of` registry s) ->
  sound (put t w' s).
Proof. intros Hs Ht Hw Hw'. rewrite <- (note_nil s). by eapply system_sound_put. Qed.

(** The owner comes to another point of its calls. *)
Lemma sound_at_call s c :
  sound s -> (forall t, c <> Joining t) -> (forall t, caller s <> Joining t) ->
  (forall id, c = Adding id -> id < next_id s /\ id ∉ registry s) -> sound (at_call c s).
Proof.
  intros [Ha Hh Hj Hc Hd Hg Had] Hnj Hnow Hadd. constructor; cbn; try done.
  - intros t w Ht. destruct (Ha t w Ht) as [|H]; [by left|right]. destruct (flag s); [done|]. by destruct (Hnow t).
  - intros t Ht. by destruct (Hnj t).
Qed.

Lemma sound_answer s r : sound s -> (forall t, caller s <> Joining t) -> sound (answer r s).
Proof. intros Hs H. by apply sound_at_call. Qed.

Lemma none_live s t w : sound s -> flag s = false -> (forall u, caller s <> Joining u) ->
  workers s !! t = Some w -> w = Gone.
Proof. intros Hs Hf Hc Ht. destruct (sound_alone s Hs t w Ht) as [|H]; [done|]. rewrite Hf in H. by destruct (Hc t). Qed.

Lemma locked_sound f s s' :
  sound s -> (forall t, caller s <> Joining t) -> locked f s = Some s' ->
  (registry_free s = true -> poisoned s = false -> sound (f s)) -> sound s'.
Proof.
  intros Hs Hc. unfold locked. destruct (registry_free s) eqn:Hr; [|done].
  intros [= <-] Hf. destruct (poisoned s) eqn:Hp; [by apply sound_answer|by apply Hf].
Qed.

Lemma with_registry_sound s l r :
  sound s -> registry_free s = true -> (forall t, caller s <> Joining t) ->
  NoDup l -> Forall (fun id => id < next_id s) l -> sound (answer r (with_registry l s)).
Proof.
  intros [Ha Hh Hj Hc Hd Hg Had] Hr Hnow Hnd Hlt. constructor; cbn; try done.
  - intros t w Ht. destruct (Ha t w Ht) as [|H]; [by left|right]. destruct (flag s); [done|]. by destruct (Hnow t).
  - intros t cs a rest Ht. by destruct (registry_free_spec s t cs a rest Hr).
Qed.

Lemma start_sound s o b : sound s -> (forall t, caller s <> Joining t) -> sound (start_call o b s).
Proof.
  intros Hs Hc. unfold start_call. destruct (flag s) eqn:Hf; [by apply sound_answer|].
  destruct (negb _); [by apply sound_answer|]. destruct o as [e|]; [by apply sound_answer|].
  assert (Hgone : forall t w, workers s !! t = Some w -> w = Gone) by (intros; by eapply none_live).
  pose proof Hs as [Ha Hh Hj Hca Hd Hg Had].
  destruct b; constructor; cbn; try done.
  - intros t w [Ht|[Hl Ht]]%lookup_app_Some; [left; by eapply Hgone|right].
    destruct (t - length (workers s))%nat as [|n] eqn:Hn; [|done]. f_equal. lia.
  - intros t [= <-]. rewrite length_app. cbn. lia.
  - intros t cs a rest [Ht|[Hl Ht]]%lookup_app_Some; [by apply Hgone in Ht|].
    by destruct (t - length (workers s))%nat.
  - intros t w Ht. left. by eapply Hgone.
Qed.

Lemma stop_sound s : sound s -> (forall t, caller s <> Joining t) -> sound (stop_call s).
Proof.
  intros Hs Hc. unfold stop_call. destruct (flag s) eqn:Hf; cbn [negb]; [|by apply sound_answer].
  destruct Hs as [Ha Hh Hj Hca Hd Hg Had]. rewrite Hf in Ha.
  destruct (handle s) as [t|] eqn:Ht; constructor; cbn; try done.
  - intros u w Hu. destruct (Ha u w Hu) as [|[= ->]]; [by left|by right].
  - intros u [= <-]. split; [done|by apply Hh].
  - intros u w Hu. left. by destruct (Ha u w Hu).
Qed.

Lemma begin_sound f s s' :
  sound s -> begin f s = Some s' -> ((forall t, caller s <> Joining t) -> sound (f s)) -> sound s'.
Proof.
  unfold begin. intros Hs. destruct (caller s) eqn:Hc; try done. intros [= <-] Hf. apply Hf. done.
Qed.

Lemma turn_sound s t cs now now' r :
  sound s -> workers s !! t = Some (Passing cs) -> sound (turn t cs now now' r s).
Proof.
  intros Hs Ht. unfold turn. destruct (listen_pass _ _ _ _ _ _ _) as [[[cs'|] out]| | |];
    try by eapply sound_put_quiet.
  - eapply system_sound_put; [done..|]. by destruct (delivered out).
  - by eapply system_sound_put.
Qed.

Lemma invoke_sound s t cs a id rest returns :
  sound s -> workers s !! t = Some (Calling cs a (id :: rest)) -> sound (invoke t cs a id rest returns s).
Proof.
  intros Hs Ht. destruct (sound_calling s Hs _ _ _ _ Ht) as [Hp Hsuf]. unfold invoke. destruct returns.
  - eapply system_sound_put; [done..|]. intros ? ? ? [= -> -> <-]. split; [done|].
    by eapply suffix_cons_l.
  - exact (sound_moves s t _ Gone true [Ran id a] Hs Ht ltac:(done) ltac:(done) (or_intror (conj eq_refl eq_refl))).
Qed.

Lemma remove_sound s id : sound s -> registry_free s = true -> (forall t, caller s <> Joining t) ->
  sound (answer RNone (with_registry (filter (fun c => c <> id) (registry s)) s)).
Proof.
  intros Hs Hr Hc. apply with_registry_sound; [done..|apply NoDup_filter, Hs|].
  apply Forall_forall. intros x [_ Hx]%list_elem_of_filter.
  pose proof (sound_given s Hs) as Hg. rewrite Forall_forall in Hg. by apply Hg.
Qed.

Lemma add_end_sound s id : sound s -> caller s = Adding id -> registry_free s = true ->
  sound (answer (RId id) (with_registry (registry s ++ [id]) s)).
Proof.
  intros Hs Hc Hr. destruct (sound_adding s Hs id Hc) as [Hlt Hni].
  apply with_registry_sound; [done|done|intros t; by rewrite Hc| |].
  - apply NoDup_app. split_and!; [apply Hs| |apply NoDup_singleton]. intros x Hx ->%list_elem_of_singleton. done.
  - apply Forall_app. split; [apply Hs|by repeat constructor].
Qed.

Lemma add_begin_sound s : sound s -> (forall t, caller s <> Joining t) -> sound (add_begin s).
Proof.
  intros [Ha Hh Hj Hca Hd Hg Had] Hc. constructor; cbn; try done.
  - intros t w Ht. destruct (Ha t w Ht) as [|H]; [by left|right]. destruct (flag s); [done|]. by destruct (Hc t).
  - eapply Forall_impl; [exact Hg|]. cbn. lia.
  - intros id [= <-]. split; [lia|]. rewrite Forall_forall in Hg. intros Hin. specialize (Hg _ Hin). lia.
Qed.

Lemma system_step_sound s ch s' : sound s -> step s ch = Some s' -> sound s'.
Proof.
  intros Hs. destruct ch as [t|t now now' r|t|t returns|t| |id| | |o b| |]; cbn [step];
    try (intros Hb; eapply begin_sound; [exact Hs|exact Hb|]; intros Hc).
  - destruct (workers s !! t) as [[cs|cs|cs a|cs a rest|]|] eqn:Ht; intros [= <-].
    eapply sound_put_quiet; [done..|]. by destruct (flag s).
  - destruct (workers s !! t) as [[cs|cs|cs a|cs a rest|]|] eqn:Ht; intros [= <-]. by apply turn_sound.
  - destruct (workers s !! t) as [[cs|cs|cs a|cs a rest|]|] eqn:Ht; try done. unfold take_registry.
    destruct (registry_free s); intros [= <-]. eapply sound_put_quiet; [done..|].
    destruct (poisoned s) eqn:Hp; intros ? ? ? [= -> -> <-]. by split.
  - destruct (workers s !! t) as [[cs|cs|cs a|cs a [|id rest]|]|] eqn:Ht; intros [= <-]. by apply invoke_sound.
  - destruct (workers s !! t) as [[cs|cs|cs a|cs a [|id rest]|]|] eqn:Ht; intros [= <-]. by eapply sound_put_quiet.
  - by apply add_begin_sound.
  - by apply sound_at_call.
  - by apply sound_at_call.
  - by apply sound_answer.
  - by apply start_sound.
  - by apply stop_sound.
  - destruct (caller s) as [a|id|id| |t] eqn:Hc; try done.
    + intros Hb. eapply locked_sound; [exact Hs|by rewrite Hc|exact Hb|]. intros Hr _. by apply add_end_sound.
    + intros Hb. eapply locked_sound; [exact Hs|by rewrite Hc|exact Hb|]. intros Hr _. apply remove_sound; [done..|by rewrite Hc].
    + intros Hb. eapply locked_sound; [exact Hs|by rewrite Hc|exact Hb|]. intros _ _. apply sound_answer; [done|by rewrite Hc].
    + destruct (workers s !! t) as [[| | | |]|] eqn:Ht; intros [= <-].
      destruct (sound_joining s Hs t Hc) as [Hf _]. destruct Hs as [Ha Hh Hj Hca Hd Hg Had].
      constructor; cbn; try done. intros u w Hu. left.
      destruct (Ha u w Hu) as [|H]; [done|]. rewrite Hf in H. congruence.
Qed.

Lemma new_sound e mac : sound (system_new e mac).
Proof. constructor; cbn; try done; constructor. Qed.

Lemma reachable_sound e mac s : reachable e mac s -> sound s.
Proof. induction 1 as [|s ch s' _ IH Hs]; [apply new_sound|by eapply system_step_sound]. Qed.

Lemma system_run_sound l : forall s s', sound s -> run l s = Some s' -> sound s'.
Proof.
  induction l as [|ch l IH]; cbn; intros s s' Hs; [by intros [= <-]|].
  destruct (step s ch) as [s1|] eqn:H1; [|done]. apply IH. by eapply system_step_sound.
Qed.

(** A property that each step keeps, along a run. *)
Lemma run_keeps (P : System -> Prop) (ok : Choice -> Prop) l : forall s s',
  (forall s ch s', sound s -> P s -> ok ch -> step s ch = Some s' -> P s') ->
  sound s -> P s -> Forall ok l -> run l s = Some s' -> P s'.
Proof.
  induction l as [|ch l IH]; cbn; intros s s' Hstep Hs HP Hl; [by intros [= <-]|].
  apply Forall_cons in Hl as [Hok Hl]. destruct (step s ch) as [s1|] eqn:H1; [|done].
  apply IH; [done|by eapply system_step_sound|by eapply Hstep|done].
Qed.

(** ** What a step adds to the log *)

(** A callback that runs is registered, and the registry sound. *)
Lemma step_log s ch s' : sound s -> step s ch = Some s' ->
  exists es, log s' = log s ++ es /\
    forall id a, Ran id a ∈ es -> id ∈ registry s /\ poisoned s = false.
Proof.
  intros Hs. assert (Hnone : forall s' : System, log s' = log s -> exists es, log s' = log s ++ es /\
    forall id a, Ran id a ∈ es -> id ∈ registry s /\ poisoned s = false).
  { intros s1 H. exists []. rewrite app_nil_r. split; [done|]. by intros id a ?%elem_of_nil. }
  assert (Hbegin : forall f, (forall s, log (f s) = log s) -> forall s1, begin f s = Some s1 -> log s1 = log s).
  { intros f Hf s1. unfold begin. destruct (caller s); intros [= <-]. apply Hf. }
  assert (Hlocked : forall f, (forall s, log (f s) = log s) -> forall s1, locked f s = Some s1 -> log s1 = log s).
  { intros f Hf s1. unfold locked. destruct (registry_free s), (poisoned s); intros [= <-]; [done|apply Hf]. }
  destruct ch as [t|t now now' r|t|t returns|t| |id| | |o b| |]; cbn [step].
  6-10: intros H; apply Hnone; revert H; apply Hbegin; intros s1; try done.
  - destruct (workers s !! t) as [[cs|cs|cs a|cs a rest|]|]; intros [= <-]. by apply Hnone.
  - destruct (workers s !! t) as [[cs|cs|cs a|cs a rest|]|]; intros [= <-]. unfold turn.
    assert (Hw : forall out, exists es, log s ++ wires out = log s ++ es /\
      forall id a, Ran id a ∈ es -> id ∈ registry s /\ poisoned s = false).
    { intros out. exists (wires out). split; [done|]. intros id a Hin.
      apply list_elem_of_omap in Hin as ([f|x] & _ & [= ]). }
    destruct (listen_pass _ _ _ _ _ _ _) as [[[cs'|] out]| | |]; try by apply Hnone.
    + by destruct (Hw out) as (es & H1 & H2); exists es.
    + by destruct (Hw out) as (es & H1 & H2); exists es.
  - destruct (workers s !! t) as [[cs|cs|cs a|cs a rest|]|]; try done. unfold take_registry.
    destruct (registry_free s); intros [= <-]. by apply Hnone.
  - destruct (workers s !! t) as [[cs|cs|cs a|cs a [|id rest]|]|] eqn:Ht; intros [= <-].
    destruct (sound_calling s Hs _ _ _ _ Ht) as [Hp [pre Hsuf]].
    exists [Ran id a]. split; [by destruct returns|]. intros i x [= -> ->]%list_elem_of_singleton.
    split; [|done]. rewrite Hsuf. set_solver.
  - destruct (workers s !! t) as [[cs|cs|cs a|cs a [|id rest]|]|]; intros [= <-]. by apply Hnone.
  - unfold start_call. by destruct (flag s1), (negb (transport (ep s1) =? 0)), o, b.
  - unfold begin. destruct (caller s); intros [= <-]. apply Hnone. unfold stop_call. by destruct (flag s), (handle s).
  - destruct (caller s) as [a|id|id| |t]; try done.
    1-3: intros H; apply Hnone; revert H; by apply Hlocked.
    destruct (workers s !! t) as [[| | | |]|]; intros [= <-]. by apply Hnone.
Qed.

(** Where an id of the registry, and one that is being added, comes from. *)
Lemma step_registry s ch s' : step s ch = Some s' ->
  next_id s <= next_id s' /\ (poisoned s = true -> poisoned s' = true) /\
  (forall id, id ∈ registry s' -> id ∈ registry s \/ caller s = Adding id) /\
  (forall id, caller s' = Adding id -> caller s = Adding id \/ next_id s <= id).
Proof.
  assert (Hsame : forall s', next_id s' = next_id s -> poisoned s' = poisoned s -> registry s' = registry s ->
    caller s' = caller s \/ (forall id, caller s' <> Adding id) ->
    next_id s <= next_id s' /\ (poisoned s = true -> poisoned s' = true) /\
    (forall id, id ∈ registry s' -> id ∈ registry s \/ caller s = Adding id) /\
    (forall id, caller s' = Adding id -> caller s = Adding id \/ next_id s <= id)).
  { intros s1 -> -> -> Hc. split_and!; [lia|done|by left|]. intros id Hid.
    destruct Hc as [Hc|Hc]; [left; congruence|by destruct (Hc id)]. }
  destruct ch as [t|t now now' r|t|t returns|t| |id| | |o b| |]; cbn [step].
  6-11: unfold begin; destruct (caller s) eqn:Hc; intros [= <-].
  - destruct (workers s !! t) as [[cs|cs|cs a|cs a rest|]|]; intros [= <-]. apply Hsame; auto.
  - destruct (workers s !! t) as [[cs|cs|cs a|cs a rest|]|]; intros [= <-]. unfold turn.
    destruct (listen_pass _ _ _ _ _ _ _) as [[[cs'|] out]| | |]; apply Hsame; auto.
  - destruct (workers s !! t) as [[cs|cs|cs a|cs a rest|]|]; try done. unfold take_registry.
    destruct (registry_free s); intros [= <-]. apply Hsame; auto.
  - destruct (workers s !! t) as [[cs|cs|cs a|cs a [|id rest]|]|]; intros [= <-]. unfold invoke.
    destruct returns; cbn; split_and!; try done; try lia; auto.
  - destruct (workers s !! t) as [[cs|cs|cs a|cs a [|id rest]|]|]; intros [= <-]. apply Hsame; auto.
  - cbn. split_and!; [lia|done|by left|]. intros id [= <-]. right. lia.
  - by apply Hsame; auto.
  - by apply Hsame; auto.
  - by apply Hsame; auto.
  - unfold start_call. destruct (flag s), (negb (transport (ep s) =? 0)), o, b; apply Hsame; auto.
  - unfold stop_call. destruct (flag s), (handle s); apply Hsame; auto.
  - destruct (caller s) as [a|id|id| |t] eqn:Hc; try done.
    1-3: unfold add_end, remove_end, count_end, locked; destruct (registry_free s), (poisoned s) eqn:Hp; intros [= <-];
      try (apply Hsame; auto; done); cbn; (split_and!; [lia|congruence| |done]).
    + intros x [Hx|Hx%list_elem_of_singleton]%elem_of_app; [by left|right; congruence].
    + intros x [_ Hx]%list_elem_of_filter. by left.
    + destruct (workers s !! t) as [[| | | |]|]; intros [= <-]. apply Hsame; auto.
Qed.

Lemma run_log l : forall s s', sound s -> run l s = Some s' ->
  exists es, log s' = log s ++ es.
Proof.
  induction l as [|ch l IH]; cbn; intros s s' Hs; [intros [= <-]; exists []; by rewrite app_nil_r|].
  destruct (step s ch) as [s1|] eqn:H1; [|done]. intros Hr.
  destruct (IH s1 s' (system_step_sound _ _ _ Hs H1) Hr) as [es Hes].
  destruct (step_log s ch s1 Hs H1) as (es1 & H & _). exists (es1 ++ es). by rewrite Hes, H, app_assoc.
Qed.

(** ** A removed callback *)

(** [id] has been given, is not registered nor being added, or no callback
    runs at all any more. *)
Definition silenced (id : Z) (s : System) : Prop :=
  id < next_id s /\ caller s <> Adding id /\ (poisoned s = true \/ id ∉ registry s).

Lemma silenced_step id s ch s' : sound s -> silenced id s -> step s ch = Some s' ->
  silenced id s' /\ exists es, log s' = log s ++ es /\ forall a, Ran id a ∉ es.
Proof.
  intros Hs (Hlt & Hc & Hr) Hst. destruct (step_registry s ch s' Hst) as (Hn & Hp & Hreg & Hadd).
  split.
  - split_and!; [lia|intros H; destruct (Hadd id H); [done|lia]|].
    destruct Hr as [Hr|Hr]; [left; auto|right]. intros Hin. by destruct (Hreg id Hin).
  - destruct (step_log s ch s' Hs Hst) as (es & Hes & Hin). exists es. split; [done|].
    intros a Ha. destruct (Hin id a Ha) as [H1 H2]. destruct Hr as [Hr|Hr]; [congruence|done].
Qed.

Lemma silenced_run id l : forall s s', sound s -> silenced id s -> run l s = Some s' ->
  exists es, log s' = log s ++ es /\ forall a, Ran id a ∉ es.
Proof.
  induction l as [|ch l IH]; cbn; intros s s' Hs Hq.
  { intros [= <-]. exists []. rewrite app_nil_r. split; [done|]. intros a. apply not_elem_of_nil. }
  destruct (step s ch) as [s1|] eqn:H1; [|done]. intros Hr.
  destruct (silenced_step id s ch s1 Hs Hq H1) as (Hq1 & es1 & He1 & Hn1).
  destruct (IH s1 s' (system_step_sound _ _ _ Hs H1) Hq1 Hr) as (es & He & Hn).
  exists (es1 ++ es). split; [by rewrite He, He1, app_assoc|]. intros a. rewrite elem_of_app. intros [?|?]; [by apply (Hn1 a)|by apply (Hn a)].
Qed.

(** C21: A removed callback is silent.  Once [remove_callback] has returned, that
    callback is not running and never runs again, whatever the listener's
    threads were in the middle of and whatever is added, started or stopped
    afterwards: the removal waits for the callbacks of an alarm under way, and
    an id is never given twice. *)
Theorem removed_callback_is_silent e mac s id s1 l s2 :
  reachable e mac s -> caller s = Removing id -> id < next_id s ->
  step s Proceed = Some s1 -> run l s1 = Some s2 ->
  (forall t cs a rest, workers s1 !! t <> Some (Calling cs a rest)) /\
  exists es, log s2 = log s1 ++ es /\ forall a, Ran id a ∉ es.
Proof.
  intros Hs%reachable_sound Hc Hid Hst Hr. pose proof (system_step_sound s Proceed s1 Hs Hst) as Hs1.
  cbn [step] in Hst. rewrite Hc in Hst. unfold remove_end, locked in Hst.
  destruct (registry_free s) eqn:Hf; [|done]. injection Hst as <-.
  split.
  { intros t cs a rest. replace (workers _) with (workers s) by (by destruct (poisoned s)). by apply registry_free_spec. }
  apply (silenced_run id l); [done| |done]. destruct (poisoned s) eqn:Hp; unfold silenced; cbn; split_and!; try done.
  - by left.
  - right. intros [Hne _]%list_elem_of_filter. done.
Qed.

(** ** Stopping *)

(** The steps a thread has left once the run flag is cleared, [n] callbacks
    being registered. *)
Definition steps_left (n : nat) (w : Worker) : nat :=
  match w with
  | Gone => 0
  | Head _ => 1
  | Calling _ _ rest => length rest + 2
  | Locking _ _ => n + 3
  | Passing _ => n + 4
  end.

(** A stop waits for thread [t]. *)
Definition waiting (t : nat) (s : System) : Prop := caller s = Joining t.

(** [s'] still waits, and thread [t] has fewer steps left than at [w]. *)
Definition nearer (t : nat) (w : Worker) (s s' : System) : Prop :=
  waiting t s' /\ registry s' = registry s /\
  exists w', workers s' !! t = Some w' /\
    (steps_left (length (registry s)) w' < steps_left (length (registry s)) w)%nat.

Lemma nearer_moves t w w' es p s : waiting t s -> workers s !! t = Some w ->
  (steps_left (length (registry s)) w' < steps_left (length (registry s)) w)%nat ->
  nearer t w s (mkSystem (ep s) (cmac s) (flag s) (registry s) p (next_id s) (<[t := w']> (workers s))
                  (handle s) (caller s) (log s ++ es)).
Proof.
  intros Hw Ht Hlt. split_and!; [done|done|]. exists w'. split; [|done]. cbn.
  apply list_lookup_insert_eq. by eapply lookup_lt_Some.
Qed.
Lemma nearer_note t w w' es s : waiting t s -> workers s !! t = Some w ->
  (steps_left (length (registry s)) w' < steps_left (length (registry s)) w)%nat ->
  nearer t w s (put t w' (note es s)).
Proof. exact (nearer_moves t w w' es (poisoned s) s). Qed.
Lemma nearer_put t w w' s : waiting t s -> workers s !! t = Some w ->
  (steps_left (length (registry s)) w' < steps_left (length (registry s)) w)%nat -> nearer t w s (put t w' s).
Proof.
  intros Hw Ht Hlt. replace (put t w' s) with (put t w' (note [] s)) by (by rewrite note_nil).
  by apply nearer_note.
Qed.

Lemma put_lookup t w w0 s : workers s !! t = Some w0 -> workers (put t w s) !! t = Some w.
Proof. intros H. cbn. apply list_lookup_insert_eq. by eapply lookup_lt_Some. Qed.

(** While it waits, every step is one of that thread, and brings it nearer its
    end. *)
Lemma waiting_step s ch s' t w : sound s -> waiting t s -> workers s !! t = Some w ->
  ch <> Proceed -> step s ch = Some s' -> nearer t w s s'.
Proof.
  intros Hs Hw Ht Hch Hst. destruct (sound_joining s Hs t Hw) as [Hf _].
  assert (Hmine : forall u v, workers s !! u = Some v -> v <> Gone -> u = t).
  { intros u v Hu Hv. destruct (sound_alone s Hs u v Hu) as [|H]; [done|]. rewrite Hf in H. unfold waiting in Hw. congruence. }
  destruct ch as [u|u now now' r|u|u returns|u| |id| | |o b| |]; cbn [step] in Hst; try done;
    try (unfold begin in Hst; rewrite Hw in Hst; done).
  all: destruct (workers s !! u) as [v|] eqn:Hu; [|done].
  all: assert (Hin : v <> Gone -> u = t /\ v = w) by (intros Hv; pose proof (Hmine u v Hu Hv) as ->; split; [done|congruence]).
  all: destruct v as [cs|cs|cs a|cs a rest|]; try done; destruct Hin as [-> <-]; try done.
  - injection Hst as <-. unfold read_flag. rewrite Hf. apply nearer_put; cbn; [done..|lia].
  - injection Hst as <-. unfold turn. destruct (listen_pass _ _ _ _ _ _ _) as [[[cs'|] out]| | |];
      try (apply nearer_put; cbn; [done..|lia]).
    + apply nearer_note; [done..|]. destruct (delivered out); cbn; lia.
    + apply nearer_note; cbn; [done..|lia].
  - unfold take_registry in Hst. destruct (registry_free s); [|done]. injection Hst as <-.
    apply nearer_put; [done..|]. destruct (poisoned s); cbn; lia.
  - destruct rest as [|id rest]; [done|]. injection Hst as <-. unfold invoke. destruct returns.
    + apply nearer_note; cbn; [done..|lia].
    + refine (nearer_moves t _ Gone [Ran id a] true s Hw Ht _). cbn. lia.
  - destruct rest as [|id rest]; [|done]. injection Hst as <-. apply nearer_put; cbn; [done..|lia].
Qed.

Lemma waiting_run t l : forall s s' w, sound s -> waiting t s -> workers s !! t = Some w ->
  Forall (fun ch => ch <> Proceed) l -> run l s = Some s' ->
  waiting t s' /\ registry s' = registry s /\
  exists w', workers s' !! t = Some w' /\
    (length l + steps_left (length (registry s)) w' <= steps_left (length (registry s)) w)%nat.
Proof.
  induction l as [|ch l IH]; cbn [run length]; intros s s' w Hs Hw Ht Hl.
  { intros [= <-]. split_and!; [done|done|]. exists w. split; [done|lia]. }
  apply Forall_cons in Hl as [Hch Hl]. cbn. destruct (step s ch) as [s1|] eqn:H1; [|done]. intros Hr.
  destruct (waiting_step s ch s1 t w Hs Hw Ht Hch H1) as (Hw1 & Hr1 & w1 & Ht1 & Hlt).
  destruct (IH s1 s' w1 (system_step_sound _ _ _ Hs H1) Hw1 Ht1 Hl Hr) as (Hw' & Hr' & w' & Ht' & Hle).
  rewrite Hr1 in Hr', Hle. split_and!; [done|done|]. exists w'. split; [done|lia].
Qed.

Lemma steps_left_bound s t w : sound s -> workers s !! t = Some w ->
  (steps_left (length (registry s)) w <= length (registry s) + 4)%nat.
Proof.
  intros Hs Ht. destruct w as [cs|cs|cs a|cs a rest|]; cbn; try lia.
  destruct (sound_calling s Hs _ _ _ _ Ht) as [_ Hsuf]. apply suffix_length in Hsuf. lia.
Qed.

(** Only the thread of a callback holds the registry. *)
Lemma registry_free_of s t w : sound s -> waiting t s -> workers s !! t = Some w ->
  holds_registry w = false -> registry_free s = true.
Proof.
  intros Hs Hw Ht Hh. destruct (sound_joining s Hs t Hw) as [Hf _]. unfold registry_free. apply forallb_forall.
  intros v [u Hu]%list_elem_of_In%list_elem_of_lookup.
  destruct (sound_alone s Hs u v Hu) as [->|H]; [done|]. rewrite Hf in H. unfold waiting in Hw.
  assert (u = t) as -> by congruence. assert (v = w) as -> by congruence. by rewrite Hh.
Qed.

(** A waiting stop can return, or its thread can go on. *)
Lemma waiting_enabled s t : sound s -> waiting t s -> exists ch s', step s ch = Some s'.
Proof.
  intros Hs Hw. destruct (sound_joining s Hs t Hw) as [_ Hlt].
  destruct (lookup_lt_is_Some_2 _ _ Hlt) as [w Ht]. unfold waiting in Hw.
  destruct w as [cs|cs|cs a|cs a [|id rest]|].
  - exists (ReadFlag t). cbn. rewrite Ht. eauto.
  - exists (Turn t 0 0 ReceivedNothing). cbn. rewrite Ht. eauto.
  - exists (TakeLock t). cbn. rewrite Ht. unfold take_registry.
    rewrite (registry_free_of s t _ Hs Hw Ht) by done. eauto.
  - exists (DropLock t). cbn. rewrite Ht. eauto.
  - exists (Invoke t true). cbn. rewrite Ht. eauto.
  - exists Proceed. cbn. rewrite Hw, Ht. eauto.
Qed.

(** No thread lives and no stop waits. *)
Definition stopped (s : System) : Prop :=
  flag s = false /\ Forall (fun w => w = Gone) (workers s) /\ forall t, caller s <> Joining t.

Lemma system_stopped_step s ch s' : sound s -> stopped s -> (forall o b, ch <> Start o b) -> step s ch = Some s' ->
  stopped s' /\ log s' = log s.
Proof.
  intros Hs (Hf & Hw & Hc) Hch Hst. rewrite Forall_lookup in Hw.
  assert (Hbegin : forall f, begin f s = Some s' -> (forall s, workers (f s) = workers s /\ flag (f s) = flag s /\
    log (f s) = log s /\ forall t, caller (f s) <> Joining t) -> stopped s' /\ log s' = log s).
  { unfold begin. intros f Hb Hk. destruct (caller s); try done. injection Hb as <-.
    destruct (Hk s) as (H1 & H2 & H3 & H4). unfold stopped. rewrite H1, H2, H3, Forall_lookup. by split_and!. }
  destruct ch as [u|u now now' r|u|u returns|u| |id| | |o b| |]; cbn [step] in Hst;
    try (destruct (workers s !! u) as [v|] eqn:Hu; [rewrite (Hw u v Hu) in Hst|]; done);
    try (by apply (Hbegin _ Hst)).
  - by destruct (Hch o b).
  - unfold begin in Hst. destruct (caller s) eqn:Hcs; try done. injection Hst as <-. unfold stop_call. rewrite Hf.
    cbn. unfold stopped. cbn. by rewrite Forall_lookup.
  - assert (Hlocked : forall f, locked f s = Some s' -> (workers (f s) = workers s /\ flag (f s) = flag s /\
      log (f s) = log s /\ forall t, caller (f s) <> Joining t) -> stopped s' /\ log s' = log s).
    { unfold locked. intros f Hb (H1 & H2 & H3 & H4). destruct (registry_free s), (poisoned s); try done; injection Hb as <-;
        unfold stopped; cbn; rewrite ?H1, ?H2, ?H3, Forall_lookup; by split_and!. }
    destruct (caller s) as [a|id|id| |t] eqn:Hcs; try done;
      [by apply (Hlocked _ Hst)..|]. by destruct (Hc t).
Qed.

Lemma stopped_run l : forall s s', sound s -> stopped s -> Forall (fun ch => forall o b, ch <> Start o b) l ->
  run l s = Some s' -> stopped s' /\ log s' = log s.
Proof.
  induction l as [|ch l IH]; cbn; intros s s' Hs Hq Hl; [by intros [= <-]|].
  apply Forall_cons in Hl as [Hch Hl]. destruct (step s ch) as [s1|] eqn:H1; [|done]. intros Hr.
  destruct (system_stopped_step s ch s1 Hs Hq Hch H1) as [Hq1 E1].
  destruct (IH s1 s' (system_step_sound _ _ _ Hs H1) Hq1 Hl Hr) as [Hq' E']. split; [done|congruence].
Qed.

(** C22: Stopping the listener ends, and ends everything.  Once [stop] has
    cleared the run flag and waits, at most four steps more than there are
    callbacks are left to any thread, whatever is received meanwhile, and until
    the stop returns one is always possible; when it has returned no thread
    lives, and nothing is sent and no callback runs until the next [start]. *)
Theorem listener_stop_returns e mac s t :
  reachable e mac s -> caller s = Joining t ->
  (forall l s', Forall (fun ch => ch <> Proceed) l -> run l s = Some s' ->
     (length l <= length (registry s) + 4)%nat /\ caller s' = Joining t /\
     exists ch s'', step s' ch = Some s'') /\
  (forall s1 l s2, step s Proceed = Some s1 -> Forall (fun ch => forall o b, ch <> Start o b) l ->
     run l s1 = Some s2 ->
     caller s1 = Resting RNone /\ flag s2 = false /\ Forall (fun w => w = Gone) (workers s2) /\
     log s2 = log s).
Proof.
  intros Hs%reachable_sound Hw. destruct (sound_joining s Hs t Hw) as [Hf Hlt]. split.
  - intros l s' Hl Hr. destruct (lookup_lt_is_Some_2 _ _ Hlt) as [w Ht].
    destruct (waiting_run t l s s' w Hs Hw Ht Hl Hr) as (Hw' & _ & w' & _ & Hle).
    pose proof (steps_left_bound s t w Hs Ht). split_and!; [lia|done|].
    apply (waiting_enabled s' t); [by eapply system_run_sound|done].
  - intros s1 l s2 Hst Hl Hr. pose proof (system_step_sound _ _ _ Hs Hst) as Hs1. cbn in Hst. rewrite Hw in Hst.
    destruct (workers s !! t) as [[| | | |]|] eqn:Ht; try done. injection Hst as <-.
    assert (Hq : stopped (answer RNone s)).
    { split_and!; [done| |done]. apply Forall_lookup. intros u w Hu.
      destruct (sound_alone s Hs u w Hu) as [|H]; [done|]. rewrite Hf in H. cbn in Hu. congruence. }
    destruct (stopped_run l _ _ Hs1 Hq Hl Hr) as [(H1 & H2 & _) H3]. by split_and!.
Qed.

(** ** A callback that panics *)

Lemma poisoned_free s : sound s -> poisoned s = true -> registry_free s = true.
Proof.
  intros Hs Hp. unfold registry_free. apply forallb_forall. intros w [t Ht]%list_elem_of_In%list_elem_of_lookup.
  destruct w as [cs|cs|cs a|cs a rest|]; try done. destruct (sound_calling s Hs _ _ _ _ Ht). congruence.
Qed.

Lemma poisoned_run l : forall s s', sound s -> poisoned s = true -> run l s = Some s' ->
  poisoned s' = true /\ exists es, log s' = log s ++ es /\ forall id a, Ran id a ∉ es.
Proof.
  induction l as [|ch l IH]; cbn; intros s s' Hs Hp.
  { intros [= <-]. split; [done|]. exists []. rewrite app_nil_r. split; [done|]. intros id a. apply not_elem_of_nil. }
  destruct (step s ch) as [s1|] eqn:H1; [|done]. intros Hr.
  destruct (step_log s ch s1 Hs H1) as (es1 & He1 & Hn1).
  destruct (step_registry s ch s1 H1) as (_ & Hp1 & _).
  destruct (IH s1 s' (system_step_sound _ _ _ Hs H1) (Hp1 Hp) Hr) as (Hp' & es & He & Hn).
  split; [done|]. exists (es1 ++ es). split; [by rewrite He, He1, app_assoc|].
  intros id a. rewrite elem_of_app. intros [Hi|Hi]; [|by apply (Hn id a)]. destruct (Hn1 id a Hi). congruence.
Qed.

(** A callback that panics ends alarm handling for good, unseen.  The panic
    unwinds the listener's thread through the guard of the registry: the run
    flag stays set, so the listener reports itself running with no thread; no
    callback ever runs again, in whatever way the listener is stopped and
    started, and every later [add_callback], [remove_callback] and
    [callback_count] panics in its caller. *)
Theorem callback_panic_is_final e mac s t cs a id rest s1 :
  reachable e mac s -> flag s = true -> workers s !! t = Some (Calling cs a (id :: rest)) ->
  step s (Invoke t false) = Some s1 ->
  flag s1 = true /\ Forall (fun w => w = Gone) (workers s1) /\
  forall l s2, run l s1 = Some s2 ->
    (exists es, log s2 = log s1 ++ es /\ forall i x, Ran i x ∉ es) /\
    ((exists i, caller s2 = Adding i \/ caller s2 = Removing i) \/ caller s2 = Counting ->
     step s2 Proceed = Some (answer RPanic s2)).
Proof.
  intros Hs%reachable_sound Hf Ht Hst. pose proof (system_step_sound _ _ _ Hs Hst) as Hs1.
  cbn [step] in Hst. rewrite Ht in Hst. injection Hst as <-. cbn. split_and!; [done| |].
  - apply Forall_lookup. intros u w [(_ & <- & _)|[Hn Hu]]%list_lookup_insert_Some; [done|].
    destruct (sound_alone s Hs u w Hu) as [|H1]; [done|]. destruct (sound_alone s Hs t _ Ht) as [|H2]; [done|].
    rewrite Hf in H1, H2. congruence.
  - intros l s2 Hr. assert (Hp1 : poisoned (invoke t cs a id rest false s) = true) by done.
    destruct (poisoned_run l _ _ Hs1 Hp1 Hr) as [Hp Hlog]. split; [exact Hlog|].
    pose proof (poisoned_free s2 (system_run_sound l _ _ Hs1 Hr) Hp) as Hfree. cbn [step].
    intros [[i [-> | ->]]| ->]; unfold add_end, remove_end, count_end, locked; by rewrite Hfree, Hp.
Qed.

(** ** A pass is a schedule *)

(** The listener as [AlarmListener] has it, with [t] its thread. *)
Definition seen_by (t : nat) (s : System) : AlarmListener :=
  {| endpoint := ep s; controller_mac := cmac s; running := flag s; callbacks := registry s;
     next_callback_id := next_id s;
     thread := Some match workers s !! t with Some (Head cs) => Some cs | _ => None end |}.

(** A delivery is the callbacks, in the order they were added. *)
Definition events (ids : list Z) (o : Output) : list Event :=
  match o with SendFrame f => [Wire f] | Deliver a => (fun id => Ran id a) <$> ids end.

Definition turn_of (t : nat) (ch : Choice) : Prop :=
  match ch with
  | ReadFlag u | TakeLock u | DropLock u | Turn u _ _ _ => u = t
  | Invoke u returns => u = t /\ returns = true
  | _ => False
  end.

(** Frames first, then at most one delivery. *)
Definition shaped (out : list Output) : Prop :=
  exists fs ds, out = (SendFrame <$> fs) ++ (Deliver <$> ds) /\ (length ds <= 1)%nat.

Lemma shaped_frames fs : shaped (SendFrame <$> fs).
Proof. exists fs, []. split; [by rewrite app_nil_r|cbn; lia]. Qed.
Lemma shaped_app fs out : shaped out -> shaped ((SendFrame <$> fs) ++ out).
Proof. intros (gs & ds & -> & H). exists (fs ++ gs), ds. by rewrite fmap_app, app_assoc. Qed.
Lemma shaped_deliver a : shaped [Deliver a].
Proof. exists [], [a]. split; [done|cbn; lia]. Qed.

Lemma handle_frame_shaped e mac ra now cs f : total (handle_frame e mac ra now cs f) (fun r => shaped (snd r)).
Proof.
  unfold handle_frame. destruct (check_layer2_ok f (device_mac e)) as (ck & Hck). rewrite Hck. cbn [bind].
  destruct ck as [[b p]|]; [|apply (shaped_frames [])].
  destruct (safe_ok _ (rta_from_bytes_safe p)) as (o & Ho & _). rewrite Ho. cbn [bind].
  destruct o as [rta|]; [|apply (shaped_frames [])].
  destruct (negb (_ =? _)); [apply (shaped_frames [])|]. cbv zeta.
  destruct (on_pdu _ rta) as [sq []]; cbn [ack_seq_pair]; try apply (shaped_frames []); try apply (shaped_frames [_]).
  destruct (safe_ok _ (process_layer2_safe p (controller_ref e))) as (o & Ho2 & _). rewrite Ho2. cbn [bind].
  destruct o as [[[o al]|]|]; try apply (shaped_frames [_]).
  destruct (service _ _ _ _ _) as [ac sent]. cbn [total snd wp].
  apply (shaped_app [_]), shaped_app, shaped_deliver.
Qed.

Lemma listen_pass_shaped e mac ra now now' r cs :
  total (listen_pass e mac ra now now' r cs) (fun x => shaped (snd x) /\ (fst x = None -> delivered (snd x) = [])).
Proof.
  unfold listen_pass. destruct (service _ _ _ _ (low cs)) as [l s1].
  destruct (service _ _ _ _ (high_ch cs)) as [h s2]. destruct r as [f| |].
  - apply wp_bind. eapply total_mono; [apply handle_frame_shaped|]. intros [cs' out] Hout. cbn.
    split; [by apply shaped_app|done].
  - split; [apply shaped_frames|done].
  - split; [apply shaped_frames|intros _; apply delivered_frames].
Qed.

Lemma shaped_events ids out : shaped out ->
  out ≫= events ids =
    wires out ++ match delivered out with [] => [] | a :: _ => (fun id => Ran id a) <$> ids end.
Proof.
  intros (fs & ds & -> & Hd). unfold wires. rewrite delivered_app, delivered_frames, bind_app, omap_app. cbn [app].
  assert (Hf : (SendFrame <$> fs) ≫= events ids
     = omap (fun o => match o with SendFrame f => Some (Wire f) | Deliver _ => None end) (SendFrame <$> fs)).
  { induction fs as [|f fs IH]; [done|]. cbn. by f_equal. }
  rewrite Hf. destruct ds as [|a [|b ds]]; cbn in *; [by rewrite !app_nil_r| |lia]. by rewrite !app_nil_r.
Qed.

(** The callbacks of an alarm, one after the other. *)
Lemma run_callbacks t cs a rest : forall s, workers s !! t = Some (Calling cs a rest) ->
  run (replicate (length rest) (Invoke t true)) s
  = Some (put t (Calling cs a []) (note ((fun id => Ran id a) <$> rest) s)).
Proof.
  induction rest as [|id rest IH]; intros s Ht.
  - cbn [length replicate run fmap list_fmap]. rewrite note_nil. unfold put.
    rewrite list_insert_id by done. by destruct s.
  - cbn [length replicate run step]. rewrite Ht. cbn [mbind option_bind]. rewrite IH.
    + unfold invoke, put, note. cbn. by rewrite list_insert_insert_eq, <- app_assoc.
    + cbn. apply list_lookup_insert_eq. by eapply lookup_lt_Some.
Qed.

Lemma turns_of_callbacks t n : Forall (turn_of t) (replicate n (Invoke t true)).
Proof. by apply Forall_replicate. Qed.

Lemma system_run_app l1 l2 s : run (l1 ++ l2) s = s' ← run l1 s; run l2 s'.
Proof. revert s. induction l1 as [|ch l1 IH]; intros s; cbn; [done|]. destruct (step s ch); cbn; [apply IH|done]. Qed.

(** An alarm under way: the registry locked, its callbacks called, and back to
    the head of the loop. *)
Lemma run_alarm t cs a s : workers s !! t = Some (Locking cs a) -> registry_free s = true -> poisoned s = false ->
  run (TakeLock t :: replicate (length (registry s)) (Invoke t true) ++ [DropLock t]) s
  = Some (put t (Head cs) (note ((fun id => Ran id a) <$> registry s) s)).
Proof.
  intros Ht Hr Hp. cbn [run step]. rewrite Ht. unfold take_registry. rewrite Hr, Hp. cbn [mbind option_bind].
  pose proof (lookup_lt_Some _ _ _ Ht) as Hlt.
  rewrite system_run_app, (run_callbacks t cs a) by (by eapply put_lookup). cbn. rewrite !list_insert_insert_eq.
  rewrite list_lookup_insert_eq by done. unfold put, note. cbn. by rewrite !list_insert_insert_eq.
Qed.

Lemma seen_by_put t w s : (t < length (workers s))%nat ->
  seen_by t (put t w s) = AlarmListener.with_thread (seen_by t s) (flag s) (Some match w with Head cs => Some cs | _ => None end).
Proof. intros Ht. unfold seen_by, put, AlarmListener.with_thread. cbn. by rewrite list_lookup_insert_eq. Qed.
Lemma seen_by_note t es s : seen_by t (note es s) = seen_by t s.
Proof. done. Qed.

(** A pass of the listener's thread that nobody interrupts is the pass of
    [AlarmListener]: the same channels, the same frames, and the alarm it
    delivers handed to every callback in the order they were added; and a pass
    never panics. *)
Theorem pass_is_schedule t cs s now now' r :
  workers s !! t = Some (Head cs) -> registry_free s = true -> poisoned s = false ->
  total (thread_pass (seen_by t s) now now' r) (fun x =>
    exists l s', Forall (turn_of t) l /\ run l s = Some s' /\ seen_by t s' = fst x /\
      log s' = log s ++ (snd x ≫= events (registry s))).
Proof.
  intros Ht Hr Hp. pose proof (lookup_lt_Some _ _ _ Ht) as Hlt.
  unfold thread_pass. cbn [thread seen_by running]. rewrite Ht. destruct (flag s) eqn:Hf; cycle 1.
  { exists [ReadFlag t], (put t Gone s). split_and!; [by repeat constructor| | |by rewrite app_nil_r].
    - cbn. rewrite Ht. cbn. unfold read_flag. by rewrite Hf.
    - rewrite seen_by_put by done. by rewrite Hf. }
  apply wp_bind. eapply total_mono; [|intros x Hx; exact Hx].
  pose proof (listen_pass_shaped (ep s) (cmac s) (retransmit_after (ep s)) now now' r cs) as Hshape.
  destruct (listen_pass _ _ _ _ _ _ _) as [[res out]| | |] eqn:Hl; try done. destruct Hshape as [Hshape Hnone].
  cbn [fst snd] in *. cbn. rewrite (shaped_events _ _ Hshape).
  assert (Hrun : forall l, run (ReadFlag t :: Turn t now now' r :: l) s
    = run l (put t match res with
                   | None => Gone
                   | Some cs' => match delivered out with [] => Head cs' | a :: _ => Locking cs' a end
                   end (note (wires out) s))).
  { intros l. cbn [run step]. rewrite Ht. cbn [mbind option_bind]. unfold read_flag. rewrite Hf.
    rewrite (put_lookup t _ _ _ Ht). cbn [mbind option_bind]. unfold turn. cbn [ep cmac put]. rewrite Hl.
    unfold put, note. cbn. destruct res as [cs'|]; by rewrite list_insert_insert_eq. }
  assert (Htwo : Forall (turn_of t) [ReadFlag t; Turn t now now' r]) by (by repeat constructor).
  destruct res as [cs'|]; [destruct (delivered out) as [|a rest] eqn:Hd|rewrite (Hnone eq_refl)].
  - eexists [_; _], _. split_and!; [exact Htwo|exact (Hrun [])| |by rewrite app_nil_r].
    rewrite seen_by_put, seen_by_note by done. cbn. by rewrite Hf.
  - eexists ([_; _] ++ TakeLock t :: replicate (length (registry s)) (Invoke t true) ++ [DropLock t]), _.
    split_and!.
    + apply Forall_app. split; [exact Htwo|]. constructor; [done|]. apply Forall_app.
      split; [apply turns_of_callbacks|by repeat constructor].
    + cbn [app]. rewrite Hrun. refine (run_alarm t cs' a (put t (Locking cs' a) (note (wires out) s)) _ _ Hp); [by eapply put_lookup|].
      apply forallb_forall. intros w [u Hu]%list_elem_of_In%list_elem_of_lookup.
      apply list_lookup_insert_Some in Hu as [(_ & <- & _)|[_ Hu]]; [done|].
      unfold registry_free in Hr. rewrite forallb_forall in Hr. apply Hr, list_elem_of_In. by eapply list_elem_of_lookup_2.
    + rewrite seen_by_put, seen_by_note, seen_by_put by (cbn; rewrite ?length_insert; done). cbn.
      unfold AlarmListener.with_thread. cbn. by rewrite Hf.
    + cbn. by rewrite app_assoc.
  - eexists [_; _], _. split_and!; [exact Htwo|exact (Hrun [])| |by rewrite app_nil_r].
    rewrite seen_by_put, seen_by_note by done. cbn. by rewrite Hf.
Qed.

(** ** Witnesses *)

Lemma run_reachable e mac l s0 s : reachable e mac s0 -> run l s0 = Some s -> reachable e mac s.
Proof.
  revert s0. induction l as [|ch l IH]; cbn; intros s0 Hs0; [by intros [= <-]|].
  destruct (step s0 ch) as [s1|] eqn:H1; [|done]. apply IH. by eapply reachable_step.
Qed.

(** Where a run gets to from a new listener. *)
Definition after (l : list Choice) : System := default (system_new ep0 (Some mac0)) (run l (system_new ep0 (Some mac0))).

(** Two callbacks, a started thread, and its first alarm under way. *)
Definition first_alarm : list Choice :=
  [AddCallback; Proceed; AddCallback; Proceed; Start None true; ReadFlag 0; Turn 0 0 0 (Received notification_frame);
   TakeLock 0].

(** The second callback is being removed while the first has run. *)
Definition removing : list Choice := first_alarm ++ [Invoke 0 true; RemoveCallback 1; Invoke 0 true; DropLock 0].

Example removal_waits :
  step (after (first_alarm ++ [Invoke 0 true; RemoveCallback 1])) Proceed = None /\
  caller (after removing) = Removing 1 /\
  exists s, step (after removing) Proceed = Some s /\ registry s = [0].
Proof. split; [vm_compute; reflexivity|]. split; [vm_compute; reflexivity|]. eexists. split; vm_compute; reflexivity. Qed.

Lemma removed_callback_is_silent_witness :
  exists s1 s2, step (after removing) Proceed = Some s1 /\
    run [AddCallback; Proceed; ReadFlag 0; Turn 0 1 1 ReceivedNothing] s1 = Some s2 /\
    registry s2 = [0; 2] /\ exists es, log s2 = log s1 ++ es /\ forall a, Ran 1 a ∉ es.
Proof.
  destruct (step (after removing) Proceed) as [s1|] eqn:H1; [|vm_compute in H1; discriminate H1].
  destruct (run [AddCallback; Proceed; ReadFlag 0; Turn 0 1 1 ReceivedNothing] s1) as [s2|] eqn:H2.
  2: { vm_compute in H1. injection H1 as <-. vm_compute in H2. discriminate H2. }
  exists s1, s2. split; [reflexivity|]. split; [exact H2|]. split.
  { vm_compute in H1. injection H1 as <-. vm_compute in H2. injection H2 as <-. reflexivity. }
  apply (removed_callback_is_silent ep0 (Some mac0) (after removing) 1 s1
    [AddCallback; Proceed; ReadFlag 0; Turn 0 1 1 ReceivedNothing] s2); [|vm_compute; reflexivity|vm_compute; reflexivity|exact H1|exact H2].
  apply (run_reachable _ _ removing (system_new ep0 (Some mac0))); [constructor|vm_compute; reflexivity].
Defined.

(** A stop in the middle of the alarm. *)
Definition stopping : list Choice := first_alarm ++ [Stop].

Lemma listener_stop_returns_witness :
  caller (after stopping) = Joining 0 /\
  (exists s', run [Invoke 0 true; Invoke 0 true; DropLock 0; ReadFlag 0] (after stopping) = Some s' /\
     caller s' = Joining 0 /\ exists ch s'', step s' ch = Some s'') /\
  (length [Invoke 0 true; Invoke 0 true; DropLock 0; ReadFlag 0] <= length (registry (after stopping)) + 4)%nat.
Proof.
  assert (Hc : caller (after stopping) = Joining 0) by (vm_compute; reflexivity).
  assert (Hr : reachable ep0 (Some mac0) (after stopping)).
  { apply (run_reachable _ _ stopping (system_new ep0 (Some mac0))); [constructor|vm_compute; reflexivity]. }
  destruct (listener_stop_returns ep0 (Some mac0) (after stopping) 0 Hr Hc) as [H _].
  destruct (run [Invoke 0 true; Invoke 0 true; DropLock 0; ReadFlag 0] (after stopping)) as [s'|] eqn:H2;
    [|vm_compute in H2; discriminate H2].
  destruct (H [Invoke 0 true; Invoke 0 true; DropLock 0; ReadFlag 0] s') as (H3 & H4 & H5);
    [repeat constructor; discriminate|exact H2|].
  split; [exact Hc|]. split; [exists s'; split; [reflexivity|split; [exact H4|exact H5]]|exact H3].
Defined.

Lemma callback_panic_is_final_witness :
  exists s1, step (after first_alarm) (Invoke 0 false) = Some s1 /\ flag s1 = true /\
    Forall (fun w => w = Gone) (workers s1).
Proof.
  destruct (workers (after first_alarm) !! 0%nat) as [[| | |cs a [|id rest]|]|] eqn:Hw;
    try (vm_compute in Hw; discriminate Hw).
  destruct (step (after first_alarm) (Invoke 0 false)) as [s1|] eqn:H1; [|vm_compute in H1; discriminate H1].
  destruct (callback_panic_is_final ep0 (Some mac0) (after first_alarm) 0 cs a id rest s1) as (H & H' & _);
    [|vm_compute; reflexivity|exact Hw|exact H1|exists s1; split; [reflexivity|split; [exact H|exact H']]].
  apply (run_reachable _ _ first_alarm (system_new ep0 (Some mac0))); [constructor|vm_compute; reflexivity].
Defined.

Lemma pass_is_schedule_witness :
  let s := after [AddCallback; Proceed; AddCallback; Proceed; Start None true] in
  exists l s', Forall (turn_of 0) l /\ run l s = Some s' /\ length (log s') = 4%nat.
Proof.
  intros s. destruct (total_Ok _ _ (pass_is_schedule 0 {| low := channel_new false; high_ch := channel_new true |} s
    0 0 (Received notification_frame) ltac:(vm_compute; reflexivity) ltac:(vm_compute; reflexivity)
    ltac:(vm_compute; reflexivity))) as (x & Hx & l & s' & H1 & H2 & _ & H3).
  exists l, s'. split; [exact H1|]. split; [exact H2|]. rewrite H3. vm_compute in Hx. injection Hx as <-. reflexivity.
Defined.
