(* ===== verification/Dcp.v ===== *)
(** * Discovery and configuration ([src/src/dcp.rs], discovery part of [src/src/pcap.rs])

    Frame builders and parsers of DCP, the aggregation of Identify responses,
    the discovery loop over scripted receives, and the choice of a source
    address. *)

From S2P Require Import Prelude Fmt Util.

#[local] Open Scope string_scope.
#[local] Open Scope list_scope.
#[local] Open Scope Z_scope.

Definition PROFINET_ETHERTYPE : Z := 0x8892.
Definition DCP_MULTICAST_MAC : list Z := [0x01; 0x0E; 0xCF; 0x00; 0x00; 0x00].
Definition DCP_IDENTIFY_REQUEST_FRAME_ID : Z := 0xFEFE.
Definition DCP_IDENTIFY_RESPONSE_FRAME_ID : Z := 0xFEFF.
Definition DCP_GET_SET_FRAME_ID : Z := 0xFEFD.
Definition DCP_SERVICE_ID_GET : Z := 0x03.
Definition DCP_SERVICE_ID_SET : Z := 0x04.
Definition DCP_SERVICE_ID_IDENTIFY : Z := 0x05.
Definition DCP_SERVICE_TYPE_REQUEST : Z := 0x00.
Definition DCP_SERVICE_TYPE_RESPONSE_SUCCESS : Z := 0x01.
Definition DCP_SERVICE_TYPE_RESPONSE_UNSUPPORTED : Z := 0x05.
Definition DCP_OPTION_IP : Z := 0x01.
Definition DCP_OPTION_DEVICE : Z := 0x02.
Definition DCP_OPTION_CONTROL : Z := 0x05.
Definition DCP_OPTION_ALL : Z := 0xFF.
Definition DCP_SUBOPTION_IP_PARAMETER : Z := 0x02.
Definition DCP_SUBOPTION_DEVICE_TYPE : Z := 0x01.
Definition DCP_SUBOPTION_DEVICE_NAME : Z := 0x02.
Definition DCP_SUBOPTION_DEVICE_ID : Z := 0x03.
Definition DCP_SUBOPTION_DEVICE_ROLE : Z := 0x04.
Definition DCP_SUBOPTION_CONTROL_SIGNAL : Z := 0x03.
Definition DCP_SUBOPTION_CONTROL_RESPONSE : Z := 0x04.
Definition DCP_SUBOPTION_CONTROL_RESET_FACTORY : Z := 0x05.
Definition DCP_SUBOPTION_CONTROL_RESET_TO_FACTORY : Z := 0x06.
Definition DCP_BLOCK_ERROR_OK : Z := 0x00.
Definition DCP_RESPONSE_DELAY : Z := 0x0080.

Definition RESET_QUALIFIER_APPLICATION_DATA : Z := 0x0002.
Definition RESET_QUALIFIER_APPLICATION_DATA_ALT : Z := 0x0003.
Definition RESET_QUALIFIER_COMMUNICATION_PARAM : Z := 0x0004.
Definition RESET_QUALIFIER_COMMUNICATION_PARAM_ALT : Z := 0x0005.
Definition RESET_QUALIFIER_ENGINEERING_PARAM : Z := 0x0006.
Definition RESET_QUALIFIER_ENGINEERING_PARAM_ALT : Z := 0x0007.
Definition RESET_QUALIFIER_ALL_STORED_DATA : Z := 0x0008.
Definition RESET_QUALIFIER_ALL_STORED_DATA_ALT : Z := 0x0009.
Definition RESET_QUALIFIER_ENGINEERING_PARAM_2 : Z := 0x000A.
Definition RESET_QUALIFIER_ENGINEERING_PARAM_2_ALT : Z := 0x000B.
Definition RESET_QUALIFIER_TO_FACTORY : Z := 0x0010.
Definition RESET_QUALIFIER_TO_FACTORY_ALT : Z := 0x0011.
Definition RESET_QUALIFIER_AND_RESTORE : Z := 0x0012.
Definition RESET_QUALIFIER_AND_RESTORE_ALT : Z := 0x0013.
Definition IP_BLOCK_INFO_NOT_SET : Z := 0x0000.
Definition IP_BLOCK_INFO_SET : Z := 0x0001.
Definition IP_BLOCK_INFO_SET_BY_DHCP : Z := 0x0002.
Definition IP_BLOCK_INFO_NOT_SET_CONFLICT : Z := 0x0080.
Definition IP_BLOCK_INFO_SET_CONFLICT : Z := 0x0081.
Definition IP_BLOCK_INFO_SET_BY_DHCP_CONFLICT : Z := 0x0082.

Definition reset_qualifier_name (q : Z) : string :=
  if (q =? RESET_QUALIFIER_APPLICATION_DATA) || (q =? RESET_QUALIFIER_APPLICATION_DATA_ALT)
  then "Reset application data"
  else if (q =? RESET_QUALIFIER_COMMUNICATION_PARAM) || (q =? RESET_QUALIFIER_COMMUNICATION_PARAM_ALT)
  then "Reset communication parameter"
  else if (q =? RESET_QUALIFIER_ENGINEERING_PARAM) || (q =? RESET_QUALIFIER_ENGINEERING_PARAM_ALT)
       || (q =? RESET_QUALIFIER_ENGINEERING_PARAM_2) || (q =? RESET_QUALIFIER_ENGINEERING_PARAM_2_ALT)
  then "Reset engineering parameter"
  else if (q =? RESET_QUALIFIER_ALL_STORED_DATA) || (q =? RESET_QUALIFIER_ALL_STORED_DATA_ALT)
  then "Reset all stored data"
  else if (q =? RESET_QUALIFIER_TO_FACTORY) || (q =? RESET_QUALIFIER_TO_FACTORY_ALT)
  then "Reset to factory values"
  else if (q =? RESET_QUALIFIER_AND_RESTORE) || (q =? RESET_QUALIFIER_AND_RESTORE_ALT)
  then "Reset and restore data"
  else "Unknown (0x" +:+ hexu 4 q +:+ ")".

Definition block_error_name (c : Z) : string :=
  if c =? 0x00 then "OK"
  else if c =? 0x01 then "Option not supported"
  else if c =? 0x02 then "Suboption not supported or no dataset available"
  else if c =? 0x03 then "Suboption not set"
  else if c =? 0x04 then "Resource error"
  else if c =? 0x05 then "SET not possible by local reasons"
  else if c =? 0x06 then "In operation, SET not possible"
  else "Unknown error (0x" +:+ hexu 2 c +:+ ")".

Definition ip_block_info_name (i : Z) : string :=
  if i =? IP_BLOCK_INFO_NOT_SET then "IP not set"
  else if i =? IP_BLOCK_INFO_SET then "IP set"
  else if i =? IP_BLOCK_INFO_SET_BY_DHCP then "IP set by DHCP"
  else if i =? IP_BLOCK_INFO_NOT_SET_CONFLICT then "IP not set (address conflict detected)"
  else if i =? IP_BLOCK_INFO_SET_CONFLICT then "IP set (address conflict detected)"
  else if i =? IP_BLOCK_INFO_SET_BY_DHCP_CONFLICT then "IP set by DHCP (address conflict detected)"
  else "Unknown (0x" +:+ hexu 4 i +:+ ")".

Definition ip_block_info_has_conflict (i : Z) : bool := negb (Z.land i 0x0080 =? 0).
Definition ip_block_info_is_dhcp (i : Z) : bool := negb (Z.land i 0x0002 =? 0).

(** ** Building frames *)

Definition eth_frame (dst src : list Z) (ethertype : Z) (p : list Z) : list Z :=
  dst ++ src ++ be16_bytes ethertype ++ p.

Definition dcp_header (frame_id service_id service_type xid resp length : Z) (p : list Z) : list Z :=
  be16_bytes frame_id ++ [service_id] ++ [service_type] ++ be32_bytes xid ++ be16_bytes resp
  ++ be16_bytes length ++ p.

Definition block_request (option suboption length : Z) (p : list Z) : list Z :=
  [option] ++ [suboption] ++ be16_bytes length ++ p.

Definition identify_all_request (src_mac : list Z) (xid : Z) : list Z :=
  let block := block_request DCP_OPTION_ALL DCP_OPTION_ALL 0 [] in
  eth_frame DCP_MULTICAST_MAC src_mac PROFINET_ETHERTYPE
    (dcp_header DCP_IDENTIFY_REQUEST_FRAME_ID DCP_SERVICE_ID_IDENTIFY DCP_SERVICE_TYPE_REQUEST xid
       DCP_RESPONSE_DELAY (as_u16 (len block)) block).

Definition set_block (option suboption qualifier : Z) (value : list Z) : list Z :=
  block_request option suboption (as_u16 (len value + 2)) (be16_bytes qualifier ++ value)
  ++ (if len value mod 2 =? 1 then [0x00] else []).

Definition set_request (src_mac dst_mac : list Z) (xid option suboption qualifier : Z)
    (value : list Z) : list Z :=
  let block := set_block option suboption qualifier value in
  eth_frame dst_mac src_mac PROFINET_ETHERTYPE
    (dcp_header DCP_GET_SET_FRAME_ID DCP_SERVICE_ID_SET DCP_SERVICE_TYPE_REQUEST xid 0
       (as_u16 (len block)) block).

Definition set_name_request_qualified (src_mac dst_mac : list Z) (xid : Z) (name : string)
    (permanent : bool) : list Z :=
  set_request src_mac dst_mac xid DCP_OPTION_DEVICE DCP_SUBOPTION_DEVICE_NAME
    (if permanent then 0x0001 else 0x0000) (str_bytes name).

Definition set_name_request (src_mac dst_mac : list Z) (xid : Z) (name : string) : list Z :=
  set_name_request_qualified src_mac dst_mac xid name false.

Definition set_ip_request (src_mac dst_mac : list Z) (xid : Z) (ip netmask gateway : list Z) : list Z :=
  set_request src_mac dst_mac xid DCP_OPTION_IP DCP_SUBOPTION_IP_PARAMETER 0x0000
    (ip ++ netmask ++ gateway).

Definition set_ip_request_qualified (src_mac dst_mac : list Z) (xid : Z) (ip netmask gateway : list Z)
    (permanent : bool) : list Z :=
  set_request src_mac dst_mac xid DCP_OPTION_IP DCP_SUBOPTION_IP_PARAMETER
    (if permanent then 0x0001 else 0x0000) (ip ++ netmask ++ gateway).

Definition get_request (src_mac dst_mac : list Z) (xid option suboption : Z) : list Z :=
  eth_frame dst_mac src_mac PROFINET_ETHERTYPE
    (dcp_header DCP_GET_SET_FRAME_ID DCP_SERVICE_ID_GET DCP_SERVICE_TYPE_REQUEST xid 0 2
       (block_request option suboption 0 [])).

Definition set_param_request (src_mac dst_mac : list Z) (xid option suboption : Z) (value : list Z)
    : list Z :=
  set_request src_mac dst_mac xid option suboption 0x0000 value.

Definition signal_request (src_mac dst_mac : list Z) (xid duration_ms : Z) : list Z :=
  set_request src_mac dst_mac xid DCP_OPTION_CONTROL DCP_SUBOPTION_CONTROL_SIGNAL 0x0001
    (be16_bytes (as_u16 (Z.max (duration_ms / 100) 1))).

Definition reset_request (src_mac dst_mac : list Z) (xid qualifier : Z) : list Z :=
  set_request src_mac dst_mac xid DCP_OPTION_CONTROL DCP_SUBOPTION_CONTROL_RESET_TO_FACTORY
    qualifier [].

Definition factory_reset_request (src_mac dst_mac : list Z) (xid : Z) : list Z :=
  set_request src_mac dst_mac xid DCP_OPTION_CONTROL DCP_SUBOPTION_CONTROL_RESET_FACTORY 0x0000 [].

(** ** Parsing *)

Definition dcp_payload (frame : list Z) : outcome (list Z) := strip_eth frame PROFINET_ETHERTYPE.

Definition parse_dcp_xid (frame : list Z) : outcome (option Z) :=
  let? p := ok_ (dcp_payload frame) in
  match p with
  | None => Ok None
  | Some p => if 8 <=? len p then let? x := rd_be32 p 4 in Ok (Some x) else Ok None
  end.

(** One block of a SET response. *)
Definition set_response_body (st : Z * list Z) : outcome (step (Z * list Z) Z) :=
  let '(remaining, blocks) := st in
  if 4 <? remaining then
    if len blocks <? 4 then Ok (Break DCP_BLOCK_ERROR_OK)
    else
      let? option := idx blocks 0 in
      let? suboption := idx blocks 1 in
      let? block_length := rd_be16 blocks 2 in
      let? block_payload := slice blocks 4 (Z.min (4 + block_length) (len blocks)) in
      if (option =? DCP_OPTION_CONTROL) && (suboption =? DCP_SUBOPTION_CONTROL_RESPONSE) then
        let n := len block_payload in
        let? code := (if n =? 0 then Ok DCP_BLOCK_ERROR_OK
                      else if (n =? 1) || (n =? 2) then idx block_payload 0
                      else idx block_payload 2) in
        Ok (Break code)
      else
        let block_len := 4 + block_length + (if block_length mod 2 =? 1 then 1 else 0) in
        let? rest := slice_from blocks (Z.min block_len (len blocks)) in
        Ok (Continue (remaining - block_len, rest))
  else Ok (Break DCP_BLOCK_ERROR_OK).

Definition set_response_blocks (length_ : Z) (blocks : list Z) : outcome Z :=
  loop (S (Z.to_nat length_)) set_response_body (length_, blocks).

Definition parse_set_response (frame : list Z) (expected_xid : Z) : outcome (option Z) :=
  let? p := dcp_payload frame in
  if len p <? 12 then Ok None
  else
    let? frame_id := rd_be16 p 0 in
    let? service_id := idx p 2 in
    let? service_type := idx p 3 in
    let? xid := rd_be32 p 4 in
    if negb (frame_id =? DCP_GET_SET_FRAME_ID) || negb (service_id =? DCP_SERVICE_ID_SET)
       || negb (xid =? expected_xid) then Ok None
    else if service_type =? DCP_SERVICE_TYPE_RESPONSE_UNSUPPORTED then
      Err "DCP SET: service not supported by device"
    else if negb (service_type =? DCP_SERVICE_TYPE_RESPONSE_SUCCESS) then Ok None
    else
      let? remaining := rd_be16 p 10 in
      let? blocks := slice_from p 12 in
      let? code := set_response_blocks remaining blocks in
      Ok (Some code).

(** The block walk GET and Identify responses share: header of a block with
    its payload behind the BlockInfo word, then the rest. *)
Record RespBlock := {
  b_option : Z; b_suboption : Z; b_info : list Z; b_length : Z; b_payload : list Z;
}.

Definition next_block (blocks : list Z) : outcome (RespBlock * list Z) :=
  let? option := idx blocks 0 in
  let? suboption := idx blocks 1 in
  let? block_length := rd_be16 blocks 2 in
  let payload_len := sat_sub block_length 2 in
  let? p := slice blocks 6 (Z.min (6 + payload_len) (len blocks)) in
  let? info := slice blocks 4 6 in
  let block_len := block_length + (if block_length mod 2 =? 1 then 1 else 0) in
  let? rest := slice_from blocks (Z.min (4 + block_len) (len blocks)) in
  Ok ({| b_option := option; b_suboption := suboption; b_info := info; b_length := 4 + block_len;
         b_payload := p |}, rest).

Definition get_response_body (opt sub : Z) (st : Z * list Z)
    : outcome (step (Z * list Z) (option (list Z))) :=
  let '(length_, blocks) := st in
  if 6 <? length_ then
    if len blocks <? 6 then Ok (Break None)
    else
      let? r := next_block blocks in
      let '(b, rest) := r in
      if (b_option b =? opt) && (b_suboption b =? sub) then Ok (Break (Some (b_payload b)))
      else Ok (Continue (length_ - b_length b, rest))
  else Ok (Break None).

Definition parse_get_response (frame : list Z) (opt sub expected_xid : Z)
    : outcome (option (list Z)) :=
  let? p := dcp_payload frame in
  if len p <? 12 then Err ("payload too short for DCP header: " +:+ dec (len p) +:+ " bytes")
  else
    let? frame_id := rd_be16 p 0 in
    let? xid := rd_be32 p 4 in
    if negb (frame_id =? DCP_GET_SET_FRAME_ID) || negb (xid =? expected_xid) then Ok None
    else
      let? service_type := idx p 3 in
      if negb (service_type =? DCP_SERVICE_TYPE_RESPONSE_SUCCESS) then
        Err ("not a DCP response: service_type 0x" +:+ hexu 2 service_type)
      else
        let? length_ := rd_be16 p 10 in
        let? blocks := slice_from p 12 in
        loop (S (Z.to_nat length_)) (get_response_body opt sub) (length_, blocks).

Record DcpDevice := {
  mac : list Z;
  name : string;
  device_type : string;
  ip : list Z;
  netmask : list Z;
  gateway : list Z;
  vendor_id : Z;
  device_id : Z;
  role : Z;
  ip_block_info : option Z;
}.

Definition default_device (src : list Z) : DcpDevice :=
  {| mac := src; name := EmptyString; device_type := EmptyString; ip := rep 4 0; netmask := rep 4 0;
     gateway := rep 4 0; vendor_id := 0; device_id := 0; role := 0; ip_block_info := None |}.

Definition with_device_type v d :=
  {| mac := mac d; name := name d; device_type := v; ip := ip d; netmask := netmask d;
     gateway := gateway d; vendor_id := vendor_id d; device_id := device_id d; role := role d;
     ip_block_info := ip_block_info d |}.
Definition with_name v d :=
  {| mac := mac d; name := v; device_type := device_type d; ip := ip d; netmask := netmask d;
     gateway := gateway d; vendor_id := vendor_id d; device_id := device_id d; role := role d;
     ip_block_info := ip_block_info d |}.
Definition with_ip info a n g d :=
  {| mac := mac d; name := name d; device_type := device_type d; ip := a; netmask := n;
     gateway := g; vendor_id := vendor_id d; device_id := device_id d; role := role d;
     ip_block_info := Some info |}.
Definition with_ids v i d :=
  {| mac := mac d; name := name d; device_type := device_type d; ip := ip d; netmask := netmask d;
     gateway := gateway d; vendor_id := v; device_id := i; role := role d;
     ip_block_info := ip_block_info d |}.
Definition with_role v d :=
  {| mac := mac d; name := name d; device_type := device_type d; ip := ip d; netmask := netmask d;
     gateway := gateway d; vendor_id := vendor_id d; device_id := device_id d; role := v;
     ip_block_info := ip_block_info d |}.

(** Everything up to the last byte that is not zero. *)
Fixpoint trim_zeros (l : list Z) : list Z :=
  match l with
  | [] => []
  | b :: l =>
      match trim_zeros l with
      | [] => if b =? 0 then [] else [b]
      | t => b :: t
      end
  end.

Definition apply_block (b : RespBlock) (d : DcpDevice) : outcome DcpDevice :=
  let p := b_payload b in
  if (b_option b =? DCP_OPTION_DEVICE) && (b_suboption b =? DCP_SUBOPTION_DEVICE_TYPE) then
    Ok (with_device_type (from_utf8_lossy (trim_zeros p)) d)
  else if (b_option b =? DCP_OPTION_DEVICE) && (b_suboption b =? DCP_SUBOPTION_DEVICE_NAME) then
    Ok (with_name (from_utf8_lossy p) d)
  else if (b_option b =? DCP_OPTION_IP) && (b_suboption b =? DCP_SUBOPTION_IP_PARAMETER)
          && (12 <=? len p) then
    let? info := rd_be16 (b_info b) 0 in
    let? a := slice p 0 4 in
    let? n := slice p 4 8 in
    let? g := slice p 8 12 in
    Ok (with_ip info a n g d)
  else if (b_option b =? DCP_OPTION_DEVICE) && (b_suboption b =? DCP_SUBOPTION_DEVICE_ID)
          && (4 <=? len p) then
    let? v := rd_be16 p 0 in
    let? i := rd_be16 p 2 in
    Ok (with_ids v i d)
  else if (b_option b =? DCP_OPTION_DEVICE) && (b_suboption b =? DCP_SUBOPTION_DEVICE_ROLE)
          && negb (len p =? 0) then
    let? r := idx p 0 in Ok (with_role r d)
  else Ok d.

Definition identify_body (st : (Z * list Z) * DcpDevice)
    : outcome (step ((Z * list Z) * DcpDevice) DcpDevice) :=
  let '((length_, blocks), device) := st in
  if 6 <? length_ then
    if len blocks <? 6 then Ok (Break device)
    else
      let? r := next_block blocks in
      let '(b, rest) := r in
      let? device := apply_block b device in
      Ok (Continue ((length_ - b_length b, rest), device))
  else Ok (Break device).

Definition parse_identify_response (frame : list Z) : outcome DcpDevice :=
  if len frame <? 14 then
    Err ("frame too short for Ethernet header: " +:+ dec (len frame) +:+ " bytes")
  else
    let? src := slice frame 6 12 in
    let? p := dcp_payload frame in
    if len p <? 12 then Err ("payload too short for DCP header: " +:+ dec (len p) +:+ " bytes")
    else
      let? frame_id := rd_be16 p 0 in
      if negb (frame_id =? DCP_IDENTIFY_RESPONSE_FRAME_ID) then
        Err ("not a DCP Identify response: frame_id 0x" +:+ hexu 4 frame_id)
      else
        let? service_type := idx p 3 in
        if negb (service_type =? DCP_SERVICE_TYPE_RESPONSE_SUCCESS) then
          Err ("not a DCP response: service_type 0x" +:+ hexu 2 service_type)
        else
          let? length_ := rd_be16 p 10 in
          let? blocks := slice_from p 12 in
          loop (S (Z.to_nat length_)) identify_body ((length_, blocks), default_device src).

(** ** Discovery ([pcap.rs]) *)

(** [Some(existing) => *existing = device, None => devices.push(device)]. *)
Fixpoint upsert (device : DcpDevice) (devices : list DcpDevice) : list DcpDevice :=
  match devices with
  | [] => [device]
  | d :: devices =>
      if bool_decide (mac d = mac device) then device :: devices else d :: upsert device devices
  end.

Definition aggregate_one (my_mac : list Z) (expected_xid : Z) (frame : list Z)
    (devices : list DcpDevice) : outcome (list DcpDevice) :=
  if len frame <? 14 then Ok devices
  else
    let? dst := slice frame 0 6 in
    if negb (bool_decide (dst = my_mac)) then Ok devices
    else
      let? xid := parse_dcp_xid frame in
      if negb (bool_decide (xid = Some expected_xid)) then Ok devices
      else
        let? device := ok_ (parse_identify_response frame) in
        match device with
        | None => Ok devices
        | Some device => Ok (upsert device devices)
        end.

Definition aggregate_responses (frames : list (list Z)) (my_mac : list Z) (expected_xid : Z)
    : outcome (list DcpDevice) :=
  for_each frames (aggregate_one my_mac expected_xid) [].

(** What the socket's [recv] returned before the deadline. *)
Inductive RecvResult := RecvFrame (f : list Z) | RecvTimeout | RecvError (e : string).

(** The receive loop; the end of the script is the deadline. *)
Fixpoint discover_loop (my_mac : list Z) (xid : Z) (done_ : list DcpDevice -> bool)
    (script : list RecvResult) (frames : list (list Z)) : outcome (list DcpDevice) :=
  match script with
  | [] | RecvTimeout :: _ => aggregate_responses frames my_mac xid
  | RecvError e :: _ => Err e
  | RecvFrame f :: script =>
      let frames := frames ++ [f] in
      let? devices := aggregate_responses frames my_mac xid in
      if done_ devices then Ok devices else discover_loop my_mac xid done_ script frames
  end.

(** After the socket is open and the MAC and the xid are known; [send] is what
    sending the Identify request returned. *)
Definition discover_until (my_mac : list Z) (xid : Z) (send : option string)
    (done_ : list DcpDevice -> bool) (script : list RecvResult) : outcome (list DcpDevice) :=
  match send with
  | Some e => Err e
  | None => discover_loop my_mac xid done_ script []
  end.

Definition discover my_mac xid send script := discover_until my_mac xid send (fun _ => false) script.

(** ** Interfaces *)

Definition bpf_filter (ethertype : Z) : string :=
  "ether proto 0x" +:+ hexl 4 ethertype +:+ " or (vlan and ether proto 0x" +:+ hexl 4 ethertype +:+ ")".

Definition mac_lookup_names (iface : string) : list string :=
  iface :: match strip_prefix "\Device\NPF_" iface with Some guid => [guid] | None => [] end.

Inductive IpAddr := V4 (octets : list Z) | V6.
Record Address := { addr : IpAddr; a_netmask : option IpAddr }.
Record SourceAddress := { s_ip : list Z; reaches_target : bool }.

Definition same_network (a b mask : list Z) : outcome bool :=
  let at_ i := let? x := idx a i in let? y := idx b i in let? m := idx mask i in
               Ok (Z.land x m =? Z.land y m) in
  let? r0 := at_ 0 in
  if negb r0 then Ok false
  else let? r1 := at_ 1 in
       if negb r1 then Ok false
       else let? r2 := at_ 2 in if negb r2 then Ok false else at_ 3.

Definition v4_addresses (addresses : list Address) : list (list Z * option (list Z)) :=
  omap (fun a => match addr a with
                 | V4 o => Some (o, match a_netmask a with Some (V4 m) => Some m | _ => None end)
                 | V6 => None
                 end) addresses.

Fixpoint find_reaching (dst : list Z) (l : list (list Z * option (list Z))) : outcome (option (list Z)) :=
  match l with
  | [] => Ok None
  | (ip, Some m) :: l =>
      if negb (bool_decide (m = [0; 0; 0; 0])) then
        let? same := same_network ip dst m in
        if same then Ok (Some ip) else find_reaching dst l
      else find_reaching dst l
  | (_, None) :: l => find_reaching dst l
  end.

Definition pick_source_ipv4 (addresses : list Address) (dst : list Z) : outcome (option SourceAddress) :=
  let v4 := v4_addresses addresses in
  let? found := find_reaching dst v4 in
  match found with
  | Some ip => Ok (Some {| s_ip := ip; reaches_target := true |})
  | None => Ok ((fun p => {| s_ip := fst p; reaches_target := false |}) <$> head v4)
  end.

(** ** Totality *)

Lemma slice_bytes d a b r : bytes_ok d -> slice d a b = Ok r -> bytes_ok r.
Proof. intros Hd. by apply slice_Forall. Qed.

Lemma dcp_payload_wp frame E :
  bytes_ok frame -> (forall e, E e) -> wp (dcp_payload frame) bytes_ok E.
Proof.
  intros Hf HE. eapply wp_mono; [by apply (strip_eth_wp frame _ E)| |done].
  intros p (at_ & _ & _ & Hs). by eapply slice_bytes.
Qed.

Lemma next_block_wp blocks :
  bytes_ok blocks -> 6 <= len blocks ->
  total (next_block blocks) (fun r => 4 <= b_length (fst r) /\ len (b_info (fst r)) = 2 /\
                                      bytes_ok (b_info (fst r)) /\ bytes_ok (b_payload (fst r)) /\ bytes_ok (snd r)).
Proof.
  intros Hb Hl. unfold next_block, total. do 6 wp_step. specialize (H1 Hb). unfold u16_ok, sat_sub in *.
  apply wp_bind. apply wp_slice; [lia|lia|]. intros p Hp Hpl.
  apply wp_bind. apply wp_slice; [lia|lia|]. intros i Hi Hil.
  apply wp_bind. apply wp_slice_from; [destruct (_ =? 1); lia|]. intros r Hr Hrl.
  cbn [wp fst snd b_length b_info b_payload]. split_and!.
  - destruct (_ =? 1); lia.
  - lia.
  - by eapply slice_bytes.
  - by eapply slice_bytes.
  - by eapply slice_bytes.
Qed.

(** The widths of a device's fields: six octets of MAC, four of each address,
    16-bit ids and block info, a role of one byte. *)
Record device_typed (d : DcpDevice) : Prop := {
  dt_mac : octets 6 (mac d);
  dt_ip : octets 4 (ip d);
  dt_netmask : octets 4 (netmask d);
  dt_gateway : octets 4 (gateway d);
  dt_vendor : u16_ok (vendor_id d);
  dt_device : u16_ok (device_id d);
  dt_role : byte_ok (role d);
  dt_info : from_option u16_ok True (ip_block_info d);
}.

Lemma octets_slice n a d r : bytes_ok d -> slice d a (a + n) = Ok r -> len r = a + n - a -> octets n r.
Proof. intros Hd Hs Hl. split; [lia|]. by eapply slice_bytes. Qed.

Lemma default_typed src : octets 6 src -> device_typed (default_device src).
Proof.
  intros Hs. assert (Hz : octets 4 (rep 4 0)) by (split; [done|]; apply Forall_replicate; unfold byte_ok; lia).
  split; try done; cbn; unfold u16_ok, byte_ok; lia.
Qed.

Lemma apply_block_typed b d : len (b_info b) = 2 -> bytes_ok (b_info b) -> bytes_ok (b_payload b) -> device_typed d ->
  total (apply_block b d) device_typed.
Proof.
  intros Hi Hib Hp [D1 D2 D3 D4 D5 D6 D7 D8]. unfold apply_block, total.
  destruct (_ && _); [by split|]. destruct (_ && _); [by split|].
  destruct ((_ && _) && (12 <=? _)) eqn:E12.
  { apply andb_true_iff in E12 as [_ E12]. do 2 wp_step.
    apply wp_bind, wp_slice; [lia..|]. intros a Ha La. apply wp_bind, wp_slice; [lia..|]. intros n Hn Ln.
    apply wp_bind, wp_slice; [lia..|]. intros g Hg Lg.
    split; try done; cbn; [eapply (octets_slice 4 0)|eapply (octets_slice 4 4)|eapply (octets_slice 4 8)|]; eauto. }
  destruct ((_ && _) && (4 <=? _)) eqn:E4.
  { apply andb_true_iff in E4 as [_ E4]. do 4 wp_step. split; try done; cbn; auto. }
  destruct ((_ && _) && negb _) eqn:E1; [|by split].
  apply andb_true_iff in E1 as [_ E1]. do 2 wp_step. split; try done; cbn; auto.
Qed.

Lemma set_response_total remaining blocks :
  bytes_ok blocks -> total (set_response_blocks remaining blocks) (fun _ => True).
Proof.
  intros Hb. unfold set_response_blocks, total.
  apply wp_loop with (I := fun st => bytes_ok (snd st)) (m := fun st => Z.to_nat (fst st)); [|done|cbn; lia].
  intros [r bl] Hbl. cbn [fst snd] in *. unfold set_response_body.
  destruct (4 <? r) eqn:Hr; [|done]. destruct (len bl <? 4) eqn:Hl; [done|].
  do 6 wp_step. specialize (H1 Hbl). unfold u16_ok in H1.
  apply wp_bind. apply wp_slice; [lia|lia|]. intros p Hp Hpl.
  destruct (_ && _).
  - destruct (len p =? 0) eqn:E0; [done|]. destruct ((len p =? 1) || (len p =? 2)) eqn:E1; wp_auto; auto; lia.
  - apply wp_bind. apply wp_slice_from; [destruct (_ =? 1); lia|]. intros rest Hrest _.
    cbn [wp fst snd]. split; [by eapply slice_bytes|]. destruct (_ =? 1); lia.
Qed.

Lemma get_walk_total o s length_ blocks :
  bytes_ok blocks ->
  total (loop (S (Z.to_nat length_)) (get_response_body o s) (length_, blocks)) (fun _ => True).
Proof.
  intros Hb. unfold total.
  apply wp_loop with (I := fun st => bytes_ok (snd st)) (m := fun st => Z.to_nat (fst st)); [|done|cbn; lia].
  intros [r bl] Hbl. cbn [fst snd] in *. unfold get_response_body.
  destruct (6 <? r) eqn:Hr; [|done]. destruct (len bl <? 6) eqn:Hl; [done|].
  apply wp_bind. eapply wp_mono; [apply next_block_wp; [done|lia]| |done].
  intros [b rest] (H1 & _ & _ & _ & H4). cbn [fst snd] in *. destruct (_ && _); [done|].
  cbn [wp fst snd]. split; [done|lia].
Qed.

Lemma identify_walk_typed length_ blocks d :
  bytes_ok blocks -> device_typed d ->
  total (loop (S (Z.to_nat length_)) identify_body ((length_, blocks), d)) device_typed.
Proof.
  intros Hb Hd. unfold total.
  apply wp_loop with (I := fun st => bytes_ok (snd (fst st)) /\ device_typed (snd st))
    (m := fun st => Z.to_nat (fst (fst st))); [|done|cbn; lia].
  intros [[r bl] dv] [Hbl Hdv]. cbn [fst snd] in *. unfold identify_body.
  destruct (6 <? r) eqn:Hr; [|done]. destruct (len bl <? 6) eqn:Hl; [done|].
  apply wp_bind. eapply wp_mono; [apply next_block_wp; [done|lia]| |done].
  intros [b rest] (H1 & H2 & H3 & H4 & H5). cbn [fst snd] in *.
  apply wp_bind. eapply wp_mono; [by apply apply_block_typed| |done].
  intros dv' Hdv'. cbn [wp fst snd]. split; [done|lia].
Qed.

Lemma parse_dcp_xid_total f : bytes_ok f -> total (parse_dcp_xid f) (fun _ => True).
Proof.
  intros Hf. unfold parse_dcp_xid, total. apply wp_bind.
  assert (W : safe (dcp_payload f)) by (eapply wp_safe; by apply (dcp_payload_wp f (fun _ => True))).
  eapply wp_mono; [by apply safe_ok_| |done]. intros [p|] _; wp_auto; auto.
Qed.

Lemma parse_set_response_safe f x : bytes_ok f -> safe (parse_set_response f x).
Proof.
  intros Hf. unfold parse_set_response, safe. apply wp_bind.
  eapply wp_mono; [by apply (dcp_payload_wp f (fun _ => True))| |done]. intros p Hp.
  destruct (len p <? 12) eqn:Hl; [done|]. do 8 wp_step.
  repeat (match goal with |- wp (if ?b then _ else _) _ _ => destruct b; [done|] end).
  do 2 wp_step. wp_step. apply wp_slice_from; [lia|]. intros bl Hbl _.
  apply wp_bind. eapply wp_mono; [apply set_response_total; by eapply slice_bytes| |done]. done.
Qed.

Lemma parse_get_response_safe f o s x : bytes_ok f -> safe (parse_get_response f o s x).
Proof.
  intros Hf. unfold parse_get_response, safe. apply wp_bind.
  eapply wp_mono; [by apply (dcp_payload_wp f (fun _ => True))| |done]. intros p Hp.
  destruct (len p <? 12) eqn:Hl; [done|]. do 4 wp_step. destruct (_ || _); [done|].
  do 2 wp_step. destruct (negb _); [done|].
  do 2 wp_step. wp_step. apply wp_slice_from; [lia|]. intros bl Hbl _.
  eapply wp_mono; [apply get_walk_total; by eapply slice_bytes|done|done].
Qed.

Lemma parse_identify_typed f : bytes_ok f -> wp (parse_identify_response f) device_typed (fun _ => True).
Proof.
  intros Hf. unfold parse_identify_response. destruct (len f <? 14) eqn:Hl0; [done|].
  wp_step. apply wp_slice; [lia|lia|]. intros src Hs Hsl. apply wp_bind.
  eapply wp_mono; [by apply (dcp_payload_wp f (fun _ => True))| |done]. intros p Hp.
  destruct (len p <? 12) eqn:Hl; [done|]. do 2 wp_step. destruct (negb _); [done|].
  do 2 wp_step. destruct (negb _); [done|].
  do 2 wp_step. wp_step. apply wp_slice_from; [lia|]. intros bl Hbl _.
  eapply wp_mono; [apply identify_walk_typed; [by eapply slice_bytes|]|done|done].
  apply default_typed. by apply (octets_slice 6 6 f).
Qed.

Lemma parse_identify_safe f : bytes_ok f -> safe (parse_identify_response f).
Proof. intros Hf. eapply wp_safe. by apply parse_identify_typed. Qed.

(** ** Frames of a device, as the wire carries them *)

(** A response block: option, suboption, BlockInfo and payload. *)
Record WireBlock := { w_option : Z; w_suboption : Z; w_info : Z; w_payload : list Z }.

Definition pad2 (l : list Z) : list Z := if len l mod 2 =? 1 then [0] else [].

Definition wire_block (b : WireBlock) : list Z :=
  w_option b :: w_suboption b :: be16_bytes (len (w_payload b) + 2) ++ be16_bytes (w_info b)
  ++ w_payload b ++ pad2 (w_payload b).

Definition wire_blocks (l : list WireBlock) : list Z := mjoin (wire_block <$> l).

Definition wire_ok (b : WireBlock) : Prop := u16_ok (w_info b) /\ len (w_payload b) + 2 < 65536.

Definition dcp_response (dst src : list Z) (tcis : list Z) (frame_id service xid : Z)
    (blocks trailer : list Z) : list Z :=
  (dst ++ src) ++ tags tcis ++ [0x88; 0x92] ++ be16_bytes frame_id ++ [service] ++ [0x01] ++ be32_bytes xid
  ++ be16_bytes 0 ++ be16_bytes (len blocks) ++ blocks ++ trailer.

Definition resp_of (b : WireBlock) : RespBlock :=
  {| b_option := w_option b; b_suboption := w_suboption b; b_info := be16_bytes (w_info b);
     b_length := len (wire_block b); b_payload := w_payload b |}.

Lemma len_pad2 l : len (pad2 l) = len l mod 2.
Proof. unfold pad2. destruct (len l mod 2 =? 1) eqn:E; cbn; zdiv. Qed.

Lemma len_wire_block b : len (wire_block b) = 6 + len (w_payload b) + len (w_payload b) mod 2.
Proof. unfold wire_block. pose proof (len_pad2 (w_payload b)). simpl length. rewrite !length_app. simpl. lia. Qed.

Lemma next_block_wire b rest :
  wire_ok b -> next_block (wire_block b ++ rest) = Ok (resp_of b, rest).
Proof.
  intros [Hi Hl]. unfold next_block, resp_of. rewrite len_wire_block. unfold wire_block.
  set (L := len (w_payload b) + 2) in *. set (p := w_payload b) in *.
  assert (Hu : u16_ok L) by (unfold u16_ok; lia).
  unfold be16_bytes. cbn [app]. rewrite <- app_assoc.
  do 3 lit_step. pose proof (len_pad2 p) as Hpad.
  assert (Hlen : len (w_option b :: w_suboption b :: L / 256 mod 256 :: L mod 256 :: w_info b / 256 mod 256
     :: w_info b mod 256 :: p ++ pad2 p ++ rest) = 6 + len p + len p mod 2 + len rest).
  { simpl length. rewrite !length_app. lia. }
  unfold sat_sub. rewrite Hlen.
  eapply bind_step.
  { apply (slice_at _ [w_option b; w_suboption b; L / 256 mod 256; L mod 256; w_info b / 256 mod 256; w_info b mod 256]
             p (pad2 p ++ rest)); [done|done|]. simpl length. zdiv. }
  eapply bind_step.
  { apply (slice_at _ [w_option b; w_suboption b; L / 256 mod 256; L mod 256]
             [w_info b / 256 mod 256; w_info b mod 256] (p ++ pad2 p ++ rest)); done. }
  assert (Hm : L mod 2 = len p mod 2) by zdiv.
  assert (Hlen2 : 4 + (L + (if L mod 2 =? 1 then 1 else 0)) = 6 + len p + len p mod 2).
  { rewrite Hm. destruct (len p mod 2 =? 1) eqn:E; zdiv. }
  rewrite Hlen2. eapply bind_step.
  { apply (slice_from_at _ (w_option b :: w_suboption b :: L / 256 mod 256 :: L mod 256 :: w_info b / 256 mod 256
     :: w_info b mod 256 :: p ++ pad2 p) rest); [cbn [app]; by rewrite <- app_assoc|].
    simpl length. rewrite length_app. lia. }
  done.
Qed.

(** The walk of an Identify response visits exactly the blocks, provided the
    last one has a payload. *)
Lemma identify_walk l : forall fuel d trailer,
  Forall wire_ok l -> (forall b, last l = Some b -> w_payload b <> []) ->
  (Z.to_nat (len (wire_blocks l)) < fuel)%nat ->
  loop fuel identify_body ((len (wire_blocks l), wire_blocks l ++ trailer), d)
  = for_each (resp_of <$> l) apply_block d.
Proof.
  induction l as [|b l IH]; intros fuel d trailer Hw Hlast Hf; (destruct fuel as [|fuel]; [lia|]).
  - done.
  - inversion Hw as [|? ? Hb Hl]; subst. unfold wire_blocks in *. cbn [fmap list_fmap] in *.
    change (mjoin (wire_block b :: (wire_block <$> l))) with (wire_block b ++ mjoin (wire_block <$> l)) in *.
    pose proof (len_wire_block b) as Hlb. rewrite length_app in *.
    assert (Hne : 6 < len (wire_block b) + len (mjoin (wire_block <$> l))).
    { destruct l as [|b' l'].
      - specialize (Hlast b eq_refl). destruct (w_payload b) eqn:E; [done|]. simpl length in *. zdiv.
      - change (mjoin (wire_block <$> b' :: l')) with (wire_block b' ++ mjoin (wire_block <$> l')).
        rewrite length_app. pose proof (len_wire_block b'). zdiv. }
    rewrite loop_S. unfold identify_body at 1. rewrite Nat2Z.inj_add.
    replace (6 <? _) with true by lia. rewrite <- app_assoc.
    replace (len (wire_block b ++ _) <? 6) with false by (symmetry; apply Z.ltb_ge; rewrite length_app; zdiv).
    rewrite next_block_wire by done. cbn [bind for_each fmap list_fmap].
    destruct (apply_block (resp_of b) d) as [d'| | |]; try done. cbn [bind b_length resp_of].
    replace (len (wire_block b) + len (mjoin (wire_block <$> l)) - len (wire_block b))
      with (len (mjoin (wire_block <$> l))) by lia.
    apply IH; [done| |zdiv]. intros b' Hb'. apply Hlast. destruct l; [done|]. exact Hb'.
Qed.

(** The walk of a GET response finds the first block asked for, likewise. *)
Lemma get_walk o s l : forall fuel trailer,
  Forall wire_ok l -> (forall b, last l = Some b -> w_payload b <> []) ->
  (Z.to_nat (len (wire_blocks l)) < fuel)%nat ->
  loop fuel (get_response_body o s) (len (wire_blocks l), wire_blocks l ++ trailer)
  = Ok (w_payload <$> head (filter (fun b => w_option b = o /\ w_suboption b = s) l)).
Proof.
  induction l as [|b l IH]; intros fuel trailer Hw Hlast Hf; (destruct fuel as [|fuel]; [lia|]).
  - done.
  - inversion Hw as [|? ? Hb Hl]; subst. unfold wire_blocks in *. cbn [fmap list_fmap] in *.
    change (mjoin (wire_block b :: (wire_block <$> l))) with (wire_block b ++ mjoin (wire_block <$> l)) in *.
    pose proof (len_wire_block b) as Hlb. rewrite length_app in *.
    assert (Hne : 6 < len (wire_block b) + len (mjoin (wire_block <$> l))).
    { destruct l as [|b' l'].
      - specialize (Hlast b eq_refl). destruct (w_payload b) eqn:E; [done|]. simpl length in *. zdiv.
      - change (mjoin (wire_block <$> b' :: l')) with (wire_block b' ++ mjoin (wire_block <$> l')).
        rewrite length_app. pose proof (len_wire_block b'). zdiv. }
    rewrite loop_S. unfold get_response_body at 1. rewrite Nat2Z.inj_add.
    replace (6 <? _) with true by lia. rewrite <- app_assoc.
    replace (len (wire_block b ++ _) <? 6) with false by (symmetry; apply Z.ltb_ge; rewrite length_app; zdiv).
    rewrite next_block_wire by done. cbn [bind b_length resp_of b_option b_suboption b_payload].
    destruct ((w_option b =? o) && (w_suboption b =? s)) eqn:E.
    + rewrite filter_cons_True by lia. done.
    + rewrite filter_cons_False by lia.
      replace (len (wire_block b) + len (mjoin (wire_block <$> l)) - len (wire_block b))
        with (len (mjoin (wire_block <$> l))) by lia.
      apply IH; [done| |zdiv]. intros b' Hb'. apply Hlast. destruct l; [done|]. exact Hb'.
Qed.

Lemma strip_eth_tagged addr tcis p :
  len addr = 12 -> strip_eth (addr ++ tags tcis ++ 0x88 :: 0x92 :: p) PROFINET_ETHERTYPE = Ok p.
Proof.
  intros Ha. destruct (tagged_frame addr tcis 0x88 0x92 p Ha eq_refl) as (Hlen & Hv & Hend & Hp).
  set (frame := addr ++ _) in *. unfold strip_eth. replace (len frame <? 14) with false by lia.
  rewrite (skip_vlan_eq _ _ Hv). cbn [bind]. replace (len frame <? _) with false by lia.
  rewrite Hend. cbn [bind]. change (negb (be16 0x88 0x92 =? PROFINET_ETHERTYPE)) with false. cbv iota.
  by replace (12 + 4 * len tcis + 2) with (14 + 4 * len tcis) by lia.
Qed.

Lemma dcp_header_reads frame_id sid sty xid resp length_ p :
  u16_ok frame_id -> u32_ok xid -> u16_ok length_ ->
  let h := dcp_header frame_id sid sty xid resp length_ p in
  len h = 12 + len p /\ rd_be16 h 0 = Ok frame_id /\ idx h 2 = Ok sid /\ idx h 3 = Ok sty /\
  rd_be32 h 4 = Ok xid /\ rd_be16 h 10 = Ok length_ /\ slice_from h 12 = Ok p.
Proof.
  intros Hf Hx Hl h. unfold h, dcp_header, be16_bytes, be32_bytes. cbn [app].
  split_and!; try lit_read. simpl length. lia.
Qed.

(** ** Properties *)

(** The parsers of DCP return a value or an error on every byte string:
    no read is out of range and each block walk ends within the announced
    length. *)
Theorem dcp_parsers_total f o s x :
  bytes_ok f ->
  total (parse_dcp_xid f) (fun _ => True) /\ safe (parse_set_response f x) /\
  safe (parse_get_response f o s x) /\ safe (parse_identify_response f).
Proof.
  intros Hf. split_and!.
  - by apply parse_dcp_xid_total.
  - by apply parse_set_response_safe.
  - by apply parse_get_response_safe.
  - by apply parse_identify_safe.
Qed.

Example dcp_parsers_total_witness : safe (parse_identify_response (rep 60 7)).
Proof.
  refine (proj2 (proj2 (proj2 (dcp_parsers_total (rep 60 7) 1 2 3 _)))).
  apply Forall_replicate. unfold byte_ok. lia.
Defined.

(** The blocks a device describes itself with. *)
Definition device_blocks (d : DcpDevice) (dname dtype : list Z) (info : Z) : list WireBlock :=
  [ {| w_option := DCP_OPTION_DEVICE; w_suboption := DCP_SUBOPTION_DEVICE_TYPE; w_info := 0; w_payload := dtype |};
    {| w_option := DCP_OPTION_DEVICE; w_suboption := DCP_SUBOPTION_DEVICE_NAME; w_info := 0; w_payload := dname |};
    {| w_option := DCP_OPTION_DEVICE; w_suboption := DCP_SUBOPTION_DEVICE_ID; w_info := 0;
       w_payload := be16_bytes (vendor_id d) ++ be16_bytes (device_id d) |};
    {| w_option := DCP_OPTION_DEVICE; w_suboption := DCP_SUBOPTION_DEVICE_ROLE; w_info := 0; w_payload := [role d; 0] |};
    {| w_option := DCP_OPTION_IP; w_suboption := DCP_SUBOPTION_IP_PARAMETER; w_info := info;
       w_payload := ip d ++ netmask d ++ gateway d |} ].

(** Blocks that say nothing an Identify response is asked for. *)
Definition foreign (b : WireBlock) : Prop :=
  (w_option b, w_suboption b) ∉
    [(DCP_OPTION_DEVICE, DCP_SUBOPTION_DEVICE_TYPE); (DCP_OPTION_DEVICE, DCP_SUBOPTION_DEVICE_NAME);
     (DCP_OPTION_DEVICE, DCP_SUBOPTION_DEVICE_ID); (DCP_OPTION_DEVICE, DCP_SUBOPTION_DEVICE_ROLE);
     (DCP_OPTION_IP, DCP_SUBOPTION_IP_PARAMETER)].

(** What a block does to the device being read. *)
Definition sets (b : WireBlock) (f : DcpDevice -> DcpDevice) : Prop :=
  forall d, apply_block (resp_of b) d = Ok (f d).

Lemma foreign_sets b : foreign b -> sets b (fun d => d).
Proof.
  unfold foreign. rewrite !not_elem_of_cons. intros (H1 & H2 & H3 & H4 & H5 & _) d.
  unfold apply_block. cbn [resp_of b_option b_suboption].
  assert (Hk : forall o s, (w_option b, w_suboption b) <> (o, s) -> (w_option b =? o) && (w_suboption b =? s) = false).
  { intros o s Hne. destruct (Z.eqb_spec (w_option b) o) as [<-|]; [|done].
    destruct (Z.eqb_spec (w_suboption b) s) as [<-|]; [|done]. done. }
  by rewrite !Hk by done.
Qed.

(** The order of steps that commute does not matter. *)
Lemma for_each_perm {X S} (body : X -> S -> outcome S) l1 l2 :
  l1 ≡ₚ l2 ->
  (forall x y s, x ∈ l1 -> y ∈ l1 -> (let? s' := body x s in body y s') = (let? s' := body y s in body x s')) ->
  forall s, for_each l1 body s = for_each l2 body s.
Proof.
  induction 1 as [|x l1 l2 Hp IH|x y l|l1 l2 l3 H1 IH1 H2 IH2]; intros Hc s; [done|..]; cbn [for_each].
  - destruct (body x s); try done. cbn [bind]. apply IH. intros. apply Hc; by right.
  - specialize (Hc x y s ltac:(by right; left) ltac:(by left)).
    destruct (body x s), (body y s); cbn [bind] in *; rewrite ?Hc; try done; try (by rewrite <- Hc).
  - rewrite IH1 by done. apply IH2. intros x y s' Hx Hy. apply Hc; by rewrite H1.
Qed.

Lemma for_each_app {X S} (l1 l2 : list X) (body : X -> S -> outcome S) s :
  for_each (l1 ++ l2) body s = (let? s' := for_each l1 body s in for_each l2 body s').
Proof.
  revert s. induction l1 as [|x l1 IH]; intros s; [done|]. cbn [app for_each].
  destruct (body x s); try done. apply IH.
Qed.

Lemma for_each_fmap {X Y S} (g : X -> Y) (l : list X) (body : Y -> S -> outcome S) s :
  for_each (g <$> l) body s = for_each l (fun x => body (g x)) s.
Proof.
  revert s. induction l as [|x l IH]; intros s; [done|]. cbn [fmap list_fmap for_each].
  destruct (body (g x) s); [apply IH|done..].
Qed.

Lemma trim_zeros_zeros n : trim_zeros (replicate n 0) = [].
Proof. induction n as [|n IH]; [done|]. cbn [replicate trim_zeros]. by rewrite IH. Qed.

Lemma trim_zeros_pad l n : last l <> Some 0 -> trim_zeros (l ++ replicate n 0) = l.
Proof.
  intros H. induction l as [|b l IH]; [apply trim_zeros_zeros|].
  cbn [app trim_zeros]. destruct l as [|c l].
  - cbn [app]. rewrite trim_zeros_zeros. destruct (b =? 0) eqn:Hb; [|done]. assert (b = 0) as -> by lia. done.
  - rewrite IH by exact H. done.
Qed.

Lemma dcp_response_payload dst src tcis fid sid xid blocks trailer :
  len dst = 6 -> len src = 6 ->
  dcp_payload (dcp_response dst src tcis fid sid xid blocks trailer)
  = Ok (dcp_header fid sid DCP_SERVICE_TYPE_RESPONSE_SUCCESS xid 0 (len blocks) (blocks ++ trailer)).
Proof. intros Hd Hs. apply strip_eth_tagged. rewrite length_app. lia. Qed.

Lemma dcp_response_addresses dst src tcis fid sid xid blocks trailer :
  len dst = 6 -> len src = 6 ->
  let f := dcp_response dst src tcis fid sid xid blocks trailer in
  14 <= len f /\ slice f 0 6 = Ok dst /\ slice f 6 12 = Ok src.
Proof.
  intros Hd Hs f. unfold f, dcp_response. split_and!.
  - rewrite !length_app. simpl length. lia.
  - rewrite <- app_assoc. by apply slice_prefix.
  - rewrite <- app_assoc. apply slice_app_mid; lia.
Qed.

Record device_ok (d : DcpDevice) (dname dtype : list Z) (info : Z) : Prop := {
  dev_mac : len (mac d) = 6;
  dev_name : ascii_bytes dname /\ name d = bytes_str dname /\ len dname <= 240;
  dev_type : ascii_bytes dtype /\ device_type d = bytes_str dtype /\ last dtype <> Some 0;
  dev_ip : len (ip d) = 4 /\ len (netmask d) = 4 /\ len (gateway d) = 4;
  dev_ids : u16_ok (vendor_id d) /\ u16_ok (device_id d);
  dev_info : u16_ok info /\ ip_block_info d = Some info;
}.

Lemma ascii_zeros l n : ascii_bytes l -> ascii_bytes (l ++ replicate n 0).
Proof. intros H. apply Forall_app; split; [done|]. apply Forall_replicate. lia. Qed.

(** The five things a device says of itself, each a field of its own. *)
Definition device_setters (d : DcpDevice) (info : Z) : list (DcpDevice -> DcpDevice) :=
  [ with_device_type (device_type d); with_name (name d); with_ids (vendor_id d) (device_id d);
    with_role (role d); with_ip info (ip d) (netmask d) (gateway d) ].

Lemma device_blocks_set d dname dtype zeros info :
  device_ok d dname dtype info ->
  Forall2 sets (device_blocks d dname (dtype ++ replicate zeros 0) info) (device_setters d info).
Proof.
  intros [_ (Hn1 & Hn2 & _) (Ht1 & Ht2 & Ht3) (Hi1 & Hi2 & Hi3) (Hv1 & Hv2) (Hinf & Hi4)].
  unfold device_blocks, device_setters. repeat apply Forall2_cons_2; [..|by constructor];
    intros x; unfold apply_block, resp_of;
    cbn -[rd_be16 slice idx be16_bytes from_utf8_lossy trim_zeros Z.leb Z.of_nat app length].
  - by rewrite trim_zeros_pad, lossy_ascii, Ht2 by done.
  - by rewrite lossy_ascii, Hn2 by done.
  - change (4 <=? len (be16_bytes (vendor_id d) ++ be16_bytes (device_id d))) with true. cbv iota.
    assert (E1 : rd_be16 (be16_bytes (vendor_id d) ++ be16_bytes (device_id d)) 0 = Ok (vendor_id d))
      by (unfold be16_bytes; cbn [app]; lit_read).
    assert (E2 : rd_be16 (be16_bytes (vendor_id d) ++ be16_bytes (device_id d)) 2 = Ok (device_id d))
      by (unfold be16_bytes; cbn [app]; lit_read).
    by rewrite E1, E2.
  - done.
  - replace (12 <=? len (ip d ++ netmask d ++ gateway d)) with true
      by (symmetry; apply Z.leb_le; rewrite !length_app; lia).
    assert (E3 : rd_be16 (be16_bytes info) 0 = Ok info) by (unfold be16_bytes; lit_read). rewrite E3.
    rewrite (slice_prefix (ip d) _ 4) by lia.
    rewrite (slice_app_mid (ip d) (netmask d) (gateway d) 4 8) by lia.
    rewrite (slice_at (ip d ++ netmask d ++ gateway d) (ip d ++ netmask d) (gateway d) [] 8 12)
      by (rewrite ?app_nil_r, ?app_assoc, ?length_app; done || lia).
    done.
Qed.

(** A foreign block, or one of the five. *)
Definition block_sets (d : DcpDevice) (info : Z) (b : WireBlock) : Prop :=
  exists f, f ∈ (fun d => d) :: device_setters d info /\ sets b f.

Lemma setters_commute d info f g x :
  f ∈ (fun d => d) :: device_setters d info -> g ∈ (fun d => d) :: device_setters d info -> f (g x) = g (f x).
Proof.
  unfold device_setters. rewrite !elem_of_cons.
  intros [->|[->|[->|[->|[->|[->|[]%not_elem_of_nil]]]]]] [->|[->|[->|[->|[->|[->|[]%not_elem_of_nil]]]]]]; by destruct x.
Qed.

Lemma blocks_commute d info x y s :
  block_sets d info x -> block_sets d info y ->
  (let? s' := apply_block (resp_of x) s in apply_block (resp_of y) s') =
  (let? s' := apply_block (resp_of y) s in apply_block (resp_of x) s').
Proof.
  intros (f & Hf & Hx) (g & Hg & Hy). rewrite Hx, Hy. cbn [bind]. rewrite Hx, Hy.
  f_equal. by eapply setters_commute.
Qed.

Lemma sets_all l fs : Forall2 sets l fs ->
  forall d, for_each l (fun b => apply_block (resp_of b)) d = Ok (fold_left (fun x f => f x) fs d).
Proof. induction 1 as [|b f l fs Hb Hl IH]; intros d; [done|]. cbn [for_each fold_left]. rewrite Hb. apply IH. Qed.

Lemma foreign_all l d : Forall foreign l -> for_each l (fun b => apply_block (resp_of b)) d = Ok d.
Proof. induction 1 as [|b l Hb Hl IH]; [done|]. cbn [for_each]. by rewrite (foreign_sets b Hb). Qed.

(** The device's blocks and foreign ones, in any order, read the device. *)
Lemma any_order d dname dtype zeros info extra l :
  device_ok d dname dtype info -> Forall foreign extra ->
  l ≡ₚ extra ++ device_blocks d dname (dtype ++ replicate zeros 0) info ->
  for_each l (fun b => apply_block (resp_of b)) (default_device (mac d)) = Ok d.
Proof.
  intros Hd Hex Hp. pose proof (device_blocks_set d dname dtype zeros info Hd) as Hset.
  rewrite (for_each_perm _ _ _ Hp).
  - rewrite for_each_app, foreign_all by done. cbn [bind]. rewrite (sets_all _ _ Hset).
    destruct Hd as [_ _ _ _ _ (_ & Hi)]. cbn. f_equal.
    unfold with_ip, with_role, with_ids, with_name, with_device_type, default_device.
    cbn [mac name device_type vendor_id device_id role]. rewrite <- Hi. by destruct d.
  - assert (Hz : forall z, z ∈ l -> block_sets d info z).
    { intros z. rewrite Hp. intros [Hz|[i Hz]%list_elem_of_lookup]%elem_of_app.
      - exists (fun d => d). split; [by left|]. apply foreign_sets. by eapply Forall_forall in Hex.
      - destruct (Forall2_lookup_l _ _ _ _ _ Hset Hz) as (f & Hf & Hs). exists f.
        split; [right; by apply list_elem_of_lookup_2 in Hf|exact Hs]. }
    intros x y s Hx Hy. apply (blocks_commute d info); by apply Hz.
Qed.

(** C37: A device's Identify response is read back exactly.  Lay out the
    frame as IEC 61158 has it, with any priority tags, the device's five blocks
    (type, name, ids, role, address) and any others in any order, zeros behind
    the type string and padding behind the DCP data: parsing yields the device
    and the transaction id it echoes, and a discovery with that id, on the
    station it is addressed to, reports exactly this device.  The last block
    must not be empty (the parser does not look at such a one). *)
Theorem identify_response_roundtrip d dst tcis xid extra dname dtype zeros info l trailer :
  device_ok d dname dtype info -> len dst = 6 -> u32_ok xid ->
  Forall wire_ok extra -> Forall foreign extra ->
  len dtype + Z.of_nat zeros < 65000 ->
  l ≡ₚ extra ++ device_blocks d dname (dtype ++ replicate zeros 0) info ->
  (forall b, last l = Some b -> w_payload b <> []) ->
  len (wire_blocks l) < 65536 ->
  let f := dcp_response dst (mac d) tcis DCP_IDENTIFY_RESPONSE_FRAME_ID DCP_SERVICE_ID_IDENTIFY xid
             (wire_blocks l) trailer in
  parse_identify_response f = Ok d /\ parse_dcp_xid f = Ok (Some xid) /\
  aggregate_responses [f] dst xid = Ok [d].
Proof.
  intros Hd Hdst Hx Hex Hfor Hty Hp Hlast Hlen f.
  pose proof Hd as [Hmac (_ & _ & Hnl) _ (Hi1 & Hi2 & Hi3) _ (Hinf & _)].
  destruct (dcp_response_addresses dst (mac d) tcis DCP_IDENTIFY_RESPONSE_FRAME_ID DCP_SERVICE_ID_IDENTIFY xid
              (wire_blocks l) trailer Hdst Hmac) as (A1 & A2 & A3).
  destruct (dcp_header_reads DCP_IDENTIFY_RESPONSE_FRAME_ID DCP_SERVICE_ID_IDENTIFY DCP_SERVICE_TYPE_RESPONSE_SUCCESS
              xid 0 (len (wire_blocks l)) (wire_blocks l ++ trailer)) as (L & R0 & _ & R3 & R4 & R10 & R12);
    [by unfold u16_ok, DCP_IDENTIFY_RESPONSE_FRAME_ID|done|unfold u16_ok; lia|].
  pose proof (dcp_response_payload dst (mac d) tcis DCP_IDENTIFY_RESPONSE_FRAME_ID DCP_SERVICE_ID_IDENTIFY xid
                (wire_blocks l) trailer Hdst Hmac) as P. fold f in A1, A2, A3, P.
  assert (HI : parse_identify_response f = Ok d).
  { unfold parse_identify_response. replace (len f <? 14) with false by lia. rewrite A3, P. cbn [bind].
    rewrite L. replace (_ <? 12) with false by lia. rewrite R0. cbn [bind]. rewrite Z.eqb_refl. cbn [negb].
    rewrite R3. cbn [bind negb]. rewrite Z.eqb_refl. cbn [negb]. rewrite R10, R12. cbn [bind].
    rewrite identify_walk; [|rewrite Hp|done|lia].
    - rewrite for_each_fmap. by eapply any_order.
    - apply Forall_app; split; [done|]. unfold device_blocks, wire_ok.
      repeat constructor; cbn [w_info w_payload]; unfold u16_ok in *; rewrite ?length_app, ?length_replicate;
        cbn [length be16_bytes]; lia. }
  assert (HX : parse_dcp_xid f = Ok (Some xid)).
  { unfold parse_dcp_xid. rewrite P. cbn [ok_ bind]. rewrite L. replace (8 <=? _) with true by lia. by rewrite R4. }
  split_and!; [done..|]. unfold aggregate_responses. cbn [for_each]. unfold aggregate_one.
  replace (len f <? 14) with false by lia. rewrite A2. cbn [bind]. rewrite bool_decide_eq_true_2 by done. cbn [negb].
  rewrite HX. cbn [bind]. rewrite bool_decide_eq_true_2 by done. cbn [negb]. by rewrite HI.
Qed.

Definition device0 : DcpDevice :=
  {| mac := [2; 0; 0; 0; 0; 9]; name := "io-1"; device_type := "ET"; ip := [192; 168; 0; 2];
     netmask := [255; 255; 255; 0]; gateway := [0; 0; 0; 0]; vendor_id := 42; device_id := 0x0301;
     role := 1; ip_block_info := Some 1 |}.

Lemma device0_ok : device_ok device0 (str_bytes "io-1") (str_bytes "ET") 1.
Proof.
  constructor; split_and?; try reflexivity; try done; try (unfold u16_ok; cbn; lia);
    try (repeat constructor; vm_compute; congruence).
Qed.

(** The blocks out of order, among one of another option and one of another
    suboption. *)
Example identify_response_roundtrip_witness :
  let other o s := {| w_option := o; w_suboption := s; w_info := 0; w_payload := [9] |} in
  let blocks := device_blocks device0 (str_bytes "io-1") (str_bytes "ET" ++ replicate 3 0) 1 in
  aggregate_responses
    [dcp_response (rep 6 1) [2; 0; 0; 0; 0; 9] [0xA000; 7] 0xFEFF 5 77
       (wire_blocks (other 3 61 :: rev blocks ++ [other 2 5])) [0; 0]] (rep 6 1) 77
  = Ok [device0].
Proof.
  intros other blocks.
  refine (proj2 (proj2 (identify_response_roundtrip device0 (rep 6 1) [0xA000; 7] 77 [other 3 61; other 2 5]
            (str_bytes "io-1") (str_bytes "ET") 3 1 (other 3 61 :: rev blocks ++ [other 2 5])
            [0; 0] device0_ok _ _ _ _ _ _ _ _)));
    try reflexivity; try (repeat constructor; unfold u16_ok; cbn; try done; lia).
  - repeat (apply List.Forall_cons; [apply (bool_decide_unpack _); vm_compute; exact I|]). constructor.
  - fold blocks. cbn [app]. constructor. rewrite Permutation_app_comm. cbn [app]. constructor. symmetry. apply Permutation_rev.
  - vm_compute. intros b [= <-]. discriminate.
Defined.

(** What a device reads in a SET request: the announced DCP length is the
    length of the rest of the frame and even, the single block carries option,
    suboption, qualifier and exactly the value; and the sender's own parser
    does not take the echo of the request for the answer. *)
Theorem set_request_understood src dst xid o s q v :
  len src = 6 -> len dst = 6 -> u32_ok xid -> u16_ok q -> len v < 65000 ->
  exists p, strip_eth (set_request src dst xid o s q v) PROFINET_ETHERTYPE = Ok p /\
    rd_be16 p 0 = Ok DCP_GET_SET_FRAME_ID /\ idx p 2 = Ok DCP_SERVICE_ID_SET /\
    idx p 3 = Ok DCP_SERVICE_TYPE_REQUEST /\ rd_be32 p 4 = Ok xid /\
    rd_be16 p 10 = Ok (len p - 12) /\ len p mod 2 = 0 /\
    exists b, slice_from p 12 = Ok b /\ idx b 0 = Ok o /\ idx b 1 = Ok s /\
      rd_be16 b 2 = Ok (len v + 2) /\ rd_be16 b 4 = Ok q /\ slice b 6 (6 + len v) = Ok v /\
      parse_set_response (set_request src dst xid o s q v) xid = Ok None.
Proof.
  intros Hs Hd Hx Hq Hv. set (b := set_block o s q v).
  assert (Hb : b = wire_block {| w_option := o; w_suboption := s; w_info := q; w_payload := v |}).
  { unfold b, set_block, block_request, wire_block, pad2. cbn [w_option w_suboption w_info w_payload].
    unfold as_u16. rewrite Z.mod_small by lia. by rewrite <- !app_assoc. }
  pose proof (len_wire_block {| w_option := o; w_suboption := s; w_info := q; w_payload := v |}) as Hlb.
  rewrite <- Hb in Hlb. cbn [w_payload] in Hlb.
  assert (Hlu : as_u16 (len b) = len b) by (unfold as_u16; apply Z.mod_small; zdiv).
  destruct (dcp_header_reads DCP_GET_SET_FRAME_ID DCP_SERVICE_ID_SET DCP_SERVICE_TYPE_REQUEST xid 0 (len b) b)
    as (L & R0 & R2 & R3 & R4 & R10 & R12); [by unfold u16_ok, DCP_GET_SET_FRAME_ID|done|unfold u16_ok; zdiv|].
  assert (HP : strip_eth (set_request src dst xid o s q v) PROFINET_ETHERTYPE =
               Ok (dcp_header DCP_GET_SET_FRAME_ID DCP_SERVICE_ID_SET DCP_SERVICE_TYPE_REQUEST xid 0 (len b) b)).
  { unfold set_request. fold b. rewrite Hlu. unfold eth_frame.
    rewrite app_assoc. apply (strip_eth_tagged (dst ++ src) []). rewrite length_app. lia. }
  eexists. split; [exact HP|]. rewrite L. split_and!; try done.
  - by replace (12 + len b - 12) with (len b) by lia.
  - zdiv.
  - pose proof (next_block_wire {| w_option := o; w_suboption := s; w_info := q; w_payload := v |} []) as _.
    assert (Hu : u16_ok (len v + 2)) by (unfold u16_ok; lia).
    exists b. split; [done|]. split_and!.
    1-5: rewrite Hb; unfold wire_block; cbn [w_option w_suboption w_info w_payload]; unfold be16_bytes; cbn [app].
    1-4: lit_read.
    + apply (slice_at _ [o; s; (len v + 2) / 256 mod 256; (len v + 2) mod 256; q / 256 mod 256; q mod 256] v (pad2 v)); done.
    + unfold parse_set_response, dcp_payload. rewrite HP. cbn [bind]. rewrite L. replace (_ <? 12) with false by lia.
      rewrite R0, R2, R3, R4. cbn [bind]. rewrite !Z.eqb_refl. cbn [negb orb]. done.
Qed.

Example set_request_understood_witness :
  exists p, strip_eth (set_name_request (rep 6 1) (rep 6 2) 5 "abc") PROFINET_ETHERTYPE = Ok p /\
    rd_be16 p 10 = Ok (len p - 12).
Proof.
  destruct (set_request_understood (rep 6 1) (rep 6 2) 5 2 2 0 (str_bytes "abc")) as (p & H1 & _ & _ & _ & _ & H2 & _);
    try reflexivity; try (unfold u16_ok, u32_ok; lia).
  exists p. split; [exact H1|exact H2].
Defined.

(** Only the answer to the own request is taken for it: a SET code or a
    GET payload comes from a GET/SET frame with the expected transaction id
    and service type success; and the code of a SET is the one the device
    reports in its Control/Response block. *)
Theorem dcp_answers_are_owned f o s x :
  (forall c, parse_set_response f x = Ok (Some c) ->
     exists p, dcp_payload f = Ok p /\ rd_be16 p 0 = Ok DCP_GET_SET_FRAME_ID /\
       idx p 2 = Ok DCP_SERVICE_ID_SET /\ idx p 3 = Ok DCP_SERVICE_TYPE_RESPONSE_SUCCESS /\
       rd_be32 p 4 = Ok x) /\
  (forall v, parse_get_response f o s x = Ok (Some v) ->
     exists p, dcp_payload f = Ok p /\ rd_be16 p 0 = Ok DCP_GET_SET_FRAME_ID /\
       idx p 3 = Ok DCP_SERVICE_TYPE_RESPONSE_SUCCESS /\ rd_be32 p 4 = Ok x) /\
  (forall dst src tcis opt sub code trailer, len dst = 6 -> len src = 6 -> u32_ok x ->
     parse_set_response (dcp_response dst src tcis DCP_GET_SET_FRAME_ID DCP_SERVICE_ID_SET x
       [DCP_OPTION_CONTROL; DCP_SUBOPTION_CONTROL_RESPONSE; 0; 3; opt; sub; code; 0] trailer) x
     = Ok (Some code)).
Proof.
  split_and!.
  - intros c H. unfold parse_set_response in H. apply bind_Ok_inv in H as (p & Hp & H). exists p. split; [done|].
    destruct (len p <? 12); [done|].
    apply bind_Ok_inv in H as (fid & H1 & H). apply bind_Ok_inv in H as (sid & H2 & H).
    apply bind_Ok_inv in H as (st & H3 & H). apply bind_Ok_inv in H as (xid & H4 & H).
    destruct (negb (fid =? _) || negb (sid =? _) || negb (xid =? x)) eqn:E; [done|].
    destruct (st =? DCP_SERVICE_TYPE_RESPONSE_UNSUPPORTED) eqn:E1; [done|].
    destruct (negb (st =? DCP_SERVICE_TYPE_RESPONSE_SUCCESS)) eqn:E2; [done|].
    rewrite H1, H2, H3, H4. split_and!; f_equal; lia.
  - intros v H. unfold parse_get_response in H. apply bind_Ok_inv in H as (p & Hp & H). exists p. split; [done|].
    destruct (len p <? 12); [done|].
    apply bind_Ok_inv in H as (fid & H1 & H). apply bind_Ok_inv in H as (xid & H4 & H).
    destruct (negb (fid =? _) || negb (xid =? x)) eqn:E; [done|]. apply bind_Ok_inv in H as (st & H3 & H).
    destruct (negb (st =? DCP_SERVICE_TYPE_RESPONSE_SUCCESS)) eqn:E2; [done|].
    rewrite H1, H3, H4. split_and!; f_equal; lia.
  - intros dst src tcis opt sub code trailer Hd Hs Hx. unfold parse_set_response.
    rewrite dcp_response_payload by done. cbn [bind].
    set (bl := [DCP_OPTION_CONTROL; DCP_SUBOPTION_CONTROL_RESPONSE; 0; 3; opt; sub; code; 0]).
    destruct (dcp_header_reads DCP_GET_SET_FRAME_ID DCP_SERVICE_ID_SET DCP_SERVICE_TYPE_RESPONSE_SUCCESS x 0 8
      (bl ++ trailer)) as (L & R0 & R2 & R3 & R4 & R10 & R12); [by unfold u16_ok, DCP_GET_SET_FRAME_ID|done|done|].
    change (len bl) with 8. rewrite L. replace (_ <? 12) with false by lia.
    rewrite R0, R2, R3, R4. cbn [bind]. rewrite !Z.eqb_refl. cbn [negb orb].
    rewrite R10, R12. cbn [bind]. unfold set_response_blocks. rewrite loop_S. unfold set_response_body at 1.
    change (4 <? 8) with true. cbv iota.
    assert (Hl : len (bl ++ trailer) = 8 + len trailer) by (unfold bl; simpl length; lia).
    replace (len (bl ++ trailer) <? 4) with false by lia.
    assert (B3 : slice (bl ++ trailer) 4 7 = Ok [opt; sub; code]).
    { by apply (slice_at _ [5; 4; 0; 3] [opt; sub; code] (0 :: trailer)). }
    assert (B0 : idx (bl ++ trailer) 0 = Ok 5) by (unfold bl; cbn [app]; lit_read).
    assert (B1 : idx (bl ++ trailer) 1 = Ok 4) by (unfold bl; cbn [app]; lit_read).
    assert (B2 : rd_be16 (bl ++ trailer) 2 = Ok 3) by (unfold bl; cbn [app]; by lit_read).
    rewrite B0, B1, B2. cbn [bind]. replace (Z.min (4 + 3) (len (bl ++ trailer))) with 7 by lia.
    rewrite B3. done.
Qed.

Example dcp_answers_are_owned_witness :
  parse_set_response (dcp_response (rep 6 1) (rep 6 2) [] DCP_GET_SET_FRAME_ID DCP_SERVICE_ID_SET 9
    [5; 4; 0; 3; 2; 2; 6; 0] []) 9 = Ok (Some 6).
Proof.
  apply (proj2 (proj2 (dcp_answers_are_owned [] 0 0 9))); try reflexivity. unfold u32_ok. lia.
Defined.

(** ** Aggregation *)

(** Frame [f] is device [d]'s answer to our request. *)
Definition answers (my_mac : list Z) (xid : Z) (f : list Z) (d : DcpDevice) : Prop :=
  14 <= len f /\ slice f 0 6 = Ok my_mac /\ parse_dcp_xid f = Ok (Some xid) /\
  parse_identify_response f = Ok d.

Lemma aggregate_one_spec my_mac xid f ds :
  bytes_ok f ->
  total (aggregate_one my_mac xid f ds) (fun ds' =>
    (exists d, answers my_mac xid f d /\ ds' = upsert d ds) \/
    ((forall d, ~ answers my_mac xid f d) /\ ds' = ds)).
Proof.
  intros Hf. unfold aggregate_one, total. destruct (len f <? 14) eqn:Hl.
  { right. split; [|done]. intros d (H & _). lia. }
  apply wp_bind, wp_slice; [lia|lia|]. intros dst Hdst _.
  destruct (bool_decide (dst = my_mac)) eqn:Hm; cbn [negb].
  2:{ right. split; [|done]. intros d (_ & H & _). apply bool_decide_eq_false in Hm. congruence. }
  apply bool_decide_eq_true in Hm as ->.
  apply wp_bind. eapply total_inv; [by apply parse_dcp_xid_total|]. intros x Hx _.
  destruct (bool_decide (x = Some xid)) eqn:Hxid; cbn [negb].
  2:{ right. split; [|done]. intros d (_ & _ & H & _). apply bool_decide_eq_false in Hxid. congruence. }
  apply bool_decide_eq_true in Hxid as ->.
  pose proof (parse_identify_safe f Hf) as Hs. destruct (parse_identify_response f) as [d|e| |] eqn:Hp; [| |done..].
  - left. exists d. split; [|done]. by split_and!; [lia|..].
  - right. split; [|done]. intros d (_ & _ & _ & H). congruence.
Qed.

Lemma upsert_macs d ds :
  mac <$> upsert d ds = if bool_decide (mac d ∈ (mac <$> ds)) then mac <$> ds else (mac <$> ds) ++ [mac d].
Proof.
  induction ds as [|e ds IH]; [done|]. cbn [upsert fmap list_fmap].
  destruct (bool_decide (mac e = mac d)) eqn:E.
  - apply bool_decide_eq_true in E. rewrite bool_decide_true by (rewrite E; left). cbn [fmap list_fmap]. by rewrite E.
  - apply bool_decide_eq_false in E. cbn [fmap list_fmap]. rewrite IH.
    destruct (decide (mac d ∈ (mac <$> ds))) as [H|H].
    + rewrite !bool_decide_true by (done || by right). done.
    + rewrite !bool_decide_false; [done| |done]. intros [?|?]%elem_of_cons; congruence.
Qed.

Lemma upsert_NoDup d ds : NoDup (mac <$> ds) -> NoDup (mac <$> upsert d ds).
Proof.
  intros H. rewrite upsert_macs. destruct (bool_decide _) eqn:E; [done|]. apply bool_decide_eq_false in E.
  apply NoDup_app. split_and!; [done| |apply NoDup_singleton]. intros x Hx ->%list_elem_of_singleton. done.
Qed.

Lemma elem_of_upsert d ds x :
  NoDup (mac <$> ds) -> x ∈ upsert d ds <-> x = d \/ (x ∈ ds /\ mac x <> mac d).
Proof.
  induction ds as [|e ds IH]; intros Hnd; cbn [upsert]; [set_solver|].
  cbn [fmap list_fmap] in Hnd. apply NoDup_cons in Hnd as [He Hnd].
  destruct (bool_decide (mac e = mac d)) eqn:E.
  - apply bool_decide_eq_true in E. rewrite !elem_of_cons. split.
    + intros [->|Hx]; [by left|right]. split; [by right|]. intros Heq. apply He. rewrite E, <- Heq.
      by apply list_elem_of_fmap_2.
    + intros [-> | [[->|Hx] Hne]]; [by left|done|by right].
  - apply bool_decide_eq_false in E. rewrite !elem_of_cons, IH by done. split.
    + intros [-> | [->|[Hx Hne]]]; [right; split; [by left|done]|by left|right; split; [by right|done]].
    + intros [-> | [[->|Hx] Hne]]; [by right; left|by left|by right; right].
Qed.

Definition reported (my_mac : list Z) (xid : Z) (frames : list (list Z)) (d : DcpDevice) : Prop :=
  exists l1 f l2, frames = l1 ++ f :: l2 /\ answers my_mac xid f d /\
    forall f' d', f' ∈ l2 -> answers my_mac xid f' d' -> mac d' <> mac d.

Lemma reported_snoc_other my_mac xid frames f d :
  (forall d', answers my_mac xid f d' -> mac d' <> mac d) ->
  reported my_mac xid (frames ++ [f]) d <-> reported my_mac xid frames d.
Proof.
  intros Hf. split.
  - intros (l1 & g & l2 & Heq & Hg & Hlast). destruct l2 as [|h l2 _] using rev_ind.
    { apply app_inj_tail in Heq as [_ ->]. by destruct (Hf d). }
    rewrite app_comm_cons, app_assoc in Heq. apply app_inj_tail in Heq as [-> <-].
    exists l1, g, l2. split_and!; [done|done|]. intros f' d' Hin. apply Hlast. set_solver.
  - intros (l1 & g & l2 & -> & Hg & Hlast). exists l1, g, (l2 ++ [f]).
    split_and!; [by rewrite <- app_assoc|done|].
    intros f' d' [Hin | ->%list_elem_of_singleton]%elem_of_app Ha; [by eapply Hlast|by apply Hf].
Qed.

Lemma reported_snoc_same my_mac xid frames f d d' :
  answers my_mac xid f d -> mac d' = mac d -> reported my_mac xid (frames ++ [f]) d' <-> d' = d.
Proof.
  intros Hd Hm. split.
  - intros (l1 & g & l2 & Heq & Hg & Hlast). destruct l2 as [|h l2 _] using rev_ind.
    { apply app_inj_tail in Heq as [_ ->]. destruct Hd as (_ & _ & _ & Hd). destruct Hg as (_ & _ & _ & Hg). congruence. }
    rewrite app_comm_cons, app_assoc in Heq. apply app_inj_tail in Heq as [-> <-].
    exfalso. apply (Hlast f d); [set_solver|done|done].
  - intros ->. exists frames, f, []. split_and!; [done|done|by intros ? ? ?%not_elem_of_nil].
Qed.

Lemma aggregate_exact my_mac xid frames :
  Forall bytes_ok frames ->
  total (aggregate_responses frames my_mac xid) (fun ds =>
    NoDup (mac <$> ds) /\ forall d, d ∈ ds <-> reported my_mac xid frames d).
Proof.
  intros Hf. unfold aggregate_responses. induction frames as [|f frames IH] using rev_ind.
  { split; [constructor|]. intros d. split; [by intros []%not_elem_of_nil|].
    intros (l1 & f & l2 & H & _). by destruct l1. }
  apply Forall_app in Hf as [Hf Hf1]. rewrite Forall_singleton in Hf1. specialize (IH Hf).
  rewrite for_each_app. apply wp_bind. eapply total_mono; [exact IH|]. intros ds [Hnd Hds]. cbn [for_each].
  apply wp_bind. eapply total_mono; [by apply aggregate_one_spec|]. intros ds' Hds'. cbn [wp].
  destruct Hds' as [(d & Hd & ->)|(Hno & ->)].
  - split; [by apply upsert_NoDup|]. intros x. rewrite elem_of_upsert by done.
    destruct (decide (mac x = mac d)) as [Hm|Hm].
    + rewrite reported_snoc_same by done. split; [intros [?|[_ ?]]; done|by left].
    + rewrite reported_snoc_other, Hds.
      * split; [intros [-> | [? _]]; done|by right].
      * intros d' (_ & _ & _ & Hd'). destruct Hd as (_ & _ & _ & Hd). congruence.
  - split; [done|]. intros x. rewrite Hds. symmetry. apply reported_snoc_other. intros d' Hd'. by destruct (Hno d').
Qed.

Lemma discover_prefix my_mac xid done_ frames : forall rest pre,
  Forall bytes_ok frames -> frames = pre ++ rest -> exists k,
  discover_loop my_mac xid done_ (RecvFrame <$> rest) pre = aggregate_responses (take k frames) my_mac xid /\
  ((k < length frames)%nat ->
   exists ds, aggregate_responses (take k frames) my_mac xid = Ok ds /\ done_ ds = true).
Proof.
  induction rest as [|f rest IH]; intros pre Hf Heq.
  - exists (length frames). rewrite take_ge by lia. rewrite app_nil_r in Heq. subst pre. split; [done|lia].
  - cbn [fmap list_fmap discover_loop].
    assert (Hpre : frames = (pre ++ [f]) ++ rest) by (by rewrite <- app_assoc).
    assert (Hf' : Forall bytes_ok (pre ++ [f])) by (rewrite Hpre in Hf; by apply Forall_app in Hf as [? _]).
    destruct (total_Ok _ _ (aggregate_exact my_mac xid _ Hf')) as (ds & Ha & _). rewrite Ha. cbn [bind].
    destruct (done_ ds) eqn:Hdone; [|by apply IH].
    exists (length (pre ++ [f])). rewrite Hpre, take_app_length. split; [done|]. intros _. by exists ds.
Qed.

(** C36: Discovery reports exactly the devices that answered: each MAC once,
    with the last answer it sent to us under our transaction id, and nothing
    from frames addressed elsewhere, of another discovery, or that are no
    Identify response; stopping early only shortens the frames considered. *)
Theorem discovery_exact my_mac xid frames :
  Forall bytes_ok frames ->
  total (aggregate_responses frames my_mac xid) (fun ds =>
    NoDup (mac <$> ds) /\ forall d, d ∈ ds <-> reported my_mac xid frames d) /\
  forall done_, exists k,
    discover_until my_mac xid None done_ (RecvFrame <$> frames) = aggregate_responses (take k frames) my_mac xid /\
    ((k < length frames)%nat ->
     exists ds, aggregate_responses (take k frames) my_mac xid = Ok ds /\ done_ ds = true).
Proof.
  intros Hf. split; [by apply aggregate_exact|]. intros done_. by apply (discover_prefix _ _ _ _ frames []).
Qed.

(** ** Widths, from the wire to the wire *)

Definition recv_typed (r : RecvResult) : Prop := match r with RecvFrame f => bytes_ok f | _ => True end.

Lemma upsert_typed d ds : device_typed d -> Forall device_typed ds -> Forall device_typed (upsert d ds).
Proof.
  intros Hd Hds. induction Hds as [|e ds He Hds IH]; cbn [upsert]; [by constructor|].
  case_bool_decide; by constructor.
Qed.

Lemma aggregate_typed my_mac xid frames : Forall bytes_ok frames ->
  total (aggregate_responses frames my_mac xid) (Forall device_typed).
Proof.
  intros Hf. unfold aggregate_responses. induction frames as [|f frames IH] using rev_ind; [by constructor|].
  apply Forall_app in Hf as [Hf Hf1]. rewrite Forall_singleton in Hf1.
  rewrite for_each_app. apply wp_bind. eapply total_mono; [by apply IH|]. intros ds Hds. cbn [for_each].
  apply wp_bind. eapply total_mono; [by apply aggregate_one_spec|]. intros ds' Hds'. cbn [wp].
  destruct Hds' as [(d & (_ & _ & _ & Hp) & ->)|(_ & ->)]; [|done]. apply upsert_typed; [|done].
  pose proof (parse_identify_typed f Hf1) as Ht. by rewrite Hp in Ht.
Qed.

Lemma discover_loop_typed my_mac xid done_ recvs : forall frames,
  Forall recv_typed recvs -> Forall bytes_ok frames ->
  wp (discover_loop my_mac xid done_ recvs frames) (Forall device_typed) (fun _ => True).
Proof.
  assert (Ha : forall frames, Forall bytes_ok frames ->
    wp (aggregate_responses frames my_mac xid) (Forall device_typed) (fun _ => True)).
  { intros frames Hf. eapply wp_mono; [by apply aggregate_typed|done..]. }
  induction recvs as [|[f| |e] recvs IH]; intros frames Hr Hf; inversion Hr; subst; cbn [discover_loop]; auto.
  assert (Hf' : Forall bytes_ok (frames ++ [f])) by (apply Forall_app; by rewrite Forall_singleton).
  apply wp_bind. eapply wp_mono; [by apply Ha| |done]. intros ds Hds. destruct (done_ ds); [done|by apply IH].
Qed.

Lemma discover_typed my_mac xid send done_ recvs : Forall recv_typed recvs ->
  wp (discover_until my_mac xid send done_ recvs) (Forall device_typed) (fun _ => True).
Proof. intros Hr. destruct send; [done|]. apply discover_loop_typed; [done|constructor]. Qed.

Definition answer0 : list Z :=
  dcp_response (rep 6 1) (mac device0) [] 0xFEFF 5 77
    (wire_blocks (device_blocks device0 (str_bytes "io-1") (str_bytes "ET") 1)) [].

Example discovery_exact_witness :
  exists ds, aggregate_responses [answer0; rep 60 3; answer0] (rep 6 1) 77 = Ok ds /\ ds = [device0] /\
    reported (rep 6 1) 77 [answer0; rep 60 3; answer0] device0.
Proof.
  assert (Hf : Forall bytes_ok [answer0; rep 60 3; answer0]).
  { repeat constructor; vm_compute; congruence. }
  destruct (total_Ok _ _ (proj1 (discovery_exact (rep 6 1) 77 _ Hf))) as (ds & Hds & _ & Hin).
  exists ds. split; [exact Hds|]. vm_compute in Hds. injection Hds as <-.
  split; [reflexivity|]. apply Hin. apply list_elem_of_singleton. reflexivity.
Defined.

Lemma get_walk_six o s l : forall fuel rest,
  Forall wire_ok l -> Forall (fun b => ~ (w_option b = o /\ w_suboption b = s)) l ->
  (Z.to_nat (len (wire_blocks l)) < fuel)%nat ->
  loop fuel (get_response_body o s) (len (wire_blocks l) + 6, wire_blocks l ++ rest) = Ok None.
Proof.
  induction l as [|b l IH]; intros fuel rest Hw Hno Hf; (destruct fuel as [|fuel]; [lia|]); [done|].
  inversion Hw as [|? ? Hb Hl]; inversion Hno as [|? ? Hbno Hlno]; subst.
  unfold wire_blocks in *. cbn [fmap list_fmap] in *.
  change (mjoin (wire_block b :: (wire_block <$> l))) with (wire_block b ++ mjoin (wire_block <$> l)) in *.
  pose proof (len_wire_block b) as Hlb. rewrite length_app in *.
  rewrite loop_S. unfold get_response_body at 1. rewrite Nat2Z.inj_add.
  replace (6 <? _) with true by zdiv. rewrite <- app_assoc.
  replace (len (wire_block b ++ _) <? 6) with false by (symmetry; apply Z.ltb_ge; rewrite length_app; zdiv).
  rewrite next_block_wire by done. cbn [bind b_length resp_of b_option b_suboption b_payload].
  replace ((w_option b =? o) && (w_suboption b =? s)) with false by lia.
  replace (len (wire_block b) + len (mjoin (wire_block <$> l)) + 6 - len (wire_block b))
    with (len (mjoin (wire_block <$> l)) + 6) by lia.
  apply IH; [done|done|zdiv].
Qed.

(** A GET response whose last block carries no data is reported as if the
    parameter were absent, although its block is there; with the BlockInfo
    word and a single byte of data it would have been found. *)
Theorem get_misses_trailing_empty_block dst src tcis x o s info v l trailer :
  len dst = 6 -> len src = 6 -> u32_ok x -> u16_ok info ->
  Forall wire_ok l -> Forall (fun b => ~ (w_option b = o /\ w_suboption b = s)) l ->
  let response p := dcp_response dst src tcis DCP_GET_SET_FRAME_ID DCP_SERVICE_ID_GET x
    (wire_blocks (l ++ [{| w_option := o; w_suboption := s; w_info := info; w_payload := p |}])) trailer in
  len (wire_blocks l) + 8 < 65536 ->
  parse_get_response (response []) o s x = Ok None /\ parse_get_response (response [v]) o s x = Ok (Some [v]).
Proof.
  intros Hd Hs Hx Hi Hl Hno response Hlen.
  assert (G : forall p, len p < 2 -> parse_get_response (response p) o s x =
    let bl := wire_blocks (l ++ [{| w_option := o; w_suboption := s; w_info := info; w_payload := p |}]) in
    loop (S (Z.to_nat (len bl))) (get_response_body o s) (len bl, bl ++ trailer)).
  { intros p Hp. set (e := {| w_option := o; w_suboption := s; w_info := info; w_payload := p |}). cbv zeta.
    set (bl := wire_blocks (l ++ [e])).
    assert (Hbl : len bl = len (wire_blocks l) + 6 + len p + len p mod 2).
    { unfold bl, wire_blocks. rewrite fmap_app, join_app, length_app. cbn [fmap list_fmap].
      change (mjoin [wire_block e]) with (wire_block e ++ []). rewrite app_nil_r.
      pose proof (len_wire_block e). cbn [w_payload e] in *. lia. }
    unfold parse_get_response, response. fold e bl. rewrite dcp_response_payload by done. cbn [bind].
    destruct (dcp_header_reads DCP_GET_SET_FRAME_ID DCP_SERVICE_ID_GET DCP_SERVICE_TYPE_RESPONSE_SUCCESS x 0 (len bl)
      (bl ++ trailer)) as (L & R0 & R2 & R3 & R4 & R10 & R12); [done|done|unfold u16_ok; zdiv|].
    rewrite L. replace (_ <? 12) with false by lia. rewrite R0, R3, R4, R10, R12. cbn [bind].
    rewrite !Z.eqb_refl. done. }
  assert (Ha : forall p, wire_blocks (l ++ [{| w_option := o; w_suboption := s; w_info := info; w_payload := p |}])
    = wire_blocks l ++ wire_block {| w_option := o; w_suboption := s; w_info := info; w_payload := p |}).
  { intros p. unfold wire_blocks. rewrite fmap_app, join_app. cbn [fmap list_fmap mjoin list_join]. by rewrite app_nil_r. }
  split.
  - rewrite G by (simpl; lia). cbv zeta. rewrite Ha, length_app, Nat2Z.inj_add.
    change (len (wire_block _)) with 6. rewrite <- app_assoc. apply get_walk_six; [done|done|lia].
  - rewrite G by (simpl; lia). cbv zeta. rewrite get_walk; [| | |lia].
    + rewrite filter_app. replace (filter (fun b => w_option b = o /\ w_suboption b = s) l) with (@nil WireBlock).
      * rewrite filter_cons_True by done. done.
      * clear -Hno. induction Hno as [|b l Hb Hl IH]; [done|]. by rewrite filter_cons_False.
    + apply Forall_app; split; [done|]. apply Forall_singleton. split; [exact Hi|cbn; lia].
    + intros b Hb. rewrite last_app in Hb. cbn in Hb. by injection Hb as <-.
Qed.

Example get_misses_trailing_empty_block_witness :
  parse_get_response (dcp_response (rep 6 1) (rep 6 2) [] DCP_GET_SET_FRAME_ID DCP_SERVICE_ID_GET 3
    (wire_blocks ([] ++ [{| w_option := 2; w_suboption := 2; w_info := 0; w_payload := [] |}])) []) 2 2 3 = Ok None.
Proof.
  refine (proj1 (get_misses_trailing_empty_block (rep 6 1) (rep 6 2) [] 3 2 2 0 65 [] [] _ _ _ _ _ _ _));
    try reflexivity; try constructor; try (split; vm_compute; congruence); vm_compute; congruence.
Defined.

(** ** The source address *)

Definition holds_target (dst : list Z) (p : list Z * option (list Z)) : Prop :=
  exists m, snd p = Some m /\ m <> [0; 0; 0; 0] /\ same_network (fst p) dst m = Ok true.

Lemma same_network_total a b m :
  len a = 4 -> len b = 4 -> len m = 4 -> total (same_network a b m) (fun _ => True).
Proof.
  intros Ha Hb Hm. unfold same_network, total. cbv zeta. wp_auto; auto.
Qed.

Definition address_ok (p : list Z * option (list Z)) : Prop :=
  len (fst p) = 4 /\ match snd p with Some m => len m = 4 | None => True end.

Lemma find_reaching_spec dst l :
  len dst = 4 -> Forall address_ok l ->
  total (find_reaching dst l) (fun r =>
    match r with
    | Some ip => exists l1 p l2, l = l1 ++ p :: l2 /\ fst p = ip /\ holds_target dst p /\
                   Forall (fun q => ~ holds_target dst q) l1
    | None => Forall (fun q => ~ holds_target dst q) l
    end).
Proof.
  intros Hd. induction 1 as [|[ip0 m0] l [Hip Hm] Hl IH]; [constructor|].
  assert (Hskip : ~ holds_target dst (ip0, m0) -> total (find_reaching dst l) (fun r =>
    match r with
    | Some ip => exists l1 p l2, (ip0, m0) :: l = l1 ++ p :: l2 /\ fst p = ip /\ holds_target dst p /\
                   Forall (fun q => ~ holds_target dst q) l1
    | None => Forall (fun q => ~ holds_target dst q) ((ip0, m0) :: l)
    end)).
  { intros Hno. eapply total_mono; [exact IH|]. intros [ip|].
    - intros (l1 & p & l2 & -> & Hp & Hh & Hn). exists ((ip0, m0) :: l1), p, l2. split_and!; try done. by constructor.
    - intros Hn. by constructor. }
  cbn [find_reaching fst snd] in *. destruct m0 as [m|].
  - destruct (bool_decide (m = [0; 0; 0; 0])) eqn:E; cbn [negb].
    + apply Hskip. intros (m' & [= <-] & Hne & _). by apply bool_decide_eq_true in E.
    + apply bool_decide_eq_false in E. apply wp_bind.
      eapply total_inv; [by apply same_network_total|]. intros same Hs _. destruct same.
      * exists [], (ip0, Some m), l. split_and!; try done. by exists m.
      * apply Hskip. intros (m' & [= <-] & _ & H). cbn in H. congruence.
  - apply Hskip. by intros (m' & [=] & _).
Qed.

(** The source address for a device is the first address of the interface
    whose known, non-trivial network contains the device; the first IPv4
    address, reported as not reaching it, exactly when there is no such
    address; and none only when the interface has no IPv4 address. *)
Theorem source_address_choice addresses dst :
  len dst = 4 -> Forall address_ok (v4_addresses addresses) ->
  total (pick_source_ipv4 addresses dst) (fun r =>
    match r with
    | Some s =>
        if reaches_target s then
          exists l1 p l2, v4_addresses addresses = l1 ++ p :: l2 /\ fst p = s_ip s /\ holds_target dst p /\
            Forall (fun q => ~ holds_target dst q) l1
        else Forall (fun q => ~ holds_target dst q) (v4_addresses addresses) /\
             exists p l, v4_addresses addresses = p :: l /\ fst p = s_ip s
    | None => v4_addresses addresses = []
    end).
Proof.
  intros Hd Ha. unfold pick_source_ipv4. apply wp_bind. eapply total_mono; [by apply find_reaching_spec|].
  intros [ip|] H; cbn [wp]; [done|]. destruct (v4_addresses addresses) as [|p l]; [done|]. split; [done|]. by exists p, l.
Qed.

Example source_address_choice_witness :
  let addresses := [ {| addr := V4 [10; 0; 0; 5]; a_netmask := Some (V4 [255; 255; 255; 0]) |};
                     {| addr := V6; a_netmask := None |};
                     {| addr := V4 [192; 168; 0; 7]; a_netmask := Some (V4 [255; 255; 255; 0]) |} ] in
  exists r, pick_source_ipv4 addresses [192; 168; 0; 2] = Ok r /\
    r = Some {| s_ip := [192; 168; 0; 7]; reaches_target := true |} /\ v4_addresses addresses <> [].
Proof.
  intros addresses.
  assert (Hok : Forall address_ok (v4_addresses addresses)) by (repeat constructor).
  destruct (total_Ok _ _ (source_address_choice addresses [192; 168; 0; 2] eq_refl Hok)) as (r & Hr & H).
  exists r. split; [exact Hr|]. vm_compute in Hr. injection Hr as <-. split; [reflexivity|].
  destruct H as (l1 & p & l2 & H & _). rewrite H. destruct l1; discriminate.
Defined.
