(* ===== verification/Errors.v ===== *)
(** * PNIO status decoding ([src/src/errors.rs])

    The error-code constants, the message tables and the decoder from a
    four-byte status to the message shown to the user. *)

From S2P Require Import Prelude Fmt.

#[local] Open Scope string_scope.
#[local] Open Scope list_scope.
#[local] Open Scope Z_scope.

Definition DECODE_PNIO_CM : Z := 0x40.
Definition DECODE_PNIORW : Z := 0x80.
Definition DECODE_PNIO : Z := 0x81.
Definition PNIO_ERROR : Z := 0xDE.
Definition ERROR_APP : Z := 0x01.
Definition ERROR_RTA : Z := 0xCF.
Definition ERROR_ALARM_ACK : Z := 0xDA.
Definition ERROR_IOD_CONN : Z := 0xDB.
Definition ERROR_IOD_REL : Z := 0xDC.
Definition ERROR_IOD_CTRL : Z := 0xDD.
Definition ERROR_IOD_RW : Z := 0xDE.
Definition ERROR_MPM : Z := 0xDF.
Definition EC1_INVALID_INDEX : Z := 0xB0.
Definition EC1_WRITE_LENGTH : Z := 0xB1.
Definition EC1_RESOURCE : Z := 0xB2.
Definition EC1_ACCESS : Z := 0xB3.
Definition EC1_APPLICATION : Z := 0xB4.
Definition EC1_USER_SPECIFIC_1 : Z := 0xB5.
Definition EC1_USER_SPECIFIC_2 : Z := 0xB6.
Definition EC1_USER_SPECIFIC_3 : Z := 0xB7.
Definition EC1_USER_SPECIFIC_4 : Z := 0xB8.
Definition EC1_USER_SPECIFIC_5 : Z := 0xB9.
Definition EC2_INDEX_UNSUPPORTED : Z := 0x00.
Definition EC2_INDEX_NOT_WRITTEN : Z := 0x05.
Definition EC2_WRITE_LENGTH_ERROR : Z := 0x00.
Definition EC2_WRITE_TOO_SHORT : Z := 0x01.
Definition EC2_WRITE_TOO_LONG : Z := 0x02.
Definition EC2_WRITE_ACCESS_DENIED : Z := 0x03.
Definition EC2_INVALID_SLOT : Z := 0x07.
Definition EC2_INVALID_SUBSLOT : Z := 0x08.
Definition EC2_MODULE_NO_DATA : Z := 0x09.
Definition EC2_ACCESS_INVALID_AREA : Z := 0x00.
Definition EC2_ACCESS_DENIED : Z := 0x03.
Definition EC2_ACCESS_INVALID_RANGE : Z := 0x04.
Definition EC2_ACCESS_INVALID_STATE : Z := 0x05.
Definition EC2_ACCESS_DENIED_LOCAL : Z := 0x06.
Definition EC2_READ_ERROR : Z := 0x00.
Definition EC2_WRITE_ERROR : Z := 0x01.
Definition EC2_MODULE_FAILURE : Z := 0x02.
Definition EC2_BUSY : Z := 0x04.
Definition EC2_VERSION_CONFLICT : Z := 0x05.
Definition EC2_INVALID_API : Z := 0x06.
Definition EC2_NOT_BACKUP_ALLOWED : Z := 0x07.
Definition EC2_ALARM_PENDING : Z := 0x08.
Definition CM_EC1_AR : Z := 0x01.
Definition CM_EC1_IOCR : Z := 0x02.
Definition CM_EC1_ALARM_CR : Z := 0x03.
Definition CM_EC1_EXPECTED_SUBMOD : Z := 0x04.
Definition CM_EC1_MODULE_DIFF : Z := 0x05.
Definition CM_EC1_AR_RPC : Z := 0x06.
Definition CM_EC1_AR_RES : Z := 0x81.
Definition CM_EC1_IOCR_RES : Z := 0x82.
Definition CM_EC1_ALARM_CR_RES : Z := 0x83.
Definition CM_EC1_MODULE_DIFF_RES : Z := 0x84.
Definition CM_EC1_PRM_SERVER : Z := 0x3D.
Definition CM_EC1_CMCTL : Z := 0x3E.
Definition CM_EC1_CMDEV : Z := 0x3F.
Definition CM_EC1_RMPM : Z := 0x40.
Definition CM_EC1_FAULTY_RECORD : Z := 0xFD.
Definition CM_EC1_FAULTY_AR : Z := 0xFE.
Definition CM_EC1_FAULTY_BLOCK : Z := 0xFF.
Definition RMPM_ARGS_LEN_INVALID : Z := 0x00.
Definition RMPM_UNKNOWN_BLOCKS : Z := 0x01.
Definition RMPM_IOCR_MISSING : Z := 0x02.
Definition RMPM_WRONG_ALCR_COUNT : Z := 0x03.
Definition RMPM_OUT_OF_AR_RESOURCES : Z := 0x04.
Definition RMPM_AR_UUID_UNKNOWN : Z := 0x05.
Definition RMPM_STATE_CONFLICT : Z := 0x06.
Definition RMPM_OUT_OF_PROVIDER_CONSUMER_ALARM : Z := 0x07.
Definition RMPM_OUT_OF_MEMORY : Z := 0x08.
Definition RMPM_PDEV_ALREADY_OWNED : Z := 0x09.
Definition RMPM_AR_SET_STATE_CONFLICT : Z := 0x0A.
Definition RMPM_AR_SET_PARAMETER_CONFLICT : Z := 0x0B.
Definition RMPM_UNSPECIFIC : Z := 0xFF.
Definition CM_AR_INVALID_TYPE : Z := 0x00.
Definition CM_AR_ALREADY_ACTIVE : Z := 0x01.
Definition CM_AR_OUT_OF_AR : Z := 0x02.
Definition CM_AR_OUT_OF_PROVIDER : Z := 0x03.
Definition CM_AR_OUT_OF_CONSUMER : Z := 0x04.
Definition CM_AR_OUT_OF_ALARM : Z := 0x05.
Definition CM_AR_OUT_OF_MEMORY : Z := 0x06.
Definition CM_AR_INVALID_SESSION : Z := 0x07.
Definition CM_AR_UUID_CONFLICT : Z := 0x08.
Definition CM_IOCR_INVALID_TYPE : Z := 0x00.
Definition CM_IOCR_OUT_OF_RESOURCES : Z := 0x01.
Definition CM_IOCR_INVALID_FRAME_ID : Z := 0x02.
Definition CM_IOCR_INVALID_RT_CLASS : Z := 0x03.
Definition CM_IOCR_INVALID_DATA_LEN : Z := 0x04.
Definition CM_IOCR_CYCLE_CONFLICT : Z := 0x05.
Definition CM_IOCR_WATCHDOG_ERR : Z := 0x06.
Definition CM_SUBMOD_INVALID_SLOT : Z := 0x00.
Definition CM_SUBMOD_INVALID_SUBSLOT : Z := 0x01.
Definition CM_SUBMOD_WRONG_MODULE : Z := 0x02.
Definition CM_SUBMOD_WRONG_SUBMOD : Z := 0x03.
Definition CM_SUBMOD_IO_LEN_MISMATCH : Z := 0x04.
Definition CM_DEV_STATE_CONFLICT : Z := 0x00.
Definition CM_DEV_CONNECT_RESOURCE : Z := 0x01.
Definition CM_DEV_ALREADY_OWNED : Z := 0x02.
Definition CM_DEV_AR_SET_ABORT : Z := 0x03.

Definition PNIORW_ERROR_MESSAGES : list (Z * Z * string) :=
  [ (EC1_INVALID_INDEX, 0x00, "Index not supported");
    (EC1_INVALID_INDEX, 0x05, "Index exists but not written");
    (EC1_WRITE_LENGTH, 0x00, "Write length error");
    (EC1_WRITE_LENGTH, 0x01, "Write data too short");
    (EC1_WRITE_LENGTH, 0x02, "Write data too long");
    (EC1_WRITE_LENGTH, 0x03, "Write access denied (write protected)");
    (EC1_RESOURCE, 0x00, "Resource not available");
    (EC1_RESOURCE, EC2_INVALID_SLOT, "Invalid slot number");
    (EC1_RESOURCE, EC2_INVALID_SUBSLOT, "Invalid subslot number");
    (EC1_RESOURCE, EC2_MODULE_NO_DATA, "Module has no data");
    (EC1_ACCESS, 0x00, "Access denied (invalid area)");
    (EC1_ACCESS, 0x03, "Access denied");
    (EC1_ACCESS, 0x04, "Access denied (invalid range)");
    (EC1_ACCESS, 0x05, "Access denied (invalid state for access)");
    (EC1_ACCESS, 0x06, "Access denied (local control)");
    (EC1_APPLICATION, 0x00, "Read error");
    (EC1_APPLICATION, 0x01, "Write error");
    (EC1_APPLICATION, 0x02, "Module failure");
    (EC1_APPLICATION, 0x04, "Resource busy");
    (EC1_APPLICATION, 0x05, "Version conflict");
    (EC1_APPLICATION, EC2_INVALID_API, "Invalid API number");
    (EC1_APPLICATION, 0x07, "Backup not allowed");
    (EC1_APPLICATION, 0x08, "Alarm pending") ].

Definition PNIO_ERROR_MESSAGES : list (Z * Z * string) :=
  [ (CM_EC1_RMPM, RMPM_ARGS_LEN_INVALID, "Invalid arguments length");
    (CM_EC1_RMPM, RMPM_UNKNOWN_BLOCKS, "Unknown blocks in request");
    (CM_EC1_RMPM, RMPM_IOCR_MISSING, "Required IOCR block missing");
    (CM_EC1_RMPM, RMPM_WRONG_ALCR_COUNT, "Wrong AlarmCR block count");
    (CM_EC1_RMPM, RMPM_OUT_OF_AR_RESOURCES, "Out of AR resources");
    (CM_EC1_RMPM, RMPM_AR_UUID_UNKNOWN, "AR UUID unknown");
    (CM_EC1_RMPM, RMPM_STATE_CONFLICT, "State conflict");
    (CM_EC1_RMPM, RMPM_OUT_OF_PROVIDER_CONSUMER_ALARM, "Out of provider, consumer or alarm resources");
    (CM_EC1_RMPM, RMPM_OUT_OF_MEMORY, "Out of memory");
    (CM_EC1_RMPM, RMPM_PDEV_ALREADY_OWNED, "Physical device already owned by another AR");
    (CM_EC1_RMPM, RMPM_AR_SET_STATE_CONFLICT, "AR set state conflict during connect");
    (CM_EC1_RMPM, RMPM_AR_SET_PARAMETER_CONFLICT, "AR set parameter conflict during connect");
    (CM_EC1_RMPM, RMPM_UNSPECIFIC, "Unspecific RMPM error");
    (CM_EC1_PRM_SERVER, 0x00, "Parameter server state conflict") ].

Definition PNIOCM_ERROR_MESSAGES : list (Z * Z * string) :=
  [ (CM_EC1_AR, CM_AR_INVALID_TYPE, "Invalid AR type");
    (CM_EC1_AR, CM_AR_ALREADY_ACTIVE, "AR already active");
    (CM_EC1_AR, CM_AR_OUT_OF_AR, "Out of AR resources");
    (CM_EC1_AR, CM_AR_OUT_OF_PROVIDER, "Out of provider resources");
    (CM_EC1_AR, CM_AR_OUT_OF_CONSUMER, "Out of consumer resources");
    (CM_EC1_AR, CM_AR_OUT_OF_ALARM, "Out of alarm resources");
    (CM_EC1_AR, CM_AR_OUT_OF_MEMORY, "Out of memory");
    (CM_EC1_AR, CM_AR_INVALID_SESSION, "Invalid session key");
    (CM_EC1_AR, CM_AR_UUID_CONFLICT, "AR UUID conflict");
    (CM_EC1_AR_RES, CM_AR_INVALID_TYPE, "Invalid AR type (in response)");
    (CM_EC1_AR_RES, CM_AR_ALREADY_ACTIVE, "AR already active");
    (CM_EC1_AR_RES, CM_AR_OUT_OF_AR, "Out of AR resources");
    (CM_EC1_AR_RES, CM_AR_OUT_OF_PROVIDER, "Out of provider resources");
    (CM_EC1_AR_RES, CM_AR_OUT_OF_CONSUMER, "Out of consumer resources");
    (CM_EC1_AR_RES, CM_AR_OUT_OF_ALARM, "Out of alarm resources");
    (CM_EC1_AR_RES, CM_AR_OUT_OF_MEMORY, "Out of memory");
    (CM_EC1_AR_RES, CM_AR_INVALID_SESSION, "Invalid session key");
    (CM_EC1_AR_RES, CM_AR_UUID_CONFLICT, "AR UUID conflict");
    (CM_EC1_IOCR, CM_IOCR_INVALID_TYPE, "Invalid IOCR type");
    (CM_EC1_IOCR, CM_IOCR_OUT_OF_RESOURCES, "Out of IOCR resources");
    (CM_EC1_IOCR, CM_IOCR_INVALID_FRAME_ID, "Invalid frame ID");
    (CM_EC1_IOCR, CM_IOCR_INVALID_RT_CLASS, "Invalid RT class");
    (CM_EC1_IOCR, CM_IOCR_INVALID_DATA_LEN, "Invalid IO data length");
    (CM_EC1_IOCR, CM_IOCR_CYCLE_CONFLICT, "Cycle time conflict");
    (CM_EC1_IOCR, CM_IOCR_WATCHDOG_ERR, "Watchdog configuration error");
    (CM_EC1_IOCR_RES, CM_IOCR_INVALID_TYPE, "Invalid IOCR type (in response)");
    (CM_EC1_IOCR_RES, CM_IOCR_OUT_OF_RESOURCES, "Out of IOCR resources");
    (CM_EC1_IOCR_RES, CM_IOCR_INVALID_FRAME_ID, "Invalid frame ID");
    (CM_EC1_IOCR_RES, CM_IOCR_INVALID_RT_CLASS, "Invalid RT class");
    (CM_EC1_IOCR_RES, CM_IOCR_INVALID_DATA_LEN, "Invalid IO data length");
    (CM_EC1_IOCR_RES, CM_IOCR_CYCLE_CONFLICT, "Cycle time conflict");
    (CM_EC1_IOCR_RES, CM_IOCR_WATCHDOG_ERR, "Watchdog configuration error");
    (CM_EC1_ALARM_CR, 0x00, "Invalid AlarmCR type");
    (CM_EC1_ALARM_CR, 0x01, "Out of AlarmCR resources");
    (CM_EC1_ALARM_CR_RES, 0x00, "Invalid AlarmCR type (in response)");
    (CM_EC1_ALARM_CR_RES, 0x01, "Out of AlarmCR resources");
    (CM_EC1_EXPECTED_SUBMOD, CM_SUBMOD_INVALID_SLOT, "Invalid slot in ExpectedSubmodule");
    (CM_EC1_EXPECTED_SUBMOD, CM_SUBMOD_INVALID_SUBSLOT, "Invalid subslot in ExpectedSubmodule");
    (CM_EC1_EXPECTED_SUBMOD, CM_SUBMOD_WRONG_MODULE, "Wrong module ident number");
    (CM_EC1_EXPECTED_SUBMOD, CM_SUBMOD_WRONG_SUBMOD, "Wrong submodule ident number");
    (CM_EC1_EXPECTED_SUBMOD, CM_SUBMOD_IO_LEN_MISMATCH, "IO data length mismatch");
    (CM_EC1_CMDEV, CM_DEV_STATE_CONFLICT, "Device state conflict (AR may be active)");
    (CM_EC1_CMDEV, CM_DEV_CONNECT_RESOURCE, "Connect resource unavailable");
    (CM_EC1_CMDEV, CM_DEV_ALREADY_OWNED, "Device already owned by another controller");
    (CM_EC1_CMDEV, CM_DEV_AR_SET_ABORT, "AR set aborted");
    (CM_EC1_FAULTY_BLOCK, 0x00, "Faulty block structure") ].

Definition CM_BLOCK_NAMES : list (Z * string) :=
  [ (0x01, "ARBlockReq"); (0x02, "IOCRBlockReq"); (0x03, "AlarmCRBlockReq"); (0x04, "ExpectedSubmoduleBlockReq"); (0x05, "ModuleDiffBlock"); (0x06, "ARRPCBlock"); (0x07, "IRInfoBlock"); (0x08, "SRInfoBlock"); (0x09, "ARFSUBlock"); (0x10, "IODControlReq"); (0x11, "IODControlRes"); (0x81, "ARBlockRes"); (0x82, "IOCRBlockRes"); (0x83, "AlarmCRBlockRes"); (0x84, "ModuleDiffBlockRes"); (0x85, "ARServerBlockRes"); (0x3D, "PrmServer"); (0x3E, "CMCTL"); (0x3F, "CMDEV"); (0x40, "CMRPC"); (0xFD, "FaultyRecord"); (0xFE, "FaultyAR"); (0xFF, "FaultyBlock") ].

Record PnioError := {
  message : string;
  error_code : Z;
  error_decode : Z;
  error_code1 : Z;
  error_code2 : Z;
}.

Definition lookup (table : list (Z * Z * string)) (key : Z * Z) : option string :=
  snd <$> List.find (fun e => (fst (fst e) =? fst key) && (snd (fst e) =? snd key)) table.

Definition cm_block_name (c : Z) : option string :=
  snd <$> List.find (fun e => fst e =? c) CM_BLOCK_NAMES.

Definition from_codes (code decode code1 code2 : Z) : PnioError :=
  let key := (code1, code2) in
  let msg :=
    if decode =? DECODE_PNIO_CM then
      match lookup PNIOCM_ERROR_MESSAGES key with
      | Some m => m
      | None => "Unknown CM error in "
                +:+ match cm_block_name code1 with
                    | Some n => n
                    | None => "block 0x" +:+ hexu 2 code1
                    end
      end
    else if decode =? DECODE_PNIO then
      match lookup PNIO_ERROR_MESSAGES key with
      | Some m => m
      | None =>
          match lookup PNIORW_ERROR_MESSAGES key with
          | Some m => m
          | None => "Unknown PNIO error"
          end
      end
    else if decode =? DECODE_PNIORW then
      match lookup PNIORW_ERROR_MESSAGES key with
      | Some m => m
      | None => "Unknown PNIORW error"
      end
    else "Unknown error (Decode=0x" +:+ hexu 2 decode +:+ ")" in
  {| message := msg; error_code := code; error_decode := decode; error_code1 := code1;
     error_code2 := code2 |}.

Definition from_bytes (d : list Z) : outcome PnioError :=
  if len d <? 4 then
    Ok {| message := "Incomplete error data"; error_code := 0; error_decode := 0; error_code1 := 0;
          error_code2 := 0 |}
  else
    let? a := idx d 0 in
    let? b := idx d 1 in
    let? c := idx d 2 in
    let? e := idx d 3 in
    Ok (from_codes a b c e).

(** [u32::swap_bytes]. *)
Definition swap_bytes (v : Z) : Z :=
  be32 (v mod 256) (v / 256 mod 256) (v / 65536 mod 256) (v / 16777216 mod 256).

Definition from_args_status (args_status : Z) : PnioError :=
  let swapped := swap_bytes args_status in
  from_codes (as_u8 (Z.land (Z.shiftr swapped 24) 0xFF)) (as_u8 (Z.land (Z.shiftr swapped 16) 0xFF))
             (as_u8 (Z.land (Z.shiftr swapped 8) 0xFF)) (as_u8 (Z.land swapped 0xFF)).

Definition is_cm_error (e : PnioError) : bool := error_decode e =? DECODE_PNIO_CM.

Definition block_name (e : PnioError) : string :=
  if is_cm_error e then
    match cm_block_name (error_code1 e) with
    | Some n => n
    | None => "Unknown(0x" +:+ hexu 2 (error_code1 e) +:+ ")"
    end
  else EmptyString.

(** [Display]. *)
Definition to_string (e : PnioError) : string :=
  if is_cm_error e then
    message e +:+ " [CM:" +:+ block_name e +:+ ", EC2=0x" +:+ hexu 2 (error_code2 e) +:+ "]"
  else
    message e +:+ " [ErrorCode1=0x" +:+ hexu 2 (error_code1 e) +:+ ", ErrorCode2=0x"
    +:+ hexu 2 (error_code2 e) +:+ "]".

Inductive ProfinetError :=
| Dcp (m : string) | DcpTimeout (m : string) | DcpDeviceNotFound (m : string) | Rpc (m : string)
| RpcTimeout (m : string) | RpcFault (m : string) (fault_code : Z) | RpcConnection (m : string)
| Pnio (e : PnioError) | Validation (m : string) | InvalidMac (m : string) | InvalidIp (m : string)
| Socket (m : string) | PermissionDenied (m : string).

Definition profinet_error_string (e : ProfinetError) : string :=
  match e with
  | Dcp m | DcpTimeout m | DcpDeviceNotFound m | Rpc m | RpcTimeout m | RpcConnection m
  | Validation m | InvalidMac m | InvalidIp m | Socket m | PermissionDenied m => m
  | RpcFault m _ => m
  | Pnio e => to_string e
  end.

(** ** The tables *)

Definition keys (t : list (Z * Z * string)) : list (Z * Z) := fst <$> t.

Lemma lookup_in t key m : NoDup (keys t) -> lookup t key = Some m <-> (key, m) ∈ t.
Proof.
  unfold lookup, keys. induction t as [|[[a b] m'] t IH]; cbn [fmap list_fmap List.find fst snd]; intros Hnd.
  - split; [done|by intros ?%not_elem_of_nil].
  - apply NoDup_cons in Hnd as [Hno Hnd]. rewrite elem_of_cons.
    destruct ((a =? fst key) && (b =? snd key)) eqn:E.
    + assert (key = (a, b)) as -> by (destruct key; cbn in *; f_equal; lia). cbn. split.
      * intros [= ->]. by left.
      * intros [[= ->]|Hin]; [done|]. destruct Hno. by apply (list_elem_of_fmap_2 fst) in Hin.
    + rewrite IH by done. split; [by right|]. intros [[= ->]|Hin]; [cbn in *; lia|done].
Qed.

Lemma swap_bytes_bytes v :
  u32_ok v -> swap_bytes v = be32 (v mod 256) (v / 256 mod 256) (v / 65536 mod 256) (v / 16777216 mod 256).
Proof. done. Qed.

Lemma byte_of_be32 a b c d :
  byte_ok a -> byte_ok b -> byte_ok c -> byte_ok d ->
  as_u8 (Z.land (Z.shiftr (be32 a b c d) 24) 0xFF) = a /\
  as_u8 (Z.land (Z.shiftr (be32 a b c d) 16) 0xFF) = b /\
  as_u8 (Z.land (Z.shiftr (be32 a b c d) 8) 0xFF) = c /\ as_u8 (Z.land (be32 a b c d) 0xFF) = d.
Proof.
  unfold byte_ok, as_u8, be32. intros. change 0xFF with (Z.ones 8). rewrite !Z.land_ones, !Z.shiftr_div_pow2 by lia.
  change (2 ^ 24) with 16777216. change (2 ^ 16) with 65536. change (2 ^ 8) with 256.
  split_and!; zdiv.
Qed.

(** A status is decoded the same whichever way it was read: from its four
    bytes or from the word parsed in the wrong byte order; the four codes are
    kept, and every documented pair of codes gets exactly its documented
    message, PNIORW messages also under the general PNIO decoder unless that
    has its own. *)
Theorem pnio_status_decoding :
  (forall a b c d, byte_ok a -> byte_ok b -> byte_ok c -> byte_ok d ->
     from_bytes [a; b; c; d] = Ok (from_codes a b c d) /\
     from_args_status (be32 d c b a) = from_codes a b c d /\
     error_code (from_codes a b c d) = a /\ error_decode (from_codes a b c d) = b /\
     error_code1 (from_codes a b c d) = c /\ error_code2 (from_codes a b c d) = d) /\
  (forall a k m, (k, m) ∈ PNIOCM_ERROR_MESSAGES ->
     message (from_codes a DECODE_PNIO_CM (fst k) (snd k)) = m) /\
  (forall a k m, (k, m) ∈ PNIO_ERROR_MESSAGES ->
     message (from_codes a DECODE_PNIO (fst k) (snd k)) = m) /\
  (forall a k m, (k, m) ∈ PNIORW_ERROR_MESSAGES ->
     message (from_codes a DECODE_PNIORW (fst k) (snd k)) = m /\
     (k ∉ keys PNIO_ERROR_MESSAGES -> message (from_codes a DECODE_PNIO (fst k) (snd k)) = m)).
Proof.
  assert (N1 : NoDup (keys PNIOCM_ERROR_MESSAGES)) by (apply (bool_decide_unpack _); vm_compute; exact I).
  assert (N2 : NoDup (keys PNIO_ERROR_MESSAGES)) by (apply (bool_decide_unpack _); vm_compute; exact I).
  assert (N3 : NoDup (keys PNIORW_ERROR_MESSAGES)) by (apply (bool_decide_unpack _); vm_compute; exact I).
  split_and!.
  - intros a b c d Ha Hb Hc Hd. split; [done|]. split; [|done].
    unfold from_args_status.
    assert (E : swap_bytes (be32 d c b a) = be32 a b c d).
    { unfold swap_bytes. set (v := be32 d c b a).
      assert (v mod 256 = a /\ v / 256 mod 256 = b /\ v / 65536 mod 256 = c /\ v / 16777216 mod 256 = d)
        as (-> & -> & -> & ->); [|done].
      unfold v, be32, byte_ok in *. split_and!; zdiv. }
    rewrite E. destruct (byte_of_be32 a b c d Ha Hb Hc Hd) as (-> & -> & -> & ->). done.
  - intros a k m H. apply (lookup_in _ _ _ N1) in H. unfold from_codes. cbn [message]. rewrite Z.eqb_refl.
    destruct k. cbn [fst snd]. by rewrite H.
  - intros a k m H. apply (lookup_in _ _ _ N2) in H. unfold from_codes. cbn [message].
    change (DECODE_PNIO =? DECODE_PNIO_CM) with false. rewrite Z.eqb_refl. destruct k. cbn [fst snd]. by rewrite H.
  - intros a k m H. apply (lookup_in _ _ _ N3) in H. unfold from_codes. cbn [message].
    change (DECODE_PNIORW =? DECODE_PNIO_CM) with false. change (DECODE_PNIORW =? DECODE_PNIO) with false.
    change (DECODE_PNIO =? DECODE_PNIO_CM) with false. rewrite !Z.eqb_refl. destruct k. cbn [fst snd]. rewrite H.
    split; [done|]. intros Hno. destruct (lookup PNIO_ERROR_MESSAGES _) as [m'|] eqn:E; [|done].
    apply (lookup_in _ _ _ N2) in E. destruct Hno. by apply (list_elem_of_fmap_2 fst) in E.
Qed.

Example pnio_status_decoding_witness :
  message (from_codes 0xDE DECODE_PNIORW EC1_RESOURCE EC2_INVALID_SLOT) = "Invalid slot number" /\
  from_args_status (be32 0x07 0xB2 0x80 0xDE) = from_codes 0xDE 0x80 0xB2 0x07.
Proof.
  split.
  - refine (proj1 (proj2 (proj2 (proj2 pnio_status_decoding)) 0xDE (0xB2, 0x07) "Invalid slot number" _)).
    apply (bool_decide_unpack _). vm_compute. exact I.
  - refine (proj1 (proj2 (proj1 pnio_status_decoding 0xDE 0x80 0xB2 0x07 _ _ _ _))); unfold byte_ok; lia.
Defined.
