(* ===== verification/Transport.v ===== *)
(** * The RPC connection ([src/src/transport.rs])

    Response parsers, the request/response matching loop, the AR state of
    [RpcConn] and the confirmation of ApplicationReady, over the transport
    interface [RpcTransport]. *)

From S2P Require Import Prelude Fmt Blocks Rpc Connect.
From S2P Require Errors.

#[local] Open Scope string_scope.
#[local] Open Scope list_scope.
#[local] Open Scope Z_scope.

Definition RPC_PORT : Z := 0x8894.
Definition READ_LENGTH : Z := 4096.
Definition PACKET_TYPE_REQUEST : Z := 0x00.
Definition PACKET_TYPE_RESPONSE : Z := 0x02.
Definition PACKET_TYPE_FAULT : Z := 0x03.
Definition PACKET_TYPE_REJECT : Z := 0x06.
Definition BLOCK_IOD_CONTROL_PRM_END_REQ : Z := 0x0110.
Definition BLOCK_IOD_CONTROL_APP_READY_REQ : Z := 0x0112.
Definition BLOCK_IOD_CONTROL_APP_READY_RES : Z := 0x8112.
Definition BLOCK_IOD_RELEASE_REQ : Z := 0x0114.
Definition BLOCK_PRM_BEGIN_REQ : Z := 0x0118.
Definition CONTROL_CMD_PRM_END : Z := 0x0001.
Definition CONTROL_CMD_APPLICATION_READY : Z := 0x0002.
Definition CONTROL_CMD_RELEASE : Z := 0x0004.
Definition CONTROL_CMD_DONE : Z := 0x0008.
Definition CONTROL_CMD_PRM_BEGIN : Z := 0x0040.
Definition IOCR_BLOCK_RES : Z := 0x8102.
Definition MODULE_DIFF_BLOCK : Z := 0x8104.
Definition AR_INFO_OK : Z := 0.
Definition AR_INFO_APPLICATION_READY_PENDING : Z := 1.
Definition AR_INFO_LOCKED_SUPERORDINATED : Z := 2.
Definition AR_INFO_LOCKED_BY_IOC : Z := 3.
Definition AR_INFO_LOCKED_BY_IOS : Z := 4.
Definition IDENT_INFO_OK : Z := 0.
Definition IDENT_INFO_SUBSTITUTE : Z := 1.
Definition IDENT_INFO_WRONG : Z := 2.
Definition IDENT_INFO_NO_SUBMODULE : Z := 3.
Definition SUBMODULE_STATE_HAS_FIELDS : Z := 0x8000.

Definition rd_u16 (d : list Z) (off : Z) (le : bool) : outcome Z :=
  if le then rd_le16 d off else rd_be16 d off.
Definition rd_u32 (d : list Z) (off : Z) (le : bool) : outcome Z :=
  if le then rd_le32 d off else rd_be32 d off.
Definition wr_u16 (v : Z) (le : bool) : list Z := if le then le16_bytes v else be16_bytes v.
Definition wr_u32 (v : Z) (le : bool) : list Z := if le then le32_bytes v else be32_bytes v.

(** ** Headers *)

Record ParsedRpc := {
  version : Z;
  packet_type : Z;
  flags1 : Z;
  flags2 : Z;
  drep : list Z;
  serial_high : Z;
  h_object_uuid : list Z;
  interface_uuid : list Z;
  h_activity_uuid : list Z;
  server_boot_time : Z;
  interface_version : Z;
  h_sequence_number : Z;
  operation_number : Z;
  interface_hint : Z;
  activity_hint : Z;
  length_of_body : Z;
  fragment_number : Z;
  auth_protocol : Z;
  serial_low : Z;
  is_little_endian : bool;
  payload : list Z;
}.

Definition parse_rpc_header (d : list Z) : outcome (option ParsedRpc) :=
  if len d <? 80 then Ok None
  else
    let? d4 := idx d 4 in
    let le := negb (Z.land d4 0x10 =? 0) in
    let? v0 := idx d 0 in
    let? v1 := idx d 1 in
    let? v2 := idx d 2 in
    let? v3 := idx d 3 in
    let? dr := slice d 4 7 in
    let? v7 := idx d 7 in
    let? u8 := slice d 8 24 in
    let? u24 := slice d 24 40 in
    let? u40 := slice d 40 56 in
    let? w56 := rd_u32 d 56 le in
    let? w60 := rd_u32 d 60 le in
    let? w64 := rd_u32 d 64 le in
    let? h68 := rd_u16 d 68 le in
    let? h70 := rd_u16 d 70 le in
    let? h72 := rd_u16 d 72 le in
    let? h74 := rd_u16 d 74 le in
    let? h76 := rd_u16 d 76 le in
    let? v78 := idx d 78 in
    let? v79 := idx d 79 in
    let? p := slice_from d 80 in
    Ok (Some {| version := v0; packet_type := v1; flags1 := v2; flags2 := v3; drep := dr;
                serial_high := v7; h_object_uuid := u8; interface_uuid := u24;
                h_activity_uuid := u40; server_boot_time := w56; interface_version := w60;
                h_sequence_number := w64; operation_number := h68; interface_hint := h70;
                activity_hint := h72; length_of_body := h74; fragment_number := h76;
                auth_protocol := v78; serial_low := v79; is_little_endian := le; payload := p |}).

Definition parse_rpc_response (d : list Z) : outcome (option ParsedRpc) :=
  let? h := parse_rpc_header d in
  let? hdr := ok_or h ("Failed to parse RPC response: data too short (" +:+ dec (len d) +:+ " bytes)") in
  let t := packet_type hdr in
  if t =? PACKET_TYPE_REQUEST then Ok None
  else if t =? PACKET_TYPE_RESPONSE then Ok (Some hdr)
  else if t =? PACKET_TYPE_FAULT then
    Err ("RPC fault from device (fault code 0x" +:+ hexu 4 (operation_number hdr) +:+ ")")
  else if t =? PACKET_TYPE_REJECT then Err "RPC request rejected by device"
  else Err ("Unexpected RPC packet type: 0x" +:+ hexu 2 t).

Definition drep_normalized_uuid (uuid : list Z) (little_endian : bool) : list Z :=
  if negb little_endian then uuid
  else rev (take 4 uuid) ++ rev (take 2 (drop 4 uuid)) ++ rev (take 2 (drop 6 uuid)) ++ drop 8 uuid.

Record ParsedNrd := {
  args_status : Z;
  args_length : Z;
  maximum_count : Z;
  n_offset : Z;
  actual_count : Z;
  n_payload : list Z;
}.

Definition parse_nrd (d : list Z) (le : bool) : outcome ParsedNrd :=
  if len d <? 20 then Err ("NRD header too short (" +:+ dec (len d) +:+ " bytes)")
  else
    let? a := rd_u32 d 0 le in
    let? l := rd_u32 d 4 le in
    let? m := rd_u32 d 8 le in
    let? o := rd_u32 d 12 le in
    let? c := rd_u32 d 16 le in
    let? p := slice_from d 20 in
    Ok {| args_status := a; args_length := l; maximum_count := m; n_offset := o; actual_count := c;
          n_payload := p |}.

Record ParsedIod := {
  i_block_type : Z;
  i_block_length : Z;
  i_sequence_number : Z;
  i_ar_uuid : list Z;
  i_api : Z;
  i_slot : Z;
  i_subslot : Z;
  i_index : Z;
  i_length : Z;
  i_payload : list Z;
}.

Definition parse_iod_header (d : list Z) : outcome ParsedIod :=
  if len d <? 64 then Err ("IOD header too short (" +:+ dec (len d) +:+ " bytes)")
  else
    let? u := slice d 8 24 in
    let? bt := rd_u16 d 0 false in
    let? bl := rd_u16 d 2 false in
    let? sq := rd_u16 d 6 false in
    let? ap := rd_u32 d 24 false in
    let? sl := rd_u16 d 28 false in
    let? ss := rd_u16 d 30 false in
    let? ix := rd_u16 d 34 false in
    let? ln := rd_u32 d 36 false in
    let? p := slice_from d 64 in
    Ok {| i_block_type := bt; i_block_length := bl; i_sequence_number := sq; i_ar_uuid := u;
          i_api := ap; i_slot := sl; i_subslot := ss; i_index := ix; i_length := ln; i_payload := p |}.

(** ** Connect responses *)

Definition iocr_res_body (d : list Z) (iocr_type offset : Z) : outcome (step Z Z) :=
  if offset + 6 <=? len d then
    let? block_type := rd_u16 d offset false in
    let? block_length := rd_u16 d (offset + 2) false in
    let next := Ok (Continue (offset + (4 + block_length))) in
    if (block_type =? IOCR_BLOCK_RES) && (offset + 12 <=? len d) then
      let? res_type := rd_u16 d (offset + 6) false in
      if res_type =? iocr_type then let? f := rd_u16 d (offset + 10) false in Ok (Break f) else next
    else next
  else Ok (Break 0).

Definition parse_iocr_block_res (d : list Z) (iocr_type : Z) : outcome Z :=
  loop (S (length d)) (iocr_res_body d iocr_type) 0.

Record SubmoduleDiff := {
  sd_slot : Z;
  sd_subslot : Z;
  sd_submodule_ident : Z;
  sd_state : Z;
}.

Definition has_fields (d : SubmoduleDiff) : bool :=
  negb (Z.land (sd_state d) SUBMODULE_STATE_HAS_FIELDS =? 0).
Definition ident_info (d : SubmoduleDiff) : option Z :=
  if has_fields d then Some (Z.land (Z.shiftr (sd_state d) 11) 0xF) else None.
Definition ar_info (d : SubmoduleDiff) : option Z :=
  if has_fields d then Some (Z.land (Z.shiftr (sd_state d) 7) 0xF) else None.
Definition is_locked (d : SubmoduleDiff) : bool :=
  match ar_info d with
  | Some a => (a =? AR_INFO_LOCKED_SUPERORDINATED) || (a =? AR_INFO_LOCKED_BY_IOC)
              || (a =? AR_INFO_LOCKED_BY_IOS)
  | None => false
  end.
Definition is_ours (d : SubmoduleDiff) : bool :=
  match ar_info d, ident_info d with
  | Some a, Some i =>
      ((a =? AR_INFO_OK) || (a =? AR_INFO_APPLICATION_READY_PENDING)) && (i =? IDENT_INFO_OK)
  | _, _ => true
  end.
Definition reason (d : SubmoduleDiff) : string :=
  match ar_info d, ident_info d with
  | Some a, Some i =>
      let owner :=
        if a =? AR_INFO_OK then "owned by this AR"
        else if a =? AR_INFO_APPLICATION_READY_PENDING then "owned by this AR, application not ready yet"
        else if a =? AR_INFO_LOCKED_SUPERORDINATED then "locked by a superordinated relationship"
        else if a =? AR_INFO_LOCKED_BY_IOC then "locked by another IO-controller"
        else if a =? AR_INFO_LOCKED_BY_IOS then "locked by an IO-supervisor"
        else "ARInfo 0x" +:+ hexu 0 a +:+ ", a value this code does not know" in
      if i =? IDENT_INFO_OK then owner
      else owner +:+ ", but " +:+
           (if i =? IDENT_INFO_SUBSTITUTE then "a substitute is plugged"
            else if i =? IDENT_INFO_WRONG then "the wrong submodule is plugged"
            else if i =? IDENT_INFO_NO_SUBMODULE then "nothing is plugged there"
            else "IdentInfo is a value this code does not know")
  | _, _ => "SubmoduleState 0x" +:+ hexu 4 (sd_state d) +:+ ", not in the field format"
  end.

(** [for _ in 0..n] with [break]; the state is the offset and what was found. *)
Definition DiffState := (Z * list SubmoduleDiff)%type.
Fixpoint for_upto (n : nat) (body : DiffState -> outcome (step DiffState DiffState)) (s : DiffState)
    : outcome DiffState :=
  match n with
  | O => Ok s
  | S n =>
      let? r := body s in
      match r with Continue s => for_upto n body s | Break s => Ok s end
  end.

Definition diff_submodule (d : list Z) (end_ slot : Z) (st : DiffState) : outcome (step DiffState DiffState) :=
  let '(p, found) := st in
  if end_ <? p + 8 then Ok (Break st)
  else
    let? ss := rd_u16 d p false in
    let? id := rd_u32 d (p + 2) false in
    let? state := rd_u16 d (p + 6) false in
    Ok (Continue (p + 8, found ++ [ {| sd_slot := slot; sd_subslot := ss; sd_submodule_ident := id;
                                       sd_state := state |} ])).

Definition diff_module (d : list Z) (end_ : Z) (st : DiffState) : outcome (step DiffState DiffState) :=
  let '(p, found) := st in
  if end_ <? p + 10 then Ok (Break st)
  else
    let? slot := rd_u16 d p false in
    let? submodules := rd_u16 d (p + 8) false in
    let? st := for_upto (Z.to_nat submodules) (diff_submodule d end_ slot) (p + 10, found) in
    Ok (Continue st).

Definition diff_api (d : list Z) (end_ : Z) (st : DiffState) : outcome (step DiffState DiffState) :=
  let '(p, found) := st in
  if end_ <? p + 6 then Ok (Break st)
  else
    let? modules := rd_u16 d (p + 4) false in
    let? st := for_upto (Z.to_nat modules) (diff_module d end_) (p + 6, found) in
    Ok (Continue st).

Definition diff_block (d : list Z) (offset block_length : Z) (found : list SubmoduleDiff)
    : outcome (list SubmoduleDiff) :=
  let end_ := Z.min (offset + 4 + block_length) (len d) in
  let p := offset + 6 in
  if p + 2 <=? end_ then
    let? apis := rd_u16 d p false in
    let? st := for_upto (Z.to_nat apis) (diff_api d end_) (p + 2, found) in
    Ok (snd st)
  else Ok found.

Definition module_diff_body (d : list Z) (st : DiffState) : outcome (step DiffState (list SubmoduleDiff)) :=
  let '(offset, found) := st in
  if offset + 6 <=? len d then
    let? block_type := rd_u16 d offset false in
    let? block_length := rd_u16 d (offset + 2) false in
    let? found := (if block_type =? MODULE_DIFF_BLOCK then diff_block d offset block_length found
                   else Ok found) in
    Ok (Continue (offset + (4 + block_length), found))
  else Ok (Break found).

Definition parse_module_diff_block (d : list Z) : outcome (list SubmoduleDiff) :=
  loop (S (length d)) (module_diff_body d) (0, []).

Record ConnectResult := {
  r_input_frame_id : Z;
  r_output_frame_id : Z;
  has_cyclic : bool;
}.

Definition pnio_status_str (args_status : Z) : outcome string :=
  let? e := Errors.from_bytes (be32_bytes args_status) in
  Ok ("0x" +:+ hexu 8 args_status +:+ " (" +:+ Errors.to_string e +:+ ")").

Definition diff_detail (d : SubmoduleDiff) : string :=
  "slot " +:+ dec (sd_slot d) +:+ "/subslot 0x" +:+ hexu 0 (sd_subslot d) +:+ " ident 0x"
  +:+ hexu 4 (sd_submodule_ident d) +:+ ": " +:+ reason d.

Definition withheld_error (withheld : list SubmoduleDiff) : string :=
  let advice := if existsb is_locked withheld then "Release the device at whoever owns it first"
                else "Check the configuration against what the device really has plugged" in
  "the device accepted the AR but withheld " +:+ dec (len withheld)
  +:+ " submodule(s), so its cyclic frames would carry substitute data with IOPS bad: "
  +:+ join "; " (diff_detail <$> withheld) +:+ ". " +:+ advice.

Definition parse_connect_response (rpc_payload : list Z) (le : bool) : outcome ConnectResult :=
  let? nrd := parse_nrd rpc_payload le in
  if negb (args_status nrd =? 0) then
    let? s := pnio_status_str (args_status nrd) in
    Err ("Connect rejected by device: PNIO status " +:+ s)
  else
    let? diffs := parse_module_diff_block (n_payload nrd) in
    let withheld := filter (fun d => is_ours d = false) diffs in
    if negb (len withheld =? 0) then Err (withheld_error withheld)
    else
      let? i := parse_iocr_block_res (n_payload nrd) 1 in
      let? o := parse_iocr_block_res (n_payload nrd) 2 in
      Ok {| r_input_frame_id := i; r_output_frame_id := o;
            has_cyclic := negb (i =? 0) || negb (o =? 0) |}.

Definition parse_read_response (rpc_payload : list Z) (le : bool) : outcome (list Z) :=
  let? nrd := parse_nrd rpc_payload le in
  if negb (args_status nrd =? 0) then
    let? s := pnio_status_str (args_status nrd) in Err ("PNIO error status " +:+ s)
  else
    let? h := parse_iod_header (n_payload nrd) in Ok (i_payload h).

Definition parse_status_response (rpc_payload : list Z) (le : bool) : outcome (list Z) :=
  let? nrd := parse_nrd rpc_payload le in
  if negb (args_status nrd =? 0) then
    let? s := pnio_status_str (args_status nrd) in Err ("PNIO error status " +:+ s)
  else Ok (n_payload nrd).

(** ** Control blocks *)

Definition iod_control_block (block_type : Z) (ar_uuid : list Z) (session_key control_command : Z)
    : list Z :=
  block_header block_type 28 1 0 ++ be16_bytes 0 ++ ar_uuid ++ be16_bytes session_key
  ++ be16_bytes 0 ++ be16_bytes control_command ++ be16_bytes 0.

Definition release_request (object_uuid iface_uuid activity_uuid ar_uuid : list Z)
    (session_key seq : Z) : list Z :=
  rpc_request object_uuid iface_uuid activity_uuid seq RELEASE
    (nrd (iod_control_block BLOCK_IOD_RELEASE_REQ ar_uuid session_key CONTROL_CMD_RELEASE)).

Record CControlRequest := {
  cc_block_type : Z;
  control_command : Z;
  nrd_body : list Z;
}.

Definition parse_ccontrol_request (hdr : ParsedRpc) : outcome CControlRequest :=
  if negb (packet_type hdr =? PACKET_TYPE_REQUEST) then
    Err ("Not a REQUEST (type=0x" +:+ hexu 2 (packet_type hdr) +:+ ")")
  else if negb (operation_number hdr =? CONTROL) then
    Err ("Not CONTROL opnum (op=" +:+ dec (operation_number hdr) +:+ ")")
  else
    let? nrd := parse_nrd (payload hdr) (is_little_endian hdr) in
    let p := n_payload nrd in
    if len p <? 32 then Err ("CControl payload too short: " +:+ dec (len p) +:+ " bytes")
    else
      let? bt := rd_u16 p 0 false in
      let? cmd := rd_u16 p 28 false in
      Ok {| cc_block_type := bt; control_command := cmd; nrd_body := p |}.

Definition ccontrol_response (req : ParsedRpc) (ar_uuid : list Z) (session_key : Z)
    : outcome (list Z) :=
  let le := is_little_endian req in
  let control := iod_control_block BLOCK_IOD_CONTROL_APP_READY_RES ar_uuid session_key CONTROL_CMD_DONE in
  let n := as_u32 (len control) in
  let? parsed := ok_ (parse_nrd (payload req) le) in
  let req_max_count := match parsed with Some r => maximum_count r | None => n end in
  let nrd := wr_u32 0 le ++ wr_u32 n le ++ wr_u32 req_max_count le ++ wr_u32 0 le ++ wr_u32 n le
             ++ control in
  Ok ([version req] ++ [PACKET_TYPE_RESPONSE] ++ [Z.lor RPC_FLAGS1_LASTFRAG RPC_FLAGS1_NOFACK]
      ++ [0x00] ++ drep req ++ [serial_high req] ++ h_object_uuid req ++ interface_uuid req
      ++ h_activity_uuid req ++ wr_u32 0 le ++ wr_u32 (interface_version req) le
      ++ wr_u32 (h_sequence_number req) le ++ wr_u16 (operation_number req) le
      ++ wr_u16 0xFFFF le ++ wr_u16 0xFFFF le ++ wr_u16 (as_u16 (len nrd)) le ++ wr_u16 0 le
      ++ [0x00] ++ [serial_low req] ++ nrd).

Definition extract_app_ready (d : list Z) : outcome (option (ParsedRpc * CControlRequest)) :=
  let? h := parse_rpc_header d in
  match h with
  | None => Ok None
  | Some hdr =>
      let? cc := ok_ (parse_ccontrol_request hdr) in
      match cc with
      | None => Ok None
      | Some cc =>
          if negb (cc_block_type cc =? BLOCK_IOD_CONTROL_APP_READY_REQ) then Ok None
          else Ok (Some (hdr, cc))
      end
  end.

(** ** The transport interface

    Two channels, requests and responses, and the device-initiated CControl;
    every operation may change the transport's own state [T]. *)
Class RpcTransport (T : Type) := {
  send_request : list Z -> T -> T * outcome unit;
  recv_response : T -> T * outcome (option (list Z));
  recv_ccontrol : T -> T * outcome (option (list Z));
  reply_ccontrol : list Z -> T -> T * outcome unit;
  peer : T -> string;
}.

(** ** The connection *)

Record RpcConn (T : Type) := mkConn {
  transport : T;
  object_uuid_ : list Z;
  activity_uuid : list Z;
  ar_uuid : list Z;
  session_key : Z;
  sequence_number : Z;
  input_frame_id : Z;
  output_frame_id : Z;
  connected : bool;
}.
Arguments mkConn {T}.
Arguments transport {T}.
Arguments object_uuid_ {T}.
Arguments activity_uuid {T}.
Arguments ar_uuid {T}.
Arguments session_key {T}.
Arguments sequence_number {T}.
Arguments input_frame_id {T}.
Arguments output_frame_id {T}.
Arguments connected {T}.

Section Conn.
Context {T : Type} `{RpcTransport T}.

(** [with_transport]: the random bytes are arguments. *)
Definition conn_new (t : T) (device_id vendor_id : Z) (activity ar : list Z) (key : Z) : RpcConn T :=
  mkConn t (object_uuid (device_id / 256 mod 256) (device_id mod 256) (vendor_id / 256 mod 256) (vendor_id mod 256))
    activity ar (if key =? 0 then 1 else key) 0 0 0 false.

(** A fallible operation of the connection. *)
Definition C (A : Type) : Type := RpcConn T -> RpcConn T * outcome A.

Definition cret {A} (a : A) : C A := fun c => (c, Ok a).
Definition cbind {A B} (m : C A) (k : A -> C B) : C B := fun c =>
  match m c with
  | (c, Ok a) => k a c
  | (c, Err e) => (c, Err e)
  | (c, Panic) => (c, Panic)
  | (c, OutOfFuel) => (c, OutOfFuel)
  end.
Definition cget {A} (f : RpcConn T -> A) : C A := fun c => (c, Ok (f c)).
Definition clift {A} (o : outcome A) : C A := fun c => (c, o).
Definition cmap_err {A} (f : string -> string) (m : C A) : C A := fun c =>
  let '(c, o) := m c in (c, map_err f o).
Definition cmodify (f : RpcConn T -> RpcConn T) : C unit := fun c => (f c, Ok tt).

Definition with_transport (t : T) (c : RpcConn T) : RpcConn T :=
  mkConn t (object_uuid_ c) (activity_uuid c) (ar_uuid c) (session_key c) (sequence_number c)
    (input_frame_id c) (output_frame_id c) (connected c).
Definition with_seq (n : Z) (c : RpcConn T) : RpcConn T :=
  mkConn (transport c) (object_uuid_ c) (activity_uuid c) (ar_uuid c) (session_key c) n
    (input_frame_id c) (output_frame_id c) (connected c).
Definition with_ids (i o : Z) (c : RpcConn T) : RpcConn T :=
  mkConn (transport c) (object_uuid_ c) (activity_uuid c) (ar_uuid c) (session_key c)
    (sequence_number c) i o (connected c).
Definition with_connected (b : bool) (c : RpcConn T) : RpcConn T :=
  mkConn (transport c) (object_uuid_ c) (activity_uuid c) (ar_uuid c) (session_key c)
    (sequence_number c) (input_frame_id c) (output_frame_id c) b.

Definition ctransport {A} (f : T -> T * outcome A) : C A := fun c =>
  let '(t, o) := f (transport c) in (with_transport t c, o).

End Conn.

Notation "'let!' x := m 'in' k" := (cbind m (fun x => k))
  (at level 10, x binder, m at level 100, k at level 200) : rust_scope.
Notation "'do!' m ; k" := (cbind m (fun _ => k))
  (at level 10, m at level 100, k at level 200) : rust_scope.

Section Requests.
Context {T : Type} `{RpcTransport T}.

Definition next_seq : C Z :=
  let! seq := cget sequence_number in
  do! cmodify (with_seq (wrap_add32 seq 1));
  cret (T := T) seq.

(** [next_rpc_response] with [send_receive]'s receive closure; [passes] is the
    number of receives the wall clock allows before the deadline. *)
Fixpoint next_rpc_response (passes : nat) (expected_uuid : list Z) (expected_seq : Z) (t : T)
    : T * outcome ParsedRpc :=
  let none := Err ("No response from " +:+ peer t) in
  match passes with
  | O => (t, none)
  | S passes =>
      match recv_response t with
      | (t, Ok None) => (t, none)
      | (t, Ok (Some d)) =>
          match parse_rpc_response d with
          | Ok (Some resp) =>
              if bool_decide (drep_normalized_uuid (h_activity_uuid resp) (is_little_endian resp) = expected_uuid)
                 && (h_sequence_number resp =? expected_seq) then (t, Ok resp)
              else next_rpc_response passes expected_uuid expected_seq t
          | Ok None => next_rpc_response passes expected_uuid expected_seq t
          | Err e => (t, Err e)
          | Panic => (t, Panic)
          | OutOfFuel => (t, OutOfFuel)
          end
      | (t, Err e) => (t, Err e)
      | (t, Panic) => (t, Panic)
      | (t, OutOfFuel) => (t, OutOfFuel)
      end
  end.

Definition send_receive (passes : nat) (rpc_bytes : list Z) : C (T := T) ParsedRpc :=
  let! h := clift (parse_rpc_header rpc_bytes) in
  let! req := clift (ok_or h "outgoing RPC request too short to parse header") in
  do! ctransport (send_request rpc_bytes);
  ctransport (next_rpc_response passes
    (drep_normalized_uuid (h_activity_uuid req) (is_little_endian req)) (h_sequence_number req)).

Definition connect (passes : nat) (cm_mac cm_station_name : list Z) (setup : IocrSetup)
    : C (T := T) ConnectResult :=
  let! seq := next_seq in
  let! req := cget (fun c => build_connect_request (object_uuid_ c) IFACE_UUID_DEVICE (activity_uuid c)
                               (ar_uuid c) (session_key c) cm_mac cm_station_name setup seq) in
  let! resp := send_receive passes req in
  let! r := cmap_err (fun e => "Failed to connect: " +:+ e)
              (clift (parse_connect_response (payload resp) (is_little_endian resp))) in
  do! cmodify (with_ids (r_input_frame_id r) (r_output_frame_id r));
  do! cmodify (with_connected true);
  cret r.

Definition connect_device_access (passes : nat) (cm_mac cm_station_name : list Z) : C (T := T) unit :=
  let! seq := next_seq in
  let! req := cget (fun c => build_device_access_connect_request (object_uuid_ c) IFACE_UUID_DEVICE
                               (activity_uuid c) (ar_uuid c) (session_key c) cm_mac cm_station_name seq) in
  let! resp := send_receive passes req in
  do! cmap_err (fun e => "Failed to connect: " +:+ e)
        (clift (parse_status_response (payload resp) (is_little_endian resp)));
  cmodify (with_connected true).

Definition send_control (passes : nat) (block_type command : Z) (sub_blocks : list Z)
    : C (T := T) (list Z) :=
  let! up := cget connected in
  if negb up then clift (Err "Not connected")
  else
    let! p := cget (fun c => iod_control_block block_type (ar_uuid c) (session_key c) command ++ sub_blocks) in
    let! seq := next_seq in
    let! req := cget (fun c => rpc_request (object_uuid_ c) IFACE_UUID_DEVICE (activity_uuid c) seq
                                 CONTROL (nrd p)) in
    let! resp := send_receive passes req in
    clift (parse_status_response (payload resp) (is_little_endian resp)).

Definition prm_end (passes : nat) : C (T := T) (list Z) :=
  cmap_err (fun e => "PrmEnd failed: " +:+ e)
    (send_control passes BLOCK_IOD_CONTROL_PRM_END_REQ CONTROL_CMD_PRM_END []).

Definition prm_begin (passes : nat) : C (T := T) (list Z) :=
  cmap_err (fun e => "PrmBegin failed: " +:+ e)
    (send_control passes BLOCK_PRM_BEGIN_REQ CONTROL_CMD_PRM_BEGIN []).

(** The loop of [application_ready]; [secs] is the rendered timeout. *)
Fixpoint wait_app_ready (passes : nat) (ar : list Z) (key : Z) (timeout_err : string) (t : T)
    : T * outcome (list Z) :=
  match passes with
  | O => (t, Err timeout_err)
  | S passes =>
      match recv_ccontrol t with
      | (t, Ok None) => (t, Err timeout_err)
      | (t, Ok (Some d)) =>
          match extract_app_ready d with
          | Ok None => wait_app_ready passes ar key timeout_err t
          | Ok (Some (hdr, cc)) =>
              match ccontrol_response hdr ar key with
              | Ok resp =>
                  match reply_ccontrol resp t with
                  | (t, Ok _) => (t, Ok (nrd_body cc))
                  | (t, Err e) => (t, Err e)
                  | (t, Panic) => (t, Panic)
                  | (t, OutOfFuel) => (t, OutOfFuel)
                  end
              | Err e => (t, Err e)
              | Panic => (t, Panic)
              | OutOfFuel => (t, OutOfFuel)
              end
          | Err e => (t, Err e)
          | Panic => (t, Panic)
          | OutOfFuel => (t, OutOfFuel)
          end
      | (t, Err e) => (t, Err e)
      | (t, Panic) => (t, Panic)
      | (t, OutOfFuel) => (t, OutOfFuel)
      end
  end.

Definition application_ready (passes : nat) (secs : string) : C (T := T) (list Z) :=
  let! up := cget connected in
  if negb up then clift (Err "Not connected")
  else
    let! ar := cget ar_uuid in
    let! key := cget session_key in
    let! p := cget (fun c => peer (transport c)) in
    ctransport (wait_app_ready passes ar key
      ("No ApplicationReady from " +:+ p +:+ " within " +:+ secs +:+ "s")).

Definition send_read (passes : nat) (req : list Z) : C (T := T) (list Z) :=
  let! resp := send_receive passes req in
  clift (parse_read_response (payload resp) (is_little_endian resp)).

Definition read_raw (passes : nat) (idx_ slot subslot length_ : Z) : C (T := T) (list Z) :=
  let! seq := next_seq in
  let! req := cget (fun c => read_record_request (object_uuid_ c) IFACE_UUID_DEVICE (activity_uuid c)
                               (ar_uuid c) seq 0 slot subslot idx_ length_) in
  send_read passes req.

Definition read_raw_implicit (passes : nat) (idx_ slot subslot length_ : Z) : C (T := T) (list Z) :=
  let! seq := next_seq in
  let! req := cget (fun c => read_record_implicit_request (object_uuid_ c) IFACE_UUID_DEVICE
                               (activity_uuid c) seq 0 slot subslot idx_ length_) in
  send_read passes req.

Definition write (passes : nat) (idx_ slot subslot : Z) (d : list Z) : C (T := T) unit :=
  let! seq := next_seq in
  let! req := cget (fun c => write_record_request (object_uuid_ c) IFACE_UUID_DEVICE (activity_uuid c)
                               (ar_uuid c) seq 0 slot subslot idx_ d) in
  let! resp := send_receive passes req in
  do! clift (parse_status_response (payload resp) (is_little_endian resp));
  cret tt.

(** Entries are (idx, slot, subslot, data). *)
Definition write_multiple (passes : nat) (writes : list (Z * Z * Z * list Z))
    : C (T := T) (list WriteMultipleResult) :=
  match writes with
  | [] => cret []
  | _ =>
      let entries := (fun w => let '(idx_, slot, subslot, d) := w in
                       {| mw_api := 0; mw_slot := slot; mw_subslot := subslot; mw_index := idx_;
                          mw_data := d |}) <$> writes in
      let! seq := next_seq in
      let! req := cget (fun c => write_multiple_request (object_uuid_ c) IFACE_UUID_DEVICE
                                   (activity_uuid c) (ar_uuid c) seq entries) in
      let! resp := send_receive passes req in
      let! p := clift (parse_status_response (payload resp) (is_little_endian resp)) in
      clift (parse_write_multiple_response p)
  end.

(** A failing send is ignored; a panic is not. *)
Definition cignore {A} (m : C (T := T) A) : C (T := T) unit := fun c =>
  match m c with
  | (c, Ok _) | (c, Err _) => (c, Ok tt)
  | (c, Panic) => (c, Panic)
  | (c, OutOfFuel) => (c, OutOfFuel)
  end.

Definition release : C (T := T) unit :=
  let! up := cget connected in
  if negb up then cret tt
  else
    let! seq := next_seq in
    let! req := cget (fun c => release_request (object_uuid_ c) IFACE_UUID_DEVICE (activity_uuid c)
                                 (ar_uuid c) (session_key c) seq) in
    do! cignore (ctransport (send_request req));
    cmodify (with_connected false).

(** [Drop]. *)
Definition drop_conn : C (T := T) unit := release.

End Requests.

(** ** Parsers: totality *)

Lemma wp_rd_u16 d o le P E :
  0 <= o -> o + 2 <= len d -> (forall v, (bytes_ok d -> u16_ok v) -> P v) -> wp (rd_u16 d o le) P E.
Proof. intros. destruct le; [by apply wp_rd_le16|by apply wp_rd_be16]. Qed.
Lemma wp_rd_u32 d o le P E :
  0 <= o -> o + 4 <= len d -> (forall v, (bytes_ok d -> u32_ok v) -> P v) -> wp (rd_u32 d o le) P E.
Proof. intros. destruct le; [by apply wp_rd_le32|by apply wp_rd_be32]. Qed.

Ltac wpt_step :=
  lazymatch goal with
  | |- wp (rd_u16 _ _ _) _ _ => apply wp_rd_u16; [lia | lia | intros ? ?]
  | |- wp (rd_u32 _ _ _) _ _ => apply wp_rd_u32; [lia | lia | intros ? ?]
  | |- wp (bind (rd_u16 _ _ _) _) _ _ => apply wp_bind
  | |- wp (bind (rd_u32 _ _ _) _) _ _ => apply wp_bind
  | _ => wp_step
  end.
Ltac wpt_auto := repeat wpt_step.

(** What the fields of a parsed header are bounded by. *)
Record header_ok (h : ParsedRpc) : Prop := {
  hk_drep : length (drep h) = 3%nat;
  hk_uuids : length (h_object_uuid h) = 16%nat /\ length (interface_uuid h) = 16%nat /\
             length (h_activity_uuid h) = 16%nat;
  hk_words : u32_ok (interface_version h) /\ u32_ok (h_sequence_number h) /\ u16_ok (operation_number h);
  hk_payload : bytes_ok (payload h);
  hk_endian : is_little_endian h = negb (Z.land (hd 0 (drep h)) 0x10 =? 0);
}.

Lemma slice_hd (d r : list Z) a b x : slice d a b = Ok r -> a < b -> idx d a = Ok x -> hd 0 r = x.
Proof.
  intros Hs Hab Hx. pose proof (slice_length _ _ _ _ Hs) as (Hl & Ha & Hb).
  rewrite slice_ok in Hs by lia. injection Hs as <-.
  rewrite idx_spec in Hx by lia. destruct (d !! Z.to_nat a) as [y|] eqn:E; [|done]. injection Hx as ->.
  rewrite (drop_S d x (Z.to_nat a)) by done. destruct (Z.to_nat (b - a)) eqn:En; [lia|]. done.
Qed.

Lemma parse_rpc_header_wp d :
  bytes_ok d -> total (parse_rpc_header d) (fun h => match h with Some h => header_ok h | None => len d < 80 end).
Proof.
  intros Hd. unfold parse_rpc_header, total. destruct (len d <? 80) eqn:Hl; [cbn; lia|].
  apply wp_bind. apply wp_idx; [lia|]. intros d4 H4.
  assert (H4' : idx d 4 = Ok d4) by (rewrite idx_spec by lia; by rewrite H4). cbv zeta.
  wpt_auto. constructor; cbn [drep h_object_uuid interface_uuid h_activity_uuid interface_version
    h_sequence_number operation_number payload is_little_endian].
  - lia.
  - lia.
  - auto.
  - eapply slice_Forall; [exact Hd|eassumption].
  - erewrite (slice_hd d); [reflexivity|eassumption|lia|exact H4'].
Qed.

Lemma parse_nrd_safe d le : wp (parse_nrd d le) (fun n => bytes_ok d -> bytes_ok (n_payload n) /\ u32_ok (maximum_count n)) (fun _ => True).
Proof.
  unfold parse_nrd. destruct (len d <? 20) eqn:Hl; [done|]. wpt_auto. intros Hd. cbn. split; [|auto].
  eapply slice_Forall; [exact Hd|eassumption].
Qed.

Lemma parse_iod_safe d : safe (parse_iod_header d).
Proof. unfold parse_iod_header, safe. destruct (len d <? 64) eqn:Hl; [done|]. wpt_auto. done. Qed.

Lemma parse_rpc_response_wp d :
  bytes_ok d -> wp (parse_rpc_response d)
    (fun r => match r with Some h => header_ok h /\ packet_type h = PACKET_TYPE_RESPONSE | None => True end) (fun _ => True).
Proof.
  intros Hd. unfold parse_rpc_response. apply wp_bind. eapply wp_mono; [by apply parse_rpc_header_wp| |done].
  intros [h|] Hh; cbn [ok_or bind]; [|done]. cbv zeta.
  destruct (packet_type h =? PACKET_TYPE_REQUEST); [done|].
  destruct (packet_type h =? PACKET_TYPE_RESPONSE) eqn:E; [split; [done|lia]|].
  destruct (packet_type h =? PACKET_TYPE_FAULT); [done|]. by destruct (packet_type h =? PACKET_TYPE_REJECT).
Qed.

Lemma iocr_res_total d ty : bytes_ok d -> total (parse_iocr_block_res d ty) u16_ok.
Proof.
  intros Hd. unfold parse_iocr_block_res, total.
  apply wp_loop with (I := fun o => 0 <= o) (m := fun o => Z.to_nat (len d - o)); [|lia|lia].
  intros o Ho. unfold iocr_res_body. destruct (o + 6 <=? len d) eqn:H1; [|cbn; unfold u16_ok; lia].
  do 2 wpt_step. wpt_step. wpt_step. specialize (H0 Hd). unfold u16_ok in H0. cbv zeta.
  destruct (_ && _) eqn:H2; [|cbn; lia]. do 2 wpt_step.
  destruct (_ =? ty); [|cbn; lia]. wpt_auto. auto.
Qed.

(** The nested counted loops stay inside the block, each pass moving on. *)
Lemma for_upto_wp (I : DiffState -> Prop) body n s :
  I s -> (forall s, I s -> total (body s) (fun r => match r with Continue s | Break s => I s end)) ->
  total (for_upto n body s) I.
Proof.
  revert s. induction n as [|n IH]; intros s Hs Hb; [exact Hs|]. cbn [for_upto].
  apply wp_bind. eapply total_mono; [by apply Hb|]. intros [s'|s'] Hs'; [by apply IH|exact Hs'].
Qed.

Lemma diff_block_total d o bl found :
  0 <= o -> total (diff_block d o bl found) (fun _ => True).
Proof.
  intros Ho. unfold diff_block. cbv zeta. set (end_ := Z.min _ _). destruct (o + 6 + 2 <=? end_) eqn:B0; [|done].
  assert (He : end_ <= len d) by (unfold end_; lia). apply wp_bind. wpt_step. apply wp_bind.
  eapply total_mono; [apply (for_upto_wp (fun st => 0 <= fst st)); [cbn; lia|]|done].
  intros [p f] Hp. cbn in Hp. unfold diff_api. destruct (end_ <? p + 6) eqn:B1; [done|].
  apply wp_bind. wpt_step. apply wp_bind.
  eapply total_mono; [apply (for_upto_wp (fun st => 0 <= fst st)); [cbn; lia|]|intros ? Hi; exact Hi].
  intros [p1 f1] Hp1. cbn in Hp1. unfold diff_module. destruct (end_ <? p1 + 10) eqn:B2; [done|].
  apply wp_bind. wpt_step. apply wp_bind. wpt_step. apply wp_bind.
  eapply total_mono; [apply (for_upto_wp (fun st => 0 <= fst st)); [cbn; lia|]|intros ? Hi; exact Hi].
  intros [p2 f2] Hp2. cbn in Hp2. unfold diff_submodule. destruct (end_ <? p2 + 8) eqn:B3; [done|].
  do 3 (apply wp_bind; wpt_step). cbn. lia.
Qed.

Lemma module_diff_total d : bytes_ok d -> total (parse_module_diff_block d) (fun _ => True).
Proof.
  intros Hd. unfold parse_module_diff_block, total.
  apply wp_loop with (I := fun st => 0 <= fst st) (m := fun st => Z.to_nat (len d - fst st)); [|cbn; lia|cbn; lia].
  intros [o f] Ho. cbn in Ho. unfold module_diff_body. destruct (o + 6 <=? len d) eqn:B1; [|done].
  apply wp_bind. wpt_step. apply wp_bind. apply wp_rd_u16; [lia|lia|]. intros bl Hbl. specialize (Hbl Hd).
  unfold u16_ok in Hbl. apply wp_bind.
  apply (wp_mono _ (fun _ => True) _ (fun _ => False)); [|intros f' _; cbn; lia|done].
  destruct (_ =? MODULE_DIFF_BLOCK); [by apply diff_block_total|done].
Qed.

Lemma pnio_status_total v : total (pnio_status_str v) (fun _ => True).
Proof. unfold pnio_status_str, Errors.from_bytes. cbn. done. Qed.

Lemma status_error_safe {A} v (s : string) : safe (A := A) (let? m := pnio_status_str v in Err (s +:+ m)).
Proof. unfold safe. apply wp_bind. eapply wp_mono; [apply pnio_status_total|done|done]. Qed.

Lemma parse_connect_safe d le : bytes_ok d -> safe (parse_connect_response d le).
Proof.
  intros Hd. unfold parse_connect_response, safe. apply wp_bind. eapply wp_mono; [apply parse_nrd_safe| |done].
  intros n Hn. destruct (Hn Hd) as [Hp _]. destruct (negb _); [apply status_error_safe|].
  apply wp_bind. eapply wp_mono; [by apply module_diff_total| |done]. intros l _. cbv zeta.
  destruct (negb _); [done|]. apply wp_bind. eapply wp_mono; [by apply iocr_res_total| |done]. intros i _.
  apply wp_bind. eapply wp_mono; [by apply iocr_res_total| |done]. done.
Qed.

Lemma parse_read_safe d le : safe (parse_read_response d le).
Proof.
  unfold parse_read_response, safe. apply wp_bind. eapply wp_mono; [apply parse_nrd_safe| |done].
  intros n _. destruct (negb _); [apply status_error_safe|]. apply wp_bind.
  eapply wp_mono; [apply parse_iod_safe|done|done].
Qed.

Lemma parse_status_safe d le : safe (parse_status_response d le).
Proof.
  unfold parse_status_response, safe. apply wp_bind. eapply wp_mono; [apply parse_nrd_safe| |done].
  intros n _. destruct (negb _); [apply status_error_safe|done].
Qed.

Lemma parse_status_bytes d le p : bytes_ok d -> parse_status_response d le = Ok p -> bytes_ok p.
Proof.
  intros Hd Hp. unfold parse_status_response in Hp. pose proof (parse_nrd_safe d le) as Hn.
  destruct (parse_nrd d le) as [n|e| |]; try done. cbn [bind] in Hp. destruct (negb _).
  - by destruct (pnio_status_str (args_status n)).
  - injection Hp as <-. by apply Hn.
Qed.

Lemma parse_ccontrol_safe h : safe (parse_ccontrol_request h).
Proof.
  unfold parse_ccontrol_request, safe. destruct (negb _); [done|]. destruct (negb _); [done|].
  apply wp_bind. eapply wp_mono; [apply parse_nrd_safe| |done]. intros n _. cbv zeta.
  destruct (_ <? 32) eqn:Hl; [done|]. wpt_auto. done.
Qed.

Lemma extract_app_ready_total d : bytes_ok d -> total (extract_app_ready d) (fun r =>
  match r with Some (h, cc) => header_ok h /\ parse_ccontrol_request h = Ok cc | None => True end).
Proof.
  intros Hd. unfold extract_app_ready. apply wp_bind. eapply total_mono; [by apply parse_rpc_header_wp|].
  intros [h|] Hh; [|done]. pose proof (parse_ccontrol_safe h) as Hs.
  destruct (parse_ccontrol_request h) as [cc|e| |] eqn:E; try done. cbn [ok_ bind]. by destruct (negb _).
Qed.

Lemma ccontrol_response_total h ar key : total (ccontrol_response h ar key) (fun _ => True).
Proof.
  unfold ccontrol_response. apply wp_bind. eapply total_mono; [|done]. apply safe_ok_.
  eapply wp_safe, parse_nrd_safe.
Qed.

(** ** The header's layout *)

(** The wire form of a header, in the byte order its DREP announces. *)
Definition rpc_bytes (h : ParsedRpc) : list Z :=
  let le := is_little_endian h in
  (version h :: packet_type h :: flags1 h :: flags2 h :: drep h ++ [serial_high h])
  ++ h_object_uuid h ++ interface_uuid h ++ h_activity_uuid h
  ++ wr_u32 (server_boot_time h) le ++ wr_u32 (interface_version h) le
  ++ wr_u32 (h_sequence_number h) le ++ wr_u16 (operation_number h) le
  ++ wr_u16 (interface_hint h) le ++ wr_u16 (activity_hint h) le ++ wr_u16 (length_of_body h) le
  ++ wr_u16 (fragment_number h) le ++ [auth_protocol h] ++ [serial_low h] ++ payload h.

Record wire_header (h : ParsedRpc) : Prop := {
  wh_drep : length (drep h) = 3%nat;
  wh_object : length (h_object_uuid h) = 16%nat;
  wh_interface : length (interface_uuid h) = 16%nat;
  wh_activity : length (h_activity_uuid h) = 16%nat;
  wh_endian : is_little_endian h = negb (Z.land (hd 0 (drep h)) 0x10 =? 0);
  wh_words : u32_ok (server_boot_time h) /\ u32_ok (interface_version h) /\ u32_ok (h_sequence_number h);
  wh_halves : u16_ok (operation_number h) /\ u16_ok (interface_hint h) /\ u16_ok (activity_hint h) /\
              u16_ok (length_of_body h) /\ u16_ok (fragment_number h);
}.

Lemma idx_front_app {A} (p q : list A) i v : idx p i = Ok v -> idx (p ++ q) i = Ok v.
Proof.
  unfold idx. destruct ((0 <=? i) && (i <? len p)) eqn:E; [|done]. intros Hx.
  rewrite length_app. replace ((0 <=? i) && (i <? _)) with true by lia.
  destruct (p !! Z.to_nat i) as [x|] eqn:Ep; [|done]. by rewrite (lookup_app_l_Some _ _ _ _ Ep).
Qed.


Lemma rd_u32_at f v le rest n : u32_ok v -> n = len f -> rd_u32 (f ++ wr_u32 v le ++ rest) n le = Ok v.
Proof.
  intros Hv ->. unfold rd_u32, wr_u32. destruct le.
  - unfold rd_le32. unfold le32_bytes. cbn [app].
    rewrite (idx_skip f _ _ 0 (v mod 256)), (idx_skip f _ _ 1 (v / 256 mod 256)),
      (idx_skip f _ _ 2 (v / 65536 mod 256)), (idx_skip f _ _ 3 (v / 16777216 mod 256)) by (lia || lit_read).
    cbn [bind]. by rewrite le32_le32_bytes.
  - eapply (rd_be32_skip f _ _ 0); [lia|lia|]. unfold be32_bytes. cbn [app]. lit_read.
Qed.

Lemma rd_u16_at f v le rest n : u16_ok v -> n = len f -> rd_u16 (f ++ wr_u16 v le ++ rest) n le = Ok v.
Proof.
  intros Hv ->. unfold rd_u16, wr_u16. destruct le.
  - eapply (rd_le16_skip f _ _ 0); [lia|lia|]. unfold le16_bytes. cbn [app]. lit_read.
  - eapply (rd_be16_skip f _ _ 0); [lia|lia|]. unfold be16_bytes. cbn [app]. lit_read.
Qed.

Lemma wr_u32_length v le : length (wr_u32 v le) = 4%nat.
Proof. by destruct le. Qed.
Lemma wr_u16_length v le : length (wr_u16 v le) = 2%nat.
Proof. by destruct le. Qed.

Lemma slice_lit {A} (l r : list A) (a b : nat) x y :
  x = Z.of_nat a -> y = Z.of_nat b -> (a <= b)%nat -> (b <= length l)%nat ->
  take (b - a) (drop a l) = r -> slice l x y = Ok r.
Proof.
  intros -> -> ? ? <-. rewrite slice_ok by lia.
  by replace (Z.to_nat (Z.of_nat b - Z.of_nat a)) with (b - a)%nat by lia; rewrite Nat2Z.id.
Qed.

Ltac slice_read :=
  lazymatch goal with
  | |- slice _ ?x ?y = _ =>
      let a := eval vm_compute in (Z.to_nat x) in let b := eval vm_compute in (Z.to_nat y) in
      apply (slice_lit _ _ a b); [lia|lia|lia|simpl; lia|reflexivity]
  end.

Lemma rpc_header_roundtrip h : wire_header h -> parse_rpc_header (rpc_bytes h) = Ok (Some h).
Proof.
  intros [H1 H2 H3 H4 H5 (B1 & B2 & B3) (C1 & C2 & C3 & C4 & C5)].
  destruct h as [v t f1 f2 dr sh ou iu au bt iv sq op ih ah lb fn ap sl le p].
  cbn [drep h_object_uuid interface_uuid h_activity_uuid is_little_endian server_boot_time interface_version
    h_sequence_number operation_number interface_hint activity_hint length_of_body fragment_number] in *.
  destruct dr as [|d0 [|d1 [|d2 [|]]]]; try done.
  destruct (list_split16 ou H2) as (? & ? & ? & ? & ? & ? & ? & ? & ? & ? & ? & ? & ? & ? & ? & ? & ->).
  destruct (list_split16 iu H3) as (? & ? & ? & ? & ? & ? & ? & ? & ? & ? & ? & ? & ? & ? & ? & ? & ->).
  destruct (list_split16 au H4) as (? & ? & ? & ? & ? & ? & ? & ? & ? & ? & ? & ? & ? & ? & ? & ? & ->).
  cbn [hd] in H5. unfold parse_rpc_header, rpc_bytes.
  cbn [version packet_type flags1 flags2 drep serial_high h_object_uuid interface_uuid h_activity_uuid
    server_boot_time interface_version h_sequence_number operation_number interface_hint activity_hint
    length_of_body fragment_number auth_protocol serial_low is_little_endian payload].
  destruct le; unfold wr_u32, wr_u16, le32_bytes, le16_bytes, be32_bytes, be16_bytes; cbn [app].
  all: len_ok; eapply bind_step; [lit_read|]; cbv zeta; rewrite <- H5; unfold rd_u32, rd_u16.
  all: do 4 lit_step; eapply bind_step; [slice_read|]; cbv beta; lit_step.
  all: do 3 (eapply bind_step; [slice_read|]; cbv beta).
  all: repeat lit_step; reflexivity.
Qed.

Definition request_header (ou iu au : list Z) (seq op : Z) (body : list Z) : ParsedRpc :=
  {| version := 4; packet_type := PACKET_TYPE_REQUEST; flags1 := RPC_FLAGS1_IDEMPOTENT; flags2 := 0;
     drep := [0; 0; 0]; serial_high := 0; h_object_uuid := ou; interface_uuid := iu;
     h_activity_uuid := au; server_boot_time := 0; interface_version := 1; h_sequence_number := seq;
     operation_number := op; interface_hint := 0xFFFF; activity_hint := 0xFFFF;
     length_of_body := as_u16 (len body); fragment_number := 0; auth_protocol := 0; serial_low := 0;
     is_little_endian := false; payload := body |}.

Lemma rpc_request_header ou iu au seq op body :
  length ou = 16%nat -> length iu = 16%nat -> length au = 16%nat -> u32_ok seq -> u16_ok op ->
  parse_rpc_header (rpc_request ou iu au seq op body) = Ok (Some (request_header ou iu au seq op body)).
Proof.
  intros Ho Hi Ha Hs Hp.
  change (rpc_request ou iu au seq op body) with (rpc_bytes (request_header ou iu au seq op body)).
  apply rpc_header_roundtrip. constructor; try done; cbn; split_and?; try done; try (unfold u32_ok; lia);
    try (unfold u16_ok; lia). apply as_u16_ok.
Qed.

Lemma parse_nrd_at a l m o c p le :
  u32_ok a -> u32_ok l -> u32_ok m -> u32_ok o -> u32_ok c ->
  parse_nrd (wr_u32 a le ++ wr_u32 l le ++ wr_u32 m le ++ wr_u32 o le ++ wr_u32 c le ++ p) le
  = Ok {| args_status := a; args_length := l; maximum_count := m; n_offset := o; actual_count := c; n_payload := p |}.
Proof.
  intros. unfold parse_nrd. destruct le; unfold rd_u32, wr_u32, le32_bytes, be32_bytes; cbn [app];
    len_ok; repeat lit_step; reflexivity.
Qed.

(** C40: No answer from the network can crash the connection: every parser of
    the RPC layer is total on arbitrary bytes, its loops included. *)
Theorem rpc_parsers_total d le :
  bytes_ok d ->
  safe (parse_rpc_response d) /\ safe (parse_nrd d le) /\ safe (parse_iod_header d) /\
  total (parse_iocr_block_res d 1) u16_ok /\ total (parse_module_diff_block d) (fun _ => True) /\
  safe (parse_connect_response d le) /\ safe (parse_read_response d le) /\ safe (parse_status_response d le) /\
  total (extract_app_ready d) (fun r => match r with
    | Some (h, _) => forall ar key, total (ccontrol_response h ar key) (fun _ => True)
    | None => True end).
Proof.
  intros Hd. split_and!.
  - eapply wp_safe. by apply parse_rpc_response_wp.
  - eapply wp_safe, parse_nrd_safe.
  - apply parse_iod_safe.
  - by apply iocr_res_total.
  - by apply module_diff_total.
  - by apply parse_connect_safe.
  - apply parse_read_safe.
  - apply parse_status_safe.
  - eapply total_mono; [by apply extract_app_ready_total|]. intros [[h cc]|] _; [|done].
    intros. apply ccontrol_response_total.
Qed.

Example rpc_parsers_total_witness : total (parse_module_diff_block (rep 300 129)) (fun _ => True).
Proof.
  refine (proj1 (proj2 (proj2 (proj2 (proj2 (rpc_parsers_total (rep 300 129) false _)))))).
  apply Forall_replicate. unfold byte_ok. lia.
Defined.

(** ** Matching responses *)

(** [h] answers the request with this activity and sequence number. *)
Definition ours (uuid : list Z) (seq : Z) (h : ParsedRpc) : Prop :=
  drep_normalized_uuid (h_activity_uuid h) (is_little_endian h) = uuid /\ h_sequence_number h = seq.

(** A datagram the loop passes over: a request (such as our own, echoed) or
    the response to some other request. *)
Definition skipped (uuid : list Z) (seq : Z) (d : list Z) : Prop :=
  parse_rpc_response d = Ok None \/ exists h, parse_rpc_response d = Ok (Some h) /\ ~ ours uuid seq h.

(** A transport that plays a script and records what is sent. *)
Record Script := {
  s_responses : list (list Z);
  s_ccontrol : list (list Z);
  s_sent : list (list Z);
  s_replies : list (list Z);
}.

#[global] Instance script_transport : RpcTransport Script := {
  send_request d t := ({| s_responses := s_responses t; s_ccontrol := s_ccontrol t; s_sent := s_sent t ++ [d];
                          s_replies := s_replies t |}, Ok tt);
  recv_response t :=
    match s_responses t with
    | [] => (t, Ok None)
    | d :: l => ({| s_responses := l; s_ccontrol := s_ccontrol t; s_sent := s_sent t; s_replies := s_replies t |}, Ok (Some d))
    end;
  recv_ccontrol t :=
    match s_ccontrol t with
    | [] => (t, Ok None)
    | d :: l => ({| s_responses := s_responses t; s_ccontrol := l; s_sent := s_sent t; s_replies := s_replies t |}, Ok (Some d))
    end;
  reply_ccontrol d t := ({| s_responses := s_responses t; s_ccontrol := s_ccontrol t; s_sent := s_sent t;
                            s_replies := s_replies t ++ [d] |}, Ok tt);
  peer _ := "192.168.0.2:34964";
}.

Lemma next_rpc_sound {T} `{RpcTransport T} passes uuid seq t t' h :
  next_rpc_response passes uuid seq t = (t', Ok h) ->
  ours uuid seq h /\ exists d, parse_rpc_response d = Ok (Some h).
Proof.
  revert t. induction passes as [|n IH]; intros t Hn; cbn [next_rpc_response] in Hn; [done|].
  destruct (recv_response t) as [t1 [[d|]|e| |]]; try done.
  destruct (parse_rpc_response d) as [[r|]|e| |] eqn:Hp; try done; [|by apply IH in Hn].
  destruct (_ && _) eqn:E; [|by apply IH in Hn]. injection Hn as <- <-.
  apply andb_prop in E as [E1 E2]. apply bool_decide_eq_true in E1. split; [split; [done|lia]|by exists d].
Qed.

Lemma next_rpc_complete uuid seq l : forall passes t h d rest,
  Forall (skipped uuid seq) l -> parse_rpc_response d = Ok (Some h) -> ours uuid seq h ->
  s_responses t = l ++ d :: rest -> (length l < passes)%nat ->
  snd (next_rpc_response passes uuid seq t) = Ok h.
Proof.
  induction l as [|x l IH]; intros passes t h d rest Hl Hd [Ho1 Ho2] Ht Hp; (destruct passes as [|passes]; [simpl in *; lia|]);
    cbn [next_rpc_response]; cbn [recv_response script_transport]; rewrite Ht; cbn [app].
  - rewrite Hd. rewrite bool_decide_true by done. rewrite Ho2, Z.eqb_refl. done.
  - inversion Hl as [|? ? Hx Hl']; subst. destruct Hx as [->|(hx & -> & Hno)].
    + eapply (IH _ _ h d rest); try done. simpl in Hp. lia.
    + destruct (_ && _) eqn:E; [destruct Hno|eapply (IH _ _ h d rest); try done; simpl in Hp; lia].
      apply andb_prop in E as [E1 E2]. apply bool_decide_eq_true in E1. split; [done|lia].
Qed.

(** The header with which a device answers [req]. *)
Definition response_header (req : ParsedRpc) (body : list Z) : ParsedRpc :=
  {| version := version req; packet_type := PACKET_TYPE_RESPONSE;
     flags1 := Z.lor RPC_FLAGS1_LASTFRAG RPC_FLAGS1_NOFACK; flags2 := 0; drep := drep req;
     serial_high := serial_high req; h_object_uuid := h_object_uuid req; interface_uuid := interface_uuid req;
     h_activity_uuid := h_activity_uuid req; server_boot_time := 0; interface_version := interface_version req;
     h_sequence_number := h_sequence_number req; operation_number := operation_number req;
     interface_hint := 0xFFFF; activity_hint := 0xFFFF; length_of_body := as_u16 (len body);
     fragment_number := 0; auth_protocol := 0; serial_low := serial_low req;
     is_little_endian := is_little_endian req; payload := body |}.

Lemma response_wire h body : header_ok h -> wire_header (response_header h body).
Proof.
  intros [H1 (H2 & H3 & H4) (H5 & H6 & H7) H8 H9]. constructor; cbn; try done.
  split_and!; first [assumption | apply as_u16_ok | unfold u16_ok; lia].
Qed.

Lemma response_header_reads h body :
  wire_header (response_header h body) ->
  parse_rpc_response (rpc_bytes (response_header h body)) = Ok (Some (response_header h body)).
Proof. intros Hw. unfold parse_rpc_response. by rewrite (rpc_header_roundtrip _ Hw). Qed.

(** Where the fields of a control block are. *)
Lemma control_block_reads bt ar key cmd :
  length ar = 16%nat -> u16_ok bt -> u16_ok key -> u16_ok cmd ->
  let b := iod_control_block bt ar key cmd in
  len b = 32 /\ rd_u16 b 0 false = Ok bt /\ slice b 8 24 = Ok ar /\ rd_u16 b 24 false = Ok key /\
  rd_u16 b 28 false = Ok cmd.
Proof.
  intros Ha Hb Hk Hc. destruct (list_split16 ar Ha) as (? & ? & ? & ? & ? & ? & ? & ? & ? & ? & ? & ? & ? & ? & ? & ? & ->).
  cbv zeta. unfold iod_control_block, block_header, be16_bytes, rd_u16. cbn [app].
  split_and!; [reflexivity|lit_read|slice_read|lit_read|lit_read].
Qed.



(** ** Confirming ApplicationReady *)

(** The confirmation of ApplicationReady reads back, in the byte order of
    the request it answers: a RESPONSE packet with the request's DREP, UUIDs,
    interface version, sequence and operation number, whose NDR header says
    status 0, length 32 and repeats the request's maximum count, and whose
    control block says DONE for this AR and session key. *)
Theorem ccontrol_response_understood d h cc ar key :
  bytes_ok d -> extract_app_ready d = Ok (Some (h, cc)) -> length ar = 16%nat -> u16_ok key ->
  exists r body block maxc,
    ccontrol_response h ar key = Ok r /\
    parse_rpc_response r = Ok (Some (response_header h body)) /\ len body = 52 /\
    (exists n, parse_nrd (payload h) (is_little_endian h) = Ok n /\ maximum_count n = maxc) /\
    parse_nrd body (is_little_endian h) =
      Ok {| args_status := 0; args_length := 32; maximum_count := maxc; n_offset := 0; actual_count := 32;
            n_payload := block |} /\
    len block = 32 /\ rd_u16 block 0 false = Ok BLOCK_IOD_CONTROL_APP_READY_RES /\
    slice block 8 24 = Ok ar /\ rd_u16 block 24 false = Ok key /\ rd_u16 block 28 false = Ok CONTROL_CMD_DONE.
Proof.
  intros Hd He Har Hkey. pose proof (extract_app_ready_total d Hd) as Ht. rewrite He in Ht. destruct Ht as [Hh Hcc].
  unfold parse_ccontrol_request in Hcc. destruct (negb _); [done|]. destruct (negb _); [done|].
  apply bind_Ok_inv in Hcc as (n & Hn & _).
  set (block := iod_control_block BLOCK_IOD_CONTROL_APP_READY_RES ar key CONTROL_CMD_DONE).
  assert (Hbl : len block = 32). { unfold block, iod_control_block. rewrite !length_app, Har. reflexivity. }
  set (le := is_little_endian h) in *.
  set (body := wr_u32 0 le ++ wr_u32 32 le ++ wr_u32 (maximum_count n) le ++ wr_u32 0 le ++ wr_u32 32 le ++ block).
  exists (rpc_bytes (response_header h body)), body, block, (maximum_count n).
  assert (Hm : u32_ok (maximum_count n)).
  { pose proof (parse_nrd_safe (payload h) le) as Hs. rewrite Hn in Hs. apply Hs. apply Hh. }
  assert (Hbody : len body = 52) by (unfold body; rewrite !length_app, !wr_u32_length; lia).
  pose proof (control_block_reads BLOCK_IOD_CONTROL_APP_READY_RES ar key CONTROL_CMD_DONE Har) as (C1 & C2 & C3 & C4 & C5);
    [done..|]. fold block in C1, C2, C3, C4, C5.
  split_and!; [|apply response_header_reads, response_wire; done|done|by eauto|by apply parse_nrd_at|done..].
  unfold ccontrol_response. fold le. fold block. rewrite Hn. cbn [ok_ bind]. rewrite Hbl.
  change (as_u32 32) with 32. fold body. f_equal. unfold rpc_bytes, response_header.
  cbn [version packet_type flags1 flags2 drep serial_high h_object_uuid interface_uuid h_activity_uuid
    server_boot_time interface_version h_sequence_number operation_number interface_hint activity_hint
    length_of_body fragment_number auth_protocol serial_low is_little_endian payload]. fold le.
  cbn [app]. by rewrite <- app_assoc.
Qed.

(** A CControl request in little-endian. *)
Definition sample_ccontrol : ParsedRpc :=
  let block := iod_control_block BLOCK_IOD_CONTROL_APP_READY_REQ (rep 16 5) 7 CONTROL_CMD_APPLICATION_READY in
  let body := wr_u32 1464 true ++ wr_u32 32 true ++ wr_u32 1464 true ++ wr_u32 0 true ++ wr_u32 32 true ++ block in
  {| version := 4; packet_type := PACKET_TYPE_REQUEST; flags1 := 0x20; flags2 := 0; drep := [0x10; 0; 0];
     serial_high := 0; h_object_uuid := rep 16 1; interface_uuid := rep 16 2; h_activity_uuid := rep 16 3;
     server_boot_time := 0; interface_version := 1; h_sequence_number := 9; operation_number := CONTROL;
     interface_hint := 0xFFFF; activity_hint := 0xFFFF; length_of_body := len body; fragment_number := 0;
     auth_protocol := 0; serial_low := 0; is_little_endian := true; payload := body |}.

Example ccontrol_response_understood_witness :
  exists r body block maxc,
    ccontrol_response sample_ccontrol (rep 16 5) 7 = Ok r /\
    parse_rpc_response r = Ok (Some (response_header sample_ccontrol body)) /\ len body = 52 /\
    (exists n, parse_nrd (payload sample_ccontrol) (is_little_endian sample_ccontrol) = Ok n /\ maximum_count n = maxc) /\
    parse_nrd body (is_little_endian sample_ccontrol) =
      Ok {| args_status := 0; args_length := 32; maximum_count := maxc; n_offset := 0; actual_count := 32;
            n_payload := block |} /\
    len block = 32 /\ rd_u16 block 0 false = Ok BLOCK_IOD_CONTROL_APP_READY_RES /\
    slice block 8 24 = Ok (rep 16 5) /\ rd_u16 block 24 false = Ok 7 /\ rd_u16 block 28 false = Ok CONTROL_CMD_DONE.
Proof.
  apply (ccontrol_response_understood (rpc_bytes sample_ccontrol) sample_ccontrol
    {| cc_block_type := BLOCK_IOD_CONTROL_APP_READY_REQ; control_command := CONTROL_CMD_APPLICATION_READY;
       nrd_body := iod_control_block BLOCK_IOD_CONTROL_APP_READY_REQ (rep 16 5) 7 CONTROL_CMD_APPLICATION_READY |}).
  - apply (bool_decide_unpack _). vm_compute. exact I.
  - vm_compute. reflexivity.
  - reflexivity.
  - unfold u16_ok. lia.
Defined.

(** ** What a Connect response says *)

(** Submodules, modules and APIs of a ModuleDiffBlock. *)
Record DiffModule := {
  dm_slot : Z;
  dm_ident : Z;
  dm_state : Z;
  dm_subs : list (Z * Z * Z);
}.
Definition DiffApi := (Z * list DiffModule)%type.

Definition sub_bytes (s : Z * Z * Z) : list Z :=
  let '(ss, id, st) := s in be16_bytes ss ++ be32_bytes id ++ be16_bytes st.
Definition sub_diff (slot : Z) (s : Z * Z * Z) : SubmoduleDiff :=
  let '(ss, id, st) := s in {| sd_slot := slot; sd_subslot := ss; sd_submodule_ident := id; sd_state := st |}.
Definition mod_bytes (m : DiffModule) : list Z :=
  be16_bytes (dm_slot m) ++ be32_bytes (dm_ident m) ++ be16_bytes (dm_state m)
  ++ be16_bytes (len (dm_subs m)) ++ concat (sub_bytes <$> dm_subs m).
Definition mod_diffs (m : DiffModule) : list SubmoduleDiff := sub_diff (dm_slot m) <$> dm_subs m.
Definition api_bytes (a : DiffApi) : list Z :=
  be32_bytes (fst a) ++ be16_bytes (len (snd a)) ++ concat (mod_bytes <$> snd a).
Definition api_diffs (a : DiffApi) : list SubmoduleDiff := concat (mod_diffs <$> snd a).

Definition sub_ok (s : Z * Z * Z) : Prop :=
  let '(ss, id, st) := s in u16_ok ss /\ u32_ok id /\ u16_ok st.
Definition mod_ok (m : DiffModule) : Prop :=
  u16_ok (dm_slot m) /\ u32_ok (dm_ident m) /\ u16_ok (dm_state m) /\ u16_ok (len (dm_subs m))
  /\ Forall sub_ok (dm_subs m).
Definition api_ok (a : DiffApi) : Prop :=
  u32_ok (fst a) /\ u16_ok (len (snd a)) /\ Forall mod_ok (snd a).

(** The blocks of the response. *)
Inductive ResBlock :=
  | OtherRes (block_type : Z) (body : list Z)
  | IocrRes (iocr_type reference frame_id : Z) (rest : list Z)
  | DiffRes (apis : list DiffApi).

Definition res_type (b : ResBlock) : Z :=
  match b with OtherRes t _ => t | IocrRes _ _ _ _ => IOCR_BLOCK_RES | DiffRes _ => MODULE_DIFF_BLOCK end.
Definition res_body (b : ResBlock) : list Z :=
  match b with
  | OtherRes _ l => l
  | IocrRes t r f rest => be16_bytes t ++ be16_bytes r ++ be16_bytes f ++ rest
  | DiffRes apis => be16_bytes (len apis) ++ concat (api_bytes <$> apis)
  end.
Definition res_bytes (b : ResBlock) : list Z :=
  be16_bytes (res_type b) ++ be16_bytes (len (res_body b) + 2) ++ [1; 0] ++ res_body b.
Definition res_ok (b : ResBlock) : Prop :=
  u16_ok (res_type b) /\ u16_ok (len (res_body b) + 2) /\
  match b with
  | OtherRes t _ => t <> IOCR_BLOCK_RES /\ t <> MODULE_DIFF_BLOCK
  | IocrRes t _ f _ => u16_ok t /\ u16_ok f
  | DiffRes apis => u16_ok (len apis) /\ Forall api_ok apis
  end.
Definition res_diffs (b : ResBlock) : list SubmoduleDiff :=
  match b with DiffRes apis => concat (api_diffs <$> apis) | _ => [] end.
(** The frame id of the first IOCRBlockRes of this type, 0 without one. *)
Fixpoint first_iocr (ty : Z) (bs : list ResBlock) : Z :=
  match bs with
  | [] => 0
  | IocrRes t _ f _ :: bs => if t =? ty then f else first_iocr ty bs
  | _ :: bs => first_iocr ty bs
  end.

(** A counted loop over laid-out items. *)
Lemma for_upto_items {X} (enc : X -> list Z) (out : X -> list SubmoduleDiff) (ok : X -> Prop) body d end_ :
  (forall pre x suf f, ok x -> d = pre ++ enc x ++ suf -> len pre + len (enc x) <= end_ ->
     body (len pre, f) = Ok (Continue (len pre + len (enc x), f ++ out x))) ->
  forall l pre suf f, Forall ok l -> d = pre ++ concat (enc <$> l) ++ suf ->
    len pre + len (concat (enc <$> l)) <= end_ ->
    for_upto (length l) body (len pre, f) = Ok (len pre + len (concat (enc <$> l)), f ++ concat (out <$> l)).
Proof.
  intros Hb. induction l as [|x l IH]; intros pre suf f Hl Hd He.
  - simpl. by rewrite Z.add_0_r, app_nil_r.
  - inversion Hl as [|? ? Hx Hl']; subst x0 l0. change (concat (enc <$> x :: l)) with (enc x ++ concat (enc <$> l)) in *.
    change (concat (out <$> x :: l)) with (out x ++ concat (out <$> l)).
    rewrite length_app in He |- *. cbn [for_upto length].
    rewrite (Hb pre x (concat (enc <$> l) ++ suf)) by (rewrite ?Hd, <- ?app_assoc; auto; lia). cbn [bind].
    replace (len pre + len (enc x)) with (len (pre ++ enc x)) by (rewrite length_app; lia).
    rewrite (IH (pre ++ enc x) suf) by (rewrite ?Hd, <- ?app_assoc, ?length_app; auto; lia).
    rewrite length_app, <- app_assoc. do 2 f_equal. lia.
Qed.

Lemma sub_walk d end_ slot pre x suf f :
  end_ <= len d -> sub_ok x -> d = pre ++ sub_bytes x ++ suf -> len pre + len (sub_bytes x) <= end_ ->
  diff_submodule d end_ slot (len pre, f) = Ok (Continue (len pre + len (sub_bytes x), f ++ [sub_diff slot x])).
Proof.
  destruct x as [[ss id] st]. intros Hend (H1 & H2 & H3) -> He. unfold diff_submodule, rd_u16, rd_u32.
  unfold sub_bytes, be16_bytes, be32_bytes in *. cbn [app] in *. simpl length in He.
  rewrite (proj2 (Z.ltb_ge end_ (len pre + 8))) by lia. do 3 skip_step. reflexivity.
Qed.

Lemma concat_singletons {X Y} (g : X -> Y) l : concat ((fun x => [g x]) <$> l) = g <$> l.
Proof. induction l as [|x l IH]; [done|]. cbn. by rewrite <- IH. Qed.

Lemma mod_walk d end_ pre x suf f :
  end_ <= len d -> mod_ok x -> d = pre ++ mod_bytes x ++ suf -> len pre + len (mod_bytes x) <= end_ ->
  diff_module d end_ (len pre, f) = Ok (Continue (len pre + len (mod_bytes x), f ++ mod_diffs x)).
Proof.
  destruct x as [slot id st subs]. intros Hend (H1 & H2 & H3 & H4 & H5) Hd He.
  set (hd := be16_bytes slot ++ be32_bytes id ++ be16_bytes st ++ be16_bytes (len subs)).
  assert (Hm : mod_bytes {| dm_slot := slot; dm_ident := id; dm_state := st; dm_subs := subs |}
               = hd ++ concat (sub_bytes <$> subs)) by (unfold mod_bytes, hd; cbn [dm_slot dm_ident dm_state dm_subs]; by rewrite <- !app_assoc).
  assert (Hhd : len hd = 10) by reflexivity. rewrite Hm in Hd, He |- *. rewrite length_app in He |- *.
  unfold diff_module. rewrite (proj2 (Z.ltb_ge end_ (len pre + 10))) by lia. cbn [dm_slot dm_subs] in *.
  assert (R1 : rd_u16 d (len pre) false = Ok slot).
  { subst d hd. unfold rd_u16, be16_bytes, be32_bytes. cbn [app]. skip_read. }
  assert (R2 : rd_u16 d (len pre + 8) false = Ok (len subs)).
  { subst d hd. unfold rd_u16, be16_bytes, be32_bytes. cbn [app]. skip_read. }
  rewrite R1. cbn [bind]. rewrite R2. cbn [bind]. rewrite Nat2Z.id.
  replace (len pre + 10) with (len (pre ++ hd)) by (rewrite length_app; lia).
  rewrite (for_upto_items sub_bytes (fun x => [sub_diff slot x]) sub_ok _ d end_) with (suf := suf);
    [|intros; by eapply sub_walk|done|by rewrite Hd, <- !app_assoc|rewrite length_app; lia].
  cbn [bind]. unfold mod_diffs. cbn [dm_slot dm_subs]. rewrite concat_singletons, length_app. do 3 f_equal. lia.
Qed.

Lemma api_walk d end_ pre x suf f :
  end_ <= len d -> api_ok x -> d = pre ++ api_bytes x ++ suf -> len pre + len (api_bytes x) <= end_ ->
  diff_api d end_ (len pre, f) = Ok (Continue (len pre + len (api_bytes x), f ++ api_diffs x)).
Proof.
  destruct x as [api mods]. intros Hend (H1 & H2 & H3) Hd He. cbn [fst snd] in *.
  set (hd := be32_bytes api ++ be16_bytes (len mods)).
  assert (Hm : api_bytes (api, mods) = hd ++ concat (mod_bytes <$> mods))
    by (unfold api_bytes, hd; cbn [fst snd]; by rewrite <- !app_assoc).
  assert (Hhd : len hd = 6) by reflexivity. rewrite Hm in Hd, He |- *. rewrite length_app in He |- *.
  unfold diff_api. rewrite (proj2 (Z.ltb_ge end_ (len pre + 6))) by lia.
  assert (R : rd_u16 d (len pre + 4) false = Ok (len mods)).
  { subst d hd. unfold rd_u16, be16_bytes, be32_bytes. cbn [app]. skip_read. }
  rewrite R. cbn [bind]. rewrite Nat2Z.id.
  replace (len pre + 6) with (len (pre ++ hd)) by (rewrite length_app; lia).
  rewrite (for_upto_items mod_bytes mod_diffs mod_ok _ d end_) with (suf := suf);
    [|intros; by apply mod_walk with (suf := suf0)|done|by rewrite Hd, <- !app_assoc|rewrite length_app; lia].
  cbn [bind]. unfold api_diffs. cbn [snd]. rewrite length_app. do 3 f_equal. lia.
Qed.

Lemma res_bytes_head d pre b suf :
  res_ok b -> d = pre ++ res_bytes b ++ suf ->
  len pre + 6 <= len d /\ rd_u16 d (len pre) false = Ok (res_type b) /\
  rd_u16 d (len pre + 2) false = Ok (len (res_body b) + 2).
Proof.
  intros (H1 & H2 & _) ->. split_and!.
  - unfold res_bytes. rewrite !length_app. simpl. lia.
  - unfold res_bytes, rd_u16, be16_bytes. cbn [app]. skip_read.
  - unfold res_bytes, rd_u16, be16_bytes. cbn [app]. skip_read.
Qed.

Lemma res_bytes_length b : len (res_bytes b) = 6 + len (res_body b).
Proof. unfold res_bytes. rewrite !length_app. simpl. lia. Qed.

Lemma diff_block_reads d pre apis suf f :
  res_ok (DiffRes apis) -> d = pre ++ res_bytes (DiffRes apis) ++ suf ->
  diff_block d (len pre) (len (res_body (DiffRes apis)) + 2) f = Ok (f ++ res_diffs (DiffRes apis)).
Proof.
  intros Hok Hd. pose proof (res_bytes_length (DiffRes apis)) as Hl.
  assert (Hlen : len d = len pre + len (res_bytes (DiffRes apis)) + len suf) by (rewrite Hd, !length_app; lia).
  destruct Hok as (H1 & H2 & H0 & H3). cbn [res_type res_body res_diffs] in *.
  set (items := concat (api_bytes <$> apis)) in *.
  assert (Hb : len (be16_bytes (len apis) ++ items) = 2 + len items) by (rewrite length_app; simpl; lia).
  unfold diff_block. cbv zeta. rewrite Z.min_l by lia. set (end_ := len pre + 4 + _).
  assert (He : end_ = len pre + 8 + len items) by (unfold end_; lia).
  rewrite (proj2 (Z.leb_le (len pre + 6 + 2) end_)) by lia.
  set (hd := be16_bytes MODULE_DIFF_BLOCK ++ be16_bytes (2 + len items + 2) ++ [1; 0] ++ be16_bytes (len apis)).
  assert (Hd' : d = (pre ++ hd) ++ items ++ suf).
  { rewrite Hd. unfold res_bytes, hd. cbn [res_type res_body]. fold items. rewrite Hb. by rewrite <- !app_assoc. }
  assert (R : rd_u16 d (len pre + 6) false = Ok (len apis)).
  { rewrite Hd'. unfold hd, rd_u16, be16_bytes. rewrite <- app_assoc. cbn [app]. skip_read. }
  rewrite R. cbn [bind]. rewrite Nat2Z.id.
  replace (len pre + 6 + 2) with (len (pre ++ hd)) by (rewrite length_app; unfold hd; simpl; lia).
  rewrite (for_upto_items api_bytes api_diffs api_ok _ d end_) with (suf := suf); [done| |done|exact Hd'|].
  - intros pre' x suf' f' Hx Hd2 Hle. apply api_walk with (suf := suf'); try done. lia.
  - fold items. rewrite length_app. unfold hd. simpl length. lia.
Qed.

Lemma module_diff_walk d tail bs : forall pre f fuel,
  Forall res_ok bs -> d = pre ++ concat (res_bytes <$> bs) ++ tail -> len tail < 6 -> (length bs < fuel)%nat ->
  loop fuel (module_diff_body d) (len pre, f) = Ok (f ++ concat (res_diffs <$> bs)).
Proof.
  induction bs as [|b bs IH]; intros pre f fuel Hok Hd Ht Hf; (destruct fuel as [|fuel]; [simpl in Hf; lia|]);
    rewrite loop_S; unfold module_diff_body at 1.
  - rewrite (proj2 (Z.leb_gt (len pre + 6) (len d))) by (rewrite Hd, !length_app; simpl; lia).
    cbn. by rewrite app_nil_r.
  - inversion Hok as [|? ? Hb Hbs]; subst x l.
    change (concat (res_bytes <$> b :: bs)) with (res_bytes b ++ concat (res_bytes <$> bs)) in Hd.
    change (concat (res_diffs <$> b :: bs)) with (res_diffs b ++ concat (res_diffs <$> bs)).
    rewrite <- app_assoc in Hd. pose proof (res_bytes_head d pre b _ Hb Hd) as (Hl & R1 & R2).
    rewrite (proj2 (Z.leb_le (len pre + 6) (len d))) by lia. rewrite R1. cbn [bind]. rewrite R2. cbn [bind].
    assert (Hfound : (if res_type b =? MODULE_DIFF_BLOCK then diff_block d (len pre) (len (res_body b) + 2) f else Ok f)
                     = Ok (f ++ res_diffs b)).
    { destruct b as [t l|t r fr l|apis].
      - destruct Hb as (_ & _ & _ & Hn). cbn [res_type res_diffs]. rewrite (proj2 (Z.eqb_neq _ _)) by done. by rewrite app_nil_r.
      - cbn. by rewrite app_nil_r.
      - change (res_type (DiffRes apis) =? MODULE_DIFF_BLOCK) with true. by eapply diff_block_reads. }
    rewrite Hfound. cbn [bind].
    replace (len pre + (4 + (len (res_body b) + 2))) with (len (pre ++ res_bytes b))
      by (rewrite length_app, Nat2Z.inj_add, res_bytes_length; lia).
    rewrite (IH (pre ++ res_bytes b)); [by rewrite <- app_assoc|done|by rewrite Hd, <- app_assoc|done|simpl in Hf; lia].
Qed.

Lemma iocr_walk d tail ty bs : forall pre fuel,
  Forall res_ok bs -> d = pre ++ concat (res_bytes <$> bs) ++ tail -> len tail < 6 -> (length bs < fuel)%nat ->
  loop fuel (iocr_res_body d ty) (len pre) = Ok (first_iocr ty bs).
Proof.
  induction bs as [|b bs IH]; intros pre fuel Hok Hd Ht Hf; (destruct fuel as [|fuel]; [simpl in Hf; lia|]);
    rewrite loop_S; unfold iocr_res_body at 1.
  - rewrite (proj2 (Z.leb_gt (len pre + 6) (len d))) by (rewrite Hd, !length_app; simpl; lia). done.
  - inversion Hok as [|? ? Hb Hbs]; subst x l.
    change (concat (res_bytes <$> b :: bs)) with (res_bytes b ++ concat (res_bytes <$> bs)) in Hd.
    rewrite <- app_assoc in Hd. pose proof (res_bytes_head d pre b _ Hb Hd) as (Hl & R1 & R2).
    rewrite (proj2 (Z.leb_le (len pre + 6) (len d))) by lia. rewrite R1. cbn [bind]. rewrite R2. cbn [bind]. cbv zeta.
    replace (len pre + (4 + (len (res_body b) + 2))) with (len (pre ++ res_bytes b))
      by (rewrite length_app, Nat2Z.inj_add, res_bytes_length; lia).
    assert (Hnext : loop fuel (iocr_res_body d ty) (len (pre ++ res_bytes b)) = Ok (first_iocr ty bs)).
    { apply IH; [done|by rewrite Hd, <- app_assoc|done|simpl in Hf; lia]. }
    destruct b as [t l|t r fr l|apis]; cbn [res_type first_iocr].
    + destruct Hb as (_ & _ & Hn & _). rewrite (proj2 (Z.eqb_neq t IOCR_BLOCK_RES)) by done. cbn [andb]. exact Hnext.
    + destruct Hb as (_ & _ & Hu1 & Hu2). pose proof (res_bytes_length (IocrRes t r fr l)) as Hlb.
      rewrite (proj2 (Z.leb_le (len pre + 12) (len d))); cycle 1.
      { rewrite Hd, !length_app, !Nat2Z.inj_add, Hlb. cbn [res_body]. rewrite !length_app. simpl. lia. }
      change (IOCR_BLOCK_RES =? IOCR_BLOCK_RES) with true. cbn [andb].
      assert (R3 : rd_u16 d (len pre + 6) false = Ok t).
      { rewrite Hd. unfold res_bytes, rd_u16, be16_bytes. cbn [res_body app]. unfold be16_bytes. cbn [app]. skip_read. }
      assert (R4 : rd_u16 d (len pre + 10) false = Ok fr).
      { rewrite Hd. unfold res_bytes, rd_u16, be16_bytes. cbn [res_body app]. unfold be16_bytes. cbn [app]. skip_read. }
      rewrite R3. cbn [bind]. destruct (t =? ty); [by rewrite R4|exact Hnext].
    + exact Hnext.
Qed.

Lemma res_blocks_count bs tail : (length bs < S (length (concat (res_bytes <$> bs) ++ tail)))%nat.
Proof.
  rewrite length_app. induction bs as [|b bs IH]; [simpl; lia|].
  change (concat (res_bytes <$> b :: bs)) with (res_bytes b ++ concat (res_bytes <$> bs)).
  rewrite length_app. pose proof (res_bytes_length b). simpl length. lia.
Qed.

(** C33: A Connect response is judged by what it says: one with PNIO status 0
    yields the frame ids of the first input and output IOCRBlockRes, whatever
    blocks stand between them, unless the ModuleDiffBlocks name a submodule
    that is not ours; then the AR is refused and exactly those submodules are
    named. Any other status is an error. *)
Theorem connect_response_judged bs tail l m o c le :
  Forall res_ok bs -> len tail < 6 -> u32_ok l -> u32_ok m -> u32_ok o -> u32_ok c ->
  let resp s := wr_u32 s le ++ wr_u32 l le ++ wr_u32 m le ++ wr_u32 o le ++ wr_u32 c le
                ++ concat (res_bytes <$> bs) ++ tail in
  parse_connect_response (resp 0) le =
    (let i := first_iocr 1 bs in let q := first_iocr 2 bs in
     match filter (fun d => is_ours d = false) (concat (res_diffs <$> bs)) with
     | [] => Ok {| r_input_frame_id := i; r_output_frame_id := q; has_cyclic := negb (i =? 0) || negb (q =? 0) |}
     | withheld => Err (withheld_error withheld)
     end) /\
  forall s, u32_ok s -> s <> 0 -> exists e, parse_connect_response (resp s) le = Err e.
Proof.
  intros Hbs Ht Hl Hm Ho Hc resp. set (d := concat (res_bytes <$> bs) ++ tail).
  assert (Hn : forall s, u32_ok s -> parse_nrd (resp s) le = Ok {| args_status := s; args_length := l;
    maximum_count := m; n_offset := o; actual_count := c; n_payload := d |}).
  { intros s Hs. unfold resp. by apply parse_nrd_at. }
  pose proof (res_blocks_count bs tail) as Hk. fold d in Hk. split.
  - unfold parse_connect_response. rewrite Hn by (unfold u32_ok; lia). cbn [bind args_status n_payload negb].
    rewrite Z.eqb_refl. cbn [negb].
    unfold parse_module_diff_block. change 0 with (len (@nil Z)) at 1.
    rewrite (module_diff_walk d tail bs [] [] _ Hbs eq_refl Ht Hk). cbn [bind app].
    unfold parse_iocr_block_res. change 0 with (len (@nil Z)).
    rewrite !(iocr_walk d tail _ bs [] _ Hbs eq_refl Ht Hk). cbn [bind].
    by destruct (filter _ _) as [|w ws].
  - intros s Hs Hne. unfold parse_connect_response. rewrite Hn by done. cbn [bind args_status].
    rewrite (proj2 (Z.eqb_neq s 0)) by done. cbn [negb].
    destruct (total_Ok _ _ (pnio_status_total s)) as (x & -> & _). cbn [bind]. eauto.
Qed.

(** An output IOCR before the input IOCR, and a submodule locked by another
    controller. *)
Example connect_response_judged_witness :
  let bs lock := [OtherRes 0x8101 [0; 1]; IocrRes 2 2 0x8001 []; IocrRes 1 1 0x8002 [];
                  DiffRes [(0, [{| dm_slot := 1; dm_ident := 2; dm_state := 1; dm_subs := [(1, 3, lock)] |}])]] in
  let resp lock := wr_u32 0 false ++ wr_u32 100 false ++ wr_u32 100 false ++ wr_u32 0 false ++ wr_u32 100 false
                   ++ concat (res_bytes <$> bs lock) ++ [] in
  parse_connect_response (resp 0x8000) false =
    Ok {| r_input_frame_id := 0x8002; r_output_frame_id := 0x8001; has_cyclic := true |} /\
  parse_connect_response (resp 0x8180) false =
    Err (withheld_error [ {| sd_slot := 1; sd_subslot := 1; sd_submodule_ident := 3; sd_state := 0x8180 |} ]).
Proof.
  intros bs resp.
  assert (Hbs : forall lock, u16_ok lock -> Forall res_ok (bs lock)).
  { intros lock [??]. unfold bs, res_ok, api_ok, mod_ok, sub_ok.
    repeat first [apply List.Forall_nil | apply List.Forall_cons | split];
      unfold u16_ok, u32_ok; try done; simpl; try lia.
    all: unfold sub_ok, u16_ok, u32_ok; lia. }
  split.
  1: refine (eq_trans (proj1 (connect_response_judged (bs 0x8000) [] 100 100 0 100 false
       (Hbs 0x8000 ltac:(unfold u16_ok; lia)) ltac:(simpl; lia) ltac:(unfold u32_ok; lia) ltac:(unfold u32_ok; lia)
       ltac:(unfold u32_ok; lia) ltac:(unfold u32_ok; lia))) _).
  2: refine (eq_trans (proj1 (connect_response_judged (bs 0x8180) [] 100 100 0 100 false
       (Hbs 0x8180 ltac:(unfold u16_ok; lia)) ltac:(simpl; lia) ltac:(unfold u32_ok; lia) ltac:(unfold u32_ok; lia)
       ltac:(unfold u32_ok; lia) ltac:(unfold u32_ok; lia))) _).
  all: vm_compute; reflexivity.
Defined.

(** ** The life of an AR *)

(** The calls a client makes, in any order. *)
Inductive ConnOp :=
  | OConnect (cm_mac cm_station_name : list Z) (setup : IocrSetup)
  | ODeviceAccess (cm_mac cm_station_name : list Z)
  | OPrmBegin
  | OPrmEnd
  | OApplicationReady (secs : string)
  | OReadRaw (idx_ slot subslot length_ : Z)
  | OReadRawImplicit (idx_ slot subslot length_ : Z)
  | OWrite (idx_ slot subslot : Z) (d : list Z)
  | OWriteMultiple (writes : list (Z * Z * Z * list Z))
  | ORelease.

Section Life.
Context {T : Type} `{RpcTransport T}.

Definition cvoid {A} (m : C (T := T) A) : C (T := T) unit := let! _ := m in cret tt.

Definition run_op (passes : nat) (op : ConnOp) : C (T := T) unit :=
  match op with
  | OConnect m n s => cvoid (connect passes m n s)
  | ODeviceAccess m n => connect_device_access passes m n
  | OPrmBegin => cvoid (prm_begin passes)
  | OPrmEnd => cvoid (prm_end passes)
  | OApplicationReady secs => cvoid (application_ready passes secs)
  | OReadRaw i s ss l => cvoid (read_raw passes i s ss l)
  | OReadRawImplicit i s ss l => cvoid (read_raw_implicit passes i s ss l)
  | OWrite i s ss d => write passes i s ss d
  | OWriteMultiple ws => cvoid (write_multiple passes ws)
  | ORelease => release
  end.

Fixpoint run_ops (passes : nat) (ops : list ConnOp) (c : RpcConn T) : RpcConn T :=
  match ops with
  | [] => c
  | op :: ops => run_ops passes ops (fst (run_op passes op c))
  end.

Definition same_ar (c c' : RpcConn T) : Prop :=
  object_uuid_ c' = object_uuid_ c /\ activity_uuid c' = activity_uuid c /\ ar_uuid c' = ar_uuid c /\
  session_key c' = session_key c.

(** [m] leaves the AR, its identity and its state, alone. *)
Definition stays {A} (m : C (T := T) A) : Prop :=
  forall c, same_ar c (fst (m c)) /\ connected (fst (m c)) = connected c.

Lemma same_ar_refl c : same_ar c c.
Proof. done. Qed.
Lemma same_ar_trans c1 c2 c3 : same_ar c1 c2 -> same_ar c2 c3 -> same_ar c1 c3.
Proof. unfold same_ar. intuition congruence. Qed.

Lemma stays_bind {A B} (m : C (T := T) A) (k : A -> C B) : stays m -> (forall a, stays (k a)) -> stays (cbind m k).
Proof.
  intros Hm Hk c. unfold cbind. specialize (Hm c). destruct (m c) as [c1 [a|e| |]]; cbn [fst] in *; try done.
  destruct Hm as [H1 H2], (Hk a c1) as [H3 H4]. split; [by eapply same_ar_trans|congruence].
Qed.
Lemma stays_ret {A} (a : A) : stays (cret a).
Proof. done. Qed.
Lemma stays_get {A} (f : RpcConn T -> A) : stays (cget f).
Proof. done. Qed.
Lemma stays_lift {A} (o : outcome A) : stays (clift o).
Proof. done. Qed.
Lemma stays_map_err {A} f (m : C A) : stays m -> stays (cmap_err f m).
Proof. intros Hm c. specialize (Hm c). unfold cmap_err. by destruct (m c). Qed.
Lemma stays_transport {A} (f : T -> T * outcome A) : stays (ctransport f).
Proof. intros c. unfold ctransport. by destruct (f (transport c)). Qed.
Lemma stays_next_seq : stays next_seq.
Proof. done. Qed.
Lemma stays_seq n : stays (cmodify (with_seq n)).
Proof. done. Qed.
Lemma stays_ids i o : stays (cmodify (with_ids i o)).
Proof. done. Qed.
Lemma stays_if {A} (b : bool) (m1 m2 : C A) : stays m1 -> stays m2 -> stays (if b then m1 else m2).
Proof. by destruct b. Qed.

End Life.

Create HintDb rpcconn.
#[export] Hint Resolve stays_ret stays_get stays_lift stays_transport stays_next_seq stays_seq stays_ids : rpcconn.
#[export] Hint Resolve stays_bind stays_map_err stays_if : rpcconn.
#[export] Hint Extern 1 (forall _, stays _) => intros ? : rpcconn.

Ltac stays_auto := repeat first [apply stays_bind; [|intros ?] | apply stays_map_err | apply stays_if |
  solve [auto with rpcconn]].

Section State.
Context {T : Type} `{RpcTransport T}.

(** [m] brings the AR up when it succeeds. *)
Definition ups {A} (m : C (T := T) A) : Prop :=
  forall c, same_ar c (fst (m c)) /\ connected (fst (m c)) = connected c || Prelude.is_ok (snd (m c)).

Lemma ups_bind {A B} (m : C (T := T) A) (k : A -> C B) : stays m -> (forall a, ups (k a)) -> ups (cbind m k).
Proof.
  intros Hm Hk c. unfold cbind. specialize (Hm c). destruct (m c) as [c1 [a|e| |]]; cbn [fst snd Prelude.is_ok] in *;
    try (by rewrite orb_false_r).
  destruct Hm as [H1 H2], (Hk a c1) as [H3 H4]. split; [by eapply same_ar_trans|congruence].
Qed.
Lemma ups_connected {A} (a : A) : ups (do! cmodify (with_connected true); cret a).
Proof. intros c. cbn. by rewrite orb_true_r. Qed.

Lemma stays_send_receive passes req : stays (send_receive passes req).
Proof. unfold send_receive. stays_auto. Qed.
Hint Resolve stays_send_receive : rpcconn.

Lemma stays_send_control passes t cmd l : stays (send_control passes t cmd l).
Proof. unfold send_control. stays_auto. Qed.
Lemma stays_send_read passes req : stays (send_read passes req).
Proof. unfold send_read. stays_auto. Qed.
Hint Resolve stays_send_control stays_send_read : rpcconn.

Lemma stays_write_multiple passes ws : stays (write_multiple passes ws).
Proof. unfold write_multiple. destruct ws; stays_auto. Qed.
Lemma ups_connect passes m n s : ups (connect passes m n s).
Proof. unfold connect. do 5 (apply ups_bind; [stays_auto|intros ?]). apply ups_connected. Qed.
Lemma ups_device_access passes m n : ups (connect_device_access passes m n).
Proof.
  unfold connect_device_access. do 4 (apply ups_bind; [stays_auto|intros ?]). intros c. cbn. by rewrite orb_true_r.
Qed.

Lemma cvoid_stays {A} (m : C (T := T) A) : stays m -> stays (cvoid m).
Proof. intros. unfold cvoid. stays_auto. Qed.

Lemma cvoid_ups {A} (m : C (T := T) A) : ups m -> ups (cvoid m).
Proof.
  intros Hm c. unfold cvoid, cbind. specialize (Hm c). by destruct (m c) as [c1 [a|e| |]].
Qed.

(** C27: The AR's state: only an accepted Connect brings it up and only a
    release takes it down; no call changes its identity. Without an AR nothing
    is controlled, awaited or released: those calls fail, or do nothing,
    before they touch the transport. *)
Theorem ar_state_machine passes op (c : RpcConn T) :
  let c' := fst (run_op passes op c) in
  let ok := Prelude.is_ok (snd (run_op passes op c)) in
  same_ar c c' /\
  connected c' = match op with
                 | OConnect _ _ _ | ODeviceAccess _ _ => connected c || ok
                 | ORelease => connected c && negb ok
                 | _ => connected c
                 end /\
  match op with
  | OPrmBegin | OPrmEnd | OApplicationReady _ => connected c = false -> c' = c /\ ok = false
  | ORelease => connected c = false -> c' = c /\ ok = true
  | _ => True
  end.
Proof.
  cbv zeta. destruct op; cbn [run_op].
  - destruct (cvoid_ups _ (ups_connect passes cm_mac cm_station_name setup) c). done.
  - destruct (ups_device_access passes cm_mac cm_station_name c). done.
  - assert (Hs : stays (cvoid (prm_begin passes))) by (apply cvoid_stays, stays_map_err, stays_send_control).
    destruct (Hs c) as [H1 H2]. split_and!; [done..|]. intros Hc.
    unfold cvoid, prm_begin, send_control, cbind, cmap_err, cget. by rewrite Hc.
  - assert (Hs : stays (cvoid (prm_end passes))) by (apply cvoid_stays, stays_map_err, stays_send_control).
    destruct (Hs c) as [H1 H2]. split_and!; [done..|]. intros Hc.
    unfold cvoid, prm_end, send_control, cbind, cmap_err, cget. by rewrite Hc.
  - assert (Hs : stays (cvoid (application_ready passes secs))) by (apply cvoid_stays; unfold application_ready; stays_auto).
    destruct (Hs c) as [H1 H2]. split_and!; [done..|]. intros Hc.
    unfold cvoid, application_ready, cbind, cget. by rewrite Hc.
  - destruct (cvoid_stays (read_raw passes idx_ slot subslot length_) ltac:(unfold read_raw; stays_auto) c). done.
  - destruct (cvoid_stays (read_raw_implicit passes idx_ slot subslot length_) ltac:(unfold read_raw_implicit; stays_auto) c). done.
  - assert (Hs : stays (write passes idx_ slot subslot d)) by (unfold write; stays_auto). by destruct (Hs c).
  - by destruct (cvoid_stays _ (stays_write_multiple passes writes) c).
  - unfold release, cbind, cget, cignore, ctransport, cmodify. destruct (connected c) eqn:E; cbn [negb].
    + cbn [next_seq cbind cget cmodify cret]. unfold next_seq, cbind, cget, cmodify, cret.
      destruct (send_request _ _) as [t [[]|e| |]]; done.
    + done.
Qed.

End State.

Example ar_state_machine_witness :
  let c := conn_new {| s_responses := []; s_ccontrol := []; s_sent := []; s_replies := [] |} 1 2 (rep 16 1) (rep 16 2) 3 in
  fst (run_op 5 OPrmEnd c) = c /\ Prelude.is_ok (snd (run_op 5 OPrmEnd c)) = false.
Proof. intros c. by apply (ar_state_machine 5 OPrmEnd c). Defined.

(** ** What goes over the wire *)

Record wire_ok (c : RpcConn Script) : Prop := {
  wk_uuids : length (object_uuid_ c) = 16%nat /\ length (activity_uuid c) = 16%nat /\ length (ar_uuid c) = 16%nat;
  wk_numbers : u32_ok (sequence_number c) /\ u16_ok (session_key c);
  wk_responses : Forall bytes_ok (s_responses (transport c));
  wk_ccontrol : Forall bytes_ok (s_ccontrol (transport c));
}.

Definition sent (c : RpcConn Script) : list (list Z) := s_sent (transport c).

(** [d] is a request of this connection under the number [n]. *)
Definition request_of (c : RpcConn Script) (n : Z) (d : list Z) : Prop :=
  exists op body, parse_rpc_header d = Ok (Some (request_header (object_uuid_ c) IFACE_UUID_DEVICE (activity_uuid c) n op body)).

(** One call: silent, or one request under the next number. *)
Definition call_step (c c' : RpcConn Script) : Prop :=
  same_ar c c' /\ wire_ok c' /\
  (sent c' = sent c /\ sequence_number c' = sequence_number c \/
   exists d, sent c' = sent c ++ [d] /\ request_of c (sequence_number c) d /\
             sequence_number c' = wrap_add32 (sequence_number c) 1).

Definition calls {A} (m : C A) : Prop := forall c, wire_ok c -> call_step c (fst (m c)) /\ safe (snd (m c)).

Lemma next_rpc_script passes u s : forall t, Forall bytes_ok (s_responses t) ->
  let r := next_rpc_response passes u s t in
  s_sent (fst r) = s_sent t /\ s_ccontrol (fst r) = s_ccontrol t /\ Forall bytes_ok (s_responses (fst r)) /\
  wp (snd r) (fun h => bytes_ok (payload h)) (fun _ => True).
Proof.
  induction passes as [|passes IH]; intros t Ht; cbv zeta; cbn [next_rpc_response]; [done|].
  cbn [recv_response script_transport]. destruct (s_responses t) as [|d l] eqn:E; [cbn; rewrite E; done|].
  inversion Ht as [|? ? Hd Hl]; subst. pose proof (parse_rpc_response_wp d Hd) as Hp.
  set (t1 := {| s_responses := l; s_ccontrol := _; s_sent := _; s_replies := _ |}).
  destruct (IH t1 Hl) as (I1 & I2 & I3 & I4).
  destruct (parse_rpc_response d) as [[h|]|e| |]; try done. destruct (_ && _); [|done].
  cbn. split_and!; try done. destruct Hp as [Hp _]. apply Hp.
Qed.

Lemma send_receive_script passes c op body :
  wire_ok c -> u16_ok op ->
  let d := rpc_request (object_uuid_ c) IFACE_UUID_DEVICE (activity_uuid c) (sequence_number c) op body in
  forall n, u32_ok n ->
  let r := send_receive passes d (with_seq n c) in
  same_ar c (fst r) /\ wire_ok (fst r) /\ sent (fst r) = sent c ++ [d] /\ sequence_number (fst r) = n /\
  wp (snd r) (fun h => bytes_ok (payload h)) (fun _ => True).
Proof.
  intros [(W1 & W2 & W3) (W4 & W5) W6 W7] Hop d n Hn r. unfold r, d, send_receive, cbind, clift, ctransport.
  rewrite rpc_request_header by done. cbn [ok_or send_request script_transport transport with_transport with_seq].
  set (t := {| s_responses := _ |}).
  pose proof (next_rpc_script passes (drep_normalized_uuid (activity_uuid c) false) (sequence_number c) t W6) as Hx.
  cbn [is_little_endian request_header h_activity_uuid h_sequence_number].
  destruct (next_rpc_response passes _ _ t) as [t' o]. destruct Hx as (X1 & X2 & X3 & X4). cbn [fst snd] in *.
  split_and!; try done. constructor; cbn; try done. by rewrite X2.
Qed.

(** What follows the response touches neither transport nor numbering. *)
Definition quiet {A} (m : C (T := Script) A) : Prop := forall c,
  same_ar c (fst (m c)) /\ transport (fst (m c)) = transport c /\
  sequence_number (fst (m c)) = sequence_number c /\ safe (snd (m c)).

Lemma quiet_lift {A} (o : outcome A) : safe o -> quiet (clift o).
Proof. by intros Ho c. Qed.
Lemma quiet_map_err {A} f (m : C A) : quiet m -> quiet (cmap_err f m).
Proof.
  intros Hm c. specialize (Hm c). unfold cmap_err. destruct (m c) as [c' [a|e| |]]; done.
Qed.
Lemma quiet_bind {A B} (m : C A) (k : A -> C B) : quiet m -> (forall a, quiet (k a)) -> quiet (cbind m k).
Proof.
  intros Hm Hk c. unfold cbind. specialize (Hm c). destruct (m c) as [c1 [a|e| |]]; cbn [fst snd] in *; try done.
  destruct Hm as (H1 & H2 & H3 & _), (Hk a c1) as (H4 & H5 & H6 & H7).
  split_and!; [by eapply same_ar_trans|congruence|congruence|done].
Qed.
Lemma quiet_modify f : (forall c : RpcConn Script, same_ar c (f c) /\ transport (f c) = transport c /\
  sequence_number (f c) = sequence_number c) -> quiet (cmodify f).
Proof. intros Hf c. destruct (Hf c) as (? & ? & ?). done. Qed.
Lemma quiet_ret {A} (a : A) : quiet (cret a).
Proof. done. Qed.

Lemma quiet_wire {A} (m : C (T := Script) A) c : quiet m -> wire_ok c -> wire_ok (fst (m c)) /\ sent (fst (m c)) = sent c.
Proof.
  intros Hm [(W1 & W2 & W3) (W4 & W5) W6 W7]. destruct (Hm c) as ((H1 & H2 & H3 & H4) & H5 & H6 & _). split.
  - constructor; rewrite ?H1, ?H2, ?H3, ?H4, ?H5, ?H6; done.
  - unfold sent. by rewrite H5.
Qed.

Lemma ask_calls {A} passes (f : Z -> RpcConn Script -> list Z) (k : ParsedRpc -> C A) op body :
  u16_ok op ->
  (forall s c, f s c = rpc_request (object_uuid_ c) IFACE_UUID_DEVICE (activity_uuid c) s op (body s c)) ->
  (forall h, bytes_ok (payload h) -> quiet (k h)) ->
  calls (let! seq := next_seq in let! req := cget (f seq) in let! resp := send_receive passes req in k resp).
Proof.
  intros Hop Hf Hk c Hc. pose proof (wk_numbers c Hc) as [Hs _]. set (n := wrap_add32 (sequence_number c) 1).
  match goal with |- call_step _ (fst (?m c)) /\ _ =>
    change (m c) with (cbind (send_receive passes (f (sequence_number c) (with_seq n c))) k (with_seq n c)) end.
  rewrite Hf.
  assert (Hn : u32_ok n) by (unfold n, u32_ok, wrap_add32; apply Z.mod_pos_bound; lia).
  pose proof (send_receive_script passes c op (body (sequence_number c) (with_seq n c)) Hc Hop n Hn) as Hr.
  cbv zeta in Hr. cbn [object_uuid_ activity_uuid with_seq] in *. unfold cbind.
  destruct (send_receive passes _ (with_seq n c)) as [c1 o]. cbn [fst snd] in Hr.
  destruct Hr as (R1 & R2 & R3 & R4 & R5).
  assert (Hreq : request_of c (sequence_number c) (rpc_request (object_uuid_ c) IFACE_UUID_DEVICE (activity_uuid c)
    (sequence_number c) op (body (sequence_number c) (with_seq n c)))).
  { pose proof (wk_uuids c Hc) as (U1 & U2 & _). eexists _, _. by apply rpc_request_header. }
  destruct o as [h|e| |]; cbn [fst snd]; try done; [|split; [split_and!; eauto|done]].
  destruct (quiet_wire (k h) c1 (Hk h R5) R2) as [W1 W2]. destruct (Hk h R5 c1) as (K1 & _ & K3 & K4).
  split; [|done]. split_and!; [by eapply same_ar_trans|done|]. right. eexists. rewrite W2, K3. eauto.
Qed.

Lemma calls_void {A} (m : C A) : calls m -> calls (cvoid m).
Proof.
  intros Hm c Hc. destruct (Hm c Hc) as [H1 H2]. unfold cvoid, cbind. by destruct (m c) as [c' [a|e| |]].
Qed.
Lemma calls_map_err {A} f (m : C A) : calls m -> calls (cmap_err f m).
Proof.
  intros Hm c Hc. destruct (Hm c Hc) as [H1 H2]. unfold cmap_err. by destruct (m c) as [c' [a|e| |]].
Qed.
Lemma call_step_refl c : wire_ok c -> call_step c c.
Proof. intros. split_and!; [done|done|by left]. Qed.
(** A call guarded by [connected]. *)
Lemma calls_guard {A} (o : outcome A) (m : C A) :
  safe o -> calls m -> calls (let! up := cget connected in if negb up then clift o else m).
Proof.
  intros Ho Hm c Hc. unfold cbind, cget, clift. destruct (connected c); cbn [negb]; [by apply Hm|].
  split; [by apply call_step_refl|done].
Qed.

Lemma app_ready_script passes ar key e : forall t, Forall bytes_ok (s_ccontrol t) ->
  let r := wait_app_ready passes ar key e t in
  s_sent (fst r) = s_sent t /\ s_responses (fst r) = s_responses t /\ Forall bytes_ok (s_ccontrol (fst r)) /\
  safe (snd r).
Proof.
  induction passes as [|passes IH]; intros t Ht; cbv zeta; cbn [wait_app_ready]; [done|].
  cbn [recv_ccontrol script_transport]. destruct (s_ccontrol t) as [|d l] eqn:E; [cbn; rewrite E; done|].
  inversion Ht as [|? ? Hd Hl]; subst.
  set (t1 := {| s_responses := _; s_ccontrol := l; s_sent := _; s_replies := _ |}).
  destruct (IH t1 Hl) as (I1 & I2 & I3 & I4).
  destruct (total_Ok _ _ (extract_app_ready_total d Hd)) as ([[h cc]|] & -> & _); [|done].
  destruct (total_Ok _ _ (ccontrol_response_total h ar key)) as (r & -> & _). done.
Qed.

Lemma calls_app_ready passes secs : calls (application_ready passes secs).
Proof.
  apply calls_guard; [done|]. intros c [W1 W2 W3 W4]. unfold cbind, cget, ctransport.
  match goal with |- context [wait_app_ready passes ?a ?k ?e ?t] =>
    pose proof (app_ready_script passes a k e t W4) as Hx; destruct (wait_app_ready passes a k e t) as [t' o] end.
  destruct Hx as (X1 & X2 & X3 & X4). cbn [fst snd] in *. split; [|done]. split_and!; [done| |by left].
  constructor; cbn; try done. by rewrite X2.
Qed.

Lemma calls_send_control passes t cmd l : calls (send_control passes t cmd l).
Proof.
  apply calls_guard; [done|].
  intros c Hc. refine (ask_calls passes (fun s c1 => rpc_request (object_uuid_ c1) IFACE_UUID_DEVICE (activity_uuid c1) s
    CONTROL (nrd (iod_control_block t (ar_uuid c) (session_key c) cmd ++ l)))
    (fun resp => clift (parse_status_response (payload resp) (is_little_endian resp))) CONTROL (fun _ _ => _) _ _ _ c Hc).
  - unfold u16_ok, CONTROL. lia.
  - reflexivity.
  - intros h _. apply quiet_lift, parse_status_safe.
Qed.

Ltac calls_ask op :=
  eapply (ask_calls _ _ _ op); [unfold u16_ok, op; lia | intros; reflexivity | intros h Hh].

Lemma calls_run_op passes op : op <> ORelease -> calls (run_op passes op).
Proof.
  intros Hop. destruct op; cbn [run_op]; try apply calls_void; [..|done].
  - calls_ask CONNECT. apply quiet_bind; [by apply quiet_map_err, quiet_lift, parse_connect_safe|].
    intros r. apply quiet_bind; [by apply quiet_modify|intros _]. by apply quiet_bind; [apply quiet_modify|].
  - calls_ask CONNECT. apply quiet_bind; [apply quiet_map_err, quiet_lift, parse_status_safe|].
    intros r. by apply quiet_modify.
  - apply calls_map_err, calls_send_control.
  - apply calls_map_err, calls_send_control.
  - apply calls_app_ready.
  - unfold read_raw, send_read. calls_ask READ. apply quiet_lift, parse_read_safe.
  - unfold read_raw_implicit, send_read. calls_ask IMPLICIT_READ. apply quiet_lift, parse_read_safe.
  - unfold write. calls_ask WRITE. apply quiet_bind; [apply quiet_lift, parse_status_safe|done].
  - destruct writes as [|w ws]; [intros c Hc; split; [by apply call_step_refl|done]|].
    unfold write_multiple. calls_ask WRITE. intros c. unfold cbind, clift.
    pose proof (parse_status_safe (payload h) (is_little_endian h)) as Hs.
    destruct (parse_status_response _ _) as [p|e| |] eqn:Hp; try done.
    split_and!; try done. apply (wp_safe _ (fun rs => 4 * len rs <= len p) (fun _ => False)).
    apply parse_write_multiple_total. by eapply parse_status_bytes.
Qed.

(** Releasing sends one Release, whose block names the AR. *)
Definition release_of (c : RpcConn Script) (d : list Z) : Prop :=
  exists body n, parse_rpc_header d = Ok (Some (request_header (object_uuid_ c) IFACE_UUID_DEVICE (activity_uuid c)
                   (sequence_number c) RELEASE body)) /\
    parse_nrd body false = Ok n /\ rd_u16 (n_payload n) 0 false = Ok BLOCK_IOD_RELEASE_REQ /\
    slice (n_payload n) 8 24 = Ok (ar_uuid c) /\ rd_u16 (n_payload n) 24 false = Ok (session_key c) /\
    rd_u16 (n_payload n) 28 false = Ok CONTROL_CMD_RELEASE.

Lemma release_script (c : RpcConn Script) : wire_ok c ->
  let r := release c in
  call_step c (fst r) /\ snd r = Ok tt /\ connected (fst r) = false /\
  sent (fst r) = sent c ++ (if connected c then [release_request (object_uuid_ c) IFACE_UUID_DEVICE (activity_uuid c)
                                                   (ar_uuid c) (session_key c) (sequence_number c)] else []) .
Proof.
  intros Hc. cbv zeta. destruct (connected c) eqn:E.
  - set (d := release_request _ _ _ _ _ _).
    assert (Hr : release c = (mkConn {| s_responses := s_responses (transport c); s_ccontrol := s_ccontrol (transport c);
        s_sent := s_sent (transport c) ++ [d]; s_replies := s_replies (transport c) |} (object_uuid_ c) (activity_uuid c)
        (ar_uuid c) (session_key c) (wrap_add32 (sequence_number c) 1) (input_frame_id c) (output_frame_id c) false, Ok tt)).
    { unfold release, cbind, cget. rewrite E. reflexivity. }
    rewrite Hr. destruct Hc as [(W1 & W2 & W3) (W4 & W5) W6 W7]. split; [|done]. split; [done|]. split.
    + constructor; try done. split; [|done]. unfold u32_ok, wrap_add32. apply Z.mod_pos_bound. lia.
    + right. exists d. split; [done|split; [|done]]. eexists _, _. apply rpc_request_header; try done.
  - unfold release, cbind, cget. rewrite E. split_and!; try done; [by apply call_step_refl|by rewrite app_nil_r].
Qed.

Lemma release_request_reads c : wire_ok c ->
  release_of c (release_request (object_uuid_ c) IFACE_UUID_DEVICE (activity_uuid c) (ar_uuid c) (session_key c)
                  (sequence_number c)).
Proof.
  intros [(W1 & W2 & W3) (W4 & W5) W6 W7]. unfold release_request, release_of.
  set (b := iod_control_block _ _ _ _).
  destruct (control_block_reads BLOCK_IOD_RELEASE_REQ (ar_uuid c) (session_key c) CONTROL_CMD_RELEASE W3)
    as (C1 & C2 & C3 & C4 & C5); try (unfold u16_ok, BLOCK_IOD_RELEASE_REQ, CONTROL_CMD_RELEASE; lia); [done|].
  fold b in C1, C2, C3, C4, C5. eexists _, _. split.
  { apply rpc_request_header; try done. }
  split.
  { unfold nrd. rewrite C1. change (as_u32 32) with 32. apply (parse_nrd_at _ _ _ _ _ b false); unfold u32_ok, NDR_ARGS_MAXIMUM; lia. }
  done.
Qed.

Lemma run_ops_numbered passes ops : forall c, wire_ok c ->
  (forall i d, sent c !! i = Some d -> request_of c (Z.of_nat i mod 4294967296) d) ->
  sequence_number c = len (sent c) mod 4294967296 ->
  let c' := run_ops passes ops c in
  wire_ok c' /\ same_ar c c' /\ (forall i d, sent c' !! i = Some d -> request_of c (Z.of_nat i mod 4294967296) d) /\
  sequence_number c' = len (sent c') mod 4294967296.
Proof.
  induction ops as [|op ops IH]; intros c Hc Hs Hn; cbn [run_ops]; [done|]. cbv zeta.
  assert (Hstep : call_step c (fst (run_op passes op c))).
  { destruct op; try (by apply calls_run_op). by apply release_script. }
  set (c1 := fst (run_op passes op c)) in *. clearbody c1. destruct Hstep as (Ha & Hw & Hsent).
  assert (Hreq : forall n d, request_of c n d <-> request_of c1 n d).
  { intros n d. destruct Ha as (A1 & A2 & _). unfold request_of. by rewrite A1, A2. }
  destruct (IH c1 Hw) as (I1 & I2 & I3 & I4).
  - intros i d Hi. apply Hreq. destruct Hsent as [[E _]|(d' & E & Hd & _)]; rewrite E in Hi; [by apply Hs|].
    apply lookup_app_Some in Hi as [Hi|[Hge Hi]]; [by apply Hs|].
    assert (i = length (sent c)) as ->.
    { apply list_lookup_singleton_Some in Hi as [Hi _]. lia. }
    rewrite Nat.sub_diag in Hi. injection Hi as <-. by rewrite <- Hn.
  - destruct Hsent as [[E ->]|(d' & E & Hd & ->)]; rewrite E; [done|]. unfold wrap_add32.
    rewrite Hn, length_app, Nat2Z.inj_add, Zplus_mod_idemp_l. done.
  - split_and!; [done|by eapply same_ar_trans| |done]. intros i d Hi. by apply Hreq, I3.
Qed.

(** C19: What a connection puts on the wire: whatever is called in whatever
    order and whatever comes back, nothing panics, the [i]-th datagram sent is
    a request of this connection under sequence number [i] (modulo 2^32), and
    dropping the connection releases it: with an AR up exactly one Release
    naming this AR and its session key goes out, without one nothing does,
    and nothing more after that. *)
Theorem connection_wire_trace passes ops script device_id vendor_id activity ar key :
  length activity = 16%nat -> length ar = 16%nat -> u16_ok key -> s_sent script = [] ->
  Forall bytes_ok (s_responses script) -> Forall bytes_ok (s_ccontrol script) ->
  let c := run_ops passes ops (conn_new script device_id vendor_id activity ar key) in
  (forall i d, sent c !! i = Some d -> request_of c (Z.of_nat i mod 4294967296) d) /\
  (forall k op, safe (snd (run_op k op c))) /\
  (let c' := fst (drop_conn c) in
   (if connected c then exists d, sent c' = sent c ++ [d] /\ release_of c d else sent c' = sent c) /\
   sent (fst (drop_conn c')) = sent c').
Proof.
  intros Ha Hr Hk Hs H1 H2 c. set (c0 := conn_new script device_id vendor_id activity ar key) in *.
  assert (H0 : wire_ok c0).
  { constructor; try done. cbn. split; [unfold u32_ok; lia|]. destruct (key =? 0); [unfold u16_ok; lia|done]. }
  assert (Hsent : sent c0 = []) by exact Hs.
  destruct (run_ops_numbered passes ops c0 H0) as (Hw & (A1 & A2 & _) & Hi & _);
    [by rewrite Hsent|by rewrite Hsent|]. fold c in Hw, Hi, A1, A2. split_and!.
  - intros i d Hd. unfold request_of. rewrite A1, A2. by apply Hi.
  - intros k op. destruct op; try (by apply calls_run_op).
    destruct (release_script c Hw) as (_ & Ho & _). cbn [run_op]. by rewrite Ho.
  - cbv zeta. unfold drop_conn. destruct (release_script c Hw) as ((_ & Hw' & _) & _ & Hdown & Hd).
    destruct (release_script (fst (release c)) Hw') as (_ & _ & _ & Hd2). rewrite Hdown in Hd2.
    split; [|by rewrite Hd2, app_nil_r]. destruct (connected c); [|by rewrite Hd, app_nil_r].
    eexists. split; [exact Hd|]. by apply release_request_reads.
Qed.

(** A device-access AR accepted, then dropped. *)
Example connection_wire_trace_witness :
  let u := rep 16 3 in
  let ok := rpc_bytes (response_header (request_header (object_uuid 0 1 0 2) IFACE_UUID_DEVICE u 0 CONNECT [])
              (wr_u32 0 false ++ wr_u32 0 false ++ wr_u32 0 false ++ wr_u32 0 false ++ wr_u32 0 false)) in
  let c := run_ops 4 [ODeviceAccess (rep 6 1) [99]] (conn_new {| s_responses := [ok]; s_ccontrol := []; s_sent := [];
             s_replies := [] |} 1 2 u u 5) in
  connected c = true /\ exists d, sent (fst (drop_conn c)) = sent c ++ [d] /\ release_of c d.
Proof.
  intros u ok c. assert (Hc : connected c = true) by (vm_compute; reflexivity). split; [exact Hc|].
  assert (Hok : bytes_ok ok) by (apply (bool_decide_unpack _); vm_compute; exact I).
  destruct (connection_wire_trace 4 [ODeviceAccess (rep 6 1) [99]] {| s_responses := [ok]; s_ccontrol := [];
    s_sent := []; s_replies := [] |} 1 2 u u 5 eq_refl eq_refl ltac:(unfold u16_ok; lia) eq_refl
    (List.Forall_cons _ _ _ Hok (List.Forall_nil _)) (List.Forall_nil _)) as (_ & _ & Hd & _).
  fold ok c in Hd. rewrite Hc in Hd. exact Hd.
Defined.
