(* ===== verification/RawUdp.v ===== *)
(** * UDP over raw Ethernet ([src/src/rawudp.rs])

    The frame builder with both Internet checksums, the datagram filter, the
    point-to-point endpoint [RawUdp] over an abstract capture socket, and
    [RawL2Transport] ([transport.rs]), the RPC transport it carries. *)

From S2P Require Import Prelude Fmt Util Rpc Transport.

#[local] Open Scope string_scope.
#[local] Open Scope list_scope.
#[local] Open Scope Z_scope.

Definition ETHERTYPE_IPV4 : Z := 0x0800.
Definition IP_PROTO_UDP : Z := 17.

(** ** Checksums *)

Fixpoint sum_words (sum : Z) (d : list Z) : Z :=
  match d with
  | a :: b :: d => sum_words (wrap_add32 sum (be16 a b)) d
  | [last] => wrap_add32 sum (as_u32 (Z.shiftl last 8))
  | [] => sum
  end.

Definition sum_be_words (d : list Z) : Z := sum_words 0 d.

(** Two rounds fold any 32-bit sum. *)
Definition fold_checksum (sum : Z) : outcome Z :=
  loop 4 (fun sum => if 0xFFFF <? sum then Ok (Continue (Z.land sum 0xFFFF + Z.shiftr sum 16))
                     else Ok (Break (0xFFFF - as_u16 sum))) sum.

Definition ipv4_checksum (header : list Z) : outcome Z := fold_checksum (sum_be_words header).

Definition udp_sum (src_ip dst_ip udp : list Z) : Z :=
  wrap_add32 (wrap_add32 (wrap_add32 (wrap_add32 (sum_be_words src_ip) (sum_be_words dst_ip))
    IP_PROTO_UDP) (as_u32 (len udp))) (sum_be_words udp).

Definition udp_checksum (src_ip dst_ip udp : list Z) : outcome Z :=
  let? c := fold_checksum (udp_sum src_ip dst_ip udp) in
  Ok (if c =? 0 then 0xFFFF else c).

(** ** Frames *)

Definition build_udp_frame (src_mac dst_mac src_ip dst_ip : list Z) (src_port dst_port ip_id : Z)
    (payload : list Z) : outcome (list Z) :=
  let udp_len := 8 + len payload in
  let total_len := 20 + udp_len in
  let ip := [0x45] ++ [0x00] ++ be16_bytes (as_u16 total_len) ++ be16_bytes ip_id
            ++ be16_bytes 0x4000 ++ [64] ++ [IP_PROTO_UDP] ++ [0; 0] ++ src_ip ++ dst_ip in
  let? ip_cksum := ipv4_checksum ip in
  let? ip := splice ip 10 (be16_bytes ip_cksum) in
  let udp := be16_bytes src_port ++ be16_bytes dst_port ++ be16_bytes (as_u16 udp_len) ++ [0; 0] ++ payload in
  let? udp_cksum := udp_checksum src_ip dst_ip udp in
  let? udp := splice udp 6 (be16_bytes udp_cksum) in
  Ok (dst_mac ++ src_mac ++ be16_bytes ETHERTYPE_IPV4 ++ ip ++ udp).

Definition parse_udp_frame (frame want_src_ip want_dst_ip : list Z) : outcome (option (list Z * Z)) :=
  if len frame <? 14 then Ok None
  else
    let? off := skip_vlan_tags frame in
    if len frame <? off + 2 then Ok None
    else
      let? et := rd_be16 frame off in
      if negb (et =? ETHERTYPE_IPV4) then Ok None
      else
        let ip := off + 2 in
        if len frame <? ip + 20 then Ok None
        else
          let? vi := idx frame ip in
          if negb (Z.shiftr vi 4 =? 4) then Ok None
          else
            let ihl := Z.land vi 0x0F * 4 in
            if (ihl <? 20) || (len frame <? ip + ihl + 8) then Ok None
            else
              let? frag := rd_be16 frame (ip + 6) in
              if negb (Z.land frag 0x1FFF =? 0) then Ok None
              else
                let? proto := idx frame (ip + 9) in
                if negb (proto =? IP_PROTO_UDP) then Ok None
                else
                  let? s := slice frame (ip + 12) (ip + 16) in
                  if negb (bool_decide (s = want_src_ip)) then Ok None
                  else
                    let? d := slice frame (ip + 16) (ip + 20) in
                    if negb (bool_decide (d = want_dst_ip)) then Ok None
                    else
                      let udp := ip + ihl in
                      let? src_port := rd_be16 frame udp in
                      let? udp_len := rd_be16 frame (udp + 4) in
                      if (udp_len <? 8) || (len frame <? udp + udp_len) then Ok None
                      else
                        let? p := slice frame (udp + 8) (udp + udp_len) in
                        Ok (Some (p, src_port)).

(** ** The endpoint *)

(** The capture socket of [pcap.rs]. *)
Class PacketSocket (S : Type) := {
  sock_send : list Z -> S -> S * outcome unit;
  sock_recv : S -> S * outcome (option (list Z));
}.

Record RawUdp (S : Type) := mkRawUdp {
  sock : S;
  src_mac : list Z;
  dst_mac : list Z;
  src_ip : list Z;
  dst_ip : list Z;
  local_port : Z;
  ip_id : Z;
}.
Arguments mkRawUdp {S}.
Arguments sock {S}.
Arguments src_mac {S}.
Arguments dst_mac {S}.
Arguments src_ip {S}.
Arguments dst_ip {S}.
Arguments local_port {S}.
Arguments ip_id {S}.

Record RawL2Transport (S : Type) := mkRawL2 {
  raw : RawUdp S;
  ccontrol_src : option Z;
}.
Arguments mkRawL2 {S}.
Arguments raw {S}.
Arguments ccontrol_src {S}.

Section Endpoint.
Context {S : Type} `{PacketSocket S}.

(** [RawUdp::open] once the capture is open. *)
Definition raw_open (s : S) (smac sip dmac dip : list Z) (port : Z) : RawUdp S :=
  mkRawUdp s smac dmac sip dip port 0.

Definition with_sock (s : S) (u : RawUdp S) : RawUdp S :=
  mkRawUdp s (src_mac u) (dst_mac u) (src_ip u) (dst_ip u) (local_port u) (ip_id u).
Definition with_ip_id (n : Z) (u : RawUdp S) : RawUdp S :=
  mkRawUdp (sock u) (src_mac u) (dst_mac u) (src_ip u) (dst_ip u) (local_port u) n.

Definition send_to_from (payload : list Z) (src_port dst_port : Z) (u : RawUdp S)
    : RawUdp S * outcome unit :=
  let id := ip_id u in
  let u := with_ip_id (wrap_add16 id 1) u in
  match build_udp_frame (src_mac u) (dst_mac u) (src_ip u) (dst_ip u) src_port dst_port id payload with
  | Ok frame => let '(s, o) := sock_send frame (sock u) in (with_sock s u, o)
  | Err e => (u, Err e)
  | Panic => (u, Panic)
  | OutOfFuel => (u, OutOfFuel)
  end.

Definition send_to (payload : list Z) (dst_port : Z) (u : RawUdp S) : RawUdp S * outcome unit :=
  send_to_from payload (local_port u) dst_port u.

(** [passes] is the number of receives before the deadline. *)
Fixpoint recv_from (passes : nat) (u : RawUdp S) : RawUdp S * outcome (option (list Z * Z)) :=
  match passes with
  | O => (u, Ok None)
  | Datatypes.S passes =>
      let '(s, o) := sock_recv (sock u) in
      let u := with_sock s u in
      match o with
      | Ok (Some frame) =>
          match parse_udp_frame frame (dst_ip u) (src_ip u) with
          | Ok (Some hit) => (u, Ok (Some hit))
          | Ok None => recv_from passes u
          | Err e => (u, Err e)
          | Panic => (u, Panic)
          | OutOfFuel => (u, OutOfFuel)
          end
      | Ok None => (u, Ok None)
      | Err e => (u, Err e)
      | Panic => (u, Panic)
      | OutOfFuel => (u, OutOfFuel)
      end
  end.

Definition l2_recv (passes : nat) (t : RawL2Transport S)
    : RawL2Transport S * outcome (option (list Z * Z)) :=
  let '(u, o) := recv_from passes (raw t) in (mkRawL2 u (ccontrol_src t), o).

Definition l2_send_request (d : list Z) (t : RawL2Transport S) : RawL2Transport S * outcome unit :=
  let '(u, o) := send_to d RPC_PORT (raw t) in (mkRawL2 u (ccontrol_src t), o).

Definition l2_recv_response (passes : nat) (t : RawL2Transport S) : RawL2Transport S * outcome (option (list Z)) :=
  let '(t, o) := l2_recv passes t in (t, let? r := o in Ok (fst <$> r)).

Definition l2_recv_ccontrol (passes : nat) (t : RawL2Transport S) : RawL2Transport S * outcome (option (list Z)) :=
  let '(t, o) := l2_recv passes t in
  match o with
  | Ok (Some (p, port)) => (mkRawL2 (raw t) (Some port), Ok (Some p))
  | Ok None => (t, Ok None)
  | Err e => (t, Err e)
  | Panic => (t, Panic)
  | OutOfFuel => (t, OutOfFuel)
  end.

Definition l2_reply_ccontrol (d : list Z) (t : RawL2Transport S) : RawL2Transport S * outcome unit :=
  match ccontrol_src t with
  | None => (t, Err "No CControl received to reply to")
  | Some port => let '(u, o) := send_to_from d RPC_PORT port (raw t) in (mkRawL2 u (ccontrol_src t), o)
  end.

Definition l2_peer (t : RawL2Transport S) : string :=
  match s2ip (dst_ip (raw t)) with Ok s => s | _ => "device" end.

(** Each receive of the trait gets [passes] captures before its deadline. *)
Definition rawl2_transport (passes : nat) : RpcTransport (RawL2Transport S) := {|
  send_request := l2_send_request;
  recv_response := l2_recv_response passes;
  recv_ccontrol := l2_recv_ccontrol passes;
  reply_ccontrol := l2_reply_ccontrol;
  peer := l2_peer;
|}.

End Endpoint.

(** ** The checksums verify *)

(** The sum without wrap-around. *)
Fixpoint wsum (d : list Z) : Z :=
  match d with
  | a :: b :: d => be16 a b + wsum d
  | [last] => be16 last 0
  | [] => 0
  end.

Lemma wsum_bound n : forall d, (length d <= n)%nat -> bytes_ok d -> 0 <= wsum d <= 65535 * len d.
Proof.
  induction n as [|n IH]; intros [|a [|b d]] Hn Hd; simpl in Hn; try lia; cbn [wsum length]; try lia.
  - unfold bytes_ok in Hd; rewrite Forall_singleton in Hd. unfold byte_ok, be16 in *. lia.
  - inversion Hd as [|? ? Ha Hd']; subst. inversion Hd' as [|? ? Hb Hd'']; subst.
    specialize (IH d ltac:(lia) Hd''). unfold byte_ok, be16 in *. lia.
Qed.

Lemma sum_words_plain n : forall d s, (length d <= n)%nat -> bytes_ok d -> 0 <= s -> s + 65535 * len d < 4294967296 ->
  sum_words s d = s + wsum d.
Proof.
  induction n as [|n IH]; intros [|a [|b d]] s Hn Hd Hs Hb; simpl in Hn; try lia; cbn [sum_words wsum]; try lia.
  - unfold bytes_ok in Hd; rewrite Forall_singleton in Hd. simpl in Hb. unfold byte_ok, be16, wrap_add32, as_u32 in *.
    rewrite Z.shiftl_mul_pow2 by lia. change (2 ^ 8) with 256. rewrite (Z.mod_small (a * 256)) by lia. rewrite Z.mod_small; lia.
  - inversion Hd as [|? ? Ha Hd']; subst. inversion Hd' as [|? ? Hb' Hd'']; subst.
    cbn [length] in Hb. assert (Hw : wrap_add32 s (be16 a b) = s + be16 a b).
    { unfold wrap_add32. rewrite Z.mod_small; unfold byte_ok, be16 in *; lia. }
    rewrite Hw, IH; unfold byte_ok, be16 in *; try done; lia.
Qed.

Lemma sum_be_words_plain d : bytes_ok d -> 65535 * len d < 4294967296 -> sum_be_words d = wsum d.
Proof. intros. unfold sum_be_words. by rewrite (sum_words_plain (length d)) by (done || lia). Qed.

(** What folding yields: the complement of the sum modulo 2^16 - 1. *)
Definition folded (s : Z) : Z := if s =? 0 then 65535 else 65534 - (s - 1) mod 65535.

Lemma fold_checksum_eq s : 0 <= s < 4294967296 -> fold_checksum s = Ok (folded s).
Proof.
  intros Hs. assert (W : total (fold_checksum s) (fun c => c = folded s)).
  { unfold fold_checksum, total.
    apply wp_loop with
      (I := fun t => 0 <= t < 4294967296 /\ (t = 0 <-> s = 0) /\ t mod 65535 = s mod 65535)
      (m := fun t => if t <=? 65535 then 0%nat else if t <=? 131070 then 1%nat else 2%nat).
    - intros t (H1 & H2 & H3). cbv beta. destruct (0xFFFF <? t) eqn:E; cbn [wp].
      + assert (HL : Z.land t 0xFFFF = t mod 65536) by (change 0xFFFF with (Z.ones 16); rewrite Z.land_ones by lia; done).
        rewrite HL, Z.shiftr_div_pow2 by lia.
        change (2 ^ 16) with 65536. split; [split_and!|].
        all: try zdiv.
        destruct (t <=? 65535) eqn:E1; [lia|].
        destruct (t mod 65536 + t / 65536 <=? 65535) eqn:E3; [destruct (t <=? 131070); lia|].
        destruct (t mod 65536 + t / 65536 <=? 131070) eqn:E4; destruct (t <=? 131070) eqn:E2; try lia; zdiv.
      + unfold folded, as_u16. rewrite (Z.mod_small t) by lia. destruct (s =? 0) eqn:E0; [lia|]. zdiv.
    - split_and!; lia.
    - destruct (s <=? 65535); [lia|]. destruct (s <=? 131070); lia. }
  by apply total_Ok in W as (c & -> & ->).
Qed.

(** A word that contains its own complement folds to nothing. *)
Lemma folded_check s : 0 <= s -> folded (s + folded s) = 0.
Proof.
  intros Hs. unfold folded at 2. destruct (Z.eqb_spec s 0) as [->|Hn]; [done|].
  set (q := (s - 1) / 65535). assert (Hr : 0 <= (s - 1) mod 65535 < 65535) by (apply Z.mod_pos_bound; lia).
  assert (E : s + (65534 - (s - 1) mod 65535) - 1 = 65534 + q * 65535) by (unfold q; zdiv).
  unfold folded. rewrite (proj2 (Z.eqb_neq (s + _) 0)) by lia. by rewrite E, Z.mod_add by lia.
Qed.
Lemma folded_check_ffff s : 0 <= s -> folded s = 0 -> folded (s + 65535) = 0.
Proof.
  intros Hs. unfold folded. destruct (Z.eqb_spec s 0) as [->|Hn]; [done|]. intros H.
  rewrite (proj2 (Z.eqb_neq (s + 65535) 0)) by lia.
  replace (s + 65535 - 1) with (s - 1 + 1 * 65535) by lia. by rewrite Z.mod_add by lia.
Qed.
Lemma folded_range s : 0 <= s -> u16_ok (folded s).
Proof. intros. unfold folded, u16_ok. destruct (_ =? 0); zdiv. Qed.

(** ** What a frame looks like *)

Definition ip_header (total id cksum : Z) (sip dip : list Z) : list Z :=
  [0x45; 0x00] ++ be16_bytes total ++ be16_bytes id ++ [0x40; 0x00; 64; 17] ++ be16_bytes cksum ++ sip ++ dip.
Definition udp_datagram (sport dport length_ cksum : Z) (p : list Z) : list Z :=
  be16_bytes sport ++ be16_bytes dport ++ be16_bytes length_ ++ be16_bytes cksum ++ p.

Lemma wsum_word v l : u16_ok v -> wsum (be16_bytes v ++ l) = v + wsum l.
Proof. intros. unfold be16_bytes. cbn [app wsum]. by rewrite be16_be16_bytes. Qed.

Lemma wsum_ip total id c sip dip :
  u16_ok total -> u16_ok id -> u16_ok c ->
  wsum (ip_header total id c sip dip) = wsum (ip_header total id 0 sip dip) + c.
Proof.
  intros Ht Hi Hc. assert (H0 : u16_ok 0) by (unfold u16_ok; lia). unfold ip_header. cbn [app wsum].
  rewrite !wsum_word by done. cbn [app wsum]. rewrite !wsum_word by done. lia.
Qed.

Lemma wsum_udp sp dp L c p :
  u16_ok sp -> u16_ok dp -> u16_ok L -> u16_ok c ->
  wsum (udp_datagram sp dp L c p) = wsum (udp_datagram sp dp L 0 p) + c.
Proof. intros. assert (u16_ok 0) by (unfold u16_ok; lia). unfold udp_datagram. rewrite !wsum_word by done. lia. Qed.

Lemma ip_header_bytes total id c sip dip : bytes_ok sip -> bytes_ok dip -> bytes_ok (ip_header total id c sip dip).
Proof.
  intros. unfold ip_header. repeat apply bytes_ok_app; try apply bytes_ok_be16; try done;
    repeat constructor; unfold byte_ok; lia.
Qed.
Lemma udp_bytes sp dp L c p : bytes_ok p -> bytes_ok (udp_datagram sp dp L c p).
Proof. intros. unfold udp_datagram. repeat apply bytes_ok_app; try apply bytes_ok_be16; done. Qed.

Lemma len_udp sp dp L c p : len (udp_datagram sp dp L c p) = 8 + len p.
Proof. unfold udp_datagram. rewrite !length_app. simpl. lia. Qed.
Lemma len_ip total id c sip dip : length sip = 4%nat -> length dip = 4%nat -> len (ip_header total id c sip dip) = 20.
Proof. intros Hs Hd. unfold ip_header. rewrite !length_app, Hs, Hd. reflexivity. Qed.

Lemma splice_ip T id c sip dip : splice (ip_header T id 0 sip dip) 10 (be16_bytes c) = Ok (ip_header T id c sip dip).
Proof.
  rewrite splice_ok; [reflexivity|lia|]. unfold ip_header. rewrite !length_app. simpl. lia.
Qed.
Lemma splice_udp sp dp L c p : splice (udp_datagram sp dp L 0 p) 6 (be16_bytes c) = Ok (udp_datagram sp dp L c p).
Proof. rewrite splice_ok; [reflexivity|lia|]. rewrite len_udp. simpl. lia. Qed.

Section Build.
Variables (smac dmac sip dip : list Z) (sport dport id : Z) (p : list Z).
Hypothesis (Hsip : length sip = 4%nat) (Hdip : length dip = 4%nat).
Hypothesis (Bsip : bytes_ok sip) (Bdip : bytes_ok dip) (Bp : bytes_ok p).
Hypothesis (Hsport : u16_ok sport) (Hdport : u16_ok dport) (Hid : u16_ok id) (Hp : len p <= 65507).

(** The sum a receiver verifies, without wrap-around. *)
Lemma udp_sum_plain c :
  udp_sum sip dip (udp_datagram sport dport (8 + len p) c p)
  = wsum sip + wsum dip + 17 + (8 + len p) + wsum (udp_datagram sport dport (8 + len p) c p) /\
  0 <= wsum sip /\ 0 <= wsum dip /\ 0 <= wsum (udp_datagram sport dport (8 + len p) c p) /\
  wsum sip + wsum dip + 17 + (8 + len p) + wsum (udp_datagram sport dport (8 + len p) c p) < 4294967296.
Proof.
  pose proof (wsum_bound _ sip (le_n _) Bsip) as W1. pose proof (wsum_bound _ dip (le_n _) Bdip) as W2.
  pose proof (udp_bytes sport dport (8 + len p) c p Bp) as Bu.
  pose proof (wsum_bound _ _ (le_n _) Bu) as W3. pose proof (len_udp sport dport (8 + len p) c p) as Hl.
  unfold udp_sum. rewrite (sum_be_words_plain sip), (sum_be_words_plain dip), (sum_be_words_plain (udp_datagram _ _ _ _ _)), Hl
    by (done || lia). rewrite Hsip in W1. rewrite Hdip in W2. rewrite Hl in W3.
  unfold wrap_add32, as_u32, IP_PROTO_UDP. set (u := wsum (udp_datagram _ _ _ _ _)) in *.
  split_and!; try lia. rewrite (Z.mod_small (wsum sip + wsum dip)), (Z.mod_small (8 + len p)) by lia.
  rewrite (Z.mod_small (wsum sip + wsum dip + 17)) by lia.
  rewrite (Z.mod_small (_ + 17 + (8 + len p))) by lia. rewrite Z.mod_small; lia.
Qed.

Lemma build_udp_frame_eq :
  exists ci cu, u16_ok ci /\ u16_ok cu /\ cu <> 0 /\
    build_udp_frame smac dmac sip dip sport dport id p
    = Ok (dmac ++ smac ++ [0x08; 0x00] ++ ip_header (28 + len p) id ci sip dip
          ++ udp_datagram sport dport (8 + len p) cu p) /\
    ipv4_checksum (ip_header (28 + len p) id ci sip dip) = Ok 0 /\
    fold_checksum (udp_sum sip dip (udp_datagram sport dport (8 + len p) cu p)) = Ok 0.
Proof.
  set (T := 28 + len p). set (L := 8 + len p).
  assert (HT : u16_ok T) by (unfold T, u16_ok; lia). assert (HL : u16_ok L) by (unfold L, u16_ok; lia).
  assert (H0 : u16_ok 0) by (unfold u16_ok; lia).
  set (s0 := wsum (ip_header T id 0 sip dip)).
  assert (Hip : forall c, 0 <= wsum (ip_header T id c sip dip) < 4294967296 /\
    ipv4_checksum (ip_header T id c sip dip) = Ok (folded (wsum (ip_header T id c sip dip)))).
  { intros c. pose proof (ip_header_bytes T id c sip dip Bsip Bdip) as Hb.
    pose proof (wsum_bound _ _ (le_n _) Hb) as W. rewrite len_ip in W by done. split; [lia|].
    unfold ipv4_checksum. rewrite sum_be_words_plain by (rewrite ?len_ip; done). apply fold_checksum_eq. lia. }
  destruct (Hip 0) as [W0 Hc0]. fold s0 in W0, Hc0. set (ci := folded s0) in *.
  assert (Hci : u16_ok ci) by (apply folded_range; lia).
  destruct (udp_sum_plain 0) as (U1 & U2 & U3 & U4 & U5). fold L in U1, U2, U3, U4, U5.
  set (u0 := wsum sip + wsum dip + 17 + L + wsum (udp_datagram sport dport L 0 p)) in *.
  set (cu := if folded u0 =? 0 then 0xFFFF else folded u0).
  assert (Hcu : u16_ok cu /\ cu <> 0).
  { pose proof (folded_range u0 ltac:(unfold u0; lia)). unfold cu, u16_ok in *. destruct (_ =? 0) eqn:E; lia. }
  destruct Hcu as [Hcu Hcu0]. exists ci, cu. split_and!; try done.
  - unfold build_udp_frame. replace (20 + (8 + len p)) with T by (unfold T; lia). fold L.
    rewrite (as_u16_id T HT), (as_u16_id L HL).
    change ([0x45] ++ _) with (ip_header T id 0 sip dip). rewrite Hc0. cbn [bind]. rewrite splice_ip. cbn [bind].
    change (be16_bytes sport ++ _) with (udp_datagram sport dport L 0 p).
    unfold udp_checksum. rewrite U1, fold_checksum_eq by (unfold u0; lia). cbn [bind]. fold cu.
    rewrite splice_udp. reflexivity.
  - destruct (Hip ci) as [_ ->]. rewrite wsum_ip by done. fold s0. f_equal. apply folded_check. lia.
  - destruct (udp_sum_plain cu) as (V1 & _ & _ & _ & V5). fold L in V1, V5. rewrite V1. rewrite wsum_udp in V5 |- * by done.
    replace (_ + (_ + cu)) with (u0 + cu) by (unfold u0; lia).
    assert (0 <= u0) by (unfold u0; unfold u16_ok in HL; lia). rewrite fold_checksum_eq by (unfold u0, u16_ok in *; lia). f_equal. unfold cu.
    destruct (Z.eqb_spec (folded u0) 0); [by apply folded_check_ffff|by apply folded_check].
Qed.

End Build.

(** The filter on a frame of the builder's layout, whatever the tags and the
    padding: the payload and the port, if the addresses are the wanted ones. *)
Lemma parse_udp_frame_eq addr tcis total id ci cu sip dip sport dport p pad ws wd :
  len addr = 12 -> length sip = 4%nat -> length dip = 4%nat -> u16_ok sport -> len p <= 65507 ->
  parse_udp_frame (addr ++ tags tcis ++ 0x08 :: 0x00 :: ip_header total id ci sip dip
                   ++ udp_datagram sport dport (8 + len p) cu p ++ pad) ws wd
  = Ok (if bool_decide (sip = ws) && bool_decide (dip = wd) then Some (p, sport) else None).
Proof.
  intros Ha Hs Hd Hsp Hp. destruct (list_split4 sip Hs) as (s1 & s2 & s3 & s4 & ->).
  destruct (list_split4 dip Hd) as (d1 & d2 & d3 & d4 & ->).
  assert (HL : u16_ok (8 + len p)) by (unfold u16_ok; lia). set (L := 8 + len p) in *.
  set (body := ip_header _ _ _ _ _ ++ _).
  destruct (tagged_frame addr tcis 0x08 0x00 body Ha eq_refl) as (Hlen & Hv & Het & _).
  set (F := addr ++ tags tcis ++ [0x08; 0x00]).
  assert (HF : len F = 14 + 4 * len tcis) by (unfold F; rewrite !length_app, !Nat2Z.inj_add, tags_length; simpl; lia).
  assert (Hfr : addr ++ tags tcis ++ 0x08 :: 0x00 :: body = F ++ body) by (unfold F; by rewrite <- !app_assoc).
  assert (Hbl : len body = 20 + L + len pad).
  { unfold body. rewrite !length_app, !Nat2Z.inj_add, len_udp, len_ip by done. unfold L. lia. }
  cbv zeta in Hlen, Hv, Het. rewrite Hfr in *. unfold parse_udp_frame.
  set (o := 12 + 4 * len tcis) in *. assert (Ho : o + 2 = len F) by (unfold o; lia).
  rewrite (proj2 (Z.ltb_ge (len (F ++ body)) 14)) by lia. rewrite (skip_vlan_eq _ _ Hv). cbn [bind].
  rewrite (proj2 (Z.ltb_ge (len (F ++ body)) (o + 2))) by lia. rewrite Het. cbn [bind].
  change (negb (be16 0x08 0x00 =? ETHERTYPE_IPV4)) with false. cbv iota zeta. rewrite Ho.
  rewrite (proj2 (Z.ltb_ge (len (F ++ body)) (len F + 20))) by lia.
  assert (R0 : idx (F ++ body) (len F) = Ok 0x45) by (eapply (idx_skip F body _ 0); [lia|lia|]; unfold body, ip_header, udp_datagram, be16_bytes; cbn [app]; lit_read).
  assert (R6 : rd_be16 (F ++ body) (len F + 6) = Ok 0x4000) by (eapply (rd_be16_skip F body _ 6); [lia|lia|]; unfold body, ip_header, udp_datagram, be16_bytes; cbn [app]; lit_read).
  assert (R9 : idx (F ++ body) (len F + 9) = Ok IP_PROTO_UDP) by (eapply (idx_skip F body _ 9); [lia|lia|]; unfold body, ip_header, udp_datagram, be16_bytes; cbn [app]; lit_read).
  assert (R12 : slice (F ++ body) (len F + 12) (len F + 16) = Ok [s1; s2; s3; s4]).
  { rewrite slice_skip by lia. unfold body, ip_header, be16_bytes. cbn [app]. slice_read. }
  assert (R16 : slice (F ++ body) (len F + 16) (len F + 20) = Ok [d1; d2; d3; d4]).
  { rewrite slice_skip by lia. unfold body, ip_header, be16_bytes. cbn [app]. slice_read. }
  assert (R20 : rd_be16 (F ++ body) (len F + 20) = Ok sport).
  { eapply (rd_be16_skip F body _ 20); [lia|lia|]. unfold body, ip_header, udp_datagram, be16_bytes. cbn [app]. lit_read. }
  assert (R24 : rd_be16 (F ++ body) (len F + 24) = Ok L).
  { eapply (rd_be16_skip F body _ 24); [lia|lia|]. unfold body, ip_header, udp_datagram, be16_bytes. cbn [app]. lit_read. }
  assert (R28 : slice (F ++ body) (len F + 28) (len F + 20 + L) = Ok p).
  { replace (len F + 20 + L) with (len F + (20 + L)) by lia. rewrite slice_skip by lia.
    apply (slice_at _ (ip_header total id ci [s1; s2; s3; s4] [d1; d2; d3; d4] ++ be16_bytes sport ++ be16_bytes dport
      ++ be16_bytes L ++ be16_bytes cu) p pad); [|reflexivity|].
    - unfold body, udp_datagram. by rewrite <- !app_assoc.
    - change (20 + L = 28 + len p). unfold L. lia. }
  rewrite R0. cbn [bind]. change (negb (Z.shiftr 0x45 4 =? 4)) with false. change (Z.land 0x45 0x0F * 4) with 20.
  cbv iota. rewrite (proj2 (Z.ltb_ge (len (F ++ body)) (len F + 20 + 8))) by (rewrite Hlen, Hbl, HF; unfold L; lia).
  cbn [orb Z.ltb]. change (20 <? 20) with false. cbv iota. rewrite R6. cbn [bind].
  change (negb (Z.land 0x4000 0x1FFF =? 0)) with false. cbv iota. rewrite R9. cbn [bind].
  change (negb (IP_PROTO_UDP =? IP_PROTO_UDP)) with false. cbv iota. rewrite R12. cbn [bind].
  destruct (bool_decide ([s1; s2; s3; s4] = ws)); cbn [negb andb]; [|done]. rewrite R16. cbn [bind].
  destruct (bool_decide ([d1; d2; d3; d4] = wd)); cbn [negb]; [|done]. rewrite R20. cbn [bind].
  replace (len F + 20 + 4) with (len F + 24) by lia. rewrite R24. cbn [bind].
  rewrite (proj2 (Z.ltb_ge L 8)) by (unfold L; lia).
  rewrite (proj2 (Z.ltb_ge (len (F ++ body)) (len F + 20 + L))) by (rewrite Hlen, Hbl, HF; unfold L; lia).
  cbn [orb]. replace (len F + 20 + 8) with (len F + 28) by lia. by rewrite R28.
Qed.

Lemma parse_udp_frame_total frame ws wd :
  bytes_ok frame -> total (parse_udp_frame frame ws wd) (fun r => match r with Some (p, _) => bytes_ok p | None => True end).
Proof.
  intros Hf. unfold parse_udp_frame, total. destruct (len frame <? 14) eqn:E1; [done|].
  apply wp_bind, wp_skip_vlan. intros o (Ho & _ & _). destruct (len frame <? o + 2) eqn:E2; [done|].
  wp_step. wp_step. destruct (negb _); [done|]. cbv zeta. destruct (len frame <? o + 2 + 20) eqn:E3; [done|].
  wp_step. wp_step. destruct (negb _); [done|].
  match goal with |- context [Z.land ?v 0x0F * 4] => set (ihl := Z.land v 0x0F * 4) end.
  destruct ((ihl <? 20) || (len frame <? o + 2 + ihl + 8)) eqn:E4; [done|].
  wp_step. wp_step. destruct (negb _); [done|]. wp_step. wp_step. destruct (negb _); [done|].
  do 2 wp_step. destruct (negb _); [done|]. do 2 wp_step. destruct (negb _); [done|]. do 4 wp_step.
  match goal with |- wp (if ?b then _ else _) _ _ => destruct b eqn:E5 end; [done|]. apply wp_bind. apply wp_slice; [lia|lia|]. intros p Hp Hpl.
  cbn. by eapply slice_Forall.
Qed.

(** ** Properties *)

(** A datagram survives the wire: the frame built for it carries both
    Internet checksums as a receiver verifies them (the UDP one never 0, which
    would mean none), and the peer's filter, behind any number of VLAN tags
    and any padding, reads exactly the payload and the source port; a filter
    for other addresses, such as that of our own capture, ignores it. *)
Theorem udp_frame_roundtrip smac dmac sip dip sport dport id p tcis pad ws wd :
  length smac = 6%nat -> length dmac = 6%nat -> length sip = 4%nat -> length dip = 4%nat ->
  bytes_ok sip -> bytes_ok dip -> bytes_ok p -> u16_ok sport -> u16_ok dport -> u16_ok id -> len p <= 65507 ->
  exists ip udp,
    build_udp_frame smac dmac sip dip sport dport id p = Ok (dmac ++ smac ++ [0x08; 0x00] ++ ip ++ udp) /\
    len ip = 20 /\ rd_be16 ip 2 = Ok (len ip + len udp) /\ ipv4_checksum ip = Ok 0 /\
    rd_be16 udp 2 = Ok dport /\ rd_be16 udp 4 = Ok (len udp) /\ rd_be16 udp 6 <> Ok 0 /\
    fold_checksum (udp_sum sip dip udp) = Ok 0 /\
    parse_udp_frame ((dmac ++ smac) ++ tags tcis ++ 0x08 :: 0x00 :: ip ++ udp ++ pad) ws wd
    = Ok (if bool_decide (sip = ws) && bool_decide (dip = wd) then Some (p, sport) else None).
Proof.
  intros Hsm Hdm Hs Hd Bs Bd Bp Hsp Hdp Hid Hp.
  destruct (build_udp_frame_eq smac dmac sip dip sport dport id p Hs Hd Bs Bd Bp Hsp Hdp Hid Hp)
    as (ci & cu & Hci & Hcu & Hcu0 & Hb & Hic & Huc).
  assert (HT : u16_ok (28 + len p)) by (unfold u16_ok; lia). assert (HL : u16_ok (8 + len p)) by (unfold u16_ok; lia).
  exists (ip_header (28 + len p) id ci sip dip), (udp_datagram sport dport (8 + len p) cu p).
  rewrite !len_udp, !len_ip by done. split_and!; try done.
  - unfold ip_header, be16_bytes. cbn [app]. replace (20 + (8 + len p)) with (28 + len p) by lia. lit_read.
  - unfold udp_datagram, be16_bytes. cbn [app]. lit_read.
  - unfold udp_datagram, be16_bytes. cbn [app]. lit_read.
  - assert (R : rd_be16 (udp_datagram sport dport (8 + len p) cu p) 6 = Ok cu)
      by (unfold udp_datagram, be16_bytes; cbn [app]; lit_read). rewrite R. congruence.
  - apply parse_udp_frame_eq; try done. rewrite length_app, Hsm, Hdm. done.
Qed.

Example udp_frame_roundtrip_witness :
  exists ip udp, build_udp_frame (rep 6 2) (rep 6 4) [192; 168; 0; 1] [192; 168; 0; 2] 49152 34964 7 [1; 2; 3]
                 = Ok (rep 6 4 ++ rep 6 2 ++ [0x08; 0x00] ++ ip ++ udp) /\
    parse_udp_frame ((rep 6 4 ++ rep 6 2) ++ tags [5] ++ 0x08 :: 0x00 :: ip ++ udp ++ rep 9 0)
      [192; 168; 0; 1] [192; 168; 0; 2] = Ok (Some ([1; 2; 3], 49152)).
Proof.
  destruct (udp_frame_roundtrip (rep 6 2) (rep 6 4) [192; 168; 0; 1] [192; 168; 0; 2] 49152 34964 7 [1; 2; 3] [5]
    (rep 9 0) [192; 168; 0; 1] [192; 168; 0; 2]) as (ip & udp & H1 & _ & _ & _ & _ & _ & _ & _ & H2);
    try reflexivity; try (unfold u16_ok; lia); try (apply (bool_decide_unpack _); vm_compute; exact I); try (simpl; lia).
  exists ip, udp. split; [exact H1|]. rewrite H2. reflexivity.
Defined.

(** ** RPC over the endpoint *)

(** A capture that plays frames and records what is sent. *)
Record Wire := { w_rx : list (list Z); w_tx : list (list Z) }.

#[global] Instance wire_socket : PacketSocket Wire := {
  sock_send f w := ({| w_rx := w_rx w; w_tx := w_tx w ++ [f] |}, Ok tt);
  sock_recv w := match w_rx w with
                 | [] => (w, Ok None)
                 | f :: l => ({| w_rx := l; w_tx := w_tx w |}, Ok (Some f))
                 end;
}.

(** A captured frame the call passes over: other traffic (our own frames
    among it), or a datagram of the peer that is not the answer. *)
Definition passed_over (au : list Z) (seq : Z) (u : RawUdp Wire) (f : list Z) : Prop :=
  parse_udp_frame f (dst_ip u) (src_ip u) = Ok None \/
  exists d port, parse_udp_frame f (dst_ip u) (src_ip u) = Ok (Some (d, port)) /\ skipped au seq d.

(** One wait for a datagram, [k] captures long, and what follows it. *)
Definition await (P : nat) (au : list Z) (seq : Z) (k n : nat) (t : RawL2Transport Wire) : outcome ParsedRpc :=
  snd (match l2_recv_response k t with
       | (t', Ok None) => (t', Err ("No response from " +:+ l2_peer t))
       | (t, Ok (Some d)) =>
           match parse_rpc_response d with
           | Ok (Some resp) =>
               if bool_decide (drep_normalized_uuid (h_activity_uuid resp) (is_little_endian resp) = au)
                  && (h_sequence_number resp =? seq) then (t, Ok resp)
               else @next_rpc_response _ (rawl2_transport P) n au seq t
           | Ok None => @next_rpc_response _ (rawl2_transport P) n au seq t
           | Err e => (t, Err e)
           | Panic => (t, Panic)
           | OutOfFuel => (t, OutOfFuel)
           end
       | (t, Err e) => (t, Err e)
       | (t, Panic) => (t, Panic)
       | (t, OutOfFuel) => (t, OutOfFuel)
       end).

(** [t] after one capture. *)
Definition captured (l : list (list Z)) (t : RawL2Transport Wire) : RawL2Transport Wire :=
  mkRawL2 (with_sock {| w_rx := l; w_tx := w_tx (sock (raw t)) |} (raw t)) (ccontrol_src t).

Lemma await_step P au seq k n t x l :
  w_rx (sock (raw t)) = x :: l ->
  await P au seq (S k) n t =
  match parse_udp_frame x (dst_ip (raw t)) (src_ip (raw t)) with
  | Ok None => await P au seq k n (captured l t)
  | Ok (Some (d, _)) =>
      match parse_rpc_response d with
      | Ok (Some resp) =>
          if bool_decide (drep_normalized_uuid (h_activity_uuid resp) (is_little_endian resp) = au)
             && (h_sequence_number resp =? seq) then Ok resp
          else snd (@next_rpc_response _ (rawl2_transport P) n au seq (captured l t))
      | Ok None => snd (@next_rpc_response _ (rawl2_transport P) n au seq (captured l t))
      | Err e => Err e
      | Panic => Panic
      | OutOfFuel => OutOfFuel
      end
  | Err e => Err e
  | Panic => Panic
  | OutOfFuel => OutOfFuel
  end.
Proof.
  intros Hr. destruct t as [u cs]. unfold await at 1, l2_recv_response at 1, l2_recv at 1. cbn [recv_from raw].
  cbn [sock_recv wire_socket]. cbn [raw] in Hr. rewrite Hr. cbn [with_sock dst_ip src_ip].
  unfold captured. cbn [raw ccontrol_src]. unfold with_sock.
  destruct (parse_udp_frame x (dst_ip u) (src_ip u)) as [[[d p]|]|e| |]; try done.
  cbn [bind fmap option_fmap option_map fst].
  destruct (parse_rpc_response d) as [[r|]|e| |]; try done. by destruct (_ && _).
Qed.

Lemma await_next P au seq n t : snd (@next_rpc_response _ (rawl2_transport P) (S n) au seq t) = await P au seq P n t.
Proof. reflexivity. Qed.

Lemma l2_await P au seq f d port h rest : forall l k n (t : RawL2Transport Wire),
  Forall (passed_over au seq (raw t)) l ->
  parse_udp_frame f (dst_ip (raw t)) (src_ip (raw t)) = Ok (Some (d, port)) ->
  parse_rpc_response d = Ok (Some h) -> ours au seq h ->
  w_rx (sock (raw t)) = l ++ f :: rest -> (length l < k)%nat -> (length l <= n)%nat -> (length l < P)%nat ->
  await P au seq k n t = Ok h.
Proof.
  induction l as [|x l IH]; intros k n t Hl Hf Hd [Ho1 Ho2] Hr Hk Hn HP;
    (destruct k as [|k]; [simpl in Hk; lia|]); rewrite (await_step _ _ _ _ _ _ _ _ Hr).
  - rewrite Hf, Hd, bool_decide_true, Ho2, Z.eqb_refl by done. done.
  - inversion Hl as [|? ? Hx Hl']; subst x0 l0. simpl in Hk, Hn, HP.
    assert (IH' : forall k n, (length l < k)%nat -> (length l <= n)%nat ->
              await P au seq k n (captured (l ++ f :: rest) t) = Ok h).
    { intros. apply IH; try done. lia. }
    destruct Hx as [->|(d' & port' & -> & Hsk)]; [apply IH'; lia|]. destruct n as [|n]; [lia|]. rewrite await_next.
    destruct Hsk as [->|(hx & -> & Hno)]; [apply IH'; lia|].
    destruct (_ && _) eqn:E; [|apply IH'; lia].
    destruct Hno. apply andb_prop in E as [E1 E2]. apply bool_decide_eq_true in E1. split; [done|lia].
Qed.

Definition tx_of (t : RawL2Transport Wire) : list (list Z) := w_tx (sock (raw t)).

Lemma recv_from_tx k : forall u : RawUdp Wire, w_tx (sock (fst (recv_from k u))) = w_tx (sock u).
Proof.
  induction k as [|k IH]; intros u; cbn [recv_from]; [done|]. cbn [sock_recv wire_socket].
  destruct (w_rx (sock u)) as [|f l]; [done|].
  destruct (parse_udp_frame f _ _) as [[hit|]|e| |]; try done. by rewrite IH.
Qed.

Lemma next_rpc_tx P au seq n : forall t,
  tx_of (fst (@next_rpc_response _ (rawl2_transport P) n au seq t)) = tx_of t.
Proof.
  induction n as [|n IH]; intros t; [done|]. cbn [next_rpc_response]. cbn [recv_response rawl2_transport].
  assert (Hr : tx_of (fst (l2_recv_response P t)) = tx_of t).
  { unfold l2_recv_response, l2_recv, tx_of. pose proof (recv_from_tx P (raw t)) as H. by destruct (recv_from P (raw t)). }
  destruct (l2_recv_response P t) as [t' o]. cbn [fst] in Hr. destruct o as [[d|]|e| |]; try done.
  destruct (parse_rpc_response d) as [[r|]|e| |]; try done; [|by rewrite IH].
  destruct (_ && _); [done|by rewrite IH].
Qed.

(** What leaves a socket: one frame, which the peer's filter reads as the
    payload, from our port to the port meant. *)
Lemma send_to_wire (u : RawUdp Wire) p dport :
  bytes_ok p -> len p <= 65507 -> u16_ok dport ->
  length (src_mac u) = 6%nat -> length (dst_mac u) = 6%nat -> length (src_ip u) = 4%nat -> length (dst_ip u) = 4%nat ->
  bytes_ok (src_ip u) -> bytes_ok (dst_ip u) -> u16_ok (local_port u) -> u16_ok (ip_id u) ->
  exists frame,
    send_to p dport u
    = (mkRawUdp {| w_rx := w_rx (sock u); w_tx := w_tx (sock u) ++ [frame] |} (src_mac u) (dst_mac u) (src_ip u)
         (dst_ip u) (local_port u) (wrap_add16 (ip_id u) 1), Ok tt) /\
    parse_udp_frame frame (src_ip u) (dst_ip u) = Ok (Some (p, local_port u)) /\ rd_be16 frame 36 = Ok dport.
Proof.
  intros Bq Lq Hport Hsm Hdm Hs Hd Bs Bd Hlp Hid.
  destruct (build_udp_frame_eq (src_mac u) (dst_mac u) (src_ip u) (dst_ip u) (local_port u) dport (ip_id u) p
    Hs Hd Bs Bd Bq Hlp Hport Hid Lq) as (ci & cu & Hci & Hcu & _ & Hb & _).
  set (frame := dst_mac u ++ _) in Hb. exists frame. split_and!.
  - unfold send_to, send_to_from. cbn [src_mac dst_mac src_ip dst_ip with_ip_id sock local_port]. rewrite Hb. reflexivity.
  - pose proof (parse_udp_frame_eq (dst_mac u ++ src_mac u) [] (28 + len p) (ip_id u) ci cu (src_ip u) (dst_ip u)
      (local_port u) dport p [] (src_ip u) (dst_ip u)) as Hq.
    rewrite !bool_decide_true, app_nil_r in Hq by done. unfold frame. rewrite <- app_assoc in Hq. apply Hq; try done.
    rewrite length_app, Hsm, Hdm. done.
  - set (pre := dst_mac u ++ src_mac u ++ [0x08; 0x00] ++ ip_header (28 + len p) (ip_id u) ci (src_ip u) (dst_ip u)).
    assert (Hpre : len pre = 34).
    { unfold pre. rewrite !length_app, !Nat2Z.inj_add, len_ip, Hsm, Hdm by done. reflexivity. }
    assert (Hfr : frame = pre ++ udp_datagram (local_port u) dport (8 + len p) cu p)
      by (unfold frame, pre; by rewrite <- !app_assoc).
    rewrite Hfr. eapply (rd_be16_skip _ _ _ 2); [lia|lia|].
    unfold udp_datagram, be16_bytes. cbn [app]. lit_read.
Qed.

(** Frames that are not for us are passed over. *)
Lemma recv_from_skips f hit rest l : forall k (u : RawUdp Wire),
  Forall (fun x => parse_udp_frame x (dst_ip u) (src_ip u) = Ok None) l ->
  parse_udp_frame f (dst_ip u) (src_ip u) = Ok (Some hit) ->
  w_rx (sock u) = l ++ f :: rest -> (length l < k)%nat -> snd (recv_from k u) = Ok (Some hit).
Proof.
  induction l as [|x l IH]; intros k u Hl Hf Hr Hk; (destruct k as [|k]; [cbn in Hk; lia|]);
    cbn [recv_from sock_recv wire_socket]; rewrite Hr; cbn [app]; cbn [with_sock dst_ip src_ip].
  - by rewrite Hf.
  - apply Forall_cons in Hl as [-> Hl]. apply IH; try done. cbn in Hk. lia.
Qed.


