(* ===== verification/RawSocket.v ===== *)
(** * The capture socket and the interface's addresses ([src/src/pcap.rs])

    [RawSocket]: opening a capture with its filter, sending, and the receive
    that polls until its deadline; the MAC lookup of an interface, and its
    source address toward a target.  libpcap's capture is a class of the calls
    made on it; what opening one, the MAC lookup and libpcap's device list give
    are arguments. *)

From S2P Require Import Prelude Fmt Dcp RawUdp.

#[local] Open Scope string_scope.
#[local] Open Scope list_scope.
#[local] Open Scope Z_scope.

(** ** The socket *)

(** What [next_packet] gave. *)
Inductive NextPacket := Packet (d : list Z) | TimeoutExpired | PcapError (e : string).

(** An activated capture, with [Instant::now] in milliseconds. *)
Class Capture (C : Type) := {
  sendpacket : list Z -> C -> C * option string;
  next_packet : C -> C * NextPacket;
  instant_now : C -> C * Z;
}.

(** What [from_device], the activation and the filter give. *)
Record PcapOpen (C : Type) := mkOpen {
  po_device : option string;
  po_activate : C + string;
  po_filter : string -> option string;
}.
Arguments mkOpen {C}.
Arguments po_device {C}.
Arguments po_activate {C}.
Arguments po_filter {C}.

Definition raw_socket_open {C} (o : PcapOpen C) (iface : string) (ethertype : option Z) : outcome C :=
  match po_device o with
  | Some e => Err ("pcap open of " +:+ debug_str iface +:+ " failed: " +:+ e)
  | None =>
      match po_activate o with
      | inr e => Err ("pcap activate on " +:+ debug_str iface +:+ " failed: " +:+ e)
      | inl cap =>
          match ethertype with
          | None => Ok cap
          | Some et =>
              match po_filter o (bpf_filter et) with
              | Some e => Err ("BPF filter failed on " +:+ debug_str iface +:+ ": " +:+ e)
              | None => Ok cap
              end
          end
      end
  end.

Section Socket.
Context {C : Type} `{Capture C}.

Definition raw_send (frame : list Z) (c : C) : C * outcome unit :=
  let '(c, e) := sendpacket frame c in
  (c, match e with None => Ok tt | Some e => Err ("pcap sendpacket failed: " +:+ e) end).

Fixpoint recv_loop (fuel : nat) (deadline : Z) (c : C) : C * outcome (option (list Z)) :=
  match fuel with
  | O => (c, OutOfFuel)
  | S fuel =>
      match next_packet c with
      | (c, Packet d) => (c, Ok (Some d))
      | (c, TimeoutExpired) =>
          let '(c, now) := instant_now c in
          if deadline <=? now then (c, Ok None) else recv_loop fuel deadline c
      | (c, PcapError e) => (c, Err ("pcap next_packet failed: " +:+ e))
      end
  end.

(** [timeout] in milliseconds. *)
Definition raw_recv (fuel : nat) (timeout : Z) (c : C) : C * outcome (option (list Z)) :=
  let '(c, now) := instant_now c in recv_loop fuel (now + timeout) c.

(** The socket as the receive loops see it ([PacketSource]), each receive with
    the same timeout. *)
Definition raw_packet_socket (fuel : nat) (timeout : Z) : PacketSocket C :=
  {| sock_send := raw_send; sock_recv := raw_recv fuel timeout |}.
End Socket.

(** ** The interface *)

(** [mac_address_by_name] gives an address, nothing, or an error. *)
Fixpoint mac_of_names (lookup : string -> option (list Z) + string) (names : list string) (last_err : option string)
    : (list Z) + option string :=
  match names with
  | [] => inr last_err
  | n :: names =>
      match lookup n with
      | inl (Some mac) => inl mac
      | inl None => mac_of_names lookup names last_err
      | inr e => mac_of_names lookup names (Some e)
      end
  end.

Definition get_mac (lookup : string -> option (list Z) + string) (iface : string) : outcome (list Z) :=
  match mac_of_names lookup (mac_lookup_names iface) None with
  | inl mac => Ok mac
  | inr (Some e) => Err ("failed to get MAC address for " +:+ debug_str iface +:+ ": " +:+ e)
  | inr None => Err ("no MAC address found for interface " +:+ debug_str iface)
  end.

(** libpcap's device list: each name with its addresses. *)
Definition interface_addresses (devices : list (string * list Address) + string) (iface : string) : outcome (list Address) :=
  match devices with
  | inr e => Err ("pcap device list failed: " +:+ e)
  | inl l =>
      ok_or (snd <$> List.find (fun d => String.eqb (fst d) iface) l)
        ("interface " +:+ debug_str iface +:+ " not found by pcap")
  end.

Definition get_ipv4_toward (devices : list (string * list Address) + string) (iface : string) (dst : list Z)
    : outcome SourceAddress :=
  let? addresses := interface_addresses devices iface in
  let? chosen := pick_source_ipv4 addresses dst in
  ok_or chosen ("no IPv4 address on interface " +:+ debug_str iface).

(** ** A receive returns *)

Section Deadline.
Context {C : Type} `{Capture C} (clock : C -> Z).

(** Polling and reading the clock never turn it back, and a poll that found
    nothing waited libpcap's read timeout of a millisecond. *)
Hypothesis clock_now : forall c, snd (instant_now c) = clock c /\ clock c <= clock (fst (instant_now c)).
Hypothesis clock_next : forall c, clock c <= clock (fst (next_packet c)).
Hypothesis clock_poll : forall c, snd (next_packet c) = TimeoutExpired -> clock c + 1 <= clock (fst (next_packet c)).

(** The capture after [n] polls that found nothing. *)
Definition polled (c : C) : C := fst (instant_now (fst (next_packet c))).
Definition idle_for (c : C) (n : nat) : Prop :=
  forall k, (k < n)%nat -> snd (next_packet (Nat.iter k polled c)) = TimeoutExpired.

Lemma idle_for_step c n : snd (next_packet c) = TimeoutExpired -> idle_for (polled c) n -> idle_for c (S n).
Proof.
  intros Hc Hn [|k] Hk; [exact Hc|]. rewrite Nat.iter_succ_r. apply Hn. lia.
Qed.

(** How a receive that started at [c] ended, after [n] polls without a frame. *)
Definition ended (deadline : Z) (c : C) (n : nat) (r : C * outcome (option (list Z))) : Prop :=
  let last := Nat.iter n polled c in
  match snd r with
  | Ok (Some d) => snd (next_packet last) = Packet d /\ fst r = fst (next_packet last)
  | Ok None => exists m, n = S m /\ deadline <= clock (fst (next_packet (Nat.iter m polled c))) /\ fst r = last
  | Err e => exists t, snd (next_packet last) = PcapError t /\ e = "pcap next_packet failed: " +:+ t
  | Panic | OutOfFuel => False
  end.

Lemma recv_loop_ends deadline : forall fuel c, deadline - clock c < Z.of_nat fuel -> (0 < fuel)%nat ->
  exists n, (n <= fuel)%nat /\ idle_for c n /\ ended deadline c n (recv_loop fuel deadline c).
Proof using clock_now clock_next clock_poll.
  induction fuel as [|fuel IH]; intros c Hf Hp; [lia|]. cbn [recv_loop].
  pose proof (clock_poll c) as Hw. destruct (next_packet c) as [c1 [d| |e]] eqn:En.
  - exists 0%nat. split; [lia|]. split; [by intros k Hk; lia|]. cbn. by rewrite En.
  - cbn [fst snd] in Hw. specialize (Hw eq_refl). pose proof (clock_now c1) as [Hn Hm].
    assert (Hpc : polled c = fst (instant_now c1)) by (unfold polled; by rewrite En).
    assert (Ht : snd (next_packet c) = TimeoutExpired) by (by rewrite En).
    destruct (instant_now c1) as [c2 now] eqn:E1. cbn [fst snd] in *. subst now.
    destruct (Z.leb_spec deadline (clock c1)).
    + exists 1%nat. split; [lia|]. split; [apply idle_for_step; [done|by intros k Hk; lia]|]. cbn. exists 0%nat. cbn.
      rewrite En. by rewrite <- Hpc.
    + destruct (IH c2) as (n & Hl & Hi & He); [lia|lia|]. rewrite <- Hpc in Hi. exists (S n). split; [lia|].
      split; [by apply idle_for_step|]. unfold ended in *. rewrite !Nat.iter_succ_r, Hpc.
      destruct (snd (recv_loop fuel deadline c2)) as [[d|]|e| |]; try done.
      destruct He as (m & -> & He & Hfst). exists (S m). split; [done|]. rewrite Nat.iter_succ_r, Hpc. split; [done|].
      by rewrite Hfst.
  - exists 0%nat. split; [lia|]. split; [by intros k Hk; lia|]. cbn. rewrite En. by eexists.
Qed.

(** A receive comes back.  When each empty poll waits its millisecond, a
    receive with a timeout of [t] milliseconds ends within [t + 1] polls; the
    polls before its last found nothing, so the frame it returns is the first
    one captured, a libpcap error is reported at once, and "nothing" is only
    said once the deadline is reached. *)
Theorem raw_recv_returns timeout fuel c : timeout < Z.of_nat fuel ->  (0 < fuel)%nat ->
  let start := fst (instant_now c) in
  exists n, (n <= fuel)%nat /\ idle_for start n /\ ended (clock c + timeout) start n (raw_recv fuel timeout c).
Proof using clock_now clock_next clock_poll.
  intros Ht Hp start. unfold raw_recv, start. pose proof (clock_now c) as [Hn Hm].
  destruct (instant_now c) as [c0 now]. cbn [fst snd] in *. subst now. apply recv_loop_ends; lia.
Qed.
End Deadline.

(** A capture that is silent until [up], then hands over its frames; reading
    the clock takes no time. *)
Record DemoCapture := mkDemo { d_time : Z; d_up : Z; d_frames : list (list Z) }.

#[local] Instance demo_capture : Capture DemoCapture := {|
  sendpacket _ c := (c, None);
  next_packet c :=
    match d_frames c with
    | f :: l => if d_up c <=? d_time c then (mkDemo (d_time c) (d_up c) l, Packet f)
                else (mkDemo (d_time c + 1) (d_up c) (d_frames c), TimeoutExpired)
    | [] => (mkDemo (d_time c + 1) (d_up c) [], TimeoutExpired)
    end;
  instant_now c := (c, d_time c);
|}.

(** A frame behind three empty polls, then nothing for the rest. *)
Example raw_recv_returns_witness :
  (exists n, (n <= 6)%nat /\ ended d_time 5 (mkDemo 0 3 [[1; 2]]) n (raw_recv 6 5 (mkDemo 0 3 [[1; 2]]))) /\
  snd (raw_recv 6 5 (mkDemo 0 3 [[1; 2]])) = Ok (Some [1; 2]) /\ snd (raw_recv 6 5 (mkDemo 0 9 [[1; 2]])) = Ok None.
Proof.
  assert (H1 : forall c, snd (instant_now c) = d_time c /\ d_time c <= d_time (fst (instant_now c))) by (intros c; cbn; lia).
  assert (H2 : forall c, d_time c <= d_time (fst (next_packet c))).
  { intros [t u [|f l]]; cbn; [lia|]. destruct (u <=? t); cbn; lia. }
  assert (H3 : forall c, snd (next_packet c) = TimeoutExpired -> d_time c + 1 <= d_time (fst (next_packet c))).
  { intros [t u [|f l]]; cbn; [lia|]. destruct (u <=? t); cbn; [done|lia]. }
  split; [|split; vm_compute; reflexivity].
  destruct (raw_recv_returns d_time H1 H2 H3 5 6 (mkDemo 0 3 [[1; 2]]) ltac:(lia) ltac:(lia)) as (n & Hn & _ & He).
  exists n. split; [exact Hn|exact He].
Defined.

(** ** Lookups *)

(** The MAC is that of the first of the interface's names that has one; without
    one, an error that was met is reported. *)
Lemma mac_of_names_first lookup names : forall last,
  match mac_of_names lookup names last with
  | inl mac => exists before n after, names = before ++ n :: after /\ lookup n = inl (Some mac) /\
                 forall x m, x ∈ before -> lookup x <> inl (Some m)
  | inr e => (forall x m, x ∈ names -> lookup x <> inl (Some m)) /\
             (e = None -> last = None /\ forall x, x ∈ names -> lookup x = inl None)
  end.
Proof.
  induction names as [|n names IH]; intros last; cbn [mac_of_names]; [split; [set_solver|set_solver]|].
  destruct (lookup n) as [[mac|]|e] eqn:E.
  - exists [], n, names. split_and!; [done|done|set_solver].
  - specialize (IH last). destruct (mac_of_names lookup names last) as [mac|r].
    + destruct IH as (b & x & a & -> & Hx & Hb). exists (n :: b), x, a. split_and!; [done|done|].
      intros y m [->|Hy]%elem_of_cons; [by rewrite E|by apply Hb].
    + destruct IH as [H1 H2]. split.
      * intros x m [->|Hx]%elem_of_cons; [by rewrite E|by apply H1].
      * intros Hr. destruct (H2 Hr) as [Hl Hn]. split; [done|]. intros x [->|Hx]%elem_of_cons; [done|by apply Hn].
  - specialize (IH (Some e)). destruct (mac_of_names lookup names (Some e)) as [mac|r].
    + destruct IH as (b & x & a & -> & Hx & Hb). exists (n :: b), x, a. split_and!; [done|done|].
      intros y m [->|Hy]%elem_of_cons; [by rewrite E|by apply Hb].
    + destruct IH as [H1 H2]. split.
      * intros x m [->|Hx]%elem_of_cons; [by rewrite E|by apply H1].
      * intros Hr. destruct (H2 Hr) as [Hl _]. done.
Qed.
