(* ===== verification/Vendors.v ===== *)
(** * Vendor names ([src/src/vendors.rs])

    The table is cut into pieces of 146 lines; [PROFINET_VENDOR_MAP] is their
    concatenation.  A name is its UTF-8 bytes. *)

From S2P Require Import Prelude Fmt.

#[local] Open Scope string_scope.
#[local] Open Scope list_scope.
#[local] Open Scope Z_scope.

(** The no-break space some names hold, in UTF-8. *)
Definition NBSP : string := String (chr 194) (String (chr 160) EmptyString).

Definition vendors_1 : list (Z * string) := [
  (1, "Acromag");
  (2, "Rockwell Automation");
  (3, "Ametek");
  (5, "ABB");
  (6, "Beckman");
  (7, "Bell Microsensor");
  (8, "Bourns");
  (9, "Bristol Babcock");
  (10, "Brooks Instrument");
  (11, "Chessell");
  (12, "Combustion Engineering");
  (13, "Daniel Industries");
  (14, "Delta");
  (15, "Dieterich Standard");
  (16, "Dohrmann");
  (17, "Endress+Hauser");
  (18, "ABB");
  (19, "Fisher Controls");
  (20, "Foxboro");
  (21, "Fuji");
  (22, "ABB");
  (23, "Honeywell");
  (24, "ITT Barton");
  (25, "Thermo Measure Tech");
  (26, "ABB");
  (27, "Leeds & Northrup");
  (28, "Leslie");
  (29, "MG CO., LTD.");
  (30, "Measurex");
  (31, "Micro Motion");
  (32, "Moore Industries");
  (33, "PRIME Measurement Products");
  (34, "Ohkura Electric");
  (35, "Paine");
  (36, "Rochester Instrument Systems");
  (37, "Ronan");
  (38, "Rosemount Inc.");
  (39, "Peek Measurement");
  (40, "Actaris Neptune");
  (41, "Sensall");
  (42, "SIEMENS AG");
  (43, "Weed");
  (44, "Toshiba Corp.");
  (45, "Transmation");
  (46, "Rosemount Analytic");
  (47, "Metso Automation");
  (48, "Flowserve Corporation");
  (49, "Varec");
  (50, "Viatran");
  (51, "Delta / Weed");
  (52, "Westinghouse");
  (53, "Xomox");
  (54, "Yamatake");
  (55, "Yokogawa");
  (56, "Nuovo Pignone");
  (57, "Promac");
  (58, "Exac Corporation");
  (59, "Mobrey Measurement");
  (60, "Arcom Control Systems");
  (61, "Princo");
  (62, "SMAR Meß- und Regeltechnik GmbH");
  (63, "Foxboro Eckardt");
  (64, "Measurement Technology");
  (65, "Applied System Technologies");
  (66, "SAMSON AG");
  (67, "Sparling Instruments");
  (68, "Fireye");
  (69, "KROHNE");
  (70, "Betz");
  (71, "Druck");
  (72, "SOR");
  (73, "Elcon Instruments");
  (74, "EMCO Controls A/S");
  (75, "Termiflex Corporation");
  (76, "VAF Instruments");
  (77, "Westlock Controls Co.");
  (78, "Drexelbrook");
  (79, "Saab Tank Control");
  (80, "K-TEK");
  (81, "SENSIDYNE, INC");
  (82, "Draeger");
  (83, "Raytek");
  (84, "Siemens Milltronics PI");
  (85, "BTG Positioning Systems");
  (86, "Magnetrol");
  (87, "Metso Automation");
  (88, "Siemens Milltronics PI");
  (89, "HELIOS");
  (90, "Anderson Instrument Company");
  (91, "INOR AB");
  (92, "ROBERTSHAW");
  (93, "Pepperl+Fuchs");
  (94, "ACCUTECH");
  (95, "Flow Measurement");
  (96, "Baumer A/S");
  (97, "Knick");
  (98, "VEGA Grieshaber KG");
  (99, "MTS Systems Corporation");
  (100, "Oval");
  (101, "Masoneilan-Dresser");
  (102, "BESTA");
  (103, "Ohmart");
  (104, "Harold Beck and Sons");
  (105, "rittmeyer instrumentation");
  (106, "Rössel Messtechnik");
  (107, "Wika");
  (108, "Bopp & Reuther Messtechnik");
  (109, "PR Electronics");
  (110, "Jordan Controls");
  (111, "Valcom s.r.l.");
  (112, "US ELECTRIC MOTORS");
  (113, "Apparatebau Hundsbach");
  (114, "Dynisco Instruments LLC");
  (115, "Spriano");
  (116, "Direct Measurement");
  (117, "Klay Instruments b.v.");
  (118, "CiDRA Corporate Services");
  (119, "MMG AM DTR");
  (120, "buerkert fluid control systems");
  (121, "AALIANT Process Mgt.");
  (122, "PONDUS INSTRUMENTS");
  (123, "ZAP S.A. Ostrow Wielkopolski");
  (124, "GLI");
  (125, "Fisher-Rosemount Performance Technologies");
  (126, "Paper Machine Components");
  (127, "LABOM Mess- und Regeltechnik GmbH");
  (128, "Danfoss Drives A/S");
  (129, "Turbo");
  (130, "TOKYO KEISO");
  (131, "SMC Corp.");
  (132, "Status Instruments");
  (133, "Huakong");
  (134, "Duon System");
  (135, "Vortek Instruments, LLC");
  (136, "AG Crosby");
  (137, "Action Instruments");
  (138, "Keystone Controls");
  (139, "Thermo Electric Co.");
  (140, "ISE-Magtech");
  (141, "Rueger");
  (142, "Mettler Toledo GmbH");
  (143, "Det-Tronics");
  (144, "Thermo Measure Tech");
  (145, "DeZURIK");
  (146, "Phase Dynamics");
  (147, "WELLTECH SHANGHAI")].

Definition vendors_2 : list (Z * string) := [
  (148, "ENRAF");
  (149, "4tech ASA");
  (150, "Brandt Instruments");
  (151, "Nivelco");
  (152, "Camille Bauer");
  (153, "Metran");
  (154, "Milton Roy Co.");
  (155, "PMV");
  (156, "Turck (Tianjin) Sensor Co., Ltd.");
  (157, "Panametrics");
  (158, "Stahl");
  (159, "Analytical Technology, Inc");
  (160, "FINT");
  (161, "Berthold Technologies GmbH & Co.KG");
  (162, "InterCorr");
  (163, "China BRICONTE Co Ltd");
  (164, "Electron Machine");
  (165, "Sierra Instruments");
  (166, "Fluid Components Int");
  (167, "Solid AT");
  (168, "Meriam Instrument");
  (169, "Invensys");
  (170, "S-Products");
  (171, "Tyco Valves & Controls");
  (172, "Micro Matic Instrument A/S");
  (173, "J-Tec Associates");
  (174, "TRACERCO");
  (175, "AGAR");
  (176, "Phoenix Contact GmbH & Co. KG");
  (177, "Andean Instruments");
  (178, "Amer. Level Instr.");
  (179, "Hawk");
  (180, "YTC");
  (181, "Pyromation Inc.");
  (182, "Satron Instruments");
  (183, "BIFFI");
  (184, "SAIC");
  (185, "BD Sensors");
  (186, "Andean Instruments");
  (187, "Kemotron");
  (188, "APLISENS SP. Z O.O.");
  (189, "Badger Meter");
  (190, "HIMA");
  (191, "GP:50");
  (192, "Kongsberg Maritime");
  (193, "ASA S.p.A.");
  (194, "Hengesbach");
  (195, "Lanlian Instruments");
  (197, "Kajaani Process Measurements");
  (198, "FAFNIR");
  (199, "SICK-MAIHAK");
  (200, "JSP Nova Paka");
  (201, "MESACON");
  (202, "Spirax Sarco Italy");
  (203, "L&J TECHNOLOGIES");
  (204, "Tecfluid S.A.");
  (205, "Sailsors Instruments");
  (206, "Roost");
  (207, "KOSO");
  (208, "MJK");
  (209, "GE Energy");
  (210, "BW Technologies");
  (211, "HEINRICHS Messtechnik");
  (212, "SIC");
  (213, "HACH LANGE");
  (214, "Exalon Instruments");
  (215, "FAURE HERMAN");
  (216, "STI S.r.l.");
  (217, "Manometr-Kharkiv");
  (218, "Dalian-Instruments");
  (219, "Spectrex");
  (220, "SIPAI Instruments");
  (221, "Advanced Flow");
  (222, "Rexa. Koso America");
  (223, "General Monitors, Inc.");
  (224, "Manufacturer Expansion");
  (234, "J. Schmalz GmbH");
  (256, "Rüeger");
  (257, "SICK AG");
  (258, "ASCO JOUCOMATIC GmbH & Co.");
  (259, "Bosch Rexroth AG");
  (260, "ESR Pollmeier");
  (261, "Kollmorgen");
  (262, "Lenze");
  (263, "Siemens AG");
  (264, "Mitsubishi Electric Europe B.V. Niederlassung Deutschland");
  (265, "Eaton Industries GmbH");
  (266, "SEW-EURODRIVE GmbH & Co.KG");
  (267, "STÖBER Antriebstrechnik GmbH + Co. KG");
  (268, "HMS Industrial Networks GmbH");
  (269, "Züllig");
  (270, "BARTEC GmbH");
  (271, "Parker Hannifin");
  (272, "Fraba B.V.");
  (273, "YASKAWA Europe GmbH");
  (274, "Baumüller Nürnberg GmbH");
  (275, "Anton Paar GmbH");
  (276, "Stegmann GmbH");
  (277, "Metronix GmbH");
  (278, "IEP GmbH");
  (279, "SOFTING");
  (280, "BEKA associates Ltd.");
  (281, "Elektro-Elektronik Pranjic GmbH");
  (282, "EUROTHERM-WATLOW");
  (283, "Dr. Bruno Lange GmbH & Co. KG");
  (284, "JH Group");
  (285, "WAGO GmbH & Co. KG");
  (286, "Hilscher Gesellschaft für Systemautomation mbH");
  (287, "Bosch Rexroth AG");
  (288, "Beckhoff Automation GmbH & Co. KG");
  (289, "Bihl+Wiedemann GmbH");
  (290, "Emhart Teknologies");
  (291, "Swan Analytical Instruments");
  (292, "Deutschmann Automation GmbH&Co.KG");
  (293, "Rotork Controls Ltd.");
  (294, "Leuze Lumiflex GmbH+Co.KG");
  (295, "Molex Incorporated");
  (296, "Berger Lahr");
  (297, "Schneider Electric");
  (298, "Baumer Motion Control");
  (299, "Werner Turck GmbH & Co. KG");
  (300, "G. Bachmann Electronic GmbH");
  (301, "HORIBA STEC, Co.,Ltd.");
  (302, "MS Ultraschall Technologie GmbH");
  (303, "Murrelektronik GmbH");
  (304, "Hirschmann Automation and Control GmbH");
  (305, "Drehmo GmbH");
  (306, "AGILiCOM");
  (307, "BERNARD CONTROLS S.A.");
  (308, "Weidmüller Interface GmbH & Co. KG");
  (309, "EUCHNER GmbH + Co.KG");
  (310, "ifm electronic");
  (311, "Cognex Corp.");
  (312, "Markator");
  (313, "Beaufort Cay Corporation");
  (314, "Baldor Motors & Drives");
  (315, "VitalSensors Technologies LLC");
  (316, "Optris GmbH & Co.KG");
  (317, "Hans Turck GmbH & Co.KG");
  (318, "SymCom, Inc.");
  (319, "AUMA Riester GmbH & Co.KG");
  (320, "CREVIS Co.,Ltd");
  (321, "SIPOS Aktorik");
  (322, "testo AG");
  (323, "ProMinent GmbH");
  (324, "Systemtechnik LEBER GmbH & Co.KG")].

Definition vendors_3 : list (Z * string) := [
  (325, "Smart Network Devices GmbH");
  (326, "KSB Aktiengesellschaft");
  (327, "Ing. Punzenberger COPA-DATA GmbH");
  (328, "Omron Europe BV");
  (329, "Real Time Automation");
  (330, "Grundfos");
  (331, "attoSensor GmbH");
  (332, "AquaSensors LLC");
  (333, "Festo");
  (334, "MESCO Engineering GmbH");
  (335, "TMG TE GmbH");
  (336, "ROPEX Industrie-Elektronik GmbH");
  (337, "vögtlin instruments ag");
  (338, "Leuze electronic GmbH + Co. KG");
  (339, "TR-Electronic GmbH");
  (340, "FOGALE Nanotech");
  (341, "Industrial Control Communications, Inc. (ICC)");
  (342, "Contrinex AG Industrial Electronics");
  (343, "DRS Power & Control Technologies, Inc.");
  (344, "AALBORG INSTRUMENTS");
  (345, "TWK-ELEKTRONIK GmbH");
  (346, "Intelligent Platforms, LLC.");
  (347, "Sensopart Industriesensorik GmbH");
  (348, "HYDAC ELECTRONIC GMBH");
  (349, "esd electronic system design gmbh");
  (350, "Baumer");
  (351, "Lenord, Bauer & Co.GmbH");
  (352, "Control Techniques Ltd.");
  (353, "Siebert Industrieelektronik GmbH");
  (354, "Knorr-Bremse AG");
  (355, "Pepperl+Fuchs Comtrol, Inc");
  (356, "IfTA GmbH");
  (357, "Sprecher + Schuh USA");
  (358, "GE Consumer & Industrial");
  (359, "Hitachi High-Technologies Corporation");
  (360, "ACS-Control-System GmbH");
  (361, "Höntzsch GmbH");
  (362, "Belden Deutschland GmbH");
  (363, "Anhui WNK Electronic Engineering Co.,Ltd.");
  (364, "Microcyber Inc.");
  (365, "Kunbus GmbH");
  (366, "Morgan Korea Ltd.");
  (367, "WEG");
  (368, "Matuschek");
  (369, "Graco Inc.");
  (370, "Banner Engineering Corp.");
  (371, "KEBA Industrial Automation GmbH");
  (372, "PHOENIX CONTACT Software GmbH");
  (373, "ProSoft Technology, Inc.");
  (374, "HMS Technology Center Ravensburg GmbH");
  (375, "KEB Automation KG");
  (376, "Kontron Modular Computers GmbH");
  (377, "Varian Inc.");
  (378, "Inficon AG");
  (379, "Minebea Intec GmbH");
  (380, "KEBA Industrial Automation Germany GmbH");
  (381, "Jacobs Automation");
  (382, "Dürr Systems AG");
  (383, "Cisco Systems, Inc.");
  (384, "ATI Industrial Automation");
  (386, "BEI SENSORS");
  (387, "miControl GmbH");
  (388, "Jokab Safety AB");
  (389, "Moog");
  (390, "optek-Danulat");
  (391, "sibotech Co.");
  (392, "AEG Power Solutions GmbH");
  (393, "NORD Electronic DRIVESYSTEMS GmbH");
  (394, "Leine & Linde AB");
  (395, "NDC Infrared Engineering Ltd");
  (396, "Renesas Electronics Europe GmbH");
  (397, "Wieland Electric GmbH");
  (398, "Cytiva");
  (399, "LappGroup");
  (400, "Toshiba Schneider Inverter Corporation");
  (401, "GEMUE Gebr. Mueller Apparatebau GmbH & Co. KG");
  (402, "Delta Motion");
  (403, "HARTING Electric GmbH & Co. KG");
  (404, "Harms + Wende GmbH & Co. KG");
  (405, "Accutron Controls International Inc.");
  (406, "Quiss GmbH");
  (407, "Lipowsky Industrie-Elektronik GmbH");
  (408, "Kübler Group, Fritz Kübler GmbH");
  (409, "GH Electrotermia S.A.");
  (410, "Dunkermotoren GmbH");
  (411, "KUKA Deutschland GmbH");
  (412, "Datalogic s.r.l.");
  (413, "Eaton Corporation");
  (414, "embeX GmbH");
  (415, "Yaskawa Electric - America");
  (416, "A&D Company, Limited");
  (417, "Apex Tool Group GmbH & Co.OHG");
  (418, "HOMAG AG");
  (419, "Microsonic GmbH");
  (420, "ZAP INTEC Sp. z.o.o.");
  (421, "Norgren GmbH");
  (422, "HMT Microelectronic AG");
  (423, "GE Digital Energy (Multilin)");
  (424, "PROGNOST Systems GmbH");
  (425, "SICK STEGMANN GmbH");
  (426, "centrotherm SiTec GmbH");
  (427, "IDENTEC SOLUTIONS Deutschland GmbH");
  (428, "brimos bv");
  (429, "Hottinger Brüel & Kjaer GmbH");
  (430, "Numatics Inc.");
  (431, "Infineon Technologies AG");
  (432, "FRONIUS International GmbH");
  (433, "Emerson Electric Co.,");
  (434, "DR.JOHANNES HEIDENHAIN GmbH");
  (435, "Hesmor GmbH");
  (436, "Coester Automação Ltda");
  (437, "Faiveley Transport Leipzig GmbH");
  (438, "Schildknecht AG");
  (439, "FANUC");
  (440, "APEX automation technologies GmbH");
  (441, "Analog Devices Inc");
  (442, "Vacon Plc");
  (443, "Sciemetric Instruments Inc.");
  (444, "profichip GmbH");
  (445, "LJU Automatisierungstechnik GmbH");
  (446, "PRIMES GmbH");
  (447, "Commercial Timesharing Inc.");
  (448, "VITRONIC Dr.-Ing. Stein Bildverarbeitungssysteme GmbH");
  (449, "WIEDEG Elektronik GmbH");
  (450, "Faiveley Transport Tours S.A.S.");
  (451, "Banner Engineering Group");
  (452, "Texas Instruments");
  (453, "AccuSentry, Inc");
  (454, "Advantech Co., Ltd");
  (455, "ECKELMANN AG");
  (456, "Protagon Process Technologies GmbH");
  (457, "Beijing ZhongRuiZhiCheng technology Co., LTD.");
  (458, "Seiko Epson Corp.");
  (459, "Delphin Technology AG");
  (460, "IAI Corporation");
  (461, "NTI AG");
  (462, "Burster Praezisionsmesstechnik GmbH & Co. KG");
  (463, "microSYST Systemelectronic GmbH");
  (464, "Phytron Elektronik GmbH");
  (465, "Trebing & Himstedt Prozessautomation GmbH & Co. KG");
  (466, "Welding Technology Corp.");
  (467, "wenglor sensoric gmbh");
  (468, "Berghof Automationstechnik GmbH");
  (469, "SWAC Automation Consult GmbH");
  (470, "Spohn & Burkhardt GmbH & Co.");
  (471, "Brainchild Electronic.Co.Ltd")].

Definition vendors_4 : list (Z * string) := [
  (472, "Meggitt Sensing Systems");
  (473, "MC Power Systems");
  (475, "Perceptron GmbH");
  (476, "ISP_System");
  (477, "Bently Nevada");
  (478, "Analog Devices Inc.");
  (479, "Sanyo Denki Co., Ltd.");
  (480, "KUNBUS GmbH");
  (481, "IMS Messsysteme GmbH");
  (482, "KAESER KOMPRESSOREN SE");
  (483, "Alexander Binzel Schweisstechnik GmbH & Co. KG");
  (484, "SKS Welding Systems GmbH");
  (485, "Carl Zeiss Automated Inspection GmbH & Co. KG");
  (486, "EWM AG");
  (487, "PMA Prozeß- und Maschinen-Automation GmbH");
  (488, "SUETRON electronic GmbH");
  (489, "TOX® PRESSOTECHNIK SE & CO. KG");
  (490, "NIVELCO Process Control");
  (491, "Fernsteuergeraete Kurt Olesch GmbH");
  (492, "Grid Connect, Inc.");
  (493, "Haller + Erne GmbH");
  (494, "SCA Schucker GmbH & Co.");
  (495, "Promess Incorporated");
  (496, "HCS Hydraulic Control Systems GmbH");
  (497, "Procon Electronics Pty Ltd");
  (498, "VAT Vakuumventile AG");
  (499, "SERRA soldadura, S.A.");
  (500, "BST eltromat International GmbH");
  (501, "XIMEA GmbH");
  (502, "Rüthi Electronic AG");
  (503, "Brosa AG");
  (504, "MSF-Vathauer Antriebstechnik GmbH & Co KG");
  (505, "GEFRAN SPA");
  (506, "GE Energy Measurement and Control Solutions");
  (507, "Pentronic AB");
  (508, "Selectron Systems AG");
  (509, "KEYENCE CORPORATION");
  (510, "ISRA VISION AG");
  (511, "Universal Flow Monitors, Inc.");
  (512, "JVL Industri Elektronik A/S");
  (513, "Temposonics GmbH & Co. KG");
  (514, "Elco Industry Automation AG");
  (515, "Jenny Science AG");
  (516, "MESA Systemtechnik GmbH");
  (517, "Cloos Schweißtechnik GmbH");
  (518, "Sontheim Industrie Elektronik GmbH");
  (519, "E. Dold & Söhne KG");
  (520, "SOLVIX SA");
  (521, "Fertron Controle e Automação Industrial Ltda");
  (522, "FMS Force Measuring Systems AG");
  (523, "Bonfiglioli Vectron GmbH");
  (524, "ECOLAB ENGINEERING GMBH");
  (525, "Heraeus Electro-Nite");
  (526, "Meusburger Deutschland GmbH");
  (527, "Animatics Corporation");
  (528, "Univer S.p.A");
  (529, "Base2 International Pty Ltd");
  (530, "Emerson Automaton Solutions");
  (531, "Yaskawa Electric Corporation");
  (533, "Altus S.A.");
  (534, "ARO WELDING TECHNOLOGIES SAS");
  (535, "TRUMPF Werkzeugmaschinen GmbH");
  (536, "GF Welding S.p.A");
  (537, "NewElec Pretoria (Pty) Ltd");
  (538, "Hakko Electronics Co.,Ltd.");
  (539, "Helmholz GmbH & Co. KG");
  (540, "Mitsubishi Electric Corporation");
  (541, "Maxcess - Fife Tidland MAGPOWR");
  (542, "HBC-radiomatic GmbH");
  (543, "MKS Instruments Deutschland GmbH");
  (544, "ESTUN DIGITAL TECHNOLOGY CO.,LTD");
  (545, "di-soric GmbH & Co. KG");
  (546, "ANNAX Anzeigesysteme GmbH");
  (547, "esitron-electronic GmbH");
  (548, "Stäubli Tec-Systems GmbH Connectors");
  (549, "Office FA. com Co., Ltd.");
  (550, "Knorr-Bremse Powertech GmbH");
  (551, "YangZhou ABD Ltd. Co.");
  (552, "Televic Rail NV");
  (553, "Moxa Inc.");
  (554, "ROBOX S.P.A.");
  (555, "VIPA GmbH");
  (556, "GasSecure AS");
  (557, "Grießbach GmbH");
  (558, "Freescale Semiconductor, Inc.");
  (559, "Servotronix Motion Control Ltd.");
  (560, "ICP DAS");
  (561, "ITOH DENKI CO.,LTD.");
  (562, "ICP DAS Co., Ltd.");
  (563, "Liebherr-Transportation Systems GmbH & Co KG");
  (564, "Qlar Europe GmbH");
  (565, "RENESAS Design Bingen GmbH");
  (566, "Sciyon Automation Group Co., Ltd");
  (567, "Control Applications ltd.");
  (568, "Ing.-Büro Maurer");
  (569, "Lika Electronic");
  (570, "EHR GmbH");
  (571, "Center Communication Systems GmbH");
  (572, "A-M-Systeme GmbH");
  (573, "Leybold GmbH");
  (574, "Shenzhen Maxonic Automation Control Co., Ltd.");
  (575, "Kistler Instrumente GmbH");
  (576, "IQ2 Development GmbH");
  (577, "SysTec GmbH");
  (578, "hema electronic GmbH");
  (579, "Shanghai Zengyuan Electric Power Equipment Co.,Ltd");
  (580, "VSD Elektrotechnik GmbH");
  (581, "AL-S Technology");
  (582, "Power-Genex Ltd.");
  (583, "ZHONGHUAN TIG CO.,LTD.");
  (584, "Zimmer GmbH Technische Werkstaetten");
  (585, "messMa GmbH");
  (586, "Johannes Huebner GmbH");
  (587, "K. A. Schmersal GmbH & Co. KG");
  (588, "Lessmüller_lasertechnik GmbH");
  (589, "Bizerba GmbH & Co. KG");
  (590, "Atop technologies, Inc.");
  (591, "Elster GmbH");
  (592, "iC-Haus GmbH");
  (593, "Sigrist Photometer AG");
  (594, "adaptronic Prüftechnik GmbH");
  (595, "AuCom Electronics Ltd");
  (596, "TRUMPF Laser GmbH + Co. KG");
  (597, "Nordex Energy GmbH");
  (598, "ATON GmbH");
  (599, "Omron Microscan Systems");
  (600, "Control Concepts, Inc.");
  (601, "OSAKA VACUUM, LTD.");
  (602, "Jenaer Antriebstechnik GmbH");
  (603, "Enertork Ltd.");
  (604, "TRsystems GmbH");
  (605, "JBG-Elektronik GmbH");
  (606, "BizLink Special Cables Germany GmbH (BSCG)");
  (607, "Scheurich GmbH");
  (608, "Denso Wave Incorporated");
  (609, "Novanta IMS");
  (610, "Interroll Software&Electronics GmbH");
  (611, "Xylem Water Solutions Herford GmbH");
  (612, "OMRON Corporation");
  (613, "DILAX Intelcom GmbH");
  (614, "WIBOND Informationssysteme GmbH");
  (615, "VIVAVIS AG");
  (616, "NextSense GmbH");
  (617, "Hitachi Industrial Equipment Systems");
  (618, "Gardner Denver Deutschland GmbH");
  (619, "ABB S.p.A")].

Definition vendors_5 : list (Z * string) := [
  (620, "Pago AG");
  (621, "Sensirion AG");
  (622, "Syrinx industrial electronics");
  (624, "ConverterTec Deutschland GmbH");
  (625, "DMG MORI B.U.G. CO., LTD.");
  (626, "HERCO Wassertechnik GmbH");
  (627, "Bühler AG");
  (628, "Wissenschaftlich-Technische Werkstätten GmbH");
  (629, "GE Energy Power Conversion");
  (630, "Beta LaserMike Inc.");
  (631, "Staeubli");
  (632, "Analytica GmbH");
  (633, "ISH Ingenieursozietät GmbH");
  (634, "3E s.r.l.");
  (635, "Wachendorff Automation GmbH & Co KG");
  (639, "AVISTUD");
  (640, "GÜHRING Maschinenbau GmbH");
  (641, "LAUMAS ELETTRONICA SRL");
  (642, "Inficon GmbH");
  (643, "Friedrich Lütze GmbH");
  (644, "Meusburger Deutschland GmbH");
  (645, "Regada s.r.o.H");
  (646, "TEConcept GmbH");
  (647, "Siempelkamp Maschinen- und Anlagenbau  & Co KG");
  (648, "Optex FA Co., LTD.");
  (649, "ASA-RT s.r.l.");
  (650, "WETRON electronic components GmbH");
  (651, "ORing Industrial Networking Corp");
  (652, "port GmbH");
  (653, "Scansonic MI GmbH");
  (654, "Metal Work SpA");
  (655, "Applied Robotics");
  (656, "HARDY PROCESS SOLUTIONS");
  (657, "Koralewski Industrie-Elektronik oHG");
  (658, "SIMTEC Elektronik GmbH");
  (659, "Janitza electronics GmbH");
  (660, "Bontronic Steuerungstechnik GmbH");
  (661, "Balogh SA");
  (662, "KYLAND TECHNOLOGY CO., LTD");
  (663, "TRUMPF Hüttinger GmbH + Co. KG");
  (664, "Beijing D&S Fieldbus Technology Co.,Ltd");
  (665, "ACS GmbH");
  (666, "EA Elektro-Automatik GmbH");
  (667, "Mettler-Toledo, Inc.");
  (668, "NANJING DAQO ELECTRICAL INSTITUTE CO.,LTD.");
  (669, "BD SENSORS GmbH");
  (670, "Tan Delta Systems Ltd.");
  (671, "ARTIS GmbH");
  (672, "Exlar");
  (673, "HSD S.p.A.");
  (674, "WEISS ROBOTICS GmbH & Co. KG");
  (675, "Banner Electronics (Suzhou) Co., Ltd");
  (676, "S.K.I. Schlegel & Kremer Industrieautomation GmbH");
  (677, "proconX Pty Ltd");
  (678, "W. Gessmann GmbH");
  (679, "TECHMAC");
  (680, "MBS GmbH");
  (682, "Hein Lanz (Tianjin) Industrial Tech., Co., Ltd.");
  (683, "ELAP Spa");
  (684, "Tefulong Group Co.,Ltd.");
  (685, "NIMAK GmbH");
  (686, "EJOT SE & Co. KG");
  (687, "SOCOMEC");
  (688, "Hengstler GmbH");
  (689, "NACHI-FUJIKOSHI CORP");
  (690, "WERMA Signaltechnik GmbH + Co. KG");
  (691, "Vahle Automation GmbH");
  (692, "ROFA INDUSTRIAL AUTOMATION AG");
  (693, "AVENTICS GmbH");
  (694, "DAIFUKU CO.,LTD.");
  (695, "Toledo Integrated Systems");
  (696, "E-T-A Elektrotechnische Apparate GmbH");
  (697, "Thermon Fisher Scientific");
  (698, "JÄGER Handling GmbH & Co. KG");
  (699, "TELSONIC AG");
  (700, "HOKUYO AUTOMATIC CO.,LTD.");
  (701, "Pauly GmbH & Co.KG");
  (702, "Weber Schraubautomaten GmbH");
  (703, "EGE-Elektronik Spezial-Sensoren GmbH");
  (704, "WITTENSTEIN motion control GmbH");
  (705, "Inventica AS");
  (706, "Freqcon GmbH");
  (707, "SCHUNK SE & Co. KG");
  (708, "Harmonic Drive AG");
  (709, "REO ELEKTRONIK AG");
  (710, "DINA Elektronik GmbH");
  (711, "Renesas Electronics Corporation");
  (712, "iNTEC SAMES-KREMLIN GmbH");
  (713, "Caterpillar, Inc.");
  (714, "SINGLE Temperiertechnik GmbH");
  (715, "AUDI AG");
  (716, "CODESYS GmbH");
  (717, "Borries Markiersysteme GmbH");
  (718, "isepos GmbH");
  (719, "Katron Technologies Inc.");
  (720, "Don Electronics");
  (721, "CSI Controles e Sistemas Industriais Ltda.");
  (722, "HESCH Industrie-Elektronik GmbH");
  (723, "Wenzhou RICH Measure & Control Equipment Co., Ltd.");
  (724, "Falldorf Sensor GmbH");
  (725, "YAMAHA MOTOR CO.,LTD.");
  (726, "Bobst Group SA");
  (727, "DSM Messtechnik GmbH");
  (728, "halstrup-walcher GmbH");
  (729, "Fortress Interlocks Ltd");
  (730, "Baumer Optronic GmbH");
  (731, "Industrial Software Co");
  (732, "Bucher Automation AG");
  (733, "The Lincoln Electric Company");
  (734, "LARsys-Automation GmbH");
  (735, "Weidmüller China");
  (736, "Gönnheimer Elektronic GmbH");
  (737, "INTEC International GmbH");
  (738, "Mettler-Toledo");
  (739, "CMSLAB Co.Ltd");
  (740, "Rising-edge GmbH");
  (741, "SAE IT-systems GmbH & Co.KG");
  (742, "Atlas Copco Industrial Technique AB");
  (743, "Zumbach Electronic AG");
  (744, "Dukane Corporation");
  (745, "Chromalox, Inc.");
  (746, "Cavotec Micro-control AS");
  (747, "SIKO GmbH");
  (748, "E-T-A Elektrotechnische Apparate GmbH");
  (749, "inos Automationssoftware GmbH");
  (750, "Hans Oetiker AG");
  (751, "eks Engel GmbH & Co.KG");
  (752, "NIPPON GEAR CO.,LTD");
  (753, "ASCO Numatics GmbH");
  (754, "SONTEC Sensorbau GmbH");
  (755, "BRONKHORST NEDERLAND B.V.");
  (756, "Weber Ultrasonics GmbH");
  (757, "Anywire Corporation");
  (759, "MESOMATIC GmbH & Co.KG");
  (760, "MATROX Electronic");
  (761, "Binar Elektronik AB");
  (762, "GOM GmbH");
  (763, "PATLITE Corporation");
  (764, "Mettler Toledo Safeline Ltd");
  (765, "SCHUNK SE & Co.KG");
  (766, "TOSHIBA MITSUBISHI ELECTRIC INDUSTRIAL SYSTEMS");
  (767, "DELO Industrie Klebstoffe");
  (768, "Emerson Automation Solutions");
  (769, "SIGMATEK GmbH & Co KG");
  (770, "EMG Automation GmbH");
  (771, "Herkules-Resotec Elektronik GmbH")].

Definition vendors_6 : list (Z * string) := [
  (772, "SST Automation");
  (773, "Datasensing S.r.l.");
  (774, "HMS Networks AB");
  (775, "HETRONIK GmbH");
  (776, "Nidec Avtron Automation Corporation");
  (777, "ifak e.V. Magdeburg");
  (778, "IPG Laser GmbH");
  (779, "Novotechnik Messwertaufnehmer OHG");
  (780, "ipf electronic gmbh");
  (781, "Herrmann Ultraschalltechnik GmbH & Co. KG");
  (782, "Shanghai MRDcom co.,Ltd");
  (783, "item Industrietechnik GmbH");
  (784, "Tailyn Technologies, Inc");
  (785, "iba AG");
  (786, "Tianjin Geneuo Technology Co.,Ltd.");
  (787, "Wipotec GmbH");
  (788, "Balance Systems s.r.l.");
  (789, "XECRO GmbH");
  (790, "TianJin JinDa Actuation Co.,");
  (791, "Germbedded GmbH");
  (792, "Suzhou Wanlong Electrical Group Co.,Ltd");
  (793, "Bernstein AG");
  (794, "Toshiba Industrial Products and Systems Corporation");
  (795, "Bühler Technologies GmbH");
  (796, "PIAB AB");
  (797, "ASTECH Angewandte Sensortechnik GmbH");
  (798, "SONOTRONIC Nagel GmbH");
  (799, "Schubert System Elektronik GmbH");
  (800, "JUMO GmbH & Co. KG");
  (801, "Ceiec Electric Technology");
  (802, "IMI Norgren");
  (803, "China Industry and Science Security Technology Co.,Ltd)");
  (804, "Vital Systems Inc");
  (805, "Camozzi Automation spa");
  (806, "RAFI Systec GmbH & Co. KG");
  (807, "AMADA ENGINEERING CO., LTD.");
  (808, "Lemonage Software GmbH");
  (809, "Temposonics GmbH & Co. KG");
  (810, "TRONTEQ Electronic GbR");
  (811, "Cosys Inc.");
  (812, "Shenzhen General Measure Technology Stock Co.,Ltd.");
  (813, "GS Industrie Elektronik GmbH");
  (814, "DLG Automação Industrial Ltda");
  (815, "Weiss Robotics GmbH & Co. KG");
  (816, "CETA Testsysteme GmbH");
  (817, "PCH Engineering A/S");
  (818, "TGW Logistics GmbH");
  (819, "ZIEHL-ABEGG SE");
  (820, "MLS Lanny GmbH");
  (821, "TE Connectivity Germany GmbH");
  (822, "NADEX Co.,Ltd.");
  (823, "KOSTAL Industrie Elektrik GmbH");
  (824, "Indu-Sol GmbH");
  (825, "JAY electronique");
  (826, "Pfeiffer Vacuum GmbH");
  (827, "UNIPULSE Corporation");
  (828, "Nanjing Huatai Automation Technology Co., Ltd.");
  (829, "Cypress Semiconductor");
  (830, "ORIENTALMOTOR");
  (831, "HKS Prozesstechnik GmbH");
  (832, "KELLER HCW GmbH");
  (833, "Hauch & Bach ApS");
  (834, "Panasonic Industry Co., Ltd.");
  (835, "AIRTEC Pneumatic GmbH");
  (836, "Zimmer GmbH");
  (837, "autosen");
  (838, "Advanced Energy Industries GmbH");
  (839, "JUMO GmbH & Co. KG");
  (841, "FerRobotics Compliant Robot Technology GmbH");
  (842, "KATHREIN Sachsen GmbH");
  (843, "Zebra Technologies Corporation");
  (844, "AIRTEC Pneumatic GmbH");
  (845, "Carlo Gavazzi Controls SpA");
  (846, "Kolektor Sisteh d.o.o.");
  (847, "U.I. Lapp GmbH");
  (848, "Qamcom Research & Technology AB");
  (849, "LS Industrial Systems");
  (850, "Genge Thoma AG");
  (851, "Sensor Instruments GmbH");
  (852, "SigmaPhi Electronics");
  (853, "ORBIT MERRET, spol. s r.o.");
  (854, "B+L Industrial Measurements GmbH");
  (855, "CKD Corporation");
  (856, "MP-SENSOR GmbH");
  (857, "H.D.T. Srl");
  (858, "Dimetix AG");
  (859, "duagon AG");
  (860, "Lionpower GmbH");
  (861, "Ruf Telematik AG");
  (862, "RHEWA-WAAGENFABRIK");
  (863, "RONDO Burgdorf AG");
  (864, "Kendrion Kuhnke Automation GmbH");
  (865, "Universal Robots A/S");
  (866, "Logic GmbH & Co.KG");
  (867, "CHUO ELECTRONICS CO.,LTD");
  (868, "NetTechnix GmbH");
  (869, "Morgan Rekofa GmbH");
  (870, "Gebr. Bode GmbH & Co. KG");
  (871, "NAGANO KEIKI CO.,LTD.");
  (872, "Kemppi Oy");
  (873, "TLV Co.,LTD.");
  (874, "SEIBU ELECTRIC & MACHINERY CO.,LTD.");
  (876, "APT GMBH");
  (877, "Aquaduna GmbH & Co. KG");
  (878, "FeCon R&D Factory GmbH");
  (879, "Eltra s.p.a. Unipersonale");
  (880, "Z-LASER Optoelektronik GmbH");
  (881, "Europower Consulting GmbH");
  (882, "HIGHYAG Lasertechnologie GmbH");
  (883, "MESSRING Systembau MSG GmbH");
  (884, "RITTER Elektronik GmbH");
  (885, "ETW Wollmershäuser GmbH");
  (886, "VisionTools Bildanalyse Systeme GmbH");
  (887, "B+R Industrial Automation GmbH");
  (888, "Balluff GmbH");
  (889, "AMK Arnold Müller GmbH & Co. KG");
  (890, "Messtechnik Sachs");
  (891, "Lamtec Leipzig GmbH & Co. KG");
  (892, "nLIGHT, Inc.");
  (893, "Corvus Energy Limited");
  (894, "ADN Pesage");
  (895, "Physik Instrumente (PI) GmbH & Co. KG");
  (896, "Carlo Gavazzi Industri A/S");
  (897, "Digitronic Automationsanlagen GmbH");
  (898, "Barksdale GmbH");
  (899, "Autonics Corporation");
  (900, "W.E.St. Elektronik GmbH");
  (901, "sera GmbH");
  (902, "Process Automation (Pty) Ltd.");
  (903, "Chongqing Jie Chengxun Automation Instrument Co.,Ltd");
  (904, "REEL S.r.l.");
  (905, "Octopod Technology Limited");
  (906, "OBARA (NANJING) MACHINERY & ELECTRIC CO.,LTD.");
  (907, "PLASUS GmbH");
  (908, "Promicon Elektronik GmbH+Co.KG");
  (910, "Azbil Corporation");
  (911, "JSL Technology Co.,Ltd");
  (912, "MELEC GmbH");
  (913, "Shanghai Yege Mechanical & Electrical Equipment Co., Ltd.");
  (914, "Evac GmbH");
  (915, "MKS Instruments, Inc.");
  (917, "thermobiehl Apparatebau GmbH");
  (918, "Soehnle Industrial Solutions GmbH");
  (919, "Synspec");
  (920, "Heckner Electronics");
  (921, "PROMESS Montage- und Prüfsysteme")].

Definition vendors_7 : list (Z * string) := [
  (922, "SCANCON Encoders A/S");
  (923, "Contelec AG");
  (924, "Laserline GmbH");
  (925, "KOSO Control Engineering(Anshan)Co.,Ltd");
  (926, "K.MECS Co., LTD");
  (927, "Thyracont Vacuum Instruments GmbH");
  (928, "Funkwerk Systems GmbH");
  (929, "Takenaka Electronic Industrial Co. Ltd.");
  (930, "SICK OPTEX CO., LTD.");
  (931, "Bräuer Systemtechnik GmbH");
  (932, "ShenZhen V&T Technologies Co.,Ltd.");
  (933, "Perle Systems");
  (934, "Spohn & Burkhardt GmbH & Co. KG");
  (935, "ALLTEC Angewandte Laserlicht Technologie GmbH");
  (936, "Egmont Wilhelm GmbH");
  (937, "Italsensor S.r.l.");
  (938, "JTEKT CORPORATION");
  (939, "Larsen & Toubro Limited");
  (940, "SesKion Softwareentwicklung und System Konzeption GmbH");
  (942, "Norgren");
  (943, "ADAMCZEWSKI Elektronische Messtechnik GmbH");
  (944, "ABB Robotics");
  (945, "Lovato Electric S.p.A.");
  (947, "DUOmetric AG");
  (948, "BEx-Solution GmbH");
  (949, "Römheld GmbH Friedrichshütte");
  (950, "M&M Software GmbH");
  (951, "DAVE Embedded Systems");
  (952, "Consilium Marine & Safety AB");
  (953, "Atos spa");
  (955, "Symeo GmbH");
  (956, "Onosokki co., ltd.");
  (957, "Middex-Electronic GmbH");
  (958, "HiTek Power LTD");
  (959, "ESYSE GmbH");
  (960, "Layher AG");
  (961, "Fraunhofer-Institut für Mikroelektronische Schaltungen und Systeme IMS");
  (962, "AIGNEP SPA");
  (963, "Tolomatic, Inc");
  (964, "OPTOELECTRONICS CO.,LTD.");
  (965, "BEIJING HELPGO ELECTRIC TECHNOLOGY CO,LTD.");
  (966, "Precimeter Control AB.");
  (967, "Solartron Metrology Ltd");
  (968, "Götting KG");
  (970, "Advantech Europe BV");
  (971, "Minimax GmbH & Co KG");
  (972, "CERN");
  (973, "Leadec BV & Co. KG");
  (974, "CONVUM Ltd.");
  (975, "ASSA ABLOY Entrance Systems AB");
  (976, "WUXI PNEUMATIC TECHNICAL RESEARCH INSTITUTE CO.,LTD");
  (977, "Sumitomo Heavy Industries, Ltd.");
  (978, "Blum-Novotest GmbH");
  (979, "Aichi Tokei Denki co.,Ltd");
  (980, "motrona GmbH");
  (981, "Volktek Corporation");
  (982, "RKC Instrument Inc.");
  (983, "VACOM Vakuum Komponenten & Messtechnik GmbH");
  (985, "B&PLUS KK");
  (986, "Nabeya Bi-tech Kaisha");
  (987, "ORMEC Systems Corp.");
  (988, "WUXI LINGKE AUTOMATION TECHNOLOGY CORPORATIONS");
  (989, "DuroByte Inc.");
  (990, "UG-tronic");
  (991, "ShangHai HuaWu XingLI Flow Control Co., Ltd.");
  (992, "FlexLink");
  (993, "RITTAL GmbH & Co. KG");
  (994, "CMZ Sistemi Elettronici S.r.l.");
  (995, "SHANGHAI GEMPLE M&E CO.,LTD");
  (996, "SHANGHAI CARGOA M.&E.EQUIPMENT CO.LTD");
  (997, "Utthunga");
  (998, "Kawasaki Heavy Industries, Ltd.");
  (999, "Mechatronics Labs S.r.l.");
  (1000, "BLOCK Transformatoren-Elektronik GmbH");
  (1001, "TELETEC GmbH");
  (1002, "Fluidmesh Network LLC");
  (1003, "STAHL GmbH");
  (1004, "CONTEC CO., LTD.");
  (1005, "Beijing Ving Innovation Technology Co.,Ltd");
  (1006, "Elcis Encoder srl");
  (1007, "Dialight Corporation");
  (1008, "Belle electronic GmbH");
  (1009, "SABO Elektronik GmbH");
  (1010, "FIAtec GmbH");
  (1011, "Coretigo Ltd");
  (1012, "Rokae(Beijing)Technology Co. Ltd");
  (1013, "BEIJING CTB SERVO CO.,LTD");
  (1014, "Guardian Technology Ltd.");
  (1015, "Wuhan Guide Electric Drive Technology Co.,Ltd.");
  (1016, "Changzhou Weibo weighing equipment system Co., Ltd");
  (1017, "EVER S.n.C.");
  (1018, "DoBoTech AG");
  (1019, "Delta Electronics, Inc.");
  (1020, "MISUMI Corporation");
  (1021, "MACOME CORPORATION");
  (1022, "Engler Steuer- und Messtechnik GmbH & Co. KG");
  (1024, "SIEB & MEYER AG");
  (1025, "ima-tec gmbh");
  (1026, "Advanced Micro Controls, Inc.");
  (1028, "Vinati Srl");
  (1029, "Stotz Feinmesstechnik GmbH");
  (1030, "Axetris AG");
  (1032, "DB Systemtechnik GmbH");
  (1033, "DB Kommunikationstechnik GmbH");
  (1034, "Maxwell Technologies, Inc.");
  (1035, "Suzhou RongDaXing Electric Co., Ltd.");
  (1036, "Brandmaier");
  (1037, "KEM Küppers Elektromechanik GmbH");
  (1038, "SIASUN CO.,LTD");
  (1039, "Hein Lanz GmbH");
  (1041, "G&S Intelligent Technology Co., Ltd.");
  (1042, "Videojet Technologies Inc.");
  (1043, "WISCOM SYSTEM CO.,LTD");
  (1044, "Shenzhen INVT Electric Co.,Ltd.");
  (1045, "Koganei Corporation");
  (1046, "Metal Work S.p.A.");
  (1047, "NSD Corporation");
  (1048, "TOSHIBA MACHINE CO.,LTD.");
  (1049, "DEIF A/S");
  (1050, "SuS ELEKTRONIK PRODUKT GMBH");
  (1051, "Euromag International S.r.l.");
  (1053, "Braunkabel GmbH");
  (1054, "elobau GmbH & Co. KG");
  (1055, "Peter Hirt GmbH");
  (1056, "DINSE G.m.b.H.");
  (1057, "COVAL SAS");
  (1058, "Kyosan Electric Manufacturing Co.,Ltd.");
  (1060, "Sarissa GmbH");
  (1061, "STMicroelectronics");
  (1062, "MICRO-EPSILON MESSTECHNIK GmbH & Co.KG");
  (1063, "Mini Motor srl");
  (1064, "Proteus Industries Inc.");
  (1065, "ELGO Electronic GmbH & Co. KG");
  (1066, "Fuzhou ATK electronic Co.,ltd");
  (1067, "Dematic Corp.");
  (1068, "GSP Sprachtechnologie GmbH");
  (1069, "MPM Micro Präzision Marx GmbH");
  (1070, "KSB SAS");
  (1071, "HELMUT FISCHER GmbH");
  (1072, "Stratasys Inc.");
  (1073, "WITTENSTEIN cyber motor GmbH");
  (1074, "TAIYO,LTD.");
  (1075, "SIKO GmbH");
  (1076, "OPTEX FA CO.,LTD.");
  (1077, "CANON INC.");
  (1078, "YACOUB Automation GmbH")].

Definition vendors_8 : list (Z * string) := [
  (1079, "MARPOSS S.p.A.");
  (1080, "LMI Technologies");
  (1081, "Langer & Laumann Ing.-Büro GmbH");
  (1082, "DEUTA-WERKE GmbH");
  (1083, "Vanderlande Industries B.V.");
  (1084, "Hefei Onsoon Intelligent Electronics Co., Ltd.");
  (1085, "RINCO ULTRASONICS AG");
  (1086, "ReSatron GmbH");
  (1087, "Walsn Enterprises Ltd.");
  (1088, "IBS Japan Co., Ltd.");
  (1089, "Kirchgaesser Industrieelektronik GmbH");
  (1090, "Mitsubishi Electric Micro-Computer Application Software Co.,Ltd.");
  (1091, "MHYDROTECHNIK GmbH");
  (1092, "MAC Valves, Inc.");
  (1093, "PULS GmbH");
  (1094, "SMW-AUTOBLOK Spannsysteme GmbH");
  (1095, "KUNBUS GmbH");
  (1096, "Process Instruments (UK) Ltd");
  (1097, "Zakład Produkcji Urządzeń Automatyki Sp. z o.o.(zpua)");
  (1098, "Airoptic Sp. z o.o.");
  (1099, "Materna GmbH");
  (1100, "scemtec Transponder Technology GmbH");
  (1101, "Shenzhen Inovance Technology Co., Ltd.");
  (1102, "Alicat Scientific, Inc");
  (1103, "PLANET Technology Corporation");
  (1105, "KOBOLD Messring GmbH");
  (1107, "UWT GmbH");
  (1108, "FAS Electronics (Fujian).CO.,Ltd.");
  (1109, "Dyadic Systems Co.,Ltd.");
  (1110, "Guangdong Sygole Intelligent Technology Co.,Ltd.");
  (1111, "Shenzhen Dianming Tech Co., Ltd.");
  (1112, "SAMES KREMLIN");
  (1113, "C.E. Electronics");
  (1114, "REFU Elektronik GmbH");
  (1115, "TAIHEI SYSTEM KOGYO CO., LTD");
  (1116, "Shanghai Lanbao Sensing Technology Co.,Ltd");
  (1117, "promesstec GmbH");
  (1118, "Toledo do Brasil Industria de Balancas");
  (1119, "ConSenses GmbH");
  (1120, "LAM Technologies");
  (1121, "ENKIN AUTOMATION (SHANGHAI) CO.,LTD");
  (1122, "Rethink Robotics, Inc.");
  (1123, "BeiJing Aibo Mechanics & Electrics Co.;Ltd");
  (1124, "Wuhan Maxsine Electric CO.,LTD");
  (1125, "Shanghai Ayan Industry System Co.,Ltd");
  (1126, "LORCH Schweisstechnik GmbH");
  (1127, "SED Flow Control GmbH");
  (1128, "BEI Sensors SAS");
  (1129, "RECHNER Industrie-Elektronik GmbH");
  (1130, "AIOI SYSTEMS CO.,LTD");
  (1131, "Leach International Europe");
  (1132, "SHENZHEN SIGNAL ELECTRONICS CO.,LTD");
  (1133, "Accretech SBS");
  (1134, "Sensortherm GmbH");
  (1135, "Nanjing GTUN Automation Technology Co.,LTD");
  (1136, "Foshan City Coyo Precision Machinery Manufacturing Co. Ltd");
  (1137, "ARROW Central Europe GmbH");
  (1138, "Anderson-Negele");
  (1139, "ADDI-DATA GmbH");
  (1140, "Pfeiffer Vacuum SAS");
  (1141, "CEA Grenoble");
  (1142, "Oerlikon");
  (1143, "INFRANOR SAS");
  (1144, "Nanotec Electronic GmbH & Co. KG");
  (1145, "IDEC CORPORATION");
  (1146, "Heraeus Noblelight America LLC");
  (1147, "NBB Controls + Components");
  (1148, "Dürr Somac GmbH");
  (1149, "Ingeteam Power Technology");
  (1150, "GYS");
  (1151, "Demel Elektronik GmbH");
  (1152, "Yamamoto Electric Works Co., Ltd.");
  (1153, "MATRIX Vision GmbH");
  (1154, "montratec GmbH");
  (1155, "3onedata Co.,Ltd.");
  (1156, "M&P Motion Control and Power Electronics GmbH");
  (1157, "KROHNE Messtechnik GmbH");
  (1158, "Dymax Corporation");
  (1159, "soniKKs Ultrasonics Technology GmbH");
  (1161, "rrumba electronic GmbH");
  (1162, "JW FROEHLICH Maschinenfabrik GmbH");
  (1163, "Cincinnati Test Systems, Inc.");
  (1164, "Inspekto Ltd.");
  (1165, "Acies S.r.l.");
  (1166, "Panasonic Electric Works Europe AG");
  (1167, "LINAK A/S");
  (1168, "BLUECHIPS MICROHOUSE CO. LTD");
  (1169, "SSV Software Systems GmbH");
  (1170, "Rexnord Industries, LLC");
  (1171, "rt-labs AB");
  (1173, "HOFMANN Mess- und Auswuchttechnik GmbH & Co. KG");
  (1174, "HWEG INDÚSTRIAS S/A -  AUTOMAÇÃO");
  (1175, "Gunda Automation GmbH");
  (1176, "Metrolux optische Messtechnik GmbH");
  (1177, "AEC s.r.l.");
  (1178, "HeMaTech Prüftechnik GmbH & Co. KG");
  (1179, "IDS Imaging Development Systems GmbH");
  (1180, "Seli GmbH Automatisierungstechnik");
  (1181, "Elco (Tianjin) Electronics Co., Ltd.");
  (1182, "Müller Industrie-Elektronik GmbH");
  (1183, "APA Sp. z o.o.");
  (1184, "KunShan SVLEC Electrical Co.LTD");
  (1185, "GE Aviation Systems Ltd.");
  (1186, "Gantner Instruments GmbH");
  (1187, "Hydronix Ltd");
  (1188, "Applied Motion Products, Inc.");
  (1189, "WIKA Alexander Wiegand SE & Co. KG");
  (1190, "Red Lion Controls");
  (1191, "STEM S.r.L.");
  (1192, "GIMATIC S.R.L.");
  (1193, "GICAM S.R.L.");
  (1194, "Dittel Messtechnik GmbH");
  (1195, "HOERBIGER Flow Control GmbH");
  (1196, "Encoder Products Company");
  (1197, "Vögtlin Instruments GmbH");
  (1198, "Sitomatic Process Technology B.V.");
  (1199, "Polytech Group");
  (1200, "kumkeo GmbH");
  (1201, "swisca AG");
  (1202, "Garness LLC");
  (1203, "imc Test & Measurement GmbH");
  (1204, "TAKIKAWA ENGINEERING CO., LTD");
  (1205, "JFE Steel Corporation");
  (1206, "ACS Control System GmbH");
  (1207, "Advanced Energy");
  (1208, "Wandfluh AG");
  (1209, "AS Drives & Services GmbH");
  (1210, "I-Tork Controls Co., Ltd.");
  (1211, "ISAC SRL");
  (1212, "PushCorp, Inc");
  (1213, "Metrol Co., Ltd.");
  (1214, "Meister Strömungstechnik GmbH");
  (1215, "Heidelberger Druckmaschinen AG");
  (1216, "Erhardt+Leimer GmbH");
  (1217, "IVEK Corporation");
  (1218, "Diana Electronic-Systeme GmbH");
  (1219, "MTA Systems GmbH");
  (1220, "Metro");
  (1221, "robot system products");
  (1222, "STEGO Elektrotechnik GmbH");
  (1223, "MAGNETISCHE PRUEFANLAGEN GmbH");
  (1224, "A-T Controls, Inc.");
  (1225, "Hikvision Digital Technology Co.,Ltd");
  (1226, "ZHEJIANG SUPCON TECHNOLOGY CO.,LTD");
  (1227, "Christ Electronic Systems GmbH");
  (1228, "trinamiX GmbH")].

Definition vendors_9 : list (Z * string) := [
  (1229, "WEETECH GmbH");
  (1230, "SmartRay GmbH");
  (1231, "HAINBUCH GMBH");
  (1232, "Bystronic Maschinenbau GmbH");
  (1233, "Alicona Imaging GmbH");
  (1234, "AZ Pneumatica s.r.l.");
  (1235, "TRUMPF Schweiz AG");
  (1236, "Haehne Elektrische Messgeräte GmbH");
  (1237, "Böllhoff Automation GmbH");
  (1238, "Wirebus Equipamentos Industriais");
  (1239, "CAPTRON Electronic GmbH");
  (1240, "HTM Sensors");
  (1241, "SINTEF Manufacturing AS");
  (1242, "ESA S.p.A.");
  (1243, "KITA SENSOR TECH. CO., LTD.");
  (1244, "Vision & Control GmbH");
  (1245, "mikromess Elektronische Systeme");
  (1246, "Afag Automation AG");
  (1247, "Hirschmann Automation and Control GmbH");
  (1248, "EUROSWITCH S.p.A.");
  (1249, "IDEM Safety Switches Ltd.");
  (1250, "Korenix Technology Co., Ltd.");
  (1251, "FONDAREX SA");
  (1252, "R.S.Schwarze Elektrotechnik Moderne Industrieelektronik GmbH");
  (1253, "3S GmbH, Saarbrücken");
  (1254, "KITA sensor TECH.CO.,LTDn");
  (1255, "Atlas Copco IAS GmbH");
  (1256, "ARGO-HYTOS GMBH");
  (1257, "PNEUMAX  S.p.A.");
  (1258, "iwis antriebssysteme GmbH & Co. KG");
  (1259, "Robatech AG");
  (1260, "deister electronic GmbH");
  (1261, "PROCES-DATA A/S");
  (1262, "Eckold GmbH & Co. KG");
  (1263, "Schaeffler Technologies AG & Co. KG");
  (1264, "SIKA Dr. Siebert & Kühn GmbH & Co. KG");
  (1265, "Nanjing SAC Valmet Automation Co., LTD.");
  (1266, "FASTECH Co., Ltd");
  (1267, "Pewatron AG");
  (1268, "Polytech Group");
  (1269, "ReeR S.p.A");
  (1270, "Schrempp electronic GmbH");
  (1271, "PS Automation GmbH");
  (1272, "Duplomatic MS S.P.A.");
  (1273, "Satron Instruments Inc");
  (1274, "Herbert Waldmann GmbH & Co. KG");
  (1275, "Hitachi Industrial Products, Ltd.");
  (1276, "Dinghan SMART Railway Technology GmbH");
  (1277, "Tianjin Keyvia Electric Co., Ltd");
  (1278, "Autonetics");
  (1279, "Alltech Dosieranlagen GmbH");
  (1280, "DVDB-electronics bvba");
  (1281, "OGC");
  (1282, "Solidat Applied Technologies Ltd");
  (1283, "GMN Paul Müller Industrie GmbH & Co. KG");
  (1284, "innomatec Mess- und Schnellanschluss-Systeme GmbH");
  (1285, "Shandong Huayang Zhoneng Power Technology Co., Ltd");
  (1286, "Doosan Robotics");
  (1287, "Peitian Robotics Technology Co.,Ltd");
  (1288, "CERISTAR Electric Co.,Ltd");
  (1289, "Nordson Corp");
  (1290, "Gneuß Kunststofftechnik GmbH");
  (1291, "Keller AG für Druckmesstechnik");
  (1292, "Alfa Laval Kolding A/S");
  (1293, "Knorr Bremse España, S.A.");
  (1294, "Conch Electronic Co.,Ltd.");
  (1295, "National Instrumens");
  (1296, "GF Machining Solutions AG");
  (1297, "WEG Automation GmbH");
  (1298, "MASCHINENFABRIK NIEHOFF GmbH&Co.KG");
  (1299, "MegaChips Corporation");
  (1300, "Sense Eletrônica Ltda");
  (1301, "Zhejiang Holip Electronic Technology Co.,Ltd.");
  (1302, "INTILION GmbH");
  (1303, "VISPA GmbH");
  (1304, "Celeroton AG");
  (1305, "Vaisala Oyj");
  (1306, "Huba Control AG");
  (1307, "Ingersoll Rand Power Tools");
  (1308, "Mitutoyo Corporation");
  (1309, "IOSS intelligente optische Sensoren & Systeme GmbH");
  (1310, "Meech International");
  (1311, "Powertronic GmbH & Co.KG");
  (1312, "Christian Maier GmbH & Co.KG");
  (1313, "JingQi (Tianjin) technology Co.,Ltd");
  (1314, "SAUER GmbH");
  (1315, "Lanxess Deutschland GmbH");
  (1316, "Kracht GmbH");
  (1317, "Tianjin Sentinel Electronics Co., Ltd.");
  (1318, "Ott-Jakob Spanntechnik GmbH");
  (1319, "Zhejiang Eternal Automation Sci-Tec Co.,Ltd");
  (1320, "Nanjing Solidot Electronic Technology Co., Ltd");
  (1321, "Suzhou Veichi Electric Co.,Ltd.");
  (1322, "elrest Automationssysteme GmbH");
  (1323, "Credé Elektronik GmbH");
  (1324, "GEA Tuchenhagen GmbH");
  (1325, "TECHMAN ROBOT INC.");
  (1326, "emtrion GmbH");
  (1327, "Secure Meters (Sweden) AB");
  (1328, "Shanghai Zhongchen Electronic Technology Co., Ltd.");
  (1329, "Inxpect S.p.A.");
  (1330, "Sael srl");
  (1331, "Shanghai Junqian Sensing Technology Co.Ltd");
  (1332, "Conch Electronic Co.,Ltd.");
  (1333, "Magnescale. Co., Ltd");
  (1334, "ASIX Electronics Corporation");
  (1335, "Wöhner GmbH & Co. KG");
  (1336, "thermofin GmbH");
  (1337, "flexlog GmbH");
  (1338, "Hangzhou Hikrobot Co., Ltd.");
  (1339, "Thermo Gamma-Metrics LLC");
  (1340, "Shenzhen Siron Electrial Co.,LTD");
  (1341, "HCFA");
  (1342, "Shenyang REDTECH Electric Co.,Ltd");
  (1343, "RAFI GmbH & Co. KG");
  (1344, "Coperion K-Tron Pitman Inc.");
  (1345, "ETL Prüftechnik GmbH");
  (1346, "Hefei WNK Smart Technology Co., Ltd.");
  (1347, "NUCLEUS GmbH");
  (1348, "TG drives, s.r.o.");
  (1349, "Georg Schlegel GmbH & Co. KG");
  (1350, "plating electronic GmbH");
  (1351, "National Instruments");
  (1352, "LKM electronic GmbH");
  (1353, "Norgren Manufacturing Co., Ltd.");
  (1355, "Dengensha Toa co.,ltd.");
  (1356, "Yuken Kogyo Co., Ltd.");
  (1357, "Pentair Flow & Filtration Solutions Haffmans BV");
  (1358, "Basler Electric Company");
  (1359, "M2M craft Co., Ltd.");
  (1360, "New Japan Radio CO., LTD.");
  (1361, "HMS Industrial Networks AB");
  (1362, "M-Pulse GmbH & Co.KG");
  (1363, "Carlo Gavazzi Ltd");
  (1364, "Senseca Germany GmbH");
  (1365, "Clean-Lasersysteme GmbH");
  (1366, "SENSTRONIC S.A.S.");
  (1367, "STOPA Anlagenbau GmbH");
  (1368, "TELE RADIO GmbH");
  (1369, "GEA Diessel GmbH");
  (1370, "DEFINOX SAS");
  (1371, "AMADA MIYACHI EUROPE GmbH");
  (1372, "evopro systems engineering AG");
  (1373, "FEIG ELECTRONIC GmbH");
  (1374, "JVL A/S");
  (1375, "Penko Engineering B.V.")].

Definition vendors_10 : list (Z * string) := [
  (1376, "RENISHAW plc");
  (1377, "Dandong Dongfang Measurement & Control Technology Co., Ltd");
  (1378, "Tiab Limited");
  (1379, "E + E Elektronik Ges.m.b.H");
  (1380, "KUKA Industries GmbH & Co. KG");
  (1383, "LAUDA DR. R. WOBSER GMBH & CO. KG");
  (1384, "Evatec AG");
  (1385, "TOFI sensing technology (Shanghai) Co., Ltd");
  (1386, "COUTH Industrial Marking Systems, S.L.U.");
  (1387, "SIASUN Robot & Automation CO.,Ltd.");
  (1388, "RHEONIK MESSTECHNIK GMBH");
  (1389, "SIBRE Siegerland-Bremsen GmbH");
  (1390, "Shanghai B&A Automation System Co., Ltd.");
  (1391, "EBV Elektronik GmbH & Co. KG");
  (1392, "BOZHON Precision Industry Technology Co.,Ltd");
  (1393, "Aber Instruments Ltd");
  (1394, "Kyowa Manufacturing Co.,Ltd");
  (1395, "Sothis CIC Tec (ShangHai) Co., Ltd");
  (1396, "Volkswagen Aktiengesellschaft");
  (1397, "RÜBIG Anlagentechnik");
  (1398, "Two Fish Software");
  (1399, "Telco Sensors (Telco A/S)");
  (1400, "Exor International S.p.A.");
  (1401, "Mercedes-Benz Energy GmbH");
  (1402, "Schubert & Salzer Control Systems GmbH");
  (1403, "SENECA s.r.l.");
  (1404, "Sonic Italia Srl");
  (1405, "Ashcroft Instruments GmbH");
  (1406, "RECO Gesellschaft für Industriefilterregelung mbH");
  (1407, "Processelektronik AB");
  (1408, "Shanghai Horebtech Co., Ltd.");
  (1409, "Beijing DS Fieldbus Technology Co.,Ltd");
  (1410, "PATLITE (China) Corporation");
  (1411, "Ambient Technomancy AB");
  (1412, "J.M. Voith SE & Co. KG | DSG");
  (1413, "Zhuzhou WaveLane Technology Co.,Ltd");
  (1414, "Control Technology, Inc.");
  (1416, "Sitron Sensor GmbH");
  (1417, "Auer Signal GmbH");
  (1418, "Shanghai Ruishi Machine Vision Technology Co., Ltd. (ROSEEK)");
  (1419, "Shanghai Hurry Electronics Tech. Co., Ltd");
  (1420, "Jining KeLi Photoelectronic Industrial Co., Ltd.");
  (1421, "YUHENG OPTICS CO., LTD(CHANGCHUN)");
  (1422, "Yamato Scale Co., Ltd.");
  (1423, "ID-Engineering");
  (1424, "Pentasoft SL");
  (1425, "Chengdu Vantron Technology, Ltd.");
  (1426, "Shanghai Zhaomu Industrial Technology.LTD");
  (1427, "AKA Automatismes");
  (1428, "XI'AN ZEAL Electronic Technology Co., Ltd");
  (1429, "Controlway  (Suzhou) Electric Co., Ltd.");
  (1430, "BALDOTA CONTROL AND EQUIPMENTS (P) LIMITED");
  (1431, "SECONSYS GmbH");
  (1432, "Hydract A/S");
  (1433, "Flowinn (Shanghai) Industrial Co., Ltd.");
  (1434, "Hongke Technology Co., Ltd.");
  (1435, "PROEON SYSTEMS LTD.");
  (1436, "CAS");
  (1439, "Watson Marlow");
  (1440, "Junchuang (Xiamen) Automation Technology Co., Ltd.");
  (1441, "Peter Huber Kältemaschinenbau AG");
  (1442, "Drumag GmbH Fluidtechnik");
  (1443, "F & C Sensing Technology (Hunan) Co. Ltd");
  (1444, "Advanced Mechatronics GmbH");
  (1445, "O-DEAR INTERNATIONAL CORP.");
  (1447, "MESA Electronic GmbH");
  (1448, "SIC! Software GmbH");
  (1449, "Rotork YTC Limited");
  (1450, "READY Robotics");
  (1451, "LEAS SPA");
  (1452, "GINO-AKA");
  (1453, "JEVATEC GmbH");
  (1454, "Tsino-Dynatron Electrical Technology (Beijing) Co., Ltd.");
  (1455, "Ningbo Anson CNC Technology Co,.Ltd.");
  (1456, "LQ Mechatronik-Systeme GmbH");
  (1457, "EMA Precision Electronics (Suzhou) Corp.");
  (1459, "Suez WTS Analytical Instruments");
  (1460, "NAND Innovation Technology Co., Ltd.");
  (1461, "Re SpA");
  (1462, "Huangshan Flend Control Equipment Co.,Ltd");
  (1463, "UTTec GmbH & Co.KG");
  (1464, "TEMES Engineering GmbH");
  (1465, "KNOCKS Fluid-Technik GmbH");
  (1466, "dutt Power Electronics & Control");
  (1467, "AVID CONTROLS");
  (1468, "Yantai DERON industry Co., LTD");
  (1469, "Gamesa Electric");
  (1470, "Round Solutions GmbH & Co. KG");
  (1471, "Rico-Werk Eiserlo & Emmrich GmbH");
  (1472, "Stucke Elektronik GmbH");
  (1473, "Precitec GmbH & Co. KG");
  (1474, "Big Data in Manufacturing GmbH");
  (1475, "HAUBER-Elektronik GmbH");
  (1476, "Pizzato Elettrica s.r.l.");
  (1477, "Westermo Network Technologies AB");
  (1478, "Belden Hirschmann Industries (Suzhou) Limited");
  (1479, "Shenzhen Farwide Electric Co.,Ltd");
  (1480, "Hohner Automáticos");
  (1481, "Hanyoung nux");
  (1482, "Sensoteq");
  (1483, "KHS Corpoplast GmbH");
  (1484, "Nanjing Decowell Automation Co., Ltd.");
  (1485, "Shanghai Panelmate Electronics Co.,Ltd.");
  (1486, "Blue-White Industries, Ltd.");
  (1487, "JEMA sa");
  (1488, "Leipold+Co.GmbH");
  (1489, "AEG Identifikationssysteme GmbH");
  (1490, "SUTO iTec (China) Co.Limited");
  (1491, "Stark Spannsysteme GmbH");
  (1492, "Beijer Electronics");
  (1493, "DropsA S.p.A.");
  (1494, "Digiwest Wireless and Embedded Solutions, Lda.");
  (1495, "Beijing TeBeiFu Electronics Technology Co.,Ltd");
  (1496, "Shandong SIASUN Industrial Software Research Institute Co.,Ltd.");
  (1497, "ST Microelectronics (Shenzhen) R&D Co.,Ltd.");
  (1498, "Tri-Tronics Co., Inc.");
  (1499, "Pixsys Srl");
  (1500, "SmartGiant  Technology");
  (1501, "Dinkle Enterprise Co., Ltd.");
  (1502, "Mecademic Inc.");
  (1503, "HAWE Hydraulik SE");
  (1504, "EAO AG");
  (1505, "ShenZhen QianWen Information Technology Co.,Ltd");
  (1506, "DONGYING CITY HANDE AUTOMATION INTEGRATION CO.,LTD");
  (1507, "OSCAR PLT GmbH");
  (1508, "Hengesbach GmbH & Co. KG");
  (1509, "Esters Elektronik GmbH");
  (1510, "Magswitch Technology Europe GmbH");
  (1511, "Automated Dairy Systems");
  (1512, "Adolf Thies GmbH & Co. KG");
  (1513, "ZECK Ltd");
  (1514, "Atlas Copco Airpower NV");
  (1515, "JM Concept");
  (1516, "Fiessler Elektronik GmbH & Co. KG");
  (1517, "Sistecaut, Lda.");
  (1518, "Nagl & Vetter GmbH");
  (1519, "Kinco Electric (Shenzhen) Ltd.");
  (1520, "proTEC-Vision Automation GmbH");
  (1521, "Future Systems GmbH & Co. KG");
  (1522, "Espai de producció i electrònica S.L.");
  (1523, "MinebeaMitsumi Inc.");
  (1524, "Xingyu Electron (NINGBO) Co.,Ltd.");
  (1525, "DRUCK & TEMPERATUR Leitenberger GmbH");
  (1526, "Siemens Energy Global GmbH & Co. KG");
  (1527, "Williamson Corporation");
  (1528, "Nanjing TukBest Intelligent Technology Co., Ltd.")].

Definition vendors_11 : list (Z * string) := [
  (1529, "Allied Telesis");
  (1530, "PSI Technics GmbH");
  (1531, "Trafag AG " +:+ NBSP +:+ "sensors & controls");
  (1532, "Sartorius Stedim Biotech GmbH");
  (1533, "Nova Fabrica Ltd.");
  (1534, "Rocksensor Automation CO., Ltd");
  (1535, "AIRBEST (CHANGXING) TECHNOLOGY C0.,LTD");
  (1536, "Poseidon Systems, LLC");
  (1537, "Lauritz Kundson Electrical & Automation (LK-EA)");
  (1538, "WinterWinds Robotics Inc.");
  (1539, "NEUMO Armaturenfabrik-Apparatebau-Metallgießerei GmbH + Co. KG");
  (1540, "Chainzone Technology (Foshan) Co., Ltd.");
  (1541, "Universal Flow Monitors");
  (1542, "IEP Technologies");
  (1543, "SCHMIDT Technology GmbH");
  (1544, "Shanghai Yamato Scale Co.,Ltd.");
  (1545, "D&F Automation Co., Ltd");
  (1546, "Kaifeng Instrument (Group) Co., LTD.");
  (1547, "The Apache Software Foundation");
  (1550, "Bikotronic GmbH");
  (1551, "UNIMOTION");
  (1552, "Kredig GmbH");
  (1553, "Shanghai Xingshen Instrument Co., Ltd.");
  (1554, "UWT GmbH");
  (1555, "Electric Components a.s.");
  (1556, "Process Solutions Canada Limited (PSCL)");
  (1557, "Siogeen UG");
  (1558, "ABB Measurement & Analytics");
  (1559, "Cyltronic AG");
  (1560, "Shanghai JAKA Robotics Ltd");
  (1561, "LEEG InstrumentsShanghai LEEG Instruments Co.,Ltd");
  (1562, "Bender GmbH & Co. KG");
  (1563, "Leadshine Technology Co., Ltd.");
  (1564, "BRAUN GmbH Industrie-Elektronik");
  (1565, "Helm Instrument Co., Inc.");
  (1566, "Trafag Italia Srl");
  (1567, "GE Gas Power");
  (1568, "Eltex-Elektrostatik-GmbH");
  (1569, "KGS Corporation");
  (1570, "Shanghai AMP & MOONS' Automation Co., Ltd.");
  (1571, "Shanghai Sodron Automatic CO., Ltd");
  (1572, "AtomHorizon" +:+ NBSP +:+ " Electric (JINAN) Co., LTD");
  (1573, "NXTGN Solutions GmbH");
  (1574, "Germanjet Company Ltd.");
  (1575, "Ningbo AirTAC Automatic Industrial Co,.Ltd.");
  (1576, "Shenzhen" +:+ NBSP +:+ "Megmeet" +:+ NBSP +:+ "Drive Technology Co., Ltd.");
  (1577, "Optonic GmbH");
  (1578, "Kristianstads Lyftdon AB  (KLAB)");
  (1579, "Shenyang Institute of Automation,CAS");
  (1580, "3M Deutschland GmbH");
  (1581, "Shanghai Toeking Automation Technology Co. , Ltd.");
  (1582, "Edwards Ltd");
  (1583, "Ingenieurbüro KogiTEK UG");
  (1584, "ARTECH ULTRASONIC SYSTEMS AG");
  (1585, "Visual Electronic GmbH");
  (1586, "RS Components");
  (1587, "Atrax Group NZ Ltd");
  (1588, "Zürcher Hochschule für Angewandte Wissenschaften");
  (1589, "Nanjing IRON Technology Co., Ltd");
  (1590, "Omega Engineering Inc.");
  (1591, "Iwai Kikai Kogyo Co.,Ltd.");
  (1592, "Sesotec GmbH");
  (1593, "DAIHEN Corporation");
  (1594, "WUXI XINJE ELECTRIC CO.,LTD");
  (1595, "IBH-Tec GmbH");
  (1596, "Shanghai Liaomiao Automation Technology Partnership (Limited                   Partnership)");
  (1597, "NDW Group BV");
  (1598, "Jiangsu Acrel Electrical Manufacturing. Co., Ltd.");
  (1599, "Shenzhen Veinar Technology Co., Ltd.");
  (1600, "FOCUS-ON VoF");
  (1601, "Code Corporation");
  (1602, "dieEntwickler Elektronik GmbH");
  (1603, "Centec Gesellschaft für Labor- und Prozessmesstechnik mbH");
  (1604, "Rheonics GmbH");
  (1605, "Georg Fischer Piping Systems Ltd.");
  (1606, "Schneider Electric China Co., Ltd.");
  (1607, "Rosenberger Hochfrequenztechnik GmbH & Co. KG");
  (1608, "Mac Valves, Inc.");
  (1609, "codestryke GmbH");
  (1610, "ABB AB");
  (1611, "Markem-Imaje");
  (1612, "EMC Industrial Group Ltd");
  (1613, "State Nuclear Power Automation System Engineering Company");
  (1614, "Online Development Inc.");
  (1615, "Bamboo Dynamics Corporation.,Ltd.");
  (1616, "Rohmann GmbH");
  (1617, "Sichuan Odot Automation System Co., Ltd.");
  (1618, "Arrow (China) Electronics Trading Co., Ltd.");
  (1619, "Groeneveld-BEKA GmbH");
  (1620, "Roboteq Inc");
  (1621, "Mech-Mind Robotics Technologies Ltd");
  (1622, "RELISTE Ges.m.b.H.");
  (1623, "EXPERT Transformatorenbau GmbH");
  (1624, "Siargo.Ltd.");
  (1625, "Shenzhen Inovance Technology Co., Ltd.");
  (1626, "Shanghai Chenzhu Instrument Co., Ltd.");
  (1627, "Guangdong Kaifull  Electronics Technology Co., Ltd.");
  (1628, "Zhejiang Aoxiang Auto-Control Technology Co.,Ltd");
  (1629, "Fenac Mühendislik Limited Şirketi");
  (1630, "Schaeffler Monitoring Services GmbH");
  (1631, "beh.digital GmbH");
  (1632, "PLEVA GmbH");
  (1633, "Navitec Systems");
  (1638, "Chengdu Guardian Technologies,Ltd,. Inc.");
  (1639, "Delixi (Hangzhou) Inverter Co., Ltd.");
  (1640, "Guangzhou Optex Industrial Automation Control Equipment Co.,Ltd");
  (1641, "DONJOY Technology Co.,Ltd");
  (1642, "ORing Shanghai Corp");
  (1643, "Hanseatic Power Solutions GmbH");
  (1644, "Zhejiang HuaRay Technology Co., Ltd.");
  (1645, "Shanghai Dingxi Automation Technology Co., Ltd");
  (1646, "Shenzhen wellauto Technology Co., Ltd");
  (1647, "asomatic ag");
  (1648, "MT Drive & Control (Shenzhen) Co., Ltd.");
  (1649, "GS system");
  (1650, "AnyID technology (Shanghai) Ltd.");
  (1651, "ABB Switzerland Ltd");
  (1652, "Chenglei Valve Technology Co.,Ltd.");
  (1653, "Swedvision Automation AB");
  (1654, "VSE Volumentechnik GmbH");
  (1655, "Masterflex");
  (1656, "SIMCO (Nederland) B.V.");
  (1657, "Tianjin Oumingzhuang Automation Technology Co.,Ltd.");
  (1658, "Wuxi Lead Intelligent Equipment Co.,Ltd.");
  (1659, "VIPAECO CONTROLS Technology (Shanghai) CO.,LTD.");
  (1660, "Lehnert R & D Arnsberg GmbH");
  (1661, "Chenghuan Technology (Shenzhen) Co., LTD");
  (1662, "Selec AG");
  (1663, "EURA DRIVES Electric Co., Ltd.");
  (1664, "synland");
  (1665, "RAYCOH CONTROL CO.,LTD");
  (1666, "PCB Piezotronics, Inc.");
  (1667, "Klaschka Industrieelektronik GmbH");
  (1668, "cellumation GmbH");
  (1669, "Rose Systemtechnik GmbH");
  (1670, "KURAMO ELECTRIC CO.,LTD.");
  (1671, "Shenzhen Huachuang Zhiqi Technology Co.,Ltd");
  (1672, "Intellisense (Xiamen) Microelectronics Ltd");
  (1673, "ADLINK Technology Inc.");
  (1674, "PI Electronics AG");
  (1675, "Baker Hughes Digital Solutions GmbH");
  (1676, "Funkwerk Systems GmbH");
  (1678, "EPHI B.V.");
  (1679, "Googol Technology Co., Ltd.");
  (1680, "Guangzhou Chenkong Intelligent Technology Co., Ltd.");
  (1681, "Tecmata GmbH")].

Definition vendors_12 : list (Z * string) := [
  (1682, "Tool-Temp AG");
  (1683, "StepTechnica Co.,Ltd.");
  (1684, "INNERSPEC TECHNOLOGIES INC.");
  (1685, "Hangzhou Ruimeng Technology Co.,Ltd");
  (1686, "Shanghai KSR-KUEBLER Automation Instrument Co., Ltd.");
  (1687, "Octo Automation (Shanghai) Co.,Ltd");
  (1688, "Fiama srl");
  (1689, "HORIBA Precision Instruments (Beijing) Co., Ltd.");
  (1690, "ROSS EUROPA GmbH");
  (1691, "Nanotec Electronic GmbH & Co. KG");
  (1692, "ATN Hölzel GmbH");
  (1693, "Petards Ltd");
  (1694, "Hyundai Robotics");
  (1695, "Suzhou ECMA Industrial Techonology Co., Ltd");
  (1696, "Changsha Sunye Electric Co., Ltd.");
  (1697, "VELLE Electric(ShangHai)Co.,Ltd.");
  (1698, "Shenzhen AkuSense Technology Co.,Ltd");
  (1699, "Jiangsu Saiyang Electromechanical Technology Co., Ltd");
  (1701, "Beijing Cotytech Technology Co., Ltd.");
  (1702, "Maxcess (Zhuhai) Industrial Automation Equipment Co., Ltd.");
  (1703, "Suzhou Chengke Automatic Control Equipment Co., Ltd.");
  (1704, "AUBO (Beijing) Robotics Technology Co., Ltd.");
  (1705, "Jiangsu Eastone Technology Co.,Ltd.");
  (1706, "Inelta Sensorsysteme GmbH & Co. KG");
  (1707, "NINGBO SUPU ELECTRONICS CO., LTD.");
  (1708, "Jiangsu Zhongxinke Technology Co., Ltd");
  (1709, "Guangzhou Zhiyuan Electronics Co., Ltd");
  (1710, "WH Brady NV");
  (1714, "SURAGUS GmbH");
  (1715, "Changdatong Science & Technology (Beijing) Co., Ltd");
  (1716, "Foshan Augmented Intelligence Technology Co., Ltd.");
  (1717, "Hangzhou Hollysys Automation Co., Ltd");
  (1718, "Valco Melton");
  (1719, "FORCE Technology");
  (1720, "Shenzhen Huazhou Measurement & Control Technology Co., Ltd.");
  (1721, "Suzhou LZY Technology Co. LTD");
  (1722, "Keyho Control Technology Co., Ltd.");
  (1723, "PALMARIUS GmbH");
  (1724, "Mosca Elektronik u. Antriebstechnik GmbH");
  (1725, "PocketCodr SA");
  (1726, "Weishi Xi (Zhejiang) Fluid Technology Co.,Ltd");
  (1727, "Zhejiang Hanyu Beichen Technology Co., Ltd");
  (1728, "Codewerk GmbH");
  (1729, "YAHAM Optoelectronics Co.,Ltd");
  (1730, "KRONES AG");
  (1731, "TP-LINK TECHNOLOGIES CO.,LTD.");
  (1732, "Shenzhen Yoda Motion Control Technology Co., Ltd.");
  (1733, "Shenzhen Matribox Intelligent Technology co.Ltd");
  (1734, "Postberg + Co. GmbH");
  (1735, "Adolf Kühner AG");
  (1737, "Acromag Inc.");
  (1738, "Karl-Dungs GmbH & Co. KG");
  (1739, "Safion GmbH");
  (1740, "Evoguard GmbH");
  (1741, "Beijing TTSF Technology Co., LTD.");
  (1742, "New H3C Technologies Co., Ltd.");
  (1743, "TRUMPF Photonic Components GmbH");
  (1744, "fexlink Technology (Shenzhen) Co., Ltd");
  (1745, "Rigosys Information Technology Co. Ltd.");
  (1746, "ZIGPOS GmbH");
  (1747, "TRUMPF Tracking Technologies GmbH");
  (1748, "Sirius Electronic System");
  (1749, "LED2WORK GmbH");
  (1750, "Suzhou Jodell Robotics Co., Ltd.");
  (1751, "Silicon Laboratories Inc.");
  (1752, "Feejoy Technology (Shanghai) Co., Ltd.");
  (1753, "Newstep Electrical System Technology (Wuxi) Co. LTD");
  (1754, "Pfannenberg GmbH");
  (1755, "INATEL - Instituto Nacional de Telecomunicações");
  (1756, "CS Instruments GmbH & Co.KG");
  (1757, "Servotronix Motion Control Ltd.");
  (1758, "Exisol Private Limited");
  (1759, "TÜNKERS-NICKEL Systeme GmbH");
  (1760, "Asyril SA");
  (1761, "SHENZHEN SENPUM ELECTRIC CO.,LTD.");
  (1762, "COSMO INSTRUMENTS CO.,LTD.");
  (1763, "DELLNER BUBENZER Germany GmbH");
  (1764, "NanJing Hi-SpeedLink Technology Co., Ltd.");
  (1765, "Renesas Electronics (Shanghai) Co., Ltd.");
  (1766, "Wuxi Controller Automation Instrumentation Co., LTD");
  (1767, "R2Vision GmbH");
  (1768, "Ningbo Jiaerling Pneumatic Machinery Co.,Ltd");
  (1769, "ALE USA Inc.");
  (1770, "Guangdong Huayan Robotics Co.,Ltd.");
  (1771, "HILGEFORT ITS GmbH");
  (1772, "SALZ Automation GmbH");
  (1773, "MCU GmbH & Co. KG");
  (1774, "VELLE Electrical  (ShangHai)Co.,Ltd.");
  (1775, "ExTox Gasmess-Systeme GmbH");
  (1776, "Schunk Sonosystems GmbH");
  (1777, "SynchronicIT BV");
  (1778, "Wayzim Technology Co., Ltd.");
  (1779, "LinkWorld Intelligent Technology (Shanghai) Co., Ltd.");
  (1780, "Shenzhen Chuanneng Automation Co., Ltd.");
  (1781, "DEGSON TECHNOLOGY CO., LTD");
  (1782, "ShenZhen Yuejiang Technology Co., Ltd.");
  (1783, "FineTek Co., Ltd.");
  (1784, "Shenzhen Heroje Electronics CO., Ltd.");
  (1785, "Shenzhen Huayifeng Technology Co., Ltd.");
  (1786, "Siemens Digital Industries Software");
  (1787, "Pliem Intelligent Technology Co., Ltd");
  (1788, "Guangdong Nuonengtai Automation Technology Co., Ltd.");
  (1789, "Suzhou Lingchen Acquisition Computer Co., Ltd.");
  (1790, "TELTONIKA NETWORKS, UAB");
  (1791, "Panasonic Connect Co., Ltd. Welding Process Business Division");
  (1792, "Ingenia-CAT, S.L.");
  (1793, "Hangzhou Zheda Jingye Mechatronics Technology Co., Ltd.");
  (1794, "Mindman Industrial Co. Ltd.");
  (1795, "Shanghai MotionX Intelligent Technology Co., Ltd.");
  (1796, "FISCHER Mess- und Regeltechnik GmbH");
  (1797, "BLH Nobel (Vishay Nobel AB)");
  (1798, "Huawoo Technology");
  (1799, "Dover Flexo Electronics, Inc.");
  (1800, "Kronz (Guangzhou) Electronic Co., LTD");
  (1801, "Surpass Industry Co., Ltd.");
  (1802, "SANKO ASTEK INC.");
  (1803, "Overview Corporation");
  (1804, "Taguan Industrial (Shanghai) Co., Ltd.");
  (1805, "ELZET 80 Mikrocomputer GmbH & Co. KG");
  (1806, "UNITRONICS (1989)(R" +:+ String (chr 34) "G) LTD.");
  (1807, "octogon GmbH");
  (1808, "Lucid Vision Labs, Inc.");
  (1809, "Shaanxi Yidu Intelligence Technology Co., Ltd.");
  (1810, "CHONGQING WECAN PRECISION INSTRUMENTS");
  (1811, "Plasmatreat GmbH");
  (1812, "Beijing Jiyuan Automation Technology CO.,LTD");
  (1813, "Filijie Intelligent Technology (shanghai) Co.,Ltd.");
  (1814, "TOSEI ENGINEERING CORP.");
  (1815, "ITALCOPPIE SENSORI s.r.l.");
  (1816, "Karlsruher Institut für Technologie (KIT)");
  (1817, "Shanghai Automation Instrumentation Co.,Ltd.");
  (1818, "Accuenergy (Canada) Inc.");
  (1819, "Scanmeg");
  (1820, "PARAGON CO.,LTD");
  (1821, "AR Vacuum Technology S.L.");
  (1822, "Mitsubishi Electric India Pvt Ltd");
  (1824, "Nireco Corporation");
  (1825, "J & M Analytik AG");
  (1826, "TDK-Lambda Corporation");
  (1827, "Heliotis AG");
  (1828, "TK Systemtechnik GmbH");
  (1829, "Transcend Communication Beijing Co., Ltd.");
  (1830, "LAP GmbH Laser Applikationen");
  (1831, "Amissiontech Co., Ltd");
  (1832, "TMSS France");
  (1833, "Copley Controls Corporation")].

Definition vendors_13 : list (Z * string) := [
  (1834, "PHD, Inc.");
  (1835, "VMECA CO., Ltd");
  (1836, "thyssenkrupp Automotive Body Solutions");
  (1838, "Beisit Electric Tech (Hangzhou) Co., Ltd.");
  (1840, "INOXPA S.A.U.");
  (1842, "Nasarc Technologies");
  (1843, "Shanghai Kuanyu Industrial Network Equipment Co., Ltd.");
  (1844, "BONENG TRANSMISSION (SUZHOU) CO.,LTD.");
  (1845, "ROLAND ELECTRONIC GmbH");
  (1846, "Walter Müller AG für industrielle Elektronik");
  (1847, "KFM Regelungstechnik GmbH");
  (1848, "DAIKIN INDUSTRIES,LTD. Oil Hydraulics Div.");
  (1849, "Zhejiang Jingyan Flow Control Technology Co., Ltd");
  (1850, "Beijing Sincerity Automatic Equipment Co., Ltd.");
  (1851, "IWAKI CO., LTD.");
  (1852, "Danieli Industrial Automation (Suzhou) Co., Ltd.");
  (1853, "SSP Safety System Products GmbH & Co. KG");
  (1854, "MiEnJi (Zhe Jiang) Sensor Technology Co., Ltd.");
  (1856, "CGS Prozessanalytik GmbH");
  (1857, "Inexbot Technology Limited");
  (1858, "Kundisch GmbH & Co. KG");
  (1859, "Bardiani Valvole Spa");
  (1860, "POWERFLOW CONTROL CO., LTD.");
  (1861, "Hyleecon (Qingdao) Technology Co., Ltd.");
  (1862, "Baoyan Electrical Systems (Shanghai) Co., Ltd.");
  (1863, "Huawei Technologies Co., Ltd.");
  (1864, "Shanghai Gaviota Intelligent Technology Co., Ltd.");
  (1865, "Tecweigh Tecnetics Industries, Inc.");
  (1866, "Suzhou Shenen Electronic Technology Co.");
  (1867, "GERMAN POWER GmbH");
  (1868, "Staccato Technologies");
  (1870, "STÖGER AUTOMATION GmbH");
  (1871, "Zhejiang Reagle Sensing Technology Co. , Ltd.");
  (1877, "Linus G Productions GmbH");
  (1878, "Rongxin Huiko Electric Co., Ltd. (RXHK)");
  (1879, "EUROBINOX SAS");
  (1880, "Nanjing rasight interconnect Co., Ltd.");
  (1881, "Qlight Co., Ltd.");
  (1882, "Volke Automation Co., Ltd.");
  (1883, "OndoSense GmbH");
  (1884, "Alicat Scientific");
  (1885, "SMW-AUTOBLOK Spannsysteme GmbH");
  (1886, "Shenzhen INVT Electric Co., Ltd.");
  (1887, "Hangzhou YSUNG Intelligent Technology Co., Ltd.");
  (1888, "Daudin Co., LTD");
  (1889, "MetisMotion GmbH");
  (1890, "CHANGSHU SWITCHGEAR MFG.CO.,LTD.");
  (1891, "SCHURTER AG");
  (1892, "Calex Electronics Ltd.");
  (1893, "Xiamen WAIN Electrical Co., Ltd.");
  (1894, "Nirox srl");
  (1895, "Huizhong Instrumentation Co., Ltd.");
  (1896, "Delta Line SA");
  (1897, "Dr. techn. Josef Zelisko, Fabrik für Elektrotechnik und Maschinenbau Gesellschaft m.b.H.");
  (1898, "Zhejiang Gaotu Intelligent Control Co., Ltd.");
  (1899, "Middex-Electronic GmbH");
  (1900, "Honeywell Korea");
  (1901, "The Fredericks Company");
  (1902, "Changshu Switchgear MFG. Co., Ltd.");
  (1903, "OND");
  (1904, "Breuer Motoren GmbH & Co. KG");
  (1905, "Fiam Utensili Pneumatici Spa");
  (1906, "Alpine Metal Tech GmbH");
  (1907, "W+S Meßsysteme GmbH");
  (1908, "Trotec Laser Automation GmbH");
  (1909, "watttron GmbH");
  (1910, "CG Drives & Automation");
  (1911, "Regatron AG");
  (1912, "Nidec SSB Wind Systems GmbH");
  (1913, "CREA SYSTEMS Electronic GmbH");
  (1914, "Aixcon Powersystems GmbH");
  (1915, "Cattron");
  (1916, "Controlway (Suzhou) Electric" +:+ NBSP +:+ "Co., Ltd.");
  (1917, "Fuzhou Naite Electronic Technology Co., Ltd.");
  (1918, "Janatics India Private Limited");
  (1919, "Changshu Switchgear Manufacturing Co., Ltd.");
  (1920, "Pliem (Shanghai) Intelligent Technology Co., Ltd.");
  (1921, "Deyang Xintai Automation Instrument Co., Ltd.");
  (1922, "Guangdong Youbi Intelligent Equipment Technology Co., Ltd.");
  (1923, "Datwyler (Suzhou) IT Infra Co., Ltd.");
  (1924, "NanJing Aegis-Iron Technology Co., Ltd.");
  (1925, "Jiangsu Hengli Hydraulic Co., Ltd.");
  (1926, "Tenova S.p.A.");
  (1927, "Comepi srl");
  (1928, "WICOM1 GmbH");
  (1929, "Curtiss-Wright");
  (1930, "Cajo Technologies Oy");
  (1931, "Datexel S.r.l.");
  (1932, "Guangdong Kossi Intelligent Tecnology Co., Ltd.");
  (1933, "Volke Automation Control Co., Ltd.");
  (1934, "STANLEY Assembly Technologies");
  (1935, "SWARCO FUTURIT Verkehrssignalsysteme Ges.m.b.H.");
  (1936, "OSAIcnc S.r.l.");
  (1937, "Wolong (Zhejiang) Power Electronics Co., Ltd.");
  (1938, "Jiangxi Hangtong Electrical Technology Co., Ltd.");
  (1939, "Zhejiang Dingkong (ALLTORQUE) Intelligent Equipment Co., Ltd.");
  (1940, "Hexagon Manufacturing Intelligence");
  (1941, "Winters Instruments");
  (1942, "HANTAS Co., Ltd.");
  (1943, "Wuhan Fenjin Intelligent Machine Co., Ltd.");
  (1944, "GTrek Ltd");
  (1945, "Innomotics GmbH");
  (1946, "Shanghai Baosight Software Co., Ltd.");
  (1947, "Sokratel GmbH");
  (1948, "GMK electronic design GmbH");
  (1949, "WECON Technology Co., Ltd.");
  (1950, "RobCo GmbH");
  (1951, "Inor Process AB");
  (1952, "ITT Inc.");
  (1953, "KNESTEL Technologie & Elektronik GmbH");
  (1954, "Spectrum Technologies Ltd");
  (1955, "Qlight Electronics (Qidong) Co., Ltd.");
  (1956, "GENESI ELETTRONICA SRL");
  (1958, "KraftPowercon Sweden AB");
  (1959, "Guangdong Huayan Robotics Co., Ltd.");
  (1960, "Guangdong Yada Electronics Co.,Ltd.");
  (1961, "Rheinmetall Electronics GmbH");
  (1962, "UTEK TECHNOLOGY(SHENZHEN)CO., LTD");
  (1963, "ALIF TECH. CO., LTD.");
  (1964, "Suzhou Baicon Sensor Technology Co., LTD");
  (1965, "Katu Electronics (Kunshan) Co., LTD");
  (1966, "Zhejiang Utrio Technology Co.,Ltd");
  (1967, "Shimadzu Corporation");
  (1968, "Hebei Jubo Technology Co., LTD");
  (1969, "GEVA automation GmbH");
  (1970, "Practicon Limited");
  (1971, "Shaanxi Yidu Intelligence Technology Co., Ltd.");
  (1972, "Suzhou Mangix Automation Technology Co., Ltd");
  (1973, "Brady Worldwide, Inc");
  (1974, "Simple Intelligence Technology (Shanghai) Co., Ltd.");
  (1975, "ORIENTAL MOTOR Co., Ltd.");
  (1976, "Janasi Industries");
  (1977, "Shenzhen hpmont technology Co.,Ltd");
  (1978, "CEBORA S.p.A.");
  (1979, "Shanghai Mingju Intelligent Technology Co., Ltd");
  (1980, "IMET s.r.l.");
  (1981, "Elebia Autohooks SL");
  (1982, "Agilebot Robotics Co.,Ltd");
  (1983, "Industrial Shields");
  (1984, "Zhihui Shengda (Beijing) Technology Co., Ltd.");
  (1985, "Speedgoat GmbH");
  (1986, "Synapticon GmbH");
  (1987, "FUTURE LIFE TECHNOLOGY CO., LTD.");
  (1988, "STRATUM 9 GmbH");
  (1989, "Henschel Industrietechnik GmbH");
  (1990, "Beijing Siling Robot Technology Co., Ltd.")].

Definition vendors_14 : list (Z * string) := [
  (1991, "Shanghai" +:+ NBSP +:+ "Formal-Tech" +:+ NBSP +:+ "Information" +:+ NBSP +:+ "Technology" +:+ NBSP +:+ "Co.," +:+ NBSP +:+ "Ltd.");
  (1992, "SCHIEBEL Antriebstechnik GmbH");
  (1993, "KUBOTA Corporation");
  (1994, "Fritz Studer AG");
  (1995, "Senfinity Corporation");
  (1996, "Brady BV");
  (1997, "Orca Semiconductor Inc.");
  (1998, "ShangHai PARTERNY Technology Co., LTD");
  (1999, "Suzhou Dexinli Technology Co., Ltd");
  (2000, "PROFIBUS Nutzerorganisation e.V.");
  (2001, "NINGBO JANPOS TECHNOLOGY CO.,LTD");
  (2002, "GREIF-VELOX Maschinenfabrik GmbH");
  (2003, "Guangzhou Aosong Electronic Co., Ltd.");
  (2004, "Wuxi Yikesen Intelligent Technology Co., Ltd");
  (2005, "INTRISING NETWORKS, INC.");
  (2006, "Nelspray Limited");
  (2007, "HOHNER AUTOMAZIONE SRL");
  (2008, "CIMON");
  (2009, "FSM AG");
  (2010, "Shenzhen Sinee Electric Co.,Ltd.");
  (2011, "Shanghai" +:+ NBSP +:+ "Flexem" +:+ NBSP +:+ "Technology" +:+ NBSP +:+ "Co." +:+ NBSP +:+ "Ltd.");
  (2012, "InstruTech");
  (2013, "Pioneer Technology (Tianjin) Co., Ltd.");
  (2014, "voestalpine Böhler Welding Selco s.r.l.");
  (2015, "igus® GmbH");
  (2016, "Exner Process Equipment GmbH");
  (2017, "SFC Energy B.V.");
  (2018, "KBS Industrieelektronik GmbH");
  (2019, "UnitX Inc.");
  (2020, "venotec" +:+ NBSP +:+ "GmbH");
  (2021, "Sentea N.V.");
  (2022, "Intector Inc.");
  (2023, "Info Convergence Technology Co,. Ltd.");
  (2024, "Zhunlian Sensor(shanghai)Co,Ltd.");
  (2025, "Hopo Technology (Ninbo) Co., Ltd.");
  (2026, "CET Electric Technology Inc.");
  (2027, "Shanghai Qiaotan Intelligent Equipment");
  (2028, "Fricke und Mallah Microwave Technology GmbH");
  (2029, "Mitsubishi Electric Klimat Transportation Systems S.p.a.");
  (2030, "TECNOLOGIX s.r.l.");
  (2031, "CONEC Elektronische Bauelemente GmbH");
  (2032, "Shanghai Golytec Automation Co.,Ltd.");
  (2033, "NOSHOK, Inc.");
  (2034, "KOFLOC Corp.");
  (2035, "Smart Embedded Systems");
  (2036, "Unico, LLC.");
  (2037, "OHAUS Instruments (ChangZhou) Co.,Ltd.");
  (2038, "maxon");
  (2039, "FRECON ELECTRIC(SHENZHEN) CO., LTD");
  (2040, "Shanghai Shuohao sensor Co., Ltd.");
  (2041, "Nanjing New Power Electric Technology Co.,Ltd");
  (2042, "Lubrix GmbH");
  (2043, "Flintec (UK) Limited");
  (2044, "TMEIC Process Technology Application Centre Pty Ltd");
  (2045, "Tomasoni Mecatronica Ltda");
  (2046, "Crane Electronics Ltd");
  (2047, "WECON TECHNOLOGY CO., LTD");
  (2048, "Shanghai Machine Tool Electrical Apparatus Factory Co., Ltd.");
  (2049, "Kunshan APE Technology Co., Ltd.");
  (2050, "Shanghai Guanghua Instrument Co.,Ltd.");
  (2051, "KK Wind Solutions GmbH");
  (2052, "Weintek IIoT HK Ltd., Taiwan Branch");
  (2053, "Sirena S.p.A.");
  (2054, "Karma Kodlama Makina San.Tic.Ltd.Şti.");
  (2055, "Flowcate GmbH");
  (2056, "Wuhan Lorenz Technology Co., Ltd.");
  (2057, "Funcience Corporation");
  (2058, "Eckel GbR Magnetmesstechnik");
  (2059, "Rail Services International Austria GmbH");
  (2060, "FiSens GmbH");
  (2061, "Shanghai YM Automation Equipment Co., Ltd");
  (2062, "Nanjing Hanyou Electronics Co., Ltd");
  (2063, "SISTO Armaturen S.A.");
  (2064, "Shenzhen Sincevision Technology Co., Ltd.");
  (2065, "VERMES Microdispensing GmbH");
  (2066, "Weihai Idencoder Electronic Technology Co., Ltd.");
  (2067, "Anhui Haiwei Industrial Technology Co., Ltd.");
  (2068, "TOSS GmbH & Co. KG Verpackungssysteme");
  (2069, "Spraying Systems Co");
  (2070, "Valbia S.r.l.");
  (2071, "General Equipment & Manufacturing Company");
  (2072, "LD DIDACTIC GmbH");
  (2073, "Ching Tai Electric Wire & Cable Co., Ltd.");
  (2074, "SHENZHEN XJCSENSOR TECHNOLOGY CO.,LTD.");
  (2075, "Invertek" +:+ NBSP +:+ "Drives" +:+ NBSP +:+ "Limited");
  (2076, "Industrial Data Xchange");
  (2077, "LOGIC S.r.l.");
  (2078, "TDG Transit Design Group Inc");
  (2079, "Kubota Brabender Technologie GmbH");
  (2080, "INNIRION GmbH");
  (2081, "Fuzhou Suyilian Electric Co., Ltd.");
  (2082, "BitSENSE Electronics (Suzhou) Co., Ltd.");
  (2083, "Sensing Tech Precision（Tianjin）Co.,Ltd.");
  (2084, "Wandelbots GmbH");
  (2085, "SICHUAN ETROL TECHNOLOGIES CO.,LTD.");
  (2086, "FOX S.r.l. a socio unico");
  (2087, "Lutz-Jesco GmbH");
  (2088, "Automationdirect.com");
  (2089, "RENU Factory Automation Pvt. Ltd.");
  (2090, "Qingdao Paguld Intelligent Manufacturing Co., Ltd.");
  (2091, "Zhuhai Microcreative");
  (2092, "Shenzhen TongChuang Mechatronics CO., LTD");
  (2093, "BeiJing CCWELL Automation Equipment Co.,Ltd.");
  (2094, "Leonton Technologies Co., Ltd.");
  (2095, "Shandong PUSR IOT Co., Ltd.");
  (2096, "Empower Technologies (Shanghai) Co., Ltd.");
  (2097, "WAGO Co., Ltd.");
  (2098, "Unionscience Technology Group Co., Ltd.");
  (2099, "Fujian Ruineng Technology Co.Ltd.");
  (2100, "AGD CORPORATION");
  (2101, "HANWHA ROBOTICS");
  (2102, "Signal Srl");
  (2103, "Amila Automation Technology Suzhou Co.,Ltd.");
  (2104, "EWOVE(Beijing)Intelligent Pneumatic Technology Research andDevelopment Co. Ltd.");
  (2105, "Beijing Teaote Technoloy Co., Ltd.");
  (2106, "Baoding Unt Electric Co., Ltd.");
  (2107, "HQ Scales Inc.");
  (2108, "ABB Xiamen Low Voltage Equipment Co. Ltd.");
  (2109, "Jäger Computergesteuerte Messtechnik GmbH");
  (2110, "Shanghai DeYi M&E Technology Co., Ltd.");
  (2111, "Dongguan Xunwei Intelligent Technology Co., Ltd.");
  (2112, "SCNA AUTOMATION TECHNOLOGY ( SHENZHEN) CO., LTD.");
  (2113, "Shenzhen Chenkong Electronics Co., Ltd.");
  (2114, "IBL Gesellschaft für Ingenieurdienstleistungen");
  (2115, "Shanghai STEP Electric Corporation");
  (2116, "Xinyi Technology (Dalian) Co., Ltd.");
  (2117, "LT Global Trade Ltd.");
  (2118, "Telit Cinterion");
  (2119, "INTRONIK GmbH");
  (2120, "NBC Elettronica Group srl");
  (2121, "Fagus-GreCon Greten GmbH & Co. KG");
  (2122, "STRUNK CONNECT automated solutions GmbH & Co.KG");
  (2123, "SCREEN Semiconductor Solutions Co., Ltd.");
  (2124, "Contrive S.r.l.");
  (2125, "Beijing HollySys Intelligent Technologies Co., Ltd.");
  (2126, "SUN YEH ELECTRICAL IND. CO., LTD.");
  (2127, "dSPACE GmbH");
  (2128, "ALGO SYSTEM CO., LTD.");
  (2129, "Tem-Tech Lab. Co., Ltd.");
  (2130, "Panasonic Corporation Electric Works Company");
  (2131, "Nanjing Fangcun Sensor Technology Co., Ltd.");
  (2132, "Building Automation Products Inc.");
  (2133, "Wenzhou Dongtou Shengyu Electronical and Mechanical Co.,Ltd.");
  (2134, "Beijing Hicent Technology Co., Ltd.");
  (2135, "COTRUST" +:+ NBSP +:+ "Technologies" +:+ NBSP +:+ "Co.," +:+ NBSP +:+ "Ltd.");
  (2136, "Hanyan Intelligent Technology Co., Ltd. Shanghai")].

Definition vendors_15 : list (Z * string) := [
  (2137, "Chongqing Chuan yi Automation Co., Ltd");
  (2138, "Zhonghang Electronic Measuring Instruments(Xi'an) Co., Ltd");
  (2139, "Gems Sensors and Controls");
  (2140, "Setra Systems");
  (2141, "JIANG SU SFERE ELECTRIC CO., LTD");
  (2142, "Wagstaff");
  (2143, "iSAM AG");
  (2144, "TDK-Lambda Israel Ltd.");
  (2145, "SCAIME SAS");
  (2146, "Tsubakimoto Chain Co.");
  (2147, "3dvisionlabs GmbH");
  (2148, "ESAB AB");
  (2149, "Misumi" +:+ NBSP +:+ "(China)" +:+ NBSP +:+ "Precision" +:+ NBSP +:+ "Machinery" +:+ NBSP +:+ "Trading" +:+ NBSP +:+ "Co.," +:+ NBSP +:+ "Ltd.");
  (2150, "VUOTOTECNICA® S.r.l.");
  (2151, "Leister Technologies AG");
  (2152, "YUDIAN AUTOMATION TECHNOLOGY CO.,LTD.");
  (2153, "SICK China Co., Ltd.");
  (2154, "Beijing Gpthink Technology Co., Ltd");
  (2155, "Beijing Dipper Galaxy Technology Co., Ltd");
  (2156, "Toshniwal Industries Pvt. Ltd.");
  (2157, "Dorian s.r.l.");
  (2158, "Cair Euromatic Automation Pvt Ltd");
  (2159, "Instrumentation Icetek inc.");
  (2351, "Pilz GmbH & Co. KG");
  (2403, "Prozesskommunikation, TU Dresden");
  (2730, "HIWIN MIKROSYSTEM CORP.");
  (3400, "Berner Fachhochschule – Technik und Informatik");
  (3430, "Beijing Aurasky Electronics Co., Ltd.");
  (3479, "HAFNER Pneumatika Kft.");
  (4269, "PROFI Interface Center");
  (4323, "tec5 AG");
  (4660, "Chengdu Zongheng Intelligence Control Technology Co., Ltd.");
  (5000, "Verder Limited");
  (7556, "Elomatic");
  (7777, "Mimes AS");
  (8888, "Thorsis Technologies GmbH");
  (8899, "KraussMaffei Technologie GmbH");
  (8964, "Danieli Automation SpA");
  (13763, "SPX Flow Technology Germany GmbH");
  (16384, "PROCENTEC");
  (16712, "AHS Antriebstechnik GmbH");
  (17740, "ENGEL Elektroantriebe GmbH");
  (18623, "Optris GmbH & Co.KG");
  (19538, "Lachmann & Rink GmbH");
  (24576, "ExSaf");
  (24577, "SEOJIN INSTECH");
  (24578, "TASI FLOW");
  (24579, "Daehan Control");
  (24580, "APM");
  (24581, "ORANGE INST. UK");
  (24582, "BARTEC");
  (24583, "Detcon");
  (24584, "MSA");
  (24585, "METROVAL");
  (24586, "Etalon Rus");
  (24587, "JOGLER");
  (24588, "KSB Aktiengesellschaft");
  (24589, "Richter CT");
  (24590, "NET SAFTY");
  (24591, "SECanada");
  (24592, "SUPCON");
  (24593, "DKK - TOA");
  (24594, "Dwyer Instruments");
  (24595, "FineTek");
  (24596, "TopWorx Inc.");
  (24597, "HOFFER FLOW CONTROLS");
  (24598, "DUST NETWORKS");
  (24599, "Forbes Marshall");
  (24600, "All Measures, Ltd.");
  (24601, "MACTek");
  (24602, "CSI");
  (24603, "TC Fluid Control");
  (24604, "Rohrback Cosasco");
  (24605, "AirSprite");
  (24606, "Microcyber Inc.");
  (24607, "TIG");
  (24608, "ifm prover Gmbh");
  (24609, "FLEXIM");
  (24610, "TOKIMEC.INC");
  (24611, "SBEM");
  (24612, "SkoFlo Industries, Inc.");
  (24613, "Valmet Flow Control Inc.");
  (24614, "EUREKA FLOW");
  (24615, "BEKA associates");
  (24616, "CAPSTAR AUTOMATION");
  (24617, "Pulsar");
  (24618, "Elemer");
  (24619, "Soft Tech Group");
  (24620, "FUJIAN WIDEPLUS PRECISION INSTRUMENTS CO., LTD");
  (24621, "ENOTEC GmbH");
  (24622, "Val Controls A/S");
  (24623, "Kurz Instruments");
  (24624, "E-Senza Technologies");
  (24625, "Crowcon");
  (24626, "GEORGIN");
  (24627, "Eldridge Products");
  (24628, "DDTOP");
  (24629, "KSR Kuebler");
  (24630, "Armstrong Intl");
  (24631, "Hitachi High-Tech");
  (24632, "AMFLOW");
  (24633, "Fluidwell");
  (24634, "Mecon");
  (24635, "Fox Thermal Inst.");
  (24636, "EJMConsulting");
  (24637, "Anton Paar");
  (24638, "Dinel, s.r.o.");
  (24639, "Simtronics ASA");
  (24640, "INTEC");
  (24641, "Softing");
  (24642, "Fire Sentry Corp");
  (24643, "FUTURE INSTRUMENT");
  (24644, "MOTOYAMA");
  (24645, "ifak system");
  (24646, "MORGAN KOREA");
  (24647, "AWIATECH");
  (24648, "Coen Company");
  (24649, "United Electric");
  (24650, "Shanghai Sinoto Instrument Co., Ltd");
  (24651, "MATSUSHIMA");
  (24652, "Westcontrol AS");
  (24653, "Oldham");
  (24654, "WooriTG");
  (24655, "trianglemicrosol");
  (24656, "Nivo Controls Pvt Ltd");
  (24657, "Nivis LLC");
  (24658, "SKF USA");
  (24659, "ESP Safety");
  (24660, "HollySys");
  (24661, "Georg Fischer Piping Systems");
  (24766, "Vivace Process Instruments Ltda");
  (61440, "PROFIBUS Nutzerorganisation e.V. / GSD");
  (61696, "profile specific PA");
  (65535, "IO-LINK Community")].

Definition PROFINET_VENDOR_MAP : list (Z * string) :=
  vendors_1 ++ vendors_2 ++ vendors_3 ++ vendors_4 ++ vendors_5 ++ vendors_6 ++ vendors_7 ++ vendors_8 ++ vendors_9 ++ vendors_10 ++ vendors_11 ++ vendors_12 ++ vendors_13 ++ vendors_14 ++ vendors_15.

(** [slice::binary_search_by] of the standard library: the window starts at
    [base] and has [size] elements.  [OutOfFuel] cannot occur: the size halves. *)
Definition search_body (keys : list Z) (k : Z) (w : Z * Z) : outcome (step (Z * Z) (option Z)) :=
  let '(base, size) := w in
  if 1 <? size then
    let half := size / 2 in
    let mid := base + half in
    let? x := idx keys mid in
    Ok (Continue (if k <? x then base else mid, size - half))
  else
    let? x := idx keys base in
    Ok (Break (if x =? k then Some base else None)).

Definition binary_search (keys : list Z) (k : Z) : outcome (option Z) :=
  match keys with
  | [] => Ok None
  | _ => loop (S (length keys)) (search_body keys k) (0, len keys)
  end.

Definition lookup_vendor (vendor_id : Z) : outcome (option string) :=
  let? i := binary_search (fst <$> PROFINET_VENDOR_MAP) vendor_id in
  match i with
  | None => Ok None
  | Some i => let? e := idx PROFINET_VENDOR_MAP i in Ok (Some (snd e))
  end.

Definition get_vendor_name (vendor_id : Z) : outcome string :=
  let? n := lookup_vendor vendor_id in
  Ok (match n with Some name => name | None => "Unknown (0x" +:+ hexu 4 vendor_id +:+ ")" end).

(** ** Lookup is exact *)

Fixpoint increasing (l : list Z) : bool :=
  match l with
  | a :: ((b :: _) as l') => (a <? b) && increasing l'
  | _ => true
  end.

Lemma increasing_head a l : increasing (a :: l) = true -> Forall (fun b => a < b) l.
Proof.
  revert a. induction l as [|b l IH]; intros a H; [constructor|].
  cbn [increasing] in H. apply andb_prop in H as [Hab Hl]. constructor; [lia|].
  eapply Forall_impl; [exact (IH b Hl)|]. intros c Hc. cbn in Hc. lia.
Qed.

Lemma increasing_tail a l : increasing (a :: l) = true -> increasing l = true.
Proof. destruct l; [done|]. cbn [increasing]. intros H. by apply andb_prop in H as [_ H]. Qed.

Lemma increasing_lookup l : increasing l = true ->
  forall i j x y, l !! i = Some x -> l !! j = Some y -> (i < j)%nat -> x < y.
Proof.
  induction l as [|a l IH]; intros Hl i j x y Hi Hj Hij; [done|].
  destruct j as [|j]; [lia|]. cbn in Hj. destruct i as [|i].
  - injection Hi as <-. pose proof (increasing_head a l Hl) as Hh.
    rewrite Forall_lookup in Hh. by apply (Hh j).
  - apply (IH (increasing_tail a l Hl) i j); auto. lia.
Qed.

(** Where [k] occurs, it is found; nothing else is. *)
Definition found (keys : list Z) (k : Z) (r : option Z) : Prop :=
  match r with
  | Some i => 0 <= i /\ keys !! Z.to_nat i = Some k
  | None => k ∉ keys
  end.

Lemma binary_search_spec keys k :
  increasing keys = true -> total (binary_search keys k) (found keys k).
Proof.
  intros Hs. unfold total, binary_search. destruct keys as [|k0 keys0] eqn:E; [by apply not_elem_of_nil|].
  assert (Hne : 1 <= len (k0 :: keys0)) by (cbn; lia). rewrite <- E in *. clear k0 keys0 E.
  apply wp_loop with
    (I := fun w => 0 <= fst w /\ 1 <= snd w /\ fst w + snd w <= len keys /\
                   forall i, keys !! i = Some k -> fst w <= Z.of_nat i < fst w + snd w)
    (m := fun w => Z.to_nat (snd w)).
  - intros [base size] (H1 & H2 & H3 & H4). cbn [fst snd] in *. unfold search_body.
    destruct (Z.ltb_spec 1 size) as [Hlt|Hge].
    + pose proof (Z.div_mod size 2 ltac:(lia)). pose proof (Z.mod_pos_bound size 2 ltac:(lia)).
      apply wp_bind, wp_idx; [lia|]. intros x Hx. cbn [wp].
      destruct (Z.ltb_spec k x) as [Hkx|Hkx]; cbn [fst snd]; (split; [split_and!; try lia|lia]);
        intros i Hi; specialize (H4 i Hi).
      * destruct (decide (i < Z.to_nat (base + size / 2))%nat); [lia|].
        destruct (decide (i = Z.to_nat (base + size / 2))) as [->|]; [simplify_eq; lia|].
        pose proof (increasing_lookup _ Hs (Z.to_nat (base + size / 2)) i x k Hx Hi). lia.
      * destruct (decide (i < Z.to_nat (base + size / 2))%nat); [|lia].
        pose proof (increasing_lookup _ Hs i (Z.to_nat (base + size / 2)) k x Hi Hx). lia.
    + apply wp_bind, wp_idx; [lia|]. intros x Hx. cbn [wp].
      destruct (Z.eqb_spec x k) as [->|Hxk]; cbn [found]; [done|].
      intros (i & Hi)%list_elem_of_lookup_1. specialize (H4 i Hi).
      assert (i = Z.to_nat base) as -> by lia. congruence.
  - cbn [fst snd]. split_and!; try lia.
    intros i Hi%lookup_lt_Some. lia.
  - cbn [snd]. lia.
Qed.

(** The table as a map. *)
Definition vendor_spec (vendor_id : Z) : option string :=
  snd <$> find (fun e => fst e =? vendor_id) PROFINET_VENDOR_MAP.

Lemma find_at (l : list (Z * string)) i k n :
  increasing (fst <$> l) = true -> l !! i = Some (k, n) ->
  find (fun e => fst e =? k) l = Some (k, n).
Proof.
  revert i. induction l as [|[k' n'] l IH]; intros i Hs Hi; [done|]. cbn [find fst].
  destruct i as [|i]; [injection Hi as -> ->; by rewrite Z.eqb_refl|].
  pose proof (increasing_head _ _ Hs) as Hh. rewrite Forall_lookup in Hh.
  assert (Hk : (fst <$> l) !! i = Some k) by
    (change (l !! i = Some (k, n)) in Hi; by rewrite list_lookup_fmap, Hi).
  assert (k' < k) by exact (Hh i k Hk).
  replace (k' =? k) with false by lia. apply (IH i); [|done].
  by apply (increasing_tail k').
Qed.

Lemma find_none (l : list (Z * string)) k :
  k ∉ (fst <$> l) -> find (fun e => fst e =? k) l = None.
Proof.
  induction l as [|[k' n'] l IH]; cbn [find fst fmap list_fmap]; [done|]. intros H.
  destruct (Z.eqb_spec k' k); [set_solver|]. apply IH. set_solver.
Qed.

Lemma vendor_table_increasing : increasing (fst <$> PROFINET_VENDOR_MAP) = true.
Proof. vm_compute. reflexivity. Qed.

(** The vendor lookup is exact.  The table is strictly increasing, so the
    binary search terminates within its bounds for every 16-bit (indeed every)
    id and returns precisely the name the table lists for it, or nothing when
    the table does not list it: no id is shadowed by the search order. *)
Theorem vendor_lookup_exact vendor_id :
  lookup_vendor vendor_id = Ok (vendor_spec vendor_id).
Proof.
  unfold lookup_vendor.
  destruct (total_Ok _ _ (binary_search_spec _ vendor_id vendor_table_increasing)) as (r & -> & Hr).
  cbn [bind]. unfold vendor_spec. destruct r as [i|]; cbn [found] in Hr.
  - destruct Hr as [Hi0 Hi]. rewrite list_lookup_fmap in Hi.
    destruct (PROFINET_VENDOR_MAP !! Z.to_nat i) as [[k n]|] eqn:E; [|done].
    injection Hi as ->.
    rewrite (find_at _ _ _ _ vendor_table_increasing E).
    rewrite (idx_spec PROFINET_VENDOR_MAP i Hi0), E. reflexivity.
  - rewrite (find_none _ _ Hr). reflexivity.
Qed.

Example vendor_names :
  get_vendor_name 42 = Ok "SIEMENS AG" /\ get_vendor_name 4 = Ok "Unknown (0x0004)".
Proof. split; vm_compute; reflexivity. Qed.
