(* ===== verification/Lines.v ===== *)
(** * The lines the program writes ([src/src/bin/profinet.rs])

    Every NDJSON line is a value handed to the serializer; its text encoding is
    that of the [serde_json] crate and is left to it.  A line is a JSON object
    with its fields in declaration order.  Wall-clock stamps ([host_us]) and the
    build's commit hash are arguments. *)

From S2P Require Import Prelude Fmt Util Rt Vendors Dcp.

#[local] Open Scope string_scope.
#[local] Open Scope list_scope.
#[local] Open Scope Z_scope.

Inductive json :=
| JNull
| JBool (b : bool)
| JNum (n : Z)
| JStr (s : string)
| JArr (l : list json)
| JObj (fields : list (string * json)).

(** [json_line]: serialize a struct, its fields in declaration order. *)
Definition json_line (fields : list (string * json)) : json := JObj fields.

(** [skip_serializing_if = "Option::is_none"]. *)
Definition opt_field (k : string) (v : option json) : list (string * json) :=
  match v with Some v => [(k, v)] | None => [] end.

Definition field (k : string) (j : json) : option json :=
  match j with
  | JObj l => snd <$> find (fun e => String.eqb (fst e) k) l
  | _ => None
  end.

(** ** Tags *)

Inductive Tag :=
| TAck | TAlarm | TArLost | TBye | TControlActive | TCurrentOutput | TCyclic | TCyclicState
| TCyclicStarted | TData | TDeadman | TDevices | TError | THello | TInputStatus | TOk | TOutput
| TPong | TReadError | TRefused | TResult | TSafeShutdown | TStatus | TStopped | TTransportError
| TWarning.

#[global] Instance Tag_eq_dec : EqDecision Tag.
Proof. solve_decision. Defined.

(** [rename_all = "snake_case"]. *)
Definition tag_str (t : Tag) : string :=
  match t with
  | TAck => "ack" | TAlarm => "alarm" | TArLost => "ar_lost" | TBye => "bye"
  | TControlActive => "control_active" | TCurrentOutput => "current_output" | TCyclic => "cyclic"
  | TCyclicState => "cyclic_state" | TCyclicStarted => "cyclic_started" | TData => "data"
  | TDeadman => "deadman" | TDevices => "devices" | TError => "error" | THello => "hello"
  | TInputStatus => "input_status" | TOk => "ok" | TOutput => "output" | TPong => "pong"
  | TReadError => "read_error" | TRefused => "refused" | TResult => "result"
  | TSafeShutdown => "safe_shutdown" | TStatus => "status" | TStopped => "stopped"
  | TTransportError => "transport_error" | TWarning => "warning"
  end.

Definition tag (t : Tag) : string * json := ("type", JStr (tag_str t)).

Definition SERVE_PROTO : Z := 9.
(** [env!("CARGO_PKG_VERSION")]: the version of Cargo.toml. *)
Definition CARGO_PKG_VERSION : string := "0.6.0".
Definition PULSE_TICKS : Z := 3.

(** ** Errors and warnings *)

Definition error_read_line (read err : string) : json :=
  json_line [tag TError; ("read", JStr read); ("msg", JStr err)].
Definition error_msg_line (msg : string) : json :=
  json_line [tag TError; ("msg", JStr msg)].
Definition bad_command_line (msg line : string) : json :=
  json_line [tag TError; ("msg", JStr ("bad command: " +:+ msg)); ("line", JStr line)].
Definition warning_line (code msg : string) : json :=
  json_line [tag TWarning; ("code", JStr code); ("msg", JStr msg)].

(** ** One-shot answers *)

Inductive SetAnswer :=
| Done
| Refused (code : option Z) (text : string)
| SetTimeout.

#[global] Instance SetAnswer_eq_dec : EqDecision SetAnswer.
Proof. solve_decision. Defined.

Inductive DcpAction := SetName | SetIp | Signal | Reset | FactoryReset.

Definition action_str (a : DcpAction) : string :=
  match a with
  | SetName => "set_name" | SetIp => "set_ip" | Signal => "signal" | Reset => "reset"
  | FactoryReset => "factory_reset"
  end.

Definition result_line (action : DcpAction) (mac : list Z) (answer : SetAnswer) : json :=
  let '(error, dcp_error, detail) :=
    match answer with
    | Done => (None, None, None)
    | Refused code text => (Some "refused", code, Some text)
    | SetTimeout => (Some "timeout", None, None)
    end in
  json_line ([("proto", JNum SERVE_PROTO); tag TResult; ("action", JStr (action_str action));
              ("mac", JStr (mac2s mac)); ("ok", JBool (bool_decide (answer = Done)))]
             ++ opt_field "error" (JStr <$> error) ++ opt_field "dcp_error" (JNum <$> dcp_error)
             ++ opt_field "detail" (JStr <$> detail)).

(** [s2ip(..).unwrap_or_default()]. *)
Definition ip_or_default (ip : list Z) : outcome string :=
  let? s := ok_ (s2ip ip) in Ok (default EmptyString s).

Definition device_json (d : DcpDevice) : outcome json :=
  let? i := ip_or_default (Dcp.ip d) in
  let? m := ip_or_default (netmask d) in
  let? g := ip_or_default (gateway d) in
  let? v := get_vendor_name (vendor_id d) in
  Ok (json_line [("mac", JStr (mac2s (Dcp.mac d))); ("name", JStr (name d));
                 ("device_type", JStr (device_type d)); ("ip", JStr i); ("netmask", JStr m);
                 ("gateway", JStr g);
                 ("ip_block_info", match ip_block_info d with Some n => JNum n | None => JNull end);
                 ("vendor_id", JNum (vendor_id d)); ("vendor_name", JStr v);
                 ("device_id", JNum (device_id d)); ("role", JNum (role d))]).

Definition devices_line (iface : string) (devices : list DcpDevice) : outcome json :=
  let? l := map_result device_json devices in
  Ok (json_line [("proto", JNum SERVE_PROTO); tag TDevices; ("iface", JStr iface); ("devices", JArr l)]).

Definition proto_line (git_hash : string) : json :=
  json_line [("proto", JNum SERVE_PROTO); ("version", JStr CARGO_PKG_VERSION); ("git", JStr git_hash)].

(** ** The session *)

Definition hello_line (station : string) (read_only : bool) (gap_ms : Z) (cyclic : bool)
    (allow_mask : Z) : json :=
  json_line [("proto", JNum SERVE_PROTO); tag THello; ("version", JStr CARGO_PKG_VERSION);
             ("station", JStr station); ("read_only", JBool read_only); ("gap_ms", JNum gap_ms);
             ("cyclic", JBool cyclic); ("allow_mask", JNum allow_mask)].

Definition bye_line (id : Z) : json := json_line [("id", JNum id); tag TBye].
Definition pong_line (id host_us : Z) : json :=
  json_line [("id", JNum id); tag TPong; ("host_us", JNum host_us)].
Definition data_line (id host_us len_ : Z) (hex : string) : json :=
  json_line [("id", JNum id); tag TData; ("host_us", JNum host_us); ("len", JNum len_); ("hex", JStr hex)].
Definition ok_line (id host_us : Z) : json :=
  json_line [("id", JNum id); tag TOk; ("host_us", JNum host_us)].
Definition read_error_line (id host_us : Z) (pnio msg : string) : json :=
  json_line [("id", JNum id); tag TReadError; ("host_us", JNum host_us); ("pnio", JStr pnio);
             ("msg", JStr msg)].
Definition transport_error_line (id host_us : Z) (msg : string) : json :=
  json_line [("id", JNum id); tag TTransportError; ("host_us", JNum host_us); ("msg", JStr msg)].

Definition refused_read_only_line (id : Z) : json :=
  json_line [("id", JNum id); tag TRefused; ("reason", JStr "server is read-only")].
Definition refused_setup_line (reason : string) : json :=
  json_line [tag TRefused; ("reason", JStr reason)].
Definition refused_needs_cyclic_line (line : string) : json :=
  json_line [tag TRefused; ("reason", JStr "control commands need --cyclic"); ("line", JStr line)].
Definition refused_cmd_line (cmd : string) (mask : Z) (reason : string) : json :=
  json_line [tag TRefused; ("cmd", JStr cmd); ("mask", JNum mask); ("reason", JStr reason)].

Definition ack_set_level_line (mask : Z) (on : bool) (level : Z) : json :=
  json_line [tag TAck; ("cmd", JStr "set_level"); ("mask", JNum mask); ("on", JBool on);
             ("level", JNum level)].
Definition ack_pulse_line (mask : Z) : json :=
  json_line [tag TAck; ("cmd", JStr "pulse"); ("mask", JNum mask); ("pulse_ticks", JNum PULSE_TICKS)].
Definition ack_keepalive_line : json := json_line [tag TAck; ("cmd", JStr "keepalive")].

Definition current_output_line (len_ : Z) (hex : string) : json :=
  json_line [tag TCurrentOutput; ("len", JNum len_); ("hex", JStr hex)].
Definition cyclic_line (slot subslot host_us len_ : Z) (hex : string) : json :=
  json_line [tag TCyclic; ("slot", JNum slot); ("subslot", JNum subslot); ("host_us", JNum host_us);
             ("len", JNum len_); ("hex", JStr hex)].
Definition cyclic_started_line (cycle_ms input_frame_id output_frame_id input_len out_slot out_subslot : Z)
    : json :=
  json_line [tag TCyclicStarted; ("cycle_ms", JNum cycle_ms); ("input_frame_id", JNum input_frame_id);
             ("output_frame_id", JNum output_frame_id); ("input_len", JNum input_len);
             ("out_slot", JNum out_slot); ("out_subslot", JNum out_subslot)].
Definition cyclic_state_line (host_us : Z) (from to : string) : json :=
  json_line [tag TCyclicState; ("host_us", JNum host_us); ("from", JStr from); ("to", JStr to)].
Definition input_status_line (host_us slot subslot iops : Z) : json :=
  json_line [tag TInputStatus; ("host_us", JNum host_us); ("slot", JNum slot); ("subslot", JNum subslot);
             ("iops", JNum iops); ("good", JBool (negb (Z.land iops IOXS_DATA_STATE_GOOD =? 0)))].
Definition control_active_line (output_byte allow_mask : Z) : json :=
  json_line [tag TControlActive; ("output_byte", JNum output_byte); ("allow_mask", JNum allow_mask)].
Definition output_line (control_byte : Z) (safe_ : bool) (readback_hex : string) : json :=
  json_line [tag TOutput; ("control_byte", JNum control_byte); ("safe", JBool safe_);
             ("readback_hex", JStr readback_hex)].
Definition deadman_line : json :=
  json_line [tag TDeadman; ("msg", JStr "no command/keepalive while a level bit is held")].
Definition status_line (host_us tx rx missed invalid max_rx_gap_us out_byte : Z) : json :=
  json_line [tag TStatus; ("host_us", JNum host_us); ("tx", JNum tx); ("rx", JNum rx);
             ("missed", JNum missed); ("invalid", JNum invalid); ("max_rx_gap_us", JNum max_rx_gap_us);
             ("out_byte", JNum out_byte)].
Definition ar_lost_line (host_us : Z) (msg : string) : json :=
  json_line [tag TArLost; ("host_us", JNum host_us); ("msg", JStr msg)].
Definition safe_shutdown_line (reason : string) (verified_safe : bool) (readback_hex : string) : json :=
  json_line [tag TSafeShutdown; ("reason", JStr reason); ("verified_safe", JBool verified_safe);
             ("readback_hex", JStr readback_hex)].
Definition alarm_line (reason readback_hex : string) : json :=
  json_line [tag TAlarm; ("reason", JStr "safe output NOT verified"); ("shutdown_reason", JStr reason);
             ("readback_hex", JStr readback_hex)].
Definition stopped_exit_line (exit_ : Z) : json := json_line [tag TStopped; ("exit", JNum exit_)].
Definition stopped_stats_line (tx rx missed : Z) : json :=
  json_line [tag TStopped; ("tx", JNum tx); ("rx", JNum rx); ("missed", JNum missed)].

(** [hex_encode]. *)
Definition hex_encode (d : list Z) : string := String.concat EmptyString (hexl 2 <$> d).
