(* ===== verification/Commands.v ===== *)
(** * The command lines of the service mode ([src/src/bin/profinet.rs])

    From the bytes of stdin to a parsed command: the bounded line reader, the
    field scanner, the two vocabularies (acyclic requests with an id, output
    control), and the parsers of numbers and hex text.  Slicing text at a byte
    that is no character boundary panics, as in [str]. *)

From S2P Require Import Prelude Fmt Lines.

#[local] Open Scope string_scope.
#[local] Open Scope list_scope.
#[local] Open Scope Z_scope.

(** ** Characters of UTF-8 text *)

(** The White_Space characters outside ASCII, as UTF-8. *)
Definition wide_spaces : list string :=
  bytes_str <$> [[0xC2; 0x85]; [0xC2; 0xA0]; [0xE1; 0x9A; 0x80];
    [0xE2; 0x80; 0x80]; [0xE2; 0x80; 0x81]; [0xE2; 0x80; 0x82]; [0xE2; 0x80; 0x83];
    [0xE2; 0x80; 0x84]; [0xE2; 0x80; 0x85]; [0xE2; 0x80; 0x86]; [0xE2; 0x80; 0x87];
    [0xE2; 0x80; 0x88]; [0xE2; 0x80; 0x89]; [0xE2; 0x80; 0x8A]; [0xE2; 0x80; 0xA8];
    [0xE2; 0x80; 0xA9]; [0xE2; 0x80; 0xAF]; [0xE2; 0x81; 0x9F]; [0xE3; 0x80; 0x80]].

(** [s] behind a leading white-space character, if it starts with one. *)
Definition strip_space (s : string) : option string :=
  match s with
  | EmptyString => None
  | String c s' =>
      if is_space c then Some s'
      else foldr (fun w r => match strip_prefix w s with Some t => Some t | None => r end)
             None wide_spaces
  end.

(** [str::trim_start]; every step removes a character. *)
Fixpoint trim_start_n (fuel : nat) (s : string) : string :=
  match fuel with
  | O => s
  | S n => match strip_space s with Some t => trim_start_n n t | None => s end
  end.
Definition trim_start_ (s : string) : string := trim_start_n (String.length s) s.

(** [s.chars().filter(|c| !c.is_whitespace()).collect()]. *)
Fixpoint remove_spaces_n (fuel : nat) (s : string) : string :=
  match fuel with
  | O => s
  | S n =>
      match strip_space s with
      | Some t => remove_spaces_n n t
      | None => match s with EmptyString => EmptyString | String c t => String c (remove_spaces_n n t) end
      end
  end.
Definition remove_spaces (s : string) : string := remove_spaces_n (String.length s) s.

(** [s.find(p)] with the rest behind the match, which begins and ends at
    character boundaries when [p] is ASCII. *)
Definition after (p s : string) : option string := snd <$> split_once p s.

Definition quote : string := String (chr 34) EmptyString.
Definition is_alnum (c : ascii) : bool := is_digit c || in_range 65 90 c || in_range 97 122 c.

(** The text up to the first character that is no ASCII letter or digit. *)
Fixpoint take_while (f : ascii -> bool) (s : string) : string :=
  match s with
  | EmptyString => EmptyString
  | String c s => if f c then String c (take_while f s) else EmptyString
  end.

(** ** Fields of a one-line JSON object *)

Definition json_field_raw (line key : string) : option string :=
  match after (quote +:+ key +:+ quote) line with
  | None => None
  | Some rest => trim_start_ <$> strip_prefix ":" (trim_start_ rest)
  end.

Definition json_field_str (line key : string) : option string :=
  match json_field_raw line key with
  | None => None
  | Some rest =>
      match strip_prefix quote rest with
      | None => None
      | Some rest => fst <$> split_once quote rest
      end
  end.

Definition json_field_bool (line key : string) : option bool :=
  match json_field_raw line key with
  | None => None
  | Some rest =>
      if starts_with "true" rest then Some true
      else if starts_with "false" rest then Some false else None
  end.

(** [Result::ok] of a parse, whose errors are not panics. *)
Definition parsed (o : outcome Z) : option Z := match o with Ok v => Some v | _ => None end.

(** [strip_prefix("0x").or_else(strip_prefix("0X"))]. *)
Definition strip_0x (s : string) : option string :=
  match strip_prefix "0x" s with Some t => Some t | None => strip_prefix "0X" s end.

Definition number (max : Z) (token : string) : outcome Z :=
  match strip_0x token with
  | Some hex => from_str_radix 16 max hex
  | None => from_str_radix 10 max token
  end.

Definition json_field_uint (max : Z) (line key : string) : option Z :=
  match json_field_raw line key with
  | None => None
  | Some rest =>
      let rest := trim_start_ rest in
      let rest := default rest (strip_prefix quote rest) in
      parsed (number max (take_while is_alnum rest))
  end.

Definition U64_MAX : Z := 18446744073709551615.
Definition json_field_u8 (line key : string) : option Z := json_field_uint 255 line key.
Definition json_field_u64 (line key : string) : option Z := json_field_uint U64_MAX line key.

(** [u16::try_from(v).ok()] and the like. *)
Definition try_from (max : Z) (v : option Z) : option Z :=
  match v with Some v => if v <=? max then Some v else None | None => None end.

(** ** Numbers and hex text *)

(** [str::trim]: both ends. *)
Fixpoint trim_end_n (fuel : nat) (s : string) : string :=
  match fuel with
  | O => s
  | S n =>
      match s with
      | EmptyString => EmptyString
      | String c t =>
          if slen (trim_start_ s) =? 0 then EmptyString else String c (trim_end_n n t)
      end
  end.
Definition trim_ (s : string) : string := trim_end_n (String.length s) (trim_start_ s).

Definition parse_u8_maybe_hex (raw : string) : outcome Z :=
  let raw := trim_ raw in
  map_err (fun e => "invalid byte " +:+ debug_str raw +:+ ": " +:+ e) (number 255 raw).

Definition parse_index (s : string) : outcome Z :=
  map_err (fun _ => "invalid index " +:+ debug_str s) (number 65535 s).

(** One pair of digits of [parse_hex]. *)
Definition hex_pair (s cleaned : string) (i : Z) : outcome Z :=
  let? p := str_slice cleaned i (i + 2) in
  map_err (fun _ => "invalid hex " +:+ debug_str s) (from_str_radix 16 255 p).

(** [(0..n).step_by(2)]. *)
Definition evens (n : Z) : list Z := (fun k => 2 * k) <$> seqZ 0 ((n + 1) / 2).

Definition parse_hex (s : string) : outcome (list Z) :=
  let cleaned := remove_spaces s in
  if negb (slen cleaned mod 2 =? 0) then Err ("odd-length hex string " +:+ debug_str s)
  else map_result (hex_pair s cleaned) (evens (slen cleaned)).

Definition parse_watchdog_factor (text : string) : outcome Z :=
  let? value := map_err (fun _ => "watchdog factor must be a number, got " +:+ debug_str text)
                  (parse_u16 text) in
  if negb ((1 <=? value) && (value <=? 1024)) then
    Err ("watchdog factor must be in 1..=1024, got " +:+ dec value)
  else Ok value.

Definition is_power_of_two (v : Z) : bool := (0 <? v) && (v =? 2 ^ Z.log2 v).

Definition validate_cycle_ms (cycle_ms : Z) : outcome unit :=
  if negb ((1 <=? cycle_ms) && (cycle_ms <=? 512)) || negb (is_power_of_two cycle_ms) then
    Err ("cycle_ms must be a power of two in 1..=512 (RT_CLASS_1 reduction ratio), got "
         +:+ dec cycle_ms)
  else Ok tt.

(** ** Commands *)

Inductive ControlCmd :=
| SetLevel (mask : Z) (on : bool)
| Pulse (mask : Z)
| Keepalive
| CQuit.

Inductive ServeCmd :=
| Read (id index slot subslot len_ : Z)
| Write (id index slot subslot : Z) (d : list Z)
| Ping (id : Z)
| Quit (id : Z).

Definition cmd_id (c : ServeCmd) : Z :=
  match c with
  | Read id _ _ _ _ => id
  | Write id _ _ _ _ => id
  | Ping id => id
  | Quit id => id
  end.

Inductive ServeLine := Rpc (c : ServeCmd) | Control (c : ControlCmd).

Definition missing (k : string) : string := "missing " +:+ quote +:+ k +:+ quote +:+ " field".

Definition parse_control_cmd (line : string) : outcome ControlCmd :=
  let? cmd := ok_or (json_field_str line "cmd") (missing "cmd") in
  if String.eqb cmd "set_level" then
    let? mask := ok_or (json_field_u8 line "mask") ("set_level needs " +:+ quote +:+ "mask" +:+ quote +:+ ":<byte>") in
    let? on := ok_or (json_field_bool line "on") ("set_level needs " +:+ quote +:+ "on" +:+ quote +:+ ":true|false") in
    Ok (SetLevel mask on)
  else if String.eqb cmd "pulse" then
    let? mask := ok_or (json_field_u8 line "mask") ("pulse needs " +:+ quote +:+ "mask" +:+ quote +:+ ":<byte>") in
    Ok (Pulse mask)
  else if String.eqb cmd "keepalive" then Ok Keepalive
  else if String.eqb cmd "quit" then Ok CQuit
  else Err ("unknown cmd " +:+ debug_str cmd).

Definition field_u16 (line cmd k : string) : outcome Z :=
  ok_or (try_from 65535 (json_field_u64 line k))
    (cmd +:+ " needs " +:+ quote +:+ k +:+ quote +:+ " (0..=65535)").

Definition parse_serve_cmd (line : string) : outcome ServeCmd :=
  let? id := ok_or (json_field_u64 line "id") (missing "id") in
  let? cmd := ok_or (json_field_str line "cmd") (missing "cmd") in
  if String.eqb cmd "read" then
    let? index := field_u16 line cmd "index" in
    let? slot := field_u16 line cmd "slot" in
    let? subslot := field_u16 line cmd "subslot" in
    let? len_ := ok_or (try_from 4294967295 (json_field_u64 line "len"))
                   ("read needs " +:+ quote +:+ "len" +:+ quote) in
    Ok (Read id index slot subslot len_)
  else if String.eqb cmd "write" then
    let? hex := ok_or (json_field_str line "hex") ("write needs " +:+ quote +:+ "hex" +:+ quote) in
    let? index := field_u16 line cmd "index" in
    let? slot := field_u16 line cmd "slot" in
    let? subslot := field_u16 line cmd "subslot" in
    let? d := parse_hex hex in
    Ok (Write id index slot subslot d)
  else if String.eqb cmd "ping" then Ok (Ping id)
  else if String.eqb cmd "quit" then Ok (Quit id)
  else Err ("unknown cmd " +:+ debug_str cmd).

Definition parse_serve_line (line : string) : outcome ServeLine :=
  let rpc := let? c := parse_serve_cmd line in Ok (Rpc c) in
  match json_field_str line "cmd" with
  | Some cmd =>
      if String.eqb cmd "quit" && bool_decide (json_field_u64 line "id" = None) then Ok (Control CQuit)
      else if existsb (String.eqb cmd) ["set_level"; "pulse"; "keepalive"] then
        let? c := parse_control_cmd line in Ok (Control c)
      else rpc
  | None => rpc
  end.

(** ** Reading stdin with a bound *)

Definition MAX_STDIN_LINE : Z := 4096.

(** [reader.take(max).read_until(newline, buf)] over the bytes not yet read:
    what was appended and what is left. *)
Fixpoint read_until (max : nat) (input : list Z) : list Z * list Z :=
  match max, input with
  | O, _ => ([], input)
  | _, [] => ([], [])
  | S m, b :: rest =>
      if b =? 10 then ([b], rest)
      else let '(l, r) := read_until m rest in (b :: l, r)
  end.

(** Discard in chunks until a newline or the end. *)
Definition skip_body (max : nat) (input : list Z) : outcome (step (list Z) (list Z)) :=
  let '(skip, rest) := read_until max input in
  match last skip with
  | None => Ok (Break rest)
  | Some b => if b =? 10 then Ok (Break rest) else Ok (Continue rest)
  end.
Definition skip_line (max : nat) (input : list Z) : outcome (list Z) :=
  loop (S (length input)) (skip_body max) input.

Inductive StdinLine := Line (s : string) | TooLong.

(** The next line and the input left; [None] ends the reader thread. *)
Definition read_bounded_line (max : nat) (input : list Z) : outcome (option StdinLine * list Z) :=
  let '(buf, rest) := read_until max input in
  match last buf with
  | None => Ok (None, rest)
  | Some b =>
      if b =? 10 then
        let buf := removelast buf in
        let buf := if bool_decide (last buf = Some 13) then removelast buf else buf in
        Ok (if utf8_valid buf then Some (Line (bytes_str buf)) else None, rest)
      else if (length buf =? max)%nat then
        let? rest := skip_line max rest in
        Ok (Some TooLong, rest)
      else Ok (if utf8_valid buf then Some (Line (bytes_str buf)) else None, rest)
  end.

(** The reader thread: every line goes to the loop, an over-long one is
    reported ([error_msg_line]) and dropped. *)
Fixpoint stdin_lines (fuel max : nat) (input : list Z) : outcome (list StdinLine) :=
  match fuel with
  | O => OutOfFuel
  | S n =>
      let? r := read_bounded_line max input in
      match r with
      | (None, _) => Ok []
      | (Some l, rest) => let? ls := stdin_lines n max rest in Ok (l :: ls)
      end
  end.
Definition stdin_lines_all (input : list Z) : outcome (list StdinLine) :=
  stdin_lines (S (length input)) (Z.to_nat MAX_STDIN_LINE) input.

(** ** Reading: line by line *)

(** Reference: the bytes up to the first newline, and what follows it. *)
Fixpoint break_line (l : list Z) : list Z * option (list Z) :=
  match l with
  | [] => ([], None)
  | b :: l =>
      if b =? 10 then ([], Some l)
      else let '(c, o) := break_line l in (b :: c, o)
  end.

(** What one line of stdin means: too long when it has [max] bytes or more
    before its newline, else its text without the carriage return, unless it
    is no UTF-8. *)
Definition judge (max : nat) (c : list Z) (terminated : bool) : option StdinLine :=
  if (max <=? length c)%nat then Some TooLong
  else
    let c := if terminated && bool_decide (last c = Some 13) then removelast c else c in
    if utf8_valid c then Some (Line (bytes_str c)) else None.

Fixpoint ref_lines (fuel max : nat) (input : list Z) : list StdinLine :=
  match fuel, input with
  | S n, _ :: _ =>
      let '(c, o) := break_line input in
      match judge max c (bool_decide (is_Some o)) with
      | None => []
      | Some l => l :: match o with Some rest => ref_lines n max rest | None => [] end
      end
  | _, _ => []
  end.

Lemma break_line_eq l c o :
  break_line l = (c, o) ->
  Forall (fun b => b <> 10) c /\ l = c ++ match o with Some r => 10 :: r | None => [] end.
Proof.
  revert c o. induction l as [|b l IH]; intros c o; cbn [break_line].
  - intros [= <- <-]. by split.
  - destruct (Z.eqb_spec b 10) as [->|Hb]; [intros [= <- <-]; by split|].
    destruct (break_line l) as [c' o'] eqn:E. intros [= <- <-].
    destruct (IH _ _ eq_refl) as [H1 ->]. split; [by constructor|done].
Qed.

Lemma break_line_app c o :
  Forall (fun b => b <> 10) c ->
  break_line (c ++ match o with Some r => 10 :: r | None => [] end) = (c, o).
Proof.
  induction 1 as [|b c Hb Hc IH]; [by destruct o|]. cbn [app break_line].
  replace (b =? 10) with false by lia. by rewrite IH.
Qed.

(** [tail_of o] is what follows the content of a line. *)
Definition tail_of (o : option (list Z)) : list Z := match o with Some r => 10 :: r | None => [] end.
Definition rest_of (o : option (list Z)) : list Z := match o with Some r => r | None => [] end.

Lemma read_until_short max c o :
  Forall (fun b => b <> 10) c -> (length c < max)%nat ->
  read_until max (c ++ tail_of o) = (c ++ match o with Some _ => [10] | None => [] end, rest_of o).
Proof.
  intros Hc. revert max. induction Hc as [|b c Hb Hc IH]; intros max Hl; destruct max as [|m]; cbn in Hl; try lia.
  - by destruct o.
  - cbn [app read_until]. replace (b =? 10) with false by lia. by rewrite IH by lia.
Qed.

Lemma read_until_long max c o :
  Forall (fun b => b <> 10) c -> (max <= length c)%nat ->
  read_until max (c ++ tail_of o) = (take max c, drop max c ++ tail_of o).
Proof.
  intros Hc. revert max. induction Hc as [|b c Hb Hc IH]; intros max Hl; destruct max as [|m]; cbn in Hl; try lia.
  - by destruct o.
  - done.
  - cbn [app read_until]. replace (b =? 10) with false by lia. by rewrite IH by lia.
Qed.

(** Skipping ends right behind the line's newline. *)
Lemma skip_line_end max c o :
  (0 < max)%nat -> Forall (fun b => b <> 10) c ->
  skip_line max (c ++ tail_of o) = Ok (rest_of o).
Proof.
  intros Hm Hc. unfold skip_line.
  enough (forall fuel, (length c < fuel)%nat -> loop fuel (skip_body max) (c ++ tail_of o) = Ok (rest_of o)) as H.
  { apply H. rewrite length_app. lia. }
  intros fuel. revert c Hc. induction fuel as [|n IH]; intros c Hc Hf; [lia|].
  cbn [loop]. unfold skip_body. destruct (decide (length c < max)%nat) as [Hs|Hs].
  - rewrite read_until_short by done. destruct o as [r|]; cbn [rest_of].
    + by rewrite last_snoc.
    + rewrite app_nil_r. destruct (last c) as [b|] eqn:E; [|done].
      apply last_Some in E as [c' ->]. apply Forall_app in Hc as [_ Hb%Forall_inv].
      replace (b =? 10) with false by lia.
      destruct n as [|n]; [rewrite length_app in Hf; cbn in Hf; lia|]. cbn [loop].
      unfold skip_body. destruct max; [lia|]. done.
  - rewrite read_until_long by (done || lia). rewrite last_lookup, length_take, lookup_take_lt by lia.
    destruct (c !! _) as [b|] eqn:E.
    + assert (b <> 10) by (rewrite Forall_lookup in Hc; eauto). replace (b =? 10) with false by lia.
      apply IH; [by apply Forall_drop|]. rewrite length_drop. lia.
    + apply lookup_ge_None in E. lia.
Qed.

Lemma read_line_judged max input c o :
  (0 < max)%nat -> input <> [] -> break_line input = (c, o) ->
  read_bounded_line max input =
    match judge max c (bool_decide (is_Some o)) with
    | Some l => Ok (Some l, rest_of o)
    | None => Ok (None, rest_of o)
    end.
Proof.
  intros Hm Hne Hb. destruct (break_line_eq _ _ _ Hb) as [Hc ->]. fold (tail_of o) in *.
  unfold read_bounded_line, judge. destruct (Nat.leb_spec max (length c)) as [Hl|Hl].
  - rewrite read_until_long by done. rewrite last_lookup, length_take, lookup_take_lt by lia.
    destruct (c !! _) as [b|] eqn:E; [|apply lookup_ge_None in E; lia].
    assert (b <> 10) by (rewrite Forall_lookup in Hc; eauto). replace (b =? 10) with false by lia.
    rewrite Nat.min_l by lia. rewrite Nat.eqb_refl.
    by rewrite skip_line_end by (try apply Forall_drop; done).
  - rewrite read_until_short by done. destruct o as [r|]; cbn [rest_of].
    + rewrite last_snoc, removelast_last. rewrite Z.eqb_refl. cbn [andb].
      rewrite (bool_decide_eq_true_2 (is_Some (Some r))) by done. cbn [andb].
      by destruct (utf8_valid _).
    + rewrite app_nil_r. destruct (last c) as [b|] eqn:E.
      * apply last_Some in E as [c' ->]. pose proof Hc as Hc'. apply Forall_app in Hc' as [_ Hb'%Forall_inv].
        replace (b =? 10) with false by lia. replace (_ =? max)%nat with false by lia.
        rewrite (bool_decide_eq_false_2 (is_Some None)) by (by intros []). cbn [andb].
        by destruct (utf8_valid _).
      * apply last_None in E as ->. by destruct Hne.
Qed.

(** C35: Stdin is read line by line whatever its size.  Whatever bytes arrive
    (newlines anywhere, no newline at all, lines of any length), the reader
    ends, and produces exactly one item per line in order: the line's text
    when it is shorter than the bound, and one "too long" report otherwise,
    after which reading resumes right behind that line's own newline, so no
    part of an over-long line is ever taken for a command.  Only a line that
    is no UTF-8 ends the stream early. *)
Theorem stdin_line_by_line max input :
  (0 < max)%nat ->
  stdin_lines (S (length input)) max input = Ok (ref_lines (S (length input)) max input).
Proof.
  intros Hm.
  enough (forall fuel, (length input < fuel)%nat ->
            stdin_lines fuel max input = Ok (ref_lines fuel max input)) as H by (apply H; lia).
  intros fuel. revert input. induction fuel as [|n IH]; intros input Hl; [lia|].
  destruct input as [|b0 input]; [by destruct max|].
  set (l := b0 :: input) in *. destruct (break_line l) as [c o] eqn:Hb.
  cbn [stdin_lines]. rewrite (read_line_judged max l c o) by done.
  destruct (break_line_eq _ _ _ Hb) as [_ Hlen].
  replace (ref_lines (S n) max l) with
    (match judge max c (bool_decide (is_Some o)) with
     | None => []
     | Some j => j :: match o with Some r => ref_lines n max r | None => [] end
     end) by (unfold l in *; cbn [ref_lines]; by rewrite Hb).
  assert (Hr : (length (rest_of o) < n)%nat \/ rest_of o = []).
  { destruct o as [r|]; [left|by right]. rewrite Hlen, length_app in Hl. cbn in *. lia. }
  destruct (judge _ _ _) as [j|]; cbn [bind]; [|done].
  destruct o as [r|]; cbn [rest_of] in *.
  - destruct Hr as [Hr| ->]; [by rewrite IH|].
    destruct n; [rewrite Hlen, length_app in Hl; cbn in Hl; lia|]. rewrite IH by (cbn; lia). done.
  - destruct n as [|n]; [subst l; cbn in Hl; lia|]. by destruct max.
Qed.

(** ** Panics *)

Lemma strip_prefix_eq p s t : strip_prefix p s = Some t -> s = p +:+ t.
Proof.
  revert s. induction p as [|c p IH]; intros s; cbn [strip_prefix]; [by destruct s; intros [= <-]|].
  destruct s as [|d s]; [done|]. destruct (Ascii.eqb_spec c d) as [->|]; [|done].
  intros H. by rewrite (IH s H).
Qed.

Lemma strip_prefix_app p t : strip_prefix p (p +:+ t) = Some t.
Proof.
  induction p as [|c p IH]; [by destruct t|]. change (String c p +:+ t) with (String c (p +:+ t)).
  cbn [strip_prefix]. by rewrite Ascii.eqb_refl.
Qed.

Lemma split_once_eq p s a b : split_once p s = Some (a, b) -> s = a +:+ p +:+ b.
Proof.
  revert a b. induction s as [|c s IH]; intros a b.
  - cbn [split_once]. destruct (strip_prefix p _) as [r|] eqn:E; [|done]. intros [= <- <-].
    by apply strip_prefix_eq in E.
  - cbn [split_once]. destruct (strip_prefix p _) as [r|] eqn:E.
    + intros [= <- <-]. by apply strip_prefix_eq in E.
    + destruct (split_once p s) as [[a' b']|]; [|done]. intros [= <- <-].
      by rewrite (IH a' b' eq_refl).
Qed.

Section Keep.
Context (f : ascii -> bool).
Abbreviation all s := (sforall f s = true).

Lemma all_strip p s t : strip_prefix p s = Some t -> all s -> all t.
Proof. intros ->%strip_prefix_eq. rewrite sforall_app. by intros [_ ?]%andb_prop. Qed.

Lemma all_split p s a b : split_once p s = Some (a, b) -> all s -> all a /\ all b.
Proof.
  intros ->%split_once_eq. rewrite !sforall_app. intros [? [_ ?]%andb_prop]%andb_prop. done.
Qed.

Lemma all_strip_space s t : strip_space s = Some t -> all s -> all t.
Proof.
  destruct s as [|c s]; [done|]. cbn [strip_space]. destruct (is_space c).
  - intros [= <-]. cbn. by intros [_ ?]%andb_prop.
  - generalize wide_spaces as ws. induction ws as [|w ws IH]; [done|]. cbn [foldr].
    destruct (strip_prefix w _) eqn:E; [intros [= <-]; exact (all_strip _ _ _ E)|done].
Qed.

Lemma all_trim s : all s -> all (trim_start_ s).
Proof.
  unfold trim_start_. generalize (String.length s) as n. intros n. revert s.
  induction n as [|n IH]; intros s Hs; [done|]. cbn [trim_start_n].
  destruct (strip_space s) eqn:E; [|done]. apply IH. exact (all_strip_space _ _ E Hs).
Qed.

Lemma all_remove_spaces s : all s -> all (remove_spaces s).
Proof.
  unfold remove_spaces. generalize (String.length s) as n. intros n. revert s.
  induction n as [|n IH]; intros s Hs; [done|]. cbn [remove_spaces_n].
  destruct (strip_space s) eqn:E; [apply IH; exact (all_strip_space _ _ E Hs)|].
  destruct s as [|c s]; [done|]. cbn in *. apply andb_prop in Hs as [Hc Hs].
  rewrite Hc. by apply IH.
Qed.

Lemma all_field_raw line key r : json_field_raw line key = Some r -> all line -> all r.
Proof.
  unfold json_field_raw, after. destruct (split_once _ line) as [[a b]|] eqn:E; [|done].
  change (snd <$> Some (a, b)) with (Some b). cbv iota beta. intros H Hl. destruct (all_split _ _ _ _ E Hl) as [_ Hb].
  destruct (strip_prefix ":" (trim_start_ b)) as [t|] eqn:E2; [|done]. injection H as <-.
  apply all_trim. eapply all_strip; [exact E2|]. by apply all_trim.
Qed.

Lemma all_field_str line key r : json_field_str line key = Some r -> all line -> all r.
Proof.
  unfold json_field_str. destruct (json_field_raw line key) as [s|] eqn:E; [|done].
  intros H Hl. pose proof (all_field_raw _ _ _ E Hl) as Hs.
  destruct (strip_prefix quote s) as [t|] eqn:E2; [|done].
  destruct (split_once quote t) as [[a b]|] eqn:E3; [|done]. injection H as <-.
  apply (all_split _ _ _ _ E3). by eapply all_strip.
Qed.

End Keep.

Lemma safe_bind {A B} (o : outcome A) (k : A -> outcome B) :
  safe o -> (forall a, o = Ok a -> safe (k a)) -> safe (bind o k).
Proof. destruct o; cbn; auto. Qed.

Lemma safe_map_err {A} f (o : outcome A) : safe o -> safe (map_err f o).
Proof. by destruct o. Qed.

Lemma safe_ok_or {A} (x : option A) e : safe (ok_or x e).
Proof. by destruct x. Qed.

Lemma safe_map_result {A B} (f : A -> outcome B) l :
  (forall a, a ∈ l -> safe (f a)) -> safe (map_result f l).
Proof.
  induction l as [|a l IH]; intros H; [done|]. cbn [map_result].
  apply safe_bind; [apply H; by left|]. intros b _.
  apply safe_bind; [apply IH; intros; apply H; by right|]. done.
Qed.

Lemma number_safe max t : safe (number max t).
Proof. unfold number. destruct (strip_0x t); apply from_str_radix_safe. Qed.

Lemma parse_hex_safe s : ascii_only s -> safe (parse_hex s).
Proof.
  intros Hs. unfold parse_hex. destruct (Z.eqb_spec (slen (remove_spaces s) mod 2) 0) as [He|]; cbn [negb]; [|done].
  pose proof (all_remove_spaces _ s Hs) as Hc. set (c := remove_spaces s) in *.
  apply safe_map_result. intros i Hi. apply list_elem_of_fmap in Hi as (k & -> & Hk%elem_of_seqZ).
  assert (2 * k + 2 <= slen c) by zdiv.
  unfold hex_pair, str_slice.
  replace ((0 <=? 2 * k) && (2 * k <=? 2 * k + 2) && (2 * k + 2 <=? slen c)) with true by lia.
  rewrite !ascii_boundary by (done || lia). cbn [andb bind].
  apply safe_map_err, from_str_radix_safe.
Qed.

Lemma parse_control_cmd_safe line : safe (parse_control_cmd line).
Proof.
  unfold parse_control_cmd. apply safe_bind; [apply safe_ok_or|]. intros cmd _.
  repeat (match goal with |- safe (if ?b then _ else _) => destruct b end; try done);
    repeat (apply safe_bind; [apply safe_ok_or|intros]); done.
Qed.

Lemma parse_serve_cmd_safe line : ascii_only line -> safe (parse_serve_cmd line).
Proof.
  intros Hl. unfold parse_serve_cmd, field_u16.
  apply safe_bind; [apply safe_ok_or|]. intros id _.
  apply safe_bind; [apply safe_ok_or|]. intros cmd _.
  repeat (match goal with |- safe (if ?b then _ else _) => destruct b end; try done).
  - repeat (apply safe_bind; [apply safe_ok_or|intros]); done.
  - apply safe_bind; [apply safe_ok_or|]. intros hex Hh.
    repeat (apply safe_bind; [apply safe_ok_or|intros]).
    apply safe_bind; [|done]. apply parse_hex_safe.
    destruct (json_field_str line "hex") as [h|] eqn:E; cbn in Hh; [|done]. injection Hh as <-.
    by eapply all_field_str.
Qed.

(** The line of an example with single quotes for double ones. *)
Definition dq (s : string) : string := smap (fun c => if Ascii.eqb c "'"%char then chr 34 else c) s.

(** One line of stdin can end the process without the commanded shutdown.
    No line of ASCII text panics the parser, whatever its shape; but a short,
    valid UTF-8 line whose hex field holds a two-byte character across a digit
    pair makes [parse_hex] slice inside the character.  The panic unwinds the
    session loop, which runs the command parser for read-only sessions too. *)
Theorem serve_line_panics :
  (forall line, ascii_only line -> safe (parse_serve_line line)) /\
  (forall line, safe (parse_control_cmd line)) /\
  exists line, utf8_valid (str_bytes line) = true /\ slen line < MAX_STDIN_LINE /\
    json_field_str line "cmd" = Some "write" /\ parse_serve_line line = Panic.
Proof.
  split_and!.
  - intros line Hl. unfold parse_serve_line.
    assert (Hr : safe (let? c := parse_serve_cmd line in Ok (Rpc c)))
      by (apply safe_bind; [by apply parse_serve_cmd_safe|done]).
    destruct (json_field_str line "cmd") as [cmd|]; [|done].
    destruct (_ && _); [done|]. destruct (existsb _ _); [|done].
    apply safe_bind; [apply parse_control_cmd_safe|done].
  - apply parse_control_cmd_safe.
  - exists (dq "{'id':1,'cmd':'write','index':1,'slot':1,'subslot':1,'hex':'aé1'}").
    split_and!; vm_compute; reflexivity.
Qed.

(** ** Print and parse *)

(** What a client writes: an object of numbers, texts and booleans. *)
Inductive fval := FNum (v : Z) | FText (s : string) | FBool (b : bool).

Definition val_text (v : fval) : string :=
  match v with
  | FNum v => dec v
  | FText s => quote +:+ s +:+ quote
  | FBool b => if b then "true" else "false"
  end.
Definition field_text (k : string) (v : fval) : string := quote +:+ k +:+ quote +:+ ":" +:+ val_text v.
Fixpoint fields_text (l : list (string * fval)) : string :=
  match l with
  | [] => "}"
  | (k, v) :: l => "," +:+ field_text k v +:+ fields_text l
  end.
Definition object_text (l : list (string * fval)) : string :=
  match l with
  | [] => "{}"
  | (k, v) :: l => "{" +:+ field_text k v +:+ fields_text l
  end.

Definition word_char (c : ascii) : bool := is_alnum c || Ascii.eqb c "_"%char.
Definition word (s : string) : bool := sforall word_char s.
Definition no_quote (s : string) : bool := sforall (fun c => negb (Ascii.eqb c (chr 34))) s.

Lemma word_no_quote s : word s = true -> no_quote s = true.
Proof.
  unfold word, no_quote. induction s as [|c s IH]; [done|]. cbn. intros [Hc Hs]%andb_prop.
  rewrite IH by done. rewrite andb_true_r. destruct (Ascii.eqb_spec c (chr 34)) as [->|]; [|done].
  by vm_compute in Hc.
Qed.

Lemma after_cons p c s : strip_prefix p (String c s) = None -> after p (String c s) = after p s.
Proof.
  intros H. unfold after. cbn [split_once]. rewrite H. by destruct (split_once p s) as [[a b]|].
Qed.

Lemma after_hit p s : after p (p +:+ s) = Some s.
Proof.
  unfold after. destruct (p +:+ s) eqn:E; cbn [split_once]; rewrite <- E, strip_prefix_app; done.
Qed.

Lemma after_skip k a s :
  no_quote a = true -> after (quote +:+ k) (a +:+ s) = after (quote +:+ k) s.
Proof.
  induction a as [|c a IH]; [done|]. unfold no_quote. cbn [sforall]. intros [Hc Ha]%andb_prop.
  change (String c a +:+ s) with (String c (a +:+ s)). rewrite after_cons; [by apply IH|].
  change (quote +:+ k) with (String (chr 34) k). cbn [strip_prefix].
  destruct (Ascii.eqb_spec (chr 34) c) as [<-|]; [|done]. by rewrite Ascii.eqb_refl in Hc.
Qed.

(** Two different words differ before the closing quote. *)
Lemma words_differ k k' t :
  word k = true -> word k' = true -> k <> k' -> strip_prefix (k +:+ quote) (k' +:+ quote +:+ t) = None.
Proof.
  assert (Hq : forall c, word_char c = true -> Ascii.eqb (chr 34) c = false /\ Ascii.eqb c (chr 34) = false).
  { intros c Hc. split;
      [destruct (Ascii.eqb_spec (chr 34) c) as [<-|]|destruct (Ascii.eqb_spec c (chr 34)) as [->|]];
      try done; by vm_compute in Hc. }
  revert k'. induction k as [|c k IH]; intros k' Hk Hk' Hne.
  - destruct k' as [|d k']; [done|]. change (EmptyString +:+ quote) with (String (chr 34) EmptyString).
    change (String d k' +:+ quote +:+ t) with (String d (k' +:+ quote +:+ t)). cbn [strip_prefix].
    unfold word in Hk'. cbn [sforall] in Hk'. apply andb_prop in Hk' as [Hd _]. by rewrite (proj1 (Hq d Hd)).
  - unfold word in Hk. cbn [sforall] in Hk. apply andb_prop in Hk as [Hc Hk].
    change (String c k +:+ quote) with (String c (k +:+ quote)).
    destruct k' as [|d k'].
    + change (EmptyString +:+ quote +:+ t) with (String (chr 34) t). cbn [strip_prefix].
      by rewrite (proj2 (Hq c Hc)).
    + change (String d k' +:+ quote +:+ t) with (String d (k' +:+ quote +:+ t)). cbn [strip_prefix].
      destruct (Ascii.eqb_spec c d) as [->|]; [|done].
      unfold word in Hk'. cbn [sforall] in Hk'. apply andb_prop in Hk' as [_ Hk'].
      apply IH; [done|done|congruence].
Qed.

(** Behind a word that is not the key, the search goes on. *)
Definition sep_char (c : ascii) : bool := existsb (Ascii.eqb c) [","%char; "}"%char; ":"%char].

Lemma after_other k k' c t :
  word k = true -> k <> EmptyString -> word k' = true -> k <> k' -> sep_char c = true ->
  after (quote +:+ k +:+ quote) (quote +:+ k' +:+ quote +:+ String c t) =
  after (quote +:+ k +:+ quote) (String c t).
Proof.
  intros Hk Hne Hk' Hd Hc.
  change (quote +:+ k' +:+ quote +:+ String c t) with (String (chr 34) (k' +:+ quote +:+ String c t)).
  rewrite after_cons.
  2: { change (quote +:+ k +:+ quote) with (String (chr 34) (k +:+ quote)). cbn [strip_prefix].
       rewrite Ascii.eqb_refl. by apply words_differ. }
  rewrite after_skip by by apply word_no_quote.
  change (quote +:+ String c t) with (String (chr 34) (String c t)). apply after_cons.
  change (quote +:+ k +:+ quote) with (String (chr 34) (k +:+ quote)). cbn [strip_prefix].
  rewrite Ascii.eqb_refl. destruct k as [|d k]; [done|].
  change (String d k +:+ quote) with (String d (k +:+ quote)). cbn [strip_prefix].
  destruct (Ascii.eqb_spec d c) as [->|]; [|done].
  unfold word in Hk. cbn [sforall] in Hk. apply andb_prop in Hk as [Hk _].
  unfold sep_char in Hc. cbn in Hc. exfalso.
  destruct (Ascii.eqb_spec c ","%char) as [->|]; [by vm_compute in Hk|].
  destruct (Ascii.eqb_spec c "}"%char) as [->|]; [by vm_compute in Hk|].
  destruct (Ascii.eqb_spec c ":"%char) as [->|]; [by vm_compute in Hk|done].
Qed.

(** A value is well formed, and none of its text is [key]. *)
Definition val_ok (key : string) (v : fval) : Prop :=
  match v with
  | FNum n => 0 <= n < 10 ^ 64
  | FText s => word s = true /\ s <> key
  | FBool _ => True
  end.

Lemma dec_no_quote n : 0 <= n < 10 ^ 64 -> no_quote (dec n) = true.
Proof.
  intros Hn. destruct (dec_shape n Hn) as (c & s & -> & H). revert H. generalize (String c s) as l.
  clear. induction l as [|c s IH]; [done|]. unfold no_quote in *. cbn [sforall]. intros [Hc Hs]%andb_prop.
  rewrite IH by done. rewrite andb_true_r. destruct (Ascii.eqb_spec c (chr 34)) as [->|]; [|done].
  by vm_compute in Hc.
Qed.

Lemma after_value key v c t :
  word key = true -> key <> EmptyString -> val_ok key v -> sep_char c = true ->
  after (quote +:+ key +:+ quote) (val_text v +:+ String c t) =
  after (quote +:+ key +:+ quote) (String c t).
Proof.
  intros Hk Hne Hv Hc. destruct v as [n|s|b]; cbn [val_text val_ok] in *.
  - by apply after_skip, dec_no_quote.
  - destruct Hv. rewrite !app_assoc_s. by apply after_other.
  - destruct b; by apply after_skip.
Qed.

Lemma after_field key k v c t :
  word key = true -> key <> EmptyString -> word k = true -> key <> k -> val_ok key v ->
  sep_char c = true ->
  after (quote +:+ key +:+ quote) (field_text k v +:+ String c t) =
  after (quote +:+ key +:+ quote) (String c t).
Proof.
  intros. unfold field_text. rewrite !app_assoc_s. change (":" +:+ ?x) with (String ":" x).
  rewrite after_other by done.
  rewrite after_cons by (change (quote +:+ key +:+ quote) with (String (chr 34) (key +:+ quote)); done).
  by apply after_value.
Qed.

Lemma fields_sep l : exists c t, fields_text l = String c t /\ sep_char c = true.
Proof. destruct l as [|[k v] l]; eexists _, _; split; try reflexivity; done. Qed.

(** [l] has a field [key] with value [v], and [rest] behind it; the fields
    before it do not mention [key]. *)
Fixpoint reaches (key : string) (l : list (string * fval)) (v : fval) (rest : list (string * fval)) : Prop :=
  match l with
  | [] => False
  | (k, v') :: l =>
      if String.eqb k key then v' = v /\ l = rest
      else word k = true /\ val_ok key v' /\ reaches key l v rest
  end.

Fixpoint absent (key : string) (l : list (string * fval)) : Prop :=
  match l with
  | [] => True
  | (k, v) :: l => key <> k /\ word k = true /\ val_ok key v /\ absent key l
  end.

Lemma comma_after key t :
  after (quote +:+ key +:+ quote) ("," +:+ t) = after (quote +:+ key +:+ quote) t.
Proof.
  change ("," +:+ t) with (String "," t).
  by rewrite after_cons by (change (quote +:+ key +:+ quote) with (String (chr 34) (key +:+ quote)); done).
Qed.

Lemma after_fields key v l rest :
  word key = true -> key <> EmptyString -> reaches key l v rest ->
  after (quote +:+ key +:+ quote) (fields_text l) = Some (":" +:+ val_text v +:+ fields_text rest).
Proof.
  intros Hk Hne. induction l as [|[k v'] l IH]; cbn [reaches]; [done|].
  intros H. cbn [fields_text]. rewrite comma_after.
  destruct (String.eqb_spec k key) as [->|Hd].
  - destruct H as [-> ->]. unfold field_text. rewrite !app_assoc_s.
    replace (quote +:+ key +:+ quote +:+ ":" +:+ val_text v +:+ fields_text rest)
      with ((quote +:+ key +:+ quote) +:+ (":" +:+ val_text v +:+ fields_text rest)) by by rewrite !app_assoc_s.
    apply after_hit.
  - destruct H as (H1 & H2 & H3). destruct (fields_sep l) as (c & t & E & Hc). rewrite E in *.
    rewrite after_field; auto.
Qed.

Lemma after_absent key l :
  word key = true -> key <> EmptyString -> absent key l ->
  after (quote +:+ key +:+ quote) (fields_text l) = None.
Proof.
  intros Hk Hne. induction l as [|[k v] l IH]; cbn [absent].
  - intros _. change (quote +:+ key +:+ quote) with (String (chr 34) (key +:+ quote)).
    cbn [fields_text]. change "}" with (String "}" EmptyString). by rewrite after_cons.
  - intros (H1 & H2 & H3 & H4). cbn [fields_text]. rewrite comma_after.
    destruct (fields_sep l) as (c & t & E & Hc). rewrite E in *. rewrite after_field; auto.
Qed.

(** An object starts like its fields, with a brace for the comma. *)
Lemma after_object key l :
  after (quote +:+ key +:+ quote) (object_text l) = after (quote +:+ key +:+ quote) (fields_text l).
Proof.
  change (quote +:+ key +:+ quote) with (String (chr 34) (key +:+ quote)).
  destruct l as [|[k v] l]; cbn [object_text fields_text].
  - by rewrite !after_cons.
  - change ("," +:+ ?x) with (String "," x). change ("{" +:+ ?x) with (String "{" x).
    by rewrite !after_cons.
Qed.

Lemma trim_id c s : ord c < 128 -> is_space c = false -> trim_start_ (String c s) = String c s.
Proof.
  intros Ho Hs. unfold trim_start_. cbn [String.length trim_start_n].
  assert (strip_space (String c s) = None) as ->; [|done].
  unfold strip_space. rewrite Hs. clear Hs. revert Ho.
  destruct c as [[] [] [] [] [] [] [] []]; intros Ho; (vm_compute in Ho; done) || reflexivity.
Qed.

Lemma digit_plain c : is_digit c = true -> ord c < 128 /\ is_space c = false /\ is_alnum c = true /\ Ascii.eqb (chr 34) c = false.
Proof. destruct c as [[] [] [] [] [] [] [] []]; intros H; (vm_compute in H; done) || (by vm_compute). Qed.

(** The value text starts with a visible character. *)
Lemma trim_value v t :
  (match v with FNum n => 0 <= n < 10 ^ 64 | _ => True end) ->
  trim_start_ (val_text v +:+ t) = val_text v +:+ t.
Proof.
  destruct v as [n|s|[]]; intros Hn; cbn [val_text]; try (by apply trim_id).
  destruct (dec_shape n Hn) as (c & s & -> & [Hc _]%andb_prop).
  destruct (digit_plain c Hc) as (? & ? & _). rewrite app_String. by apply trim_id.
Qed.

Section Object.
Context (l : list (string * fval)) (key : string) (v : fval) (rest : list (string * fval)).
Context (Hk : word key = true) (Hne : key <> EmptyString) (Hr : reaches key l v rest).

Lemma raw_object :
  (match v with FNum n => 0 <= n < 10 ^ 64 | _ => True end) ->
  json_field_raw (object_text l) key = Some (val_text v +:+ fields_text rest).
Proof using Hk Hne Hr.
  intros Hv. unfold json_field_raw. rewrite after_object, (after_fields _ v l rest) by done.
  rewrite (trim_id ":"%char _ eq_refl eq_refl : trim_start_ (":" +:+ _) = ":" +:+ _).
  rewrite strip_prefix_app.
  change (Some (trim_start_ (val_text v +:+ fields_text rest)) = Some (val_text v +:+ fields_text rest)).
  by rewrite trim_value.
Qed.

Lemma take_digits s c t :
  sforall is_digit s = true -> is_alnum c = false -> take_while is_alnum (s +:+ String c t) = s.
Proof.
  induction s as [|d s IH]; cbn [sforall].
  - intros _ Hc. change (EmptyString +:+ String c t) with (String c t). cbn [take_while]. by rewrite Hc.
  - intros [Hd Hs]%andb_prop Hc. rewrite app_String. cbn [take_while].
    destruct (digit_plain d Hd) as (_ & _ & -> & _). by rewrite IH.
Qed.

Lemma no_0x s : sforall is_digit s = true -> strip_0x s = None.
Proof.
  intros H. unfold strip_0x. destruct s as [|c [|d s]]; [done| |].
  - cbn [strip_prefix]. by destruct (Ascii.eqb "0" c).
  - cbn [sforall] in H. apply andb_prop in H as [_ [Hd _]%andb_prop]. cbn [strip_prefix].
    destruct (Ascii.eqb_spec "0" c); [|done].
    destruct (Ascii.eqb_spec "x"%char d) as [<-|]; [by vm_compute in Hd|].
    destruct (Ascii.eqb_spec "X"%char d) as [<-|]; [by vm_compute in Hd|done].
Qed.

Lemma uint_object max n :
  v = FNum n -> 0 <= n <= max -> max < 10 ^ 64 ->
  json_field_uint max (object_text l) key = Some n.
Proof using Hk Hne Hr.
  intros Hv Hn Hm. unfold json_field_uint. rewrite raw_object by (rewrite Hv; lia).
  rewrite trim_value by (rewrite Hv; lia). rewrite Hv. cbn [val_text].
  destruct (dec_shape n ltac:(lia)) as (c & s & E & Hs).
  destruct (fields_sep rest) as (sc & t & -> & Hc).
  assert (strip_prefix quote (dec n +:+ String sc t) = None) as ->.
  { rewrite E, app_String. apply andb_prop in Hs as [Hd _]. unfold quote. cbn [strip_prefix].
    by destruct (digit_plain c Hd) as (_ & _ & _ & ->). }
  cbn [default]. rewrite take_digits; [|by rewrite E|].
  - unfold number. rewrite no_0x by by rewrite E. by rewrite from_str_radix_dec by lia.
  - unfold sep_char in Hc. cbn in Hc.
    destruct (Ascii.eqb_spec sc ","%char) as [->|]; [done|].
    destruct (Ascii.eqb_spec sc "}"%char) as [->|]; [done|].
    by destruct (Ascii.eqb_spec sc ":"%char) as [->|].
Qed.

Lemma split_once_word s t : no_quote s = true -> split_once quote (s +:+ quote +:+ t) = Some (s, t).
Proof.
  unfold no_quote. induction s as [|c s IH]; cbn [sforall].
  - intros _. change (EmptyString +:+ quote +:+ t) with (String (chr 34) t). reflexivity.
  - intros [Hc Hs]%andb_prop. rewrite app_String. cbn [split_once]. unfold quote at 1. cbn [strip_prefix].
    destruct (Ascii.eqb_spec (chr 34) c) as [<-|]; [by rewrite Ascii.eqb_refl in Hc|]. by rewrite IH.
Qed.

Lemma str_object s : v = FText s -> word s = true -> json_field_str (object_text l) key = Some s.
Proof using Hk Hne Hr.
  intros Hv Hs. unfold json_field_str. rewrite raw_object by by rewrite Hv. rewrite Hv. cbn [val_text].
  rewrite !app_assoc_s, strip_prefix_app, split_once_word by by apply word_no_quote. done.
Qed.

Lemma bool_object b : v = FBool b -> json_field_bool (object_text l) key = Some b.
Proof using Hk Hne Hr.
  intros Hv. unfold json_field_bool. rewrite raw_object by by rewrite Hv. rewrite Hv. by destruct b.
Qed.

End Object.

(** ** Hex text *)

Lemma hex_encode_cons b d : hex_encode (b :: d) = hexl 2 b +:+ hex_encode d.
Proof.
  destruct d as [|c d]; [|done]. change (hexl 2 b = hexl 2 b +:+ EmptyString).
  induction (hexl 2 b) as [|x s IH]; [done|]. rewrite app_String. by f_equal.
Qed.

Lemma hex_encode_app a b : hex_encode (a ++ b) = hex_encode a +:+ hex_encode b.
Proof.
  induction a as [|x a IH]; [done|]. cbn [app]. by rewrite !hex_encode_cons, IH, app_assoc_s.
Qed.

(** Every byte: two lower-case hex digits that read back. *)
Lemma hex_byte b : byte_ok b ->
  (slen (hexl 2 b) =? 2) && sforall is_hexdigit (hexl 2 b) &&
  (match from_str_radix 16 255 (hexl 2 b) with Ok v => v =? b | _ => false end) = true.
Proof.
  apply (byte_ind (fun b =>
    (slen (hexl 2 b) =? 2) && sforall is_hexdigit (hexl 2 b) &&
    (match from_str_radix 16 255 (hexl 2 b) with Ok v => v =? b | _ => false end))).
  vm_compute. reflexivity.
Qed.

Lemma hex_encode_shape d : bytes_ok d ->
  slen (hex_encode d) = 2 * len d /\ sforall is_hexdigit (hex_encode d) = true.
Proof.
  induction 1 as [|b d Hb Hd [IH1 IH2]]; [done|]. rewrite hex_encode_cons, slen_app, sforall_app, IH1, IH2.
  pose proof (hex_byte b Hb) as H. rewrite !andb_true_iff in H. destruct H as [[H1 H2] _].
  rewrite H2. cbn [length]. split; [lia|done].
Qed.

Lemma hexdigit_plain c : is_hexdigit c = true -> word_char c && negb (is_space c) && (ord c <? 128) = true.
Proof. destruct c as [[] [] [] [] [] [] [] []]; intros H; (vm_compute in H; done) || (by vm_compute). Qed.

Lemma remove_spaces_id s : sforall (fun c => negb (is_space c) && (ord c <? 128)) s = true -> remove_spaces s = s.
Proof.
  unfold remove_spaces. generalize (le_n (String.length s)). generalize (String.length s) at 2 3 as n.
  intros n. revert s. induction n as [|n IH]; intros s Hn Hs; [done|]. cbn [remove_spaces_n].
  destruct s as [|c s]; [done|]. cbn [sforall] in Hs. apply andb_prop in Hs as [Hc Hs].
  assert (strip_space (String c s) = None) as ->.
  { pose proof (trim_id c s ltac:(lia) ltac:(by destruct (is_space c))) as Ht. unfold trim_start_ in Ht.
    cbn [String.length trim_start_n] in Ht. destruct (strip_space (String c s)) as [t|] eqn:E; [|done].
    exfalso. clear -E Hc. unfold strip_space in E. destruct (is_space c); [done|]. cbn [negb andb] in Hc. revert Hc E.
    destruct c as [[] [] [] [] [] [] [] []]; intros Hc; (vm_compute in Hc; done) || (cbv; done). }
  cbn in Hn. by rewrite IH by (done || lia).
Qed.

Lemma hex_pair_at s pre b d :
  bytes_ok pre -> byte_ok b -> bytes_ok d -> hex_pair s (hex_encode (pre ++ b :: d)) (2 * len pre) = Ok b.
Proof.
  intros Hp Hb Hd.
  assert (Hall : bytes_ok (pre ++ b :: d)) by (apply Forall_app; split; [done|by constructor]).
  destruct (hex_encode_shape _ Hall) as [Hl Hx]. rewrite length_app in Hl. cbn [length] in Hl.
  assert (Ha : ascii_only (hex_encode (pre ++ b :: d))).
  { eapply sforall_mono; [|exact Hx]. intros c Hc. pose proof (hexdigit_plain c Hc). lia. }
  unfold hex_pair, str_slice. rewrite !ascii_boundary by (done || lia).
  replace ((0 <=? 2 * len pre) && (2 * len pre <=? 2 * len pre + 2)
           && (2 * len pre + 2 <=? slen (hex_encode (pre ++ b :: d)))) with true by lia.
  cbn [andb bind]. rewrite hex_encode_app, hex_encode_cons.
  destruct (hex_encode_shape pre Hp) as [Hlp _].
  pose proof (hex_byte b Hb) as H. rewrite !andb_true_iff in H. destruct H as [[H1 _] H3].
  replace (Z.to_nat (2 * len pre)) with (String.length (hex_encode pre)) by (unfold slen in *; lia).
  replace (Z.to_nat (2 * len pre + 2 - 2 * len pre)) with (String.length (hexl 2 b)) by (unfold slen in *; lia).
  rewrite substring_mid. destruct (from_str_radix 16 255 (hexl 2 b)) as [v| | |]; try done.
  cbn [map_err bind]. by apply Z.eqb_eq in H3 as ->.
Qed.

Lemma hex_pairs s pre d :
  bytes_ok pre -> bytes_ok d ->
  map_result (hex_pair s (hex_encode (pre ++ d))) ((fun k => 2 * k) <$> seqZ (len pre) (len d)) = Ok d.
Proof.
  intros Hp Hd. revert pre Hp. induction Hd as [|b d Hb Hd IH]; intros pre Hp; [done|].
  rewrite seqZ_cons by (cbn; lia). rewrite fmap_cons.
  specialize (IH (pre ++ [b]) ltac:(apply Forall_app; split; [done|by constructor])).
  rewrite <- app_assoc in IH. cbn [app] in IH. rewrite length_app in IH. cbn [length] in IH |- *.
  replace (Z.succ (len pre)) with (Z.of_nat (length pre + 1)) by lia.
  replace (Z.pred (Z.of_nat (S (length d)))) with (len d) by lia.
  rewrite map_result_cons, hex_pair_at by done. cbn [bind]. by rewrite IH.
Qed.

Lemma parse_hex_encode d : bytes_ok d -> parse_hex (hex_encode d) = Ok d.
Proof.
  intros Hd. destruct (hex_encode_shape d Hd) as [Hl Hx]. unfold parse_hex.
  rewrite remove_spaces_id by
    (eapply sforall_mono; [|exact Hx]; intros c Hc; pose proof (hexdigit_plain c Hc); lia).
  rewrite Hl. replace (2 * len d mod 2 =? 0) with true by zdiv. cbn [negb]. unfold evens.
  replace ((2 * len d + 1) / 2) with (len d) by zdiv.
  apply (hex_pairs (hex_encode d) []); [by constructor|done].
Qed.

(** ** The two vocabularies read back *)

Definition serve_line_text (c : ServeLine) : string :=
  object_text match c with
  | Rpc (Read id index slot subslot n) =>
      [("id", FNum id); ("cmd", FText "read"); ("index", FNum index); ("slot", FNum slot);
       ("subslot", FNum subslot); ("len", FNum n)]
  | Rpc (Write id index slot subslot d) =>
      [("id", FNum id); ("cmd", FText "write"); ("index", FNum index); ("slot", FNum slot);
       ("subslot", FNum subslot); ("hex", FText (hex_encode d))]
  | Rpc (Ping id) => [("id", FNum id); ("cmd", FText "ping")]
  | Rpc (Quit id) => [("id", FNum id); ("cmd", FText "quit")]
  | Control (SetLevel mask on) => [("cmd", FText "set_level"); ("mask", FNum mask); ("on", FBool on)]
  | Control (Pulse mask) => [("cmd", FText "pulse"); ("mask", FNum mask)]
  | Control Keepalive => [("cmd", FText "keepalive")]
  | Control CQuit => [("cmd", FText "quit")]
  end.

Definition u64_ok (v : Z) : Prop := 0 <= v <= U64_MAX.

(** The ranges of the fields' types. *)
Definition serve_line_ok (c : ServeLine) : Prop :=
  match c with
  | Rpc (Read id index slot subslot n) => u64_ok id /\ u16_ok index /\ u16_ok slot /\ u16_ok subslot /\ u32_ok n
  | Rpc (Write id index slot subslot d) => u64_ok id /\ u16_ok index /\ u16_ok slot /\ u16_ok subslot /\ bytes_ok d
  | Rpc (Ping id) | Rpc (Quit id) => u64_ok id
  | Control (SetLevel mask _) | Control (Pulse mask) => byte_ok mask
  | Control Keepalive | Control CQuit => True
  end.

Lemma uint_read l key n rest max :
  word key = true -> key <> EmptyString -> reaches key l (FNum n) rest ->
  0 <= n <= max -> max < 10 ^ 64 -> json_field_uint max (object_text l) key = Some n.
Proof. intros. by apply (uint_object l key (FNum n) rest). Qed.

Lemma str_read l key s rest :
  word key = true -> key <> EmptyString -> reaches key l (FText s) rest -> word s = true ->
  json_field_str (object_text l) key = Some s.
Proof. intros. by apply (str_object l key (FText s) rest). Qed.

Lemma u64_read l key n rest :
  word key = true -> key <> EmptyString -> reaches key l (FNum n) rest -> 0 <= n <= U64_MAX ->
  json_field_u64 (object_text l) key = Some n.
Proof. intros. by eapply uint_read. Qed.

Lemma absent_u64 l key :
  word key = true -> key <> EmptyString -> absent key l -> json_field_u64 (object_text l) key = None.
Proof.
  intros. unfold json_field_u64, json_field_uint, json_field_raw.
  by rewrite after_object, after_absent.
Qed.

(** The fields the parser looks up in the printed line. *)
Ltac rd := unfold U64_MAX, u16_ok; cbn; repeat split; first [done | lia].
Ltac simp_cmd := cbn [String.eqb Ascii.eqb Bool.eqb andb orb existsb ok_or bind].
Ltac text k v := erewrite (str_read _ k v) by rd; simp_cmd.
Ltac num k v := erewrite (u64_read _ k v) by rd; simp_cmd.

Lemma field_u16_read l cmd k v rest :
  word k = true -> k <> EmptyString -> reaches k l (FNum v) rest -> u16_ok v ->
  field_u16 (object_text l) cmd k = Ok v.
Proof.
  unfold u16_ok. intros. unfold field_u16, try_from.
  rewrite (u64_read l k v rest) by (done || (unfold U64_MAX; lia)).
  by replace (v <=? 65535) with true by lia.
Qed.

(** C31: What a client writes is what the session executes.  The JSON line of
    any request or control command (every id up to 2^64, every address, any
    payload as hex) is parsed back to exactly that command, in its own
    vocabulary: a [quit] with an id is the request, without one the control
    command. *)
Theorem commands_roundtrip c :
  serve_line_ok c -> parse_serve_line (serve_line_text c) = Ok c.
Proof.
  destruct c as [[id index slot subslot n|id index slot subslot d|id|id]|[mask on|mask| |]];
    unfold serve_line_ok, u64_ok, u16_ok, u32_ok, byte_ok, U64_MAX; intros H;
    unfold serve_line_text, parse_serve_line, parse_serve_cmd, parse_control_cmd, try_from.
  - text "cmd" "read". num "id" id.
    erewrite (field_u16_read _ _ "index" index), (field_u16_read _ _ "slot" slot),
      (field_u16_read _ _ "subslot" subslot) by rd. simp_cmd. num "len" n.
    by replace (n <=? 4294967295) with true by lia.
  - text "cmd" "write". num "id" id. destruct (hex_encode_shape d ltac:(tauto)) as [_ Hx].
    assert (Hw : word (hex_encode d) = true).
    { eapply sforall_mono; [|exact Hx]. intros c Hc. pose proof (hexdigit_plain c Hc) as Hp.
      rewrite !andb_true_iff in Hp. tauto. }
    erewrite (str_read _ "hex" (hex_encode d)) by rd. simp_cmd.
    erewrite (field_u16_read _ _ "index" index), (field_u16_read _ _ "slot" slot),
      (field_u16_read _ _ "subslot" subslot) by rd. simp_cmd.
    by rewrite parse_hex_encode by tauto.
  - text "cmd" "ping". by num "id" id.
  - text "cmd" "quit". by num "id" id.
  - text "cmd" "set_level". unfold json_field_u8. erewrite (uint_read _ "mask" mask) by rd.
    erewrite (bool_object _ "on" (FBool on)) by rd. done.
  - text "cmd" "pulse". unfold json_field_u8. by erewrite (uint_read _ "mask" mask) by rd.
  - by text "cmd" "keepalive".
  - text "cmd" "quit". by erewrite (absent_u64 _ "id") by rd.
Qed.

Lemma commands_roundtrip_witness :
  serve_line_ok (Rpc (Write 7 0x8029 1 2 [0; 255])) /\
  parse_serve_line (serve_line_text (Rpc (Write 7 0x8029 1 2 [0; 255]))) = Ok (Rpc (Write 7 0x8029 1 2 [0; 255])).
Proof.
  assert (H : serve_line_ok (Rpc (Write 7 0x8029 1 2 [0; 255]))).
  { split_and!; try (vm_compute; split; congruence). apply (bool_decide_unpack _); vm_compute; exact I. }
  split; [exact H|exact (commands_roundtrip _ H)].
Defined.

Lemma stdin_line_by_line_witness :
  (0 < 8)%nat /\ stdin_lines 40 8 (str_bytes "ping" ++ [10] ++ str_bytes "0123456789abcdefquit" ++ [10] ++ str_bytes "bye" ++ [13; 10])
    = Ok [Line "ping"; TooLong; Line "bye"].
Proof.
  split; [lia|].
  pose proof (stdin_line_by_line 8 (str_bytes "ping" ++ [10] ++ str_bytes "0123456789abcdefquit" ++ [10]
    ++ str_bytes "bye" ++ [13; 10]) ltac:(lia)) as H.
  vm_compute in H. vm_compute. exact H.
Defined.
