(* ===== verification/Control.v ===== *)
(** * The output command layer of the service mode ([src/src/bin/profinet.rs])

    The driven output byte: held level bits and shaped edge pulses, bounded by
    an allow mask; the policies of the shutdown; what is read out of the
    device's own records of its input and output image. *)

From S2P Require Import Prelude Fmt Rt Transport Lines Commands.
From S2P Require Cyclic.

#[local] Open Scope string_scope.
#[local] Open Scope list_scope.
#[local] Open Scope Z_scope.

Definition SAFE_OUTPUT_BYTE : Z := 0x00.
Definition PULSE_COOLDOWN_TICKS : Z := 3.
(** 5 s, in microseconds. *)
Definition CONTROL_DEADMAN : Z := 5000000.

(** [!m] of a byte. *)
Definition not8 (m : Z) : Z := Z.lxor m 0xFF.

(** ** Edge pulses *)

Record EdgePulse := mkPulse { remaining : Z; cooldown : Z }.

Definition pulse_default : EdgePulse := mkPulse 0 0.

(** [trigger]: a refusal leaves the shaper as it is. *)
Definition trigger (p : EdgePulse) : EdgePulse * option string :=
  if 0 <? remaining p then (p, Some "pulse already active")
  else if 0 <? cooldown p then (p, Some "pulse cooling down")
  else (mkPulse PULSE_TICKS (cooldown p), None).

Definition active (p : EdgePulse) : bool := 0 <? remaining p.

(** [EdgePulse::tick]: one period each, until nothing is left to count. *)
Fixpoint pulse_tick (periods : nat) (p : EdgePulse) : EdgePulse :=
  match periods with
  | O => p
  | S n =>
      if 0 <? remaining p then
        let r := remaining p - 1 in
        pulse_tick n (mkPulse r (if r =? 0 then PULSE_COOLDOWN_TICKS else cooldown p))
      else if 0 <? cooldown p then pulse_tick n (mkPulse (remaining p) (cooldown p - 1))
      else p
  end.

(** ** The output byte *)

Record ControlState := mkControl { level : Z; pulses : list (Z * EdgePulse) }.

Definition control_default : ControlState := mkControl 0 [].

Definition effective (s : ControlState) : Z :=
  foldl (fun acc e => Z.lor acc (fst e)) (level s) (filter (fun e => active (snd e) = true) (pulses s)).

(** [iter_mut().find(..)]: the first shaper of the mask, in place. *)
Fixpoint trigger_in (mask : Z) (l : list (Z * EdgePulse)) : option (list (Z * EdgePulse) * option string) :=
  match l with
  | [] => None
  | (m, p) :: l =>
      if m =? mask then let '(p, r) := trigger p in Some ((m, p) :: l, r)
      else match trigger_in mask l with
           | Some (l, r) => Some ((m, p) :: l, r)
           | None => None
           end
  end.

Definition trigger_pulse (s : ControlState) (mask : Z) : ControlState * option string :=
  match trigger_in mask (pulses s) with
  | Some (l, r) => (mkControl (level s) l, r)
  | None =>
      match trigger pulse_default with
      | (p, None) => (mkControl (level s) (pulses s ++ [(mask, p)]), None)
      | (_, Some e) => (s, Some e)
      end
  end.

Definition tick (s : ControlState) (periods : Z) : ControlState :=
  mkControl (level s) ((fun e => (fst e, pulse_tick (Z.to_nat periods) (snd e))) <$> pulses s).

(** [apply_control_cmd]: the state, the emitted line if any, and whether the
    session ends. *)
Definition requested (cmd : ControlCmd) : option Z :=
  match cmd with
  | SetLevel mask _ | Pulse mask => Some mask
  | Keepalive | CQuit => None
  end.

Definition cmd_name (cmd : ControlCmd) : string :=
  match cmd with Pulse _ => "pulse" | _ => "set_level" end.

Definition outside (mask allow_mask : Z) : bool := negb (Z.land mask (not8 allow_mask) =? 0).

Definition run_control_cmd (cmd : ControlCmd) (s : ControlState) : ControlState * option json * bool :=
  match cmd with
  | SetLevel mask on =>
      let l := if on then Z.lor (level s) mask else Z.land (level s) (not8 mask) in
      (mkControl l (pulses s), Some (ack_set_level_line mask on l), false)
  | Pulse mask =>
      match trigger_pulse s mask with
      | (s, None) => (s, Some (ack_pulse_line mask), false)
      | (s, Some r) => (s, Some (refused_cmd_line "pulse" mask r), false)
      end
  | Keepalive => (s, Some ack_keepalive_line, false)
  | CQuit => (s, None, true)
  end.

Definition apply_control_cmd (cmd : ControlCmd) (s : ControlState) (allow_mask : Z)
    : ControlState * option json * bool :=
  match requested cmd with
  | Some mask =>
      if outside mask allow_mask then
        (s, Some (refused_cmd_line (cmd_name cmd) mask
                    ("mask has bits outside --allow-mask (0x" +:+ hexl 2 allow_mask +:+ ")")), false)
      else run_control_cmd cmd s
  | None => run_control_cmd cmd s
  end.

(** ** Policies *)

Definition should_hard_exit (already_shutting_down safe_to_hard_exit : bool) : bool :=
  already_shutting_down && safe_to_hard_exit.

Definition cyclic_abort_reason (st : Cyclic.CyclicState) (ever_faulted : bool) : option string :=
  if ever_faulted then Some "cyclic_fault"
  else match st with
       | Cyclic.Fault => Some "cyclic_fault"
       | Cyclic.Stopped => Some "cyclic_stopped"
       | _ => None
       end.

Inductive ServeStop := Reason (r : string) | ArLost (msg : string).

Definition stop_reason (s : ServeStop) : string :=
  match s with Reason r => r | ArLost _ => "ar_lost" end.
Definition exit_code (s : ServeStop) : Z :=
  match s with ArLost _ => 1 | Reason _ => 0 end.

(** ** The device's records of the process image *)

(** One of the two counted lists in front of the data. *)
Definition skip_status (record : list Z) (pos : Z) : option Z :=
  match get record pos with
  | None => None
  | Some count => Some (pos + 1 + count)
  end.

Definition parse_input_data_length (record : list Z) : option Z :=
  match skip_status record 6 with
  | None => None
  | Some pos =>
      match skip_status record pos with
      | None => None
      | Some pos =>
          match get record pos, get record (pos + 1) with
          | Some h, Some l =>
              let n := h * 256 + l in
              if len record <? pos + 2 + n then None else Some n
          | _, _ => None
          end
      end
  end.

Definition parse_output_control_byte (record : list Z) : outcome (option Z) :=
  if len record <? 12 then Ok None
  else
    let? r0 := idx record 0 in
    if negb (r0 =? 0x00) then Ok None
    else
      let? r1 := idx record 1 in
      if negb (r1 =? 0x16) then Ok None
      else
        let? len_iocs := idx record 8 in
        let? n := rd_be16 record 10 in
        if n =? 0 then Ok None else Ok (get record (12 + len_iocs)).

Definition output_substitute_active (record : list Z) : outcome bool :=
  if 8 <=? len record then let? f := rd_be16 record 6 in Ok (negb (f =? 0)) else Ok false.

(** The byte a 0x8029 record proves, judged by [is_some_and]. *)
Definition output_is_safe (record : list Z) : outcome bool :=
  let? b := parse_output_control_byte record in
  Ok (match b with Some b => b =? SAFE_OUTPUT_BYTE | None => false end).

(** The safe-shutdown verification: our own image, and it is the safe one. *)
Definition proves_safe (record : list Z) : outcome bool :=
  let? sub := output_substitute_active record in
  if sub then Ok false else output_is_safe record.

(** ** Errors of a request *)

Definition PNIO_BUSY_STATUS : string := "DE80C200".

Definition is_transport_failure (msg : string) : bool := negb (contains "PNIO error status" msg).

Definition pnio_status_of (msg : string) : option string :=
  match after "PNIO error status 0x" msg with
  | None => None
  | Some rest =>
      let hex := take_while is_hexdigit rest in
      if slen hex =? 8 then Some hex else None
  end.

(** [serve_emit_error]'s line. *)
Definition serve_error_line (id host_us : Z) (msg : string) : json :=
  match pnio_status_of msg with
  | Some pnio => read_error_line id host_us pnio msg
  | None => transport_error_line id host_us msg
  end.

(** ** The allow mask *)

(** Every bit of [m] is a bit of [allow]. *)
Definition within (allow m : Z) : Prop := byte_ok m /\ forall i, Z.testbit m i = true -> Z.testbit allow i = true.

Lemma byte_testbit_high m i : byte_ok m -> 8 <= i -> Z.testbit m i = false.
Proof.
  unfold byte_ok. intros Hm Hi. apply Z.bits_above_log2; [lia|].
  destruct (decide (m = 0)) as [->|]; [change (Z.log2 0) with 0; lia|].
  apply Z.log2_lt_pow2; [lia|]. apply Z.lt_le_trans with (2 ^ 8); [lia|]. by apply Z.pow_le_mono_r.
Qed.

Lemma byte_of_bits m : 0 <= m -> (forall i, 8 <= i -> Z.testbit m i = false) -> byte_ok m.
Proof.
  intros Hm Hi. unfold byte_ok. split; [done|]. destruct (Z.lt_ge_cases m 256) as [|Hge]; [done|].
  assert (Hl : 8 <= Z.log2 m) by (apply Z.log2_le_pow2; lia).
  specialize (Hi _ Hl). rewrite Z.bit_log2 in Hi by lia. done.
Qed.

Lemma not8_testbit m i : byte_ok m -> 0 <= i < 8 -> Z.testbit (not8 m) i = negb (Z.testbit m i).
Proof.
  intros _ Hi. unfold not8. rewrite Z.lxor_spec.
  replace (Z.testbit 255 i) with true; [by destruct (Z.testbit m i)|].
  assert (H : forallb (fun i => Z.testbit 255 i) (seqZ 0 8) = true) by done.
  rewrite forallb_forall in H. symmetry. apply H, list_elem_of_In, elem_of_seqZ. lia.
Qed.

(** The guard of [apply_control_cmd]. *)
Lemma outside_within mask allow :
  byte_ok mask -> byte_ok allow -> outside mask allow = false <-> within allow mask.
Proof.
  intros Hm Ha. unfold outside. rewrite negb_false_iff, Z.eqb_eq. split.
  - intros H. split; [done|]. intros i Hi.
    destruct (decide (0 <= i < 8)) as [Hr|Hr].
    + apply (f_equal (fun z => Z.testbit z i)) in H. rewrite Z.land_spec, Hi, not8_testbit, Z.bits_0 in H by done.
      by destruct (Z.testbit allow i).
    + destruct (Z.lt_ge_cases i 0); [by rewrite Z.testbit_neg_r in Hi by lia|].
      rewrite byte_testbit_high in Hi by (done || lia). done.
  - intros [_ H]. apply Z.bits_inj'. intros i Hi. rewrite Z.land_spec, Z.bits_0.
    destruct (Z.testbit mask i) eqn:E; [|done]. specialize (H i E). cbn.
    destruct (Z.lt_ge_cases i 8); [by rewrite not8_testbit, H by (done || lia)|].
    by rewrite byte_testbit_high in E by (done || lia).
Qed.

Lemma within_lor allow a b : within allow a -> within allow b -> within allow (Z.lor a b).
Proof.
  intros [Ha1 Ha2] [Hb1 Hb2]. split.
  - apply byte_of_bits; [apply Z.lor_nonneg; unfold byte_ok in *; lia|]. intros i Hi.
    by rewrite Z.lor_spec, !byte_testbit_high by done.
  - intros i. rewrite Z.lor_spec. intros [?|?]%orb_prop; auto.
Qed.

Lemma within_land allow a b : within allow a -> within allow (Z.land a b).
Proof.
  intros [Ha1 Ha2]. split.
  - apply byte_of_bits; [apply Z.land_nonneg; unfold byte_ok in *; lia|]. intros i Hi.
    by rewrite Z.land_spec, byte_testbit_high by done.
  - intros i. rewrite Z.land_spec. intros [? _]%andb_prop; auto.
Qed.

Lemma within_0 allow : within allow 0.
Proof. split; [by unfold byte_ok|]. intros i. by rewrite Z.bits_0. Qed.

Lemma within_none m : within 0 m -> m = 0.
Proof.
  intros [_ H]. apply Z.bits_inj'. intros i _. rewrite Z.bits_0.
  destruct (Z.testbit m i) eqn:E; [|done]. specialize (H i E). by rewrite Z.bits_0 in H.
Qed.

(** ** The state invariant *)

Definition pulse_ok (p : EdgePulse) : Prop :=
  0 <= remaining p <= PULSE_TICKS /\ 0 <= cooldown p <= PULSE_COOLDOWN_TICKS /\
  (0 < remaining p -> cooldown p = 0).

Record control_ok (allow : Z) (s : ControlState) : Prop := {
  ok_level : within allow (level s);
  ok_masks : Forall (fun e => within allow (fst e) /\ pulse_ok (snd e)) (pulses s);
  ok_nodup : NoDup (fst <$> pulses s);
}.

Lemma control_default_ok allow : control_ok allow control_default.
Proof. constructor; [apply within_0|constructor|constructor]. Qed.

Lemma trigger_ok p : pulse_ok p -> pulse_ok (fst (trigger p)).
Proof.
  unfold pulse_ok, trigger. intros (H1 & H2 & H3).
  destruct (Z.ltb_spec 0 (remaining p)); [done|]. destruct (Z.ltb_spec 0 (cooldown p)); [done|].
  cbn. unfold PULSE_TICKS. lia.
Qed.

Lemma pulse_tick_ok n p : pulse_ok p -> pulse_ok (pulse_tick n p).
Proof.
  revert p. induction n as [|n IH]; intros p Hp; [done|]. cbn [pulse_tick].
  destruct Hp as (H1 & H2 & H3).
  destruct (Z.ltb_spec 0 (remaining p)).
  - apply IH. unfold pulse_ok. cbn. unfold PULSE_COOLDOWN_TICKS in *.
    destruct (Z.eqb_spec (remaining p - 1) 0); lia.
  - destruct (Z.ltb_spec 0 (cooldown p)); [|done]. apply IH. unfold pulse_ok. cbn. lia.
Qed.

Lemma trigger_in_spec mask l l' r :
  trigger_in mask l = Some (l', r) ->
  fst <$> l' = fst <$> l /\ (forall Q : Z -> EdgePulse -> Prop,
    (forall m p, Q m p -> Q m (fst (trigger p))) ->
    Forall (fun e => Q (fst e) (snd e)) l -> Forall (fun e => Q (fst e) (snd e)) l').
Proof.
  revert l'. induction l as [|[m p] l IH]; intros l'; cbn [trigger_in]; [done|].
  destruct (m =? mask).
  - destruct (trigger p) as [p' r'] eqn:E. intros [= <- <-]. split; [done|].
    intros Q HQ H. inversion H; subst. constructor; [|done]. cbn in *.
    replace p' with (fst (trigger p)) by by rewrite E. by apply HQ.
  - destruct (trigger_in mask l) as [[l1 r1]|] eqn:E; [|done]. intros [= <- <-].
    destruct (IH l1 eq_refl) as [H1 H2]. split; [cbn; by f_equal|].
    intros Q HQ H. inversion H; subst. constructor; auto.
Qed.

Lemma trigger_in_none mask l : trigger_in mask l = None -> mask ∉ (fst <$> l).
Proof.
  induction l as [|[m p] l IH]; cbn [trigger_in]; [intros _; apply not_elem_of_nil|].
  destruct (Z.eqb_spec m mask); [by destruct (trigger p)|].
  destruct (trigger_in mask l) as [[? ?]|]; [done|]. intros _.
  cbn. intros [->|H]%elem_of_cons; [done|by apply IH].
Qed.

Lemma trigger_pulse_ok allow s mask :
  within allow mask -> control_ok allow s -> control_ok allow (fst (trigger_pulse s mask)).
Proof.
  intros Hm [H1 H2 H3]. unfold trigger_pulse.
  destruct (trigger_in mask (pulses s)) as [[l r]|] eqn:E.
  - destruct (trigger_in_spec _ _ _ _ E) as [E1 E2]. constructor; cbn; [done| |by rewrite E1].
    apply (E2 (fun m p => within allow m /\ pulse_ok p)); [|done].
    intros m p [? ?]. split; [done|by apply trigger_ok].
  - cbn. constructor; cbn; [done| |].
    + apply Forall_app. split; [done|]. constructor; [|constructor]. cbn. split; [done|].
      unfold pulse_ok, PULSE_COOLDOWN_TICKS. cbn. unfold PULSE_TICKS. lia.
    + rewrite fmap_app. cbn. apply NoDup_app. split; [done|]. split; [|apply NoDup_singleton].
      intros x Hx ->%list_elem_of_singleton. by apply (trigger_in_none _ _ E).
Qed.

Lemma tick_ok allow s n : control_ok allow s -> control_ok allow (tick s n).
Proof.
  intros [H1 H2 H3]. unfold tick. constructor; cbn; [done| |].
  - apply Forall_fmap. eapply Forall_impl; [exact H2|]. intros [m p] [? ?]. cbn. split; [done|by apply pulse_tick_ok].
  - by rewrite <- list_fmap_compose.
Qed.

(** Command masks are bytes. *)
Definition cmd_ok (cmd : ControlCmd) : Prop :=
  match requested cmd with Some m => byte_ok m | None => True end.

Lemma apply_control_ok allow cmd s :
  byte_ok allow -> cmd_ok cmd -> control_ok allow s ->
  control_ok allow (fst (fst (apply_control_cmd cmd s allow))).
Proof.
  intros Ha Hc Hs. unfold apply_control_cmd, cmd_ok in *.
  destruct (requested cmd) as [m|] eqn:E; [|by destruct cmd].
  destruct (outside m allow) eqn:Ho; [done|]. apply outside_within in Ho; [|done|done].
  destruct cmd as [mask on|mask| |]; injection E as <- || discriminate; cbn [run_control_cmd].
  - destruct Hs as [H1 H2 H3]. constructor; cbn; try done.
    destruct on; [by apply within_lor|by apply within_land].
  - destruct (trigger_pulse s mask) as [s' [r|]] eqn:Et; cbn;
      replace s' with (fst (trigger_pulse s mask)) by (by rewrite Et); by apply trigger_pulse_ok.
Qed.

Lemma effective_within allow s : control_ok allow s -> within allow (effective s).
Proof.
  intros [H1 H2 _]. unfold effective.
  assert (H : Forall (fun e => within allow (fst e)) (filter (fun e => active (snd e) = true) (pulses s))).
  { apply Forall_forall. intros e [_ He]%list_elem_of_filter. rewrite Forall_forall in H2. by apply H2. }
  revert H1. generalize (level s) as a. induction H as [|e l He Hl IH]; intros a Ha; [done|].
  cbn [foldl]. apply IH. by apply within_lor.
Qed.

(** ** Runs of the layer *)

Inductive ctl_event := CmdEv (cmd : ControlCmd) | TickEv (periods : Z).

Definition ctl_step (allow : Z) (s : ControlState) (e : ctl_event) : ControlState :=
  match e with
  | CmdEv cmd => fst (fst (apply_control_cmd cmd s allow))
  | TickEv n => tick s n
  end.
Definition ctl_run (allow : Z) (es : list ctl_event) : ControlState :=
  foldl (ctl_step allow) control_default es.
Definition ctl_event_ok (e : ctl_event) : Prop :=
  match e with CmdEv cmd => cmd_ok cmd | TickEv n => 0 <= n end.

Lemma ctl_run_ok allow es : byte_ok allow -> Forall ctl_event_ok es -> control_ok allow (ctl_run allow es).
Proof.
  intros Ha. unfold ctl_run. generalize (control_default_ok allow). generalize control_default as s.
  intros s Hs H. revert s Hs. induction H as [|e es He Hes IH]; intros s Hs; [done|].
  cbn [foldl]. apply IH. destruct e; cbn; [by apply apply_control_ok|by apply tick_ok].
Qed.

(** ** Theorems: what may be driven *)

(** Nothing outside the allow mask is ever driven.  After any sequence of
    commands and elapsed periods, every bit of the byte to drive is a bit of
    [allow_mask] (so with a zero mask the image stays the safe one); a command
    that touches any other bit is refused whole, with the state unchanged and
    a refusal as its only answer. *)
Theorem outputs_stay_authorised allow es cmd m :
  byte_ok allow -> Forall ctl_event_ok es ->
  within allow (effective (ctl_run allow es)) /\
  (allow = 0 -> effective (ctl_run allow es) = SAFE_OUTPUT_BYTE) /\
  (requested cmd = Some m -> byte_ok m -> ~ within allow m ->
   exists reason, apply_control_cmd cmd (ctl_run allow es) allow =
     (ctl_run allow es, Some (refused_cmd_line (cmd_name cmd) m reason), false)).
Proof.
  intros Ha He. pose proof (effective_within _ _ (ctl_run_ok allow es Ha He)) as Hw.
  split_and!; [done| |].
  - intros ->. by apply within_none.
  - intros Hr Hm Hn. unfold apply_control_cmd. rewrite Hr.
    destruct (outside m allow) eqn:E; [eauto|]. by apply outside_within in E.
Qed.

Lemma outputs_stay_authorised_witness :
  let es := [CmdEv (SetLevel 0x04 true); CmdEv (Pulse 0x01); TickEv 1] in
  effective (ctl_run 0x05 es) = 0x05 /\ within 0x05 (effective (ctl_run 0x05 es)) /\
  exists reason, apply_control_cmd (Pulse 0x82) (ctl_run 0x05 es) 0x05 =
    (ctl_run 0x05 es, Some (refused_cmd_line "pulse" 0x82 reason), false).
Proof.
  cbv zeta. assert (Ha : byte_ok 0x05) by (unfold byte_ok; lia).
  assert (He : Forall ctl_event_ok [CmdEv (SetLevel 0x04 true); CmdEv (Pulse 0x01); TickEv 1]).
  { repeat constructor; cbn; unfold byte_ok; try lia; done. }
  split; [vm_compute; reflexivity|].
  destruct (outputs_stay_authorised 0x05 _ (Pulse 0x82) 0x82 Ha He) as (H1 & _ & H3).
  split; [exact H1|]. apply H3; [reflexivity|unfold byte_ok; lia|].
  intros [_ H]. specialize (H 1 eq_refl). by vm_compute in H.
Defined.

(** C32: The command layer is bounded.  Whatever is sent, there is one shaper
    per mask, hence at most 256 of them, and no counter ever exceeds three
    periods, so no command can keep a pulse running or grow the state. *)
Theorem shapers_bounded allow es :
  byte_ok allow -> Forall ctl_event_ok es ->
  let s := ctl_run allow es in
  (length (pulses s) <= 256)%nat /\ NoDup (fst <$> pulses s) /\
  Forall (fun e => pulse_ok (snd e)) (pulses s) /\
  effective (tick s PULSE_TICKS) = level s.
Proof.
  intros Ha He. cbv zeta. pose proof (ctl_run_ok allow es Ha He) as Hok.
  destruct Hok as [H1 H2 H3]. set (s := ctl_run allow es) in *.
  assert (Hp : Forall (fun e => pulse_ok (snd e)) (pulses s)) by
    (eapply Forall_impl; [exact H2|]; by intros e [_ ?]).
  split_and!; [|done|done|].
  - rewrite <- (length_fmap fst). change 256%nat with (length (seqZ 0 256)).
    apply NoDup_incl_length; [by apply NoDup_ListNoDup|].
    intros m Hm%list_elem_of_In. apply list_elem_of_In, elem_of_seqZ.
    apply list_elem_of_fmap in Hm as (e & -> & He'). rewrite Forall_forall in H2.
    destruct (H2 e He') as [[Hb _] _]. unfold byte_ok in Hb. lia.
  - unfold effective, tick. cbn [pulses level].
    assert (filter (fun e => active (snd e) = true)
              ((fun e => (fst e, pulse_tick (Z.to_nat PULSE_TICKS) (snd e))) <$> pulses s) = []) as ->; [|done].
    clear -Hp. induction Hp as [|[m p] l Hx Hl IH]; [done|]. rewrite fmap_cons. cbn [fst snd] in *.
    enough (E : active (pulse_tick (Z.to_nat PULSE_TICKS) p) = false).
    { rewrite filter_cons_False; [exact IH|]. cbn [snd]. by rewrite E. }
    clear IH Hl.
    destruct Hx as (Hr & Hc & Hz). destruct p as [r c]. cbn in Hr, Hc, Hz. unfold PULSE_TICKS, PULSE_COOLDOWN_TICKS in *.
    assert (r = 0 \/ r = 1 \/ r = 2 \/ r = 3) as Hr' by lia.
    assert (c = 0 \/ c = 1 \/ c = 2 \/ c = 3) as Hc' by lia.
    destruct Hr' as [->|[->|[->| ->]]], Hc' as [->|[->|[->| ->]]]; (exfalso; lia) || reflexivity.
Qed.

Lemma shapers_bounded_witness :
  let s := ctl_run 0xFF [CmdEv (Pulse 1); CmdEv (Pulse 3); CmdEv (Pulse 1)] in
  (length (pulses s) <= 256)%nat /\ effective s = 3 /\ effective (tick s PULSE_TICKS) = level s.
Proof.
  cbv zeta. destruct (shapers_bounded 0xFF [CmdEv (Pulse 1); CmdEv (Pulse 3); CmdEv (Pulse 1)]) as (H1 & _ & _ & H2).
  - unfold byte_ok; lia.
  - repeat constructor; cbn; unfold byte_ok; lia.
  - split_and!; [exact H1|vm_compute; reflexivity|exact H2].
Defined.

(** ** Theorems: the shape of a pulse *)

(** An accepted pulse after [n] periods. *)
Lemma fresh_pulse n :
  pulse_tick n (mkPulse PULSE_TICKS 0) =
  match n with
  | 0 => mkPulse 3 0 | 1 => mkPulse 2 0 | 2 => mkPulse 1 0
  | 3 => mkPulse 0 3 | 4 => mkPulse 0 2 | 5 => mkPulse 0 1
  | _ => mkPulse 0 0
  end%nat.
Proof.
  do 6 (destruct n as [|n]; [done|]).
  transitivity (pulse_tick n (mkPulse 0 0)); [reflexivity|by destruct n].
Qed.

(** The shape of a pulse.  A shaper that accepts a trigger drives its mask
    for exactly the next three counted periods and no longer; for three more
    it refuses every trigger and stays clear, and from the sixth on it is idle
    and accepts again.  Time counted in one call or in many is the same. *)
Theorem pulse_shape p a b :
  remaining p = 0 -> cooldown p = 0 ->
  exists p', trigger p = (p', None) /\
    pulse_tick (a + b) p' = pulse_tick b (pulse_tick a p') /\
    active (pulse_tick a p') = (a <? 3)%nat /\
    (snd (trigger (pulse_tick a p')) = None <-> (6 <= a)%nat).
Proof.
  intros Hr Hc. unfold trigger. rewrite Hr, Hc. exists (mkPulse PULSE_TICKS 0). split; [done|].
  assert (Hadd : forall a b q, pulse_tick (a + b) q = pulse_tick b (pulse_tick a q)).
  { clear. assert (Hstop : forall b q, remaining q <= 0 -> cooldown q <= 0 -> pulse_tick b q = q).
    { intros [|b] q H1 H2; [done|]. cbn [pulse_tick]. replace (0 <? remaining q) with false by lia.
      by replace (0 <? cooldown q) with false by lia. }
    induction a as [|a IH]; intros b q; [done|]. cbn [pulse_tick Nat.add].
    destruct (Z.ltb_spec 0 (remaining q)); [apply IH|]. destruct (Z.ltb_spec 0 (cooldown q)); [apply IH|].
    by rewrite Hstop by lia. }
  split; [apply Hadd|]. rewrite fresh_pulse.
  do 6 (destruct a as [|a]; [split; [done|]; split; [done|lia]|]). split; [done|]. split; [lia|done].
Qed.

Lemma pulse_shape_witness :
  exists p', trigger pulse_default = (p', None) /\ active (pulse_tick 2 p') = true /\
    active (pulse_tick 3 p') = false.
Proof.
  destruct (pulse_shape pulse_default 2 0 eq_refl eq_refl) as (p' & H1 & _ & H2 & _).
  destruct (pulse_shape pulse_default 3 0 eq_refl eq_refl) as (p2 & H1' & _ & H2' & _).
  exists p'. split; [exact H1|]. split; [exact H2|].
  rewrite H1 in H1'. injection H1' as <-. exact H2'.
Defined.

(** The cooldown is per mask, not per bit.  While a bit cools down after
    its pulse, a pulse on a different mask holding the same bit is accepted
    and drives the bit again in the very next period, with no clear gap: a
    consumer of that bit sees one long pulse, or two edges closer than the
    cooldown the constants promise "for the same bit". *)
Theorem overlapping_masks_share_bits allow m m' :
  byte_ok allow -> 0 < m -> within allow m -> within allow m' -> m <> m' -> Z.land m m' = m ->
  let s := ctl_run allow [CmdEv (Pulse m); TickEv PULSE_TICKS] in
  effective s = 0 /\
  snd (trigger_pulse s m) = Some "pulse cooling down" /\
  let s' := ctl_step allow s (CmdEv (Pulse m')) in
  Z.land (effective s') m = m /\
  let s2 := ctl_run allow [CmdEv (Pulse m); TickEv 2; CmdEv (Pulse m')] in
  forall n, 0 <= n < 3 -> Z.land (effective (tick s2 n)) m = m.
Proof.
  intros Ha Hpos Hm Hm' Hne Hsub.
  assert (E1 : apply_control_cmd (Pulse m) control_default allow =
               (mkControl 0 [(m, mkPulse 3 0)], Some (ack_pulse_line m), false)).
  { unfold apply_control_cmd. cbn [requested]. by rewrite (proj2 (outside_within m allow (proj1 Hm) Ha) Hm). }
  assert (E2 : forall p, apply_control_cmd (Pulse m') (mkControl 0 [(m, p)]) allow =
               (mkControl 0 [(m, p); (m', mkPulse 3 0)], Some (ack_pulse_line m'), false)).
  { intros p. unfold apply_control_cmd. cbn [requested].
    rewrite (proj2 (outside_within m' allow (proj1 Hm') Ha) Hm').
    cbn [run_control_cmd]. unfold trigger_pulse. cbn [pulses trigger_in]. by replace (m =? m') with false by lia. }
  assert (Hl : forall x, Z.land (Z.lor (Z.lor x m) m') m = m).
  { intros x. apply Z.bits_inj'. intros i _. rewrite Z.land_spec, !Z.lor_spec.
    destruct (Z.testbit m i); [|by rewrite andb_false_r]. by rewrite orb_true_r. }
  assert (Hl' : Z.land (Z.lor 0 m') m = m) by (by rewrite Z.lor_0_l, Z.land_comm).
  cbv zeta. unfold ctl_run. cbn [foldl ctl_step]. rewrite E1. cbn [fst].
  assert (T3 : tick (mkControl 0 [(m, mkPulse 3 0)]) PULSE_TICKS = mkControl 0 [(m, mkPulse 0 3)]) by done.
  assert (T2 : tick (mkControl 0 [(m, mkPulse 3 0)]) 2 = mkControl 0 [(m, mkPulse 1 0)]) by done.
  rewrite T3, T2, !E2. cbn [fst]. split_and!.
  - done.
  - unfold trigger_pulse. cbn [pulses trigger_in]. by rewrite Z.eqb_refl.
  - exact Hl'.
  - intros n Hn. assert (n = 0 \/ n = 1 \/ n = 2) as [->|[->| ->]] by lia; [apply Hl|exact Hl'|exact Hl'].
Qed.

Lemma overlapping_masks_share_bits_witness :
  let s := ctl_run 3 [CmdEv (Pulse 1); TickEv PULSE_TICKS] in
  snd (trigger_pulse s 1) = Some "pulse cooling down" /\
  Z.land (effective (ctl_step 3 s (CmdEv (Pulse 3)))) 1 = 1.
Proof.
  cbv zeta. destruct (overlapping_masks_share_bits 3 1 3) as (_ & H1 & H2 & _);
    [unfold byte_ok; lia|lia| | |lia|reflexivity|split; [exact H1|exact H2]].
  - split; [unfold byte_ok; lia|]. intros i Hi. change 3 with (Z.lor 1 2). rewrite Z.lor_spec, Hi. reflexivity.
  - split; [unfold byte_ok; lia|]. intros i Hi. exact Hi.
Defined.

(** ** Theorems: what a readback proves *)

Lemma get_lookup {A} (l : list A) i : 0 <= i -> get l i = l !! Z.to_nat i.
Proof.
  intros Hi. unfold get. destruct (Z.ltb_spec i (len l)) as [H|H].
  - by replace (0 <=? i) with true by lia.
  - rewrite andb_false_r. symmetry. apply lookup_ge_None_2. lia.
Qed.

Lemma rd_be16_lookup d o :
  0 <= o -> o + 2 <= len d ->
  exists h l, d !! Z.to_nat o = Some h /\ d !! Z.to_nat (o + 1) = Some l /\ rd_be16 d o = Ok (h * 256 + l).
Proof.
  intros Ho Hl. destruct (lookup_lt_is_Some_2 d (Z.to_nat o)) as [h Hh]; [lia|].
  destruct (lookup_lt_is_Some_2 d (Z.to_nat (o + 1))) as [l Hl']; [lia|].
  exists h, l. split; [done|]. split; [done|].
  unfold rd_be16. rewrite !idx_spec by lia. rewrite Hh, Hl'. done.
Qed.

Lemma output_byte_spec record :
  parse_output_control_byte record =
    Ok (if (12 <=? len record) &&
           (match record !! 0%nat, record !! 1%nat with Some a, Some b => (a =? 0) && (b =? 0x16) | _, _ => false end) &&
           (match record !! 10%nat, record !! 11%nat with Some a, Some b => negb (a * 256 + b =? 0) | _, _ => false end)
        then match record !! 8%nat with Some n => get record (12 + n) | None => None end
        else None).
Proof.
  unfold parse_output_control_byte. destruct (Z.ltb_spec (len record) 12) as [Hl|Hl].
  { by replace (12 <=? len record) with false by lia. }
  replace (12 <=? len record) with true by lia.
  destruct (lookup_lt_is_Some_2 record 0) as [a Ea]; [lia|].
  destruct (lookup_lt_is_Some_2 record 1) as [b Eb]; [lia|].
  destruct (lookup_lt_is_Some_2 record 8) as [n En]; [lia|].
  destruct (rd_be16_lookup record 10) as (h & l & Eh & El & Er); [lia|lia|].
  change (Z.to_nat 10) with 10%nat in Eh. change (Z.to_nat (10 + 1)) with 11%nat in El.
  rewrite !idx_spec by lia. change (Z.to_nat 0) with 0%nat. change (Z.to_nat 1) with 1%nat. change (Z.to_nat 8) with 8%nat.
  rewrite Ea, Eb, En, Eh, El, Er. cbn [bind andb].
  destruct (a =? 0); cbn [negb andb bind]; [|done]. destruct (b =? 0x16); cbn [negb andb bind]; [|done].
  by destruct (h * 256 + l =? 0).
Qed.

(** A 0x8029 record as its layout has it. *)
Definition output_record (sub : Z) (iocs iops : list Z) (d : list Z) (version : list Z) : list Z :=
  be16_bytes 0x0016 ++ be16_bytes (8 + len iocs + len d + len iops) ++ version ++ be16_bytes sub
  ++ [len iocs; len iops] ++ be16_bytes (len d) ++ iocs ++ d ++ iops.

(** "Verified safe" means exactly that.  The readback check terminates on
    every record, and accepts one only if it is an output record whose
    substitute flag is clear, whose data is not empty, and whose first data
    byte (found behind its own consumer status) is 0x00.  In particular a
    device applying substitutes never counts as verified, whatever byte it
    reports, and a record in the specified layout is judged by its own data. *)
Theorem verified_safe_is_exact record :
  total (proves_safe record) (fun v => v = true ->
    exists n, 12 <= len record /\ record !! 0%nat = Some 0x00 /\ record !! 1%nat = Some 0x16 /\
      (exists h l, record !! 6%nat = Some h /\ record !! 7%nat = Some l /\ h * 256 + l = 0) /\
      (exists h l, record !! 10%nat = Some h /\ record !! 11%nat = Some l /\ h * 256 + l <> 0) /\
      record !! 8%nat = Some n /\ get record (12 + n) = Some SAFE_OUTPUT_BYTE) /\
  forall sub version iocs iops b d,
    length version = 2%nat -> u16_ok sub -> byte_ok (len iocs) -> 1 + len d < 65536 ->
    proves_safe (output_record sub iocs iops (b :: d) version) = Ok ((sub =? 0) && (b =? 0)).
Proof.
  split.
  - unfold proves_safe, output_substitute_active, output_is_safe. rewrite output_byte_spec.
    destruct (Z.leb_spec 8 (len record)) as [H8|H8]; cbn [bind].
    2: { replace (12 <=? len record) with false by lia. cbn [andb bind wp]. done. }
    destruct (rd_be16_lookup record 6) as (h & l & Eh & El & ->); [lia|lia|]. cbn [bind].
    destruct (Z.eqb_spec (h * 256 + l) 0) as [Hz|]; cbn [negb wp]; [|done].
    destruct (12 <=? len record) eqn:H12; cbn [andb bind wp]; [|done].
    destruct (record !! 0%nat) as [a|]; [|done]. destruct (record !! 1%nat) as [b|]; [|done].
    destruct ((a =? 0) && (b =? 22)) eqn:Hab; cbn [andb wp]; [|done].
    destruct (record !! 10%nat) as [h2|]; [|done]. destruct (record !! 11%nat) as [l2|]; [|done].
    destruct (negb (h2 * 256 + l2 =? 0)) eqn:Hn; cbn [wp]; [|done].
    destruct (record !! 8%nat) as [n|]; [|done]. cbn [wp].
    destruct (get record (12 + n)) as [v|] eqn:Ev; [|done]. intros Hv%Z.eqb_eq.
    exists n. split_and!; [lia|f_equal; lia|f_equal; lia| | |done|by rewrite Ev, Hv].
    + by exists h, l.
    + exists h2, l2. split_and!; [done|done|]. by destruct (Z.eqb_spec (h2 * 256 + l2) 0).
  - intros sub version iocs iops b d Hv Hs Hi Hd.
    destruct version as [|v1 [|v2 [|]]]; try done. unfold output_record, u16_ok, byte_ok in *.
    cbn [length] in *. replace (Z.of_nat (S (length d))) with (1 + len d) by lia.
    unfold proves_safe, output_substitute_active, output_is_safe. rewrite output_byte_spec.
    set (r := be16_bytes 0x0016 ++ _).
    assert (Hl : 12 + len iocs < len r) by (unfold r; rewrite !length_app; cbn [be16_bytes length]; lia).
    replace (8 <=? len r) with true by lia. replace (12 <=? len r) with true by lia.
    destruct (rd_be16_lookup r 6) as (h & l & Eh & El & ->); [lia|lia|].
    unfold r in Eh, El. cbn in Eh, El. injection Eh as <-. injection El as <-.
    assert (E : r !! Z.to_nat (12 + len iocs) = Some b).
    { unfold r. rewrite Z2Nat.inj_add by lia. change (Z.to_nat 12) with 12%nat. cbn [be16_bytes app].
      cbn [Nat.add lookup list_lookup]. rewrite Nat2Z.id.
      change (((iocs ++ b :: d ++ iops)) !! length iocs = Some b). by rewrite list_lookup_middle. }
    assert (Hr : forall i, (i < 12)%nat -> r !! i = (be16_bytes 22 ++ be16_bytes (8 + len iocs + (1 + len d) + len iops)
              ++ [v1; v2] ++ be16_bytes sub ++ [len iocs; len iops] ++ be16_bytes (1 + len d)) !! i).
    { intros i Hi'. unfold r. do 12 (destruct i as [|i]; [done|]). lia. }
    rewrite !Hr by lia. cbn [be16_bytes app lookup list_lookup andb]. rewrite get_lookup, E by lia.
    replace ((1 + len d) / 256 mod 256 * 256 + (1 + len d) mod 256) with (1 + len d) by zdiv.
    replace (1 + len d =? 0) with false by lia. cbn [negb andb bind].
    replace (sub / 256 mod 256 * 256 + sub mod 256) with sub by zdiv.
    change (22 / 256 mod 256 =? 0) with true. change (22 mod 256 =? 22) with true. cbn [andb].
    by destruct (sub =? 0).
Qed.

(** ** Theorems: refusals and losses *)

Lemma render_hexdigit l : Forall (fun d => 0 <= d < 16) l -> sforall is_hexdigit (render hex_digit_u l) = true.
Proof.
  induction 1 as [|d l Hd Hl IH]; [done|].
  change (render hex_digit_u (d :: l)) with (String (hex_digit_u d) (render hex_digit_u l)).
  cbn [sforall]. rewrite IH, andb_true_r.
  assert (H : forallb (fun d => is_hexdigit (hex_digit_u d)) (seqZ 0 16) = true) by (vm_compute; reflexivity).
  rewrite forallb_forall in H. apply H, list_elem_of_In, elem_of_seqZ. lia.
Qed.

(** A status is eight hex digits. *)
Lemma status_text v : u32_ok v -> slen (hexu 8 v) = 8 /\ sforall is_hexdigit (hexu 8 v) = true.
Proof.
  unfold u32_ok. intros Hv.
  destruct (digits_bound 16 63 7 v [] ltac:(lia) ltac:(change (16 ^ Z.of_nat 8) with 4294967296; lia)
              ltac:(lia) (Forall_nil_2 _)) as [H1 H2]. cbn [length] in H2.
  unfold hexu, slen. rewrite render_length. unfold pad0. rewrite length_app, length_replicate. split; [lia|].
  apply render_hexdigit, Forall_app. split; [|done]. apply Forall_replicate. lia.
Qed.

Lemma take_while_all f s c t : sforall f s = true -> f c = false -> take_while f (s +:+ String c t) = s.
Proof.
  induction s as [|d s IH]; cbn [sforall].
  - intros _ Hc. change (EmptyString +:+ String c t) with (String c t). cbn [take_while]. by rewrite Hc.
  - intros [Hd Hs]%andb_prop Hc. rewrite app_String. cbn [take_while]. rewrite Hd. by rewrite IH.
Qed.

Lemma starts_with_app p s : starts_with p (p +:+ s) = true.
Proof.
  induction p as [|c p IH]; [done|]. rewrite app_String. cbn [starts_with]. by rewrite Ascii.eqb_refl.
Qed.

Lemma contains_app a p s : contains p (a +:+ p +:+ s) = true.
Proof.
  induction a as [|c a IH].
  - change (EmptyString +:+ p +:+ s) with (p +:+ s). destruct (p +:+ s) eqn:E; cbn [contains];
      rewrite <- E, starts_with_app; done.
  - rewrite app_String. cbn [contains]. rewrite IH. by rewrite orb_true_r.
Qed.

(** A device that says no is told apart from a device that is gone.  A
    response carrying any non-zero PNIO status, to a read or to a write, is an
    error text that the session classifies as an answer and never as a lost
    AR, and the status reported to the caller is exactly that status in eight
    hex digits; the busy status is recognised as such. *)
Theorem refusals_are_answers p le nrd id us :
  parse_nrd p le = Ok nrd -> u32_ok (args_status nrd) -> args_status nrd <> 0 ->
  exists e, parse_read_response p le = Err e /\ parse_status_response p le = Err e /\
    is_transport_failure e = false /\ pnio_status_of e = Some (hexu 8 (args_status nrd)) /\
    serve_error_line id us e = read_error_line id us (hexu 8 (args_status nrd)) e /\
    (args_status nrd = 0xDE80C200 -> contains PNIO_BUSY_STATUS e = true).
Proof.
  intros Hp Hu Hn. set (v := args_status nrd) in *.
  destruct (total_Ok _ _ (pnio_status_total v)) as (m & Hm & _).
  assert (exists t, m = "0x" +:+ hexu 8 v +:+ " (" +:+ t) as [t ->].
  { revert Hm. unfold pnio_status_str. intros (er & _ & [= <-])%bind_Ok_inv. eauto. }
  set (e := "PNIO error status " +:+ "0x" +:+ hexu 8 v +:+ " (" +:+ t). exists e.
  assert (Hst : pnio_status_of e = Some (hexu 8 v)).
  { unfold pnio_status_of. change e with ("PNIO error status 0x" +:+ (hexu 8 v +:+ String " " (String "(" t))).
    rewrite after_hit. destruct (status_text v Hu) as [Hl Hx].
    by rewrite take_while_all, Hl. }
  unfold parse_read_response, parse_status_response. rewrite Hp. cbn [bind]. fold v.
  replace (negb (v =? 0)) with true by (destruct (Z.eqb_spec v 0); done). rewrite Hm. cbn [bind].
  split_and!; [done|done| |done| |].
  - unfold is_transport_failure. apply negb_false_iff.
    change e with (EmptyString +:+ "PNIO error status" +:+ String " " ("0x" +:+ hexu 8 v +:+ " (" +:+ t)).
    apply contains_app.
  - unfold serve_error_line. by rewrite Hst.
  - intros E. unfold PNIO_BUSY_STATUS. unfold e. rewrite E. change (hexu 8 0xDE80C200) with "DE80C200".
    change ("PNIO error status " +:+ "0x" +:+ "DE80C200" +:+ " (" +:+ t)
      with ("PNIO error status 0x" +:+ "DE80C200" +:+ (" (" +:+ t)). apply contains_app.
Qed.

Lemma refusals_are_answers_witness :
  exists e, parse_status_response (be32_bytes 0xDE80C200 ++ be32_bytes 0 ++ be32_bytes 0 ++ be32_bytes 0 ++ be32_bytes 0) false
              = Err e /\
    pnio_status_of e = Some "DE80C200" /\ is_transport_failure e = false.
Proof.
  destruct (refusals_are_answers
    (be32_bytes 0xDE80C200 ++ be32_bytes 0 ++ be32_bytes 0 ++ be32_bytes 0 ++ be32_bytes 0) false
    {| args_status := 0xDE80C200; args_length := 0; maximum_count := 0; n_offset := 0; actual_count := 0; n_payload := [] |}
    1 0) as (e & _ & H2 & H3 & H4 & _).
  - vm_compute. reflexivity.
  - unfold u32_ok. cbn. lia.
  - done.
  - exists e. split; [exact H2|]. split; [|exact H3]. exact H4.
Defined.

Lemma verified_safe_is_exact_witness :
  proves_safe (output_record 0 [0x80] [0x80] [0] [1; 0]) = Ok true /\
  proves_safe (output_record 1 [0x80] [0x80] [0] [1; 0]) = Ok false.
Proof.
  destruct (verified_safe_is_exact []) as [_ H].
  split; [apply (H 0 [1; 0] [0x80] [0x80] 0 [])|apply (H 1 [1; 0] [0x80] [0x80] 0 [])];
    reflexivity || (unfold u16_ok, byte_ok; cbn; lia).
Defined.
