(* ===== verification/Serve.v ===== *)
(** * The service mode ([serve] of [src/src/bin/profinet.rs])

    The session loop: commands and requests from stdin, the driven output
    byte, the dead-man, the keepalive, and the commanded safe shutdown.

    Everything outside the loop's own logic is an operation of a [World]: the
    acyclic connection ([RpcConn]), the cyclic controller, the channel the
    stdin reader fills, the clock, sleeping and the shutdown flag a signal
    raises.  Every operation may change the world, so a world is also whatever
    goes on beside the loop (the controller's threads, the device, signals,
    the passage of time).  A computation records what came in and what it did
    as events, in order. *)

From S2P Require Import Prelude Fmt Lines Commands Control.
From S2P Require Cyclic.

#[local] Open Scope string_scope.
#[local] Open Scope list_scope.
#[local] Open Scope Z_scope.

(** [mpsc::Receiver::recv_timeout]. *)
Inductive Recv := RLine (l : string) | RTimeout | RDisconnected.

Class World (W : Type) := {
  (** The acyclic connection; [read_raw idx slot subslot length]. *)
  read_raw : Z -> Z -> Z -> Z -> W -> W * outcome (list Z);
  write_rec : Z -> Z -> Z -> list Z -> W -> W * outcome unit;
  release : W -> W;
  (** The cyclic controller. *)
  set_output_data : Z -> Z -> list Z -> W -> W * outcome unit;
  stop_safe : Z -> Z -> list Z -> W -> W;
  drop_ctl : W -> W;
  ctl_state : W -> W * Cyclic.CyclicState;
  ever_faulted : W -> W * bool;
  ctl_stats : W -> W * Cyclic.CyclicStats;
  (** The process: stdin lines within a wait, clocks, sleeping (all in
      microseconds), and the flag of the signal handler. *)
  recv_timeout : Z -> W -> W * Recv;
  now : W -> W * Z;
  host_unix_us : W -> W * Z;
  sleep : Z -> W -> W;
  shutdown_flag : W -> W * bool;
}.

(** What the session did. *)
Inductive Ev :=
| Got (line : string)              (** a line of stdin *)
| Emit (j : json)
| Drive (d : list Z) (ok : bool)    (** [set_output_data] of the output submodule *)
| Readback (d : list Z)             (** a 0x8029 record read back by the shutdown *)
| StopSafe (d : list Z)
| Release
| DropCtl
| HardExit (allowed : bool).        (** [SAFE_TO_HARD_EXIT.store] *)

Section Monad.
Context {W : Type}.

Definition S (A : Type) : Type := W -> W * list Ev * outcome A.

Definition sret {A} (a : A) : S A := fun w => (w, [], Ok a).
Definition slift {A} (o : outcome A) : S A := fun w => (w, [], o).
Definition sbind {A B} (m : S A) (k : A -> S B) : S B := fun w =>
  let '(w, e1, o) := m w in
  match o with
  | Ok a => let '(w, e2, r) := k a w in (w, e1 ++ e2, r)
  | Err e => (w, e1, Err e)
  | Panic => (w, e1, Panic)
  | OutOfFuel => (w, e1, OutOfFuel)
  end.
Definition ev (e : Ev) : S unit := fun w => (w, [e], Ok tt).
Definition emit (j : json) : S unit := ev (Emit j).
Definition op {A} (f : W -> W * outcome A) : S A := fun w => let '(w, o) := f w in (w, [], o).
Definition ask {A} (f : W -> W * A) : S A := fun w => let '(w, a) := f w in (w, [], Ok a).
Definition act (f : W -> W) : S unit := fun w => (f w, [], Ok tt).

(** The result of a fallible operation as a value; a panic stays one. *)
Definition attempt {A} (m : S A) : S (A + string) := fun w =>
  let '(w, e, o) := m w in
  match o with
  | Ok a => (w, e, Ok (inl a))
  | Err x => (w, e, Ok (inr x))
  | Panic => (w, e, Panic)
  | OutOfFuel => (w, e, OutOfFuel)
  end.
End Monad.
Arguments S : clear implicits.

Notation "'let#' x := m 'in' k" := (sbind m (fun x => k))
  (at level 10, x binder, m at level 100, k at level 200) : rust_scope.
Notation "'do#' m ; k" := (sbind m (fun _ => k))
  (at level 10, m at level 100, k at level 200) : rust_scope.

Definition SERVE_BUSY_RETRIES : nat := 5.

Section Serve.
Context {W : Type} `{World W}.
Abbreviation S := (S W).

Definition sleep_ms (ms : Z) : W -> W := sleep (ms * 1000).

(** [t.elapsed()], saturating. *)
Definition elapsed (t : Z) : S Z := let# n := ask now in sret (Z.max 0 (n - t)).

(** ** Requests under pacing *)

(** [serve_pace]: the new value of [last]; [gap] in microseconds. *)
Definition serve_pace (last gap : Z) : S Z :=
  let# waited := elapsed last in
  do# (if waited <? gap then act (sleep (gap - waited)) else sret tt);
  ask now.

(** [serve_rpc], with the attempts left; the result comes with [last]. *)
Fixpoint serve_rpc_loop {A} (n : nat) (first : bool) (busy : string) (last gap : Z) (op_ : S A)
    : S (Z * (A + string)) :=
  match n with
  | O => sret (last, inr busy)
  | Datatypes.S n =>
      do# (if first then sret tt else act (sleep_ms 50));
      let# last := serve_pace last gap in
      let# r := attempt op_ in
      match r with
      | inl v => sret (last, inl v)
      | inr e => if contains PNIO_BUSY_STATUS e then serve_rpc_loop n false e last gap op_
                 else sret (last, inr e)
      end
  end.

Definition serve_rpc {A} (last gap : Z) (op_ : S A) : S (Z * (A + string)) :=
  serve_rpc_loop SERVE_BUSY_RETRIES true EmptyString last gap op_.

Definition serve_emit_error (id : Z) (msg : string) : S unit :=
  let# us := ask host_unix_us in emit (serve_error_line id us msg).

Definition emit_read_error (read err : string) : S unit := emit (error_read_line read err).

(** ** The commanded safe shutdown *)

Definition drive (slot subslot : Z) (d : list Z) : S (option string) := fun w =>
  match set_output_data slot subslot d w with
  | (w, Ok _) => (w, [Drive d true], Ok None)
  | (w, Err e) => (w, [Drive d false], Ok (Some e))
  | (w, Panic) => (w, [], Panic)
  | (w, OutOfFuel) => (w, [], OutOfFuel)
  end.

(** Up to [n] writes of the safe image. *)
Fixpoint command_safe (n : nat) (first : bool) (slot subslot : Z) : S unit :=
  match n with
  | O => sret tt
  | Datatypes.S n =>
      do# (if first then sret tt else act (sleep_ms 50));
      let# r := drive slot subslot [0x00] in
      match r with
      | None => sret tt
      | Some e =>
          do# emit (error_msg_line ("safe shutdown set_output_data failed: " +:+ e));
          command_safe n false slot subslot
      end
  end.

(** Up to [n] readbacks: whether one proved the safe image, and the last hex. *)
Fixpoint read_back (n : nat) (first : bool) (slot subslot : Z) (readback : string) : S (bool * string) :=
  match n with
  | O => sret (false, readback)
  | Datatypes.S n =>
      do# (if first then sret tt else act (sleep_ms 100));
      let# r := attempt (op (read_raw 0x8029 slot subslot 128)) in
      match r with
      | inl d =>
          do# ev (Readback d);
          let# ok := slift (proves_safe d) in
          if (ok : bool) then sret (true, hex_encode d) else read_back n false slot subslot (hex_encode d)
      | inr e =>
          do# emit_read_error "safe_shutdown_readback" e;
          read_back n false slot subslot readback
      end
  end.

Fixpoint shutdown_rounds (n : nat) (slot subslot cycle_ms : Z) (readback : string) : S (bool * string) :=
  match n with
  | O => sret (false, readback)
  | Datatypes.S n =>
      do# command_safe 3 true slot subslot;
      do# act (sleep_ms (Z.max (cycle_ms * 5) 100));
      let# r := read_back 3 true slot subslot readback in
      let '(verified, readback) := r in
      if (verified : bool) then sret (true, readback) else shutdown_rounds n slot subslot cycle_ms readback
  end.

Definition safe_shutdown (slot subslot cycle_ms : Z) (reason : string) : S bool :=
  let# r := shutdown_rounds 3 slot subslot cycle_ms EmptyString in
  let '(verified, readback) := r in
  do# emit (safe_shutdown_line reason verified readback);
  do# (if (verified : bool) then sret tt else emit (alarm_line reason readback));
  do# act (stop_safe slot subslot [0x00]);
  do# ev (StopSafe [0x00]);
  let# s := ask ctl_stats in
  do# emit (stopped_stats_line (Cyclic.frames_sent s) (Cyclic.frames_received s) (Cyclic.frames_missed s));
  do# act release;
  do# ev Release;
  sret verified.

Definition unverified_error : string :=
  "safe shutdown could not verify the safe output (see the " +:+ quote +:+ "alarm" +:+ quote
  +:+ " NDJSON line); the device may still hold the last commanded output".

Definition safe_shutdown_verdict (verified : bool) : S Z :=
  if verified then do# ev (HardExit true); sret 0 else slift (Err unverified_error).

(** ** The loop *)

Record Config := {
  c_read_only : bool;
  c_gap : Z;                (** microseconds *)
  c_keepalive_ms : Z;
  c_cyclic : bool;          (** a cyclic tier is up *)
  c_cycle_ms : Z;
  c_seconds : Z;
  c_allow_mask : Z;
  c_out_slot : Z;
  c_out_subslot : Z;
}.

(** The wait for a line, in microseconds. *)
Definition tick_us (c : Config) : Z :=
  if c_cycle_ms c =? 0 then 100000 else c_cycle_ms c * 1000.

Record Loop := mkLoop {
  last_request : Z;
  last_traffic : Z;
  ctl : ControlState;
  driven_byte : Z;
  last_activity : Z;
  last_status : Z;
  last_tick : Z;
}.

Definition set_request (v : Z) (l : Loop) : Loop :=
  mkLoop v (last_traffic l) (ctl l) (driven_byte l) (last_activity l) (last_status l) (last_tick l).
Definition set_traffic (v : Z) (l : Loop) : Loop :=
  mkLoop (last_request l) v (ctl l) (driven_byte l) (last_activity l) (last_status l) (last_tick l).
Definition set_ctl (v : ControlState) (l : Loop) : Loop :=
  mkLoop (last_request l) (last_traffic l) v (driven_byte l) (last_activity l) (last_status l) (last_tick l).
Definition set_driven (v : Z) (l : Loop) : Loop :=
  mkLoop (last_request l) (last_traffic l) (ctl l) v (last_activity l) (last_status l) (last_tick l).
Definition set_activity (v : Z) (l : Loop) : Loop :=
  mkLoop (last_request l) (last_traffic l) (ctl l) (driven_byte l) v (last_status l) (last_tick l).
Definition set_status (v : Z) (l : Loop) : Loop :=
  mkLoop (last_request l) (last_traffic l) (ctl l) (driven_byte l) (last_activity l) v (last_tick l).
Definition set_tick (v : Z) (l : Loop) : Loop :=
  mkLoop (last_request l) (last_traffic l) (ctl l) (driven_byte l) (last_activity l) (last_status l) v.

(** A part of the loop goes on with the loop state or leaves the loop. *)
Definition P := S (Loop + ServeStop).
Definition continue_ (l : Loop) : P := sret (inl l).
Definition break (r : ServeStop) : P := sret (inr r).
Definition andthen (m : P) (k : Loop -> P) : P :=
  let# r := m in match r with inl l => k l | inr s => sret (inr s) end.

(** The checks at the top of a pass. *)
Definition pass_checks (c : Config) (start : Z) (l : Loop) : P :=
  let# down := ask shutdown_flag in
  if (down : bool) then break (Reason "signal")
  else
    let# over := (if 0 <? c_seconds c then
                    let# e := elapsed start in sret (c_seconds c <=? e / 1000000)
                  else sret false) in
    if (over : bool) then break (Reason "timer")
    else if c_cyclic c then
      let# st := ask ctl_state in
      let# f := ask ever_faulted in
      match cyclic_abort_reason st f with
      | Some reason => break (Reason reason)
      | None => continue_ l
      end
    else continue_ l.

(** A finished request: its answer, and whether the AR is gone. *)
Definition finish_request {A} (id : Z) (l : Loop) (r : Z * (A + string)) (answer : A -> S unit) : P :=
  let '(last, r) := r in
  let l := set_request last l in
  match r with
  | inl v =>
      do# answer v;
      let# t := ask now in continue_ (set_traffic t l)
  | inr e =>
      do# serve_emit_error id e;
      if is_transport_failure e then break (ArLost e)
      else let# t := ask now in continue_ (set_traffic t l)
  end.

Definition rpc_request (c : Config) (cmd : ServeCmd) (l : Loop) : P :=
  match cmd with
  | Quit id => do# emit (bye_line id); break (Reason "quit")
  | Ping id => let# us := ask host_unix_us in do# emit (pong_line id us); continue_ l
  | Read id index slot subslot n =>
      let# r := serve_rpc (last_request l) (c_gap c) (op (read_raw index slot subslot n)) in
      finish_request id l r (fun d =>
        let# us := ask host_unix_us in emit (data_line id us (len d) (hex_encode d)))
  | Write id index slot subslot d =>
      if c_read_only c then do# emit (refused_read_only_line id); continue_ l
      else
        let# r := serve_rpc (last_request l) (c_gap c) (op (write_rec index slot subslot d)) in
        finish_request id l r (fun _ => let# us := ask host_unix_us in emit (ok_line id us))
  end.

Definition control_line (c : Config) (line : string) (cmd : ControlCmd) (l : Loop) : P :=
  match cmd with
  | CQuit => break (Reason "quit")
  | _ =>
      if negb (c_cyclic c) then do# emit (refused_needs_cyclic_line line); continue_ l
      else
        let '(s, answer, quit) := apply_control_cmd cmd (ctl l) (c_allow_mask c) in
        do# (match answer with Some j => emit j | None => sret tt end);
        if (quit : bool) then break (Reason "quit") else continue_ (set_ctl s l)
  end.

Definition handle_line (c : Config) (line : string) (l : Loop) : P :=
  match parse_serve_line line with
  | Err msg => do# emit (bad_command_line msg line); continue_ l
  | Ok (Control cmd) => control_line c line cmd l
  | Ok (Rpc cmd) => rpc_request c cmd l
  | Panic => slift Panic
  | OutOfFuel => slift OutOfFuel
  end.

(** The idle keepalive of an acyclic session. *)
Definition idle (c : Config) (l : Loop) : P :=
  if negb (c_cyclic c) && (0 <? c_keepalive_ms c) then
    let# e := elapsed (last_traffic l) in
    if c_keepalive_ms c * 1000 <=? e then
      let# r := serve_rpc (last_request l) (c_gap c) (op (read_raw 0x8028 1 1 128)) in
      let '(last, r) := r in
      let l := set_request last l in
      match r with
      | inr e => if is_transport_failure e then break (ArLost e)
                 else let# t := ask now in continue_ (set_traffic t l)
      | inl _ => let# t := ask now in continue_ (set_traffic t l)
      end
    else continue_ l
  else continue_ l.

Definition receive (c : Config) (l : Loop) : P :=
  let# r := ask (recv_timeout (tick_us c)) in
  match r with
  | RLine line => do# ev (Got line); let# t := ask now in handle_line c line (set_activity t l)
  | RTimeout => idle c l
  | RDisconnected => break (Reason "stdin_eof")
  end.

(** Drive a changed byte and report the device's readback of it. *)
Definition drive_output (c : Config) (l : Loop) : P :=
  let effective := effective (ctl l) in
  if effective =? driven_byte l then continue_ l
  else
    let# r := drive (c_out_slot c) (c_out_subslot c) [effective] in
    match r with
    | Some e => do# emit (error_msg_line ("set_output_data failed: " +:+ e)); break (Reason "io_error")
    | None =>
        do# act (sleep_ms (2 * c_cycle_ms c + 25));
        let# r := attempt (op (read_raw 0x8029 (c_out_slot c) (c_out_subslot c) 128)) in
        let readback := match r with inl d => hex_encode d | inr _ => EmptyString end in
        do# emit (output_line effective (effective =? SAFE_OUTPUT_BYTE) readback);
        continue_ (set_driven effective l)
    end.

Definition advance_pulses (c : Config) (l : Loop) : P :=
  let# e := elapsed (last_tick l) in
  if tick_us c <=? e then
    let periods := as_u32 (e / Z.max (tick_us c) 1) in
    let# t := ask now in
    continue_ (set_ctl (tick (ctl l) periods) (set_tick t l))
  else continue_ l.

Definition deadman (l : Loop) : P :=
  if level (ctl l) =? 0 then continue_ l
  else
    let# e := elapsed (last_activity l) in
    if CONTROL_DEADMAN <=? e then do# emit deadman_line; break (Reason "deadman")
    else continue_ l.

Definition report_status (l : Loop) : P :=
  let# e := elapsed (last_status l) in
  if 1000000 <=? e then
    let# t := ask now in
    let# s := ask ctl_stats in
    let# us := ask host_unix_us in
    do# emit (status_line us (Cyclic.frames_sent s) (Cyclic.frames_received s) (Cyclic.frames_missed s)
                (Cyclic.frames_invalid s) (Cyclic.max_rx_interval_us s) (effective (ctl l)));
    continue_ (set_status t l)
  else continue_ l.

(** What a pass of a cyclic session does after the line. *)
Definition cyclic_part (c : Config) (l : Loop) : P :=
  andthen (drive_output c l) (fun l =>
  andthen (advance_pulses c l) (fun l =>
  andthen (deadman l) report_status)).

Definition pass (c : Config) (start : Z) (l : Loop) : P :=
  andthen (pass_checks c start l) (fun l =>
  andthen (receive c l) (fun l =>
  if c_cyclic c then cyclic_part c l else continue_ l)).

(** At most [n] passes; a session that still runs has no stop. *)
Fixpoint passes (n : nat) (c : Config) (start : Z) (l : Loop) : P :=
  match n with
  | O => continue_ l
  | Datatypes.S n => andthen (pass c start l) (passes n c start)
  end.

(** ** The end of a session *)

Definition finish (c : Config) (stop : ServeStop) : S Z :=
  do# (match stop with
       | ArLost msg => let# us := ask host_unix_us in emit (ar_lost_line us msg)
       | Reason _ => sret tt
       end);
  if c_cyclic c then
    let# verified := safe_shutdown (c_out_slot c) (c_out_subslot c) (c_cycle_ms c) (stop_reason stop) in
    do# safe_shutdown_verdict verified;
    sret (exit_code stop)
  else
    do# act release;
    do# ev Release;
    do# emit (stopped_exit_line (exit_code stop));
    sret (exit_code stop).

(** Leaving the function, by a return or a panic: the connection is dropped
    (an AR still up is released), then the controller. *)
Definition drop_locals (c : Config) : S unit :=
  do# act release;
  if c_cyclic c then do# act drop_ctl; ev DropCtl else sret tt.

Definition with_drops {A} (c : Config) (m : S A) : S A := fun w =>
  let '(w, e1, o) := m w in
  let '(w, e2, _) := drop_locals c w in (w, e1 ++ e2, o).

(** The clocks and the state the loop starts with. *)
Definition session_start (c : Config) : S (Z * Loop) :=
  let# t := ask now in
  let# t0 := (if c_gap c <=? t then sret (t - c_gap c) else ask now) in
  let# traffic := ask now in
  let# activity := ask now in
  let# status := ask now in
  let# tick_ := ask now in
  let# start := ask now in
  do# (if c_cyclic c then emit (control_active_line SAFE_OUTPUT_BYTE (c_allow_mask c)) else sret tt);
  sret (start, mkLoop t0 traffic control_default SAFE_OUTPUT_BYTE activity status tick_).

(** The session once its tiers are up: [None] while it still runs after [n]
    passes. *)
Definition session (n : nat) (c : Config) : S (option Z) :=
  let# r := (let# sl := session_start c in passes n c (fst sl) (snd sl)) in
  match r with
  | inl _ => sret None
  | inr stop => let# code := finish c stop in sret (Some code)
  end.

Definition serve_session (n : nat) (c : Config) : S (option Z) := with_drops c (session n c).

End Serve.

(** ** Reasoning about what is done

    [holds R m I]: every event of [m] satisfies [R] and a result satisfies [I],
    in every world. *)

Section Holds.
Context {W : Type} `{World W}.

Definition events {A} (m : S W A) (w : W) : list Ev := snd (fst (m w)).
Definition result {A} (m : S W A) (w : W) : outcome A := snd (m w).

Definition holds {A} (R : Ev -> Prop) (m : S W A) (I : A -> Prop) : Prop :=
  forall w, Forall R (events m w) /\ (forall a, result m w = Ok a -> I a).

Lemma holds_ret {A} R (a : A) (I : A -> Prop) : I a -> holds R (sret a) I.
Proof. intros Ha w. split; [constructor|]. by intros ? [= <-]. Qed.

Lemma holds_lift {A} R (o : outcome A) (I : A -> Prop) : (forall a, o = Ok a -> I a) -> holds R (slift o) I.
Proof. intros Ha w. split; [constructor|]. exact Ha. Qed.

Lemma holds_bind {A B} R (m : S W A) (k : A -> S W B) I J :
  holds R m I -> (forall a, I a -> holds R (k a) J) -> holds R (sbind m k) J.
Proof.
  intros Hm Hk w. destruct (Hm w) as [H1 H2]. unfold events, result, sbind in *.
  destruct (m w) as [[w1 e1] [a|e| |]]; cbn in *; try (split; [done|congruence]).
  destruct (Hk a (H2 a eq_refl) w1) as [H3 H4]. unfold events, result in *.
  destruct (k a w1) as [[w2 e2] o2]. cbn in *. split; [by apply Forall_app|done].
Qed.

Lemma holds_ev R e (I : unit -> Prop) : R e -> I tt -> holds R (ev e) I.
Proof. intros He HI w. split; [by constructor|]. by intros [] _. Qed.

Lemma holds_emit R j (I : unit -> Prop) : R (Emit j) -> I tt -> holds R (emit j) I.
Proof. apply holds_ev. Qed.

Lemma holds_act R f (I : unit -> Prop) : I tt -> holds R (act f) I.
Proof. intros HI w. split; [constructor|]. by intros [] _. Qed.

Lemma holds_ask {A} R (f : W -> W * A) (I : A -> Prop) : (forall a, I a) -> holds R (ask f) I.
Proof. intros HI w. unfold events, result, ask. destruct (f w). split; [constructor|]. auto. Qed.

Lemma holds_op {A} R (f : W -> W * outcome A) (I : A -> Prop) : (forall a, I a) -> holds R (op f) I.
Proof. intros HI w. unfold events, result, op. destruct (f w). split; [constructor|]. auto. Qed.

Lemma holds_attempt {A} R (m : S W A) (I : A -> Prop) (J : A + string -> Prop) :
  holds R m I -> (forall a, I a -> J (inl a)) -> (forall e, J (inr e)) -> holds R (attempt m) J.
Proof.
  intros Hm H1 H2 w. destruct (Hm w) as [H3 H4]. unfold events, result, attempt in *.
  destruct (m w) as [[w1 e1] [a|e| |]]; cbn in *; split; try done; intros x [= <-]; auto.
Qed.

Lemma holds_mono {A} R (m : S W A) (I J : A -> Prop) :
  holds R m I -> (forall a, I a -> J a) -> holds R m J.
Proof. intros Hm HIJ w. destruct (Hm w). auto. Qed.

Lemma holds_impl {A} (R R' : Ev -> Prop) (m : S W A) (I : A -> Prop) :
  (forall e, R e -> R' e) -> holds R m I -> holds R' m I.
Proof. intros HR Hm w. destruct (Hm w) as [H1 H2]. split; [by eapply Forall_impl|done]. Qed.

(** A part of the loop keeps [J] of the loop state. *)
Definition keeping (J : Loop -> Prop) (r : Loop + ServeStop) : Prop :=
  match r with inl l => J l | inr _ => True end.

Lemma holds_andthen R (m : P) k J K :
  holds R m (keeping J) -> (forall l, J l -> holds R (k l) (keeping K)) -> holds R (andthen m k) (keeping K).
Proof.
  intros Hm Hk. eapply holds_bind; [exact Hm|]. intros [l|s] Hr; [by apply Hk|by apply holds_ret].
Qed.
End Holds.
Arguments holds : simpl never.

(** Step through a computation, leaving the events and results to prove. *)
Ltac hstep :=
  match goal with
  | |- holds _ (sret _) _ => apply holds_ret
  | |- holds _ (continue_ _) _ => apply holds_ret
  | |- holds _ (break _) _ => apply holds_ret; exact I
  | |- holds _ (sbind (act _) _) _ => eapply holds_bind; [apply (holds_act _ _ (fun _ => True)); exact I|intros ? _]
  | |- holds _ (sbind (ask _) _) _ => eapply holds_bind; [apply (holds_ask _ _ (fun _ => True)); done|intros ? _]
  | |- holds _ (sbind (op _) _) _ => eapply holds_bind; [apply (holds_op _ _ (fun _ => True)); done|intros ? _]
  | |- holds _ (sbind (emit _) _) _ => eapply holds_bind; [apply (holds_emit _ _ (fun _ => True)); [|exact I]|intros ? _]
  | |- holds _ (sbind (ev _) _) _ => eapply holds_bind; [apply (holds_ev _ _ (fun _ => True)); [|exact I]|intros ? _]
  | |- holds _ (sbind (slift _) _) _ => eapply holds_bind; [apply (holds_lift _ _ (fun _ => True)); done|intros ? _]
  | |- holds _ (sbind (sret _) _) _ => eapply holds_bind; [apply (holds_ret _ _ (fun x => x = _)); reflexivity|intros ? ->]
  | |- holds _ (sbind (elapsed _) _) _ =>
      eapply holds_bind; [unfold elapsed; eapply holds_bind; [apply (holds_ask _ _ (fun _ => True)); done|
        intros ? _; apply (holds_ret _ _ (fun _ => True)); exact I]|intros ? _]
  | |- holds _ (emit _) _ => apply holds_emit
  | |- holds _ (ev _) _ => apply holds_ev
  | |- holds _ (act _) _ => apply holds_act
  | |- holds _ (slift _) _ => apply holds_lift
  | |- holds _ (if ?b then _ else _) _ => destruct b eqn:?
  | |- holds _ (match ?x with _ => _ end) _ => destruct x eqn:?
  | |- holds _ (let '_ := ?x in _) _ => destruct x eqn:?
  end.
Ltac hauto := repeat hstep; try done.

(** ** What is driven *)

Section Authorised.
Context {W : Type} `{World W} (c : Config).
Context (Ha : byte_ok (c_allow_mask c)).

(** While the loop runs it emits lines and, in a cyclic session, drives
    authorised bits; an acyclic session drives nothing. *)
Definition loop_event (e : Ev) : Prop :=
  match e with
  | Got _ | Emit _ => True
  | Drive d _ => c_cyclic c = true /\ exists b, d = [b] /\ within (c_allow_mask c) b
  | _ => False
  end.
Abbreviation auth := loop_event.

(** Only authorised bits go out, and the stop image is the safe one. *)
Definition authorised (allow : Z) (e : Ev) : Prop :=
  match e with
  | Drive d _ => exists b, d = [b] /\ within allow b
  | StopSafe d => d = [SAFE_OUTPUT_BYTE]
  | _ => True
  end.

Definition loop_ok (l : Loop) : Prop := control_ok (c_allow_mask c) (ctl l).

Lemma auth_serve_pace last gap : holds (W := W) auth (serve_pace last gap) (fun _ => True).
Proof.
  unfold serve_pace. hstep. eapply holds_bind with (I := fun _ => True); [destruct (_ <? gap); hauto|].
  intros _ _. by apply holds_ask.
Qed.

Lemma auth_serve_rpc {A} last gap (op_ : S W A) :
  holds auth op_ (fun _ => True) -> holds auth (serve_rpc last gap op_) (fun _ => True).
Proof.
  intros Hop. unfold serve_rpc. generalize SERVE_BUSY_RETRIES true EmptyString last.
  induction n as [|n IH]; intros first busy last'; cbn [serve_rpc_loop]; [by apply holds_ret|].
  eapply holds_bind with (I := fun _ => True); [destruct first; hauto|]. intros _ _.
  eapply holds_bind; [apply auth_serve_pace|]. intros last2 _.
  eapply holds_bind with (I := fun _ => True); [by eapply holds_attempt|]. intros [v|e] _; [by apply holds_ret|].
  destruct (contains _ _); [apply IH|by apply holds_ret].
Qed.

Lemma auth_op {A} R (f : W -> W * outcome A) : holds R (op f) (fun _ => True).
Proof. by apply holds_op. Qed.

Lemma auth_drive R slot subslot d :
  (forall ok, R (Drive d ok)) -> holds (W := W) R (drive slot subslot d) (fun _ => True).
Proof.
  intros Hb w. unfold events, result, drive. destruct (set_output_data slot subslot d w) as [w1 [u|e| |]]; cbn;
    (split; [|done]); try apply Forall_nil_2; (apply Forall_cons; split; [apply Hb|apply Forall_nil_2]).
Qed.

Lemma auth_finish_request {A} id l r (answer : A -> S W unit) :
  loop_ok l -> (forall v, holds auth (answer v) (fun _ => True)) ->
  holds auth (finish_request id l r answer) (keeping loop_ok).
Proof.
  intros Hl Hans. unfold finish_request. destruct r as [last [v|e]].
  - eapply holds_bind; [apply Hans|]. intros _ _. hauto.
  - eapply holds_bind with (I := fun _ => True); [unfold serve_emit_error; hauto|]. intros _ _. hauto.
Qed.

Lemma auth_rpc_request cmd l : loop_ok l -> holds (W := W) auth (rpc_request c cmd l) (keeping loop_ok).
Proof.
  intros Hl. destruct cmd; cbn [rpc_request].
  - eapply holds_bind; [apply auth_serve_rpc, auth_op|]. intros r _.
    apply auth_finish_request; [done|]. intros v. hauto.
  - destruct (c_read_only c); [hauto|].
    eapply holds_bind; [apply auth_serve_rpc, auth_op|]. intros r _.
    apply auth_finish_request; [done|]. intros v. hauto.
  - hauto.
  - hauto.
Qed.

(** The masks of a parsed command are bytes. *)
Lemma number_bound max t v : 0 <= max -> number max t = Ok v -> 0 <= v <= max.
Proof.
  unfold number. intros Hm. destruct (strip_0x t); intros E; eapply from_str_radix_bound in E; lia.
Qed.

Lemma json_u8_bound line k v : json_field_u8 line k = Some v -> byte_ok v.
Proof.
  unfold json_field_u8, json_field_uint. destruct (json_field_raw line k); [|done].
  destruct (number _ _) eqn:E; try done. intros [= <-]. apply number_bound in E; [|lia]. unfold byte_ok. lia.
Qed.

Lemma parsed_cmd_ok line cmd : parse_serve_line line = Ok (Control cmd) -> cmd_ok cmd.
Proof.
  unfold parse_serve_line. destruct (json_field_str line "cmd") as [k|].
  - destruct (_ && _); [by intros [= <-]|]. destruct (existsb _ _).
    + intros (c' & Hc & [= <-])%bind_Ok_inv. unfold parse_control_cmd in Hc.
      apply bind_Ok_inv in Hc as (k' & _ & Hc).
      repeat match type of Hc with (if ?b then _ else _) = _ => destruct b end;
        try (injection Hc as <-; done); try done;
        apply bind_Ok_inv in Hc as (m & Hm & Hc);
        (destruct (json_field_u8 line "mask") eqn:E; cbn in Hm; [injection Hm as <-|done]);
        apply json_u8_bound in E.
      * apply bind_Ok_inv in Hc as (on & _ & [= <-]). done.
      * injection Hc as <-. done.
    + intros (c' & _ & ?)%bind_Ok_inv. done.
  - intros (c' & _ & ?)%bind_Ok_inv. done.
Qed.

Lemma auth_handle_line line l : loop_ok l -> holds (W := W) auth (handle_line c line l) (keeping loop_ok).
Proof using Ha.
  intros Hl. unfold handle_line. destruct (parse_serve_line line) as [[r|cmd]|e| |] eqn:E; [..|hauto|hauto|hauto].
  - by apply auth_rpc_request.
  - assert (Hq : holds (W := W) auth (let '(s, answer, quit) := apply_control_cmd cmd (ctl l) (c_allow_mask c) in
        do# (match answer with Some j => emit j | None => sret tt end);
        if (quit : bool) then break (Reason "quit") else continue_ (set_ctl s l)) (keeping loop_ok)).
    { pose proof (apply_control_ok (c_allow_mask c) cmd (ctl l) Ha (parsed_cmd_ok _ _ E) Hl) as Hs.
      destruct (apply_control_cmd cmd (ctl l) (c_allow_mask c)) as [[s answer] quit]. cbn in Hs.
      eapply holds_bind with (I := fun _ => True); [destruct answer; hauto|]. intros _ _. destruct quit; hauto. }
    unfold control_line.
    destruct cmd; [..|hauto]; (destruct (negb (c_cyclic c)); [hauto|exact Hq]).
Qed.

Lemma auth_idle l : loop_ok l -> holds (W := W) auth (idle c l) (keeping loop_ok).
Proof.
  intros Hl. unfold idle. destruct (_ && _); [|hauto]. hstep. destruct (_ <=? _); [|hauto].
  eapply holds_bind; [apply auth_serve_rpc, auth_op|]. intros [last [v|e]] _; hauto.
Qed.

Lemma auth_receive l : loop_ok l -> holds (W := W) auth (receive c l) (keeping loop_ok).
Proof using Ha.
  intros Hl. unfold receive. hstep.
  match goal with |- holds _ (match ?r with _ => _ end) _ => destruct r end.
  - hstep; [done|]. hstep. by apply auth_handle_line.
  - by apply auth_idle.
  - hauto.
Qed.

Lemma auth_drive_output l :
  c_cyclic c = true -> loop_ok l -> holds (W := W) auth (drive_output c l) (keeping loop_ok).
Proof.
  intros Hc Hl. unfold drive_output. destruct (_ =? _); [hauto|].
  eapply holds_bind; [apply auth_drive; intros ok; split; [exact Hc|]; eexists; split; [reflexivity|by apply effective_within]|]. intros [e|] _; [hauto|].
  hstep. eapply holds_bind with (I := fun _ => True); [eapply holds_attempt; [apply auth_op|done|done]|].
  intros r _. hauto.
Qed.

Lemma auth_cyclic_part l :
  c_cyclic c = true -> loop_ok l -> holds (W := W) auth (cyclic_part c l) (keeping loop_ok).
Proof.
  intros Hc Hl. unfold cyclic_part. eapply holds_andthen; [by apply auth_drive_output|]. intros l1 Hl1.
  eapply holds_andthen with (J := loop_ok).
  { unfold advance_pulses. hauto. by apply tick_ok. }
  intros l2 Hl2. eapply holds_andthen with (J := loop_ok).
  { unfold deadman. hauto. }
  intros l3 Hl3. unfold report_status. hauto.
Qed.

Lemma auth_pass start l : loop_ok l -> holds (W := W) auth (pass c start l) (keeping loop_ok).
Proof using Ha.
  intros Hl. unfold pass. eapply holds_andthen with (J := loop_ok).
  { unfold pass_checks. hstep. destruct (_ : bool); [hauto|].
    eapply holds_bind with (I := fun _ => True); [destruct (0 <? c_seconds c); hauto|].
    intros over _. destruct over; hauto. }
  intros l1 Hl1. eapply holds_andthen; [by apply auth_receive|]. intros l2 Hl2.
  destruct (c_cyclic c) eqn:Hc; [by apply auth_cyclic_part|hauto].
Qed.

Lemma auth_passes n start l : loop_ok l -> holds (W := W) auth (passes n c start l) (keeping loop_ok).
Proof using Ha.
  revert l. induction n as [|n IH]; intros l Hl; cbn [passes]; [hauto|].
  eapply holds_andthen; [by apply auth_pass|exact IH].
Qed.

Lemma auth_command_safe n first slot subslot :
  holds (W := W) (authorised (c_allow_mask c)) (command_safe n first slot subslot) (fun _ => True).
Proof.
  revert first. induction n as [|n IH]; intros first; cbn [command_safe]; [hauto|].
  eapply holds_bind with (I := fun _ => True); [destruct first; hauto|]. intros _ _.
  eapply holds_bind; [apply auth_drive; intros ok; eexists; split; [reflexivity|apply within_0]|]. intros [e|] _; [|hauto]. hstep; [done|apply IH].
Qed.

Lemma auth_read_back n first slot subslot rb :
  holds (W := W) (authorised (c_allow_mask c)) (read_back n first slot subslot rb) (fun _ => True).
Proof.
  revert first rb. induction n as [|n IH]; intros first rb; cbn [read_back]; [hauto|].
  eapply holds_bind with (I := fun _ => True); [destruct first; hauto|]. intros _ _.
  eapply holds_bind with (I := fun _ => True); [eapply holds_attempt; [apply auth_op|done|done]|].
  intros [d|e] _.
  - hstep; [done|]. hstep. destruct (_ : bool); [hauto|apply IH].
  - unfold emit_read_error. hstep; [done|apply IH].
Qed.

Lemma auth_safe_shutdown slot subslot cycle reason :
  holds (W := W) (authorised (c_allow_mask c)) (safe_shutdown slot subslot cycle reason) (fun _ => True).
Proof.
  unfold safe_shutdown. eapply holds_bind with (I := fun _ => True).
  - generalize 3%nat EmptyString. intros n. induction n as [|n IH]; intros rb; cbn [shutdown_rounds]; [hauto|].
    eapply holds_bind; [apply auth_command_safe|]. intros _ _. hstep.
    eapply holds_bind; [apply auth_read_back|]. intros [v rb'] _. destruct v; [hauto|apply IH].
  - intros [v rb] _. hstep; [done|].
    eapply holds_bind with (I := fun _ => True); [destruct v; hauto|]. intros _ _. hauto.
Qed.

Lemma auth_finish stop : holds (W := W) (authorised (c_allow_mask c)) (finish c stop) (fun _ => True).
Proof.
  unfold finish. eapply holds_bind with (I := fun _ => True); [destruct stop; hauto|]. intros _ _.
  destruct (c_cyclic c); [|hauto].
  eapply holds_bind; [apply auth_safe_shutdown|]. intros v _.
  eapply holds_bind with (I := fun _ => True); [unfold safe_shutdown_verdict; destruct v; hauto|]. intros _ _. hauto.
Qed.

Lemma auth_start : holds (W := W) auth (session_start c) (fun sl => loop_ok (snd sl)).
Proof.
  unfold session_start. hstep. eapply holds_bind with (I := fun _ => True); [destruct (_ <=? _); hauto; by apply holds_ask|].
  intros t0 _. do 5 hstep.
  eapply holds_bind with (I := fun _ => True); [destruct (c_cyclic c); hauto|]. intros _ _.
  apply holds_ret, control_default_ok.
Qed.

Lemma auth_run n : holds (W := W) auth (let# sl := session_start c in passes n c (fst sl) (snd sl)) (fun _ => True).
Proof using Ha.
  eapply holds_bind; [apply auth_start|]. intros [start l] Hl.
  eapply holds_mono; [by apply auth_passes|done].
Qed.

Lemma auth_session n : holds (W := W) (authorised (c_allow_mask c)) (session n c) (fun _ => True).
Proof using Ha.
  unfold session. eapply holds_bind; [eapply holds_impl; [|apply auth_run]; intros []; try done; by intros []|].
  intros [l|stop] _; [hauto|].
  eapply holds_bind; [apply auth_finish|]. intros code _. hauto.
Qed.

Lemma auth_with_drops {A} (m : S W A) : holds (authorised (c_allow_mask c)) m (fun _ => True) -> holds (authorised (c_allow_mask c)) (with_drops c m) (fun _ => True).
Proof.
  intros Hm w. destruct (Hm w) as [H1 _]. unfold events, result, with_drops in *.
  destruct (m w) as [[w1 e1] o]. cbn in H1.
  assert (Hd : holds (W := W) (authorised (c_allow_mask c)) (drop_locals c) (fun _ => True)) by (unfold drop_locals; hauto).
  destruct (Hd w1) as [H2 _]. unfold events in H2. destruct (drop_locals c w1) as [[w2 e2] o2]. cbn in *.
  split; [by apply Forall_app|done].
Qed.

End Authorised.

(** ** How a session can end

    [clean X m I]: [m] produces a result satisfying [I], unless [X], or it
    panics on a line it was sent. *)

(** The line that made the command parser panic is among what came in. *)
Definition bad_line (e : list Ev) : Prop := exists line, Got line ∈ e /\ parse_serve_line line = Panic.

(** The operations of the world do not panic. *)
Class WorldSafe (W : Type) `{World W} : Prop := {
  read_raw_safe : forall i s ss n (w : W), safe (snd (read_raw i s ss n w));
  write_rec_safe : forall i s ss d (w : W), safe (snd (write_rec i s ss d w));
  set_output_safe : forall s ss d (w : W), safe (snd (set_output_data s ss d w));
}.

Section Clean.
Context {W : Type} `{WS : WorldSafe W}.

Definition clean {A} (X : Prop) (m : S W A) (I : A -> Prop) : Prop :=
  forall w, match result m w with Ok a => I a | Panic => X \/ bad_line (events m w) | _ => False end.

Section Rules.
Context (X : Prop).

Lemma clean_ret {A} (a : A) (I : A -> Prop) : I a -> clean X (sret a) I.
Proof. intros Ha w. exact Ha. Qed.

Lemma clean_bind {A B} (m : S W A) (k : A -> S W B) I J :
  clean X m I -> (forall a, I a -> clean X (k a) J) -> clean X (sbind m k) J.
Proof.
  intros Hm Hk w. specialize (Hm w). unfold result, events, sbind in *.
  destruct (m w) as [[w1 e1] [a|e| |]]; cbn in *; try done.
  specialize (Hk a Hm w1). unfold result, events in Hk. destruct (k a w1) as [[w2 e2] [b|x| |]]; try done.
  cbn in *. destruct Hk as [Hk|(line & Hl & Hp)]; [by left|right]. exists line.
  split; [|done]. apply elem_of_app. by right.
Qed.

Lemma clean_ev e : clean X (ev e) (fun _ => True).
Proof. by intros w. Qed.
Lemma clean_act f : clean X (act f) (fun _ => True).
Proof. by intros w. Qed.
Lemma clean_ask {A} (f : W -> W * A) : clean X (ask f) (fun _ => True).
Proof. intros w. unfold result, ask. by destruct (f w). Qed.
Lemma clean_lift {A} (o : outcome A) I : total o I -> clean X (slift o) I.
Proof. intros Ho w. unfold result, slift. cbn. by destruct o. Qed.

Lemma clean_attempt_op {A} (f : W -> W * outcome A) :
  (forall w, safe (snd (f w))) -> clean X (attempt (op f)) (fun _ => True).
Proof.
  intros Hf w. specialize (Hf w). unfold result, attempt, op. destruct (f w) as [w1 [a|e| |]]; done.
Qed.

Lemma clean_drive s ss d : clean X (drive (W := W) s ss d) (fun _ => True).
Proof using WS.
  intros w. pose proof (set_output_safe s ss d w) as Hs. unfold result, drive.
  destruct (set_output_data s ss d w) as [w1 [a|e| |]]; done.
Qed.

Lemma clean_weaken {A} (m : S W A) I : clean X m I -> clean X m (fun _ => True).
Proof. intros Hm w. specialize (Hm w). by destruct (result m w). Qed.

Lemma clean_andthen (m : P) k :
  clean X m (fun _ => True) -> (forall l, clean X (k l) (fun _ => True)) -> clean X (andthen m k) (fun _ => True).
Proof.
  intros Hm Hk. eapply clean_bind; [exact Hm|]. intros [l|s] _; [apply Hk|apply clean_ret; done].
Qed.

Lemma clean_elapsed t : clean X (elapsed (W := W) t) (fun _ => True).
Proof. unfold elapsed. eapply clean_bind; [apply clean_ask|]. intros; apply clean_ret; done. Qed.
End Rules.
End Clean.
Arguments clean : simpl never.

(** A line's handler panics only if the line's parser does; with the line
    among the events, that is a panic on a line that came in. *)
Lemma clean_got {W : Type} `{World W} {A} (line : string) (m : S W A) I :
  clean (parse_serve_line line = Panic) m I -> clean False (sbind (ev (Got line)) (fun _ => m)) I.
Proof.
  intros Hm w. specialize (Hm w). unfold result, events, sbind, ev in *.
  destruct (m w) as [[w1 e1] [a|x| |]]; cbn in *; try done. right.
  destruct Hm as [Hp|(l & Hl & Hp)]; [exists line|exists l]; (split; [|done]); [by left|by right].
Qed.

Ltac cstep :=
  match goal with
  | |- clean _ (sret _) _ => apply clean_ret; done
  | |- clean _ (continue_ _) _ => apply clean_ret; done
  | |- clean _ (break _) _ => apply clean_ret; done
  | |- clean _ (ev _) _ => apply clean_ev
  | |- clean _ (emit _) _ => apply clean_ev
  | |- clean _ (act _) _ => apply clean_act
  | |- clean _ (ask _) _ => apply clean_ask
  | |- clean _ (elapsed _) _ => apply clean_elapsed
  | |- clean _ (drive _ _ _) _ => apply clean_drive
  | |- clean _ (attempt (op (read_raw _ _ _ _))) _ => apply clean_attempt_op; intros; apply read_raw_safe
  | |- clean _ (attempt (op (write_rec _ _ _ _))) _ => apply clean_attempt_op; intros; apply write_rec_safe
  | |- clean _ (andthen _ _) _ => apply clean_andthen; [|intros]
  | |- clean _ (sbind _ _) _ => eapply clean_bind with (I := fun _ => True); [|intros ? _]
  | |- clean _ (if ?b then _ else _) _ => destruct b
  | |- clean _ (match ?x with _ => _ end) _ => destruct x eqn:?
  | |- clean _ (let '_ := ?x in _) _ => destruct x
  end.
Ltac cauto := repeat cstep; try done.

(** The command parser has no loop bound to exhaust. *)
Definition bounded {A} (o : outcome A) : Prop := match o with OutOfFuel => False | _ => True end.

Lemma bounded_bind {A B} (o : outcome A) (k : A -> outcome B) :
  bounded o -> (forall a, bounded (k a)) -> bounded (bind o k).
Proof. destruct o; cbn; auto. Qed.

Lemma bounded_safe {A} (o : outcome A) : safe o -> bounded o.
Proof. by destruct o. Qed.

Lemma bounded_hex_pair s t i : bounded (hex_pair s t i).
Proof.
  unfold hex_pair, str_slice. destruct (_ && _); [|done]. cbn [bind].
  apply bounded_safe, safe_map_err, from_str_radix_safe.
Qed.

Lemma bounded_parse_hex s : bounded (parse_hex s).
Proof.
  unfold parse_hex. destruct (negb _); [done|]. generalize (evens (slen (remove_spaces s))). intros l.
  induction l as [|i l IH]; [done|]. rewrite map_result_cons.
  apply bounded_bind; [apply bounded_hex_pair|]. intros b. by apply bounded_bind.
Qed.

Lemma bounded_parse_line line : bounded (parse_serve_line line).
Proof.
  assert (Hs : bounded (parse_serve_cmd line)).
  { unfold parse_serve_cmd, field_u16. apply bounded_bind; [apply bounded_safe, safe_ok_or|]. intros id.
    apply bounded_bind; [apply bounded_safe, safe_ok_or|]. intros cmd.
    repeat (match goal with |- bounded (if ?b then _ else _) => destruct b end; try done);
      repeat (apply bounded_bind; [first [apply bounded_parse_hex | apply bounded_safe, safe_ok_or]|intros]); done. }
  unfold parse_serve_line. destruct (json_field_str line "cmd"); [|by apply bounded_bind].
  destruct (_ && _); [done|]. destruct (existsb _ _); [|by apply bounded_bind].
  apply bounded_bind; [apply bounded_safe, parse_control_cmd_safe|done].
Qed.

Section Ends.
Context {W : Type} `{WS : WorldSafe W} (c : Config).

Lemma clean_serve_rpc {A} X last gap (op_ : S W A) :
  clean X (attempt op_) (fun _ => True) -> clean X (serve_rpc last gap op_) (fun _ => True).
Proof.
  intros Hop. unfold serve_rpc. generalize SERVE_BUSY_RETRIES true EmptyString last.
  induction n as [|n IH]; intros first busy last'; cbn [serve_rpc_loop]; [cauto|].
  cstep; [cauto|]. cstep; [unfold serve_pace; cauto|]. cstep; [exact Hop|].
  cstep; [cauto|]. cstep; [apply IH|cauto].
Qed.

Lemma clean_handle_line line l :
  clean (W := W) (parse_serve_line line = Panic) (handle_line c line l) (fun _ => True).
Proof using WS.
  unfold handle_line. pose proof (bounded_parse_line line) as Hb.
  destruct (parse_serve_line line) as [[r|cmd]|e| |] eqn:E.
  - unfold rpc_request, finish_request, serve_emit_error. cstep; cauto; apply clean_serve_rpc; cauto.
  - unfold control_line. cauto.
  - cauto.
  - intros w. by left.
  - done.
Qed.

Lemma clean_pass start l : clean (W := W) False (pass c start l) (fun _ => True).
Proof using WS.
  unfold pass. cstep; [unfold pass_checks; cauto|]. cstep.
  - unfold receive. cstep; [cauto|]. cstep; [|unfold idle|cauto].
    + apply clean_got. cstep; [cauto|]. apply clean_handle_line.
    + cauto; apply clean_serve_rpc; cauto.
  - cstep; [|cauto]. unfold cyclic_part, drive_output, advance_pulses, deadman, report_status. cauto.
Qed.

Lemma clean_passes n start l : clean (W := W) False (passes n c start l) (fun _ => True).
Proof using WS.
  revert l. induction n as [|n IH]; intros l; cbn [passes]; [cauto|]. cstep; [apply clean_pass|apply IH].
Qed.
End Ends.

(** ** The shutdown's trace *)

(** [runs m Q]: [m] always produces a result, and [Q] relates its events to it. *)
Section Runs.
Context {W : Type} `{WS : WorldSafe W}.

Definition runs {A} (m : S W A) (Q : list Ev -> A -> Prop) : Prop :=
  forall w, match result m w with Ok a => Q (events m w) a | _ => False end.

Lemma runs_ret {A} (a : A) (Q : list Ev -> A -> Prop) : Q [] a -> runs (sret a) Q.
Proof. intros Ha w. exact Ha. Qed.

Lemma runs_bind {A B} (m : S W A) (k : A -> S W B) Q1 Q :
  runs m Q1 -> (forall e1 a, Q1 e1 a -> runs (k a) (fun e2 b => Q (e1 ++ e2) b)) -> runs (sbind m k) Q.
Proof.
  intros Hm Hk w. specialize (Hm w). unfold result, events, sbind in *.
  destruct (m w) as [[w1 e1] [a|e| |]]; cbn in *; try done.
  specialize (Hk e1 a Hm w1). unfold result, events in Hk. by destruct (k a w1) as [[w2 e2] [b|e| |]].
Qed.

Lemma runs_mono {A} (m : S W A) (Q Q' : list Ev -> A -> Prop) :
  runs m Q -> (forall e a, Q e a -> Q' e a) -> runs m Q'.
Proof. intros Hm HQ w. specialize (Hm w). destruct (result m w); auto. Qed.

Lemma runs_ev e : runs (ev e) (fun l _ => l = [e]).
Proof. by intros w. Qed.
Lemma runs_act f : runs (act f) (fun l _ => l = []).
Proof. by intros w. Qed.
Lemma runs_ask {A} (f : W -> W * A) : runs (ask f) (fun l _ => l = []).
Proof. intros w. unfold result, events, ask. by destruct (f w). Qed.
Lemma runs_skip (b : bool) f : runs (if b then sret tt else act f) (fun l _ => l = []).
Proof. destruct b; by intros w. Qed.

Lemma runs_drive s ss d : runs (drive (W := W) s ss d) (fun l _ => exists ok, l = [Drive d ok]).
Proof using WS.
  intros w. pose proof (set_output_safe s ss d w) as Hs. unfold result, events, drive.
  destruct (set_output_data s ss d w) as [w1 [a|e| |]]; cbn in *; eauto; done.
Qed.

Lemma runs_read i s ss n : runs (attempt (op (W := W) (read_raw i s ss n))) (fun l _ => l = []).
Proof using WS.
  intros w. pose proof (read_raw_safe i s ss n w) as Hs. unfold result, events, attempt, op.
  destruct (read_raw i s ss n w) as [w1 [a|e| |]]; done.
Qed.

(** The safe image is (re)commanded, lines are emitted, records read back. *)
Definition safe_phase (e : Ev) : Prop :=
  match e with Emit _ | Readback _ => True | Drive d _ => d = [SAFE_OUTPUT_BYTE] | _ => False end.
Definition reading (e : Ev) : Prop := match e with Emit _ | Readback _ => True | _ => False end.

Lemma reading_safe e : Forall reading e -> Forall safe_phase e.
Proof. intros He. eapply Forall_impl; [exact He|]. by intros []. Qed.

Lemma command_safe_trace n first s ss :
  runs (command_safe (W := W) n first s ss) (fun e _ =>
    Forall safe_phase e /\ (n <> 0%nat -> exists ok, Drive [SAFE_OUTPUT_BYTE] ok ∈ e)).
Proof using WS.
  revert first. induction n as [|n IH]; intros first; cbn [command_safe]; [by apply runs_ret|].
  eapply runs_bind; [apply runs_skip|]. intros e0 _ ->. cbn [app].
  eapply runs_bind; [apply runs_drive|]. intros e1 r [ok ->].
  assert (Hd : forall e, Drive [SAFE_OUTPUT_BYTE] ok ∈ [Drive [0] ok] ++ e) by (intros; by left).
  destruct r as [x|].
  - eapply runs_bind; [apply runs_ev|]. intros e2 _ ->. eapply runs_mono; [apply IH|].
    intros e _ [He _]. split; [by repeat constructor|eauto].
  - apply runs_ret. split; [by repeat constructor|eauto].
Qed.

(** A proof of the safe image, as the last thing read. *)
Definition proof_at_end (e : list Ev) (readback : string) : Prop :=
  exists e0 d, e = e0 ++ [Readback d] /\ proves_safe d = Ok true /\ readback = hex_encode d.

Lemma proof_at_end_app e e' rb : proof_at_end e' rb -> proof_at_end (e ++ e') rb.
Proof. intros (e0 & d & -> & ? & ?). exists (e ++ e0), d. by rewrite <- app_assoc. Qed.

Lemma proves_safe_total d : exists b, proves_safe d = Ok b.
Proof.
  destruct (verified_safe_is_exact d) as [Ht _]. destruct (total_Ok _ _ Ht) as (b & -> & _). eauto.
Qed.

Lemma read_back_trace n first s ss rb :
  runs (read_back (W := W) n first s ss rb) (fun e r =>
    Forall reading e /\ (fst r = true -> proof_at_end e (snd r))).
Proof using WS.
  revert first rb. induction n as [|n IH]; intros first rb; cbn [read_back]; [by apply runs_ret|].
  eapply runs_bind; [apply runs_skip|]. intros e0 _ ->. cbn [app].
  eapply runs_bind; [apply runs_read|]. intros e1 r ->. cbn [app]. destruct r as [d|x].
  - eapply runs_bind; [apply runs_ev|]. intros e2 _ ->.
    destruct (proves_safe_total d) as [b Eb]. rewrite Eb.
    eapply (runs_bind _ _ (fun l a => l = [] /\ a = b)); [by intros w|]. intros e3 a [-> ->]. cbn [app].
    destruct b.
    + apply runs_ret. split; [by repeat constructor|]. intros _. by exists [], d.
    + eapply runs_mono; [apply IH|]. intros e r [H1 H2]. split; [by constructor|].
      intros Hr. by apply (proof_at_end_app [_]), H2.
  - eapply runs_bind; [apply runs_ev|]. intros e2 _ ->. eapply runs_mono; [apply IH|].
    intros e r [H1 H2]. split; [by constructor|]. intros Hr. by apply (proof_at_end_app [_]), H2.
Qed.

Lemma rounds_trace n s ss cyc rb :
  runs (shutdown_rounds (W := W) n s ss cyc rb) (fun e r =>
    Forall safe_phase e /\ (n <> 0%nat -> exists ok, Drive [SAFE_OUTPUT_BYTE] ok ∈ e) /\
    (fst r = true -> proof_at_end e (snd r))).
Proof using WS.
  revert rb. induction n as [|n IH]; intros rb; cbn [shutdown_rounds]; [by apply runs_ret|].
  eapply runs_bind; [apply command_safe_trace|]. intros e1 _ [H1 H2].
  destruct (H2 ltac:(done)) as [ok Hok].
  eapply runs_bind; [apply runs_act|]. intros e2 _ ->. cbn [app].
  eapply runs_bind; [apply read_back_trace|]. intros e3 [v rb'] [H3 H4]. cbn in H4.
  assert (Hs : Forall safe_phase (e1 ++ e3)) by (apply Forall_app; split; [done|by apply reading_safe]).
  destruct v.
  - apply runs_ret. rewrite app_nil_r. split_and!; [done| |].
    + intros _. exists ok. apply elem_of_app. by left.
    + intros _. by apply proof_at_end_app, H4.
  - eapply runs_mono; [apply IH|]. intros e r (K1 & _ & K3). rewrite app_assoc. split_and!.
    + by apply Forall_app.
    + intros _. exists ok. rewrite !elem_of_app. auto.
    + intros Hr. by apply proof_at_end_app, K3.
Qed.

(** The commanded shutdown: the safe image is driven and read back; its line
    (and, unverified, the alarm); then the frames stop with the safe image and
    the AR is released. *)
Definition shutdown_trace (reason : string) (verified : bool) (e : list Ev) : Prop :=
  exists e1 rb stats,
    e = e1 ++ Emit (safe_shutdown_line reason verified rb)
           :: (if verified then [] else [Emit (alarm_line reason rb)])
           ++ [StopSafe [SAFE_OUTPUT_BYTE]; Emit stats; Release] /\
    Forall safe_phase e1 /\ (exists ok, Drive [SAFE_OUTPUT_BYTE] ok ∈ e1) /\
    (verified = true -> proof_at_end e1 rb).

Lemma safe_shutdown_trace s ss cyc reason :
  runs (safe_shutdown (W := W) s ss cyc reason) (fun e v => shutdown_trace reason v e).
Proof using WS.
  unfold safe_shutdown. eapply runs_bind; [apply rounds_trace|]. intros e1 [v rb] (H1 & H2 & H3). cbn in H3.
  eapply runs_bind; [apply runs_ev|]. intros ? _ ->.
  eapply (runs_bind _ _ (fun l _ => l = if v then [] else [Emit (alarm_line reason rb)])).
  { destruct v; by intros w. }
  intros ? _ ->. eapply runs_bind; [apply runs_act|]. intros ? _ ->.
  eapply runs_bind; [apply runs_ev|]. intros ? _ ->.
  eapply runs_bind; [apply runs_ask|]. intros ? st ->.
  eapply runs_bind; [apply runs_ev|]. intros ? _ ->.
  eapply runs_bind; [apply runs_act|]. intros ? _ ->.
  eapply runs_bind; [apply runs_ev|]. intros ? _ ->. apply runs_ret.
  exists e1, rb, (stopped_stats_line (Cyclic.frames_sent st) (Cyclic.frames_received st) (Cyclic.frames_missed st)).
  split_and!; [|done|by apply H2|done]. by destruct v.
Qed.
End Runs.
Arguments runs : simpl never.

(** ** Theorems: every exit *)

Section Exit.
Context {W : Type} `{WS : WorldSafe W} (c : Config).
Context (Ha : byte_ok (c_allow_mask c)).

(** The locals that drop behind a session: the controller, in a cyclic one. *)
Definition drop_events : list Ev := if c_cyclic c then [DropCtl] else [].

(** A lost AR has a line of its own before anything else happens. *)
Definition ar_lost (stop : ServeStop) (e : list Ev) : Prop :=
  match stop with
  | ArLost msg => exists us, e = [Emit (ar_lost_line us msg)]
  | Reason _ => e = []
  end.

(** How the trace of a cyclic session that stopped ends. *)
Definition stopped_safely (e : list Ev) (stop : ServeStop) (verified : bool) : Prop :=
  exists before lost shutdown,
    e = before ++ lost ++ shutdown ++ (if verified then [HardExit true] else []) ++ [DropCtl] /\
    Forall (loop_event c) before /\ ar_lost stop lost /\
    shutdown_trace (stop_reason stop) verified shutdown.

(** How the trace of an acyclic one does: lines only, then the AR goes. *)
Definition stopped_acyclic (e : list Ev) (stop : ServeStop) : Prop :=
  exists before lost,
    e = before ++ lost ++ [Release; Emit (stopped_exit_line (exit_code stop))] /\
    Forall (loop_event c) before /\ ar_lost stop lost.

(** What the command line reports of a stop, and the trace behind it. *)
Definition session_end (stop : ServeStop) (o : outcome Z) (e : list Ev) : Prop :=
  if c_cyclic c
  then exists v : bool, o = (if v then Ok (exit_code stop) else Err unverified_error) /\ stopped_safely e stop v
  else o = Ok (exit_code stop) /\ stopped_acyclic e stop.

(** The line of a lost AR, then the shutdown or the release. *)
Lemma lost_part stop :
  runs (W := W) (match stop with ArLost msg => let# us := ask host_unix_us in emit (ar_lost_line us msg)
                 | Reason _ => sret tt end) (fun e _ => ar_lost stop e).
Proof.
  destruct stop as [r|msg]; [by apply runs_ret|].
  eapply runs_bind; [apply runs_ask|]. intros ? us ->. intros w. by exists us.
Qed.

Lemma finish_end stop before w :
  Forall (loop_event c) before ->
  session_end stop (result (finish (W := W) c stop) w) (before ++ events (finish c stop) w ++ drop_events).
Proof using WS.
  intros Hb. pose proof (lost_part stop w) as K1. unfold finish, session_end, drop_events.
  set (m1 := match stop with ArLost _ => _ | _ => _ end) in *.
  unfold events, result, sbind in *. destruct (m1 w) as [[w1 e1] [u|x| |]]; cbn in K1; try done. clear m1.
  destruct (c_cyclic c).
  - pose proof (safe_shutdown_trace (c_out_slot c) (c_out_subslot c) (c_cycle_ms c) (stop_reason stop) w1) as K2.
    unfold events, result in K2. destruct (safe_shutdown _ _ _ _ w1) as [[w2 e2] [v|x| |]]; cbn in K2; try done.
    exists v. destruct v; (split; [done|]); exists before, e1, e2; (split_and!; [|done..]);
      cbn; by rewrite ?app_nil_r, <- ?app_assoc.
  - split; [done|]. exists before, e1. split_and!; [|done..]. cbn. by rewrite ?app_nil_r.
Qed.

Lemma drop_locals_events w : events (W := W) (drop_locals c) w = drop_events.
Proof. unfold drop_locals, drop_events, events, sbind, act. by destruct (c_cyclic c). Qed.

Lemma clean_run n : clean (W := W) False (let# sl := session_start c in passes n c (fst sl) (snd sl)) (fun _ => True).
Proof using WS.
  cstep; [unfold session_start; cauto|]. apply clean_passes.
Qed.

Lemma sbind_ok {A B} (m : S W A) (k : A -> S W B) w w1 e1 a :
  m w = (w1, e1, Ok a) -> events (sbind m k) w = e1 ++ events (k a) w1 /\ result (sbind m k) w = result (k a) w1.
Proof. intros E. unfold events, result, sbind. rewrite E. by destruct (k a w1) as [[? ?] ?]. Qed.

Lemma with_drops_eq {A} (m : S W A) w :
  events (with_drops c m) w = events m w ++ drop_events /\ result (with_drops c m) w = result m w.
Proof.
  unfold events, result, with_drops. destruct (m w) as [[w1 e1] o].
  pose proof (drop_locals_events w1) as Hd. unfold events in Hd.
  destruct (drop_locals c w1) as [[w2 e2] o2]. cbn in *. by subst.
Qed.

(** C1: Every session that leaves its loop for a stop reason (a signal, the
    timer, quit, end of stdin, the dead-man, a fault, a failed output write, a
    lost AR), whatever the device, the link, the clock and stdin do, ends as
    follows.  A cyclic one has, after its last authorised output, commanded
    the safe image at least once with nothing else driven after it, tried to
    prove it by readback, stopped the frames with the safe image and released
    the AR; it reports the code of its reason, and unlocks the hard exit, only
    if a record read back proves the safe image, and otherwise fails with the
    alarm line.  An acyclic one has driven nothing at all, releases the AR and
    reports the code.  There is no other end than a panic of the command
    parser on a line that came in; then there is no shutdown: after the loop's
    authorised outputs only the locals drop. *)
Theorem every_exit_is_commanded_safe n w :
  let e := events (serve_session (W := W) n c) w in
  match result (serve_session (W := W) n c) w with
  | Ok None => True
  | Ok (Some code) => exists stop, session_end stop (Ok code) e
  | Err msg => exists stop, session_end stop (Err msg) e
  | Panic => bad_line e /\ exists before, e = before ++ drop_events /\ Forall (loop_event c) before
  | OutOfFuel => False
  end.
Proof using WS Ha.
  unfold serve_session. destruct (with_drops_eq (session n c) w) as [He Hr]. cbn zeta. rewrite He, Hr. clear He Hr.
  set (run := let# sl := session_start c in passes n c (fst sl) (snd sl)).
  pose proof (clean_run n w : match result run w with Ok _ => True | Panic => False \/ bad_line (events run w) | _ => False end) as K1.
  destruct (auth_run c Ha n w : Forall _ (events run w) /\ _) as [K2 _].
  destruct (run w) as [[w1 e1] o] eqn:Erun. unfold result, events in K1, K2. rewrite Erun in K1, K2. cbn in K1, K2.
  set (k := fun r : Loop + ServeStop => match r with inl _ => sret None
              | inr stop => let# code := finish c stop in sret (Some code) end : S W (option Z)).
  change (session n c) with (sbind run k). destruct o as [r|x| |]; try done.
  2: { assert (E : result (sbind run k) w = Panic /\ events (sbind run k) w = e1)
         by (unfold events, result, sbind; by rewrite Erun).
       destruct E as [-> ->]. destruct K1 as [[]|(line & Hl & Hp)]. split; [|eauto]. exists line. split; [|done].
       apply elem_of_app. by left. }
  destruct (sbind_ok run k w w1 e1 r Erun) as [He Hr]. rewrite He, Hr. destruct r as [l|stop]; [done|].
  pose proof (finish_end stop e1 w1 K2) as K3. unfold k, events, result, sbind in *.
  destruct (finish c stop w1) as [[w2 e2] o]. cbn [snd fst] in K3. rewrite <- app_assoc.
  destruct o as [code|msg| |]; cbn; rewrite ?app_nil_r; try by exists stop.
  all: unfold session_end in K3; destruct (c_cyclic c); [by destruct K3 as [[] [? _]]|by destruct K3].
Qed.

End Exit.

(** ** Time and silence *)

(** The world's clock: it never runs backwards, [now] reads it, and a wait
    that times out lasted at least as long as asked.  [silent] worlds are those
    in which nobody writes to stdin any more, whatever else happens. *)
Class WorldClock (W : Type) `{World W} := {
  clock : W -> Z;
  silent : W -> Prop;
  goes_on (w w' : W) : Prop := clock w <= clock w' /\ (silent w -> silent w');
  now_clock : forall w, clock w <= snd (now w) <= clock (fst (now w));
  now_goes : forall w, goes_on w (fst (now w));
  host_goes : forall w, goes_on w (fst (host_unix_us w));
  sleep_goes : forall n w, goes_on w (sleep n w);
  flag_goes : forall w, goes_on w (fst (shutdown_flag w));
  recv_goes : forall t w, goes_on w (fst (recv_timeout t w));
  recv_waits : forall t w, snd (recv_timeout t w) = RTimeout -> clock w + t <= clock (fst (recv_timeout t w));
  recv_silent : forall t w, silent w -> snd (recv_timeout t w) = RTimeout;
  read_goes : forall i s ss n w, goes_on w (fst (read_raw i s ss n w));
  write_goes : forall i s ss d w, goes_on w (fst (write_rec i s ss d w));
  drive_goes : forall s ss d w, goes_on w (fst (set_output_data s ss d w));
  state_goes : forall w, goes_on w (fst (ctl_state w));
  faulted_goes : forall w, goes_on w (fst (ever_faulted w));
  stats_goes : forall w, goes_on w (fst (ctl_stats w));
}.

Section Time.
Context {W : Type} `{WC : WorldClock W}.

Definition world_after {A} (m : S W A) (w : W) : W := fst (fst (m w)).

Definition no_line (e : list Ev) : Prop :=
  Forall (fun e => match e with Got _ => False | _ => True end) e.

(** [tri m Q]: from a silent world, [m] goes on in time, no line comes in, and
    a result is related by [Q] to the worlds before and after. *)
Definition tri {A} (m : S W A) (Q : W -> A -> W -> Prop) : Prop :=
  forall w, silent w -> goes_on w (world_after m w) /\ no_line (events m w) /\
    forall a, result m w = Ok a -> Q w a (world_after m w).

Lemma goes_trans w w1 w2 : goes_on w w1 -> goes_on w1 w2 -> goes_on w w2.
Proof. intros [? ?] [? ?]. split; [lia|auto]. Qed.
Lemma goes_refl w : goes_on w w.
Proof. split; [lia|done]. Qed.

Lemma tri_ret {A} (a : A) Q : (forall w, Q w a w) -> tri (sret a) Q.
Proof. intros HQ w Hw. split_and!; [apply goes_refl|constructor|]. by intros ? [= <-]. Qed.

Lemma tri_bind {A B} (m : S W A) (k : A -> S W B) Q1 Q :
  tri m Q1 -> (forall w a w1, Q1 w a w1 -> goes_on w w1 -> tri (k a) (fun w1' b w2 => w1' = w1 -> Q w b w2)) ->
  tri (sbind m k) Q.
Proof.
  intros Hm Hk w Hw. destruct (Hm w Hw) as (H1 & N1 & H2). unfold world_after, events, result, sbind in *.
  destruct (m w) as [[w1 e1] [a|e| |]]; cbn in *; try (split_and!; [done|done|congruence]).
  destruct (Hk w a w1 (H2 a eq_refl) H1 w1 (proj2 H1 Hw)) as (H3 & N2 & H4). unfold world_after, events, result in *.
  destruct (k a w1) as [[w2 e2] o2]. cbn in *.
  split_and!; [by eapply goes_trans|by apply Forall_app|]. intros b Hb. by apply H4.
Qed.

Lemma tri_mono {A} (m : S W A) Q Q' :
  tri m Q -> (forall w a w', goes_on w w' -> Q w a w' -> Q' w a w') -> tri m Q'.
Proof. intros Hm HQ w Hw. destruct (Hm w Hw) as (? & ? & ?). split_and!; auto. Qed.

Lemma tri_ask {A} (f : W -> W * A) : (forall w, goes_on w (fst (f w))) -> tri (ask f) (fun _ _ _ => True).
Proof.
  intros Hf w Hw. specialize (Hf w). unfold world_after, events, ask.
  destruct (f w). split_and!; [done|constructor|done].
Qed.
Lemma tri_act f : (forall w, goes_on w (f w)) -> tri (act f) (fun _ _ _ => True).
Proof. intros Hf w Hw. split_and!; [apply Hf|constructor|done]. Qed.
Lemma tri_emit j : tri (emit j) (fun _ _ _ => True).
Proof. intros w Hw. split_and!; [apply goes_refl|by repeat constructor|done]. Qed.
Lemma tri_op {A} (f : W -> W * outcome A) : (forall w, goes_on w (fst (f w))) -> tri (attempt (op f)) (fun _ _ _ => True).
Proof.
  intros Hf w Hw. specialize (Hf w). unfold world_after, events, attempt, op.
  destruct (f w) as [? [| | |]]; (split_and!; [done|constructor|done]).
Qed.
Lemma tri_drive s ss d : tri (drive (W := W) s ss d) (fun _ _ _ => True).
Proof using WC.
  intros w Hw. pose proof (drive_goes s ss d w). unfold world_after, events, drive.
  destruct (set_output_data s ss d w) as [? [| | |]]; (split_and!; [done|by repeat constructor|done]).
Qed.

(** What has elapsed is measured on the clock. *)
Lemma tri_elapsed t : tri (elapsed (W := W) t) (fun w e w' => clock w - t <= e).
Proof using WC.
  unfold elapsed. eapply tri_bind with (Q1 := fun w n _ => clock w <= n).
  - intros w Hw. pose proof (now_clock w). pose proof (now_goes w). unfold world_after, events, result, ask.
    destruct (now w). split_and!; [done|constructor|]. intros a [= <-]. cbn in *. lia.
  - intros w n w1 Hn _. apply tri_ret. intros w2 _. lia.
Qed.

Lemma tri_any {A} (m : S W A) Q : tri m Q -> tri m (fun _ _ _ => True).
Proof. intros Hm. eapply tri_mono; [exact Hm|done]. Qed.

Lemma tri_seq {A B} (m : S W A) (k : A -> S W B) (Q : B -> Prop) :
  tri m (fun _ _ _ => True) -> (forall a, tri (k a) (fun _ b _ => Q b)) -> tri (sbind m k) (fun _ b _ => Q b).
Proof.
  intros Hm Hk. eapply tri_bind; [exact Hm|]. intros w a w1 _ _. eapply tri_mono; [apply Hk|done].
Qed.

(** The loop state's level and last activity, which only a line changes. *)
Definition same_command (l : Loop) (r : Loop + ServeStop) : Prop :=
  match r with
  | inl l' => level (ctl l') = level (ctl l) /\ last_activity l' = last_activity l
  | inr _ => True
  end.

Lemma tri_rpc {A} last gap (op_ : S W A) :
  tri (attempt op_) (fun _ _ _ => True) -> tri (serve_rpc last gap op_) (fun _ _ _ => True).
Proof using WC.
  intros Hop. unfold serve_rpc. generalize SERVE_BUSY_RETRIES true EmptyString last.
  induction n as [|n IH]; intros first busy last'; cbn [serve_rpc_loop]; [by apply tri_ret|].
  apply (tri_seq _ _ (fun _ => True)). { destruct first; [by apply tri_ret|apply tri_act; intros; apply sleep_goes]. }
  intros _. apply (tri_seq _ _ (fun _ => True)).
  { unfold serve_pace. apply (tri_seq _ _ (fun _ => True)); [eapply tri_any, tri_elapsed|]. intros wt.
    apply (tri_seq _ _ (fun _ => True)); [|intros _; apply tri_ask, now_goes].
    destruct (_ <? _); [apply tri_act; intros; apply sleep_goes|by apply tri_ret]. }
  intros l2. apply (tri_seq _ _ (fun _ => True)); [exact Hop|]. intros [v|e]; [by apply tri_ret|].
  destruct (contains _ _); [apply IH|by apply tri_ret].
Qed.
End Time.
Arguments tri : simpl never.

Ltac tstep :=
  match goal with
  | |- tri (sret _) _ => apply tri_ret
  | |- tri (continue_ _) _ => apply tri_ret
  | |- tri (break _) _ => apply tri_ret
  | |- tri (emit _) _ => apply tri_emit
  | |- tri (act (sleep_ms _)) _ => apply tri_act; intros; apply sleep_goes
  | |- tri (ask now) _ => apply tri_ask, now_goes
  | |- tri (ask host_unix_us) _ => apply tri_ask, host_goes
  | |- tri (ask shutdown_flag) _ => apply tri_ask, flag_goes
  | |- tri (ask ctl_state) _ => apply tri_ask, state_goes
  | |- tri (ask ever_faulted) _ => apply tri_ask, faulted_goes
  | |- tri (ask ctl_stats) _ => apply tri_ask, stats_goes
  | |- tri (elapsed _) (fun _ _ _ => True) => eapply tri_any, tri_elapsed
  | |- tri (drive _ _ _) _ => apply tri_drive
  | |- tri (attempt (op (read_raw _ _ _ _))) _ => apply tri_op; intros; apply read_goes
  | |- tri (sbind _ _) (fun _ b _ => @?Q b) => apply (tri_seq _ _ Q); [|intros ?]
  | |- tri (if ?b then _ else _) _ => destruct b
  | |- tri (match ?x with _ => _ end) _ => destruct x
  | |- tri (let '_ := ?x in _) _ => destruct x
  end.
Ltac tauto_ := repeat tstep; try done.

Section Deadman.
Context {W : Type} `{WC : WorldClock W} (c : Config) (Hc : c_cyclic c = true).

Lemma tri_checks start l :
  tri (W := W) (pass_checks c start l) (fun _ r _ => match r with inl l' => l' = l | inr _ => True end).
Proof using WC Hc.
  unfold pass_checks. tstep; [tauto_|]. tstep; [tauto_|]. tstep; [tauto_|].
  tstep; [tauto_|]. tstep; [|tauto_]. tstep; [tauto_|]. tstep; [tauto_|]. tauto_.
Qed.

Lemma tri_receive l :
  tri (W := W) (receive c l) (fun w r w' => match r with
    | inl l' => l' = l /\ clock w + tick_us c <= clock w' | inr _ => True end).
Proof using WC Hc.
  unfold receive. eapply tri_bind with (Q1 := fun w r w' => r = RTimeout /\ clock w + tick_us c <= clock w').
  - intros w Hw. pose proof (recv_goes (tick_us c) w). pose proof (recv_silent (tick_us c) w Hw) as Hr.
    pose proof (recv_waits (tick_us c) w Hr). unfold world_after, events, result, ask.
    destruct (recv_timeout (tick_us c) w). split_and!; [done|constructor|]. by intros a [= <-].
  - intros w r w1 [-> Ht] _. unfold idle. rewrite Hc. cbn [negb andb]. apply tri_ret. intros w2 ->. by split.
Qed.

Lemma tri_drive_output l : tri (W := W) (drive_output c l) (fun _ r _ => same_command l r).
Proof using WC Hc. unfold drive_output. tauto_. Qed.

Lemma tri_advance l : tri (W := W) (advance_pulses c l) (fun _ r _ => same_command l r).
Proof using WC Hc. unfold advance_pulses. tauto_. Qed.

Lemma tri_report l : tri (W := W) (report_status l) (fun _ r _ => same_command l r).
Proof using WC Hc. unfold report_status. tauto_. Qed.

Lemma tri_deadman l :
  level (ctl l) <> 0 ->
  tri (W := W) (deadman l) (fun w r _ => match r with
    | inl l' => l' = l /\ clock w < last_activity l + CONTROL_DEADMAN | inr _ => True end).
Proof using WC Hc.
  intros Hl. unfold deadman. replace (level (ctl l) =? 0) with false by lia.
  eapply tri_bind; [apply tri_elapsed|]. intros w e w1 He _. cbv beta in He.
  destruct (Z.leb_spec CONTROL_DEADMAN e).
  - eapply tri_mono; [apply (tri_seq _ _ (fun r => exists s, r = inr s))|].
    + apply tri_emit.
    + intros _. apply tri_ret. by eexists.
    + intros w2 r w3 _ [s ->] _. done.
  - apply tri_ret. intros w2 _. split; [done|lia].
Qed.

(** A pass that goes on was within the dead-man's time. *)
Definition pass_post (l : Loop) (w : W) (r : Loop + ServeStop) (w' : W) : Prop :=
  match r with
  | inl l' => same_command l (inl l') /\ clock w + tick_us c <= clock w' /\
              clock w + tick_us c < last_activity l + CONTROL_DEADMAN
  | inr _ => True
  end.

Lemma tri_pass start l : level (ctl l) <> 0 -> tri (pass c start l) (pass_post l).
Proof using WC Hc.
  intros Hl. unfold pass, andthen at 1. eapply tri_bind; [apply tri_checks|].
  intros w [l0|s] w1 H0 G0; [subst l0|by apply tri_ret]. unfold andthen at 1.
  eapply tri_bind; [apply tri_receive|].
  intros w2 [l0|s] w3 H1 G1; [|apply tri_ret; intros; done]. destruct H1 as [-> Ht].
  rewrite Hc. unfold cyclic_part, andthen at 1. eapply tri_bind; [apply tri_drive_output|].
  intros w4 [l1|s] w5 H2 G2; [|by apply tri_ret]. unfold andthen at 1.
  eapply tri_bind; [apply tri_advance|].
  intros w6 [l2|s] w7 H3 G3; [|by apply tri_ret]. unfold andthen.
  cbn [same_command] in H2, H3. destruct H2 as [E1 E2], H3 as [E3 E4].
  eapply tri_bind; [apply tri_deadman; congruence|].
  intros w8 [l3|s] w9 H4 G4; [|by apply tri_ret]. destruct H4 as [-> Hd].
  eapply tri_mono; [apply tri_report|].
  intros w10 [l4|s] w11 G5 H5 -> -> -> ->; [|done]. cbn [same_command] in H5. destruct H5 as [E5 E6].
  intros ->. unfold pass_post. cbn [same_command].
  destruct G0, G1, G2, G3, G4, G5. split_and!; [congruence|congruence|lia|rewrite E4, E2 in Hd; lia].
Qed.

Lemma tri_passes n start l :
  level (ctl l) <> 0 ->
  tri (passes n c start l) (fun w r w' => match r with
    | inl l' => n <> 0%nat -> clock w + Z.of_nat n * tick_us c < last_activity l + CONTROL_DEADMAN
    | inr _ => True end).
Proof using WC Hc.
  revert l. induction n as [|n IH]; intros l Hl; cbn [passes]; [by apply tri_ret|].
  unfold andthen. eapply tri_bind; [by apply tri_pass|].
  intros w [l1|s] w1 H1 G1; [|by apply tri_ret]. destruct H1 as ([E1 E2] & Ht & Hd).
  eapply tri_mono; [apply IH; congruence|]. intros w2 [l2|s] w3 _ H2 ->; [|done]. intros _.
  destruct n as [|n]; [lia|]. specialize (H2 ltac:(done)). rewrite E2 in H2. lia.
Qed.

End Deadman.

(** C12: The dead-man fires.  While a level bit is held and nobody writes to
    stdin any more, a cyclic session cannot go on for longer than the five
    seconds: in a world whose clock runs and whose waits last, enough passes
    to cover them never all go on, however the device, the counters and the
    link behave; the loop has left with a reason, after which the commanded
    shutdown runs. *)
Theorem deadman_fires {W : Type} `{WC : WorldClock W} {WS : WorldSafe W} c n start l w :
  c_cyclic c = true -> level (ctl l) <> 0 -> silent w -> last_activity l <= clock w ->
  n <> 0%nat -> CONTROL_DEADMAN <= Z.of_nat n * tick_us c ->
  exists stop, result (passes n c start l) w = Ok (inr stop).
Proof.
  intros Hc Hl Hw Ht Hn Hd. destruct (tri_passes c Hc n start l Hl w Hw) as (_ & N & H1).
  pose proof (clean_passes c n start l w) as Hcl.
  destruct (result (passes n c start l) w) as [[l'|s]|e| |]; try done; eauto.
  - specialize (H1 _ eq_refl Hn). lia.
  - destruct Hcl as [[]|(line & Hl1 & _)]. unfold no_line in N. rewrite Forall_forall in N. by specialize (N _ Hl1).
Qed.

(** C3: The service mode drives nothing but authorised bits.  Whatever comes
    in on stdin and whatever the device, the link and the clock do, in every
    session and up to any of its ends (a panic included) each byte handed to
    the controller has only bits of the allow mask, and frames stop with the
    safe image only; a session without a cyclic tier drives nothing at all. *)
Theorem session_drives_authorised {W : Type} `{World W} n c w :
  byte_ok (c_allow_mask c) ->
  Forall (authorised (c_allow_mask c)) (events (serve_session n c) w).
Proof.
  intros Ha. unfold serve_session.
  exact (proj1 (auth_with_drops c (session n c) (auth_session c Ha n) w)).
Qed.

(** ** Requests and answers *)

(** The id an emitted line answers, and the id a line asks under. *)
Definition answer_id (e : Ev) : option json := match e with Emit j => field "id" j | _ => None end.
Definition request_id (e : Ev) : option json :=
  match e with
  | Got line => match parse_serve_line line with Ok (Rpc cmd) => Some (JNum (cmd_id cmd)) | _ => None end
  | _ => None
  end.

Section Answers.
Context {W : Type} `{WS : WorldSafe W}.

(** [owes m ids]: what [m] answers is what it received, and [ids]. *)
Definition owes {A} (m : S W A) (ids : list json) : Prop :=
  forall w, omap answer_id (events m w) = ids ++ omap request_id (events m w).

Lemma owes_ret {A} (a : A) : owes (sret a) [].
Proof. done. Qed.
Lemma owes_lift {A} (o : outcome A) : owes (slift o) [].
Proof. done. Qed.
Lemma owes_act f : owes (act f) [].
Proof. done. Qed.
Lemma owes_ask {A} (f : W -> W * A) : owes (ask f) [].
Proof. intros w. unfold events, ask. by destruct (f w). Qed.
Lemma owes_attempt {A} (m : S W A) ids : owes m ids -> owes (attempt m) ids.
Proof. intros Hm w. specialize (Hm w). unfold events, attempt in *. by destruct (m w) as [[? ?] [| | |]]. Qed.
Lemma owes_op {A} (f : W -> W * outcome A) : owes (op f) [].
Proof. intros w. unfold events, op. by destruct (f w). Qed.
Lemma owes_emit j : owes (emit j) (match field "id" j with Some i => [i] | None => [] end).
Proof. intros w. cbn. by destruct (field "id" j). Qed.
Lemma owes_drive s ss d : owes (drive s ss d) [].
Proof using W. intros w. unfold events, drive. by destruct (set_output_data s ss d w) as [? [| | |]]. Qed.

Lemma owes_bind {A B} (m : S W A) (k : A -> S W B) ids :
  owes m ids -> (forall a, owes (k a) []) -> owes (sbind m k) ids.
Proof.
  intros Hm Hk w. specialize (Hm w). unfold events, sbind in *.
  destruct (m w) as [[w1 e1] [a|e| |]]; try done. specialize (Hk a w1). unfold events in Hk.
  destruct (k a w1) as [[w2 e2] o]. cbn in *. by rewrite !omap_app, Hm, Hk, app_assoc.
Qed.

(** A request is answered at once, by one line under its id. *)
Definition answered (id : Z) (e : list Ev) : Prop := exists j, e = [Emit j] /\ field "id" j = Some (JNum id).

Lemma runs_silent {A B} (m : S W A) (k : A -> S W B) Q :
  runs m (fun e _ => e = []) -> (forall a, runs (k a) Q) -> runs (sbind m k) Q.
Proof. intros Hm Hk. eapply runs_bind; [exact Hm|]. intros ? a ->. apply Hk. Qed.

Lemma runs_elapsed t : runs (elapsed (W := W) t) (fun e _ => e = []).
Proof. unfold elapsed. apply runs_silent; [apply runs_ask|]. intros a. by apply runs_ret. Qed.

Lemma runs_serve_rpc {A} last gap (op_ : S W A) :
  runs (attempt op_) (fun e _ => e = []) -> runs (serve_rpc last gap op_) (fun e _ => e = []).
Proof.
  intros Hop. unfold serve_rpc. generalize SERVE_BUSY_RETRIES true EmptyString last.
  induction n as [|n IH]; intros first busy last'; cbn [serve_rpc_loop]; [by apply runs_ret|].
  apply runs_silent; [apply runs_skip|]. intros _. apply runs_silent.
  { unfold serve_pace. apply runs_silent; [apply runs_elapsed|]. intros wt.
    apply runs_silent; [destruct (_ <? _); by intros w|]. intros _. apply runs_ask. }
  intros l2. apply runs_silent; [exact Hop|]. intros [v|e]; [by apply runs_ret|].
  destruct (contains _ _); [apply IH|by apply runs_ret].
Qed.

Lemma runs_answer j (k : S W (Loop + ServeStop)) id :
  field "id" j = Some (JNum id) -> runs k (fun e _ => e = []) -> runs (sbind (emit j) (fun _ => k)) (fun e _ => answered id e).
Proof.
  intros Hj Hk. eapply runs_bind; [apply runs_ev|]. intros ? _ ->.
  eapply runs_mono; [exact Hk|]. intros ? _ ->. by exists j.
Qed.

Lemma runs_stamp l : runs (sbind (ask now) (fun t => continue_ (W := W) (set_traffic t l))) (fun e _ => e = []).
Proof. apply runs_silent; [apply runs_ask|]. intros t. by apply runs_ret. Qed.

Lemma serve_error_id id us msg : field "id" (serve_error_line id us msg) = Some (JNum id).
Proof. unfold serve_error_line. by destruct (pnio_status_of msg). Qed.

Lemma runs_finish_request {A} id l (r : Z * (A + string)) (answer : A -> S W unit) (line : A -> Z -> json) :
  (forall v, answer v = (let# us := ask host_unix_us in emit (line v us))) ->
  (forall v us, field "id" (line v us) = Some (JNum id)) ->
  runs (finish_request id l r answer) (fun e _ => answered id e).
Proof.
  intros Ha Hl. unfold finish_request. destruct r as [last [v|e]].
  - rewrite Ha. intros w. unfold result, events, sbind, ask. destruct (host_unix_us w) as [w1 us]. cbn.
    destruct (now w1). cbn. eexists. split; [reflexivity|apply Hl].
  - intros w. unfold serve_emit_error, result, events, sbind, ask. destruct (host_unix_us w) as [w1 us]. cbn.
    destruct (is_transport_failure e); [|destruct (now w1)]; cbn; (eexists; split; [reflexivity|apply serve_error_id]).
Qed.

Lemma rpc_request_answered c cmd l : runs (rpc_request (W := W) c cmd l) (fun e _ => answered (cmd_id cmd) e).
Proof using WS.
  destruct cmd as [id i s ss n|id i s ss d|id|id]; cbn [rpc_request cmd_id].
  - apply runs_silent; [apply runs_serve_rpc, runs_read|]. intros r.
    by eapply (runs_finish_request id l r _ (fun d us => data_line id us (len d) (hex_encode d))).
  - destruct (c_read_only c); [by apply runs_answer; [|apply runs_ret]|].
    apply runs_silent; [|intros r; by eapply (runs_finish_request id l r _ (fun _ us => ok_line id us))].
    apply runs_serve_rpc. intros w. pose proof (write_rec_safe i s ss d w) as Hs.
    unfold result, events, attempt, op. destruct (write_rec i s ss d w) as [? [| | |]]; done.
  - apply runs_silent; [apply runs_ask|]. intros us. by apply runs_answer; [|apply runs_ret].
  - by apply runs_answer; [|apply runs_ret].
Qed.

(** The answer to a control line bears no id. *)
Lemma control_answer_id cmd s allow j : snd (fst (apply_control_cmd cmd s allow)) = Some j -> field "id" j = None.
Proof.
  assert (Hr : forall j, snd (fst (run_control_cmd cmd s)) = Some j -> field "id" j = None).
  { intros j'. unfold run_control_cmd. destruct cmd as [m on|m| |]; [by intros [= <-]| |by intros [= <-]|done].
    destruct (trigger_pulse s m) as [s' [r|]]; by intros [= <-]. }
  unfold apply_control_cmd. destruct (requested cmd) as [m|]; [|apply Hr].
  destruct (outside m allow); [by intros [= <-]|apply Hr].
Qed.

Lemma owes_handle_line c line l :
  owes (handle_line c line l)
    (match parse_serve_line line with Ok (Rpc cmd) => [JNum (cmd_id cmd)] | _ => [] end).
Proof using WS.
  unfold handle_line. destruct (parse_serve_line line) as [[r|cmd]|e| |].
  - intros w. pose proof (rpc_request_answered c r l w) as Hr. destruct (result _ w); try done.
    destruct Hr as (j & -> & Hj). cbn. by rewrite Hj.
  - unfold control_line. destruct cmd; try done.
    all: destruct (negb (c_cyclic c)); [by intros w|].
    all: match goal with |- context [apply_control_cmd ?x ?s ?a] => pose proof (control_answer_id x s a) as Ha;
           destruct (apply_control_cmd x s a) as [[s' [j|]] q] end; cbn in Ha.
    all: intros w; destruct q; cbn; rewrite ?(Ha _ eq_refl); done.
  - by intros w.
  - done.
  - done.
Qed.
End Answers.
Arguments owes : simpl never.

Ltac ostep :=
  match goal with
  | |- owes (sret _) _ => apply owes_ret
  | |- owes (continue_ _) _ => apply owes_ret
  | |- owes (break _) _ => apply owes_ret
  | |- owes (slift _) _ => apply owes_lift
  | |- owes (act _) _ => apply owes_act
  | |- owes (ask _) _ => apply owes_ask
  | |- owes (drive _ _ _) _ => apply owes_drive
  | |- owes (attempt _) _ => apply owes_attempt
  | |- owes (op _) _ => apply owes_op
  | |- owes (elapsed _) _ => unfold elapsed
  | |- owes (emit _) _ => by intros ?
  | |- owes (ev _) _ => by intros ?
  | |- owes (andthen _ _) _ => unfold andthen
  | |- owes (sbind _ _) _ => apply owes_bind; [|intros ?]
  | |- owes (if ?b then _ else _) _ => destruct b
  | |- owes (match ?x with _ => _ end) _ => destruct x
  end.
Ltac oauto := repeat ostep.

Section AnswersSession.
Context {W : Type} `{WS : WorldSafe W} (c : Config).

Lemma owes_serve_rpc {A} last gap (op_ : S W A) : owes op_ [] -> owes (serve_rpc last gap op_) [].
Proof.
  intros Hop. unfold serve_rpc. generalize SERVE_BUSY_RETRIES true EmptyString last.
  induction n as [|n IH]; intros first busy last'; cbn [serve_rpc_loop]; [oauto|].
  unfold serve_pace. oauto; [exact Hop|apply IH].
Qed.

Lemma owes_receive l : owes (W := W) (receive c l) [].
Proof using WS.
  unfold receive. ostep; [oauto|]. destruct a as [line| |]; [|unfold idle; oauto; apply owes_serve_rpc; oauto|oauto].
  intros w. pose proof (owes_handle_line c line) as Hh. unfold events, sbind, ask, ev.
  destruct (now w) as [w1 t]. specialize (Hh (set_activity t l) w1). unfold events in Hh.
  destruct (handle_line c line (set_activity t l) w1) as [[w2 e2] o]. cbn [fst snd app] in *.
  cbn [omap list_omap answer_id request_id]. rewrite Hh. by destruct (parse_serve_line line) as [[r|cmd]|e| |].
Qed.

Lemma owes_pass start l : owes (W := W) (pass c start l) [].
Proof using WS.
  unfold pass, pass_checks. ostep. ostep; [oauto|]. destruct a as [l1|]; [|oauto].
  ostep; [apply owes_receive|]. destruct a as [l2|]; [|oauto].
  unfold cyclic_part, drive_output, advance_pulses, deadman, report_status. oauto.
Qed.

Lemma owes_passes n start l : owes (W := W) (passes n c start l) [].
Proof using WS.
  revert l. induction n as [|n IH]; intros l; cbn [passes]; [oauto|].
  ostep. ostep; [apply owes_pass|]. destruct a; [apply IH|oauto].
Qed.

Lemma owes_safe_shutdown s ss cyc reason : owes (W := W) (safe_shutdown s ss cyc reason) [].
Proof using W.
  unfold safe_shutdown. ostep; [|oauto].
  generalize 3%nat EmptyString. intros n. induction n as [|n IH]; intros rb; cbn [shutdown_rounds]; [oauto|].
  ostep. { generalize 3%nat true. intros k. induction k as [|k IHk]; intros f; cbn [command_safe]; oauto. apply IHk. }
  ostep; [oauto|]. ostep; [|oauto; apply IH].
  generalize 3%nat true rb. intros k. induction k as [|k IHk]; intros f rb'; cbn [read_back]; [oauto|].
  unfold emit_read_error. oauto; apply IHk.
Qed.

Lemma owes_session n : owes (W := W) (session n c) [].
Proof using WS.
  unfold session. ostep.
  - ostep; [unfold session_start; oauto|apply owes_passes].
  - unfold finish, safe_shutdown_verdict. oauto. apply owes_safe_shutdown.
Qed.
End AnswersSession.

(** C25: Every request is answered exactly once, in order.  Over a whole
    session, whatever the lines, the device and the link do, the ids of the
    lines emitted are the ids of the requests received, in the order received:
    no request goes unanswered (not even the one that finds the AR lost, or is
    refused for the read-only mode, or stays busy over all attempts), none is
    answered twice, and nothing else is emitted under an id. *)
Theorem answers_match_requests {W : Type} `{WS : WorldSafe W} n c w :
  omap answer_id (events (serve_session (W := W) n c) w)
  = omap request_id (events (serve_session (W := W) n c) w).
Proof.
  unfold serve_session, events, with_drops. pose proof (owes_session c n w) as Hs. unfold events in Hs.
  destruct (session n c w) as [[w1 e1] o].
  assert (Hd : owes (W := W) (drop_locals c) []) by (unfold drop_locals; oauto).
  specialize (Hd w1). unfold events in Hd. destruct (drop_locals c w1) as [[w2 e2] o2].
  cbn [fst snd] in *. by rewrite !omap_app, Hs, Hd.
Qed.

(** ** A world to run it in *)

Module Demo.

(** A device that echoes the driven byte, a script for stdin, and a clock. *)
Record Bench := mkBench { time : Z; stdin : list Recv; image : Z }.

#[export] Instance bench_world : World Bench := {|
  read_raw i s ss n w := (w, Ok (output_record 0 [0x80] [0x80] [image w] [1; 0]));
  write_rec i s ss d w := (w, Err "PNIO error status 0xDE80B500 (denied)");
  release w := w;
  set_output_data s ss d w := (mkBench (time w) (stdin w) (default 0 (head d)), Ok tt);
  stop_safe s ss d w := w;
  drop_ctl w := w;
  ctl_state w := (w, Cyclic.Running);
  ever_faulted w := (w, false);
  ctl_stats w := (w, Cyclic.stats_new 0);
  recv_timeout t w :=
    match stdin w with
    | [] => (mkBench (time w + Z.max 0 t) [] (image w), RTimeout)
    | RTimeout :: l => (mkBench (time w + Z.max 0 t) l (image w), RTimeout)
    | r :: l => (mkBench (time w) l (image w), r)
    end;
  now w := (mkBench (time w + 1) (stdin w) (image w), time w);
  host_unix_us w := (w, time w);
  sleep n w := mkBench (time w + Z.max 0 n) (stdin w) (image w);
  shutdown_flag w := (w, false);
|}.

#[export] Instance bench_safe : WorldSafe Bench.
Proof. by split. Defined.

#[export] Instance bench_clock : WorldClock Bench.
Proof.
  refine {| clock := time; silent := fun w => Forall (fun r => r = RTimeout) (stdin w) |};
    intros; cbn in *; try (split; [cbn; lia|done]).
  - lia.
  - destruct (stdin w) as [|[l| |] rest]; cbn; (split; [lia|]); intros Hs; try done; by inversion Hs.
  - destruct (stdin w) as [|[l| |] rest]; cbn in *; try done; lia.
  - destruct (stdin w) as [|[l| |] rest]; cbn in *; try done; inversion H; by subst.
Defined.

Definition config : Config :=
  {| c_read_only := false; c_gap := 20000; c_keepalive_ms := 0; c_cyclic := true; c_cycle_ms := 32;
     c_seconds := 0; c_allow_mask := 0x03; c_out_slot := 1; c_out_subslot := 1 |}.

(** A JSON line, its quotes written as [']. *)
Fixpoint quoted (s : string) : string :=
  match s with
  | EmptyString => EmptyString
  | String c s => String (if Ascii.eqb c (chr 39) then chr 34 else c) (quoted s)
  end.
Definition line (s : string) : Recv := RLine (quoted s).

Definition script : list Recv :=
  [line "{'cmd':'set_level','mask':1,'on':true}"; line "{'id':7,'cmd':'ping'}"; RTimeout;
   line "{'cmd':'set_level','mask':4,'on':true}"; line "{'id':8,'cmd':'write','index':1,'slot':1,'subslot':1,'hex':'00'}";
   line "{'id':9,'cmd':'quit'}"].

Definition bench : Bench := mkBench 1000000 script 0.

End Demo.

Section Witnesses.
Import Demo.

Lemma every_exit_is_commanded_safe_witness :
  result (serve_session 10 config) bench = Ok (Some 0) /\
  exists stop, session_end config stop (Ok 0) (events (serve_session 10 config) bench).
Proof.
  assert (E : result (serve_session 10 config) bench = Ok (Some 0)) by (vm_compute; reflexivity).
  split; [exact E|].
  pose proof (every_exit_is_commanded_safe config ltac:(vm_compute; split; congruence) 10 bench) as H.
  cbn zeta in H. rewrite E in H. exact H.
Defined.

Lemma session_drives_authorised_witness :
  byte_ok (c_allow_mask config) /\ Drive [1] true ∈ events (serve_session 10 config) bench /\
  Forall (authorised (c_allow_mask config)) (events (serve_session 10 config) bench).
Proof.
  split_and!; [vm_compute; split; congruence| |].
  - vm_compute. do 3 (apply list_elem_of_further). apply list_elem_of_here.
  - apply (session_drives_authorised 10 config bench). vm_compute. split; congruence.
Defined.

Lemma answers_match_requests_witness :
  omap answer_id (events (serve_session 10 config) bench) = [JNum 7; JNum 8; JNum 9] /\
  omap request_id (events (serve_session 10 config) bench) = [JNum 7; JNum 8; JNum 9].
Proof.
  pose proof (answers_match_requests 10 config bench) as H.
  assert (E : omap answer_id (events (serve_session 10 config) bench) = [JNum 7; JNum 8; JNum 9])
    by (vm_compute; reflexivity).
  split; [exact E|]. rewrite <- H. exact E.
Defined.

(** A level bit held, and nobody writing. *)
Lemma deadman_fires_witness :
  exists stop, result (passes 157 config 0 (mkLoop 0 0 (mkControl 1 []) 1 0 0 0)) (mkBench 0 [] 1) = Ok (inr stop).
Proof.
  apply (deadman_fires config 157 0 (mkLoop 0 0 (mkControl 1 []) 1 0 0 0) (mkBench 0 [] 1)).
  - reflexivity.
  - discriminate.
  - constructor.
  - cbn. lia.
  - discriminate.
  - vm_compute. discriminate.
Defined.
End Witnesses.
