(* ===== verification/Im.v ===== *)
(** * Identification records ([src/src/im.rs])

    I&M0..I&M3, PDRealData, RealIdentificationData and I&M0FilterData: the
    record parsers, and what a device's records look like as bytes.  Accesses
    out of range panic; every loop is bounded by an announced count or by the
    bytes left.  [String] fields decoded as Latin-1 are UTF-8 text. *)

From S2P Require Import Prelude Fmt Util Gsdml Dcp.

#[local] Open Scope string_scope.
#[local] Open Scope list_scope.
#[local] Open Scope Z_scope.

(** ** Indices and block types *)

Definition IM0 : Z := 0xAFF0.
Definition IM1 : Z := 0xAFF1.
Definition IM2 : Z := 0xAFF2.
Definition IM3 : Z := 0xAFF3.
Definition IM4 : Z := 0xAFF4.
Definition IM5 : Z := 0xAFF5.
Definition IM6 : Z := 0xAFF6.
Definition IM7 : Z := 0xAFF7.
Definition IM8 : Z := 0xAFF8.
Definition IM9 : Z := 0xAFF9.
Definition IM10 : Z := 0xAFFA.
Definition IM11 : Z := 0xAFFB.
Definition IM12 : Z := 0xAFFC.
Definition IM13 : Z := 0xAFFD.
Definition IM14 : Z := 0xAFFE.
Definition IM15 : Z := 0xAFFF.
Definition IM0_FILTER_DATA : Z := 0xF840.
Definition EXPECTED_ID_SUBSLOT : Z := 0x8000.
Definition REAL_ID_SUBSLOT : Z := 0x8001.
Definition EXPECTED_ID_AR : Z := 0xE000.
Definition REAL_ID_AR : Z := 0xE001.
Definition MODULE_DIFF_BLOCK : Z := 0xE002.
Definition REAL_ID_API : Z := 0xF000.
Definition AR_DATA : Z := 0xF820.
Definition API_DATA : Z := 0xF821.
Definition LOG_DATA : Z := 0xF830.
Definition PDEV_DATA : Z := 0xF831.
Definition PD_REAL_DATA : Z := 0xF841.
Definition PD_EXPECTED_DATA : Z := 0xF842.
Definition AUTO_CONFIG : Z := 0xF850.
Definition DIAG_DEVICE : Z := 0xF80C.
Definition BLOCK_DIAGNOSIS_DATA : Z := 0x0010.
Definition BLOCK_EXPECTED_IDENTIFICATION_DATA : Z := 0x0012.
Definition BLOCK_REAL_IDENTIFICATION_DATA : Z := 0x0013.
Definition BLOCK_IM0 : Z := 0x0020.
Definition BLOCK_IM1 : Z := 0x0021.
Definition BLOCK_IM2 : Z := 0x0022.
Definition BLOCK_IM3 : Z := 0x0023.
Definition BLOCK_PD_PORT_DATA_REAL : Z := 0x020F.
Definition BLOCK_PD_INTERFACE_DATA_REAL : Z := 0x0240.
Definition BLOCK_PD_PORT_STATISTIC : Z := 0x0251.
Definition BLOCK_MULTIPLE_HEADER : Z := 0x0400.
Definition BLOCK_CO_CONTAINER_CONTENT : Z := 0x0401.
Definition BLOCK_AR_SERVER_BLOCK : Z := 0xF820.
Definition BLOCK_PD_REAL_DATA : Z := 0xF841.
Definition BLOCK_PD_EXPECTED_DATA : Z := 0xF842.
Definition BLOCK_REAL_IDENTIFICATION_DATA_API : Z := 0xF000.

Definition BLOCK_TYPE_NAMES : list (Z * string) :=
  [ (0x0001, "AlarmNotificationHigh");
    (0x8001, "AlarmAckHigh");
    (0x0002, "AlarmNotificationLow");
    (0x8002, "AlarmAckLow");
    (0x0008, "IODWriteReqHeader");
    (0x8008, "IODWriteResHeader");
    (0x0009, "IODReadReqHeader");
    (0x8009, "IODReadResHeader");
    (0x0010, "DiagnosisData");
    (0x0012, "ExpectedIdentificationData");
    (0x0013, "RealIdentificationData");
    (0x0020, "I&M0");
    (0x0021, "I&M1");
    (0x0022, "I&M2");
    (0x0023, "I&M3");
    (0x0024, "I&M4");
    (0x0025, "I&M5");
    (0x0026, "I&M6");
    (0x0027, "I&M7");
    (0x0028, "I&M8");
    (0x0029, "I&M9");
    (0x002A, "I&M10");
    (0x002B, "I&M11");
    (0x002C, "I&M12");
    (0x002D, "I&M13");
    (0x002E, "I&M14");
    (0x002F, "I&M15");
    (0x0101, "ARBlockReq");
    (0x8101, "ARBlockRes");
    (0x0102, "IOCRBlockReq");
    (0x8102, "IOCRBlockRes");
    (0x0103, "AlarmCRBlockReq");
    (0x8103, "AlarmCRBlockRes");
    (0x0104, "ExpectedSubmoduleBlockReq");
    (0x8104, "ModuleDiffBlock");
    (0x0110, "IODControlReqPrmEnd");
    (0x8110, "IODControlResPrmEnd");
    (0x0112, "IODControlReqAppReady");
    (0x8112, "IODControlResAppReady");
    (0x0114, "IODReleaseReq");
    (0x8114, "IODReleaseRes");
    (0x0117, "IODControlReqRTClass3");
    (0x8117, "IODControlResRTClass3");
    (0x0118, "PrmBeginReq");
    (0x8118, "PrmBeginRes");
    (0x0119, "SubmoduleListBlock");
    (0x0018, "ARData");
    (0x0019, "LogData");
    (0x001A, "APIData");
    (0x001B, "SRLData");
    (0x0200, "PDPortDataCheck");
    (0x0202, "PDPortDataAdjust");
    (0x020F, "PDPortDataReal");
    (0x0211, "PDInterfaceMrpDataAdjust");
    (0x0212, "PDInterfaceMrpDataReal");
    (0x0215, "PDPortMrpDataReal");
    (0x0219, "MrpRingStateData");
    (0x0220, "PDPortFODataReal");
    (0x0221, "PDPortFODataCheck");
    (0x0222, "PDPortFODataAdjust");
    (0x022C, "PDPortDataRealExtended");
    (0x0240, "PDInterfaceDataReal");
    (0x0251, "PDPortStatistic");
    (0x0400, "MultipleBlockHeader");
    (0x0401, "COContainerContent");
    (0xF820, "ARServerBlock");
    (0xF841, "PDRealData");
    (0xF842, "PDExpectedData");
    (0xF000, "RealIdentificationDataAPI") ].

Definition block_type_name (block_type : Z) : string :=
  match List.find (fun e => fst e =? block_type) BLOCK_TYPE_NAMES with
  | Some (_, name) => name
  | None => "Unknown(0x" +:+ hexu 4 block_type +:+ ")"
  end.

(** ** Bytes *)

(** [decode_bytes]: up to the last byte that is not zero. *)
Definition decode_bytes (d : list Z) : string := from_utf8_lossy (trim_zeros d).

Definition decode_latin1 (d : list Z) : string := bytes_str (concat (latin1_char <$> d)).

(** [(offset + 3) & !3]. *)
Definition align4 (offset : Z) : Z := (offset + 3) / 4 * 4.

(** [copy]: a fixed-size array out of a slice. *)
Definition copy (n : Z) (d : list Z) (offset : Z) : outcome (list Z) := slice d offset (offset + n).

(** ** Block headers *)

Record BlockHeader := {
  bh_block_type : Z;
  bh_block_length : Z;
  version_high : Z;
  version_low : Z;
}.

Definition body_length (h : BlockHeader) : Z :=
  if 2 <=? bh_block_length h then bh_block_length h - 2 else 0.

Definition type_name (h : BlockHeader) : string := block_type_name (bh_block_type h).

Definition parse_block_header (d : list Z) (offset : Z) : outcome (BlockHeader * Z) :=
  if len d <? offset + 6 then
    Err ("Block header requires 6 bytes, got " +:+ dec (sat_sub (len d) offset))
  else
    let? t := rd_be16 d offset in
    let? l := rd_be16 d (offset + 2) in
    let? vh := idx d (offset + 4) in
    let? vl := idx d (offset + 5) in
    Ok ({| bh_block_type := t; bh_block_length := l; version_high := vh; version_low := vl |}, offset + 6).

Record MultipleBlock := { mb_api : Z; mb_slot : Z; mb_subslot : Z; mb_nested : Z }.

Definition parse_multiple_block_header (d : list Z) (offset : Z) : outcome MultipleBlock :=
  if len d <? offset + 10 then Err "MultipleBlockHeader body requires 8 bytes after padding"
  else
    let? api := rd_be32 d (offset + 2) in
    let? slot := rd_be16 d (offset + 6) in
    let? subslot := rd_be16 d (offset + 8) in
    Ok {| mb_api := api; mb_slot := slot; mb_subslot := subslot; mb_nested := offset + 10 |}.

(** ** I&M0..I&M3 *)

Record InM0 := {
  im0_block_header : BlockHeader;
  vendor_id_high : Z;
  vendor_id_low : Z;
  order_id : list Z;
  im_serial_number : list Z;
  im_hardware_revision : Z;
  sw_revision_prefix : Z;
  im_sw_revision_functional_enhancement : Z;
  im_sw_revision_bug_fix : Z;
  im_sw_revision_internal_change : Z;
  im_revision_counter : Z;
  im_profile_id : Z;
  im_profile_specific_type : Z;
  im_version : Z;
  im_supported : Z;
}.

Definition im0_vendor_id (i : InM0) : Z := Z.lor (Z.shiftl (vendor_id_high i) 8) (vendor_id_low i).
Definition order_id_str (i : InM0) : string := decode_bytes (order_id i).
Definition serial_number_str (i : InM0) : string := decode_bytes (im_serial_number i).
Definition software_revision (i : InM0) : string :=
  (if negb (sw_revision_prefix i =? 0) then bytes_str (latin1_char (sw_revision_prefix i)) else EmptyString)
  +:+ dec (im_sw_revision_functional_enhancement i) +:+ "." +:+ dec (im_sw_revision_bug_fix i)
  +:+ "." +:+ dec (im_sw_revision_internal_change i).

Record InM1 := { im1_block_header : BlockHeader; im_tag_function : list Z; im_tag_location : list Z }.
Definition tag_function_str (i : InM1) : string := decode_bytes (im_tag_function i).
Definition tag_location_str (i : InM1) : string := decode_bytes (im_tag_location i).

Record InM2 := { im2_block_header : BlockHeader; im_date : list Z }.
Definition date_str (i : InM2) : string := decode_bytes (im_date i).

Record InM3 := { im3_block_header : BlockHeader; im_descriptor : list Z }.
Definition descriptor_str (i : InM3) : string := decode_bytes (im_descriptor i).

Definition need (name : string) (d : list Z) (size : Z) : outcome unit :=
  if len d <? size then
    Err (name +:+ ": insufficient data, need " +:+ dec size +:+ " bytes, got " +:+ dec (len d))
  else Ok tt.

Definition parse_im0 (d : list Z) : outcome InM0 :=
  do? need "PNInM0" d 60;
  let? h := parse_block_header d 0 in
  let? vh := idx d 6 in
  let? vl := idx d 7 in
  let? order := copy 20 d 8 in
  let? serial := copy 16 d 28 in
  let? hw := rd_be16 d 44 in
  let? prefix := idx d 46 in
  let? fe := idx d 47 in
  let? bf := idx d 48 in
  let? ic := idx d 49 in
  let? rc := rd_be16 d 50 in
  let? pi := rd_be16 d 52 in
  let? pt := rd_be16 d 54 in
  let? v := rd_be16 d 56 in
  let? s := rd_be16 d 58 in
  Ok {| im0_block_header := fst h; vendor_id_high := vh; vendor_id_low := vl; order_id := order;
        im_serial_number := serial; im_hardware_revision := hw; sw_revision_prefix := prefix;
        im_sw_revision_functional_enhancement := fe; im_sw_revision_bug_fix := bf;
        im_sw_revision_internal_change := ic; im_revision_counter := rc; im_profile_id := pi;
        im_profile_specific_type := pt; im_version := v; im_supported := s |}.

Definition parse_im1 (d : list Z) : outcome InM1 :=
  do? need "PNInM1" d 60;
  let? h := parse_block_header d 0 in
  let? f := copy 32 d 6 in
  let? l := copy 22 d 38 in
  Ok {| im1_block_header := fst h; im_tag_function := f; im_tag_location := l |}.

Definition parse_im2 (d : list Z) : outcome InM2 :=
  do? need "PNInM2" d 22;
  let? h := parse_block_header d 0 in
  let? date := copy 16 d 6 in
  Ok {| im2_block_header := fst h; im_date := date |}.

Definition parse_im3 (d : list Z) : outcome InM3 :=
  do? need "PNInM3" d 60;
  let? h := parse_block_header d 0 in
  let? x := copy 54 d 6 in
  Ok {| im3_block_header := fst h; im_descriptor := x |}.

(** ** PDRealData *)

Record SlotInfo := {
  si_slot : Z;
  si_subslot : Z;
  si_api : Z;
  si_module_ident : Z;
  si_submodule_ident : Z;
  si_blocks : list string;
}.

Definition to_device_slot (s : SlotInfo) : DeviceSlot :=
  {| ds_slot := si_slot s; ds_subslot := si_subslot s; ds_module_ident := si_module_ident s;
     ds_submodule_ident := si_submodule_ident s |}.

Record PeerInfo := { peer_port_id : string; peer_chassis_id : string; peer_mac : list Z }.

Record PortInfo := {
  pt_slot : Z;
  pt_subslot : Z;
  pt_port_id : string;
  mau_type : Z;
  link_state_port : Z;
  link_state_link : Z;
  media_type : Z;
  peers : list PeerInfo;
  domain_boundary : Z;
  multicast_boundary : Z;
}.

Definition link_state (p : PortInfo) : string :=
  match link_state_link p with
  | 0 => "Unknown" | 1 => "Up" | 2 => "Down" | 3 => "Testing"
  | other => "Unknown(" +:+ dec other +:+ ")"
  end.

Record InterfaceInfo := {
  if_chassis_id : string;
  if_mac : list Z;
  if_ip : list Z;
  if_subnet : list Z;
  if_gateway : list Z;
}.

(** [mac_colon_str] and [dotted]. *)
Definition mac_colon_str (mac : list Z) : string := String.concat ":" (hexl 2 <$> mac).
Definition dotted (ip : list Z) : string := String.concat "." (dec <$> ip).

Definition peer_mac_str (p : PeerInfo) : string := mac_colon_str (peer_mac p).
Definition interface_mac_str (i : InterfaceInfo) : string := mac_colon_str (if_mac i).
Definition ip_str (i : InterfaceInfo) : string := dotted (if_ip i).
Definition subnet_str (i : InterfaceInfo) : string := dotted (if_subnet i).
Definition gateway_str (i : InterfaceInfo) : string := dotted (if_gateway i).

Record PdRealData := {
  pd_slots : list SlotInfo;
  pd_interface : option InterfaceInfo;
  pd_ports : list PortInfo;
  pd_raw_blocks : list (Z * Z * Z * list Z);
}.

Definition PD_BLOCK_HEADER_SIZE : Z := 6.

(** [align_from_block]: padding counts from the block's header. *)
Definition align_from_block (start body_offset : Z) : Z :=
  start + (align4 (PD_BLOCK_HEADER_SIZE + (body_offset - start)) - PD_BLOCK_HEADER_SIZE).

Definition parse_pd_interface_data_real (d : list Z) (start : Z) : outcome InterfaceInfo :=
  if len d <=? start then Err "Truncated chassis ID"
  else
    let? chassis_len := idx d start in
    let offset := start + 1 in
    if len d <? offset + chassis_len then Err "Truncated chassis ID"
    else
      let? chassis := slice d offset (offset + chassis_len) in
      let offset := align_from_block start (offset + chassis_len) in
      if len d <? offset + 6 then Err "Truncated MAC address"
      else
        let? mac := copy 6 d offset in
        let offset := align_from_block start (offset + 6) in
        if len d <? offset + 12 then Err "Truncated IP configuration"
        else
          let? ip := copy 4 d offset in
          let? subnet := copy 4 d (offset + 4) in
          let? gateway := copy 4 d (offset + 8) in
          Ok {| if_chassis_id := decode_latin1 chassis; if_mac := mac; if_ip := ip; if_subnet := subnet;
                if_gateway := gateway |}.

(** A text with a length already read, if it is all there. *)
Definition opt_text (d : list Z) (offset n : Z) : outcome (string * Z) :=
  if offset + n <=? len d then
    let? s := slice d offset (offset + n) in Ok (decode_latin1 s, offset + n)
  else Ok (EmptyString, offset).

(** [if data.len() >= offset + n { ...; offset += n }] around a read. *)
Definition opt_read {A} (d : list Z) (offset n : Z) (dflt : A) (read : outcome A) : outcome (A * Z) :=
  if offset + n <=? len d then let? v := read in Ok (v, offset + n) else Ok (dflt, offset).

Definition align_from (start offset : Z) : Z := start + align4 (offset - start).

(** One peer of a port; [Break] on truncation. *)
Definition peer_body (d : list Z) (start : Z) (st : Z * list PeerInfo)
    : outcome (step (Z * list PeerInfo) (Z * list PeerInfo)) :=
  let '(offset, ps) := st in
  if len d <? offset + 1 then Ok (Break st)
  else
    let? n := idx d offset in
    let? r := opt_text d (offset + 1) n in
    let '(port, offset) := r in
    if len d <? offset + 1 then Ok (Break (offset, ps))
    else
      let? n := idx d offset in
      let? r := opt_text d (offset + 1) n in
      let '(chassis, offset) := r in
      let offset := align_from start offset in
      let? r := opt_read d offset 6 [0; 0; 0; 0; 0; 0] (copy 6 d offset) in
      let '(mac, offset) := r in
      Ok (Continue (align_from start offset,
                    ps ++ [ {| peer_port_id := port; peer_chassis_id := chassis; peer_mac := mac |} ])).

(** What follows the peers. *)
Definition port_tail (d : list Z) (start slot subslot : Z) (port_id : string) (ps : list PeerInfo) (offset : Z)
    : outcome PortInfo :=
  let? r := opt_read d offset 2 0 (rd_be16 d offset) in
  let '(mau, offset) := r in
  let offset := align_from start offset in
  let? r := opt_read d offset 8 (0, 0)
              (let? a := rd_be32 d offset in let? b := rd_be32 d (offset + 4) in Ok (a, b)) in
  let '(domain, multicast, offset) := r in
  let? r := opt_read d offset 2 (0, 0)
              (let? a := idx d offset in let? b := idx d (offset + 1) in Ok (a, b)) in
  let '(lport, llink, offset) := r in
  let offset := align_from start offset in
  let? r := opt_read d offset 4 0 (rd_be32 d offset) in
  Ok {| pt_slot := slot; pt_subslot := subslot; pt_port_id := port_id; mau_type := mau;
        link_state_port := lport; link_state_link := llink; media_type := fst r; peers := ps;
        domain_boundary := domain; multicast_boundary := multicast |}.

Definition empty_port (slot subslot : Z) : PortInfo :=
  {| pt_slot := slot; pt_subslot := subslot; pt_port_id := EmptyString; mau_type := 0; link_state_port := 0;
     link_state_link := 0; media_type := 0; peers := []; domain_boundary := 0; multicast_boundary := 0 |}.

Definition parse_pd_port_data_real (d : list Z) (start slot subslot : Z) : outcome PortInfo :=
  let offset := align4 start in
  let? r := opt_read d offset 4 (slot, subslot)
              (let? a := rd_be16 d offset in let? b := rd_be16 d (offset + 2) in Ok (a, b)) in
  let '(slot, subslot, offset) := r in
  if len d <? offset + 1 then Ok (empty_port slot subslot)
  else
    let? n := idx d offset in
    let? r := opt_text d (offset + 1) n in
    let '(port_id, offset) := r in
    let? r := opt_read d offset 1 0 (idx d offset) in
    let '(num_peers, offset) := r in
    let? r := for_count (Z.to_nat num_peers) (peer_body d start) (align_from start offset, []) in
    let '(offset, ps) := r in
    port_tail d start slot subslot port_id ps offset.

Definition no_data : PdRealData :=
  {| pd_slots := []; pd_interface := None; pd_ports := []; pd_raw_blocks := [] |}.
Definition with_interface (i : InterfaceInfo) (r : PdRealData) : PdRealData :=
  {| pd_slots := pd_slots r; pd_interface := Some i; pd_ports := pd_ports r; pd_raw_blocks := pd_raw_blocks r |}.
Definition push_port (p : PortInfo) (r : PdRealData) : PdRealData :=
  {| pd_slots := pd_slots r; pd_interface := pd_interface r; pd_ports := pd_ports r ++ [p];
     pd_raw_blocks := pd_raw_blocks r |}.
Definition push_slot (s : SlotInfo) (raw : Z * Z * Z * list Z) (r : PdRealData) : PdRealData :=
  {| pd_slots := pd_slots r ++ [s]; pd_interface := pd_interface r; pd_ports := pd_ports r;
     pd_raw_blocks := pd_raw_blocks r ++ [raw] |}.

(** One nested block: its name is noted, an interface or a port parsed.  The
    state is the offset, the names and the result. *)
Definition nested_body (d : list Z) (block_end slot subslot : Z) (st : Z * list string * PdRealData)
    : outcome (step (Z * list string * PdRealData) (list string * PdRealData)) :=
  let '(offset, names, result) := st in
  if offset + 6 <=? block_end then
    let? h := ok_ (parse_block_header d offset) in
    match h with
    | None => Ok (Break (names, result))
    | Some (h, body) =>
        let names := names ++ [type_name h] in
        let? result :=
          (if bh_block_type h =? BLOCK_PD_INTERFACE_DATA_REAL then
             let? i := ok_ (parse_pd_interface_data_real d body) in
             Ok (match i with Some i => with_interface i result | None => result end)
           else if bh_block_type h =? BLOCK_PD_PORT_DATA_REAL then
             let? p := parse_pd_port_data_real d body slot subslot in Ok (push_port p result)
           else Ok result) in
        Ok (Continue (body + body_length h, names, result))
    end
  else Ok (Break (names, result)).

(** One block of the record. *)
Definition pd_body (d : list Z) (st : Z * PdRealData) : outcome (step (Z * PdRealData) PdRealData) :=
  let '(offset, result) := st in
  if offset + 6 <=? len d then
    let? h := ok_ (parse_block_header d offset) in
    match h with
    | None => Ok (Break result)
    | Some (h, body) =>
        let block_end := body + body_length h in
        let? result :=
          (if bh_block_type h =? BLOCK_MULTIPLE_HEADER then
             let? m := ok_ (parse_multiple_block_header d body) in
             match m with
             | None => Ok result
             | Some m =>
                 let? r := loop (S (length d)) (nested_body d block_end (mb_slot m) (mb_subslot m))
                             (mb_nested m, [], result) in
                 let '(names, result) := r in
                 let? raw := slice d body (Z.min block_end (len d)) in
                 Ok (push_slot {| si_slot := mb_slot m; si_subslot := mb_subslot m; si_api := mb_api m;
                                  si_module_ident := 0; si_submodule_ident := 0; si_blocks := names |}
                       (mb_api m, mb_slot m, mb_subslot m, raw) result)
             end
           else Ok result) in
        Ok (Continue (block_end, result))
    end
  else Ok (Break result).

Definition parse_pd_real_data (d : list Z) : outcome PdRealData :=
  loop (S (length d)) (pd_body d) (0, no_data).

(** ** RealIdentificationData *)

Record RealIdentificationData := { ri_slots : list SlotInfo; ri_version : Z * Z }.

(** The submodules of a module, the modules of an API; the state is the offset
    and what was found. *)
Definition real_subslot (d : list Z) (api slot module_ident : Z) (st : Z * list SlotInfo)
    : outcome (step (Z * list SlotInfo) (Z * list SlotInfo)) :=
  let '(offset, slots) := st in
  if len d <? offset + 6 then Ok (Break st)
  else
    let? subslot := rd_be16 d offset in
    let? ident := rd_be32 d (offset + 2) in
    Ok (Continue (offset + 6,
          slots ++ [ {| si_slot := slot; si_subslot := subslot; si_api := api; si_module_ident := module_ident;
                        si_submodule_ident := ident; si_blocks := [] |} ])).

Definition real_slot (d : list Z) (api : Z) (st : Z * list SlotInfo)
    : outcome (step (Z * list SlotInfo) (Z * list SlotInfo)) :=
  let '(offset, slots) := st in
  if len d <? offset + 8 then Ok (Break st)
  else
    let? slot := rd_be16 d offset in
    let? module_ident := rd_be32 d (offset + 2) in
    let? n := rd_be16 d (offset + 6) in
    let? st := for_count (Z.to_nat n) (real_subslot d api slot module_ident) (offset + 8, slots) in
    Ok (Continue st).

Definition real_api (d : list Z) (st : Z * list SlotInfo)
    : outcome (step (Z * list SlotInfo) (Z * list SlotInfo)) :=
  let '(offset, slots) := st in
  if len d <? offset + 6 then Ok (Break st)
  else
    let? api := rd_be32 d offset in
    let? n := rd_be16 d (offset + 4) in
    let? st := for_count (Z.to_nat n) (real_slot d api) (offset + 6, slots) in
    Ok (Continue st).

Definition parse_real_identification_data (d : list Z) : outcome RealIdentificationData :=
  let? r := (if 6 <=? len d then
               let? h := ok_ (parse_block_header d 0) in
               Ok (match h with
                   | Some (h, offset) => ((version_high h, version_low h), offset)
                   | None => ((1, 0), 0)
                   end)
             else Ok ((1, 0), 0)) in
  let '(version, offset) := r in
  if len d <? offset + 2 then Ok {| ri_slots := []; ri_version := version |}
  else
    let? n := rd_be16 d offset in
    let body := if (1 <=? fst version) && (1 <=? snd version) then real_api d else real_slot d 0 in
    let? st := for_count (Z.to_nat n) body (offset + 2, []) in
    Ok {| ri_slots := snd st; ri_version := version |}.

(** ** I&M0FilterData *)

(** api -> slot -> (module_ident, subslot -> submodule_ident). *)
Definition InM0FilterData : Type := btree (btree (Z * btree Z)).

Definition filter_subslot (d : list Z) (st : Z * btree Z) : outcome (step (Z * btree Z) (Z * btree Z)) :=
  let '(offset, m) := st in
  if len d <? offset + 6 then Err "InM0FilterData: truncated subslot entry"
  else
    let? subslot := rd_be16 d offset in
    let? ident := rd_be32 d (offset + 2) in
    Ok (Continue (offset + 6, bt_insert subslot ident m)).

Definition filter_module (d : list Z) (st : Z * btree (Z * btree Z))
    : outcome (step (Z * btree (Z * btree Z)) (Z * btree (Z * btree Z))) :=
  let '(offset, m) := st in
  if len d <? offset + 8 then Err "InM0FilterData: truncated module header"
  else
    let? slot := rd_be16 d offset in
    let? ident := rd_be32 d (offset + 2) in
    let? n := rd_be16 d (offset + 6) in
    let? r := for_count (Z.to_nat n) (filter_subslot d) (offset + 8, []) in
    let '(offset, subslots) := r in
    Ok (Continue (offset, bt_insert slot (ident, subslots) m)).

Definition filter_api (d : list Z) (st : Z * InM0FilterData)
    : outcome (step (Z * InM0FilterData) (Z * InM0FilterData)) :=
  let '(offset, m) := st in
  if len d <? offset + 6 then Err "InM0FilterData: truncated API header"
  else
    let? api := rd_be32 d offset in
    let? n := rd_be16 d (offset + 4) in
    let? r := for_count (Z.to_nat n) (filter_module d) (offset + 6, []) in
    let '(offset, entry) := r in
    Ok (Continue (offset, bt_insert api entry m)).

Definition parse_inm0_filter (d : list Z) : outcome InM0FilterData :=
  let? _ := parse_block_header d 0 in
  let? d := slice_from d 6 in
  if len d <? 2 then Err "InM0FilterData: truncated API count"
  else
    let? n := rd_be16 d 0 in
    let? r := for_count (Z.to_nat n) (filter_api d) (2, []) in
    Ok (snd r).

(** ** Totality *)

Lemma parse_block_header_spec d o :
  0 <= o -> wp (parse_block_header d o)
    (fun r => snd r = o + 6 /\ o + 6 <= len d /\ (bytes_ok d -> u16_ok (bh_block_length (fst r))))
    (fun _ => len d < o + 6).
Proof. intros Ho. unfold parse_block_header. wp_auto; [lia|]. cbn. split_and!; [done|lia|auto]. Qed.

Lemma wp_ok_block_header d o P :
  0 <= o -> (len d < o + 6 -> P None) ->
  (forall h, o + 6 <= len d -> (bytes_ok d -> u16_ok (bh_block_length h)) -> P (Some (h, o + 6))) ->
  total (ok_ (parse_block_header d o)) P.
Proof.
  intros Ho Hn Hs. pose proof (parse_block_header_spec d o Ho) as H.
  destruct (parse_block_header d o) as [[h b]|e| |]; cbn in *; try done; [|by apply Hn].
  destruct H as (-> & H1 & H2). by apply Hs.
Qed.

Lemma body_length_bound h : 0 <= body_length h.
Proof. unfold body_length. destruct (_ <=? _) eqn:E; lia. Qed.

Lemma align4_bound o : 0 <= o -> o <= align4 o < o + 4.
Proof. intros Ho. unfold align4. zdiv. Qed.

Lemma align_from_bound s o : s <= o -> o <= align_from s o < o + 4.
Proof. intros Ho. unfold align_from. pose proof (align4_bound (o - s)). lia. Qed.

Lemma align_from_block_bound s o : s <= o -> o <= align_from_block s o < o + 4.
Proof. intros Ho. unfold align_from_block, PD_BLOCK_HEADER_SIZE. pose proof (align4_bound (6 + (o - s))). lia. Qed.

Lemma pd_interface_safe d start : bytes_ok d -> 0 <= start -> safe (parse_pd_interface_data_real d start).
Proof.
  intros Hd Hs. unfold parse_pd_interface_data_real, copy.
  wp_step. wp_step; [done|]. wp_step. wp_step. specialize (H Hd). unfold byte_ok in H.
  pose proof (align_from_block_bound start (start + 1 + v)).
  pose proof (align_from_block_bound start (align_from_block start (start + 1 + v) + 6)).
  wp_auto; done.
Qed.

(** What an optional field leaves: its value and an offset at or past its own. *)
Lemma wp_opt_text d o n E : 0 <= o -> 0 <= n -> wp (opt_text d o n) (fun r => o <= snd r) E.
Proof. intros. unfold opt_text. wp_auto; cbn; lia. Qed.

Lemma wp_opt_read {A} d o n (dflt : A) read (Q : A -> Prop) E :
  0 <= n -> Q dflt -> (o + n <= len d -> wp read Q E) ->
  wp (opt_read d o n dflt read) (fun r => Q (fst r) /\ o <= snd r) E.
Proof.
  intros Hn Hd Hr. unfold opt_read. destruct (_ <=? _) eqn:Ho; [|cbn; split; [done|lia]].
  eapply wp_bind_ok; [apply Hr; lia|]. intros v Hv. cbn. split; [done|lia].
Qed.

Lemma peer_body_ok d start st E :
  bytes_ok d -> 0 <= start <= fst st ->
  wp (peer_body d start st) (fun r => match r with Continue s | Break s => start <= fst s end) E.
Proof.
  intros Hd Ho. destruct st as [o ps]. cbn in Ho. unfold peer_body.
  wp_step; [cbn; lia|]. wp_step. wp_step. specialize (H Hd). unfold byte_ok in H.
  eapply wp_bind_ok; [apply wp_opt_text; lia|]. intros [port o1] H1. cbn in H1.
  wp_step; [cbn; lia|]. wp_step. wp_step. specialize (H0 Hd). unfold byte_ok in H0.
  eapply wp_bind_ok; [apply wp_opt_text; lia|]. intros [chassis o2] H2. cbn in H2.
  pose proof (align_from_bound start o2) as A2.
  eapply wp_bind_ok; [apply (wp_opt_read _ _ _ _ _ (fun _ => True)); [lia|done|intros; unfold copy; wp_auto; done]|].
  intros [mac o3] [_ B3]. cbn in *. pose proof (align_from_bound start o3). lia.
Qed.

Lemma port_tail_total d start slot subslot pid ps o :
  0 <= start <= o -> total (port_tail d start slot subslot pid ps o) (fun p => peers p = ps).
Proof.
  intros Ho. unfold port_tail.
  eapply wp_bind_ok; [apply (wp_opt_read _ _ _ _ _ (fun _ => True)); [lia|done|intros; wp_auto; done]|].
  intros [mau o1] [_ B1]. cbn in B1. pose proof (align_from_bound start o1) as A1.
  eapply wp_bind_ok; [apply (wp_opt_read _ _ _ _ _ (fun _ => True)); [lia|done|intros; wp_auto; done]|].
  intros [[dom mc] o2] [_ B2]. cbn in B2.
  eapply wp_bind_ok; [apply (wp_opt_read _ _ _ _ _ (fun _ => True)); [lia|done|intros; wp_auto; done]|].
  intros [[lp ll] o3] [_ B3]. cbn in B3. pose proof (align_from_bound start o3) as A3.
  eapply wp_bind_ok; [apply (wp_opt_read _ _ _ _ _ (fun _ => True)); [lia|done|intros; wp_auto; done]|].
  intros [mt o4] _. done.
Qed.

Lemma pd_port_total d start slot subslot :
  bytes_ok d -> 0 <= start -> total (parse_pd_port_data_real d start slot subslot) (fun _ => True).
Proof.
  intros Hd Hs. unfold parse_pd_port_data_real. pose proof (align4_bound start Hs).
  eapply wp_bind_ok; [apply (wp_opt_read _ _ _ _ _ (fun _ => True)); [lia|done|intros; wp_auto; done]|].
  intros [[sl ss] o1] [_ H1]. cbn in H1. wp_step; [done|]. wp_step. wp_step. specialize (H0 Hd). unfold byte_ok in H0.
  eapply wp_bind_ok; [apply wp_opt_text; lia|]. intros [pid o2] H2. cbn in H2.
  eapply wp_bind_ok; [apply (wp_opt_read _ _ _ _ _ (fun _ => True)); [lia|done|intros; wp_auto; done]|].
  intros [np o3] [_ H3]. cbn in H3. pose proof (align_from_bound start o3).
  eapply wp_bind_ok; [apply (wp_for_count (fun st => start <= fst st)); [cbn; lia|]|].
  - intros st Hst. apply peer_body_ok; [done|lia].
  - intros [o4 ps] B4. cbn in B4. eapply wp_mono; [apply port_tail_total; lia|done|done].
Qed.

Lemma nested_total d block_end sl ss o result :
  bytes_ok d -> 0 <= o ->
  total (loop (S (length d)) (nested_body d block_end sl ss) (o, [], result)) (fun _ => True).
Proof.
  intros Hd Ho.
  apply wp_loop with (I := fun st => 0 <= fst (fst st)) (m := fun st => Z.to_nat (len d - fst (fst st)));
    [|cbn; lia|cbn; lia].
  intros [[o' names] r] Ho'. cbn in Ho'. unfold nested_body. wp_step; [|done]. apply wp_bind.
  apply wp_ok_block_header; [lia|done|]. intros h Hl _. cbv beta iota. pose proof (body_length_bound h).
  eapply wp_bind_ok with (Q := fun _ => True).
  - wp_step; [|wp_step; [|done]].
    + apply wp_bind. eapply wp_mono; [apply safe_ok_, pd_interface_safe; [done|lia]| |done]. done.
    + eapply wp_bind_ok; [apply pd_port_total; [done|lia]|]. done.
  - intros r' _. cbn. lia.
Qed.

Lemma multiple_header_spec d o :
  0 <= o -> total (ok_ (parse_multiple_block_header d o))
    (fun m => match m with Some m => 0 <= mb_nested m | None => True end).
Proof.
  intros Ho. assert (H : wp (parse_multiple_block_header d o) (fun m => 0 <= mb_nested m) (fun _ => True)).
  { unfold parse_multiple_block_header. wp_auto; [done|cbn; lia]. }
  by destruct (parse_multiple_block_header d o).
Qed.

Lemma parse_pd_real_data_total d : bytes_ok d -> total (parse_pd_real_data d) (fun _ => True).
Proof.
  intros Hd. unfold parse_pd_real_data.
  apply wp_loop with (I := fun st => 0 <= fst st) (m := fun st => Z.to_nat (len d - fst st)); [|cbn; lia|cbn; lia].
  intros [o r] Ho. cbn in Ho. unfold pd_body. wp_step; [|done]. apply wp_bind.
  apply wp_ok_block_header; [lia|done|]. intros h Hl _. cbv beta iota. pose proof (body_length_bound h).
  eapply wp_bind_ok with (Q := fun _ => True).
  - wp_step; [|done]. eapply wp_bind_ok; [apply multiple_header_spec; lia|]. intros [m|] Hm; [|done].
    eapply wp_bind_ok; [by apply nested_total|]. intros [names r'] _. wp_auto; done.
  - intros r' _. cbn. lia.
Qed.

Lemma parse_real_identification_total d :
  bytes_ok d -> total (parse_real_identification_data d) (fun _ => True).
Proof.
  intros Hd. unfold parse_real_identification_data.
  eapply wp_bind_ok with (Q := fun r => 0 <= snd r).
  { wp_step; [|cbn; lia]. apply wp_bind. apply wp_ok_block_header; [lia|cbn; lia|]. intros; cbn; lia. }
  intros [v o] Ho. cbn in Ho. wp_step; [done|]. wp_step. wp_step.
  assert (Hsub : forall api sl mi st, 0 <= fst st -> wp (real_subslot d api sl mi st)
            (fun r => match r with Continue s | Break s => 0 <= fst s end) (fun _ => False)).
  { intros api sl mi [o' l] Ho'. cbn in Ho'. unfold real_subslot. wp_auto; cbn; lia. }
  assert (Hslot : forall api st, 0 <= fst st -> wp (real_slot d api st)
            (fun r => match r with Continue s | Break s => 0 <= fst s end) (fun _ => False)).
  { intros api [o' l] Ho'. cbn in Ho'. unfold real_slot. wp_step; [done|]. do 6 wp_step.
    eapply wp_bind_ok; [apply (wp_for_count (fun st => 0 <= fst st)); [cbn; lia|apply Hsub]|]. done. }
  eapply wp_bind_ok; [apply (wp_for_count (fun st => 0 <= fst st)); [cbn; lia|]|done].
  destruct (_ && _); [|apply Hslot]. intros [o' l] Ho'. cbn in Ho'. unfold real_api. wp_step; [done|]. do 4 wp_step.
  eapply wp_bind_ok; [apply (wp_for_count (fun st => 0 <= fst st)); [cbn; lia|apply Hslot]|]. done.
Qed.

Lemma parse_inm0_filter_safe d : safe (parse_inm0_filter d).
Proof.
  unfold parse_inm0_filter. apply wp_bind.
  eapply wp_mono; [apply parse_block_header_spec; lia| |done]. intros h (_ & Hl & _).
  wp_step. wp_step. wp_step; [done|]. wp_step. wp_step.
  eapply wp_bind_ok; [apply (wp_for_count (fun st => 0 <= fst st)); [cbn; lia|]|done].
  intros [o m] Ho. cbn in Ho. unfold filter_api. wp_step; [done|]. do 4 wp_step.
  eapply wp_bind_ok; [apply (wp_for_count (fun st => 0 <= fst st)); [cbn; lia|]|].
  2: { intros [o' e] Ho'. done. }
  intros [o1 m1] Ho1. cbn in Ho1. unfold filter_module. wp_step; [done|]. do 6 wp_step.
  eapply wp_bind_ok; [apply (wp_for_count (fun st => 0 <= fst st)); [cbn; lia|]|].
  2: { intros [o' e] Ho'. done. }
  intros [o2 m2] Ho2. cbn in Ho2. unfold filter_subslot. wp_auto; cbn; try done; lia.
Qed.

(** ** What a device's records look like *)

(** A submodule, a module with its submodules, an API with its modules. *)
Record Sub := { sub_number : Z; sub_ident : Z }.
Record Mod := { mod_slot : Z; mod_ident : Z; mod_subs : list Sub }.
Record Api := { api_number : Z; api_mods : list Mod }.

Definition sub_bytes (s : Sub) : list Z := be16_bytes (sub_number s) ++ be32_bytes (sub_ident s).
Definition mod_head (m : Mod) : list Z :=
  be16_bytes (mod_slot m) ++ be32_bytes (mod_ident m) ++ be16_bytes (len (mod_subs m)).
Definition mod_bytes (m : Mod) : list Z := mod_head m ++ concat (sub_bytes <$> mod_subs m).
Definition api_head (a : Api) : list Z := be32_bytes (api_number a) ++ be16_bytes (len (api_mods a)).
Definition api_bytes (a : Api) : list Z := api_head a ++ concat (mod_bytes <$> api_mods a).

Definition sub_ok (s : Sub) : Prop := u16_ok (sub_number s) /\ u32_ok (sub_ident s).
Definition mod_ok (m : Mod) : Prop :=
  u16_ok (mod_slot m) /\ u32_ok (mod_ident m) /\ u16_ok (len (mod_subs m)) /\ Forall sub_ok (mod_subs m).
Definition api_ok (a : Api) : Prop :=
  u32_ok (api_number a) /\ u16_ok (len (api_mods a)) /\ Forall mod_ok (api_mods a).

(** A counted walk over items laid out one after the other. *)
Section Items.
Context {X T : Type} (enc : X -> list Z) (ok : X -> Prop) (put : X -> T -> T).
Context (body : list Z -> Z * T -> outcome (step (Z * T) (Z * T))).

Definition reads_item : Prop := forall pre x post acc, ok x ->
  body (pre ++ enc x ++ post) (len pre, acc) = Ok (Continue (len pre + len (enc x), put x acc)).

Definition rejects_cut_item : Prop := forall pre x k acc, ok x -> (k < length (enc x))%nat ->
  exists e, body (pre ++ take k (enc x)) (len pre, acc) = Err e.

Lemma items_read (Hr : reads_item) xs pre post acc : Forall ok xs ->
  for_count (length xs) (body (pre ++ concat (enc <$> xs) ++ post)) (len pre, acc)
  = Ok (len pre + len (concat (enc <$> xs)), foldl (fun a x => put x a) acc xs).
Proof.
  revert pre acc. induction xs as [|x xs IH]; intros pre acc Hok; cbn [length for_count fmap list_fmap concat foldl].
  - do 3 f_equal. cbn. lia.
  - apply Forall_cons in Hok as [Hx Hxs]. cbn [list_fmap concat]. rewrite <- app_assoc, Hr by done. cbn [bind].
    rewrite (app_assoc pre). replace (len pre + len (enc x)) with (len (pre ++ enc x)) by (rewrite length_app; lia).
    rewrite IH by done. do 2 f_equal. rewrite !length_app. lia.
Qed.

Lemma items_cut (Hr : reads_item) (Hc : rejects_cut_item) xs pre k acc : Forall ok xs ->
  (k < length (concat (enc <$> xs)))%nat ->
  exists e, for_count (length xs) (body (pre ++ take k (concat (enc <$> xs)))) (len pre, acc) = Err e.
Proof.
  revert pre k acc. induction xs as [|x xs IH]; intros pre k acc Hok Hk; cbn [fmap list_fmap concat length] in *; [lia|].
  apply Forall_cons in Hok as [Hx Hxs]. cbn [for_count]. fold (enc <$> xs) in *. rewrite length_app in Hk.
  destruct (decide (k < length (enc x))%nat) as [Hlt|Hge].
  - rewrite take_app_le by lia. destruct (Hc pre x k acc Hx Hlt) as [e ->]. by exists e.
  - rewrite take_app_ge by lia. rewrite Hr by done. cbn [bind]. rewrite app_assoc.
    replace (len pre + len (enc x)) with (len (pre ++ enc x)) by (rewrite length_app; lia).
    apply IH; [done|lia].
Qed.
End Items.

Lemma bind_Err {A B} (o : outcome A) (k : A -> outcome B) :
  (exists e, o = Err e) -> exists e, bind o k = Err e.
Proof. intros [e ->]. by exists e. Qed.

(** *** The topology filter *)

Definition put_sub (s : Sub) (m : btree Z) : btree Z := bt_insert (sub_number s) (sub_ident s) m.
Definition put_mod (m : Mod) (t : btree (Z * btree Z)) : btree (Z * btree Z) :=
  bt_insert (mod_slot m) (mod_ident m, foldl (fun a s => put_sub s a) [] (mod_subs m)) t.
Definition put_api (a : Api) (t : InM0FilterData) : InM0FilterData :=
  bt_insert (api_number a) (foldl (fun t m => put_mod m t) [] (api_mods a)) t.

(** The topology as a tree; a later entry for the same key replaces the earlier. *)
Definition topology (l : list Api) : InM0FilterData := foldl (fun t a => put_api a t) [] l.

Lemma filter_subslot_reads : reads_item sub_bytes sub_ok put_sub filter_subslot.
Proof.
  intros pre [n i] post acc [Hn Hi]. cbn in Hn, Hi. unfold filter_subslot, sub_bytes. cbn [sub_number sub_ident].
  rewrite <- app_assoc. len_ok. replace (len pre) with (len pre + 0) at 1 by lia.
  skip_step. skip_step. done.
Qed.

Lemma filter_subslot_cuts : rejects_cut_item sub_bytes sub_ok filter_subslot.
Proof.
  intros pre s k acc _ Hk. unfold filter_subslot. cbn in Hk.
  replace (_ <? _) with true; [by eexists|]. rewrite length_app, length_take. cbn. lia.
Qed.

(** The head of a module is read; what remains is the walk over its submodules. *)
Lemma filter_module_head pre m rest acc : mod_ok m ->
  filter_module (pre ++ mod_head m ++ rest) (len pre, acc)
  = (let? r := for_count (length (mod_subs m)) (filter_subslot ((pre ++ mod_head m) ++ rest))
                 (len (pre ++ mod_head m), []) in
     Ok (Continue (fst r, bt_insert (mod_slot m) (mod_ident m, snd r) acc))).
Proof.
  destruct m as [n i subs]. intros (Hn & Hi & Hl & Hs). cbn in Hn, Hi, Hl, Hs. rewrite (app_assoc pre).
  replace (len (pre ++ _)) with (len pre + 8) by (rewrite length_app; cbn; lia). rewrite <- app_assoc.
  unfold filter_module, mod_head. cbn [mod_slot mod_ident mod_subs]. rewrite <- !app_assoc. len_ok.
  replace (len pre) with (len pre + 0) at 1 by lia. skip_step. skip_step. skip_step. rewrite Nat2Z.id.
  by destruct (for_count _ _ _) as [[? ?]|e| |].
Qed.

Lemma filter_module_reads : reads_item mod_bytes mod_ok put_mod filter_module.
Proof.
  intros pre m post acc Hm. unfold mod_bytes. rewrite <- app_assoc, filter_module_head by done.
  destruct Hm as (Hn & Hi & Hl & Hs).
  rewrite (items_read _ _ _ _ filter_subslot_reads) by done. cbn [bind fst snd].
  do 3 f_equal. rewrite !length_app. lia.
Qed.

Lemma filter_module_cuts : rejects_cut_item mod_bytes mod_ok filter_module.
Proof.
  intros pre m k acc Hm Hk. destruct (decide (k < 8)%nat) as [Hlt|Hge].
  { unfold filter_module. replace (_ <? _) with true; [by eexists|]. rewrite length_app, length_take. lia. }
  unfold mod_bytes in *. assert (Hh : length (mod_head m) = 8%nat) by done. rewrite length_app, Hh in Hk.
  rewrite take_app_ge, filter_module_head by (done || lia). destruct Hm as (Hn & Hi & Hl & Hs).
  apply bind_Err. apply (items_cut _ _ _ _ filter_subslot_reads filter_subslot_cuts); [done|lia].
Qed.

Lemma filter_api_head pre a rest acc : api_ok a ->
  filter_api (pre ++ api_head a ++ rest) (len pre, acc)
  = (let? r := for_count (length (api_mods a)) (filter_module ((pre ++ api_head a) ++ rest))
                 (len (pre ++ api_head a), []) in
     Ok (Continue (fst r, bt_insert (api_number a) (snd r) acc))).
Proof.
  destruct a as [n mods]. intros (Hn & Hl & Hs). cbn in Hn, Hl, Hs. rewrite (app_assoc pre).
  replace (len (pre ++ _)) with (len pre + 6) by (rewrite length_app; cbn; lia). rewrite <- app_assoc.
  unfold filter_api, api_head. cbn [api_number api_mods]. rewrite <- !app_assoc. len_ok.
  replace (len pre) with (len pre + 0) at 1 by lia. skip_step. skip_step. rewrite Nat2Z.id.
  by destruct (for_count _ _ _) as [[? ?]|e| |].
Qed.

Lemma filter_api_reads : reads_item api_bytes api_ok put_api filter_api.
Proof.
  intros pre a post acc Ha. unfold api_bytes. rewrite <- app_assoc, filter_api_head by done.
  destruct Ha as (Hn & Hl & Hs).
  rewrite (items_read _ _ _ _ filter_module_reads) by done. cbn [bind fst snd].
  do 3 f_equal. rewrite !length_app. lia.
Qed.

Lemma filter_api_cuts : rejects_cut_item api_bytes api_ok filter_api.
Proof.
  intros pre a k acc Ha Hk. destruct (decide (k < 6)%nat) as [Hlt|Hge].
  { unfold filter_api. replace (_ <? _) with true; [by eexists|]. rewrite length_app, length_take. lia. }
  unfold api_bytes in *. assert (Hh : length (api_head a) = 6%nat) by done. rewrite length_app, Hh in Hk.
  rewrite take_app_ge, filter_api_head by (done || lia). destruct Ha as (Hn & Hl & Hs).
  apply bind_Err. apply (items_cut _ _ _ _ filter_module_reads filter_module_cuts); [done|lia].
Qed.

(** A record: a block header, a count, items. *)
Definition header_bytes (h : BlockHeader) : list Z :=
  be16_bytes (bh_block_type h) ++ be16_bytes (bh_block_length h) ++ [version_high h; version_low h].
Definition header_ok (h : BlockHeader) : Prop := u16_ok (bh_block_type h) /\ u16_ok (bh_block_length h).

Lemma header_read h rest : header_ok h -> parse_block_header (header_bytes h ++ rest) 0 = Ok (h, 6).
Proof.
  destruct h as [t l vh vl]. intros [Ht Hl]. cbn in Ht, Hl. unfold parse_block_header, header_bytes.
  cbn [bh_block_type bh_block_length version_high version_low]. rewrite <- !app_assoc. len_ok.
  do 4 lit_step. done.
Qed.

Definition filter_record (h : BlockHeader) (l : list Api) : list Z :=
  header_bytes h ++ be16_bytes (len l) ++ concat (api_bytes <$> l).

(** The topology record is read exactly, and never in part.  For every
    list of APIs, modules and submodules a device reports in I&M0FilterData,
    the parser returns exactly its tree (a repeated key takes its last entry),
    whatever follows the record; and of every proper prefix of the record it
    reports an error rather than the part that arrived. *)
Theorem inm0_filter_exact h l tail k :
  header_ok h -> u16_ok (len l) -> Forall api_ok l ->
  parse_inm0_filter (filter_record h l ++ tail) = Ok (topology l) /\
  ((k < length (filter_record h l))%nat ->
   exists e, parse_inm0_filter (take k (filter_record h l)) = Err e).
Proof.
  intros Hh Hn Hl. unfold parse_inm0_filter, filter_record. split.
  - rewrite <- app_assoc, header_read by done. cbn [bind].
    rewrite (slice_from_at _ (header_bytes h) ((be16_bytes (len l) ++ concat (api_bytes <$> l)) ++ tail)) by done.
    cbn [bind]. rewrite <- app_assoc. len_ok. lit_step. rewrite Nat2Z.id.
    pose proof (items_read _ _ _ _ filter_api_reads l (be16_bytes (len l)) tail ([] : InM0FilterData) Hl) as E.
    change (len (be16_bytes (len l))) with 2 in E.
    eapply bind_step; [exact E|done].
  - intros Hk. rewrite length_app in Hk. change (length (header_bytes h)) with 6%nat in Hk.
    destruct (decide (k < 6)%nat) as [Hlt|Hge].
    { unfold parse_block_header. replace (_ <? _) with true; [by eexists|]. rewrite length_take. lia. }
    rewrite take_app_ge by (cbn; lia). rewrite header_read by done. cbn [bind].
    rewrite (slice_from_at _ (header_bytes h) (take (k - 6) (be16_bytes (len l) ++ concat (api_bytes <$> l)))) by done.
    cbn [bind]. destruct (decide (k < 8)%nat) as [Hlt|Hge'].
    { replace (_ <? _) with true; [by eexists|]. rewrite length_take. lia. }
    rewrite length_app in Hk. change (length (be16_bytes (len l))) with 2%nat in Hk.
    rewrite take_app_ge by (cbn; lia). change (length (be16_bytes (len l))) with 2%nat.
    set (rest := take _ _). replace (_ <? _) with false by (rewrite length_app; cbn; lia).
    rewrite (rd_be16_word _ 0 0 (len l)) by (reflexivity || lia || done). cbn [bind]. rewrite Nat2Z.id.
    apply bind_Err. apply (items_cut _ _ _ _ filter_api_reads filter_api_cuts l (be16_bytes (len l))); [done|lia].
Qed.

(** *** Real identification *)

Definition sub_slot (api : Z) (m : Mod) (s : Sub) : SlotInfo :=
  {| si_slot := mod_slot m; si_subslot := sub_number s; si_api := api; si_module_ident := mod_ident m;
     si_submodule_ident := sub_ident s; si_blocks := [] |}.
Definition mod_slots (api : Z) (m : Mod) : list SlotInfo := sub_slot api m <$> mod_subs m.
Definition api_slots (a : Api) : list SlotInfo := concat (mod_slots (api_number a) <$> api_mods a).

Lemma foldl_app {X A} (f : X -> list A) l acc :
  foldl (fun acc x => acc ++ f x) acc l = acc ++ concat (f <$> l).
Proof.
  revert acc. induction l as [|x l IH]; intros acc; cbn; [by rewrite app_nil_r|]. by rewrite IH, <- app_assoc.
Qed.

Lemma real_subslot_reads api m :
  reads_item sub_bytes sub_ok (fun s acc => acc ++ [sub_slot api m s]) (fun d => real_subslot d api (mod_slot m) (mod_ident m)).
Proof.
  intros pre [n i] post acc [Hn Hi]. cbn in Hn, Hi. unfold real_subslot, sub_bytes. cbn [sub_number sub_ident].
  rewrite <- app_assoc. len_ok. replace (len pre) with (len pre + 0) at 1 by lia. skip_step. skip_step. done.
Qed.

Lemma real_slot_reads api :
  reads_item mod_bytes mod_ok (fun m acc => acc ++ mod_slots api m) (fun d => real_slot d api).
Proof.
  intros pre m post acc Hm. unfold mod_bytes. rewrite <- app_assoc.
  assert (E : forall rest, real_slot (pre ++ mod_head m ++ rest) api (len pre, acc)
    = (let? r := for_count (length (mod_subs m))
                   (real_subslot ((pre ++ mod_head m) ++ rest) api (mod_slot m) (mod_ident m))
                   (len (pre ++ mod_head m), acc) in Ok (Continue r))).
  { intros rest. destruct m as [n i subs]. destruct Hm as (Hn & Hi & Hl & Hs). cbn in Hn, Hi, Hl, Hs.
    rewrite (app_assoc pre).
    replace (len (pre ++ _)) with (len pre + 8) by (rewrite length_app; cbn; lia). rewrite <- app_assoc.
    unfold real_slot, mod_head. cbn [mod_slot mod_ident mod_subs]. rewrite <- !app_assoc. len_ok.
    replace (len pre) with (len pre + 0) at 1 by lia. skip_step. skip_step. skip_step. by rewrite Nat2Z.id. }
  rewrite E. eapply bind_step.
  { apply (items_read _ _ _ _ (real_subslot_reads api m)). apply Hm. }
  rewrite foldl_app. do 2 f_equal. rewrite !length_app. f_equal; [lia|]. f_equal. unfold mod_slots.
  generalize (mod_subs m). induction l as [|s l IH]; [done|]. cbn. by f_equal.
Qed.

Lemma real_api_reads : reads_item api_bytes api_ok (fun a acc => acc ++ api_slots a) real_api.
Proof.
  intros pre a post acc Ha. unfold api_bytes. rewrite <- app_assoc.
  assert (E : forall rest, real_api (pre ++ api_head a ++ rest) (len pre, acc)
    = (let? r := for_count (length (api_mods a)) (real_slot ((pre ++ api_head a) ++ rest) (api_number a))
                   (len (pre ++ api_head a), acc) in Ok (Continue r))).
  { intros rest. destruct a as [n mods]. destruct Ha as (Hn & Hl & Hs). cbn in Hn, Hl, Hs.
    rewrite (app_assoc pre).
    replace (len (pre ++ _)) with (len pre + 6) by (rewrite length_app; cbn; lia). rewrite <- app_assoc.
    unfold real_api, api_head. cbn [api_number api_mods]. rewrite <- !app_assoc. len_ok.
    replace (len pre) with (len pre + 0) at 1 by lia. skip_step. skip_step. by rewrite Nat2Z.id. }
  rewrite E. eapply bind_step.
  { apply (items_read _ _ _ _ (real_slot_reads (api_number a))). apply Ha. }
  rewrite foldl_app. do 2 f_equal. rewrite !length_app. f_equal. lia.
Qed.

(** RealIdentificationData is read as the device wrote it, in both
    layouts.  From version 1.1 on the record lists APIs, before it the modules
    of API 0; either way the parser returns exactly the submodules present, in
    order, each under its own slot, API and module, with the record's version,
    whatever follows the record. *)
Theorem real_identification_roundtrip h apis mods tail :
  header_ok h -> u16_ok (len apis) -> Forall api_ok apis -> u16_ok (len mods) -> Forall mod_ok mods ->
  parse_real_identification_data
    (if (1 <=? version_high h) && (1 <=? version_low h)
     then header_bytes h ++ be16_bytes (len apis) ++ concat (api_bytes <$> apis) ++ tail
     else header_bytes h ++ be16_bytes (len mods) ++ concat (mod_bytes <$> mods) ++ tail)
  = Ok {| ri_slots := if (1 <=? version_high h) && (1 <=? version_low h)
                      then concat (api_slots <$> apis) else concat (mod_slots 0 <$> mods);
          ri_version := (version_high h, version_low h) |}.
Proof.
  intros Hh Ha HA Hm HM. set (v11 := (1 <=? version_high h) && (1 <=? version_low h)).
  assert (E : forall n body, u16_ok n ->
    parse_real_identification_data (header_bytes h ++ be16_bytes n ++ body)
    = (let? st := for_count (Z.to_nat n)
                    (if v11 then real_api ((header_bytes h ++ be16_bytes n) ++ body)
                     else real_slot ((header_bytes h ++ be16_bytes n) ++ body) 0)
                    (len (header_bytes h ++ be16_bytes n), []) in
       Ok {| ri_slots := snd st; ri_version := (version_high h, version_low h) |})).
  { intros n body Hn. unfold parse_real_identification_data.
    replace (6 <=? _) with true by (rewrite length_app; cbn; lia). rewrite header_read by done. cbn [bind ok_].
    len_ok. rewrite <- app_assoc. eapply bind_step; [|done].
    destruct h. unfold header_bytes. cbn [bh_block_type bh_block_length version_high version_low].
    rewrite <- !app_assoc. lit_read. }
  destruct v11.
  - rewrite E, Nat2Z.id, <- app_assoc by done. eapply bind_step.
    { rewrite app_assoc. apply (items_read _ _ _ _ real_api_reads); done. }
    by rewrite foldl_app.
  - rewrite E, Nat2Z.id, <- app_assoc by done. eapply bind_step.
    { rewrite app_assoc. apply (items_read _ _ _ _ (real_slot_reads 0)); done. }
    by rewrite foldl_app.
Qed.

(** *** I&M0..I&M3 *)

Definition im0_bytes (i : InM0) : list Z :=
  header_bytes (im0_block_header i) ++ [vendor_id_high i; vendor_id_low i] ++ order_id i ++ im_serial_number i
  ++ be16_bytes (im_hardware_revision i)
  ++ [sw_revision_prefix i; im_sw_revision_functional_enhancement i; im_sw_revision_bug_fix i;
      im_sw_revision_internal_change i]
  ++ be16_bytes (im_revision_counter i) ++ be16_bytes (im_profile_id i)
  ++ be16_bytes (im_profile_specific_type i) ++ be16_bytes (im_version i) ++ be16_bytes (im_supported i).
Definition im0_ok (i : InM0) : Prop :=
  header_ok (im0_block_header i) /\ length (order_id i) = 20%nat /\ length (im_serial_number i) = 16%nat /\
  u16_ok (im_hardware_revision i) /\ u16_ok (im_revision_counter i) /\ u16_ok (im_profile_id i) /\
  u16_ok (im_profile_specific_type i) /\ u16_ok (im_version i) /\ u16_ok (im_supported i).
Definition im1_bytes (i : InM1) : list Z :=
  header_bytes (im1_block_header i) ++ im_tag_function i ++ im_tag_location i.
Definition im2_bytes (i : InM2) : list Z := header_bytes (im2_block_header i) ++ im_date i.
Definition im3_bytes (i : InM3) : list Z := header_bytes (im3_block_header i) ++ im_descriptor i.

(** A text field as it lies in a record: padded with zero bytes. *)
Definition padded (n : nat) (t : list Z) : list Z := t ++ replicate (n - length t) 0.

Lemma decode_padded n t : ascii_bytes t -> last t <> Some 0 -> decode_bytes (padded n t) = bytes_str t.
Proof. intros Ha Hl. unfold decode_bytes, padded. by rewrite trim_zeros_pad, lossy_ascii. Qed.

(** A field of [n] bytes behind [f]. *)
Lemma copy_at n (f m s : list Z) off : off = len f -> n = len m -> copy n (f ++ m ++ s) off = Ok m.
Proof. intros -> ->. unfold copy. by apply (slice_at _ f m s). Qed.

Lemma need_ok name d n : n <= len d -> need name d n = Ok tt.
Proof. intros. unfold need. by replace (_ <? _) with false by lia. Qed.

Lemma im1_read i tail :
  header_ok (im1_block_header i) -> length (im_tag_function i) = 32%nat -> length (im_tag_location i) = 22%nat ->
  parse_im1 (im1_bytes i ++ tail) = Ok i.
Proof.
  destruct i as [h f l]. unfold im1_bytes, parse_im1. cbn [im1_block_header im_tag_function im_tag_location].
  intros Hh Hf Hl. rewrite need_ok by (rewrite !length_app; cbn; lia). cbn [bind].
  rewrite <- app_assoc, header_read by done. cbn [bind fst]. rewrite <- app_assoc.
  rewrite (copy_at _ _ f) by (done || lia). cbn [bind]. rewrite (app_assoc (header_bytes h)).
  rewrite (copy_at _ (_ ++ f) l) by (rewrite ?length_app; cbn; lia). done.
Qed.

Lemma im2_read i tail :
  header_ok (im2_block_header i) -> length (im_date i) = 16%nat -> parse_im2 (im2_bytes i ++ tail) = Ok i.
Proof.
  destruct i as [h x]. unfold im2_bytes, parse_im2. cbn [im2_block_header im_date]. intros Hh Hx.
  rewrite need_ok by (rewrite !length_app; cbn; lia). cbn [bind].
  rewrite <- app_assoc, header_read by done. cbn [bind fst]. by rewrite (copy_at _ _ x) by (done || lia).
Qed.

Lemma im3_read i tail :
  header_ok (im3_block_header i) -> length (im_descriptor i) = 54%nat -> parse_im3 (im3_bytes i ++ tail) = Ok i.
Proof.
  destruct i as [h x]. unfold im3_bytes, parse_im3. cbn [im3_block_header im_descriptor]. intros Hh Hx.
  rewrite need_ok by (rewrite !length_app; cbn; lia). cbn [bind].
  rewrite <- app_assoc, header_read by done. cbn [bind fst]. by rewrite (copy_at _ _ x) by (done || lia).
Qed.

Lemma im0_read i tail : im0_ok i -> parse_im0 (im0_bytes i ++ tail) = Ok i.
Proof.
  destruct i as [h vh vl o s hw p fe bf ic rc pi pt v su]. unfold im0_ok, im0_bytes, parse_im0.
  cbn [im0_block_header vendor_id_high vendor_id_low order_id im_serial_number im_hardware_revision
       sw_revision_prefix im_sw_revision_functional_enhancement im_sw_revision_bug_fix
       im_sw_revision_internal_change im_revision_counter im_profile_id im_profile_specific_type im_version
       im_supported].
  intros (Hh & Ho & Hs & H1 & H2 & H3 & H4 & H5 & H6).
  rewrite need_ok by (rewrite !length_app; cbn; lia). cbn [bind].
  rewrite <- app_assoc, header_read by done. cbn [bind fst].
  rewrite <- !app_assoc. set (q := be16_bytes hw ++ _).
  eapply bind_step; [destruct h; lit_read|]. eapply bind_step; [destruct h; lit_read|]. cbv beta.
  replace (header_bytes h ++ [vh; vl] ++ o ++ s ++ q) with ((header_bytes h ++ [vh; vl]) ++ o ++ s ++ q)
    by (by rewrite <- !app_assoc).
  rewrite (copy_at _ _ o) by (done || lia). cbn [bind].
  rewrite (app_assoc (header_bytes h ++ [vh; vl])).
  rewrite (copy_at _ _ s) by (rewrite ?length_app; cbn; lia). cbn [bind]. rewrite app_assoc.
  set (f := (_ ++ o) ++ s). assert (Hf : len f = 44) by (unfold f; rewrite !length_app, Ho, Hs; done).
  clearbody f. unfold q.
  replace 44 with (len f + 0) by lia. replace 46 with (len f + 2) by lia. replace 47 with (len f + 3) by lia.
  replace 48 with (len f + 4) by lia. replace 49 with (len f + 5) by lia. replace 50 with (len f + 6) by lia.
  replace 52 with (len f + 8) by lia. replace 54 with (len f + 10) by lia. replace 56 with (len f + 12) by lia.
  replace 58 with (len f + 14) by lia.
  do 10 skip_step. done.
Qed.

(** A topology record: an interface, and a port with one peer. *)
Definition topology_record : list Z :=
  [
    0x04; 0x00; 0x00; 0x2C; 0x01; 0x00; 0x00; 0x00; 0x00; 0x00; 0x00; 0x00; 0x00; 0x00; 0x80; 0x00; 0x02;
    0x40; 0x00; 0x1C; 0x01; 0x00; 0x05; 0x64; 0x65; 0x76; 0x2D; 0x31; 0x0A; 0x1B; 0x2C; 0x3D; 0x4E; 0x5F;
    0x00; 0x00; 0xC0; 0xA8; 0x00; 0x32; 0xFF; 0xFF; 0xFF; 0x00; 0xC0; 0xA8; 0x00; 0x01; 0x04; 0x00; 0x00;
    0x4A; 0x01; 0x00; 0x00; 0x00; 0x00; 0x00; 0x00; 0x00; 0x00; 0x00; 0x80; 0x01; 0x02; 0x0F; 0x00; 0x3A;
    0x01; 0x00; 0x00; 0x00; 0x00; 0x00; 0x80; 0x01; 0x02; 0x70; 0x31; 0x01; 0x00; 0x00; 0x06; 0x70; 0x6F;
    0x72; 0x74; 0x2D; 0x32; 0x05; 0x64; 0x65; 0x76; 0x2D; 0x32; 0x00; 0x00; 0x00; 0xAA; 0xBB; 0xCC; 0xDD;
    0xEE; 0xFF; 0x00; 0x00; 0x00; 0x10; 0x00; 0x00; 0x00; 0x00; 0x00; 0x00; 0x00; 0x00; 0x00; 0x00; 0x01;
    0x01; 0x00; 0x00; 0x00; 0x00; 0x00; 0x01 ].

Example topology_record_read :
  parse_pd_real_data topology_record
  = Ok {| pd_slots := [ {| si_slot := 0; si_subslot := 0x8000; si_api := 0; si_module_ident := 0;
                           si_submodule_ident := 0; si_blocks := ["PDInterfaceDataReal"] |};
                        {| si_slot := 0; si_subslot := 0x8001; si_api := 0; si_module_ident := 0;
                           si_submodule_ident := 0; si_blocks := ["PDPortDataReal"] |} ];
          pd_interface := Some {| if_chassis_id := "dev-1"; if_mac := [10; 27; 44; 61; 78; 95];
                                  if_ip := [192; 168; 0; 50]; if_subnet := [255; 255; 255; 0];
                                  if_gateway := [192; 168; 0; 1] |};
          pd_ports := [ {| pt_slot := 0; pt_subslot := 0x8001; pt_port_id := "p1"; mau_type := 16;
                           link_state_port := 1; link_state_link := 1; media_type := 1;
                           peers := [ {| peer_port_id := "port-2"; peer_chassis_id := "dev-2";
                                         peer_mac := [170; 187; 204; 221; 238; 255] |} ];
                           domain_boundary := 0; multicast_boundary := 0 |} ];
          pd_raw_blocks := [ (0, 0, 0x8000, take 42 (drop 6 topology_record));
                             (0, 0, 0x8001, drop 54 topology_record) ] |}.
Proof. vm_compute. reflexivity. Qed.

(** I&M0..I&M3 are read as the device wrote them.  Each record, laid out
    field by field as the device sends it and whatever follows it, parses back
    to itself, and a text field padded with zero bytes decodes to the text. *)
Theorem im_records_roundtrip i0 i1 i2 i3 t tail :
  im0_ok i0 ->
  header_ok (im1_block_header i1) -> length (im_tag_function i1) = 32%nat -> length (im_tag_location i1) = 22%nat ->
  header_ok (im2_block_header i2) -> length (im_date i2) = 16%nat ->
  header_ok (im3_block_header i3) -> length (im_descriptor i3) = 54%nat ->
  ascii_bytes t -> last t <> Some 0 ->
  parse_im0 (im0_bytes i0 ++ tail) = Ok i0 /\ parse_im1 (im1_bytes i1 ++ tail) = Ok i1 /\
  parse_im2 (im2_bytes i2 ++ tail) = Ok i2 /\ parse_im3 (im3_bytes i3 ++ tail) = Ok i3 /\
  decode_bytes (padded 32 t) = bytes_str t.
Proof.
  intros. split_and!; [by apply im0_read|by apply im1_read|by apply im2_read|by apply im3_read|by apply decode_padded].
Qed.

(** The identification parsers are total on arbitrary bytes: each of them
    terminates without indexing out of range, and those that promise a result
    from any input (RealIdentificationData, PDRealData, whose nested lengths
    all come from the device) return one. *)
Theorem identification_parsers_total d :
  bytes_ok d ->
  safe (parse_im0 d) /\ safe (parse_im1 d) /\ safe (parse_im2 d) /\ safe (parse_im3 d) /\
  safe (parse_inm0_filter d) /\ total (parse_real_identification_data d) (fun _ => True) /\
  total (parse_pd_real_data d) (fun _ => True).
Proof.
  intros Hd.
  assert (Hn : forall name n, safe (need name d n)) by (intros; unfold need; wp_auto; done).
  assert (Hp : forall (n : string) (k : Z) {A} (f : BlockHeader * Z -> outcome A), 6 <= k ->
    (forall h, k <= len d -> safe (f h)) -> safe (do? need n d k; bind (parse_block_header d 0) f)).
  { intros n k A f Hk Hf. unfold need. destruct (Z.ltb_spec (len d) k); [done|]. cbn [bind].
    apply wp_bind. eapply wp_mono; [apply parse_block_header_spec; lia| |done]. intros h _. by apply Hf. }
  split_and!.
  - unfold parse_im0. apply Hp; [lia|]. intros h Hl. unfold copy. wp_auto; done.
  - unfold parse_im1. apply Hp; [lia|]. intros h Hl. unfold copy. wp_auto; done.
  - unfold parse_im2. apply Hp; [lia|]. intros h Hl. unfold copy. wp_auto; done.
  - unfold parse_im3. apply Hp; [lia|]. intros h Hl. unfold copy. wp_auto; done.
  - apply parse_inm0_filter_safe.
  - by apply parse_real_identification_total.
  - by apply parse_pd_real_data_total.
Qed.

(** ** Witnesses *)

Definition demo_header (t l vl : Z) : BlockHeader :=
  {| bh_block_type := t; bh_block_length := l; version_high := 1; version_low := vl |}.
(** A module with two submodules under API 0, and an empty API. *)
Definition demo_mods : list Mod :=
  [ {| mod_slot := 1; mod_ident := 0x30; mod_subs := [ {| sub_number := 1; sub_ident := 0x10 |};
                                                         {| sub_number := 0x8000; sub_ident := 0x20 |} ] |} ].
Definition demo_apis : list Api := [ {| api_number := 0; api_mods := demo_mods |}; {| api_number := 0x9000; api_mods := [] |} ].

Lemma demo_mods_ok : Forall mod_ok demo_mods.
Proof. apply (bool_decide_unpack _). vm_compute. exact I. Qed.
Lemma demo_apis_ok : Forall api_ok demo_apis.
Proof. apply (bool_decide_unpack _). vm_compute. exact I. Qed.

Example inm0_filter_exact_witness :
  parse_inm0_filter (filter_record (demo_header 0x30 46 0) demo_apis ++ [1; 2; 3]) = Ok (topology demo_apis) /\
  exists e, parse_inm0_filter (take 20 (filter_record (demo_header 0x30 46 0) demo_apis)) = Err e.
Proof.
  destruct (inm0_filter_exact (demo_header 0x30 46 0) demo_apis [1; 2; 3] 20) as [H1 H2].
  - split; cbn; unfold u16_ok; lia.
  - unfold u16_ok. cbn. lia.
  - exact demo_apis_ok.
  - split; [exact H1|]. apply H2. vm_compute. lia.
Defined.

Example real_identification_roundtrip_witness :
  parse_real_identification_data (header_bytes (demo_header 0xF0 46 1) ++ be16_bytes 2 ++ concat (api_bytes <$> demo_apis) ++ [])
  = Ok {| ri_slots := concat (api_slots <$> demo_apis); ri_version := (1, 1) |} /\
  parse_real_identification_data (header_bytes (demo_header 0xF0 24 0) ++ be16_bytes 1 ++ concat (mod_bytes <$> demo_mods) ++ [])
  = Ok {| ri_slots := concat (mod_slots 0 <$> demo_mods); ri_version := (1, 0) |}.
Proof.
  split.
  - apply (real_identification_roundtrip (demo_header 0xF0 46 1) demo_apis demo_mods []);
      [split; cbn; unfold u16_ok; lia|unfold u16_ok; cbn; lia|exact demo_apis_ok|unfold u16_ok; cbn; lia|exact demo_mods_ok].
  - apply (real_identification_roundtrip (demo_header 0xF0 24 0) demo_apis demo_mods []);
      [split; cbn; unfold u16_ok; lia|unfold u16_ok; cbn; lia|exact demo_apis_ok|unfold u16_ok; cbn; lia|exact demo_mods_ok].
Defined.

Definition demo_im0 : InM0 :=
  {| im0_block_header := demo_header 0x20 56 0; vendor_id_high := 0; vendor_id_low := 0x2A; order_id := rep 20 0x41;
     im_serial_number := rep 16 0x42; im_hardware_revision := 3; sw_revision_prefix := 0x56;
     im_sw_revision_functional_enhancement := 1; im_sw_revision_bug_fix := 2; im_sw_revision_internal_change := 3;
     im_revision_counter := 4; im_profile_id := 0xF600; im_profile_specific_type := 1; im_version := 0x0101;
     im_supported := 0x1E |}.

Example im_records_roundtrip_witness :
  parse_im0 (im0_bytes demo_im0 ++ [9]) = Ok demo_im0 /\ decode_bytes (padded 32 [0x70; 0x31]) = bytes_str [0x70; 0x31].
Proof.
  destruct (im_records_roundtrip demo_im0
    {| im1_block_header := demo_header 0x21 56 0; im_tag_function := rep 32 0x46; im_tag_location := rep 22 0x47 |}
    {| im2_block_header := demo_header 0x22 18 0; im_date := rep 16 0x32 |}
    {| im3_block_header := demo_header 0x23 56 0; im_descriptor := rep 54 0x44 |} [0x70; 0x31] [9]) as (H & _ & _ & _ & Ht).
  1: unfold im0_ok; split_and!; try reflexivity; unfold header_ok, u16_ok; cbn; lia.
  1, 4, 6: split; cbn; unfold u16_ok; lia.
  1-4: reflexivity.
  1: repeat constructor; lia.
  1: discriminate.
  split; [exact H|exact Ht].
Defined.

Example identification_parsers_total_witness :
  bytes_ok topology_record /\ safe (parse_im0 (take 5 topology_record)) /\ total (parse_pd_real_data topology_record) (fun _ => True).
Proof.
  assert (H : bytes_ok topology_record) by (apply (bool_decide_unpack _); vm_compute; exact I).
  split; [exact H|]. split.
  - apply (identification_parsers_total (take 5 topology_record)). apply (bool_decide_unpack _). vm_compute. exact I.
  - apply (identification_parsers_total topology_record H).
Defined.
