(* ===== verification/Diagnosis.v ===== *)
(** * Diagnosis records ([src/src/diagnosis.rs])

    Channel diagnosis in its three forms, the decoding of channel properties
    and error types, and the two record parsers.  Reserved bit patterns fall
    back to the source's default values. *)

From S2P Require Import Prelude Fmt.

#[local] Open Scope string_scope.
#[local] Open Scope list_scope.
#[local] Open Scope Z_scope.

Definition USI_CHANNEL_DIAGNOSIS : Z := 0x8000.
Definition USI_MULTIPLE : Z := 0x8001.
Definition USI_EXT_CHANNEL_DIAGNOSIS : Z := 0x8002.
Definition USI_QUALIFIED_CHANNEL_DIAGNOSIS : Z := 0x8003.
Definition USI_MAINTENANCE : Z := 0x8100.

(** ** Channel properties *)

Inductive ChannelType := CtReserved | CtSpecific | CtAll | CtSubmodule.
Inductive ChannelDirection := Manufacturer | Input | Output | Bidirectional.
Inductive ChannelAccumulative := No | MainFault | AdditionalFault.
Inductive ChannelSpecifier := AllDisappears | Appears | Disappears | DisappearsOther.

#[global] Instance ChannelType_eq_dec : EqDecision ChannelType.
Proof. solve_decision. Defined.
#[global] Instance ChannelDirection_eq_dec : EqDecision ChannelDirection.
Proof. solve_decision. Defined.
#[global] Instance ChannelAccumulative_eq_dec : EqDecision ChannelAccumulative.
Proof. solve_decision. Defined.
#[global] Instance ChannelSpecifier_eq_dec : EqDecision ChannelSpecifier.
Proof. solve_decision. Defined.

Record ChannelProperties := {
  raw : Z;
  channel_type : ChannelType;
  accumulative : ChannelAccumulative;
  maintenance_required : bool;
  maintenance_demanded : bool;
  specifier : ChannelSpecifier;
  direction : ChannelDirection;
}.

(** [(value >> shift) & mask]. *)
Definition bits (value shift mask : Z) : Z := Z.land (Z.shiftr value shift) mask.

Definition from_u16 (value : Z) : ChannelProperties := {|
  raw := value;
  channel_type := match bits value 0 0x03 with
                  | 1 => CtSpecific | 2 => CtAll | 3 => CtSubmodule | _ => CtReserved end;
  accumulative := match bits value 2 0x07 with
                  | 1 => MainFault | 2 => AdditionalFault | _ => No end;
  maintenance_required := negb (bits value 5 0x01 =? 0);
  maintenance_demanded := negb (bits value 6 0x01 =? 0);
  specifier := match bits value 8 0x07 with
               | 1 => Appears | 2 => Disappears | 3 => DisappearsOther | _ => AllDisappears end;
  direction := match bits value 11 0x03 with
               | 1 => Input | 2 => Output | 3 => Bidirectional | _ => Manufacturer end;
|}.

(** ** Entries *)

Inductive DiagnosisKind := Channel | Ext | Qualified.

#[global] Instance DiagnosisKind_eq_dec : EqDecision DiagnosisKind.
Proof. solve_decision. Defined.

Record ChannelDiagnosis := {
  cd_kind : DiagnosisKind;
  cd_api : Z;
  cd_slot : Z;
  cd_subslot : Z;
  channel_number : Z;
  channel_properties : ChannelProperties;
  error_type : Z;
  error_type_name : string;
  ext_error_type : Z;
  ext_error_type_name : string;
  ext_add_value : Z;
  qualifier : Z;
}.

Definition is_submodule_level (e : ChannelDiagnosis) : bool := channel_number e =? 0x8000.

Record DiagnosisData := {
  dd_api : Z;
  dd_slot : Z;
  dd_subslot : Z;
  entries : list ChannelDiagnosis;
  raw_data : list Z;
}.

Definition has_errors (d : DiagnosisData) : bool := match entries d with [] => false | _ => true end.
Definition has_maintenance_required (d : DiagnosisData) : bool :=
  existsb (fun e => maintenance_required (channel_properties e)) (entries d).
Definition has_maintenance_demanded (d : DiagnosisData) : bool :=
  existsb (fun e => maintenance_demanded (channel_properties e)) (entries d).
Definition get_by_channel (d : DiagnosisData) (channel : Z) : list ChannelDiagnosis :=
  List.filter (fun e => channel_number e =? channel) (entries d).

(** ** Error types *)

Definition name_in (table : list (Z * string)) (k : Z) : option string :=
  snd <$> List.find (fun e => fst e =? k) table.

Definition CHANNEL_ERROR_TYPES : list (Z * string) :=
  [ (0x0000, "Reserved");
    (0x0001, "Short circuit");
    (0x0002, "Undervoltage");
    (0x0003, "Overvoltage");
    (0x0004, "Overload");
    (0x0005, "Overtemperature");
    (0x0006, "Line break");
    (0x0007, "Upper limit value exceeded");
    (0x0008, "Lower limit value exceeded");
    (0x0009, "Error");
    (0x000A, "Simulation active");
    (0x000B, "Reserved (0x000B)");
    (0x000C, "Reserved (0x000C)");
    (0x000D, "Reserved (0x000D)");
    (0x000E, "Reserved (0x000E)");
    (0x000F, "Parameter missing");
    (0x0010, "Parameterization fault");
    (0x0011, "Power supply fault");
    (0x0012, "Fuse blown / open");
    (0x0013, "Communication fault");
    (0x0014, "Ground fault");
    (0x0015, "Reference point lost");
    (0x0016, "Process event lost");
    (0x0017, "Threshold warning");
    (0x0018, "Output disabled");
    (0x0019, "Functional safety event");
    (0x001A, "External fault");
    (0x001B, "Sensor has incorrect configuration");
    (0x001C, "Reserved (0x001C)");
    (0x001D, "Reserved (0x001D)");
    (0x001E, "Reserved (0x001E)");
    (0x001F, "Temporary fault");
    (0x8000, "Data transmission impossible");
    (0x8001, "Remote mismatch");
    (0x8002, "Media redundancy mismatch");
    (0x8003, "Sync mismatch");
    (0x8004, "Isochronous mode mismatch");
    (0x8005, "Multicast CR mismatch");
    (0x8006, "Reserved (0x8006)");
    (0x8007, "Fiber optic mismatch");
    (0x8008, "Network component function mismatch");
    (0x8009, "Time mismatch");
    (0x800A, "Dynamic frame packing function mismatch");
    (0x800B, "Media redundancy with planned duplication mismatch");
    (0x800C, "System redundancy mismatch");
    (0x800D, "Multiple interface mismatch");
    (0x9500, "IO-Link device event");
    (0x9501, "IO-Link device event (MSB cleared)");
    (0x9502, "IO-Link port event") ].

Definition decode_channel_error_type (error_type : Z) : string :=
  match name_in CHANNEL_ERROR_TYPES error_type with
  | Some name => name
  | None =>
      let text := hexu 4 error_type +:+ ")" in
      if (0x0020 <=? error_type) && (error_type <=? 0x00FF) then "Reserved (0x" +:+ text
      else if (0x0100 <=? error_type) && (error_type <=? 0x7FFF) then "Manufacturer-specific (0x" +:+ text
      else if (0x800E <=? error_type) && (error_type <=? 0x8FFF) then "Reserved (0x" +:+ text
      else if (0x9000 <=? error_type) && (error_type <=? 0x9FFF) then "Profile-specific (0x" +:+ text
      else if (0xA000 <=? error_type) && (error_type <=? 0xFFFF) then "Reserved (0x" +:+ text
      else "Unknown (0x" +:+ text
  end.

(** Per channel error type; the last table is for all others. *)
Definition EXT_CHANNEL_ERROR_TYPES_MAP : list (Z * list (Z * string)) :=
  [ (0x8000, [ (0x0000, "Reserved");
              (0x8000, "Link state mismatch - Loss of link");
              (0x8001, "MAUType mismatch");
              (0x8002, "Line delay mismatch") ]);
    (0x8001, [ (0x0000, "Reserved");
              (0x8000, "Peer name of station mismatch");
              (0x8001, "Peer name of port mismatch");
              (0x8002, "Peer RT_CLASS_3 mismatch");
              (0x8003, "Peer MAUType mismatch");
              (0x8004, "Peer MRP domain mismatch");
              (0x8005, "No peer detected");
              (0x8006, "Peer line delay mismatch");
              (0x8007, "Peer PTCP mismatch");
              (0x8008, "Peer Preamble length mismatch");
              (0x8009, "Peer Fragmentation mismatch") ]);
    (0x8002, [ (0x0000, "Reserved");
              (0x8000, "Manager role fail");
              (0x8001, "MRP-Loss of redundancy");
              (0x8002, "Reserved (0x8002)");
              (0x8003, "MRP ring open");
              (0x8004, "MRP multiple manager") ]);
    (0x8003, [ (0x0000, "Reserved");
              (0x8000, "No sync message received");
              (0x8001, "Jitter out of boundary");
              (0x8002, "Sync message send failure");
              (0x8003, "PTCP timeout") ]);
    (0x8007, [ (0x0000, "Reserved");
              (0x8000, "Power budget exceeded") ]);
    (0x8008, [ (0x0000, "Reserved");
              (0x8000, "Frame dropped - no resource");
              (0x8001, "Frame dropped - wrong destination address");
              (0x8002, "Frame dropped - no gateway") ]);
    (0x8009, [ (0x0000, "Reserved");
              (0x8000, "No master detected");
              (0x8001, "Drift exceeded");
              (0x8002, "Time sync failure") ]);
    (0x800B, [ (0x0000, "Reserved");
              (0x8000, "MRPD loss of redundancy") ]) ].
Definition EXT_CHANNEL_ERROR_TYPES_GENERAL : list (Z * string) :=
  [ (0x0000, "Reserved"); (0x8000, "Accumulative info") ].

Definition ext_channel_error_lookup (channel_error_type ext_error_type : Z) : option string :=
  match List.find (fun e => fst e =? channel_error_type) EXT_CHANNEL_ERROR_TYPES_MAP with
  | Some (_, table) => name_in table ext_error_type
  | None => name_in EXT_CHANNEL_ERROR_TYPES_GENERAL ext_error_type
  end.

Definition decode_ext_channel_error_type (channel_error_type ext_error_type : Z) : string :=
  match ext_channel_error_lookup channel_error_type ext_error_type with
  | Some name => name
  | None =>
      let text := hexu 4 ext_error_type +:+ ")" in
      if ext_error_type =? 0x8000 then "Accumulative info"
      else if (0x0001 <=? ext_error_type) && (ext_error_type <=? 0x7FFF) then "Manufacturer-specific (0x" +:+ text
      else if (0x8001 <=? ext_error_type) && (ext_error_type <=? 0x8FFF) then "Reserved (0x" +:+ text
      else if (0x9000 <=? ext_error_type) && (ext_error_type <=? 0x9FFF) then "Profile-specific (0x" +:+ text
      else "Unknown (0x" +:+ text
  end.

(** ** The parsers *)

Definition with_entries (l : list ChannelDiagnosis) (d : DiagnosisData) : DiagnosisData :=
  {| dd_api := dd_api d; dd_slot := dd_slot d; dd_subslot := dd_subslot d; entries := l; raw_data := raw_data d |}.

(** Where an entry applies: the last location header. *)
Record Location := { l_api : Z; l_slot : Z; l_subslot : Z }.

(** A location header, taken for one when its API is small and its slot is one. *)
Definition location_header (d : list Z) (offset : Z) (loc : Location) : outcome (Location * Z) :=
  if offset + 8 <=? len d then
    let? api := rd_be32 d offset in
    let? slot := rd_be16 d (offset + 4) in
    let? subslot := rd_be16 d (offset + 6) in
    if (api <? 0x10000) && (slot <? 0x8000)
    then Ok ({| l_api := api; l_slot := slot; l_subslot := subslot |}, offset + 8)
    else Ok (loc, offset)
  else Ok (loc, offset).

Definition channel_entry (loc : Location) (number : Z) (props : ChannelProperties) (error : Z) : ChannelDiagnosis :=
  {| cd_kind := Channel; cd_api := l_api loc; cd_slot := l_slot loc; cd_subslot := l_subslot loc;
     channel_number := number; channel_properties := props; error_type := error;
     error_type_name := decode_channel_error_type error; ext_error_type := 0;
     ext_error_type_name := EmptyString; ext_add_value := 0; qualifier := 0 |}.

Definition ext_entry (kind : DiagnosisKind) (loc : Location) (number : Z) (props : ChannelProperties)
    (error ext add qual : Z) : ChannelDiagnosis :=
  {| cd_kind := kind; cd_api := l_api loc; cd_slot := l_slot loc; cd_subslot := l_subslot loc;
     channel_number := number; channel_properties := props; error_type := error;
     error_type_name := decode_channel_error_type error; ext_error_type := ext;
     ext_error_type_name := decode_ext_channel_error_type error ext; ext_add_value := add; qualifier := qual |}.

(** The part of an entry its structure identifier decides; [None] when it is
    cut off. *)
Definition entry_rest (d : list Z) (offset : Z) (loc : Location) (number : Z) (props : ChannelProperties) (usi : Z)
    : outcome (option (ChannelDiagnosis * Z)) :=
  if usi =? USI_EXT_CHANNEL_DIAGNOSIS then
    if len d <? offset + 8 then Ok None
    else
      let? error := rd_be16 d offset in
      let? ext := rd_be16 d (offset + 2) in
      let? add := rd_be32 d (offset + 4) in
      Ok (Some (ext_entry Ext loc number props error ext add 0, offset + 8))
  else if usi =? USI_QUALIFIED_CHANNEL_DIAGNOSIS then
    if len d <? offset + 12 then Ok None
    else
      let? error := rd_be16 d offset in
      let? ext := rd_be16 d (offset + 2) in
      let? add := rd_be32 d (offset + 4) in
      let? qual := rd_be32 d (offset + 8) in
      Ok (Some (ext_entry Qualified loc number props error ext add qual, offset + 12))
  else
    if len d <? offset + 2 then Ok None
    else
      let? error := rd_be16 d offset in
      Ok (Some (channel_entry loc number props error, offset + 2)).

(** One pass; the state is the offset, the location and the entries. *)
Definition DiagState : Type := Z * Location * list ChannelDiagnosis.
Definition diagnosis_body (d : list Z) (st : DiagState) : outcome (step DiagState (list ChannelDiagnosis)) :=
  let '(offset, loc, es) := st in
  if offset + 6 <=? len d then
    let? r := location_header d offset loc in
    let '(loc, offset) := r in
    if len d <? offset + 6 then Ok (Break es)
    else
      let? number := rd_be16 d offset in
      let? props := rd_be16 d (offset + 2) in
      let? usi := rd_be16 d (offset + 4) in
      let? e := entry_rest d (offset + 6) loc number (from_u16 props) usi in
      match e with
      | None => Ok (Break es)
      | Some (e, offset) => Ok (Continue (offset, loc, es ++ [e]))
      end
  else Ok (Break es).

Definition DIAGNOSIS_BLOCK_TYPES : list Z := [0x0010; 0x0011; 0x8010; 0x8011; 0x8012].

Definition parse_diagnosis_block (d : list Z) (api slot subslot : Z) : outcome DiagnosisData :=
  let result := {| dd_api := api; dd_slot := slot; dd_subslot := subslot; entries := []; raw_data := d |} in
  if len d <? 6 then Ok result
  else
    let? block_type := rd_be16 d 0 in
    let offset := if existsb (Z.eqb block_type) DIAGNOSIS_BLOCK_TYPES then 6 else 0 in
    let? es := loop (S (length d)) (diagnosis_body d)
                 (offset, {| l_api := api; l_slot := slot; l_subslot := subslot |}, []) in
    Ok (with_entries es result).

(** One flat entry; an all-zero one ends the list. *)
Definition simple_body (d : list Z) (loc : Location) (st : Z * list ChannelDiagnosis)
    : outcome (step (Z * list ChannelDiagnosis) (list ChannelDiagnosis)) :=
  let '(offset, es) := st in
  if offset + 6 <=? len d then
    let? number := rd_be16 d offset in
    let? props := rd_be16 d (offset + 2) in
    let? error := rd_be16 d (offset + 4) in
    if (error =? 0) && (number =? 0) && (props =? 0) then Ok (Break es)
    else Ok (Continue (offset + 6, es ++ [channel_entry loc number (from_u16 props) error]))
  else Ok (Break es).

Definition parse_diagnosis_simple (d : list Z) (api slot subslot : Z) : outcome DiagnosisData :=
  let result := {| dd_api := api; dd_slot := slot; dd_subslot := subslot; entries := []; raw_data := d |} in
  if len d <? 6 then Ok result
  else
    let? es := loop (S (length d))
                 (simple_body d {| l_api := api; l_slot := slot; l_subslot := subslot |}) (6, []) in
    Ok (with_entries es result).

(** ** Totality *)

Lemma entry_rest_total d o loc n p u :
  0 <= o -> total (entry_rest d o loc n p u) (fun r => match r with Some (_, o') => o < o' | None => True end).
Proof. intros Ho. unfold entry_rest. wp_auto; cbn; try done; lia. Qed.

Lemma location_total d o loc : 0 <= o -> total (location_header d o loc) (fun r => o <= snd r).
Proof. intros Ho. unfold location_header. wp_auto; cbn; lia. Qed.

Lemma diagnosis_body_total d fuel st :
  0 <= fst (fst st) -> (Z.to_nat (len d - fst (fst st)) < fuel)%nat ->
  total (loop fuel (diagnosis_body d) st) (fun _ => True).
Proof.
  intros Ho Hf.
  apply wp_loop with (I := fun st => 0 <= fst (fst st)) (m := fun st => Z.to_nat (len d - fst (fst st))); [|done|done].
  intros [[o loc] es] Hi. cbn in Hi. unfold diagnosis_body. wp_step; [|done].
  eapply wp_bind_ok; [by apply location_total|]. intros [loc' o'] Ho'. cbn in Ho'. wp_step; [done|]. do 6 wp_step.
  eapply wp_bind_ok; [apply entry_rest_total; lia|]. intros [[e o2]|] H2; cbn; [lia|done].
Qed.

Lemma simple_body_total d loc fuel st :
  0 <= fst st -> (Z.to_nat (len d - fst st) < fuel)%nat -> total (loop fuel (simple_body d loc) st) (fun _ => True).
Proof.
  intros Ho Hf. apply wp_loop with (I := fun st => 0 <= fst st) (m := fun st => Z.to_nat (len d - fst st)); [|done|done].
  intros [o es] Hi. cbn in Hi. unfold simple_body. wp_auto; cbn; try done; lia.
Qed.

Lemma parse_diagnosis_block_total d api sl ss : total (parse_diagnosis_block d api sl ss) (fun _ => True).
Proof.
  unfold parse_diagnosis_block, total. cbv zeta. wp_step; [done|]. wp_step. wp_step.
  eapply wp_bind_ok; [apply diagnosis_body_total; cbn [fst snd]; destruct (existsb (Z.eqb v) DIAGNOSIS_BLOCK_TYPES); lia|done].
Qed.

Lemma parse_diagnosis_simple_total d api sl ss : total (parse_diagnosis_simple d api sl ss) (fun _ => True).
Proof.
  unfold parse_diagnosis_simple, total. cbv zeta. wp_step; [done|].
  eapply wp_bind_ok; [apply simple_body_total; cbn; lia|done].
Qed.

(** ** What a device's diagnosis looks like *)

(** An entry as sent, with a location header in front of it or without. *)
Inductive RawEntry :=
| RawChannel (usi number props error : Z)
| RawExt (number props error ext add : Z)
| RawQualified (number props error ext add qual : Z).

Definition raw_usi (e : RawEntry) : Z :=
  match e with
  | RawChannel usi _ _ _ => usi
  | RawExt _ _ _ _ _ => USI_EXT_CHANNEL_DIAGNOSIS
  | RawQualified _ _ _ _ _ _ => USI_QUALIFIED_CHANNEL_DIAGNOSIS
  end.
Definition raw_number (e : RawEntry) : Z :=
  match e with RawChannel _ n _ _ | RawExt n _ _ _ _ | RawQualified n _ _ _ _ _ => n end.
Definition raw_props (e : RawEntry) : Z :=
  match e with RawChannel _ _ p _ | RawExt _ p _ _ _ | RawQualified _ p _ _ _ _ => p end.

Definition raw_rest (e : RawEntry) : list Z :=
  match e with
  | RawChannel _ _ _ err => be16_bytes err
  | RawExt _ _ err ext add => be16_bytes err ++ be16_bytes ext ++ be32_bytes add
  | RawQualified _ _ err ext add qual => be16_bytes err ++ be16_bytes ext ++ be32_bytes add ++ be32_bytes qual
  end.
Definition raw_bytes (e : RawEntry) : list Z :=
  be16_bytes (raw_number e) ++ be16_bytes (raw_props e) ++ be16_bytes (raw_usi e) ++ raw_rest e.

Definition raw_ok (e : RawEntry) : Prop :=
  u16_ok (raw_number e) /\ u16_ok (raw_props e) /\ u16_ok (raw_usi e) /\
  match e with
  | RawChannel usi _ _ err =>
      u16_ok err /\ usi <> USI_EXT_CHANNEL_DIAGNOSIS /\ usi <> USI_QUALIFIED_CHANNEL_DIAGNOSIS
  | RawExt _ _ err ext add => u16_ok err /\ u16_ok ext /\ u32_ok add
  | RawQualified _ _ err ext add qual => u16_ok err /\ u16_ok ext /\ u32_ok add /\ u32_ok qual
  end.

Definition location_bytes (l : option Location) : list Z :=
  match l with
  | Some l => be32_bytes (l_api l) ++ be16_bytes (l_slot l) ++ be16_bytes (l_subslot l)
  | None => []
  end.

(** A header of a standardised API and a slot is recognised; an entry without
    one is not taken for one unless it is for channel 0 under a
    manufacturer-specific structure. *)
Definition item_ok (i : option Location * RawEntry) : Prop :=
  raw_ok (snd i) /\
  match fst i with
  | Some l => 0 <= l_api l < 0x10000 /\ 0 <= l_slot l < 0x8000 /\ u16_ok (l_subslot l)
  | None => raw_number (snd i) <> 0 \/ 0x8000 <= raw_usi (snd i)
  end.

Definition item_bytes (i : option Location * RawEntry) : list Z := location_bytes (fst i) ++ raw_bytes (snd i).

Definition meant (loc : Location) (e : RawEntry) : ChannelDiagnosis :=
  match e with
  | RawChannel _ n p err => channel_entry loc n (from_u16 p) err
  | RawExt n p err ext add => ext_entry Ext loc n (from_u16 p) err ext add 0
  | RawQualified n p err ext add qual => ext_entry Qualified loc n (from_u16 p) err ext add qual
  end.

(** An entry applies to the last location named before it. *)
Fixpoint located (loc : Location) (l : list (option Location * RawEntry)) : list ChannelDiagnosis :=
  match l with
  | [] => []
  | (o, e) :: l => meant (default loc o) e :: located (default loc o) l
  end.

Lemma entry_rest_read pre e post loc :
  raw_ok e ->
  entry_rest (pre ++ raw_rest e ++ post) (len pre) loc (raw_number e) (from_u16 (raw_props e)) (raw_usi e)
  = Ok (Some (meant loc e, len pre + len (raw_rest e))).
Proof.
  intros (Hn & Hp & Hu & He). unfold entry_rest.
  replace (len pre) with (len pre + 0) by lia.
  destruct e as [usi n p err|n p err ext add|n p err ext add qual];
    cbn [raw_number raw_props raw_usi raw_rest meant] in *.
  - destruct He as (He & H1 & H2). replace (usi =? _) with false by lia. replace (usi =? _) with false by lia.
    len_ok. skip_step. reflexivity.
  - destruct He as (He & H1 & H2). eval_if. rewrite <- !app_assoc. len_ok. do 3 skip_step. reflexivity.
  - destruct He as (He & H1 & H2 & H3). do 2 eval_if. rewrite <- !app_assoc. len_ok. do 4 skip_step.
    reflexivity.
Qed.

Lemma raw_rest_length e : 2 <= len (raw_rest e).
Proof. destruct e; cbn; lia. Qed.

(** The location header of an item is read, or its absence noticed. *)
Lemma location_read pre o e post loc : item_ok (o, e) ->
  location_header (pre ++ item_bytes (o, e) ++ post) (len pre) loc
  = Ok (default loc o, len (pre ++ location_bytes o)).
Proof.
  intros [(Hn & Hp & Hu & He) Hl]. cbn [fst snd] in *. unfold location_header, item_bytes. cbn [fst snd].
  replace (len pre) with (len pre + 0) by lia. pose proof (raw_rest_length e) as Hr.
  destruct o as [[a s ss]|]; cbn [location_bytes l_api l_slot l_subslot default] in *.
  - destruct Hl as (Ha & Hs & Hss). replace (_ <=? _) with true by (rewrite !length_app; cbn; lia).
    rewrite <- !app_assoc. do 3 skip_step. replace ((a <? 65536) && (s <? 32768)) with true by lia.
    do 2 f_equal. rewrite length_app. cbn. lia.
  - replace (_ <=? _) with true by (unfold raw_bytes; rewrite !length_app; cbn; lia).
    unfold raw_bytes. cbn [app]. rewrite <- !app_assoc, app_nil_r.
    assert (Ex : exists x y t, raw_rest e ++ post = x :: y :: t).
    { destruct (raw_rest e) as [|x [|y t]]; cbn in Hr; try lia. by exists x, y, (t ++ post). }
    destruct Ex as (x & y & t & ->).
    do 3 skip_step.
    set (api := be32 _ _ _ _). assert (Ea : api = raw_number e * 65536 + raw_props e).
    { unfold api, be32, u16_ok in *. zdiv. }
    replace ((api <? 65536) && (raw_usi e <? 32768)) with false by (unfold u16_ok in *; lia).
    do 2 f_equal. lia.
Qed.

Lemma item_read pre i post loc es : item_ok i ->
  diagnosis_body (pre ++ item_bytes i ++ post) (len pre, loc, es)
  = Ok (Continue (len pre + len (item_bytes i), default loc (fst i), es ++ [meant (default loc (fst i)) (snd i)])).
Proof.
  destruct i as [o e]. intros Hi. unfold diagnosis_body. pose proof (raw_rest_length e) as Hr.
  replace (len pre + 6 <=? _) with true by (unfold item_bytes, raw_bytes; rewrite !length_app; cbn; lia).
  rewrite location_read by done. cbn [bind fst snd]. destruct Hi as [Hok Hl]. cbn [fst snd] in *.
  pose proof Hok as (Hn & Hp & Hu & _). unfold item_bytes. cbn [fst snd]. rewrite <- app_assoc, (app_assoc pre).
  set (f := pre ++ location_bytes o). unfold raw_bytes. rewrite <- !app_assoc. len_ok.
  replace (len f) with (len f + 0) at 1 by lia. do 3 skip_step.
  set (q := f ++ be16_bytes (raw_number e) ++ be16_bytes (raw_props e) ++ be16_bytes (raw_usi e)).
  replace (f ++ be16_bytes (raw_number e) ++ be16_bytes (raw_props e) ++ be16_bytes (raw_usi e) ++ raw_rest e ++ post)
    with (q ++ raw_rest e ++ post) by (unfold q; by rewrite <- !app_assoc).
  replace (len f + 6) with (len q) by (unfold q; rewrite !length_app; cbn; lia).
  rewrite entry_rest_read by done. cbn [bind]. do 4 f_equal. unfold q, f. rewrite !length_app. cbn. lia.
Qed.

Lemma items_loop l pre tail loc es fuel :
  Forall item_ok l -> len tail < 6 -> (length l < fuel)%nat ->
  loop fuel (diagnosis_body (pre ++ concat (item_bytes <$> l) ++ tail)) (len pre, loc, es)
  = Ok (es ++ located loc l).
Proof.
  revert pre loc es fuel. induction l as [|i l IH]; intros pre loc es fuel Hl Ht Hf; (destruct fuel as [|fuel]; [lia|]).
  - rewrite loop_S. cbn [fmap list_fmap concat app located]. unfold diagnosis_body.
    replace (_ <=? _) with false by (rewrite length_app; lia). by rewrite app_nil_r.
  - apply Forall_cons in Hl as [Hi Hl]. rewrite loop_S, fmap_cons. cbn [concat]. rewrite <- app_assoc.
    rewrite item_read by done. rewrite (app_assoc pre).
    replace (len pre + len (item_bytes i)) with (len (pre ++ item_bytes i)) by (rewrite length_app; lia).
    cbn [length] in Hf. rewrite IH by (done || lia).
    rewrite <- app_assoc. by destruct i.
Qed.

Lemma items_length l : (length l <= length (concat (item_bytes <$> l)))%nat.
Proof.
  induction l as [|[o e] l IH]; [cbn; lia|]. rewrite fmap_cons. cbn [concat length]. rewrite length_app. unfold item_bytes at 1, raw_bytes at 1. rewrite !length_app. cbn [be16_bytes length]. lia.
Qed.

(** Channel diagnosis is read as the device wrote it.  A diagnosis block of
    any of the known types, holding any channel, extended and qualified
    entries in any order, each behind its location header or behind none,
    parses to exactly those entries, each at the last location named before
    it, with the error names of the decoding tables; fewer than six bytes
    after them are ignored.  Entries for channel 0 under a manufacturer's
    structure identifier need their location header (see the findings). *)
Theorem diagnosis_block_roundtrip ty l2 l3 vh vl items tail api slot subslot :
  In ty DIAGNOSIS_BLOCK_TYPES -> Forall item_ok items -> len tail < 6 ->
  let d := be16_bytes ty ++ [l2; l3; vh; vl] ++ concat (item_bytes <$> items) ++ tail in
  parse_diagnosis_block d api slot subslot
  = Ok {| dd_api := api; dd_slot := slot; dd_subslot := subslot; raw_data := d;
          entries := located {| l_api := api; l_slot := slot; l_subslot := subslot |} items |}.
Proof.
  intros Ht Hi Hl d. unfold parse_diagnosis_block.
  assert (Hu : u16_ok ty) by (unfold u16_ok; repeat (destruct Ht as [<-|Ht]; [lia|]); destruct Ht).
  replace (len d <? 6) with false by (unfold d; rewrite !length_app; cbn; lia).
  eapply bind_step; [unfold d; lit_read|]. cbv beta.
  replace (existsb (Z.eqb ty) DIAGNOSIS_BLOCK_TYPES) with true
    by (symmetry; apply existsb_exists; exists ty; split; [done|apply Z.eqb_refl]).
  set (h := be16_bytes ty ++ [l2; l3; vh; vl]).
  assert (Ed : d = h ++ concat (item_bytes <$> items) ++ tail) by (unfold d, h; by rewrite <- !app_assoc).
  eapply bind_step.
  { rewrite Ed at 2. change 6 with (len h). apply items_loop; [done|done|].
    pose proof (items_length items). unfold d. rewrite !length_app. lia. }
  done.
Qed.

Lemma diagnosis_block_roundtrip_witness :
  let i := [(Some {| l_api := 0; l_slot := 1; l_subslot := 1 |}, RawExt 3 0x0809 0x8001 0x8005 0);
            (None, RawChannel 0x8000 0x8000 0x0821 6)] in
  Forall item_ok i /\
  parse_diagnosis_block (be16_bytes 0x0010 ++ [0; 0; 1; 0] ++ concat (item_bytes <$> i) ++ [0; 0]) 0 0 0
  = Ok {| dd_api := 0; dd_slot := 0; dd_subslot := 0;
          raw_data := be16_bytes 0x0010 ++ [0; 0; 1; 0] ++ concat (item_bytes <$> i) ++ [0; 0];
          entries := located {| l_api := 0; l_slot := 0; l_subslot := 0 |} i |}.
Proof.
  intros i. assert (Hi : Forall item_ok i).
  { unfold i, item_ok, raw_ok, u16_ok, u32_ok, USI_EXT_CHANNEL_DIAGNOSIS, USI_QUALIFIED_CHANNEL_DIAGNOSIS.
    repeat constructor; cbn; try lia; unfold USI_EXT_CHANNEL_DIAGNOSIS; try lia. }
  split; [exact Hi|].
  apply (diagnosis_block_roundtrip 0x0010 0 0 1 0 i [0; 0] 0 0 0); [cbn; auto|exact Hi|cbn; lia].
Defined.

(** An entry for channel 0 under a manufacturer's structure identifier, behind
    the block header alone, is taken for a location header and lost. *)
Lemma location_guess_loses_entry usi props error :
  0 <= usi < 0x8000 -> u16_ok props -> u16_ok error ->
  exists d, d = be16_bytes 0x0010 ++ [0; 10; 1; 0] ++ raw_bytes (RawChannel usi 0 props error) /\
    exists r, parse_diagnosis_block d 0 0 0 = Ok r /\ entries r = [].
Proof.
  intros Hu Hp He. eexists. split; [reflexivity|].
  unfold raw_bytes. cbn [raw_number raw_props raw_usi raw_rest be16_bytes app].
  set (d := _ :: _).
  exists {| dd_api := 0; dd_slot := 0; dd_subslot := 0; entries := []; raw_data := d |}. split; [|reflexivity].
  unfold parse_diagnosis_block. replace (len d <? 6) with false by done. eapply bind_step; [unfold d; lit_read|]. cbv beta.
  match goal with |- context [existsb ?f ?l] => replace (existsb f l) with true by reflexivity end.
  eapply bind_step; [|reflexivity].
  change (S (length d)) with (S 14). rewrite loop_S. unfold diagnosis_body at 1.
  replace (6 + 6 <=? len d) with true by reflexivity. unfold location_header.
  replace (6 + 8 <=? len d) with true by reflexivity.
  assert (E1 : rd_be32 d 6 = Ok props).
  { unfold d. erewrite (rd_be32_at _ 6 6) by reflexivity. f_equal. unfold be32, u16_ok in *. zdiv. }
  assert (E2 : rd_be16 d (6 + 4) = Ok usi) by (unfold d; eapply (rd_be16_word _ _ 10); [lia|reflexivity|reflexivity|unfold u16_ok; lia]).
  assert (E3 : rd_be16 d (6 + 6) = Ok error) by (unfold d; eapply (rd_be16_word _ _ 12); [lia|reflexivity|reflexivity|done]).
  rewrite E1, E2, E3. cbn [bind]. replace ((props <? 65536) && (usi <? 32768)) with true by (unfold u16_ok in *; lia).
  cbn [bind fst snd]. replace (len d <? 6 + 8 + 6) with true by reflexivity. reflexivity.
Qed.

(** ** Channel properties *)

Lemma bits_div v s n : 0 <= s -> 0 <= n -> bits v s (2 ^ n - 1) = v / 2 ^ s mod 2 ^ n.
Proof.
  intros. unfold bits. rewrite Z.shiftr_div_pow2 by lia.
  replace (2 ^ n - 1) with (Z.ones n) by (rewrite Z.ones_equiv; lia). by rewrite Z.land_ones.
Qed.

Definition type_code (t : ChannelType) : Z :=
  match t with CtReserved => 0 | CtSpecific => 1 | CtAll => 2 | CtSubmodule => 3 end.
Definition accumulative_code (a : ChannelAccumulative) : Z :=
  match a with No => 0 | MainFault => 1 | AdditionalFault => 2 end.
Definition specifier_code (s : ChannelSpecifier) : Z :=
  match s with AllDisappears => 0 | Appears => 1 | Disappears => 2 | DisappearsOther => 3 end.
Definition direction_code (d : ChannelDirection) : Z :=
  match d with Manufacturer => 0 | Input => 1 | Output => 2 | Bidirectional => 3 end.

(** The word with these fields; [r7] and [r13] are the reserved bits. *)
Definition properties_word (t : ChannelType) (a : ChannelAccumulative) (required demanded : bool) (r7 : bool)
    (s : ChannelSpecifier) (d : ChannelDirection) (r13 : Z) : Z :=
  type_code t + 4 * accumulative_code a + 32 * Z.b2z required + 64 * Z.b2z demanded + 128 * Z.b2z r7
  + 256 * specifier_code s + 2048 * direction_code d + 8192 * r13.

(** Channel properties are decoded field by field: a word composed of any
    channel type, accumulation, maintenance bits, specifier and direction
    decodes to exactly these, whatever the reserved bits hold. *)
Theorem channel_properties_decoded t a required demanded r7 s d r13 :
  0 <= r13 < 8 ->
  from_u16 (properties_word t a required demanded r7 s d r13)
  = {| raw := properties_word t a required demanded r7 s d r13; channel_type := t; accumulative := a;
       maintenance_required := required; maintenance_demanded := demanded; specifier := s; direction := d |}.
Proof.
  intros Hr. unfold from_u16. set (v := properties_word t a required demanded r7 s d r13).
  assert (Hf : bits v 0 0x03 = type_code t /\ bits v 2 0x07 = accumulative_code a /\
    bits v 5 0x01 = Z.b2z required /\ bits v 6 0x01 = Z.b2z demanded /\
    bits v 8 0x07 = specifier_code s /\ bits v 11 0x03 = direction_code d).
  { change 0x03 with (2 ^ 2 - 1). change 0x07 with (2 ^ 3 - 1). change 0x01 with (2 ^ 1 - 1).
    rewrite !bits_div by lia. unfold v, properties_word.
    change (2 ^ 0) with 1. change (2 ^ 2) with 4. change (2 ^ 3) with 8. change (2 ^ 5) with 32.
    change (2 ^ 6) with 64. change (2 ^ 8) with 256. change (2 ^ 11) with 2048. change (2 ^ 1) with 2.
    assert (Ht : 0 <= type_code t <= 3) by (destruct t; cbn; lia).
    assert (Hac : 0 <= accumulative_code a <= 2) by (destruct a; cbn; lia).
    assert (Hs : 0 <= specifier_code s <= 3) by (destruct s; cbn; lia).
    assert (Hd : 0 <= direction_code d <= 3) by (destruct d; cbn; lia).
    assert (H1 : 0 <= Z.b2z required <= 1) by (destruct required; cbn; lia).
    assert (H2 : 0 <= Z.b2z demanded <= 1) by (destruct demanded; cbn; lia).
    assert (H3 : 0 <= Z.b2z r7 <= 1) by (destruct r7; cbn; lia).
    split_and!; zdiv. }
  destruct Hf as (-> & -> & -> & -> & -> & ->).
  f_equal; [by destruct t|by destruct a|by destruct required|by destruct demanded|by destruct s|by destruct d].
Qed.

Example channel_properties_decoded_witness :
  properties_word CtSubmodule MainFault true false true Appears Input 7 = 0xE9A7 /\
  from_u16 0xE9A7 = {| raw := 0xE9A7; channel_type := CtSubmodule; accumulative := MainFault;
                       maintenance_required := true; maintenance_demanded := false; specifier := Appears;
                       direction := Input |}.
Proof.
  split; [reflexivity|].
  refine (channel_properties_decoded CtSubmodule MainFault true false true Appears Input 7 _). lia.
Defined.
