(* ===== verification/Epm.v ===== *)
(** * Endpoint mapper ([src/src/epm.rs])

    UUIDs in their mixed-endian form, the lookup request, the tower and
    response parsers, and the lookup over raw Ethernet ([epm_lookup]).  The
    lookup over a UDP socket ([epm_lookup_udp]) differs only in socket calls. *)

From S2P Require Import Prelude Fmt Dcp RawUdp.

#[local] Open Scope string_scope.
#[local] Open Scope list_scope.
#[local] Open Scope Z_scope.

Definition RPC_PORT : Z := 0x8894.

Definition UUID_EPM_V4 : string := "e1af8308-5d1f-11c9-91a4-08002b14a0fa".
Definition UUID_PNIO_DEVICE : string := "dea00001-6c97-11d1-8271-00a02442df7d".
Definition UUID_PNIO_CONTROLLER : string := "dea00002-6c97-11d1-8271-00a02442df7d".
Definition UUID_PNIO_SUPERVISOR : string := "dea00003-6c97-11d1-8271-00a02442df7d".
Definition UUID_PNIO_PARAMSERVER : string := "dea00004-6c97-11d1-8271-00a02442df7d".

Definition EPM_LOOKUP : Z := 0x02.
Definition EPM_INQUIRY_ALL : Z := 0x00.
Definition EPM_INQUIRY_INTERFACE : Z := 0x01.

(** ** UUIDs *)

Definition uuid_bytes_to_string (d : list Z) : outcome string :=
  if negb (len d =? 16) then Ok EmptyString
  else
    let? node := slice d 10 16 in
    let? a := rd_le32 d 0 in
    let? b := rd_le16 d 4 in
    let? c := rd_le16 d 6 in
    let? e := rd_be16 d 8 in
    Ok (hexl 8 a +:+ "-" +:+ hexl 4 b +:+ "-" +:+ hexl 4 c +:+ "-" +:+ hexl 4 e +:+ "-"
        +:+ String.concat EmptyString (hexl 2 <$> node)).

(** [s.chars().filter(|c| *c != '-').collect()]. *)
Fixpoint remove_dashes (s : string) : string :=
  match s with
  | EmptyString => EmptyString
  | String c s => if Ascii.eqb c "-"%char then remove_dashes s else String c (remove_dashes s)
  end.

Definition U64_MAX : Z := 18446744073709551615.

(** [field]: a range of the digits as a number. *)
Definition uuid_field (uuid_str parts : string) (a b : Z) : outcome Z :=
  let? p := str_slice parts a b in
  map_err (fun _ => "Invalid UUID string: " +:+ uuid_str) (from_str_radix 16 U64_MAX p).

Definition string_to_uuid_bytes (uuid_str : string) : outcome (list Z) :=
  let parts := remove_dashes uuid_str in
  if negb (slen parts =? 32) then Err ("Invalid UUID string: " +:+ uuid_str)
  else
    let? a := uuid_field uuid_str parts 0 8 in
    let? b := uuid_field uuid_str parts 8 12 in
    let? c := uuid_field uuid_str parts 12 16 in
    let? e := uuid_field uuid_str parts 16 20 in
    let? node := map_result (fun i => let? v := uuid_field uuid_str parts (20 + 2 * i) (22 + 2 * i) in Ok (as_u8 v))
                   [0; 1; 2; 3; 4; 5] in
    Ok (le32_bytes (as_u32 a) ++ le16_bytes (as_u16 b) ++ le16_bytes (as_u16 c) ++ be16_bytes (as_u16 e) ++ node).

(** ** Endpoints *)

Record EpmEndpoint := {
  interface_uuid : string;
  interface_version_major : Z;
  interface_version_minor : Z;
  ep_object_uuid : string;
  protocol : string;
  ep_port : Z;
  address : string;
  annotation : string;
}.

#[global] Instance EpmEndpoint_eq_dec : EqDecision EpmEndpoint.
Proof. solve_decision. Defined.

Definition default_endpoint : EpmEndpoint :=
  {| interface_uuid := EmptyString; interface_version_major := 0; interface_version_minor := 0;
     ep_object_uuid := EmptyString; protocol := EmptyString; ep_port := 0; address := EmptyString;
     annotation := EmptyString |}.

(** The names are matched in lower case; only ASCII letters can make a match. *)
Definition interface_name (e : EpmEndpoint) : string :=
  let u := to_ascii_lowercase (interface_uuid e) in
  if String.eqb u UUID_PNIO_DEVICE then "PNIO-Device"
  else if String.eqb u UUID_PNIO_CONTROLLER then "PNIO-Controller"
  else if String.eqb u UUID_PNIO_SUPERVISOR then "PNIO-Supervisor"
  else if String.eqb u UUID_PNIO_PARAMSERVER then "PNIO-ParameterServer"
  else if String.eqb u UUID_EPM_V4 then "EPM"
  else "Unknown(" +:+ interface_uuid e +:+ ")".

(** ** The request *)

Definition epm_lookup_request (activity_uuid : list Z) (interface_filter : option string) : outcome (list Z) :=
  let? q :=
    (match interface_filter with
     | Some filter => let? u := string_to_uuid_bytes filter in Ok (EPM_INQUIRY_INTERFACE, u, 1, 0)
     | None => Ok (EPM_INQUIRY_ALL, rep 16 0, 0, 0)
     end) in
  let '(inquiry_type, iface_uuid, major, minor) := q in
  let body := le32_bytes inquiry_type ++ rep 16 0 ++ iface_uuid ++ le16_bytes major ++ le16_bytes minor
              ++ le32_bytes 0 ++ le32_bytes 0 ++ le32_bytes 100 in
  let? epm_iface := string_to_uuid_bytes UUID_EPM_V4 in
  Ok ([0x04; 0x00; 0x20; 0x00; 0x10; 0x00; 0x00; 0x00] ++ rep 16 0 ++ epm_iface ++ activity_uuid
      ++ le32_bytes 0 ++ le32_bytes 3 ++ le32_bytes 0 ++ le16_bytes EPM_LOOKUP ++ le16_bytes 0xFFFF
      ++ le16_bytes 0xFFFF ++ le16_bytes (as_u16 (len body)) ++ le16_bytes 0 ++ [0x00; 0x00] ++ body).

(** ** The response *)

(** A length and that many bytes; [None] when they are not there. *)
Definition floor_side (tower : list Z) (offset : Z) : outcome (option (list Z * Z)) :=
  let? n := rd_le16 tower offset in
  let offset := offset + 2 in
  if len tower <? offset + n then Ok None
  else let? s := slice tower offset (offset + n) in Ok (Some (s, offset + n)).

(** What a floor says of the endpoint. *)
Definition apply_floor (floor_idx : Z) (lhs rhs : list Z) (e : EpmEndpoint) : outcome EpmEndpoint :=
  if negb (1 <=? len lhs) then Ok e
  else
    let? id := idx lhs 0 in
    if (id =? 0x0D) && (19 <=? len lhs) then
      if negb (floor_idx =? 0) then Ok e
      else
        let? u := slice lhs 1 17 in
        let? uuid := uuid_bytes_to_string u in
        let? major := rd_le16 lhs 17 in
        let? minor := (if 2 <=? len rhs then rd_le16 rhs 0 else Ok (interface_version_minor e)) in
        Ok {| interface_uuid := uuid; interface_version_major := major; interface_version_minor := minor;
              ep_object_uuid := ep_object_uuid e; protocol := protocol e; ep_port := ep_port e;
              address := address e; annotation := annotation e |}
    else if id =? 0x0A then
      Ok {| interface_uuid := interface_uuid e; interface_version_major := interface_version_major e;
            interface_version_minor := interface_version_minor e; ep_object_uuid := ep_object_uuid e;
            protocol := "ncadg_ip_udp"; ep_port := ep_port e; address := address e; annotation := annotation e |}
    else if (id =? 0x08) && (2 <=? len rhs) then
      let? p := rd_be16 rhs 0 in
      Ok {| interface_uuid := interface_uuid e; interface_version_major := interface_version_major e;
            interface_version_minor := interface_version_minor e; ep_object_uuid := ep_object_uuid e;
            protocol := protocol e; ep_port := p; address := address e; annotation := annotation e |}
    else if (id =? 0x09) && (4 <=? len rhs) then
      let? a := idx rhs 0 in
      let? b := idx rhs 1 in
      let? c := idx rhs 2 in
      let? d := idx rhs 3 in
      Ok {| interface_uuid := interface_uuid e; interface_version_major := interface_version_major e;
            interface_version_minor := interface_version_minor e; ep_object_uuid := ep_object_uuid e;
            protocol := protocol e; ep_port := ep_port e;
            address := dec a +:+ "." +:+ dec b +:+ "." +:+ dec c +:+ "." +:+ dec d; annotation := annotation e |}
    else Ok e.

(** One floor; the state is its number, the offset and the endpoint. *)
Definition FloorState : Type := Z * Z * EpmEndpoint.
Definition floor_body (tower : list Z) (st : FloorState) : outcome (step FloorState FloorState) :=
  let '(floor_idx, offset, e) := st in
  if len tower <? offset + 4 then Ok (Break st)
  else
    let? l := floor_side tower offset in
    match l with
    | None => Ok (Break st)
    | Some (lhs, offset) =>
        if len tower <? offset + 2 then Ok (Break st)
        else
          let? r := floor_side tower offset in
          match r with
          | None => Ok (Break st)
          | Some (rhs, offset) =>
              let? e := apply_floor floor_idx lhs rhs e in
              Ok (Continue (floor_idx + 1, offset, e))
          end
    end.

Definition parse_epm_tower (tower : list Z) : outcome (option EpmEndpoint) :=
  if len tower <? 4 then Ok None
  else
    let? floor_count := rd_le16 tower 0 in
    let? st := for_count (Z.to_nat floor_count) (floor_body tower) (0, 2, default_endpoint) in
    let e := snd st in
    Ok (if String.eqb (interface_uuid e) EmptyString then None else Some e).

Definition align4 (offset : Z) : Z := (offset + 3) / 4 * 4.

Definition annotate (object_uuid note : string) (e : EpmEndpoint) : EpmEndpoint :=
  {| interface_uuid := interface_uuid e; interface_version_major := interface_version_major e;
     interface_version_minor := interface_version_minor e; ep_object_uuid := object_uuid;
     protocol := protocol e; ep_port := ep_port e; address := address e; annotation := note |}.

(** One entry; the state is the entries left, the offset and the endpoints. *)
Definition EntryState : Type := Z * Z * list EpmEndpoint.
Definition entry_body (body : list Z) (st : EntryState) : outcome (step EntryState (list EpmEndpoint)) :=
  let '(left_, offset, eps) := st in
  if left_ =? 0 then Ok (Break eps)
  else if len body <? offset + 16 then Ok (Break eps)
  else
    let? u := slice body offset (offset + 16) in
    let? object_uuid := uuid_bytes_to_string u in
    let offset := offset + 16 in
    if len body <? offset + 4 then Ok (Break eps)
    else
      let offset := offset + 4 in
      if len body <? offset + 4 then Ok (Break eps)
      else
        let? annotation_len := rd_le32 body offset in
        let offset := offset + 4 in
        let? note :=
          (if (0 <? annotation_len) && (offset + annotation_len <=? len body) then
             let? raw := slice body offset (offset + annotation_len) in Ok (from_utf8_lossy (trim_zeros raw))
           else Ok EmptyString) in
        let offset := align4 (offset + annotation_len) in
        if len body <? offset + 4 then Ok (Break eps)
        else
          let? tower_len := rd_le32 body offset in
          let offset := offset + 4 in
          if len body <? offset + tower_len then Ok (Break eps)
          else
            let? tower := slice body offset (offset + tower_len) in
            let? e := parse_epm_tower tower in
            let eps := match e with Some e => eps ++ [annotate object_uuid note e] | None => eps end in
            Ok (Continue (left_ - 1, align4 (offset + tower_len), eps)).

Definition parse_epm_response (d : list Z) : outcome (list EpmEndpoint) :=
  if len d <? 80 then Ok []
  else
    let? ty := idx d 1 in
    if negb (ty =? 0x02) then Ok []
    else
      let? body_len := rd_le16 d 74 in
      let? body := slice d 80 (Z.min (80 + body_len) (len d)) in
      if len body <? 12 then Ok []
      else
        let? num_ents := rd_le32 body 4 in
        loop (S (length body)) (entry_body body) (num_ents, 20, []).

(** ** The lookup *)

(** [epm_lookup] on random bytes and an opened capture ([None]: it did not
    open); the capture is closed on return.  [passes] is the number of
    receives before the deadline. *)
Definition epm_lookup {S} `{PacketSocket S} (passes : nat) (rnd : list Z) (capture : outcome S)
    (smac sip dmac dip : list Z) (interface_filter : option string) : option S * outcome (list EpmEndpoint) :=
  let pure (o : outcome (list EpmEndpoint)) : option S * outcome (list EpmEndpoint) := (None, o) in
  match (let? activity_uuid := slice rnd 0 16 in
         let? r := rd_be16 rnd 16 in
         let? req := epm_lookup_request activity_uuid interface_filter in
         let? s := capture in
         Ok (req, raw_open s smac sip dmac dip (wrap_add16 49152 (r mod 16384)))) with
  | Ok (req, raw) =>
      let '(raw, o) := send_to req RPC_PORT raw in
      match o with
      | Ok _ =>
          let '(raw, o) := recv_from passes raw in
          (Some (sock raw),
           let? r := o in
           match r with Some (payload, _) => parse_epm_response payload | None => Ok [] end)
      | Err e => (Some (sock raw), Err e)
      | Panic => (Some (sock raw), Panic)
      | OutOfFuel => (Some (sock raw), OutOfFuel)
      end
  | Err e => pure (Err e)
  | Panic => pure Panic
  | OutOfFuel => pure OutOfFuel
  end.

(** ** UUIDs read back *)

Lemma remove_dashes_app a b : remove_dashes (a +:+ b) = remove_dashes a +:+ remove_dashes b.
Proof.
  induction a as [|c a IH]; [done|]. rewrite app_String. cbn [remove_dashes]. rewrite IH.
  by destruct (Ascii.eqb c "-"%char).
Qed.

Lemma remove_dashes_id s : sforall is_hexdigit s = true -> remove_dashes s = s.
Proof.
  induction s as [|c s IH]; [done|]. cbn [sforall remove_dashes]. intros [Hc Hs]%andb_prop.
  destruct (Ascii.eqb_spec c "-"%char) as [->|]; [by vm_compute in Hc|]. by rewrite IH.
Qed.

Lemma hexdigit_ascii s : sforall is_hexdigit s = true -> ascii_only s.
Proof.
  apply sforall_mono. intros c Hc. destruct c as [[] [] [] [] [] [] [] []]; (vm_compute in Hc; done) || by vm_compute.
Qed.

Lemma str_slice_mid pre mid post :
  ascii_only (pre +:+ mid +:+ post) ->
  str_slice (pre +:+ mid +:+ post) (slen pre) (slen pre + slen mid) = Ok mid.
Proof.
  intros Ha. unfold str_slice. assert (Hl : slen (pre +:+ mid +:+ post) = slen pre + (slen mid + slen post)) by by rewrite !slen_app.
  assert (0 <= slen pre /\ 0 <= slen mid /\ 0 <= slen post) as (? & ? & ?) by (unfold slen; lia).
  rewrite !ascii_boundary by (done || lia).
  replace ((0 <=? slen pre) && (slen pre <=? slen pre + slen mid)
           && (slen pre + slen mid <=? slen (pre +:+ mid +:+ post))) with true by lia.
  cbn [andb]. f_equal. replace (slen pre + slen mid - slen pre) with (slen mid) by lia.
  unfold slen. rewrite !Nat2Z.id. apply substring_mid.
Qed.

Lemma uuid_field_mid u pre w v post a b :
  ascii_only (pre +:+ hexl w v +:+ post) -> (0 < w <= 16)%nat -> 0 <= v < 16 ^ Z.of_nat w ->
  a = slen pre -> b = a + Z.of_nat w ->
  uuid_field u (pre +:+ hexl w v +:+ post) a b = Ok v.
Proof.
  intros Ha Hw Hv -> ->. destruct (hexl_shape w v Hw Hv) as [Hl _]. rewrite <- Hl.
  unfold uuid_field. rewrite str_slice_mid by done. cbn [bind]. rewrite from_str_radix_hexl; [done|done|done|].
  assert (16 ^ Z.of_nat w <= 16 ^ 16) by (apply Z.pow_le_mono_r; lia). unfold U64_MAX.
  change (16 ^ 16) with 18446744073709551616 in *. lia.
Qed.

Lemma le32_bytes_le32 a b c d :
  byte_ok a -> byte_ok b -> byte_ok c -> byte_ok d -> le32_bytes (as_u32 (le32 a b c d)) = [a; b; c; d].
Proof.
  unfold byte_ok. intros. rewrite as_u32_id by (apply le32_ok; done). unfold le32_bytes, le32, be32.
  f_equal; [zdiv|f_equal; [zdiv|f_equal; [zdiv|f_equal; zdiv]]].
Qed.
Lemma le16_bytes_le16 a b : byte_ok a -> byte_ok b -> le16_bytes (as_u16 (le16 a b)) = [a; b].
Proof.
  unfold byte_ok. intros. rewrite as_u16_id by (apply le16_ok; done). unfold le16_bytes, le16.
  f_equal; [zdiv|f_equal; zdiv].
Qed.
Lemma be16_bytes_be16 a b : byte_ok a -> byte_ok b -> be16_bytes (as_u16 (be16 a b)) = [a; b].
Proof.
  unfold byte_ok. intros. rewrite as_u16_id by (apply be16_ok; done). unfold be16_bytes, be16.
  f_equal; [zdiv|f_equal; zdiv].
Qed.

(** Hex text of bytes. *)
Definition hex_text (d : list Z) : string := String.concat EmptyString (hexl 2 <$> d).

Lemma hex_text_cons b d : hex_text (b :: d) = hexl 2 b +:+ hex_text d.
Proof. unfold hex_text. rewrite fmap_cons. apply concat_empty_cons. Qed.

Lemma hex_text_shape d : bytes_ok d -> slen (hex_text d) = 2 * len d /\ sforall is_hexdigit (hex_text d) = true.
Proof.
  induction 1 as [|b d Hb Hd [IH1 IH2]]; [done|]. rewrite hex_text_cons, slen_app, sforall_app, IH1, IH2.
  destruct (hexl_shape 2 b ltac:(lia) Hb) as [-> ->]. cbn [length]. split; [lia|done].
Qed.

(** The node's bytes, two digits each. *)
Lemma node_fields s parts pre d k :
  bytes_ok d -> ascii_only parts -> parts = pre +:+ hex_text d -> slen pre = 20 + 2 * k ->
  map_result (fun i => let? v := uuid_field s parts (20 + 2 * i) (22 + 2 * i) in Ok (as_u8 v)) (seqZ k (len d)) = Ok d.
Proof.
  intros Hd Ha. revert pre k. induction Hd as [|b d Hb Hd IH]; intros pre k E Hk; [done|].
  rewrite seqZ_cons by (cbn; lia). rewrite map_result_cons. rewrite hex_text_cons in E.
  replace (Z.pred (len (b :: d))) with (len d) by (cbn; lia).
  rewrite (IH (pre +:+ hexl 2 b) (Z.succ k)).
  - rewrite E in *. rewrite (uuid_field_mid s pre 2 b) by (done || lia). cbn [bind]. by rewrite as_u8_id.
  - by rewrite app_assoc_s.
  - rewrite slen_app, (proj1 (hexl_shape 2 b ltac:(lia) Hb)). lia.
Qed.

(** The digits of a UUID, without dashes, read back field by field. *)
Lemma uuid_parts_read s a b c e node :
  remove_dashes s = hexl 8 a +:+ hexl 4 b +:+ hexl 4 c +:+ hexl 4 e +:+ hex_text node ->
  u32_ok a -> u16_ok b -> u16_ok c -> u16_ok e -> bytes_ok node -> len node = 6 ->
  string_to_uuid_bytes s = Ok (le32_bytes a ++ le16_bytes b ++ le16_bytes c ++ be16_bytes e ++ node).
Proof.
  intros E Ha Hb Hc He Hn Hl.
  destruct (hexl_shape 8 a ltac:(lia) Ha) as [LA XA]. destruct (hexl_shape 4 b ltac:(lia) Hb) as [LB XB].
  destruct (hexl_shape 4 c ltac:(lia) Hc) as [LC XC]. destruct (hexl_shape 4 e ltac:(lia) He) as [LD XD].
  destruct (hex_text_shape node Hn) as [LN XN].
  unfold string_to_uuid_bytes. rewrite E. clear E. set (parts := hexl 8 a +:+ _).
  assert (Hp : ascii_only parts) by (apply hexdigit_ascii; unfold parts; by rewrite !sforall_app, XA, XB, XC, XD, XN).
  replace (slen parts =? 32) with true by (unfold parts; rewrite !slen_app, LA, LB, LC, LD, LN, Hl; done).
  assert (Hf : forall pre w v post x y, parts = pre +:+ hexl w v +:+ post -> (0 < w <= 16)%nat ->
    0 <= v < 16 ^ Z.of_nat w -> x = slen pre -> y = x + Z.of_nat w -> uuid_field s parts x y = Ok v).
  { intros pre w v post x y E. rewrite E in *. intros. by apply uuid_field_mid. }
  cbn [negb]. rewrite (Hf EmptyString 8%nat a (hexl 4 b +:+ hexl 4 c +:+ hexl 4 e +:+ hex_text node)) by (done || lia).
  rewrite (Hf (hexl 8 a) 4%nat b (hexl 4 c +:+ hexl 4 e +:+ hex_text node)) by (done || lia).
  rewrite (Hf (hexl 8 a +:+ hexl 4 b) 4%nat c (hexl 4 e +:+ hex_text node))
    by (rewrite ?slen_app, ?app_assoc_s; done || lia).
  rewrite (Hf (hexl 8 a +:+ hexl 4 b +:+ hexl 4 c) 4%nat e (hex_text node))
    by (rewrite ?slen_app, ?app_assoc_s; done || lia).
  cbn [bind]. change [0; 1; 2; 3; 4; 5] with (seqZ 0 6). rewrite <- Hl.
  rewrite (node_fields s parts (hexl 8 a +:+ hexl 4 b +:+ hexl 4 c +:+ hexl 4 e)); [|done|done| |].
  - cbn [bind]. by rewrite as_u32_id, !as_u16_id.
  - unfold parts. by rewrite !app_assoc_s.
  - rewrite !slen_app. lia.
Qed.

(** Every UUID has a text, and the text names it. *)
Lemma uuid_text u : bytes_ok u -> length u = 16%nat ->
  exists s, uuid_bytes_to_string u = Ok s /\ s <> EmptyString /\ string_to_uuid_bytes s = Ok u.
Proof.
  intros Hu Hl.
  destruct (list_split16 u Hl) as (a0 & a1 & a2 & a3 & a4 & a5 & a6 & a7 & a8 & a9 & a10 & a11 & a12 & a13 & a14 & a15 & ->).
  unfold bytes_ok in Hu. rewrite !Forall_cons in Hu.
  destruct Hu as (B0 & B1 & B2 & B3 & B4 & B5 & B6 & B7 & B8 & B9 & Hn).
  set (node := [a10; a11; a12; a13; a14; a15]). assert (Hnode : bytes_ok node) by (by rewrite <- !Forall_cons in Hn).
  set (a := le32 a0 a1 a2 a3). set (b := le16 a4 a5). set (c := le16 a6 a7). set (e := be16 a8 a9).
  assert (Ra : u32_ok a) by (by apply le32_ok). assert (Rb : u16_ok b) by (by apply le16_ok).
  assert (Rc : u16_ok c) by (by apply le16_ok). assert (Re : u16_ok e) by (by apply be16_ok).
  destruct (hexl_shape 8 a ltac:(lia) Ra) as [LA XA]. destruct (hexl_shape 4 b ltac:(lia) Rb) as [_ XB].
  destruct (hexl_shape 4 c ltac:(lia) Rc) as [_ XC]. destruct (hexl_shape 4 e ltac:(lia) Re) as [_ XD].
  destruct (hex_text_shape node Hnode) as [_ XN].
  exists (hexl 8 a +:+ "-" +:+ hexl 4 b +:+ "-" +:+ hexl 4 c +:+ "-" +:+ hexl 4 e +:+ "-" +:+ hex_text node).
  split_and!.
  - unfold uuid_bytes_to_string. eval_if. eapply bind_step; [reflexivity|]. cbv beta. do 4 lit_step. done.
  - intros E. apply (f_equal slen) in E. rewrite slen_app, LA in E. change (slen EmptyString) with 0 in E.
    match goal with H : context [slen ?x] |- _ => assert (0 <= slen x) by (unfold slen; lia) end. lia.
  - rewrite (uuid_parts_read _ a b c e node); [|..|done|done|done|done|done|done].
    + unfold a, b, c, e. by rewrite <- (as_u32_id (le32 _ _ _ _)), <- (as_u16_id (le16 a4 _)), <- (as_u16_id (le16 a6 _)),
        <- (as_u16_id (be16 _ _)), le32_bytes_le32, !le16_bytes_le16, be16_bytes_be16.
    + by rewrite !remove_dashes_app, !(remove_dashes_id _ XA), !(remove_dashes_id _ XB),
        !(remove_dashes_id _ XC), !(remove_dashes_id _ XD), !(remove_dashes_id _ XN).
Qed.

(** A text of 32 digits' length need not be digits: cut inside a character, it
    panics instead of being refused. *)
Lemma uuid_text_panics :
  string_to_uuid_bytes (String.concat EmptyString (replicate 31 "0"%string) +:+ "0") <> Panic /\
  string_to_uuid_bytes ("0000000" +:+ String (chr 195) (String (chr 169) EmptyString) +:+ "00000000000000000000000")
  = Panic.
Proof. split; [vm_compute; discriminate|vm_compute; reflexivity]. Qed.

(** ** Totality *)

Lemma uuid_string_total u : bytes_ok u -> total (uuid_bytes_to_string u) (fun _ => True).
Proof. intros Hu. unfold uuid_bytes_to_string. wp_auto; done. Qed.

Lemma floor_side_wp t o E : bytes_ok t -> 0 <= o -> o + 2 <= len t ->
  wp (floor_side t o) (fun r => match r with Some (s, o') => bytes_ok s /\ o <= o' | None => True end) E.
Proof.
  intros Ht Ho Hl. unfold floor_side. wp_step. wp_step. cbv zeta. wp_step; [done|]. apply wp_bind.
  specialize (H Ht). unfold u16_ok in H. apply wp_slice; [lia|lia|].
  intros r Hr Hlr. cbn. split; [by eauto using slice_bytes|lia].
Qed.

Lemma apply_floor_total i lhs rhs e : bytes_ok lhs -> bytes_ok rhs -> total (apply_floor i lhs rhs e) (fun _ => True).
Proof.
  intros Hl Hr. unfold apply_floor. wp_auto; try done.
  eapply wp_mono; [apply uuid_string_total; by eauto using slice_bytes| |done]. intros s _. wp_auto; done.
Qed.

Lemma parse_epm_tower_total t : bytes_ok t -> total (parse_epm_tower t) (fun _ => True).
Proof.
  intros Ht. unfold total, parse_epm_tower. wp_step; [done|]. wp_step. wp_step.
  eapply wp_bind_ok; [apply (wp_for_count (fun st => 0 <= snd (fst st))); [cbn; lia|]|done].
  intros [[i o] e] Ho. cbn in Ho. unfold floor_body. wp_step; [cbn; lia|].
  eapply wp_bind_ok; [apply floor_side_wp; [done|lia|lia]|]. intros [[lhs o1]|] H1; [|cbn; lia].
  destruct H1 as [B1 H1]. wp_step; [cbn; lia|].
  eapply wp_bind_ok; [apply floor_side_wp; [done|lia|lia]|]. intros [[rhs o2]|] H2; [|cbn; lia].
  destruct H2 as [B2 H2]. eapply wp_bind_ok; [by apply apply_floor_total|]. intros e' _. cbn. lia.
Qed.

Lemma align4_up o : 0 <= o -> o <= align4 o < o + 4.
Proof. intros. unfold align4. zdiv. Qed.

Lemma entries_total body n : bytes_ok body ->
  total (loop (S (length body)) (entry_body body) (n, 20, [])) (fun _ => True).
Proof.
  intros Hb. apply wp_loop with (I := fun st => 0 <= snd (fst st)) (m := fun st => Z.to_nat (len body - snd (fst st)));
    [|cbn; lia|cbn; lia].
  intros [[k o] eps] Ho. cbn in Ho. unfold entry_body. wp_step; [done|]. wp_step; [done|]. apply wp_bind.
  apply wp_slice; [lia|lia|]. intros u Hu _. eapply wp_bind_ok; [apply uuid_string_total; by eauto using slice_bytes|].
  intros obj _. cbv zeta. wp_step; [done|]. wp_step; [done|]. wp_step. wp_step. specialize (H Hb). unfold u32_ok in H.
  eapply wp_bind_ok with (Q := fun _ => True); [wp_auto; done|]. intros note _.
  match goal with |- context [align4 ?x] => pose proof (align4_up x) end.
  wp_step; [done|]. wp_step. wp_step. rename H1 into Hv. specialize (Hv Hb). unfold u32_ok in Hv. cbv zeta. wp_step; [done|].
  apply wp_bind. apply wp_slice; [lia|lia|]. intros t Ht _.
  eapply wp_bind_ok; [apply parse_epm_tower_total; by eauto using slice_bytes|]. intros e' _.
  match goal with |- context [Continue (_, align4 ?x, _)] => pose proof (align4_up x) end.
  cbn. lia.
Qed.

Lemma parse_epm_response_total d : bytes_ok d -> total (parse_epm_response d) (fun _ => True).
Proof.
  intros Hd. unfold total, parse_epm_response. wp_step; [done|]. wp_step. wp_step. wp_step; [done|]. wp_step. wp_step.
  specialize (H0 Hd). unfold u16_ok in H0. apply wp_bind. apply wp_slice; [lia|lia|]. intros body Hb Hl.
  wp_step; [done|]. assert (bytes_ok body) by (by eauto using slice_bytes). wp_step. wp_step. by apply entries_total.
Qed.

(** ** What an endpoint mapper answers *)

(** A floor of a tower: protocol identifier and address data. *)
Definition Floor : Type := list Z * list Z.
Definition floor_bytes (f : Floor) : list Z :=
  le16_bytes (len (fst f)) ++ fst f ++ le16_bytes (len (snd f)) ++ snd f.
Definition floor_ok (f : Floor) : Prop := u16_ok (len (fst f)) /\ u16_ok (len (snd f)).

(** A UDP endpoint of an interface, with the object and the annotation the
    mapper lists it under. *)
Record Entry := {
  en_object : list Z;
  en_note : list Z;
  en_zeros : nat;
  en_iface : list Z;
  en_major : Z;
  en_minor : Z;
  en_syntax : list Z;
  en_port : Z;
  en_ip : Z * Z * Z * Z;
}.

Definition entry_floors (e : Entry) : list Floor :=
  let '(a, b, c, d) := en_ip e in
  [ ([0x0D] ++ en_iface e ++ le16_bytes (en_major e), le16_bytes (en_minor e));
    ([0x0D] ++ en_syntax e, [0; 0]);
    ([0x0A], [0; 0]);
    ([0x08], be16_bytes (en_port e));
    ([0x09], [a; b; c; d]) ].
Definition tower_bytes (fs : list Floor) : list Z := le16_bytes (len fs) ++ concat (floor_bytes <$> fs).
Definition pad4 (l : list Z) : list Z := l ++ rep (align4 (len l) - len l) 0.
Definition note_bytes (e : Entry) : list Z := en_note e ++ replicate (en_zeros e) 0.
Definition entry_bytes (e : Entry) : list Z :=
  let tower := tower_bytes (entry_floors e) in
  en_object e ++ le32_bytes 3 ++ le32_bytes (len (note_bytes e)) ++ pad4 (note_bytes e)
  ++ le32_bytes (len tower) ++ pad4 tower.

Definition entry_ok (e : Entry) : Prop :=
  let '(a, b, c, d) := en_ip e in
  length (en_object e) = 16%nat /\ bytes_ok (en_object e) /\ ascii_bytes (en_note e) /\ last (en_note e) <> Some 0 /\
  len (note_bytes e) < 4294967296 /\ length (en_iface e) = 16%nat /\ bytes_ok (en_iface e) /\ u16_ok (en_major e) /\
  u16_ok (en_minor e) /\ length (en_syntax e) = 18%nat /\ u16_ok (en_port e).

(** What the lookup reports of an entry. *)
Definition reported (e : Entry) (o : EpmEndpoint) : Prop :=
  let '(a, b, c, d) := en_ip e in
  uuid_bytes_to_string (en_iface e) = Ok (interface_uuid o) /\
  uuid_bytes_to_string (en_object e) = Ok (ep_object_uuid o) /\
  interface_version_major o = en_major e /\ interface_version_minor o = en_minor e /\
  protocol o = "ncadg_ip_udp" /\ ep_port o = en_port e /\
  address o = dec a +:+ "." +:+ dec b +:+ "." +:+ dec c +:+ "." +:+ dec d /\
  annotation o = bytes_str (en_note e).

Lemma floor_side_read t pre s post o :
  t = pre ++ le16_bytes (len s) ++ s ++ post -> o = len pre -> u16_ok (len s) ->
  floor_side t o = Ok (Some (s, o + 2 + len s)).
Proof.
  intros -> -> Hs. unfold floor_side. replace (len pre) with (len pre + 0) at 1 by lia. skip_step.
  replace (_ <? _) with false by (rewrite !length_app; cbn; lia).
  rewrite (app_assoc pre). rewrite (slice_app_mid _ s post) by (rewrite length_app; cbn; lia). done.
Qed.

Lemma floor_body_read pre f post i e :
  floor_ok f ->
  floor_body (pre ++ floor_bytes f ++ post) (i, len pre, e)
  = (let? e := apply_floor i (fst f) (snd f) e in Ok (Continue (i + 1, len pre + len (floor_bytes f), e))).
Proof.
  destruct f as [lhs rhs]. intros [Hl Hr]. cbn [fst snd] in *. unfold floor_body, floor_bytes. cbn [fst snd].
  replace (_ <? _) with false by (rewrite !length_app; cbn; lia). rewrite <- !app_assoc.
  rewrite (floor_side_read _ pre lhs (le16_bytes (len rhs) ++ rhs ++ post)) by done. cbn [bind].
  replace (_ <? _) with false by (rewrite !length_app; cbn; lia).
  rewrite (floor_side_read _ (pre ++ le16_bytes (len lhs) ++ lhs) rhs post)
    by (rewrite <- ?app_assoc, ?length_app; done || cbn; lia). cbn [bind].
  destruct (apply_floor i lhs rhs e); [|done..]. cbn [bind]. do 4 f_equal. rewrite !length_app. cbn. lia.
Qed.

(** A tower is its floors applied in order. *)
Fixpoint apply_floors (i : Z) (fs : list Floor) (e : EpmEndpoint) : outcome EpmEndpoint :=
  match fs with
  | [] => Ok e
  | f :: fs => let? e := apply_floor i (fst f) (snd f) e in apply_floors (i + 1) fs e
  end.

Lemma floors_read fs : forall pre i e, Forall floor_ok fs ->
  for_count (length fs) (floor_body (pre ++ concat (floor_bytes <$> fs))) (i, len pre, e)
  = (let? e := apply_floors i fs e in Ok (i + len fs, len pre + len (concat (floor_bytes <$> fs)), e)).
Proof.
  induction fs as [|f fs IH]; intros pre i e Hok; [cbn; do 4 f_equal; lia|].
  apply Forall_cons in Hok as [Hf Hfs]. rewrite fmap_cons. cbn [concat length for_count apply_floors].
  rewrite floor_body_read by done. destruct (apply_floor _ _ _ _); [|done..]. cbn [bind].
  rewrite app_assoc. replace (len pre + len (floor_bytes f)) with (len (pre ++ floor_bytes f)) by (rewrite length_app; lia).
  rewrite IH by done. destruct (apply_floors _ _ _); [|done..]. cbn [bind]. do 3 f_equal.
  - lia.
  - rewrite !length_app. lia.
Qed.

Lemma tower_read fs : Forall floor_ok fs -> fs <> [] -> u16_ok (len fs) ->
  parse_epm_tower (tower_bytes fs)
  = (let? e := apply_floors 0 fs default_endpoint in
     Ok (if String.eqb (interface_uuid e) EmptyString then None else Some e)).
Proof.
  intros Hf Hn Hl. unfold parse_epm_tower, tower_bytes.
  replace (_ <? 4) with false
    by (destruct fs as [|f fs]; [done|]; rewrite fmap_cons; cbn [concat]; unfold floor_bytes; rewrite !length_app; cbn; lia).
  eapply bind_step; [lit_read|]. cbv beta. rewrite Nat2Z.id.
  pose proof (floors_read fs (le16_bytes (len fs)) 0 default_endpoint Hf) as E. change (len (le16_bytes _)) with 2 in E.
  rewrite E. by destruct (apply_floors _ _ _).
Qed.

Lemma entry_floors_ok e : entry_ok e -> Forall floor_ok (entry_floors e).
Proof.
  unfold entry_ok, entry_floors. destruct (en_ip e) as [[[a b] c] d]. intros (_ & _ & _ & _ & _ & Hi & _ & _ & _ & Hs & _).
  repeat constructor; cbn [fst snd]; rewrite ?length_app, ?Hi, ?Hs; cbn; lia.
Qed.

Lemma entry_tower_read e : entry_ok e -> exists s a, uuid_bytes_to_string (en_iface e) = Ok s /\
  parse_epm_tower (tower_bytes (entry_floors e))
  = Ok (Some {| interface_uuid := s; interface_version_major := en_major e; interface_version_minor := en_minor e;
                ep_object_uuid := EmptyString; protocol := "ncadg_ip_udp"; ep_port := en_port e; address := a;
                annotation := EmptyString |}) /\
  let '(x, y, z, w) := en_ip e in a = dec x +:+ "." +:+ dec y +:+ "." +:+ dec z +:+ "." +:+ dec w.
Proof.
  intros He. pose proof (entry_floors_ok e He) as Hf. revert He Hf. unfold entry_ok, entry_floors.
  destruct (en_ip e) as [[[a b] c] d].
  intros (_ & _ & _ & _ & _ & Hi & Bi & Hma & Hmi & Hs & Hp) Hf.
  destruct (uuid_text (en_iface e) Bi Hi) as (s & Es & Hne & _).
  exists s, (dec a +:+ "." +:+ dec b +:+ "." +:+ dec c +:+ "." +:+ dec d). split_and!; [done| |done].
  rewrite tower_read by done. cbn [apply_floors fst snd].
  assert (E0 : apply_floor 0 ([0x0D] ++ en_iface e ++ le16_bytes (en_major e)) (le16_bytes (en_minor e)) default_endpoint
    = Ok {| interface_uuid := s; interface_version_major := en_major e; interface_version_minor := en_minor e;
            ep_object_uuid := EmptyString; protocol := EmptyString; ep_port := 0; address := EmptyString;
            annotation := EmptyString |}).
  { unfold apply_floor. replace (1 <=? _) with true by (cbn; lia). cbn [negb]. eapply bind_step; [reflexivity|]. cbv beta.
    replace (_ && _) with true by (rewrite !length_app, Hi; reflexivity). cbn [negb Z.eqb].
    rewrite (slice_app_mid [0x0D] (en_iface e)) by (cbn; lia). cbn [bind]. rewrite Es. cbn [bind].
    eapply bind_step.
    { rewrite app_assoc. replace 17 with (len ([0x0D] ++ en_iface e) + 0) by (rewrite length_app, Hi; done).
      rewrite <- (app_nil_r (le16_bytes _)). skip_read. }
    eapply bind_step; [change (2 <=? _) with true; cbv iota; rewrite <- (app_nil_r (le16_bytes _)); lit_read|]. done. }
  rewrite E0. cbn [bind]. clear E0.
  assert (E1 : forall x i, i <> 0 -> apply_floor i ([0x0D] ++ en_syntax e) [0; 0] x = Ok x).
  { intros x i Hne'. unfold apply_floor. replace (1 <=? _) with true by (cbn; lia). cbn [negb]. eapply bind_step; [reflexivity|].
    cbv beta. replace (i =? 0) with false by lia. rewrite length_app, Hs. done. }
  rewrite E1 by done. cbn [bind]. clear E1.
  assert (E2 : forall x i, apply_floor i [0x08] (be16_bytes (en_port e)) x
    = Ok {| interface_uuid := interface_uuid x; interface_version_major := interface_version_major x;
            interface_version_minor := interface_version_minor x; ep_object_uuid := ep_object_uuid x;
            protocol := protocol x; ep_port := en_port e; address := address x; annotation := annotation x |}).
  { intros x i. unfold apply_floor. change (1 <=? _) with true. cbn [negb]. eapply bind_step; [reflexivity|].
    cbv beta. cbn [Z.eqb Pos.eqb andb]. change (2 <=? _) with true. cbv iota.
    eapply bind_step; [rewrite <- (app_nil_r (be16_bytes _)); lit_read|]. reflexivity. }
  eapply bind_step.
  { eapply bind_step; [reflexivity|]. cbv beta. rewrite E2. cbn [bind]. reflexivity. }
  cbv beta. cbn [interface_uuid]. by destruct (String.eqb_spec s EmptyString).
Qed.

(** ** The response *)

Lemma len_pad4 l : len (pad4 l) = align4 (len l).
Proof.
  unfold pad4. pose proof (align4_up (len l)). rewrite length_app, Nat2Z.inj_add, len_rep by lia. lia.
Qed.

Lemma align4_shift a l : a mod 4 = 0 -> align4 (a + l) = a + align4 l.
Proof. unfold align4. intros. zdiv. Qed.

Lemma align4_mod l : align4 l mod 4 = 0.
Proof. unfold align4. zdiv. Qed.

Lemma tower_len_ok e : entry_ok e -> len (tower_bytes (entry_floors e)) = 75.
Proof.
  unfold entry_ok, tower_bytes, entry_floors. destruct (en_ip e) as [[[a b] c] d].
  intros (_ & _ & _ & _ & _ & Hi & _ & _ & _ & Hs & _). cbn [fmap list_fmap concat]. unfold floor_bytes. cbn [fst snd].
  rewrite !length_app, Hi, Hs. reflexivity.
Qed.

Lemma len_entry e : entry_ok e -> len (entry_bytes e) = 28 + align4 (len (note_bytes e)) + align4 75.
Proof.
  intros He. unfold entry_bytes. rewrite !length_app, !Nat2Z.inj_add, !len_pad4, tower_len_ok by done.
  unfold entry_ok in He. destruct (en_ip e) as [[[? ?] ?] ?]. destruct He as [-> _]. change (len (le32_bytes _)) with 4. lia.
Qed.

Lemma note_read pre e post : ascii_bytes (en_note e) -> last (en_note e) <> Some 0 ->
  (if (0 <? len (note_bytes e)) && (len pre + len (note_bytes e) <=? len (pre ++ pad4 (note_bytes e) ++ post)) then
     let? raw := slice (pre ++ pad4 (note_bytes e) ++ post) (len pre) (len pre + len (note_bytes e)) in
     Ok (from_utf8_lossy (trim_zeros raw))
   else Ok EmptyString) = Ok (bytes_str (en_note e)).
Proof.
  intros Ha Hl. pose proof (len_pad4 (note_bytes e)) as Hp. pose proof (align4_up (len (note_bytes e))).
  replace (_ <=? _) with true by (rewrite !length_app; lia). rewrite andb_true_r.
  destruct (Z.ltb_spec 0 (len (note_bytes e))) as [Hpos|Hz].
  - unfold pad4. rewrite <- app_assoc. rewrite (slice_app_mid pre) by done. cbn [bind]. unfold note_bytes.
    by rewrite trim_zeros_pad, lossy_ascii.
  - unfold note_bytes in Hz. rewrite length_app in Hz. destruct (en_note e); [done|cbn in Hz; lia].
Qed.

Lemma entry_read pre e post k eps : entry_ok e -> len pre mod 4 = 0 -> 0 < k ->
  exists o, reported e o /\
    entry_body (pre ++ entry_bytes e ++ post) (k, len pre, eps)
    = Ok (Continue (k - 1, len pre + len (entry_bytes e), eps ++ [o])).
Proof.
  intros He Hm Hk. destruct (entry_tower_read e He) as (s & a & Es & Et & Ea). pose proof (tower_len_ok e He) as Hlt.
  pose proof (len_entry e He) as Hle. unfold entry_ok in He. unfold reported.
  destruct (en_ip e) as [[[x y] z] w]. destruct He as (Ho & Bo & Hn & Hl & Hnl & Hi & _).
  destruct (uuid_text (en_object e) Bo Ho) as (u & Eu & _ & _).
  eexists. split; [|].
  2: {
    set (nb := note_bytes e) in *. set (tb := tower_bytes (entry_floors e)) in *.
    pose proof (align4_up (len nb)). pose proof (align4_up 75).
    set (B := pre ++ _). assert (LB : len B = len pre + len (entry_bytes e) + len post)
      by (unfold B; rewrite !length_app; lia).
    assert (EB : B = pre ++ en_object e ++ le32_bytes 3 ++ le32_bytes (len nb) ++ pad4 nb ++ le32_bytes (len tb) ++ pad4 tb ++ post)
      by (unfold B, entry_bytes; fold nb tb; by rewrite <- !app_assoc).
    unfold entry_body. replace (k =? 0) with false by lia. replace (len B <? _) with false by lia.
    eapply bind_step. { apply (slice_at _ pre (en_object e) (le32_bytes 3 ++ le32_bytes (len nb) ++ pad4 nb ++ le32_bytes (len tb) ++ pad4 tb ++ post)); [exact EB|done|lia]. }
    rewrite Eu. cbn [bind]. cbv zeta. replace (len B <? _) with false by lia. replace (len B <? _) with false by lia.
    set (f1 := pre ++ en_object e ++ le32_bytes 3).
    assert (L1 : len f1 = len pre + 20) by (unfold f1; rewrite !length_app, Ho; cbn; lia).
    assert (E1 : B = f1 ++ le32_bytes (len nb) ++ pad4 nb ++ le32_bytes (len tb) ++ pad4 tb ++ post)
      by (rewrite EB; unfold f1; by rewrite <- !app_assoc).
    eapply bind_step.
    { rewrite E1. replace (len pre + 16 + 4) with (len f1 + 0) by lia. skip_read. }
    cbv beta.
    set (f2 := f1 ++ le32_bytes (len nb)).
    assert (L2 : len f2 = len pre + 16 + 4 + 4) by (unfold f2; rewrite length_app, Nat2Z.inj_add, L1; cbn; lia).
    assert (E2 : B = f2 ++ pad4 nb ++ le32_bytes (len tb) ++ pad4 tb ++ post)
      by (rewrite E1; unfold f2; by rewrite <- !app_assoc).
    eapply bind_step.
    { rewrite <- L2. rewrite E2. by apply note_read. }
    cbv beta. replace (align4 _) with (len pre + 24 + align4 (len nb))
      by (rewrite <- align4_shift by zdiv; f_equal; lia).
    rewrite Hlt in *. change (align4 75) with 76 in *.
    replace (len B <? _) with false by lia.
    set (f3 := f2 ++ pad4 nb).
    assert (L3 : len f3 = len pre + 24 + align4 (len nb)) by (unfold f3; rewrite length_app, Nat2Z.inj_add, len_pad4; lia).
    assert (E3 : B = f3 ++ le32_bytes 75 ++ pad4 tb ++ post) by (rewrite E2; unfold f3; by rewrite <- !app_assoc).
    eapply bind_step.
    { rewrite E3. replace (len pre + 24 + align4 (len nb)) with (len f3 + 0) by lia. skip_read. }
    cbv beta. replace (len B <? _) with false by lia.
    eapply bind_step.
    { apply (slice_at _ (f3 ++ le32_bytes 75) tb (rep (align4 (len tb) - len tb) 0 ++ post)).
      - rewrite E3. unfold pad4. by rewrite <- !app_assoc.
      - rewrite length_app, Nat2Z.inj_add, L3. cbn. lia.
      - rewrite Hlt, length_app, Nat2Z.inj_add, L3. cbn. lia. }
    cbv beta. rewrite Et. cbn [bind]. unfold annotate. cbn [interface_uuid interface_version_major
      interface_version_minor protocol ep_port address].
    do 4 f_equal. pose proof (align4_mod (len nb)).
    replace (len pre + 24 + align4 (len nb) + 4 + 75) with (len pre + 28 + align4 (len nb) + 75) by lia.
    rewrite align4_shift by zdiv. change (align4 75) with 76. lia. }
  cbn [interface_uuid interface_version_major interface_version_minor ep_object_uuid protocol ep_port address annotation].
  split_and!; done.
Qed.

Lemma entry_size (pre : list Z) e : entry_ok e -> len pre mod 4 = 0 ->
  28 < len (entry_bytes e) /\ (len pre + len (entry_bytes e)) mod 4 = 0.
Proof.
  intros He Hm. rewrite len_entry by done. pose proof (align4_up (len (note_bytes e))).
  pose proof (align4_mod (len (note_bytes e))). change (align4 75) with 76. split; [lia|zdiv].
Qed.

Lemma entries_read es : forall fuel pre eps post, Forall entry_ok es -> len pre mod 4 = 0 -> (length es < fuel)%nat ->
  exists os, Forall2 reported es os /\
    loop fuel (entry_body (pre ++ concat (entry_bytes <$> es) ++ post)) (len es, len pre, eps) = Ok (eps ++ os).
Proof.
  induction es as [|e es IH]; intros fuel pre eps post Hok Hm Hf; (destruct fuel as [|fuel]; [cbn in Hf; lia|]).
  - exists []. rewrite app_nil_r. by split; [constructor|].
  - apply Forall_cons in Hok as [He Hes]. destruct (entry_size pre e He Hm) as [_ Hm'].
    destruct (entry_read pre e (concat (entry_bytes <$> es) ++ post) (len (e :: es)) eps He Hm ltac:(cbn; lia))
      as (o & Ho & E).
    destruct (IH fuel (pre ++ entry_bytes e) (eps ++ [o]) post Hes) as (os & Hos & El);
      [by rewrite length_app, Nat2Z.inj_add|cbn in Hf; lia|].
    exists (o :: os). split; [by constructor|]. rewrite fmap_cons. cbn [concat]. rewrite <- app_assoc, loop_S, E.
    cbn [bind]. rewrite <- !app_assoc in El. rewrite length_app, Nat2Z.inj_add in El.
    replace (len (e :: es) - 1) with (len es) by (cbn; lia). exact El.
Qed.

Lemma entries_length es : Forall entry_ok es -> len es <= len (concat (entry_bytes <$> es)).
Proof.
  induction 1 as [|e es He Hes IH]; [done|]. rewrite fmap_cons. cbn [concat length]. rewrite length_app.
  destruct (entry_size [] e He eq_refl). lia.
Qed.

(** A response datagram: the RPC header, of which the type and the body length
    (little-endian) are read, the handle, the number of entries, the array's
    metadata, and the entries. *)
Definition response_bytes (h1 h2 h3 handle meta : list Z) (es : list Entry) : list Z :=
  let body := handle ++ le32_bytes (len es) ++ meta ++ concat (entry_bytes <$> es) in
  h1 ++ [0x02] ++ h2 ++ le16_bytes (len body) ++ h3 ++ body.

Lemma response_read h1 h2 h3 handle meta es trailing :
  length h1 = 1%nat -> length h2 = 72%nat -> length h3 = 4%nat -> length handle = 4%nat -> length meta = 12%nat ->
  Forall entry_ok es -> 20 + len (concat (entry_bytes <$> es)) < 65536 ->
  exists os, Forall2 reported es os /\
    parse_epm_response (response_bytes h1 h2 h3 handle meta es ++ trailing) = Ok os.
Proof.
  intros H1 H2 H3 H4 H5 Hes Hlen. unfold response_bytes. set (body := handle ++ _).
  pose proof (entries_length es Hes) as Hn.
  assert (Lb : len body = 20 + len (concat (entry_bytes <$> es))) by (unfold body; rewrite !length_app, H4, H5; cbn; lia).
  destruct (entries_read es (S (length body)) (handle ++ le32_bytes (len es) ++ meta) [] []) as (os & Hos & E);
    [done|rewrite !length_app, H4, H5; done|lia|].
  exists os. split; [done|]. unfold parse_epm_response.
  replace (_ <? 80) with false by (rewrite !length_app; cbn; lia).
  eapply bind_step.
  { rewrite <- !app_assoc. eapply (idx_skip h1 _ 1 0); [rewrite H1; done|done|]. reflexivity. }
  cbv beta. cbn [Z.eqb Pos.eqb negb]. eapply bind_step.
  { replace (_ ++ trailing) with ((h1 ++ [2] ++ h2) ++ le16_bytes (len body) ++ h3 ++ body ++ trailing) by (by rewrite <- !app_assoc).
    eapply (rd_le16_skip _ _ 74 0); [rewrite !length_app, H1, H2; done|done|].
    replace (h3 ++ body ++ trailing) with (h3 ++ (body ++ trailing)) by done. lit_read. }
  cbv beta. replace (Z.min _ _) with (80 + len body) by (rewrite !length_app, H1, H2, H3; cbn; lia).
  eapply bind_step.
  { apply (slice_at _ (h1 ++ [2] ++ h2 ++ le16_bytes (len body) ++ h3) body trailing); [by rewrite <- !app_assoc| |].
    - rewrite !length_app, H1, H2, H3. done.
    - rewrite !length_app, H1, H2, H3. cbn. lia. }
  cbv beta. replace (len body <? 12) with false by lia. eapply bind_step.
  { unfold body. eapply (rd_le32_skip _ _ 4 0); [by rewrite H4|done|]. lit_read. }
  cbv beta. rewrite app_nil_r, <- !app_assoc in E. rewrite !length_app, H4, H5 in E. exact E.
Qed.

(** A lookup response is read as the endpoint mapper wrote it.  Whatever
    the entries (object, annotation with its padding, a tower whose floors name
    the interface, its version, the port and the address), the endpoints
    returned are exactly those entries, in order, with each UUID in its text
    form, which reads back to the same 16 bytes; and any other datagram, of any
    content, is read to the end without a panic. *)
Theorem epm_response_exact h1 h2 h3 handle meta es trailing d u :
  length h1 = 1%nat -> length h2 = 72%nat -> length h3 = 4%nat -> length handle = 4%nat -> length meta = 12%nat ->
  Forall entry_ok es -> 20 + len (concat (entry_bytes <$> es)) < 65536 ->
  bytes_ok d -> bytes_ok u -> length u = 16%nat ->
  (exists os, Forall2 reported es os /\
     parse_epm_response (response_bytes h1 h2 h3 handle meta es ++ trailing) = Ok os) /\
  (exists s, uuid_bytes_to_string u = Ok s /\ string_to_uuid_bytes s = Ok u) /\
  total (parse_epm_response d) (fun _ => True).
Proof.
  intros. split_and!; [by apply response_read| |by apply parse_epm_response_total].
  destruct (uuid_text u) as (s & ? & _ & ?); [done|done|]. by exists s.
Qed.

Definition entry0 : Entry := {|
  en_object := rep 16 0; en_note := str_bytes "S7-1200"; en_zeros := 3;
  en_iface := [0x01; 0x00; 0xA0; 0xDE; 0x97; 0x6C; 0xD1; 0x11; 0x82; 0x71; 0x00; 0xA0; 0x24; 0x42; 0xDF; 0x7D];
  en_major := 1; en_minor := 0; en_syntax := rep 18 4; en_port := 34964; en_ip := (192, 168, 0, 5) |}.

Example entry0_read :
  parse_epm_response (response_bytes [4] (rep 72 0) (rep 4 0) (rep 4 0) (rep 12 0) [entry0])
  = Ok [ {| interface_uuid := UUID_PNIO_DEVICE; interface_version_major := 1; interface_version_minor := 0;
            ep_object_uuid := "00000000-0000-0000-0000-000000000000"; protocol := "ncadg_ip_udp"; ep_port := 34964;
            address := "192.168.0.5"; annotation := "S7-1200" |} ].
Proof. vm_compute. reflexivity. Qed.

Lemma entry0_ok : entry_ok entry0.
Proof.
  unfold entry_ok. cbn [en_ip entry0]. split_and!; try done; try (by vm_compute).
  all: try (apply (bool_decide_unpack _); vm_compute; exact I).
  all: try (repeat constructor; cbn; lia).
Qed.

Example epm_response_exact_witness :
  exists os, Forall2 reported [entry0] os /\
    parse_epm_response (response_bytes [4] (rep 72 0) (rep 4 0) (rep 4 0) (rep 12 0) [entry0] ++ []) = Ok os.
Proof.
  apply (epm_response_exact [4] (rep 72 0) (rep 4 0) (rep 4 0) (rep 12 0) [entry0] [] [] (rep 16 0)); try reflexivity.
  - constructor; [exact entry0_ok|constructor].
  - apply (bool_decide_unpack _). vm_compute. exact I.
  - apply (bool_decide_unpack _). vm_compute. exact I.
Defined.

(** ** The lookup over the wire *)

Lemma epm_request_shape au filter :
  bytes_ok au -> length au = 16%nat ->
  match filter with
  | None => True
  | Some s => exists u, bytes_ok u /\ length u = 16%nat /\ uuid_bytes_to_string u = Ok s
  end ->
  exists req, epm_lookup_request au filter = Ok req /\ bytes_ok req /\ len req = 132.
Proof.
  intros Ba La Hf.
  destruct (string_to_uuid_bytes UUID_EPM_V4) as [epm|e| |] eqn:Ee; vm_compute in Ee; [|discriminate..].
  injection Ee as <-. unfold epm_lookup_request.
  assert (H : forall ty u ma mi, bytes_ok u -> length u = 16%nat ->
    exists req, (let body := le32_bytes ty ++ rep 16 0 ++ u ++ le16_bytes ma ++ le16_bytes mi ++ le32_bytes 0
                             ++ le32_bytes 0 ++ le32_bytes 100 in
      let? epm_iface := string_to_uuid_bytes UUID_EPM_V4 in
      Ok ([0x04; 0x00; 0x20; 0x00; 0x10; 0x00; 0x00; 0x00] ++ rep 16 0 ++ epm_iface ++ au
      ++ le32_bytes 0 ++ le32_bytes 3 ++ le32_bytes 0 ++ le16_bytes EPM_LOOKUP ++ le16_bytes 0xFFFF
      ++ le16_bytes 0xFFFF ++ le16_bytes (as_u16 (len body)) ++ le16_bytes 0 ++ [0x00; 0x00] ++ body)) = Ok req /\
      bytes_ok req /\ len req = 132).
  { intros ty u ma mi Bu Lu. cbv zeta. eexists. split; [eapply bind_step; [vm_compute; reflexivity|reflexivity]|]. split.
    - repeat apply bytes_ok_app; auto with rust.
      all: apply (bool_decide_unpack _); vm_compute; exact I.
    - rewrite !length_app, La, Lu. reflexivity. }
  destruct filter as [s|]; cbn [bind].
  - destruct Hf as (u & Bu & Lu & Hs). destruct (uuid_text u Bu Lu) as (s' & Hs' & _ & Hr).
    rewrite Hs in Hs'. injection Hs' as <-. rewrite Hr. cbn [bind]. by apply H.
  - apply H; [apply (bool_decide_unpack _); vm_compute; exact I|done].
Qed.

(** A lookup reports what the endpoint mapper answered.  The request (for
    everything, or for one interface's UUID) leaves as one frame that the
    device reads as exactly the request, from the ephemeral port to the mapper's
    port; frames that are not from the device to us are passed over; and the
    endpoints returned are the entries of the device's response. *)
Theorem epm_lookup_over_wire passes rnd (w : Wire) smac sip dmac dip filter l f rest port
    h1 h2 h3 handle meta es trailing :
  bytes_ok rnd -> length rnd = 18%nat -> length smac = 6%nat -> length dmac = 6%nat -> length sip = 4%nat ->
  length dip = 4%nat -> bytes_ok sip -> bytes_ok dip ->
  match filter with
  | None => True
  | Some s => exists u, bytes_ok u /\ length u = 16%nat /\ uuid_bytes_to_string u = Ok s
  end ->
  w_rx w = l ++ f :: rest -> Forall (fun x => parse_udp_frame x dip sip = Ok None) l -> (length l < passes)%nat ->
  parse_udp_frame f dip sip = Ok (Some (response_bytes h1 h2 h3 handle meta es ++ trailing, port)) ->
  length h1 = 1%nat -> length h2 = 72%nat -> length h3 = 4%nat -> length handle = 4%nat -> length meta = 12%nat ->
  Forall entry_ok es -> 20 + len (concat (entry_bytes <$> es)) < 65536 ->
  exists w' os req frame lport,
    epm_lookup passes rnd (Ok w) smac sip dmac dip filter = (Some w', Ok os) /\ Forall2 reported es os /\
    w_tx w' = w_tx w ++ [frame] /\ epm_lookup_request (take 16 rnd) filter = Ok req /\
    parse_udp_frame frame sip dip = Ok (Some (req, lport)) /\ 49152 <= lport < 65536 /\
    rd_be16 frame 36 = Ok RPC_PORT.
Proof.
  intros Br Lr Hsm Hdm Hs Hd Bs Bd Hf Hrx Hl Hp Hfr G1 G2 G3 G4 G5 Hes Hlen.
  destruct (epm_request_shape (take 16 rnd) filter) as (req & Hreq & Breq & Lreq);
    [by apply Forall_take|by rewrite length_take, Lr|done|].
  destruct (response_read h1 h2 h3 handle meta es trailing G1 G2 G3 G4 G5 Hes Hlen) as (os & Hos & Hpr).
  assert (Hau : slice rnd 0 16 = Ok (take 16 rnd)) by (rewrite slice_ok by lia; by rewrite drop_0).
  assert (Hrd : exists v, rd_be16 rnd 16 = Ok v /\ u16_ok v).
  { assert (T : total (rd_be16 rnd 16) u16_ok) by (apply wp_rd_be16; [lia|lia|auto]).
    destruct (total_Ok _ _ T) as (v & -> & ?). by exists v. }
  destruct Hrd as (v & Hv & Bv). set (lport := wrap_add16 49152 (v mod 16384)).
  assert (Hlp : 49152 <= lport < 65536) by (unfold lport, wrap_add16; zdiv).
  destruct (send_to_wire (raw_open w smac sip dmac dip lport) req RPC_PORT) as (frame & Hst & Hq & Hport);
    try done; try (unfold u16_ok, RPC_PORT; cbn; lia).
  unfold epm_lookup. rewrite Hau. cbn [bind]. rewrite Hv. cbn [bind]. rewrite Hreq. cbn [bind]. fold lport. rewrite Hst.
  set (u1 := mkRawUdp _ _ _ _ _ _ _).
  pose proof (recv_from_skips f (response_bytes h1 h2 h3 handle meta es ++ trailing, port) rest l passes u1 Hl Hfr Hrx Hp) as Er.
  pose proof (recv_from_tx passes u1) as Et. destruct (recv_from passes u1) as [u2 o]. cbn [fst snd] in *. subst o.
  cbn [bind]. rewrite Hpr. exists (sock u2), os, req, frame, lport. split_and!; done || lia.
Qed.

(** Asking for the device interface; a frame of our own is captured first. *)
Example epm_lookup_over_wire_witness :
  let me := [10; 0; 0; 1] in let dev := [10; 0; 0; 2] in
  let answer := response_bytes [4] (rep 72 0) (rep 4 0) (rep 4 0) (rep 12 0) [entry0] in
  exists own ans w' os, build_udp_frame (rep 6 1) (rep 6 2) me dev 50000 34964 0 [1; 2] = Ok own /\
    build_udp_frame (rep 6 2) (rep 6 1) dev me 34964 50000 0 answer = Ok ans /\
    epm_lookup 4 (rep 18 7) (Ok {| w_rx := [own; ans]; w_tx := [] |}) (rep 6 1) me (rep 6 2) dev (Some UUID_PNIO_DEVICE)
    = (Some w', Ok os) /\ Forall2 reported [entry0] os.
Proof.
  intros me dev answer.
  destruct (build_udp_frame (rep 6 1) (rep 6 2) me dev 50000 34964 0 [1; 2]) as [own|e| |] eqn:Eo;
    [|vm_compute in Eo; discriminate..].
  destruct (build_udp_frame (rep 6 2) (rep 6 1) dev me 34964 50000 0 answer) as [ans|e| |] eqn:Ea;
    [|vm_compute in Ea; discriminate..].
  destruct (epm_lookup_over_wire 4 (rep 18 7) {| w_rx := [own; ans]; w_tx := [] |} (rep 6 1) me (rep 6 2) dev
    (Some UUID_PNIO_DEVICE) [own] ans [] 34964 [4] (rep 72 0) (rep 4 0) (rep 4 0) (rep 12 0) [entry0] [])
    as (w' & os & req & frame & lport & H & Hos & _).
  all: vm_compute in Eo; vm_compute in Ea; injection Eo as <-; injection Ea as <-.
  all: lazymatch goal with
       | |- bytes_ok _ => apply (bool_decide_unpack _); vm_compute; exact I
       | |- Forall entry_ok _ => apply List.Forall_cons; [exact entry0_ok|constructor]
       | |- Forall _ _ => apply List.Forall_cons; [vm_compute; reflexivity|constructor]
       | |- exists u, bytes_ok u /\ _ => exists (en_iface entry0); split_and!;
            [apply (bool_decide_unpack _); vm_compute; exact I|reflexivity|vm_compute; reflexivity]
       | |- exists own ans, _ => idtac
       | |- (_ < _)%nat => cbn; lia
       | |- _ => vm_compute; reflexivity
       end.
  eexists _, _, w', os. split_and!; [reflexivity|reflexivity|exact H|exact Hos].
Defined.
