(* ===== verification/Endpoints.v ===== *)
(** * The operating system's transports ([src/src/transport.rs])

    [UdpTransport], the pair of UDP sockets under a connection, with the lazily
    bound CControl listener and the reply route, the two constructors
    [RpcConn::new] and [RpcConn::new_raw], and the endpoint mapper's lookup over
    a socket of its own ([epm_lookup_udp] of [src/src/epm.rs]).  A socket is a class of the calls made
    on it; what creating and binding one, parsing an address and the random
    generator give are arguments.

    The transport refines [Channels], which says what [RpcTransport] promises:
    two queues of datagrams, a log of requests to the peer, and confirmations
    that go back to where the last CControl came from.  The relation is carried
    through every operation of a connection for any two transports that are
    related call by call ([simulates]). *)

From S2P Require Import Prelude Fmt Rpc Transport RawUdp.
From S2P Require Epm.

#[local] Open Scope string_scope.
#[local] Open Scope list_scope.
#[local] Open Scope Z_scope.

(** ** Sockets *)

Inductive ErrorKind := WouldBlock | TimedOut | OtherKind.
Record IoError := mkIoError { e_kind : ErrorKind; e_text : string }.

Definition is_timeout (e : IoError) : bool :=
  match e_kind e with WouldBlock | TimedOut => true | OtherKind => false end.

(** [std::net::UdpSocket] with [std::net::SocketAddr]; errors are the
    [io::Error]s. *)
Class UdpSocket (S A : Type) := {
  set_read_timeout : S -> S * option IoError;
  udp_send_to : list Z -> A -> S -> S * option IoError;
  udp_recv_from : S -> S * (list Z * A + IoError);
  addr_str : A -> string;
}.

Definition socket_error (e : IoError) : string := "Socket error: " +:+ e_text e.
Definition socket_unit (e : option IoError) : outcome unit :=
  match e with None => Ok tt | Some e => Err (socket_error e) end.

(** What creating, [SO_REUSEADDR] and binding the CControl socket give. *)
Record Binding (S : Type) := mkBinding { b_create : S + string; b_reuse : option string; b_bind : option string }.
Arguments mkBinding {S}.
Arguments b_create {S}.
Arguments b_reuse {S}.
Arguments b_bind {S}.

Definition bind_ccontrol_socket {S} (b : Binding S) : outcome S :=
  match b_create b with
  | inr e => Err ("CControl socket create failed: " +:+ e)
  | inl sock =>
      match b_reuse b with
      | Some e => Err ("CControl SO_REUSEADDR failed: " +:+ e)
      | None =>
          match b_bind b with
          | Some e => Err ("Cannot bind CControl socket to port " +:+ dec RPC_PORT +:+ ": " +:+ e)
          | None => Ok sock
          end
      end
  end.

(** ** [UdpTransport] *)

(** [u_binds n] is the [n]-th attempt to bind the CControl socket; [u_tries]
    were made. *)
Record UdpTransport (S A : Type) := mkUdp {
  u_socket : S;
  u_ccontrol : option S;
  u_src : option A;
  u_peer : A;
  u_binds : nat -> Binding S;
  u_tries : nat;
}.
Arguments mkUdp {S A}.
Arguments u_socket {S A}.
Arguments u_ccontrol {S A}.
Arguments u_src {S A}.
Arguments u_peer {S A}.
Arguments u_binds {S A}.
Arguments u_tries {S A}.

Section Udp.
Context {S A : Type} `{UdpSocket S A}.
Abbreviation U := (UdpTransport S A).

Definition with_socket (s : S) (u : U) : U := mkUdp s (u_ccontrol u) (u_src u) (u_peer u) (u_binds u) (u_tries u).
Definition with_ccontrol (s : option S) (n : nat) (u : U) : U := mkUdp (u_socket u) s (u_src u) (u_peer u) (u_binds u) n.
Definition with_src (a : A) (u : U) : U := mkUdp (u_socket u) (u_ccontrol u) (Some a) (u_peer u) (u_binds u) (u_tries u).

Definition udp_send_request (d : list Z) (u : U) : U * outcome unit :=
  let '(s, e) := udp_send_to d (u_peer u) (u_socket u) in (with_socket s u, socket_unit e).

(** A receive with its timeout set before. *)
Definition timed_recv (s : S) : S * outcome (option (list Z * A)) :=
  match set_read_timeout s with
  | (s, Some e) => (s, Err (socket_error e))
  | (s, None) =>
      match udp_recv_from s with
      | (s, inl d) => (s, Ok (Some d))
      | (s, inr e) => (s, if is_timeout e then Ok None else Err (socket_error e))
      end
  end.

Definition udp_recv_response (u : U) : U * outcome (option (list Z)) :=
  let '(s, o) := timed_recv (u_socket u) in
  (with_socket s u, let? d := o in Ok (fst <$> d)).

(** The listener, bound now if it is not yet. *)
Definition bound (u : U) : U * outcome S :=
  match u_ccontrol u with
  | Some s => (u, Ok s)
  | None =>
      let o := bind_ccontrol_socket (u_binds u (u_tries u)) in
      (with_ccontrol (match o with Ok s => Some s | _ => None end) (Datatypes.S (u_tries u)) u, o)
  end.

Definition udp_recv_ccontrol (u : U) : U * outcome (option (list Z)) :=
  let '(u, o) := bound u in
  match o with
  | Ok s =>
      let '(s, o) := timed_recv s in
      let u := with_ccontrol (Some s) (u_tries u) u in
      match o with
      | Ok (Some (d, a)) => (with_src a u, Ok (Some d))
      | Ok None => (u, Ok None)
      | Err e => (u, Err e)
      | Panic => (u, Panic)
      | OutOfFuel => (u, OutOfFuel)
      end
  | Err e => (u, Err e)
  | Panic => (u, Panic)
  | OutOfFuel => (u, OutOfFuel)
  end.

Definition udp_reply_ccontrol (d : list Z) (u : U) : U * outcome unit :=
  match u_src u with
  | None => (u, Err "No CControl received to reply to")
  | Some a =>
      match u_ccontrol u with
      | None => (u, Err "CControl socket not bound")
      | Some s => let '(s, e) := udp_send_to d a s in (with_ccontrol (Some s) (u_tries u) u, socket_unit e)
      end
  end.

#[export] Instance udp_transport : RpcTransport U := {
  send_request := udp_send_request;
  recv_response := udp_recv_response;
  recv_ccontrol := udp_recv_ccontrol;
  reply_ccontrol := udp_reply_ccontrol;
  peer u := addr_str (u_peer u);
}.

(** ** Constructors *)

(** [with_transport] on its three draws of random bytes. *)
Definition conn_with_random {T} `{RpcTransport T} (t : T) (device_id vendor_id : Z)
    (key activity ar : outcome (list Z)) : outcome (RpcConn T) :=
  let? k := key in
  let? k := rd_be16 k 0 in
  let? act := activity in
  let? ar := ar in
  Ok (conn_new t device_id vendor_id act ar k).

(** [RpcConn::new]: the address as the parser took it, the request socket, the
    bind attempts. *)
Definition conn_new_udp (device_ip : string) (device_id vendor_id : Z) (parsed : A + string) (socket : S + string)
    (binds : nat -> Binding S) (key activity ar : outcome (list Z)) : outcome (RpcConn U) :=
  match parsed with
  | inr e => Err ("Invalid device IP " +:+ device_ip +:+ ": " +:+ e)
  | inl peer =>
      match socket with
      | inr e => Err ("UDP socket bind failed: " +:+ e)
      | inl s =>
          let cc := match bind_ccontrol_socket (binds O) with Ok s => Some s | _ => None end in
          conn_with_random (mkUdp s cc None peer binds 1) device_id vendor_id key activity ar
      end
  end.
End Udp.

(** The local port of [new_raw], from two random bytes. *)
Definition ephemeral_port (b : list Z) : outcome Z := let? v := rd_be16 b 0 in Ok (49152 + v mod 16384).

(** [RpcConn::new_raw] over the capture [RawUdp::open] gives. *)
Definition conn_new_raw {S} `{PacketSocket S} `{RpcTransport (RawL2Transport S)} (open : outcome S)
    (src_mac src_ip dst_mac dst_ip : list Z) (device_id vendor_id : Z) (port key activity ar : outcome (list Z))
    : outcome (RpcConn (RawL2Transport S)) :=
  let? b := port in
  let? local_port := ephemeral_port b in
  let? s := open in
  conn_with_random (mkRawL2 (raw_open s src_mac src_ip dst_mac dst_ip local_port) None) device_id vendor_id key activity ar.

(** ** The endpoint mapper over a socket *)

(** [epm_lookup_udp]: the random bytes, the parsed address and the socket; a
    datagram is cut at the 4096 bytes of the buffer. *)
Definition epm_lookup_udp {S A} `{UdpSocket S A} (ip : string) (interface_filter : option string)
    (rnd : outcome (list Z)) (parsed : A + string) (socket : S + string) : option S * outcome (list Epm.EpmEndpoint) :=
  match (let? activity_uuid := rnd in Epm.epm_lookup_request activity_uuid interface_filter) with
  | Ok req =>
      match parsed with
      | inr e => (None, Err ("Invalid device IP " +:+ ip +:+ ": " +:+ e))
      | inl peer =>
          match socket with
          | inr e => (None, Err ("UDP socket bind failed: " +:+ e))
          | inl sock =>
              match set_read_timeout sock with
              | (sock, Some e) => (Some sock, Err (socket_error e))
              | (sock, None) =>
                  match udp_send_to req peer sock with
                  | (sock, Some e) => (Some sock, Err (socket_error e))
                  | (sock, None) =>
                      match udp_recv_from sock with
                      | (sock, inl (d, _)) => (Some sock, Epm.parse_epm_response (take 4096 d))
                      | (sock, inr e) => (Some sock, if is_timeout e then Ok [] else Err (socket_error e))
                      end
                  end
              end
          end
      end
  | Err e => (None, Err e)
  | Panic => (None, Panic)
  | OutOfFuel => (None, OutOfFuel)
  end.

(** ** Transports related call by call *)

Section Simulation.
Context {T1 T2 : Type} `{H1 : RpcTransport T1} `{H2 : RpcTransport T2} (R : T1 -> T2 -> Prop).

(** The same result, in related states. *)
Definition same {B} (X : T1 -> T2 -> Prop) (r1 : T1 * outcome B) (r2 : T2 * outcome B) : Prop :=
  X (fst r1) (fst r2) /\ snd r1 = snd r2.

Record simulates : Prop := {
  sim_peer : forall t1 t2, R t1 t2 -> peer t1 = peer t2;
  sim_send : forall d t1 t2, R t1 t2 -> same R (send_request d t1) (send_request d t2);
  sim_recv : forall t1 t2, R t1 t2 -> same R (recv_response t1) (recv_response t2);
  sim_ccontrol : forall t1 t2, R t1 t2 -> same R (recv_ccontrol t1) (recv_ccontrol t2);
  sim_reply : forall d t1 t2, R t1 t2 -> same R (reply_ccontrol d t1) (reply_ccontrol d t2);
}.

(** Connections that differ in their transports only. *)
Definition conn_sim (c1 : RpcConn T1) (c2 : RpcConn T2) : Prop :=
  R (transport c1) (transport c2) /\ c2 = mkConn (transport c2) (object_uuid_ c1) (activity_uuid c1) (ar_uuid c1)
    (session_key c1) (sequence_number c1) (input_frame_id c1) (output_frame_id c1) (connected c1).

Definition agree {B} (m1 : C (T := T1) B) (m2 : C (T := T2) B) : Prop :=
  forall c1 c2, conn_sim c1 c2 -> conn_sim (fst (m1 c1)) (fst (m2 c2)) /\ snd (m1 c1) = snd (m2 c2).

Lemma agree_ret {B} (b : B) : agree (cret b) (cret b).
Proof. by intros c1 c2 Hc. Qed.
Lemma agree_lift {B} (o : outcome B) : agree (clift o) (clift o).
Proof. by intros c1 c2 Hc. Qed.
Lemma agree_get {B} (f1 : RpcConn T1 -> B) (f2 : RpcConn T2 -> B) :
  (forall c1 c2, conn_sim c1 c2 -> f1 c1 = f2 c2) -> agree (cget f1) (cget f2).
Proof. intros Hf c1 c2 Hc. split; [done|]. cbn. by rewrite (Hf c1 c2). Qed.
Lemma agree_modify f1 f2 : (forall c1 c2, conn_sim c1 c2 -> conn_sim (f1 c1) (f2 c2)) -> agree (cmodify f1) (cmodify f2).
Proof. intros Hf c1 c2 Hc. split; [by apply Hf|done]. Qed.
Lemma agree_bind {B D} (m1 : C (T := T1) B) m2 (k1 : B -> C (T := T1) D) k2 :
  agree m1 m2 -> (forall b, agree (k1 b) (k2 b)) -> agree (cbind m1 k1) (cbind m2 k2).
Proof.
  intros Hm Hk c1 c2 Hc. destruct (Hm c1 c2 Hc) as [Hs Ho]. unfold cbind.
  destruct (m1 c1) as [d1 o1], (m2 c2) as [d2 o2]. cbn in Hs, Ho. subst o2. destruct o1 as [b|e| |]; [|done..].
  by apply Hk.
Qed.
Lemma agree_map_err {B} f (m1 : C (T := T1) B) m2 : agree m1 m2 -> agree (cmap_err f m1) (cmap_err f m2).
Proof.
  intros Hm c1 c2 Hc. destruct (Hm c1 c2 Hc) as [Hs Ho]. unfold cmap_err.
  destruct (m1 c1), (m2 c2). cbn in *. by subst.
Qed.
Lemma agree_ignore {B} (m1 : C (T := T1) B) m2 : agree m1 m2 -> agree (cignore m1) (cignore m2).
Proof.
  intros Hm c1 c2 Hc. destruct (Hm c1 c2 Hc) as [Hs Ho]. unfold cignore.
  destruct (m1 c1) as [d1 o1], (m2 c2) as [d2 o2]. cbn in Hs, Ho. subst o2. by destruct o1.
Qed.
Lemma agree_transport {B} (f1 : T1 -> T1 * outcome B) f2 :
  (forall t1 t2, R t1 t2 -> same R (f1 t1) (f2 t2)) -> agree (ctransport f1) (ctransport f2).
Proof.
  intros Hf c1 c2 [Ht Hc]. destruct (Hf _ _ Ht) as [Hs Ho]. unfold ctransport.
  destruct (f1 _) as [t1 o1], (f2 _) as [t2 o2]. cbn in *. subst o2. split; [|done]. split; [done|].
  by rewrite Hc.
Qed.

Hypothesis Hsim : simulates.

Lemma next_rpc_response_same n uuid seq : forall t1 t2, R t1 t2 ->
  same R (next_rpc_response n uuid seq t1) (next_rpc_response n uuid seq t2).
Proof using Hsim.
  induction n as [|n IH]; intros t1 t2 Ht; cbn [next_rpc_response].
  - split; [done|]. cbn. by rewrite (sim_peer Hsim t1 t2).
  - pose proof (sim_peer Hsim _ _ Ht) as Hp. destruct (sim_recv Hsim t1 t2 Ht) as [Hs Ho].
    destruct (recv_response t1) as [u1 o1], (recv_response t2) as [u2 o2]. cbn in Hs, Ho. subst o2.
    destruct o1 as [[d|]|e| |]; [|by rewrite Hp|done..].
    destruct (parse_rpc_response d) as [[h|]|e| |]; [|by apply IH|done..]. destruct (_ && _); [done|by apply IH].
Qed.

Lemma wait_app_ready_same n ar key e : forall t1 t2, R t1 t2 ->
  same R (wait_app_ready n ar key e t1) (wait_app_ready n ar key e t2).
Proof using Hsim.
  induction n as [|n IH]; intros t1 t2 Ht; cbn [wait_app_ready]; [done|].
  destruct (sim_ccontrol Hsim t1 t2 Ht) as [Hs Ho].
  destruct (recv_ccontrol t1) as [u1 o1], (recv_ccontrol t2) as [u2 o2]. cbn in Hs, Ho. subst o2.
  destruct o1 as [[d|]|x| |]; [|done..].
  destruct (extract_app_ready d) as [[[h cc]|]|x| |]; [|by apply IH|done..].
  destruct (ccontrol_response h ar key) as [resp|x| |]; [|done..].
  destruct (sim_reply Hsim resp u1 u2 Hs) as [Hv Hr].
  destruct (reply_ccontrol resp u1) as [v1 r1], (reply_ccontrol resp u2) as [v2 r2]. cbn in Hv, Hr. subst r2.
  by destruct r1.
Qed.

(** Getters, with the fields of related connections equal. *)
Ltac agree_field := apply agree_get; intros ? ? [_ ->]; reflexivity.
Ltac agree_set := apply agree_modify; intros ? ? [? ->]; split; [assumption|reflexivity].
Ltac agree_step :=
  first [ apply agree_ret | apply agree_lift | agree_field | agree_set | apply agree_map_err | apply agree_ignore
        | apply agree_bind; [|intros ?] ].

Lemma agree_next_seq : agree next_seq next_seq.
Proof. unfold next_seq. repeat agree_step. Qed.

Lemma agree_send_receive n d : agree (send_receive n d) (send_receive n d).
Proof using Hsim.
  unfold send_receive. do 2 (apply agree_bind; [apply agree_lift|intros ?]).
  apply agree_bind; [apply agree_transport; intros; by apply (sim_send Hsim)|intros _].
  apply agree_transport. intros. by apply next_rpc_response_same.
Qed.

Ltac agree_call :=
  repeat first [ apply agree_next_seq | apply agree_send_receive | agree_step
               | match goal with |- agree (if ?b then _ else _) _ => destruct b end ].

Lemma agree_run_op n op : agree (run_op n op) (run_op n op).
Proof using Hsim.
  destruct op as [m s u|m s| | |secs|i s ss l|i s ss l|i s ss d|ws|]; cbn [run_op]; unfold cvoid.
  1-4, 6-8: unfold connect, connect_device_access, prm_begin, prm_end, send_control, read_raw, read_raw_implicit,
      send_read, write; agree_call.
  - apply agree_bind; [|intros ?; apply agree_ret]. unfold application_ready.
    apply agree_bind; [agree_field|intros up]. destruct (negb up); [apply agree_lift|].
    do 2 (apply agree_bind; [agree_field|intros ?]).
    apply agree_bind; [apply agree_get; intros c1 c2 [Ht _]; by apply (sim_peer Hsim)|intros p].
    apply agree_transport. intros. by apply wait_app_ready_same.
  - unfold write_multiple. destruct ws; agree_call.
  - unfold release. apply agree_bind; [agree_field|intros up]. destruct (negb up); [apply agree_ret|].
    apply agree_bind; [apply agree_next_seq|intros seq]. apply agree_bind; [agree_field|intros req].
    apply agree_bind; [|intros _; agree_set]. apply agree_ignore, agree_transport. intros. by apply (sim_send Hsim).
Qed.

Lemma run_ops_sim n ops : forall c1 c2, conn_sim c1 c2 -> conn_sim (run_ops n ops c1) (run_ops n ops c2).
Proof using Hsim.
  induction ops as [|op ops IH]; intros c1 c2 Hc; cbn [run_ops]; [done|]. apply IH. by apply agree_run_op.
Qed.
End Simulation.

(** ** What the two sockets promise *)

(** What arrives on a channel: a datagram with its sender, silence, or a
    failure. *)
Inductive Arrival (A : Type) :=
| Datagram (d : list Z) (from : A)
| Silence
| Failure (e : string).
Arguments Datagram {A}.
Arguments Silence {A}.
Arguments Failure {A}.

(** The two channels of a connection to [ch_peer], as queues, with what was
    sent on each and the sender of the last CControl. *)
Record Channels (A : Type) := mkChannels {
  ch_peer : A;
  ch_responses : list (Arrival A);
  ch_ccontrol : list (Arrival A);
  ch_last : option A;
  ch_sent : list (list Z * A);
  ch_confirmed : list (list Z * A);
}.
Arguments mkChannels {A}.
Arguments ch_peer {A}.
Arguments ch_responses {A}.
Arguments ch_ccontrol {A}.
Arguments ch_last {A}.
Arguments ch_sent {A}.
Arguments ch_confirmed {A}.

Section Channels.
Context {A : Type} (show : A -> string).

(** The head of a queue; an empty one stays silent. *)
Definition arrival (l : list (Arrival A)) : outcome (option (list Z)) :=
  match l with
  | [] | Silence :: _ => Ok None
  | Datagram d _ :: _ => Ok (Some d)
  | Failure e :: _ => Err ("Socket error: " +:+ e)
  end.
Definition sender (l : list (Arrival A)) (last : option A) : option A :=
  match l with Datagram _ a :: _ => Some a | _ => last end.

(** Requests go to the peer; a confirmation goes to the sender of the last
    CControl, and without one is an error. *)
Definition channels_transport : RpcTransport (Channels A) := {|
  send_request d c := (mkChannels (ch_peer c) (ch_responses c) (ch_ccontrol c) (ch_last c)
                         (ch_sent c ++ [(d, ch_peer c)]) (ch_confirmed c), Ok tt);
  recv_response c := (mkChannels (ch_peer c) (tail (ch_responses c)) (ch_ccontrol c) (ch_last c) (ch_sent c)
                        (ch_confirmed c), arrival (ch_responses c));
  recv_ccontrol c := (mkChannels (ch_peer c) (ch_responses c) (tail (ch_ccontrol c))
                        (sender (ch_ccontrol c) (ch_last c)) (ch_sent c) (ch_confirmed c), arrival (ch_ccontrol c));
  reply_ccontrol d c :=
    match ch_last c with
    | None => (c, Err "No CControl received to reply to")
    | Some a => (mkChannels (ch_peer c) (ch_responses c) (ch_ccontrol c) (ch_last c) (ch_sent c)
                   (ch_confirmed c ++ [(d, a)]), Ok tt)
    end;
  peer c := show (ch_peer c);
|}.

(** A socket of the operating system that plays a script. *)
Record OsSocket := mkOs { os_rx : list (list Z * A + IoError); os_tx : list (list Z * A) }.

Definition os_socket : UdpSocket OsSocket A := {|
  set_read_timeout s := (s, None);
  udp_send_to d a s := (mkOs (os_rx s) (os_tx s ++ [(d, a)]), None);
  udp_recv_from s := (mkOs (tail (os_rx s)) (os_tx s), default (inr (mkIoError TimedOut "timed out")) (head (os_rx s)));
  addr_str := show;
|}.
#[local] Existing Instance os_socket.
#[local] Existing Instance channels_transport.

Definition arrives (r : list Z * A + IoError) : Arrival A :=
  match r with
  | inl (d, a) => Datagram d a
  | inr e => if is_timeout e then Silence else Failure (e_text e)
  end.

(** The sockets hold what the channels do; the listener is bound, or will be
    when it is needed. *)
Record plays (u : UdpTransport OsSocket A) (c : Channels A) : Prop := {
  pl_peer : u_peer u = ch_peer c;
  pl_rx : arrives <$> os_rx (u_socket u) = ch_responses c;
  pl_tx : os_tx (u_socket u) = ch_sent c;
  pl_src : u_src u = ch_last c;
  pl_bound : exists s, snd (bound u) = Ok s /\ arrives <$> os_rx s = ch_ccontrol c /\ os_tx s = ch_confirmed c;
  pl_last : u_src u = None \/ exists s, u_ccontrol u = Some s;
}.

Lemma timed_recv_plays (s : OsSocket) :
  let '(s', o) := timed_recv s in
  os_tx s' = os_tx s /\ arrives <$> os_rx s' = tail (arrives <$> os_rx s) /\
  (let? d := o in Ok (fst <$> d)) = arrival (arrives <$> os_rx s) /\
  match o with Ok (Some (_, a)) => forall last, sender (arrives <$> os_rx s) last = Some a
             | _ => forall last, sender (arrives <$> os_rx s) last = last end.
Proof.
  unfold timed_recv. destruct s as [[|[[d a]|e] rx] tx]; cbn; [done..|].
  destruct (is_timeout e); done.
Qed.

Lemma bound_socket s (u : UdpTransport OsSocket A) : snd (bound (with_socket s u)) = snd (bound u).
Proof. unfold bound. cbn. by destruct (u_ccontrol u). Qed.

Lemma udp_simulates : simulates plays.
Proof.
  split.
  - intros u c [P _ _ _ _ _]. cbn. by rewrite P.
  - intros d u c [P1 P2 P3 P4 P5 P6]. split; [|done]. split; try done; [cbn; by rewrite P3, P1|by setoid_rewrite bound_socket].
  - intros u c [P1 P2 P3 P4 P5 P6]. cbn [recv_response udp_transport channels_transport].
    unfold udp_recv_response. pose proof (timed_recv_plays (u_socket u)) as Ht.
    destruct (timed_recv (u_socket u)) as [s o]. destruct Ht as (T1 & T2 & T3 & _). rewrite P2 in T2, T3.
    split; [|exact T3]. split; try done; [cbn; by rewrite T1|by setoid_rewrite bound_socket].
  - intros u c [P1 P2 P3 P4 (s & B1 & B2 & B3) P6]. cbn [recv_ccontrol udp_transport channels_transport].
    unfold udp_recv_ccontrol. destruct (bound u) as [u1 o] eqn:Eb. cbn [snd] in B1. subst o.
    assert (Hu : u_peer u1 = u_peer u /\ u_socket u1 = u_socket u /\ u_src u1 = u_src u).
    { unfold bound in Eb. destruct (u_ccontrol u); injection Eb as <- _; done. }
    destruct Hu as (U1 & U2 & U3). pose proof (timed_recv_plays s) as Ht.
    destruct (timed_recv s) as [s' o]. destruct Ht as (T1 & T2 & T3 & T4). rewrite B2 in T2, T3, T4.
    assert (Hb : exists s0, snd (bound (with_ccontrol (Some s') (u_tries u1) u1)) = Ok s0 /\
      arrives <$> os_rx s0 = tail (ch_ccontrol c) /\ os_tx s0 = ch_confirmed c) by (exists s'; split_and!; [done|done|by rewrite T1]).
    assert (Hx : forall last, u_src u = last -> plays (with_ccontrol (Some s') (u_tries u1) u1)
      (mkChannels (ch_peer c) (ch_responses c) (tail (ch_ccontrol c)) last (ch_sent c) (ch_confirmed c))).
    { intros last Hl. split; cbn; rewrite ?U1, ?U2, ?U3; try done. right. by eexists. }
    destruct o as [[[d a]|]|e| |]; cbn [bind] in T3; (split; [|exact T3]); cbn [fst]; rewrite T4; try (by apply Hx).
    destruct (Hx (u_src u) eq_refl) as [X1 X2 X3 X4 X5 X6]. split; try done. right. by eexists.
  - intros d u c [P1 P2 P3 P4 (s & B1 & B2 & B3) P6]. cbn [reply_ccontrol udp_transport channels_transport].
    unfold udp_reply_ccontrol. rewrite <- P4. destruct (u_src u) as [a|] eqn:Ea.
    2:{ split; [|done]. split; cbn [fst]; try done; try congruence; try (by eexists); by left. }
    destruct P6 as [?|[s0 E]]; [done|]. unfold bound in B1. rewrite E in B1 |- *. injection B1 as ->.
    split; [|done]. split; cbn; try done; [|by right; eexists].
    exists (mkOs (os_rx s) (os_tx s ++ [(d, a)])). split_and!; [done|done|by rewrite B3].
Qed.

(** Requests all went to the peer, confirmations to senders. *)
Record routed (dst : A) (all : list (Arrival A)) (c : Channels A) : Prop := {
  rt_peer : ch_peer c = dst;
  rt_sent : Forall (fun s => snd s = dst) (ch_sent c);
  rt_rest : Forall (fun x => x ∈ all) (ch_ccontrol c);
  rt_last : forall a, ch_last c = Some a -> exists d, Datagram d a ∈ all;
  rt_confirmed : Forall (fun s => exists d, Datagram d (snd s) ∈ all) (ch_confirmed c);
}.

Lemma channels_routed dst all : simulates (fun c1 c2 => c1 = c2 /\ routed dst all c2).
Proof.
  split.
  - by intros c1 c2 [-> _].
  - intros d c1 c2 [-> [R1 R2 R3 R4 R5]]. split; [|done]. split; [done|]. split; cbn; try done.
    apply Forall_app. by rewrite Forall_singleton.
  - intros c1 c2 [-> [R1 R2 R3 R4 R5]]. split; [|done]. by split.
  - intros c1 c2 [-> [R1 R2 R3 R4 R5]]. split; [|done]. split; [done|].
    split; cbn; try done; destruct (ch_ccontrol c2) as [|x l]; try done; inversion R3; subst; cbn; [done|].
    intros a. destruct x as [d b| |e]; [|apply R4..]. intros [= ->]. by exists d.
  - intros d c1 c2 [-> [R1 R2 R3 R4 R5]]. cbn [reply_ccontrol channels_transport].
    destruct (ch_last c2) as [a|] eqn:E; (split; [|done]); (split; [done|]); split; cbn; try done; try (by rewrite E).
    apply Forall_app. rewrite Forall_singleton. split; [done|]. by apply R4.
Qed.

(** C26: A connection over UDP is a connection over its two channels.  Whatever is
    called in whatever order, whatever arrives (datagrams from anyone,
    silence, socket errors), and whether the listener was bound at once or only
    when it was needed: every call returns the same, the connections are in the
    same state, every request went to the device's address, and every
    confirmation to the sender of the CControl received last. *)
Theorem udp_refines_channels passes ops dst rx crx (at_once : bool) device_id vendor_id activity ar key :
  let listener := mkOs crx [] in
  let u := mkUdp (mkOs rx []) (if at_once then Some listener else None) None dst
             (fun _ => mkBinding (inl listener) None None) 1 in
  let c := mkChannels dst (arrives <$> rx) (arrives <$> crx) None [] [] in
  let cu := run_ops passes ops (conn_new u device_id vendor_id activity ar key) in
  let cc := run_ops passes ops (conn_new c device_id vendor_id activity ar key) in
  conn_sim plays cu cc /\ (forall op, snd (run_op passes op cu) = snd (run_op passes op cc)) /\
  Forall (fun s => snd s = dst) (os_tx (u_socket (transport cu))) /\
  (forall listener, u_ccontrol (transport cu) = Some listener ->
     os_tx listener = ch_confirmed (transport cc) /\
     Forall (fun s => exists d, inl (d, snd s) ∈ crx) (os_tx listener)).
Proof.
  intros listener u c cu cc.
  assert (H0 : conn_sim plays (conn_new u device_id vendor_id activity ar key) (conn_new c device_id vendor_id activity ar key)).
  { split; [|done]. split; try done; [|by left]. exists listener. by destruct at_once. }
  pose proof (run_ops_sim plays udp_simulates passes ops _ _ H0) as Hs. fold cu cc in Hs.
  assert (Hr : routed dst (arrives <$> crx) (transport cc)).
  { set (c0 := conn_new c device_id vendor_id activity ar key).
    assert (Hc : conn_sim (fun c1 c2 => c1 = c2 /\ routed dst (arrives <$> crx) c2) c0 c0).
    { split; [|done]. split; [done|]. split; try done; try constructor. cbn. by apply Forall_forall. }
    by destruct (run_ops_sim _ (channels_routed dst (arrives <$> crx)) passes ops _ _ Hc) as [[_ Hr] _]. }
  split; [done|]. split; [intros op; by apply (agree_run_op plays udp_simulates)|].
  destruct Hs as [[_ _ P3 _ (s & B1 & _ & B3) _] _]. destruct Hr as [_ R2 _ _ R5]. split; [by rewrite P3|].
  intros l Hl. unfold bound in B1. rewrite Hl in B1. injection B1 as ->. split; [done|]. rewrite B3.
  eapply Forall_impl; [exact R5|]. intros [d a] (d' & Hd). exists d'. cbn in *.
  apply list_elem_of_fmap in Hd as ([[d2 a2]|e] & Hd & Hin); cbn in Hd; [by injection Hd as -> ->|].
  by destruct (is_timeout e).
Qed.
End Channels.
