(* ===== verification/Indices.v ===== *)
(** * Record data indices ([src/src/indices.rs])

    The constants, their name tables and the lookups over them. *)

From S2P Require Import Prelude Fmt.

#[local] Open Scope string_scope.
#[local] Open Scope list_scope.
#[local] Open Scope Z_scope.


(** *** Block Types (from Wireshark pn_io_block_type dissector) *)

Definition BLOCK_DIAGNOSIS_DATA : Z := 0x0010.
Definition BLOCK_EXPECTED_IDENTIFICATION_DATA : Z := 0x0012.
Definition BLOCK_REAL_IDENTIFICATION_DATA : Z := 0x0013.
Definition BLOCK_IM0 : Z := 0x0020.
Definition BLOCK_IM1 : Z := 0x0021.
Definition BLOCK_IM2 : Z := 0x0022.
Definition BLOCK_IM3 : Z := 0x0023.
Definition BLOCK_IM4 : Z := 0x0024.
Definition BLOCK_IM5 : Z := 0x0025.
Definition BLOCK_IM6 : Z := 0x0026.
Definition BLOCK_IM7 : Z := 0x0027.
Definition BLOCK_IM8 : Z := 0x0028.
Definition BLOCK_IM9 : Z := 0x0029.
Definition BLOCK_IM10 : Z := 0x002A.
Definition BLOCK_IM11 : Z := 0x002B.
Definition BLOCK_IM12 : Z := 0x002C.
Definition BLOCK_IM13 : Z := 0x002D.
Definition BLOCK_IM14 : Z := 0x002E.
Definition BLOCK_IM15 : Z := 0x002F.
Definition BLOCK_ALARM_NOTIFICATION_HIGH : Z := 0x0001.
Definition BLOCK_ALARM_ACK_HIGH : Z := 0x8001.
Definition BLOCK_ALARM_NOTIFICATION_LOW : Z := 0x0002.
Definition BLOCK_ALARM_ACK_LOW : Z := 0x8002.
Definition BLOCK_IOD_WRITE_REQ : Z := 0x0008.
Definition BLOCK_IOD_WRITE_RES : Z := 0x8008.
Definition BLOCK_IOD_READ_REQ : Z := 0x0009.
Definition BLOCK_IOD_READ_RES : Z := 0x8009.
Definition BLOCK_AR_DATA : Z := 0x0018.
Definition BLOCK_LOG_DATA : Z := 0x0019.
Definition BLOCK_API_DATA : Z := 0x001A.
Definition BLOCK_SRL_DATA : Z := 0x001B.
Definition BLOCK_AR_REQ : Z := 0x0101.
Definition BLOCK_AR_RES : Z := 0x8101.
Definition BLOCK_IOCR_REQ : Z := 0x0102.
Definition BLOCK_IOCR_RES : Z := 0x8102.
Definition BLOCK_ALARM_CR_REQ : Z := 0x0103.
Definition BLOCK_ALARM_CR_RES : Z := 0x8103.
Definition BLOCK_EXPECTED_SUBMODULE_REQ : Z := 0x0104.
Definition BLOCK_MODULE_DIFF_BLOCK : Z := 0x8104.
Definition BLOCK_IOD_CONTROL_PRM_END_REQ : Z := 0x0110.
Definition BLOCK_IOD_CONTROL_PRM_END_RES : Z := 0x8110.
Definition BLOCK_IOD_CONTROL_APP_READY_REQ : Z := 0x0112.
Definition BLOCK_IOD_CONTROL_APP_READY_RES : Z := 0x8112.
Definition BLOCK_IOD_RELEASE_REQ : Z := 0x0114.
Definition BLOCK_IOD_RELEASE_RES : Z := 0x8114.
Definition BLOCK_IOD_CONTROL_RT_CLASS_3_REQ : Z := 0x0117.
Definition BLOCK_IOD_CONTROL_RT_CLASS_3_RES : Z := 0x8117.
Definition BLOCK_PRM_BEGIN_REQ : Z := 0x0118.
Definition BLOCK_PRM_BEGIN_RES : Z := 0x8118.
Definition BLOCK_SUBMODULE_LIST : Z := 0x0119.
Definition CONTROL_CMD_PRM_END : Z := 0x0001.
Definition CONTROL_CMD_APPLICATION_READY : Z := 0x0002.
Definition CONTROL_CMD_RELEASE : Z := 0x0004.
Definition CONTROL_CMD_DONE : Z := 0x0008.
Definition CONTROL_CMD_READY_FOR_COMPANION : Z := 0x0010.
Definition CONTROL_CMD_READY_FOR_RT_CLASS_3 : Z := 0x0020.
Definition CONTROL_CMD_PRM_BEGIN : Z := 0x0040.
Definition BLOCK_PD_PORT_DATA_CHECK : Z := 0x0200.
Definition BLOCK_PD_PORT_DATA_ADJUST : Z := 0x0202.
Definition BLOCK_PD_PORT_DATA_REAL : Z := 0x020F.
Definition BLOCK_PD_INTERFACE_MRP_DATA_ADJUST : Z := 0x0211.
Definition BLOCK_PD_INTERFACE_MRP_DATA_REAL : Z := 0x0212.
Definition BLOCK_PD_PORT_MRP_DATA_REAL : Z := 0x0215.
Definition BLOCK_MRP_RING_STATE_DATA : Z := 0x0219.
Definition BLOCK_PD_PORT_FO_DATA_REAL : Z := 0x0220.
Definition BLOCK_PD_PORT_FO_DATA_CHECK : Z := 0x0221.
Definition BLOCK_PD_PORT_FO_DATA_ADJUST : Z := 0x0222.
Definition BLOCK_PD_PORT_DATA_REAL_EXTENDED : Z := 0x022C.
Definition BLOCK_PD_INTERFACE_DATA_REAL : Z := 0x0240.
Definition BLOCK_PD_PORT_STATISTIC : Z := 0x0251.
Definition BLOCK_MULTIPLE_HEADER : Z := 0x0400.
Definition BLOCK_CO_CONTAINER_CONTENT : Z := 0x0401.
Definition BLOCK_AR_SERVER_BLOCK : Z := 0xF820.
Definition BLOCK_PD_REAL_DATA : Z := 0xF841.
Definition BLOCK_PD_EXPECTED_DATA : Z := 0xF842.
Definition BLOCK_REAL_IDENTIFICATION_DATA_API : Z := 0xF000.
Definition BLOCK_TYPE_NAMES : list (Z * string) :=
  [(BLOCK_ALARM_NOTIFICATION_HIGH, "AlarmNotificationHigh"); (BLOCK_ALARM_ACK_HIGH, "AlarmAckHigh");
   (BLOCK_ALARM_NOTIFICATION_LOW, "AlarmNotificationLow"); (BLOCK_ALARM_ACK_LOW, "AlarmAckLow");
   (BLOCK_IOD_WRITE_REQ, "IODWriteReqHeader"); (BLOCK_IOD_WRITE_RES, "IODWriteResHeader");
   (BLOCK_IOD_READ_REQ, "IODReadReqHeader"); (BLOCK_IOD_READ_RES, "IODReadResHeader");
   (BLOCK_DIAGNOSIS_DATA, "DiagnosisData"); (BLOCK_EXPECTED_IDENTIFICATION_DATA, "ExpectedIdentificationData");
   (BLOCK_REAL_IDENTIFICATION_DATA, "RealIdentificationData"); (BLOCK_IM0, "I&M0"); (BLOCK_IM1, "I&M1");
   (BLOCK_IM2, "I&M2"); (BLOCK_IM3, "I&M3"); (BLOCK_IM4, "I&M4"); (BLOCK_IM5, "I&M5"); (BLOCK_IM6, "I&M6");
   (BLOCK_IM7, "I&M7"); (BLOCK_IM8, "I&M8"); (BLOCK_IM9, "I&M9"); (BLOCK_IM10, "I&M10"); (BLOCK_IM11, "I&M11");
   (BLOCK_IM12, "I&M12"); (BLOCK_IM13, "I&M13"); (BLOCK_IM14, "I&M14"); (BLOCK_IM15, "I&M15");
   (BLOCK_AR_REQ, "ARBlockReq"); (BLOCK_AR_RES, "ARBlockRes"); (BLOCK_IOCR_REQ, "IOCRBlockReq");
   (BLOCK_IOCR_RES, "IOCRBlockRes"); (BLOCK_ALARM_CR_REQ, "AlarmCRBlockReq");
   (BLOCK_ALARM_CR_RES, "AlarmCRBlockRes"); (BLOCK_EXPECTED_SUBMODULE_REQ, "ExpectedSubmoduleBlockReq");
   (BLOCK_MODULE_DIFF_BLOCK, "ModuleDiffBlock"); (BLOCK_IOD_CONTROL_PRM_END_REQ, "IODControlReqPrmEnd");
   (BLOCK_IOD_CONTROL_PRM_END_RES, "IODControlResPrmEnd");
   (BLOCK_IOD_CONTROL_APP_READY_REQ, "IODControlReqAppReady");
   (BLOCK_IOD_CONTROL_APP_READY_RES, "IODControlResAppReady"); (BLOCK_IOD_RELEASE_REQ, "IODReleaseReq");
   (BLOCK_IOD_RELEASE_RES, "IODReleaseRes"); (BLOCK_IOD_CONTROL_RT_CLASS_3_REQ, "IODControlReqRTClass3");
   (BLOCK_IOD_CONTROL_RT_CLASS_3_RES, "IODControlResRTClass3"); (BLOCK_PRM_BEGIN_REQ, "PrmBeginReq");
   (BLOCK_PRM_BEGIN_RES, "PrmBeginRes"); (BLOCK_SUBMODULE_LIST, "SubmoduleListBlock");
   (BLOCK_AR_DATA, "ARData"); (BLOCK_LOG_DATA, "LogData"); (BLOCK_API_DATA, "APIData");
   (BLOCK_SRL_DATA, "SRLData"); (BLOCK_PD_PORT_DATA_CHECK, "PDPortDataCheck");
   (BLOCK_PD_PORT_DATA_ADJUST, "PDPortDataAdjust"); (BLOCK_PD_PORT_DATA_REAL, "PDPortDataReal");
   (BLOCK_PD_INTERFACE_MRP_DATA_ADJUST, "PDInterfaceMrpDataAdjust");
   (BLOCK_PD_INTERFACE_MRP_DATA_REAL, "PDInterfaceMrpDataReal");
   (BLOCK_PD_PORT_MRP_DATA_REAL, "PDPortMrpDataReal"); (BLOCK_MRP_RING_STATE_DATA, "MrpRingStateData");
   (BLOCK_PD_PORT_FO_DATA_REAL, "PDPortFODataReal"); (BLOCK_PD_PORT_FO_DATA_CHECK, "PDPortFODataCheck");
   (BLOCK_PD_PORT_FO_DATA_ADJUST, "PDPortFODataAdjust");
   (BLOCK_PD_PORT_DATA_REAL_EXTENDED, "PDPortDataRealExtended");
   (BLOCK_PD_INTERFACE_DATA_REAL, "PDInterfaceDataReal"); (BLOCK_PD_PORT_STATISTIC, "PDPortStatistic");
   (BLOCK_MULTIPLE_HEADER, "MultipleBlockHeader"); (BLOCK_CO_CONTAINER_CONTENT, "COContainerContent");
   (BLOCK_AR_SERVER_BLOCK, "ARServerBlock"); (BLOCK_PD_REAL_DATA, "PDRealData");
   (BLOCK_PD_EXPECTED_DATA, "PDExpectedData"); (BLOCK_REAL_IDENTIFICATION_DATA_API, "RealIdentificationDataAPI")].

(** *** Alarm Types (used in AlarmNotification blocks) *)

Definition ALARM_TYPE_DIAGNOSIS : Z := 0x0001.
Definition ALARM_TYPE_PROCESS : Z := 0x0002.
Definition ALARM_TYPE_PULL : Z := 0x0003.
Definition ALARM_TYPE_PLUG : Z := 0x0004.
Definition ALARM_TYPE_STATUS : Z := 0x0005.
Definition ALARM_TYPE_UPDATE : Z := 0x0006.
Definition ALARM_TYPE_REDUNDANCY : Z := 0x0007.
Definition ALARM_TYPE_CONTROLLED_BY_SUPERVISOR : Z := 0x0008.
Definition ALARM_TYPE_RELEASED : Z := 0x0009.
Definition ALARM_TYPE_PLUG_WRONG_SUBMODULE : Z := 0x000A.
Definition ALARM_TYPE_RETURN_OF_SUBMODULE : Z := 0x000B.
Definition ALARM_TYPE_DIAGNOSIS_DISAPPEARS : Z := 0x000C.
Definition ALARM_TYPE_MULTICAST_MISMATCH : Z := 0x000D.
Definition ALARM_TYPE_PORT_DATA_CHANGE : Z := 0x000E.
Definition ALARM_TYPE_SYNC_DATA_CHANGED : Z := 0x000F.
Definition ALARM_TYPE_ISOCHRONOUS_MODE_PROBLEM : Z := 0x0010.
Definition ALARM_TYPE_NETWORK_COMPONENT_PROBLEM : Z := 0x0011.
Definition ALARM_TYPE_TIME_DATA_CHANGED : Z := 0x0012.
Definition ALARM_TYPE_DFP_PROBLEM : Z := 0x0013.
Definition ALARM_TYPE_UPLOAD_RETRIEVAL : Z := 0x001E.
Definition ALARM_TYPE_PULL_MODULE : Z := 0x001F.
Definition ALARM_TYPE_NAMES : list (Z * string) :=
  [(ALARM_TYPE_DIAGNOSIS, "Diagnosis"); (ALARM_TYPE_PROCESS, "Process"); (ALARM_TYPE_PULL, "Pull");
   (ALARM_TYPE_PLUG, "Plug"); (ALARM_TYPE_STATUS, "Status"); (ALARM_TYPE_UPDATE, "Update");
   (ALARM_TYPE_REDUNDANCY, "Redundancy"); (ALARM_TYPE_CONTROLLED_BY_SUPERVISOR, "ControlledBySupervisor");
   (ALARM_TYPE_RELEASED, "Released"); (ALARM_TYPE_PLUG_WRONG_SUBMODULE, "PlugWrongSubmodule");
   (ALARM_TYPE_RETURN_OF_SUBMODULE, "ReturnOfSubmodule");
   (ALARM_TYPE_DIAGNOSIS_DISAPPEARS, "DiagnosisDisappears");
   (ALARM_TYPE_MULTICAST_MISMATCH, "MulticastMismatch"); (ALARM_TYPE_PORT_DATA_CHANGE, "PortDataChange");
   (ALARM_TYPE_SYNC_DATA_CHANGED, "SyncDataChanged");
   (ALARM_TYPE_ISOCHRONOUS_MODE_PROBLEM, "IsochronousModeProblem");
   (ALARM_TYPE_NETWORK_COMPONENT_PROBLEM, "NetworkComponentProblem");
   (ALARM_TYPE_TIME_DATA_CHANGED, "TimeDataChanged"); (ALARM_TYPE_DFP_PROBLEM, "DynamicFramePackingProblem");
   (ALARM_TYPE_UPLOAD_RETRIEVAL, "UploadAndRetrieval"); (ALARM_TYPE_PULL_MODULE, "PullModule")].

(** *** IOCR (IO Connection Relationship) Types and Properties *)

Definition IOCR_TYPE_INPUT : Z := 0x0001.
Definition IOCR_TYPE_OUTPUT : Z := 0x0002.
Definition IOCR_TYPE_MULTICAST_PROVIDER : Z := 0x0003.
Definition IOCR_TYPE_MULTICAST_CONSUMER : Z := 0x0004.
Definition IOCR_TYPE_NAMES : list (Z * string) :=
  [(IOCR_TYPE_INPUT, "InputCR"); (IOCR_TYPE_OUTPUT, "OutputCR");
   (IOCR_TYPE_MULTICAST_PROVIDER, "MulticastProviderCR"); (IOCR_TYPE_MULTICAST_CONSUMER, "MulticastConsumerCR")].
Definition IOCR_RT_CLASS_1 : Z := 0x01.
Definition IOCR_RT_CLASS_2 : Z := 0x02.
Definition IOCR_RT_CLASS_3 : Z := 0x03.
Definition IOCR_RT_CLASS_UDP : Z := 0x04.
Definition IOCR_RT_CLASS_NAMES : list (Z * string) :=
  [(IOCR_RT_CLASS_1, "RT_CLASS_1"); (IOCR_RT_CLASS_2, "RT_CLASS_2"); (IOCR_RT_CLASS_3, "RT_CLASS_3");
   (IOCR_RT_CLASS_UDP, "RT_CLASS_UDP")].

(** *** AlarmCR (Alarm Connection Relationship) Types *)

Definition ALARM_CR_TYPE_ALARM : Z := 0x0001.
Definition ALARM_CR_TYPE_NAMES : list (Z * string) :=
  [(ALARM_CR_TYPE_ALARM, "AlarmCR")].
Definition ALARM_TRANSPORT_RTA_CLASS_1 : Z := 0x00.
Definition ALARM_TRANSPORT_RTA_CLASS_UDP : Z := 0x01.
Definition ALARM_TRANSPORT_NAMES : list (Z * string) :=
  [(ALARM_TRANSPORT_RTA_CLASS_1, "RTA_CLASS_1"); (ALARM_TRANSPORT_RTA_CLASS_UDP, "RTA_CLASS_UDP")].

(** *** AR (Application Relationship) Types *)

Definition AR_TYPE_IOCAR_SINGLE : Z := 0x0001.
Definition AR_TYPE_IOSAR : Z := 0x0006.
Definition AR_TYPE_IOCAR_SINGLE_RT_CLASS_3 : Z := 0x0010.
Definition AR_TYPE_IOCARSR : Z := 0x0020.
Definition AR_TYPE_NAMES : list (Z * string) :=
  [(AR_TYPE_IOCAR_SINGLE, "IOCARSingle"); (AR_TYPE_IOSAR, "IOSAR");
   (AR_TYPE_IOCAR_SINGLE_RT_CLASS_3, "IOCARSingle_RT_CLASS_3"); (AR_TYPE_IOCARSR, "IOCARSR")].

(** *** User Structure Identifiers (USI) for Alarm Items *)

Definition USI_CHANNEL_DIAGNOSIS : Z := 0x8000.
Definition USI_MULTIPLE_DIAGNOSIS : Z := 0x8001.
Definition USI_EXT_CHANNEL_DIAGNOSIS : Z := 0x8002.
Definition USI_QUALIFIED_CHANNEL_DIAGNOSIS : Z := 0x8003.
Definition USI_MAINTENANCE : Z := 0x8100.
Definition USI_UPLOAD : Z := 0x8200.
Definition USI_IPARAMETER : Z := 0x8201.
Definition USI_RS_ALARM_LOW : Z := 0x8300.
Definition USI_RS_ALARM_HIGH : Z := 0x8301.
Definition USI_RS_ALARM_SUBMODULE : Z := 0x8302.
Definition USI_PE_ALARM : Z := 0x8310.
Definition USI_PRAL_ALARM : Z := 0x8320.
Definition USI_NAMES : list (Z * string) :=
  [(USI_CHANNEL_DIAGNOSIS, "ChannelDiagnosis"); (USI_MULTIPLE_DIAGNOSIS, "MultipleDiagnosis");
   (USI_EXT_CHANNEL_DIAGNOSIS, "ExtChannelDiagnosis");
   (USI_QUALIFIED_CHANNEL_DIAGNOSIS, "QualifiedChannelDiagnosis"); (USI_MAINTENANCE, "MaintenanceItem");
   (USI_UPLOAD, "UploadRecord"); (USI_IPARAMETER, "iParameterItem"); (USI_RS_ALARM_LOW, "RS_AlarmItem_Low");
   (USI_RS_ALARM_HIGH, "RS_AlarmItem_High"); (USI_RS_ALARM_SUBMODULE, "RS_AlarmItem_Submodule");
   (USI_PE_ALARM, "PE_AlarmItem"); (USI_PRAL_ALARM, "PRAL_AlarmItem")].

(** *** Module/Submodule State Values (for ModuleDiffBlock) *)

Definition MODULE_STATE_NO_MODULE : Z := 0x0000.
Definition MODULE_STATE_WRONG_MODULE : Z := 0x0001.
Definition MODULE_STATE_PROPER_MODULE : Z := 0x0002.
Definition MODULE_STATE_SUBSTITUTE_MODULE : Z := 0x0003.
Definition SUBMODULE_STATE_NO_SUBMODULE : Z := 0x0000.
Definition SUBMODULE_STATE_WRONG_SUBMODULE : Z := 0x0001.
Definition SUBMODULE_STATE_LOCKED_BY_SUPERVISOR : Z := 0x0002.
Definition SUBMODULE_STATE_APPLICATION_READY_PENDING : Z := 0x0004.
Definition SUBMODULE_STATE_OK : Z := 0x0007.
Definition MODULE_STATE_NAMES : list (Z * string) :=
  [(MODULE_STATE_NO_MODULE, "NoModule"); (MODULE_STATE_WRONG_MODULE, "WrongModule");
   (MODULE_STATE_PROPER_MODULE, "ProperModule"); (MODULE_STATE_SUBSTITUTE_MODULE, "SubstituteModule")].
Definition SUBMODULE_STATE_NAMES : list (Z * string) :=
  [(SUBMODULE_STATE_NO_SUBMODULE, "NoSubmodule"); (SUBMODULE_STATE_WRONG_SUBMODULE, "WrongSubmodule");
   (SUBMODULE_STATE_LOCKED_BY_SUPERVISOR, "LockedBySupervisor");
   (SUBMODULE_STATE_APPLICATION_READY_PENDING, "ApplicationReadyPending"); (SUBMODULE_STATE_OK, "OK")].

(** *** PROFIenergy Operational Modes *)

Definition PE_MODE_POWER_OFF : Z := 0x00.
Definition PE_MODE_ENERGY_SAVING_MIN : Z := 0x01.
Definition PE_MODE_ENERGY_SAVING_MAX : Z := 0x1F.
Definition PE_MODE_OPERATE : Z := 0xF0.
Definition PE_MODE_SLEEP_MODE_WOL : Z := 0xFE.
Definition PE_MODE_READY_TO_OPERATE : Z := 0xFF.

(** *** I&M (Identification & Maintenance) Indices - 0xAFFx *)

Definition IM0 : Z := 0xAFF0.
Definition IM1 : Z := 0xAFF1.
Definition IM2 : Z := 0xAFF2.
Definition IM3 : Z := 0xAFF3.
Definition IM4 : Z := 0xAFF4.
Definition IM5 : Z := 0xAFF5.
Definition IM6 : Z := 0xAFF6.
Definition IM7 : Z := 0xAFF7.
Definition IM8 : Z := 0xAFF8.
Definition IM9 : Z := 0xAFF9.
Definition IM10 : Z := 0xAFFA.
Definition IM11 : Z := 0xAFFB.
Definition IM12 : Z := 0xAFFC.
Definition IM13 : Z := 0xAFFD.
Definition IM14 : Z := 0xAFFE.
Definition IM15 : Z := 0xAFFF.
Definition IM0_FILTER_DATA : Z := 0xF840.

(** *** Diagnosis Indices - Pattern: 0x__0A/B/C *)

Definition DIAG_CHANNEL_SUBSLOT : Z := 0x800A.
Definition DIAG_ALL_SUBSLOT : Z := 0x800B.
Definition DIAG_MAINTENANCE_SUBSLOT : Z := 0x800C.
Definition DIAG_CHANNEL_SLOT : Z := 0xC00A.
Definition DIAG_ALL_SLOT : Z := 0xC00B.
Definition DIAG_MAINTENANCE_SLOT : Z := 0xC00C.
Definition DIAG_CHANNEL_AR : Z := 0xE00A.
Definition DIAG_ALL_AR : Z := 0xE00B.
Definition DIAG_MAINTENANCE_AR : Z := 0xE00C.
Definition DIAG_CHANNEL_API : Z := 0xF00A.
Definition DIAG_ALL_API : Z := 0xF00B.
Definition DIAG_MAINTENANCE_API : Z := 0xF00C.
Definition DIAG_DEVICE : Z := 0xF80C.

(** *** Maintenance Indices - Pattern: 0x__10-13 *)

Definition MAINT_REQUIRED_CHANNEL_SUBSLOT : Z := 0x8010.
Definition MAINT_DEMANDED_CHANNEL_SUBSLOT : Z := 0x8011.
Definition MAINT_REQUIRED_ALL_SUBSLOT : Z := 0x8012.
Definition MAINT_DEMANDED_ALL_SUBSLOT : Z := 0x8013.

(** *** Configuration/Identification Indices *)

Definition EXPECTED_ID_SUBSLOT : Z := 0x8000.
Definition REAL_ID_SUBSLOT : Z := 0x8001.
Definition EXPECTED_ID_AR : Z := 0xE000.
Definition REAL_ID_AR : Z := 0xE001.
Definition MODULE_DIFF_BLOCK : Z := 0xE002.
Definition REAL_ID_API : Z := 0xF000.
Definition AR_DATA : Z := 0xF820.
Definition API_DATA : Z := 0xF821.
Definition PDEV_DATA : Z := 0xF831.
Definition PD_REAL_DATA : Z := 0xF841.
Definition PD_EXPECTED_DATA : Z := 0xF842.
Definition AUTO_CONFIG : Z := 0xF850.
Definition LOG_DATA : Z := 0xF830.

(** *** PDPort Indices (for port subslots 0x8001, 0x8002, etc.) *)

Definition PD_PORT_DATA_REAL : Z := 0x802A.
Definition PD_PORT_DATA_CHECK : Z := 0x802B.
Definition PD_IR_DATA : Z := 0x802C.
Definition PD_SYNC_DATA : Z := 0x802D.
Definition PD_PORT_DATA_ADJUST : Z := 0x802F.
Definition PD_PORT_STATISTIC : Z := 0x8072.

(** *** PDInterface Indices (for interface subslot 0x8000) *)

Definition PD_NC_DATA_CHECK : Z := 0x8070.
Definition PD_INTERFACE_ADJUST : Z := 0x8071.
Definition PD_INTERFACE_DATA_REAL : Z := 0x8080.
Definition PD_INTERFACE_FSU_ADJUST : Z := 0x8090.

(** *** Fiber Optic Indices *)

Definition PD_PORT_FO_DATA_REAL : Z := 0x8060.
Definition PD_PORT_FO_DATA_CHECK : Z := 0x8061.
Definition PD_PORT_FO_DATA_ADJUST : Z := 0x8062.
Definition PD_PORT_SFP_DATA_CHECK : Z := 0x8063.

(** *** MRP (Media Redundancy Protocol) Indices *)

Definition PD_INTERFACE_MRP_DATA_REAL : Z := 0x8050.
Definition PD_INTERFACE_MRP_DATA_CHECK : Z := 0x8051.
Definition PD_INTERFACE_MRP_DATA_ADJUST : Z := 0x8052.
Definition PD_PORT_MRP_DATA_ADJUST : Z := 0x8053.
Definition PD_PORT_MRP_DATA_REAL : Z := 0x8054.
Definition PD_PORT_MRP_IC_DATA_ADJUST : Z := 0x8055.
Definition PD_PORT_MRP_IC_DATA_CHECK : Z := 0x8056.
Definition PD_PORT_MRP_IC_DATA_REAL : Z := 0x8057.

(** *** Sync/PTCP Indices *)

Definition PD_IR_SUBFRAME_DATA : Z := 0x8020.
Definition ISOCHRONOUS_MODE_DATA : Z := 0x8030.
Definition PD_TIME_DATA : Z := 0x8031.

(** *** I/O Data Indices *)

Definition SUBSTITUTE_VALUES : Z := 0x801E.
Definition RECORD_INPUT_DATA : Z := 0x8028.
Definition RECORD_OUTPUT_DATA : Z := 0x8029.

(** *** Asset Management Indices *)

Definition AM_DEVICE_ID : Z := 0xF8E0.
Definition AM_FULL_INFO : Z := 0xF8E1.
Definition AM_HW_ONLY : Z := 0xF8E2.
Definition AM_FW_ONLY : Z := 0xF8E3.
Definition AM_LOCATION_SLOT : Z := 0xFBE0.
Definition AM_LOCATION_TREE : Z := 0xFBE1.
Definition AM_DATA : Z := 0xFBF0.

(** *** PROFIsafe Indices *)

Definition F_PARAMETER_BLOCK : Z := 0x0100.
Definition F_PRM_FLAG1 : Z := 0x0101.
Definition F_PRM_FLAG2 : Z := 0x0102.
Definition F_PARAMETER_WRITE : Z := 0xE000.
Definition F_PARAMETER_READ : Z := 0xE001.

(** *** PROFIenergy Index *)

Definition PROFIENERGY : Z := 0x80A0.

(** *** AR-specific Indices *)

Definition WRITE_MULTIPLE : Z := 0xE040.
Definition AR_FSU_DATA_ADJUST : Z := 0xE050.

(** *** Standard DAP Subslots *)

Definition SUBSLOT_DAP : Z := 0x0001.
Definition SUBSLOT_INTERFACE : Z := 0x8000.
Definition SUBSLOT_PORT1 : Z := 0x8001.
Definition SUBSLOT_PORT2 : Z := 0x8002.

(** *** Index Categories for Enumeration *)

Definition CRITICAL_INDICES : list (Z * string) :=
  [(IM0, "I&M0 (mandatory)"); (IM0_FILTER_DATA, "I&M0FilterData"); (DIAG_DEVICE, "Device Diagnosis");
   (MODULE_DIFF_BLOCK, "ModuleDiffBlock"); (PD_REAL_DATA, "PDRealData"); (AR_DATA, "ARData");
   (LOG_DATA, "LogData")].
Definition IM_INDICES : list (Z * string) :=
  [(IM0, "I&M0"); (IM1, "I&M1"); (IM2, "I&M2"); (IM3, "I&M3"); (IM4, "I&M4"); (IM5, "I&M5"); (IM6, "I&M6");
   (IM7, "I&M7"); (IM8, "I&M8"); (IM9, "I&M9"); (IM10, "I&M10"); (IM11, "I&M11"); (IM12, "I&M12");
   (IM13, "I&M13"); (IM14, "I&M14"); (IM15, "I&M15")].
Definition DIAGNOSIS_INDICES_SUBSLOT : list (Z * string) :=
  [(DIAG_CHANNEL_SUBSLOT, "DiagnosisChannel"); (DIAG_ALL_SUBSLOT, "DiagnosisAll");
   (DIAG_MAINTENANCE_SUBSLOT, "DiagnosisMaintenance")].
Definition DIAGNOSIS_INDICES_SLOT : list (Z * string) :=
  [(DIAG_CHANNEL_SLOT, "DiagnosisChannel"); (DIAG_ALL_SLOT, "DiagnosisAll");
   (DIAG_MAINTENANCE_SLOT, "DiagnosisMaintenance")].
Definition DIAGNOSIS_INDICES_AR : list (Z * string) :=
  [(DIAG_CHANNEL_AR, "DiagnosisChannel"); (DIAG_ALL_AR, "DiagnosisAll");
   (DIAG_MAINTENANCE_AR, "DiagnosisMaintenance")].
Definition DIAGNOSIS_INDICES_API : list (Z * string) :=
  [(DIAG_CHANNEL_API, "DiagnosisChannel"); (DIAG_ALL_API, "DiagnosisAll");
   (DIAG_MAINTENANCE_API, "DiagnosisMaintenance")].
Definition DIAGNOSIS_INDICES_DEVICE : list (Z * string) :=
  [(DIAG_DEVICE, "DeviceDiagnosis")].
Definition PORT_INDICES : list (Z * string) :=
  [(PD_PORT_DATA_REAL, "PDPortDataReal"); (PD_PORT_DATA_CHECK, "PDPortDataCheck");
   (PD_PORT_DATA_ADJUST, "PDPortDataAdjust"); (PD_PORT_STATISTIC, "PDPortStatistic");
   (PD_PORT_MRP_DATA_REAL, "PDPortMrpDataReal")].
Definition INTERFACE_INDICES : list (Z * string) :=
  [(PD_INTERFACE_DATA_REAL, "PDInterfaceDataReal"); (PD_INTERFACE_MRP_DATA_REAL, "PDInterfaceMrpDataReal");
   (PD_NC_DATA_CHECK, "PDNCDataCheck")].
Definition DEVICE_INDICES : list (Z * string) :=
  [(AR_DATA, "ARData"); (API_DATA, "APIData"); (PDEV_DATA, "PDevData"); (PD_REAL_DATA, "PDRealData");
   (PD_EXPECTED_DATA, "PDExpectedData"); (LOG_DATA, "LogData"); (AUTO_CONFIG, "AutoConfiguration")].

(** ** The lookups *)

(** [TABLE.iter().find(|(k, _)| k == key)]. *)
Definition find_name (table : list (Z * string)) (key : Z) : option string :=
  snd <$> List.find (fun e => fst e =? key) table.

Definition get_block_type_name (block_type : Z) : string :=
  match find_name BLOCK_TYPE_NAMES block_type with
  | Some name => name
  | None => "Unknown(0x" +:+ hexu 4 block_type +:+ ")"
  end.
Definition get_alarm_type_name (alarm_type : Z) : string :=
  match find_name ALARM_TYPE_NAMES alarm_type with
  | Some name => name
  | None => "Unknown(0x" +:+ hexu 4 alarm_type +:+ ")"
  end.
Definition get_iocr_type_name (iocr_type : Z) : string :=
  match find_name IOCR_TYPE_NAMES iocr_type with
  | Some name => name
  | None => "Unknown(0x" +:+ hexu 4 iocr_type +:+ ")"
  end.
Definition get_iocr_rt_class_name (rt_class : Z) : string :=
  match find_name IOCR_RT_CLASS_NAMES rt_class with
  | Some name => name
  | None => "Unknown(0x" +:+ hexu 2 rt_class +:+ ")"
  end.
Definition get_usi_name (usi : Z) : string :=
  match find_name USI_NAMES usi with
  | Some name => name
  | None =>
      if usi <=? 0x7FFF then "ManufacturerSpecific(0x" +:+ hexu 4 usi +:+ ")"
      else if (0x9000 <=? usi) && (usi <=? 0x9FFF) then "ProfileSpecific(0x" +:+ hexu 4 usi +:+ ")"
      else "Reserved(0x" +:+ hexu 4 usi +:+ ")"
  end.
Definition get_pe_mode_name (mode : Z) : string :=
  if mode =? PE_MODE_POWER_OFF then "PE_PowerOff"
  else if (PE_MODE_ENERGY_SAVING_MIN <=? mode) && (mode <=? PE_MODE_ENERGY_SAVING_MAX)
  then "PE_EnergySavingMode_" +:+ dec mode
  else if mode =? PE_MODE_OPERATE then "PE_Operate"
  else if mode =? PE_MODE_SLEEP_MODE_WOL then "PE_SleepModeWOL"
  else if mode =? PE_MODE_READY_TO_OPERATE then "PE_ReadyToOperate"
  else "PE_Reserved(0x" +:+ hexu 2 mode +:+ ")".

Definition all_standard_indices : list (Z * string) :=
  IM_INDICES ++ DIAGNOSIS_INDICES_SUBSLOT ++ DIAGNOSIS_INDICES_DEVICE ++ PORT_INDICES ++ INTERFACE_INDICES
  ++ DEVICE_INDICES
  ++ [(EXPECTED_ID_SUBSLOT, "ExpectedIdentificationData"); (REAL_ID_SUBSLOT, "RealIdentificationData");
      (MODULE_DIFF_BLOCK, "ModuleDiffBlock"); (SUBSTITUTE_VALUES, "SubstituteValues");
      (RECORD_INPUT_DATA, "RecordInputData"); (RECORD_OUTPUT_DATA, "RecordOutputData")].

Definition get_index_name (index : Z) : string :=
  match find_name all_standard_indices index with
  | Some name => name
  | None =>
      if index <=? 0x7FFF then "User-specific (0x" +:+ hexu 4 index +:+ ")"
      else if (0xAFF0 <=? index) && (index <=? 0xAFFF) then "I&M" +:+ dec (index - 0xAFF0)
      else if (0x8000 <=? index) && (index <=? 0x8FFF) then "Subslot data (0x" +:+ hexu 4 index +:+ ")"
      else if (0xC000 <=? index) && (index <=? 0xCFFF) then "Slot data (0x" +:+ hexu 4 index +:+ ")"
      else if (0xE000 <=? index) && (index <=? 0xEFFF) then "AR data (0x" +:+ hexu 4 index +:+ ")"
      else if (0xF000 <=? index) && (index <=? 0xF7FF) then "API data (0x" +:+ hexu 4 index +:+ ")"
      else if (0xF800 <=? index) && (index <=? 0xFBFF) then "Device data (0x" +:+ hexu 4 index +:+ ")"
      else "Unknown (0x" +:+ hexu 4 index +:+ ")"
  end.

Definition get_scope (index : Z) : string :=
  if index <=? 0x7FFF then "user"
  else if (0x8000 <=? index) && (index <=? 0x8FFF) then "subslot"
  else if ((0xA000 <=? index) && (index <=? 0xAFFF)) || ((0xC000 <=? index) && (index <=? 0xCFFF)) then "slot"
  else if (0xE000 <=? index) && (index <=? 0xEFFF) then "ar"
  else if (0xF000 <=? index) && (index <=? 0xF7FF) then "api"
  else if (0xF800 <=? index) && (index <=? 0xFBFF) then "device"
  else "unknown".

(** ** The tables name each value once *)

Definition keys_distinct (table : list (Z * string)) : bool := bool_decide (NoDup (fst <$> table)).

(** A lookup in a table without repeated keys is membership. *)
Lemma find_name_spec table k n : keys_distinct table = true ->
  find_name table k = Some n <-> (k, n) ∈ table.
Proof.
  unfold keys_distinct. rewrite bool_decide_eq_true. unfold find_name.
  induction table as [|[k' n'] t IH]; [by intros _; split; [|intros ?%elem_of_nil]|].
  rewrite fmap_cons. intros [Hk Ht]%NoDup_cons. rewrite elem_of_cons. cbn [List.find fst].
  destruct (Z.eqb_spec k' k) as [->|Hne].
  - cbn. split; [intros [= ->]; by left|]. intros [[= ->]|Hin]; [done|]. destruct Hk.
    apply list_elem_of_fmap. by exists (k, n).
  - rewrite IH by done. split; [by right|]. by intros [[= <- <-]|?].
Qed.

Lemma tables_distinct :
  forallb keys_distinct [BLOCK_TYPE_NAMES; ALARM_TYPE_NAMES; IOCR_TYPE_NAMES; IOCR_RT_CLASS_NAMES; USI_NAMES;
                         all_standard_indices] = true.
Proof. vm_compute. reflexivity. Qed.

(** A name that is looked up is the name the table gives: for every value,
    the block type, the alarm type, the USI and the record index are named by
    their table's entry exactly when it has one (no entry shadows another), and
    otherwise by the fallback, which shows the value. *)
Theorem names_are_exact k n :
  ((k, n) ∈ BLOCK_TYPE_NAMES -> get_block_type_name k = n) /\
  ((k, n) ∈ ALARM_TYPE_NAMES -> get_alarm_type_name k = n) /\
  ((k, n) ∈ USI_NAMES -> get_usi_name k = n) /\
  ((k, n) ∈ all_standard_indices -> get_index_name k = n) /\
  ((forall m, (k, m) ∉ BLOCK_TYPE_NAMES) -> get_block_type_name k = "Unknown(0x" +:+ hexu 4 k +:+ ")") /\
  ((forall m, (k, m) ∉ ALARM_TYPE_NAMES) -> get_alarm_type_name k = "Unknown(0x" +:+ hexu 4 k +:+ ")").
Proof.
  pose proof tables_distinct as Ht. cbn [forallb] in Ht. repeat (apply andb_prop in Ht as [? Ht]).
  assert (Hn : forall t, keys_distinct t = true -> (forall m, (k, m) ∉ t) -> find_name t k = None).
  { intros t Hd Hno. destruct (find_name t k) as [m|] eqn:E; [|done]. by apply find_name_spec, Hno in E. }
  unfold get_block_type_name, get_alarm_type_name, get_usi_name, get_index_name.
  split_and!; intros Hx; [apply find_name_spec in Hx; [by rewrite Hx|done]..|by rewrite Hn|by rewrite Hn].
Qed.

Example names_are_exact_witness : get_index_name IM0 = "I&M0" /\ get_usi_name USI_MAINTENANCE = "MaintenanceItem".
Proof.
  destruct (names_are_exact IM0 "I&M0") as (_ & _ & _ & Hi & _).
  destruct (names_are_exact USI_MAINTENANCE "MaintenanceItem") as (_ & _ & Hu & _).
  split; [apply Hi|apply Hu]; apply (bool_decide_unpack _); vm_compute; exact I.
Defined.

(** The name of an index and its scope disagree below the I&M records of a
    slot. *)
Lemma slot_indices_unnamed : get_scope 0xA123 = "slot" /\ get_index_name 0xA123 = "Unknown (0xA123)".
Proof. by split. Qed.
