(* ===== verification/Device.v ===== *)
(** * The device API ([src/src/device.rs]) and its typed reads ([transport.rs])

    The typed record reads of a connection, and [ProfinetDevice]: a discovered
    device with an AR that is established on the first use, a read that falls
    back to the AR-less service, and the release of whatever was opened.

    Opening a transport is outside: a device carries the list of what the
    successive openings give ([net]: a transport with the connection's random
    bytes, or an error) and, for the theorems, the connections already dropped
    ([gone]).  [passes] bounds the receives of one call as in [Transport]. *)

From S2P Require Import Prelude Fmt Util Gsdml Blocks Rpc Transport.
From S2P Require Vendors Dcp Alarms Im Diagnosis RawUdp Epm.

#[local] Open Scope string_scope.
#[local] Open Scope list_scope.
#[local] Open Scope Z_scope.

(** ** Typed reads of a connection ([transport.rs]) *)

Section Reads.
Context {T : Type} `{RpcTransport T}.

(** A record read and parsed. *)
Definition read_parsed {A} (passes : nat) (index slot subslot : Z) (parse : list Z -> outcome A) : C (T := T) A :=
  let! payload := read_raw passes index slot subslot READ_LENGTH in clift (parse payload).

Definition conn_read_im0 (passes : nat) (slot subslot : Z) : C (T := T) Im.InM0 :=
  read_parsed passes Im.IM0 slot subslot Im.parse_im0.
Definition conn_read_im1 (passes : nat) (slot subslot : Z) : C (T := T) Im.InM1 :=
  read_parsed passes Im.IM1 slot subslot Im.parse_im1.
Definition conn_read_im2 (passes : nat) (slot subslot : Z) : C (T := T) Im.InM2 :=
  read_parsed passes Im.IM2 slot subslot Im.parse_im2.
Definition conn_read_im3 (passes : nat) (slot subslot : Z) : C (T := T) Im.InM3 :=
  read_parsed passes Im.IM3 slot subslot Im.parse_im3.
Definition conn_read_pd_real_data (passes : nat) : C (T := T) Im.PdRealData :=
  read_parsed passes Im.PD_REAL_DATA 0 1 Im.parse_pd_real_data.
Definition conn_read_real_identification_data (passes : nat) : C (T := T) Im.RealIdentificationData :=
  read_parsed passes Im.REAL_ID_API 0 1 Im.parse_real_identification_data.
Definition conn_discover_slots (passes : nat) : C (T := T) (list DeviceSlot) :=
  let! real_id := conn_read_real_identification_data passes in
  cret (Im.to_device_slot <$> Im.ri_slots real_id).
Definition conn_read_inm0_filter (passes : nat) : C (T := T) Im.InM0FilterData :=
  read_parsed passes Im.IM0_FILTER_DATA 0 0 Im.parse_inm0_filter.

(** What a diagnosis read makes of its payload. *)
Definition diagnosis_of (slot subslot : Z) (d : list Z) : outcome Diagnosis.DiagnosisData :=
  if 6 <? len d then
    let? result := Diagnosis.parse_diagnosis_block d 0 slot subslot in
    match Diagnosis.entries result with
    | [] => Diagnosis.parse_diagnosis_simple d 0 slot subslot
    | _ => Ok result
    end
  else Ok {| Diagnosis.dd_api := 0; Diagnosis.dd_slot := slot; Diagnosis.dd_subslot := subslot;
             Diagnosis.entries := []; Diagnosis.raw_data := d |}.

(** A read error is an empty result. *)
Definition conn_read_diagnosis (passes : nat) (slot subslot index : Z) : C (T := T) Diagnosis.DiagnosisData := fun c =>
  match read_raw passes index slot subslot READ_LENGTH c with
  | (c, Ok d) => (c, diagnosis_of slot subslot d)
  | (c, Err _) => (c, diagnosis_of slot subslot [])
  | (c, Panic) => (c, Panic)
  | (c, OutOfFuel) => (c, OutOfFuel)
  end.

Definition DIAGNOSIS_INDICES : list (Z * Z * Z) :=
  [(0x800A, 0, 0); (0x800B, 0, 0); (0x800C, 0, 1); (0xF000, 0, 0); (0xF00A, 0, 0); (0xF00B, 0, 0)].

Fixpoint read_diagnoses (passes : nat) (l : list (Z * Z * Z)) (results : btree Diagnosis.DiagnosisData)
    : C (T := T) (btree Diagnosis.DiagnosisData) :=
  match l with
  | [] => cret results
  | (index, slot, subslot) :: l =>
      let! diag := conn_read_diagnosis passes slot subslot index in
      read_diagnoses passes l
        (match Diagnosis.entries diag with [] => results | _ => bt_insert index diag results end)
  end.
Definition conn_read_all_diagnosis (passes : nat) : C (T := T) (btree Diagnosis.DiagnosisData) :=
  read_diagnoses passes DIAGNOSIS_INDICES [].

End Reads.

(** ** Choosing a device *)

(** [s.replace(['-', '.'], ":")]. *)
Definition colons (s : string) : string :=
  smap (fun c => if Ascii.eqb c "-"%char || Ascii.eqb c "."%char then ":"%char else c) s.

Definition parse_mac_flexible (s : string) : outcome (option (list Z)) :=
  ok_ (s2mac (colons (to_ascii_lowercase (trim s)))).

Definition find_by_identifier (devices : list Dcp.DcpDevice) (identifier : string) : outcome (option Dcp.DcpDevice) :=
  let? m := parse_mac_flexible identifier in
  Ok (match m with
      | Some m => List.find (fun d => bool_decide (Dcp.mac d = m)) devices
      | None => List.find (fun d => String.eqb (Dcp.name d) identifier) devices
      end).

Fixpoint find_by_ip (devices : list Dcp.DcpDevice) (ip : string) : outcome (option Dcp.DcpDevice) :=
  match devices with
  | [] => Ok None
  | d :: devices =>
      let? s := ok_ (s2ip (Dcp.ip d)) in
      if bool_decide (s = Some ip) then Ok (Some d) else find_by_ip devices ip
  end.

(** ** Records to write *)

(** The code point of a character of the given UTF-8 bytes. *)
Definition code_point (bytes : list Z) : Z :=
  match bytes with
  | [a] => a
  | [a; b] => (a mod 32) * 64 + b mod 64
  | [a; b; c] => ((a mod 16) * 64 + b mod 64) * 64 + c mod 64
  | [a; b; c; d] => (((a mod 8) * 64 + b mod 64) * 64 + c mod 64) * 64 + d mod 64
  | _ => 0
  end.

(** [s.chars()], each character as its bytes. *)
Fixpoint chars_of (fuel : nat) (l : list Z) : list (list Z) :=
  match fuel, l with
  | S f, b :: rest =>
      let n := snd (utf8_chunk b rest) in (b :: take n rest) :: chars_of f (drop n rest)
  | _, _ => []
  end.
Definition chars (s : string) : list (list Z) := chars_of (String.length s) (str_bytes s).

(** [{c:?}] of a printable non-ASCII character. *)
Definition debug_chr (bytes : list Z) : string :=
  let q := String (chr 39) EmptyString in q +:+ bytes_str bytes +:+ q.

Fixpoint latin1_bytes (what : string) (l : list (list Z)) : outcome (list Z) :=
  match l with
  | [] => Ok []
  | c :: l =>
      let code := code_point c in
      if 0xFF <? code then Err (what +:+ " contains non-Latin-1 character " +:+ debug_chr c)
      else let? out := latin1_bytes what l in Ok (as_u8 code :: out)
  end.

Definition latin1_field (s : string) (width : Z) (what : string) : outcome (list Z) :=
  if width <? len (chars s) then Err (what +:+ " exceeds " +:+ dec width +:+ " character limit")
  else
    let? out := latin1_bytes what (chars s) in
    Ok (out ++ rep (width - len out) 0x20).

Definition im1_record (tag_function tag_location : string) : outcome (list Z) :=
  let? f := latin1_field tag_function 32 "tag_function" in
  let? l := latin1_field tag_location 22 "tag_location" in
  Ok (block_header Im.BLOCK_IM1 58 1 0 ++ [0; 0] ++ f ++ l).
Definition im2_record (date : string) : outcome (list Z) :=
  let? f := latin1_field date 16 "date" in
  Ok (block_header Im.BLOCK_IM2 20 1 0 ++ [0; 0] ++ f).
Definition im3_record (descriptor : string) : outcome (list Z) :=
  let? f := latin1_field descriptor 54 "descriptor" in
  Ok (block_header Im.BLOCK_IM3 58 1 0 ++ [0; 0] ++ f).

Definition alarm_from_record (d : list Z) : outcome (option Alarms.AlarmNotification) :=
  if len d <? 28 then Ok None else ok_ (Alarms.parse_alarm_notification d).

(** ** Data types *)

Record WriteItem := { wi_slot : Z; wi_subslot : Z; wi_index : Z; wi_data : list Z }.

Record AllIm := {
  all_im0 : option Im.InM0;
  all_im1 : option Im.InM1;
  all_im2 : option Im.InM2;
  all_im3 : option Im.InM3;
}.

Record DeviceInfo := {
  di_name : string;
  di_ip : string;
  di_mac : string;
  di_vendor_id : Z;
  di_device_id : Z;
  di_device_type : string;
  di_netmask : string;
  di_gateway : string;
  di_role : Z;
  di_vendor_name : string;
  di_im0 : option Im.InM0;
  di_topology : option Im.PdRealData;
  di_annotation : string;
}.

(** [s2ip(..).unwrap_or_default()]. *)
Definition ip_text (ip : list Z) : outcome string :=
  let? s := ok_ (s2ip ip) in Ok (default EmptyString s).

Definition from_dcp (d : Dcp.DcpDevice) : outcome DeviceInfo :=
  let? ip := ip_text (Dcp.ip d) in
  let? netmask := ip_text (Dcp.netmask d) in
  let? gateway := ip_text (Dcp.gateway d) in
  let? vendor := Vendors.get_vendor_name (Dcp.vendor_id d) in
  Ok {| di_name := Dcp.name d; di_ip := ip; di_mac := mac2s (Dcp.mac d); di_vendor_id := Dcp.vendor_id d;
        di_device_id := Dcp.device_id d; di_device_type := Dcp.device_type d; di_netmask := netmask;
        di_gateway := gateway; di_role := Dcp.role d; di_vendor_name := vendor; di_im0 := None;
        di_topology := None; di_annotation := EmptyString |}.

Definition di_serial_number (i : DeviceInfo) : string :=
  match di_im0 i with Some im0 => trim (Im.serial_number_str im0) | None => EmptyString end.
Definition di_order_id (i : DeviceInfo) : string :=
  match di_im0 i with Some im0 => trim (Im.order_id_str im0) | None => EmptyString end.
Definition di_hardware_revision (i : DeviceInfo) : Z :=
  match di_im0 i with Some im0 => Im.im_hardware_revision im0 | None => 0 end.
Definition di_software_revision (i : DeviceInfo) : string :=
  match di_im0 i with Some im0 => Im.software_revision im0 | None => EmptyString end.

(** ** The device *)

Definition CM_STATION_NAME : list Z := str_bytes "tp".

(** The random bytes of [RpcConn::with_transport] with an opened transport. *)
Record Opened (T : Type) := mkOpened { o_transport : T; o_activity : list Z; o_ar : list Z; o_key : Z }.
Arguments mkOpened {T}.
Arguments o_transport {T}.
Arguments o_activity {T}.
Arguments o_ar {T}.
Arguments o_key {T}.

Record ProfinetDevice (T : Type) := mkDevice {
  info : Dcp.DcpDevice;
  interface : string;
  src_mac : list Z;
  src_ip : list Z;
  rpc : option (RpcConn T);
  net : list (outcome (Opened T));
  gone : list (RpcConn T);
}.
Arguments mkDevice {T}.
Arguments info {T}.
Arguments interface {T}.
Arguments src_mac {T}.
Arguments src_ip {T}.
Arguments rpc {T}.
Arguments net {T}.
Arguments gone {T}.

Section Device.
Context {T : Type} `{RpcTransport T}.

Definition device_new (info : Dcp.DcpDevice) (interface : string) (src_mac src_ip : list Z)
    (net : list (outcome (Opened T))) : ProfinetDevice T := mkDevice info interface src_mac src_ip None net [].

Definition with_rpc (c : option (RpcConn T)) (d : ProfinetDevice T) : ProfinetDevice T :=
  mkDevice (info d) (interface d) (src_mac d) (src_ip d) c (net d) (gone d).
Definition with_net (l : list (outcome (Opened T))) (d : ProfinetDevice T) : ProfinetDevice T :=
  mkDevice (info d) (interface d) (src_mac d) (src_ip d) (rpc d) l (gone d).
(** A connection goes out of scope: its [Drop] releases it. *)
Definition dropped (c : RpcConn T) (d : ProfinetDevice T) : ProfinetDevice T :=
  mkDevice (info d) (interface d) (src_mac d) (src_ip d) (rpc d) (net d) (gone d ++ [fst (drop_conn c)]).

Definition D (A : Type) : Type := ProfinetDevice T -> ProfinetDevice T * outcome A.
Definition dret {A} (a : A) : D A := fun d => (d, Ok a).
Definition dlift {A} (o : outcome A) : D A := fun d => (d, o).
Definition dbind {A B} (m : D A) (k : A -> D B) : D B := fun d =>
  match m d with
  | (d, Ok a) => k a d
  | (d, Err e) => (d, Err e)
  | (d, Panic) => (d, Panic)
  | (d, OutOfFuel) => (d, OutOfFuel)
  end.
(** [r.ok()]. *)
Definition dok {A} (m : D A) : D (option A) := fun d => let '(d, o) := m d in (d, ok_ o).

End Device.

Notation "'dlet!' x := m 'in' k" := (dbind m (fun x => k))
  (at level 10, x binder, m at level 100, k at level 200) : rust_scope.
Notation "'ddo!' m ; k" := (dbind m (fun _ => k))
  (at level 10, m at level 100, k at level 200) : rust_scope.

Section Operations.
Context {T : Type} `{RpcTransport T} (passes : nat).

(** [RpcConn::new_raw] on the next opening. *)
Definition new_transport : D (RpcConn T) := fun d =>
  match net d with
  | [] => (d, Err "no capture")
  | o :: l =>
      (with_net l d,
       let? m := o in
       Ok (conn_new (o_transport m) (Dcp.device_id (info d)) (Dcp.vendor_id (info d)) (o_activity m) (o_ar m) (o_key m)))
  end.

(** A connection of its own for one call. *)
Definition on_conn {A} (m : C (T := T) A) (c : RpcConn T) : D A := fun d =>
  let '(c, o) := m c in (dropped c d, o).

(** A call on the connection the device holds. *)
Definition on_rpc {A} (m : C (T := T) A) : D A := fun d =>
  match rpc d with
  | Some c => let '(c, o) := m c in (with_rpc (Some c) d, o)
  | None => (d, Panic)
  end.

Definition device_connect : D unit := fun d =>
  match rpc d with
  | Some _ => (d, Ok tt)
  | None =>
      match new_transport d with
      | (d, Ok conn) =>
          match connect_device_access passes (src_mac d) CM_STATION_NAME conn with
          | (conn, Ok _) => (with_rpc (Some conn) d, Ok tt)
          | (conn, o) =>
              (dropped conn d, map_err (fun e => "Failed to connect to " +:+ Dcp.name (info d) +:+ ": " +:+ e) o)
          end
      | (d, Err e) => (d, Err e)
      | (d, Panic) => (d, Panic)
      | (d, OutOfFuel) => (d, OutOfFuel)
      end
  end.

(** [disconnect]: the explicit release, then the connection's [Drop]. *)
Definition disconnect : D unit := fun d =>
  match rpc d with
  | Some c => let '(c, o) := release c in (dropped c (with_rpc None d), o)
  | None => (d, Ok tt)
  end.
Definition close : D unit := disconnect.

Definition ensure_connected : D unit := device_connect.

Definition is_connected (d : ProfinetDevice T) : bool := match rpc d with Some _ => true | None => false end.
Definition device_ip (d : ProfinetDevice T) : outcome string := ip_text (Dcp.ip (info d)).
Definition device_mac (d : ProfinetDevice T) : string := mac2s (Dcp.mac (info d)).
Definition device_fmt (d : ProfinetDevice T) : outcome string :=
  let? ip := device_ip d in
  Ok ("ProfinetDevice(" +:+ debug_str (Dcp.name (info d)) +:+ ", " +:+ ip +:+ ", "
      +:+ (if is_connected d then "connected" else "disconnected") +:+ ")").

(** A call on the AR, which is established if need be. *)
Definition with_ar {A} (m : C (T := T) A) : D A := ddo! ensure_connected; on_rpc m.

(** [endpoints]: what the lookup ([Epm.epm_lookup], over a capture of its own)
    gives. *)
Definition get_info (include_topology : bool) (endpoints : outcome (list Epm.EpmEndpoint)) : D DeviceInfo := fun d =>
  (dlet! i := dlift (from_dcp (info d)) in
   ddo! ensure_connected;
   dlet! im0 := dok (on_rpc (conn_read_im0 passes 0 1)) in
   dlet! topology := (if include_topology then dok (on_rpc (conn_read_pd_real_data passes)) else dret None) in
   dlet! eps := dlift (ok_ endpoints) in
   let annotated := List.find (fun ep => negb (String.eqb (Epm.annotation ep) EmptyString)) (default [] eps) in
   dret {| di_name := di_name i; di_ip := di_ip i; di_mac := di_mac i; di_vendor_id := di_vendor_id i;
           di_device_id := di_device_id i; di_device_type := di_device_type i; di_netmask := di_netmask i;
           di_gateway := di_gateway i; di_role := di_role i; di_vendor_name := di_vendor_name i;
           di_im0 := im0; di_topology := topology;
           di_annotation := match annotated with Some ep => Epm.annotation ep | None => EmptyString end |}) d.

Definition read_record_implicit_len (slot subslot index length_ : Z) : D (list Z) := fun d =>
  let read := read_raw_implicit passes index slot subslot length_ in
  match rpc d with
  | Some _ => on_rpc read d
  | None => (dlet! c := new_transport in on_conn read c) d
  end.

Definition read_record_len (slot subslot index length_ : Z) : D (list Z) := fun d =>
  match ensure_connected d with
  | (d, Ok _) => on_rpc (read_raw passes index slot subslot length_) d
  | (d, Err _) => read_record_implicit_len slot subslot index length_ d
  | (d, Panic) => (d, Panic)
  | (d, OutOfFuel) => (d, OutOfFuel)
  end.
Definition read_record (slot subslot index : Z) : D (list Z) := read_record_len slot subslot index READ_LENGTH.
Definition read_record_implicit (slot subslot index : Z) : D (list Z) :=
  read_record_implicit_len slot subslot index READ_LENGTH.

Definition write_record (slot subslot index : Z) (data : list Z) : D unit :=
  with_ar (Transport.write passes index slot subslot data).
Definition device_write_multiple (writes : list WriteItem) : D (list WriteMultipleResult) :=
  with_ar (Transport.write_multiple passes
             ((fun w => (wi_index w, wi_slot w, wi_subslot w, wi_data w)) <$> writes)).

Definition device_read_parsed {A} (slot subslot index : Z) (parse : list Z -> outcome A) : D A :=
  dlet! payload := read_record_len slot subslot index READ_LENGTH in dlift (parse payload).
Definition read_im0_at (slot subslot : Z) : D Im.InM0 := device_read_parsed slot subslot Im.IM0 Im.parse_im0.
Definition read_im1_at (slot subslot : Z) : D Im.InM1 := device_read_parsed slot subslot Im.IM1 Im.parse_im1.
Definition read_im2_at (slot subslot : Z) : D Im.InM2 := device_read_parsed slot subslot Im.IM2 Im.parse_im2.
Definition read_im3_at (slot subslot : Z) : D Im.InM3 := device_read_parsed slot subslot Im.IM3 Im.parse_im3.
Definition device_read_im0 : D Im.InM0 := read_im0_at 0 1.
Definition device_read_im1 : D Im.InM1 := read_im1_at 0 1.
Definition device_read_im2 : D Im.InM2 := read_im2_at 0 1.
Definition device_read_im3 : D Im.InM3 := read_im3_at 0 1.
Definition read_all_im (slot subslot : Z) : D AllIm :=
  dlet! i0 := dok (read_im0_at slot subslot) in
  dlet! i1 := dok (read_im1_at slot subslot) in
  dlet! i2 := dok (read_im2_at slot subslot) in
  dlet! i3 := dok (read_im3_at slot subslot) in
  dret {| all_im0 := i0; all_im1 := i1; all_im2 := i2; all_im3 := i3 |}.

Definition write_im1 (tag_function tag_location : string) : D unit :=
  dlet! data := dlift (im1_record tag_function tag_location) in write_record 0 1 Im.IM1 data.
Definition write_im2 (date : string) : D unit :=
  dlet! data := dlift (im2_record date) in write_record 0 1 Im.IM2 data.
Definition write_im3 (descriptor : string) : D unit :=
  dlet! data := dlift (im3_record descriptor) in write_record 0 1 Im.IM3 data.

Definition device_read_diagnosis (slot subslot index : Z) : D Diagnosis.DiagnosisData :=
  with_ar (conn_read_diagnosis passes slot subslot index).
Definition device_read_all_diagnosis : D (btree Diagnosis.DiagnosisData) := with_ar (conn_read_all_diagnosis passes).
Definition device_discover_slots : D (list DeviceSlot) := with_ar (conn_discover_slots passes).
Definition read_topology : D Im.PdRealData := with_ar (conn_read_pd_real_data passes).

Definition read_alarm (slot subslot index : Z) : D (option Alarms.AlarmNotification) :=
  dlet! data := dok (read_record slot subslot index) in
  match data with Some data => dlift (alarm_from_record data) | None => dret None end.

(** [Drop]. *)
Definition drop_device : D unit := close.

End Operations.

(** ** Constructors

    The interface's MAC and addresses and the answers to a discovery are what
    [pcap::get_mac], [pcap::interface_addresses] and [pcap::discover] return. *)
Section Constructors.
Context {T : Type} `{RpcTransport T}.

Definition from_dcp_info (i : Dcp.DcpDevice) (iface : string) (my_mac : outcome (list Z))
    (addresses : outcome (list Dcp.Address)) (net : list (outcome (Opened T))) : outcome (ProfinetDevice T) :=
  let? m := my_mac in
  let? l := addresses in
  let? picked := Dcp.pick_source_ipv4 l (Dcp.ip i) in
  let? s := ok_or picked ("no IPv4 address on interface " +:+ debug_str iface) in
  Ok (device_new i iface m (Dcp.s_ip s) net).

Definition device_discover (identifier iface : string) (devices : outcome (list Dcp.DcpDevice))
    (my_mac : outcome (list Z)) (addresses : outcome (list Dcp.Address)) (net : list (outcome (Opened T)))
    : outcome (ProfinetDevice T) :=
  let? l := devices in
  let? found := find_by_identifier l identifier in
  let? i := ok_or found ("Device " +:+ debug_str identifier +:+ " not found") in
  from_dcp_info i iface my_mac addresses net.

Definition from_name (name iface : string) (devices : outcome (list Dcp.DcpDevice))
    (my_mac : outcome (list Z)) (addresses : outcome (list Dcp.Address)) (net : list (outcome (Opened T)))
    : outcome (ProfinetDevice T) :=
  let? l := devices in
  let? i := ok_or (List.find (fun d => String.eqb (Dcp.name d) name) l) ("Device " +:+ debug_str name +:+ " not found") in
  from_dcp_info i iface my_mac addresses net.

Definition from_ip (ip iface : string) (devices : outcome (list Dcp.DcpDevice))
    (my_mac : outcome (list Z)) (addresses : outcome (list Dcp.Address)) (net : list (outcome (Opened T)))
    : outcome (ProfinetDevice T) :=
  let? l := devices in
  let? found := find_by_ip l ip in
  let? i := ok_or found ("No device found at IP " +:+ ip) in
  from_dcp_info i iface my_mac addresses net.

(** One source address per device, from one list of addresses. *)
Definition scan (iface : string) (my_mac : outcome (list Z)) (addresses : outcome (list Dcp.Address))
    (devices : outcome (list Dcp.DcpDevice)) (net : Dcp.DcpDevice -> list (outcome (Opened T)))
    : outcome (list (ProfinetDevice T)) :=
  let? m := my_mac in
  let? l := addresses in
  let? ds := devices in
  map_result (fun i =>
    let? picked := Dcp.pick_source_ipv4 l (Dcp.ip i) in
    let? s := ok_or picked ("no IPv4 address on interface " +:+ debug_str iface) in
    Ok (device_new i iface m (Dcp.s_ip s) (net i))) ds.

End Constructors.

(** ** The life of a device's connections *)

Inductive DevOp :=
  | DConnect | DDisconnect
  | DGetInfo (topology : bool) (endpoints : outcome (list Epm.EpmEndpoint))
  | DRead (slot subslot index length_ : Z)
  | DReadImplicit (slot subslot index length_ : Z)
  | DWrite (slot subslot index : Z) (data : list Z)
  | DWriteMultiple (writes : list WriteItem)
  | DReadAllIm (slot subslot : Z)
  | DWriteIm1 (f l : string) | DWriteIm2 (date : string) | DWriteIm3 (descriptor : string)
  | DDiagnosis (slot subslot index : Z) | DAllDiagnosis
  | DSlots | DTopology
  | DAlarm (slot subslot index : Z).

Section Life.
Context {T : Type} `{RpcTransport T} (passes : nat).

Definition dvoid {A} (m : D (T := T) A) : D unit := dlet! _ := m in dret tt.

Definition run_dop (op : DevOp) : D (T := T) unit :=
  match op with
  | DConnect => device_connect passes
  | DDisconnect => disconnect
  | DGetInfo t e => dvoid (get_info passes t e)
  | DRead s ss i l => dvoid (read_record_len passes s ss i l)
  | DReadImplicit s ss i l => dvoid (read_record_implicit_len passes s ss i l)
  | DWrite s ss i d => write_record passes s ss i d
  | DWriteMultiple ws => dvoid (device_write_multiple passes ws)
  | DReadAllIm s ss => dvoid (read_all_im passes s ss)
  | DWriteIm1 f l => write_im1 passes f l
  | DWriteIm2 t => write_im2 passes t
  | DWriteIm3 t => write_im3 passes t
  | DDiagnosis s ss i => dvoid (device_read_diagnosis passes s ss i)
  | DAllDiagnosis => dvoid (device_read_all_diagnosis passes)
  | DSlots => dvoid (device_discover_slots passes)
  | DTopology => dvoid (read_topology passes)
  | DAlarm s ss i => dvoid (read_alarm passes s ss i)
  end.

Fixpoint run_dops (ops : list DevOp) (d : ProfinetDevice T) : ProfinetDevice T :=
  match ops with
  | [] => d
  | op :: ops => run_dops ops (fst (run_dop op d))
  end.

(** What opened successfully. *)
Definition openings (l : list (outcome (Opened T))) : list (Opened T) :=
  omap (fun o => match o with Ok m => Some m | _ => None end) l.

(** The connection made of an opening. *)
Definition made_of (i : Dcp.DcpDevice) (m : Opened T) (c : RpcConn T) : Prop :=
  same_ar (conn_new (o_transport m) (Dcp.device_id i) (Dcp.vendor_id i) (o_activity m) (o_ar m) (o_key m)) c.

(** What holds of a device made as [d0]: the connection it holds has its AR
    up, those dropped are down, and together they are, in order, one for each
    successful opening. *)
Record accounted (d0 d : ProfinetDevice T) : Prop := {
  ac_info : info d = info d0;
  ac_live : forall c, rpc d = Some c -> connected c = true;
  ac_gone : Forall (fun c => connected c = false) (gone d);
  ac_used : exists used, net d0 = used ++ net d /\
    Forall2 (made_of (info d0)) (openings used) (gone d ++ match rpc d with Some c => [c] | None => [] end);
}.

Definition accounts {A} (m : D (T := T) A) : Prop := forall d0 d, accounted d0 d -> accounted d0 (fst (m d)).

Lemma accounts_bind {A B} (m : D A) (k : A -> D B) : accounts m -> (forall a, accounts (k a)) -> accounts (dbind m k).
Proof.
  intros Hm Hk d0 d Hd. specialize (Hm d0 d Hd). unfold dbind. destruct (m d) as [d1 [a|e| |]]; cbn [fst] in *; try done.
  by apply Hk.
Qed.
Lemma accounts_ret {A} (a : A) : accounts (dret a).
Proof. by intros d0 d. Qed.
Lemma accounts_lift {A} (o : outcome A) : accounts (dlift o).
Proof. by intros d0 d. Qed.
Lemma accounts_ok {A} (m : D A) : accounts m -> accounts (dok m).
Proof. intros Hm d0 d Hd. specialize (Hm d0 d Hd). unfold dok. by destruct (m d). Qed.
Lemma accounts_if {A} (b : bool) (m1 m2 : D A) : accounts m1 -> accounts m2 -> accounts (if b then m1 else m2).
Proof. by destruct b. Qed.

(** Calls that leave the AR alone, on the connection held. *)
Lemma accounts_on_rpc {A} (m : C (T := T) A) : stays m -> accounts (on_rpc m).
Proof.
  intros Hm d0 d Hd. unfold on_rpc. destruct (rpc d) as [c|] eqn:E; [|exact Hd].
  destruct Hd as [Hi Hl Hg (used & Hn & Hu)]. rewrite E in Hu.
  destruct (Hm c) as [Ha Hc]. destruct (m c) as [c' o]. cbn [fst] in *. constructor; cbn; try done.
  - intros ? [= <-]. rewrite Hc. by apply Hl.
  - exists used. split; [done|]. apply Forall2_app_inv_r in Hu as (l1 & l2 & H1 & H2 & ->).
    apply Forall2_app; [done|]. inversion H2 as [|? ? ? ? Hx Hy]; subst. inversion Hy; subst.
    constructor; [|constructor]. by eapply same_ar_trans.
Qed.

Lemma drop_down c : connected c = false -> drop_conn c = (c, Ok tt).
Proof. intros Hc. unfold drop_conn, release, cbind, cget. by rewrite Hc. Qed.

Lemma dropped_down c (d : ProfinetDevice T) : connected c = false ->
  dropped c d = mkDevice (info d) (interface d) (src_mac d) (src_ip d) (rpc d) (net d) (gone d ++ [c]).
Proof. intros Hc. unfold dropped. by rewrite drop_down. Qed.

(** The next opening, if it succeeds, is not accounted for yet. *)
Lemma new_transport_cases (d : ProfinetDevice T) : rpc d = None ->
  (exists e, new_transport d = (d, Err e) /\ net d = []) \/
  (exists o l, net d = o :: l /\ fst (new_transport d) = with_net l d /\
     match o with
     | Ok m => snd (new_transport d) = Ok (conn_new (o_transport m) (Dcp.device_id (info d)) (Dcp.vendor_id (info d))
                                             (o_activity m) (o_ar m) (o_key m))
     | _ => forall c, snd (new_transport d) <> Ok c
     end).
Proof.
  intros _. unfold new_transport. destruct (net d) as [|o l] eqn:E; [left; by eexists|right].
  exists o, l. split; [done|]. split; [done|]. by destruct o.
Qed.

Lemma accounted_skip d0 d o l : accounted d0 d -> rpc d = None -> net d = o :: l ->
  (forall m, o <> Ok m) -> accounted d0 (with_net l d).
Proof.
  intros [Hi Hl Hg (used & Hn & Hu)] Hr E Ho. constructor; try done. exists (used ++ [o]). cbn. split.
  - by rewrite Hn, E, <- app_assoc.
  - unfold openings. rewrite omap_app. destruct o; [by destruct (Ho a)|..]; cbn; by rewrite app_nil_r.
Qed.

(** A connection made of the next opening is dropped, or kept. *)
Lemma accounted_dropped d0 d m l c : accounted d0 d -> rpc d = None -> net d = Ok m :: l ->
  made_of (info d0) m c -> connected c = false -> accounted d0 (dropped c (with_net l d)).
Proof.
  intros [Hi Hl Hg (used & Hn & Hu)] Hr E Hm Hc. rewrite dropped_down by done. constructor; cbn; try done.
  - apply Forall_app. split; [done|]. by constructor.
  - exists (used ++ [Ok m]). split; [by rewrite Hn, E, <- app_assoc|].
    rewrite Hr in *. rewrite app_nil_r in *. unfold openings. rewrite omap_app. apply Forall2_app; [done|].
    cbn. by constructor.
Qed.
Lemma accounted_kept d0 d m l c : accounted d0 d -> rpc d = None -> net d = Ok m :: l ->
  made_of (info d0) m c -> connected c = true -> accounted d0 (with_rpc (Some c) (with_net l d)).
Proof.
  intros [Hi Hl Hg (used & Hn & Hu)] Hr E Hm Hc. constructor; cbn; try done.
  - by intros ? [= <-].
  - exists (used ++ [Ok m]). split; [by rewrite Hn, E, <- app_assoc|].
    rewrite Hr in *. rewrite app_nil_r in *. unfold openings. rewrite omap_app. apply Forall2_app; [done|].
    cbn. by constructor.
Qed.

Lemma accounts_connect : accounts (device_connect passes).
Proof.
  intros d0 d Hd. unfold device_connect. destruct (rpc d) as [c|] eqn:Er; [exact Hd|].
  destruct (new_transport_cases d Er) as [(e & -> & _)|(o & l & En & Ef & Eo)]; [exact Hd|].
  destruct (new_transport d) as [d1 r]. cbn [fst snd] in Ef, Eo. subst d1.
  destruct o as [m|e| |].
  2-4: destruct r as [c|? | |]; [by destruct (Eo c)|by apply (accounted_skip _ _ _ _ Hd Er En)..].
  subst r. set (c0 := conn_new _ _ _ _ _ _).
  destruct (ups_device_access passes (src_mac (with_net l d)) CM_STATION_NAME c0) as [Ha Hc].
  assert (Hm : made_of (info d0) m (fst (connect_device_access passes (src_mac (with_net l d)) CM_STATION_NAME c0))).
  { unfold made_of. rewrite <- (ac_info _ _ Hd). exact Ha. }
  destruct (connect_device_access _ _ _ c0) as [c [[]|e| |]]; cbn [fst snd is_ok orb] in *;
    [by apply (accounted_kept _ _ m)|by apply (accounted_dropped _ _ m)..].
Qed.

Lemma accounts_implicit s ss i l : accounts (read_record_implicit_len passes s ss i l).
Proof.
  assert (Hs : stays (T := T) (read_raw_implicit passes i s ss l)) by (unfold read_raw_implicit; stays_auto; apply stays_send_read).
  intros d0 d Hd. unfold read_record_implicit_len. destruct (rpc d) as [c|] eqn:Er; [by apply accounts_on_rpc|].
  unfold dbind. destruct (new_transport_cases d Er) as [(e & -> & _)|(o & l' & En & Ef & Eo)]; [exact Hd|].
  destruct (new_transport d) as [d1 r]. cbn [fst snd] in Ef, Eo. subst d1.
  destruct o as [m|e| |].
  2-4: destruct r as [c|? | |]; [by destruct (Eo c)|by apply (accounted_skip _ _ _ _ Hd Er En)..].
  subst r. set (c0 := conn_new _ _ _ _ _ _). unfold on_conn. destruct (Hs c0) as [Ha Hc].
  assert (Hm : made_of (info d0) m (fst (read_raw_implicit passes i s ss l c0))).
  { unfold made_of. rewrite <- (ac_info _ _ Hd). exact Ha. }
  destruct (read_raw_implicit _ _ _ _ _ c0) as [c o]. cbn [fst] in *. by apply (accounted_dropped _ _ m).
Qed.

(** Sending may fail, but it returns. *)
Hypothesis Hsend : forall b t, safe (snd (send_request b t)).

Lemma release_down (c : RpcConn T) : same_ar c (fst (release c)) /\ connected (fst (release c)) = false.
Proof using Hsend.
  unfold release, cbind, cget. destruct (connected c) eqn:E; cbn [negb]; [|done].
  unfold next_seq, cbind, cget, cmodify, cret, cignore, ctransport. cbn [transport with_seq].
  match goal with |- context [send_request ?b ?t] => pose proof (Hsend b t) as Hs; destruct (send_request b t) as [t' [[]|e| |]] end;
    cbn [snd safe wp] in Hs; done.
Qed.

Lemma accounts_disconnect : accounts disconnect.
Proof using Hsend.
  intros d0 d Hd. unfold disconnect. destruct (rpc d) as [c|] eqn:Er; [|exact Hd].
  destruct Hd as [Hi Hl Hg (used & Hn & Hu)]. rewrite Er in Hu.
  destruct (release_down c) as [Ha Hc]. destruct (release c) as [c' o]. cbn [fst] in *.
  rewrite dropped_down by done. constructor; cbn; try done.
  - apply Forall_app. split; [done|]. by constructor.
  - exists used. split; [done|]. rewrite app_nil_r. apply Forall2_app_inv_r in Hu as (l1 & l2 & H1 & H2 & ->).
    apply Forall2_app; [done|]. inversion H2 as [|? ? ? ? Hx Hy]; subst. inversion Hy; subst.
    constructor; [|constructor]. by eapply same_ar_trans.
Qed.

Lemma accounts_with_ar {A} (m : C (T := T) A) : stays m -> accounts (with_ar passes m).
Proof. intros Hm. unfold with_ar, ensure_connected. apply accounts_bind; [apply accounts_connect|]. intros _. by apply accounts_on_rpc. Qed.

Lemma stays_read_raw i s ss l : stays (T := T) (read_raw passes i s ss l).
Proof. unfold read_raw. stays_auto; apply stays_send_read. Qed.
Lemma stays_read_parsed {A} i s ss (p : list Z -> outcome A) : stays (T := T) (read_parsed passes i s ss p).
Proof. apply stays_bind; [apply stays_read_raw|intros; apply stays_lift]. Qed.
Lemma stays_diagnosis s ss i : stays (T := T) (conn_read_diagnosis passes s ss i).
Proof.
  intros c. destruct (stays_read_raw i s ss READ_LENGTH c) as [Ha Hc]. unfold conn_read_diagnosis.
  by destruct (read_raw _ _ _ _ _ c) as [c' [?|?| |]].
Qed.
Lemma stays_diagnoses l r : stays (T := T) (read_diagnoses passes l r).
Proof.
  revert r. induction l as [|[[i s] ss] l IH]; intros r; [apply stays_ret|].
  apply stays_bind; [apply stays_diagnosis|intros; apply IH].
Qed.

Lemma accounts_read s ss i l : accounts (read_record_len passes s ss i l).
Proof.
  intros d0 d Hd. unfold read_record_len, ensure_connected. pose proof (accounts_connect d0 d Hd) as Hc.
  destruct (device_connect passes d) as [d1 [[]|e| |]]; cbn [fst] in *; try done.
  - by apply accounts_on_rpc; [apply stays_read_raw|].
  - by apply accounts_implicit.
Qed.
Lemma accounts_parsed {A} s ss i (p : list Z -> outcome A) : accounts (device_read_parsed passes s ss i p).
Proof. apply accounts_bind; [apply accounts_read|intros; apply accounts_lift]. Qed.

Lemma accounts_get_info t e : accounts (get_info passes t e).
Proof.
  intros d0 d Hd. unfold get_info.
  match goal with |- accounted _ (fst (?m d)) => enough (Hk : accounts m) by (by apply Hk) end.
  apply accounts_bind; [apply accounts_lift|intros i]. apply accounts_bind; [apply accounts_connect|intros _].
  apply accounts_bind; [apply accounts_ok, accounts_on_rpc, stays_read_parsed|intros im0].
  apply accounts_bind; [destruct t; [apply accounts_ok, accounts_on_rpc, stays_read_parsed|apply accounts_ret]|intros top].
  apply accounts_bind; [apply accounts_lift|intros eps]. apply accounts_ret.
Qed.

Lemma accounts_run op : accounts (run_dop op).
Proof using Hsend.
  assert (Hv : forall {A} (m : D (T := T) A), accounts m -> accounts (dvoid m))
    by (intros; apply accounts_bind; [done|intros; apply accounts_ret]).
  assert (Hw : forall i s ss d, stays (T := T) (Transport.write passes i s ss d))
    by (intros; unfold Transport.write; stays_auto; apply stays_send_receive).
  destruct op; cbn [run_dop]; try apply Hv.
  - apply accounts_connect.
  - apply accounts_disconnect.
  - apply accounts_get_info.
  - apply accounts_read.
  - apply accounts_implicit.
  - by apply accounts_with_ar.
  - apply accounts_with_ar, stays_write_multiple.
  - repeat (apply accounts_bind; [apply accounts_ok, accounts_parsed|intros ?]). apply accounts_ret.
  - apply accounts_bind; [apply accounts_lift|intros ?]. by apply accounts_with_ar.
  - apply accounts_bind; [apply accounts_lift|intros ?]. by apply accounts_with_ar.
  - apply accounts_bind; [apply accounts_lift|intros ?]. by apply accounts_with_ar.
  - apply accounts_with_ar, stays_diagnosis.
  - apply accounts_with_ar, stays_diagnoses.
  - apply accounts_with_ar, stays_bind; [apply stays_read_parsed|intros; apply stays_ret].
  - apply accounts_with_ar, stays_read_parsed.
  - apply accounts_bind; [apply accounts_ok, accounts_read|]. intros [?|]; [apply accounts_lift|apply accounts_ret].
Qed.

Lemma accounts_runs ops : forall d0 d, accounted d0 d -> accounted d0 (run_dops ops d).
Proof using Hsend.
  induction ops as [|op ops IH]; intros d0 d Hd; [done|]. cbn [run_dops]. by apply IH, accounts_run.
Qed.

End Life.

(** C23: A device object accounts for every connection it opens.  Whatever is
    called in whatever order, and whatever the network does, the connection it
    holds has its AR up, and the openings that succeeded correspond one to
    one, in order, to the connections it has dropped and the one it holds;
    dropping the object releases that one too, so that afterwards every
    connection ever opened is down, with the identity it was opened with. *)
Theorem device_connections {T} `{RpcTransport T} passes ops i iface m ip (opens : list (outcome (Opened T))) :
  (forall b t, safe (snd (send_request b t))) ->
  let d := run_dops passes ops (device_new i iface m ip opens) in
  let d' := fst (drop_device d) in
  (forall c, rpc d = Some c -> connected c = true) /\
  rpc d' = None /\ gone d' = gone d ++ match rpc d with Some c => [fst (release c)] | None => [] end /\
  Forall (fun c => connected c = false) (gone d') /\
  exists used, opens = used ++ net d' /\ Forall2 (made_of i) (openings used) (gone d').
Proof.
  intros Hs d d'. assert (H0 : accounted (device_new i iface m ip opens) (device_new i iface m ip opens)).
  { constructor; try done. exists []. done. }
  pose proof (accounts_runs passes Hs ops _ _ H0) as Hd. fold d in Hd.
  assert (Hd' : accounted (device_new i iface m ip opens) d') by exact (accounts_disconnect Hs _ _ Hd).
  destruct Hd' as [Hi' Hl' Hg' (used & Hn & Hu)].
  destruct Hd as [Hi Hl Hg _].
  assert (Hr : rpc d' = None /\ gone d' = gone d ++ match rpc d with Some c => [fst (release c)] | None => [] end).
  { unfold d', drop_device, close, disconnect. destruct (rpc d) as [c|] eqn:Er; [|by rewrite app_nil_r].
    destruct (release_down Hs c) as [_ Hc]. destruct (release c) as [c' o]. cbn [fst] in *. by rewrite dropped_down. }
  destruct Hr as [Hr Hgd]. split_and!; try done. exists used. rewrite Hr, app_nil_r in Hu. done.
Qed.

Definition no_traffic : Script := {| s_responses := []; s_ccontrol := []; s_sent := []; s_replies := [] |}.
Definition device_at : Dcp.DcpDevice := Dcp.default_device (rep 6 2).

(** A read with no answer at all: the AR's Connect and the implicit read both
    time out, on a connection each. *)
Example device_connections_witness :
  let opens := [Ok (mkOpened no_traffic (rep 16 1) (rep 16 2) 3); Ok (mkOpened no_traffic (rep 16 4) (rep 16 5) 6)] in
  let d := run_dops 5 [DRead 0 1 0xAFF0 4096] (device_new device_at "eth0" (rep 6 1) (rep 4 1) opens) in
  rpc (fst (drop_device d)) = None /\ length (gone (fst (drop_device d))) = 2%nat /\
  Forall (fun c => connected c = false) (gone (fst (drop_device d))).
Proof.
  intros opens d.
  destruct (device_connections (H := script_transport) 5 [DRead 0 1 0xAFF0 4096] device_at "eth0" (rep 6 1) (rep 4 1) opens (fun _ _ => I))
    as (_ & Hr & _ & Hg & _).
  split_and!; [exact Hr|vm_compute; reflexivity|exact Hg].
Defined.

(** ** Reading from a device that refuses the AR *)

Lemma next_rpc_sent passes u s : forall t : Script, s_sent (fst (next_rpc_response passes u s t)) = s_sent t.
Proof.
  induction passes as [|passes IH]; intros t; cbn [next_rpc_response]; [done|].
  cbn [recv_response script_transport]. destruct (s_responses t) as [|x l]; [done|].
  destruct (parse_rpc_response x) as [[h|]|e| |]; try done; [|by rewrite IH].
  destruct (_ && _); [done|by rewrite IH].
Qed.

(** A read whose answer arrives. *)
Lemma send_read_answered passes ou iu au seq op body (c : RpcConn Script) l dg rest h :
  length ou = 16%nat -> length iu = 16%nat -> length au = 16%nat -> u32_ok seq -> u16_ok op ->
  Forall (skipped au seq) l -> parse_rpc_response dg = Ok (Some h) -> ours au seq h ->
  s_responses (transport c) = l ++ dg :: rest -> (length l < passes)%nat ->
  let r := send_read passes (rpc_request ou iu au seq op body) c in
  snd r = parse_read_response (payload h) (is_little_endian h) /\
  sent (fst r) = sent c ++ [rpc_request ou iu au seq op body].
Proof.
  intros Ho Hi Ha Hs Hp Hl Hd Hours Hr Hlen. unfold send_read, send_receive, cbind, clift, ctransport, sent.
  rewrite rpc_request_header by done.
  cbn [ok_or send_request script_transport transport with_transport is_little_endian request_header
    drep_normalized_uuid negb h_activity_uuid h_sequence_number].
  set (t := {| s_responses := _ |}).
  pose proof (next_rpc_complete au seq l passes t h dg rest Hl Hd Hours Hr Hlen) as Hc.
  pose proof (next_rpc_sent passes au seq t) as Hn.
  destruct (next_rpc_response passes au seq t) as [t' o]. cbn [fst snd] in *. subst o. cbn. by rewrite Hn.
Qed.

Lemma connect_refused {T} `{RpcTransport T} passes (d : ProfinetDevice T) m l c e :
  rpc d = None -> net d = Ok m :: l ->
  connect_device_access passes (src_mac d) CM_STATION_NAME
    (conn_new (o_transport m) (Dcp.device_id (info d)) (Dcp.vendor_id (info d)) (o_activity m) (o_ar m) (o_key m))
  = (c, Err e) ->
  exists e', device_connect passes d
             = (mkDevice (info d) (interface d) (src_mac d) (src_ip d) None l (gone d ++ [c]), Err e').
Proof.
  intros Hr Hn Hc. unfold device_connect, new_transport. rewrite Hr, Hn. cbn [bind info with_net src_mac]. rewrite Hc.
  assert (Hdown : connected c = false).
  { match type of Hc with connect_device_access ?p ?a ?n ?c0 = _ =>
      destruct (ups_device_access p a n c0) as [_ H1] end. rewrite Hc in H1. exact H1. }
  rewrite dropped_down by done. cbn [rpc with_net info interface net gone src_mac src_ip]. rewrite Hr.
  by eexists.
Qed.

(** The AR-less read on a connection of its own. *)
Lemma implicit_answered passes (d : ProfinetDevice Script) m opens slot subslot index length_ l dg rest h :
  rpc d = None -> net d = Ok m :: opens -> length (o_activity m) = 16%nat ->
  s_responses (o_transport m) = l ++ dg :: rest ->
  Forall (skipped (o_activity m) 0) l -> (length l < passes)%nat ->
  parse_rpc_response dg = Ok (Some h) -> ours (o_activity m) 0 h ->
  exists c, read_record_implicit_len passes slot subslot index length_ d
    = (mkDevice (info d) (interface d) (src_mac d) (src_ip d) None opens (gone d ++ [c]),
       parse_read_response (payload h) (is_little_endian h)) /\
    sent c = s_sent (o_transport m) ++
      [read_record_implicit_request (object_uuid_ c) IFACE_UUID_DEVICE (o_activity m) 0 0 slot subslot index length_].
Proof.
  intros Hr Hn Hau Hresp Hl Hp Hd Hours. unfold read_record_implicit_len. rewrite Hr.
  unfold dbind, new_transport. rewrite Hn. cbn [bind]. set (c0 := conn_new (o_transport m) _ _ _ _ _).
  assert (Ho : length (object_uuid_ c0) = 16%nat) by done.
  unfold on_conn, read_raw_implicit, next_seq, cbind, cget, cmodify, cret. cbn [sequence_number conn_new].
  set (cs := with_seq _ c0). change (sequence_number c0) with 0. change (activity_uuid cs) with (o_activity m).
  pose proof (send_read_answered passes (object_uuid_ cs) IFACE_UUID_DEVICE (o_activity m) 0 IMPLICIT_READ
    (nrd (iod_read_request (rep 16 0) 0 slot subslot index length_)) cs l dg rest h) as Ha.
  unfold read_record_implicit_request, read_request.
  destruct Ha as [Ha1 Ha2]; try done; try (unfold u16_ok, u32_ok, IMPLICIT_READ; lia).
  match goal with |- context [send_read passes ?q cs] =>
    pose proof (stays_send_read passes q cs) as Hs; destruct (send_read passes q cs) as [c o] end.
  cbn [fst snd] in *. destruct Hs as [(Hs1 & _) Hs2]. exists c. rewrite dropped_down by (by rewrite Hs2). subst o.
  cbn [rpc with_net info interface net gone src_mac src_ip]. rewrite Hr. split; [done|]. by rewrite Ha2, Hs1.
Qed.

(** C29: A device that refuses the AR can still be read.  When the device holds
    no AR and its Connect fails, whatever the reason, the read goes out as one
    Read Implicit request on a connection of its own, and the caller gets what
    the device answers to that; the refusal is not remembered: the object holds
    no connection afterwards, both connections are closed without a Release,
    and the next read tries the AR again. *)
Theorem read_falls_back passes (d : ProfinetDevice Script) m1 m2 opens slot subslot index length_ l dg rest h c1 e :
  rpc d = None -> net d = Ok m1 :: Ok m2 :: opens ->
  connect_device_access passes (src_mac d) CM_STATION_NAME
    (conn_new (o_transport m1) (Dcp.device_id (info d)) (Dcp.vendor_id (info d)) (o_activity m1) (o_ar m1) (o_key m1))
  = (c1, Err e) ->
  length (o_activity m2) = 16%nat -> s_responses (o_transport m2) = l ++ dg :: rest ->
  Forall (skipped (o_activity m2) 0) l -> (length l < passes)%nat ->
  parse_rpc_response dg = Ok (Some h) -> ours (o_activity m2) 0 h ->
  let r := read_record_len passes slot subslot index length_ d in
  snd r = parse_read_response (payload h) (is_little_endian h) /\ rpc (fst r) = None /\ net (fst r) = opens /\
  exists c2, gone (fst r) = gone d ++ [c1; c2] /\
    sent c2 = s_sent (o_transport m2) ++
      [read_record_implicit_request (object_uuid_ c2) IFACE_UUID_DEVICE (o_activity m2) 0 0 slot subslot index length_].
Proof.
  intros Hr Hn Hc Hau Hresp Hl Hp Hd Hours. cbv zeta. unfold read_record_len, ensure_connected.
  destruct (connect_refused _ _ _ _ _ _ Hr Hn Hc) as (e' & ->).
  set (d1 := mkDevice _ _ _ _ _ _ _).
  destruct (implicit_answered passes d1 m2 opens slot subslot index length_ l dg rest h) as (c & -> & Hs); try done.
  split_and!; [done..|]. exists c. split; [|done]. cbn. by rewrite <- app_assoc.
Qed.

(** A device of this kind: its Connect times out, and it answers the implicit
    read of I&M0 with the bytes 1, 2, 3, behind an echo of the request. *)
Definition answered (au : list Z) (d : list Z) : list Z :=
  rpc_bytes (response_header (request_header (object_uuid 0 0 0 0) IFACE_UUID_DEVICE au 0 IMPLICIT_READ [])
    (be32_bytes 0 ++ be32_bytes 67 ++ be32_bytes 67 ++ be32_bytes 0 ++ be32_bytes 67 ++ rep 64 0 ++ d)).
Definition echoed (au : list Z) : list Z := rpc_request (object_uuid 0 0 0 0) IFACE_UUID_DEVICE au 0 IMPLICIT_READ [].

Example read_falls_back_witness :
  let au := rep 16 4 in
  let m1 := mkOpened no_traffic (rep 16 1) (rep 16 2) 3 in
  let m2 := mkOpened {| s_responses := [echoed au; answered au [1; 2; 3]]; s_ccontrol := []; s_sent := [];
                        s_replies := [] |} au (rep 16 5) 6 in
  let d := device_new device_at "eth0" (rep 6 1) (rep 4 1) [Ok m1; Ok m2] in
  snd (read_record_len 5 0 1 0xAFF0 4096 d) = Ok [1; 2; 3] /\ rpc (fst (read_record_len 5 0 1 0xAFF0 4096 d)) = None.
Proof.
  intros au m1 m2 d.
  destruct (parse_rpc_response (answered au [1; 2; 3])) as [[h|]|e| |] eqn:Eh; [|vm_compute in Eh; discriminate..].
  destruct (connect_device_access 5 (src_mac d) CM_STATION_NAME
    (conn_new (o_transport m1) (Dcp.device_id (info d)) (Dcp.vendor_id (info d)) (o_activity m1) (o_ar m1) (o_key m1)))
    as [c1 [[]|e| |]] eqn:Ec; [vm_compute in Ec; discriminate| |vm_compute in Ec; discriminate..].
  destruct (read_falls_back 5 d m1 m2 [] 0 1 0xAFF0 4096 [echoed au] (answered au [1; 2; 3]) [] h c1 e) as (Hs & Hr & _).
  - reflexivity.
  - reflexivity.
  - exact Ec.
  - reflexivity.
  - reflexivity.
  - apply List.Forall_cons; [left; vm_compute; reflexivity|constructor].
  - cbn. lia.
  - exact Eh.
  - vm_compute in Eh. injection Eh as <-. split; reflexivity.
  - split; [|exact Hr]. rewrite Hs. vm_compute in Eh. injection Eh as <-. vm_compute. reflexivity.
Defined.

(** ** Choosing a device, and the records written *)

Lemma find_some {A} (p : A -> bool) l x : List.find p l = Some x ->
  exists l1 l2, l = l1 ++ x :: l2 /\ p x = true /\ Forall (fun y => p y = false) l1.
Proof.
  induction l as [|y l IH]; [done|]. cbn [List.find]. destruct (p y) eqn:E.
  - intros [= ->]. by exists [], l.
  - intros (l1 & l2 & -> & Hx & Hl)%IH. exists (y :: l1), l2. split_and!; [done|done|]. by constructor.
Qed.

Lemma smap_app f a b : smap f (a +:+ b) = smap f a +:+ smap f b.
Proof. induction a as [|c a IH]; [done|]. rewrite app_String. cbn [smap]. by rewrite IH. Qed.

Definition ascii_text (s : string) : Prop := Forall (fun b => 0 <= b < 128) (str_bytes s).

Lemma chars_ascii s : ascii_text s -> chars s = (fun b => [b]) <$> str_bytes s.
Proof.
  unfold ascii_text, chars. intros Ha.
  replace (String.length s) with (length (str_bytes s)).
  2: { unfold str_bytes. rewrite length_fmap. clear. induction s as [|c s IH]; [done|]. cbn. by rewrite <- IH. }
  induction Ha as [|b l Hb Hl IH]; [done|]. cbn [length chars_of]. unfold utf8_chunk, utf8_width.
  replace (b <? 128) with true by lia. change (1 =? 1) with true. cbn [snd take drop]. rewrite drop_0.
  by rewrite IH, fmap_cons.
Qed.

Lemma latin1_ascii what l : Forall (fun b => 0 <= b < 128) l -> latin1_bytes what ((fun b => [b]) <$> l) = Ok l.
Proof.
  induction 1 as [|b l Hb Hl IH]; [done|]. rewrite fmap_cons. cbn [latin1_bytes code_point].
  replace (0xFF <? b) with false by lia. rewrite IH. cbn [bind]. rewrite as_u8_id by (unfold byte_ok; lia). done.
Qed.

(** A field of an ASCII text: padded with blanks, or refused for its length. *)
Definition field_of (s : string) (width : Z) : list Z := str_bytes s ++ rep (width - slen s) 0x20.

Lemma len_str_bytes s : len (str_bytes s) = slen s.
Proof.
  unfold str_bytes, slen. rewrite length_fmap. f_equal. clear. induction s as [|c s IH]; [done|]. cbn. by rewrite IH.
Qed.

Lemma latin1_field_ascii s width what : ascii_text s ->
  latin1_field s width what
  = if width <? slen s then Err (what +:+ " exceeds " +:+ dec width +:+ " character limit") else Ok (field_of s width).
Proof.
  intros Ha. unfold latin1_field. rewrite chars_ascii, length_fmap, len_str_bytes by done.
  destruct (width <? slen s); [done|]. rewrite latin1_ascii by done. cbn [bind]. by rewrite len_str_bytes.
Qed.

Lemma len_field_of s width : slen s <= width -> len (field_of s width) = width.
Proof.
  intros. unfold field_of. rewrite length_app, Nat2Z.inj_add, len_str_bytes, len_rep by lia. lia.
Qed.

Import Im.

(** A field of the block header, where the length of the record is known. *)
Lemma announced ty bl r n : u16_ok bl -> len (block_header ty bl 1 0 ++ r) = n -> bl = n - 4 ->
  rd_be16 (block_header ty bl 1 0 ++ r) 2 = Ok (len (block_header ty bl 1 0 ++ r) - 4).
Proof.
  intros Hb Hl Hn. rewrite Hl, <- Hn. unfold block_header. rewrite <- !app_assoc. lit_read.
Qed.

(** The I&M records written have the length their block header announces,
    and a text that is too long is refused rather than cut.  They carry two
    padding bytes that the readers of [im.rs] do not expect: read by the same
    library, a record comes back with every text field shifted by two. *)
Theorem im_records_written f l t :
  ascii_text f -> ascii_text l -> ascii_text t ->
  (if (32 <? slen f) || (22 <? slen l) then exists e, im1_record f l = Err e
   else exists r, im1_record f l = Ok r /\ len r = 62 /\ rd_be16 r 2 = Ok (len r - 4) /\
     parse_im1 r = Ok {| im1_block_header := {| bh_block_type := BLOCK_IM1; bh_block_length := 58;
                                                 version_high := 1; version_low := 0 |};
                         im_tag_function := [0; 0] ++ take 30 (field_of f 32);
                         im_tag_location := drop 30 (field_of f 32) ++ take 20 (field_of l 22) |}) /\
  (if 16 <? slen t then exists e, im2_record t = Err e
   else exists r, im2_record t = Ok r /\ len r = 24 /\ rd_be16 r 2 = Ok (len r - 4)) /\
  (if 54 <? slen t then exists e, im3_record t = Err e
   else exists r, im3_record t = Ok r /\ len r = 62 /\ rd_be16 r 2 = Ok (len r - 4) /\
     parse_im3 r = Ok {| im3_block_header := {| bh_block_type := BLOCK_IM3; bh_block_length := 58;
                                                 version_high := 1; version_low := 0 |};
                         im_descriptor := [0; 0] ++ take 52 (field_of t 54) |}).
Proof.
  intros Hf Hl Ht. split_and!.
  - unfold im1_record. rewrite !latin1_field_ascii by done.
    destruct (Z.ltb_spec 32 (slen f)) as [|Lf]; cbn [orb bind]; [by eexists|].
    destruct (Z.ltb_spec 22 (slen l)) as [|Ll]; cbn [bind]; [by eexists|]. eexists. split; [reflexivity|].
    pose proof (len_field_of f 32 Lf) as F1. pose proof (len_field_of l 22 Ll) as F2.
    revert F1 F2. generalize (field_of f 32) (field_of l 22). intros ff fl F1 F2.
    split; [rewrite !length_app; cbn; lia|]. split; [apply (announced _ _ _ 62); [unfold u16_ok; lia| |lia]; rewrite !length_app; cbn; lia|].
    set (h := {| bh_block_type := BLOCK_IM1 |}).
    change (block_header BLOCK_IM1 58 1 0) with (header_bytes h).
    set (i := {| im1_block_header := h |}).
    replace (header_bytes h ++ [0; 0] ++ ff ++ fl) with (im1_bytes i ++ drop 20 fl).
    + apply im1_read; [done|..]; cbn [im_tag_function im_tag_location i];
        rewrite ?length_app, ?length_take, ?length_drop; cbn [length]; lia.
    + unfold im1_bytes. cbn [im1_block_header im_tag_function im_tag_location i].
      rewrite <- (take_drop 30 ff) at 3. rewrite <- (take_drop 20 fl) at 3.
      by rewrite <- !app_assoc.
  - unfold im2_record. rewrite latin1_field_ascii by done.
    destruct (Z.ltb_spec 16 (slen t)) as [|Lt]; cbn [bind]; [by eexists|]. eexists. split; [reflexivity|].
    pose proof (len_field_of t 16 Lt) as F1. split; [rewrite !length_app; cbn; lia|].
    apply (announced _ _ _ 24); [unfold u16_ok; lia| |lia]. rewrite !length_app; cbn; lia.
  - unfold im3_record. rewrite latin1_field_ascii by done.
    destruct (Z.ltb_spec 54 (slen t)) as [|Lt]; cbn [bind]; [by eexists|]. eexists. split; [reflexivity|].
    pose proof (len_field_of t 54 Lt) as F1.
    revert F1. generalize (field_of t 54). intros ft F1. split; [rewrite !length_app; cbn; lia|].
    split; [apply (announced _ _ _ 62); [unfold u16_ok; lia| |lia]; rewrite !length_app; cbn; lia|].
    set (h := {| bh_block_type := BLOCK_IM3 |}).
    change (block_header BLOCK_IM3 58 1 0) with (header_bytes h).
    set (i := {| im3_block_header := h |}).
    replace (header_bytes h ++ [0; 0] ++ ft) with (im3_bytes i ++ drop 52 ft).
    + apply im3_read; [done|]; cbn [im_descriptor i]; rewrite ?length_app, ?length_take; cbn [length]; lia.
    + unfold im3_bytes. cbn [im3_block_header im_descriptor i].
      rewrite <- (take_drop 52 ft) at 3. by rewrite <- !app_assoc.
Qed.

Example im_records_written_witness :
  exists r, im1_record "pump" "hall 3" = Ok r /\ len r = 62 /\ rd_be16 r 2 = Ok (len r - 4) /\
    parse_im1 r = Ok {| im1_block_header := {| bh_block_type := BLOCK_IM1; bh_block_length := 58;
                                                version_high := 1; version_low := 0 |};
                        im_tag_function := [0; 0] ++ take 30 (field_of "pump" 32);
                        im_tag_location := drop 30 (field_of "pump" 32) ++ take 20 (field_of "hall 3" 22) |}.
Proof.
  destruct (im_records_written "pump" "hall 3" EmptyString) as [H _];
    [apply (bool_decide_unpack _); vm_compute; exact I..|].
  change ((32 <? slen "pump") || (22 <? slen "hall 3")) with false in H. exact H.
Defined.
