(* ===== verification/Takeover.v ===== *)
(** * Taking over a device's IO AR ([bin/profinet.rs])

    The arguments of [serve] ([run]), its opening ([cmd_serve] before the
    loop, which is [Serve]), and [start_cyclic_tier]: the checks before the
    takeover, the release of the acyclic AR, the IO AR and the start of the
    cyclic controller.

    The connections are those of [Transport], the controller that of [Cyclic].
    What the network and the system give is an environment: the interface's
    MAC, the GSDML device, the resolved station, the transports that open, the
    sockets and threads of the controller. *)

From S2P Require Import Prelude Fmt Gsdml Rpc Rt Connect Transport Device Lines Commands Control.
From S2P Require Cyclic Dcp Serve.

#[local] Open Scope string_scope.
#[local] Open Scope list_scope.
#[local] Open Scope Z_scope.

Definition PACED_READ_RETRIES : nat := 4.

(** What is done, besides what the connections send: text on stdout and stderr,
    JSON lines, waiting (in milliseconds), what the reads of the checks
    returned, and the controller's life; the events are those of [Cyclic]. *)
Inductive Act :=
| APrint (line : string)
| ANote (line : string)
| AEmit (j : json)
| ASleep (ms : Z)
| ARead (index slot subslot : Z) (r : list Z + string)
| ASafe (slot subslot : Z) (d : list Z)
| AStart (ev : list Cyclic.Event)
| AThreads (ev : list Cyclic.Event)
| AStop (ev : list Cyclic.Event).

Record Env (T : Type) := mkEnv {
  e_mac : outcome (list Z);              (** [pcap::get_mac] *)
  e_gsdml : outcome GsdmlDevice;         (** [load_gsdml] *)
  e_resolve : outcome Dcp.DcpDevice;     (** [resolve_device] *)
  e_source : outcome (list Z);           (** [source_address] *)
  e_open : outcome (Opened T);           (** [RpcConn::new_raw]'s transport and random bytes *)
  e_now : Z;
  e_open_tx : option string;             (** [CyclicController::start]'s sockets and threads *)
  e_open_rx : option string;
  e_spawn_tx : option string;
  e_spawn_rx : option string;
  e_joined : bool;                       (** and those of its [stop] *)
  e_sends : Z -> bool;
}.
Arguments mkEnv {T}.
Arguments e_mac {T}.
Arguments e_gsdml {T}.
Arguments e_resolve {T}.
Arguments e_source {T}.
Arguments e_open {T}.
Arguments e_now {T}.
Arguments e_open_tx {T}.
Arguments e_open_rx {T}.
Arguments e_spawn_tx {T}.
Arguments e_spawn_rx {T}.
Arguments e_joined {T}.
Arguments e_sends {T}.

(** The function's locals: the connection, the shadowed one, the controller,
    and what has been done. *)
Record Locals (T : Type) := mkLocals {
  l_conn : RpcConn T;
  l_old : option (RpcConn T);
  l_ctl : option Cyclic.CyclicController;
  l_acts : list Act;
}.
Arguments mkLocals {T}.
Arguments l_conn {T}.
Arguments l_old {T}.
Arguments l_ctl {T}.
Arguments l_acts {T}.

Section Monad.
Context {T : Type} `{RpcTransport T}.

Definition K (A : Type) : Type := Locals T -> Locals T * outcome A.
Definition kret {A} (a : A) : K A := fun s => (s, Ok a).
Definition klift {A} (o : outcome A) : K A := fun s => (s, o).
Definition kbind {A B} (m : K A) (k : A -> K B) : K B := fun s =>
  match m s with
  | (s, Ok a) => k a s
  | (s, Err e) => (s, Err e)
  | (s, Panic) => (s, Panic)
  | (s, OutOfFuel) => (s, OutOfFuel)
  end.
Definition kact (a : Act) : K unit := fun s =>
  (mkLocals (l_conn s) (l_old s) (l_ctl s) (l_acts s ++ [a]), Ok tt).
(** A call on the connection. *)
Definition kconn {A} (m : C (T := T) A) : K A := fun s =>
  let '(c, o) := m (l_conn s) in (mkLocals c (l_old s) (l_ctl s) (l_acts s), o).
(** The same, its error as a value. *)
Definition kattempt {A} (m : C (T := T) A) : K (A + string) := fun s =>
  let '(c, o) := m (l_conn s) in
  (mkLocals c (l_old s) (l_ctl s) (l_acts s),
   match o with Ok a => Ok (inl a) | Err e => Ok (inr e) | Panic => Panic | OutOfFuel => OutOfFuel end).
(** A record read whose result decides what follows. *)
Definition kread (passes : nat) (index slot subslot length_ : Z) : K (list Z + string) := fun s =>
  match kattempt (read_raw passes index slot subslot length_) s with
  | (s, Ok r) => kbind (kact (ARead index slot subslot r)) (fun _ => kret r) s
  | r => r
  end.
Definition krebind (c : RpcConn T) : K unit := fun s =>
  (mkLocals c (Some (l_conn s)) (l_ctl s) (l_acts s), Ok tt).
Definition kctl (c : Cyclic.CyclicController) : K unit := fun s =>
  (mkLocals (l_conn s) (l_old s) (Some c) (l_acts s), Ok tt).
End Monad.
Arguments K : clear implicits.

Notation "'klet!' x := m 'in' k" := (kbind m (fun x => k))
  (at level 10, x binder, m at level 100, k at level 200) : rust_scope.
Notation "'kdo!' m ; k" := (kbind m (fun _ => k))
  (at level 10, m at level 100, k at level 200) : rust_scope.

Record CyclicTier (T : Type) := mkTier {
  t_conn : RpcConn T;
  t_cyclic : Cyclic.CyclicController;
  t_out_slot : Z;
  t_out_subslot : Z;
}.
Arguments mkTier {T}.
Arguments t_conn {T}.
Arguments t_cyclic {T}.
Arguments t_out_slot {T}.
Arguments t_out_subslot {T}.

Section Tier.
Context {T : Type} `{RpcTransport T} (passes : nat) (env : Env T).

Definition fail {A} (e : string) : K T A := klift (Err e).
Definition kif (b : bool) (m : K T unit) : K T unit := if b then m else kret tt.
(** [return Err(..)] after a release. *)
Definition release_and_fail {A} (e : string) : K T A := kdo! kconn release; fail e.

(** [paced_read], with the attempts left. *)
Fixpoint paced_read_loop (n : nat) (first : bool) (last : string) (idx slot subslot length_ : Z) : K T (list Z) :=
  match n with
  | O => fail ("index " +:+ dec idx +:+ ": " +:+ last +:+ " (after " +:+ dec (Z.of_nat PACED_READ_RETRIES) +:+ " attempts)")
  | S n =>
      kdo! kif (negb first) (kact (ASleep 50));
      kdo! kact (ASleep 30);
      klet! r := kread passes idx slot subslot length_ in
      match r with
      | inl d => kret d
      | inr e => if contains PNIO_BUSY_STATUS e then paced_read_loop n false e idx slot subslot length_ else fail e
      end
  end.
Definition paced_read (idx slot subslot length_ : Z) : K T (list Z) :=
  paced_read_loop PACED_READ_RETRIES true EmptyString idx slot subslot length_.

Definition kmap_err {A} (f : string -> string) (m : K T A) : K T A := fun s => let '(s, o) := m s in (s, map_err f o).

(** The submodule verified: the caller's, or the first one with inputs. *)
Definition input_location (gsdml_path : string) (slots : list IoSlot) (input_submodule : option (Z * Z))
    : outcome (Z * Z) :=
  match input_submodule with
  | Some p => Ok p
  | None =>
      ok_or ((fun s => (slot s, subslot s)) <$> List.find (fun s => 0 <? input_length s) slots)
        ("GSDML " +:+ gsdml_path +:+ " describes no submodule with inputs")
  end.
Definition declared_length (gsdml_path : string) (slots : list IoSlot) (in_slot in_subslot : Z) : outcome Z :=
  ok_or (input_length <$> List.find (fun s => (slot s =? in_slot) && (subslot s =? in_subslot)) slots)
    ("GSDML " +:+ gsdml_path +:+ " describes no submodule at slot " +:+ dec in_slot +:+ " subslot " +:+ dec in_subslot).
Definition output_location (slots : list IoSlot) (in_slot in_subslot : Z) : Z * Z :=
  match List.find (fun s => 0 <? output_length s) slots with
  | Some s => (slot s, subslot s)
  | None => (in_slot, in_subslot)
  end.

(** The pre-flight: the GSDML's input image against the device's. *)
Definition preflight (gsdml_path : string) (declared in_slot in_subslot : Z) : K T Z :=
  klet! record := kmap_err (fun e => "could not read the input image (0x8028) to verify the GSDML: " +:+ e)
                    (paced_read 0x8028 in_slot in_subslot 128) in
  klet! actual := klift (ok_or (parse_input_data_length record) "could not parse the input image record (0x8028)") in
  if negb (declared =? actual) then
    release_and_fail ("GSDML mismatch: " +:+ gsdml_path +:+ " declares a " +:+ dec declared
      +:+ "-byte input image for slot " +:+ dec in_slot +:+ " subslot " +:+ dec in_subslot
      +:+ ", but the device provides " +:+ dec actual
      +:+ " bytes. Cyclic reads would silently return zeros. Use the GSDML matching this firmware.")
  else kret actual.

(** The ownership probe. *)
Definition probe_refused : string :=
  "ownership probe failed: output is not at the safe image or state unknown; refusing to take over the cyclic AR".
Definition probe_output (out_slot out_subslot : Z) : K T unit :=
  klet! probe := kread passes 0x8029 out_slot out_subslot 128 in
  klet! safe_ := (match probe with
                  | inl d =>
                      kdo! kact (AEmit (current_output_line (len d) (hex_encode d)));
                      klift (output_is_safe d)
                  | inr e => kdo! kact (AEmit (error_read_line "current_output" e)); kret false
                  end) in
  if negb safe_ then
    kdo! kconn release;
    kdo! kact (AEmit (refused_setup_line "output is not at the safe image or state unknown; refusing takeover"));
    fail probe_refused
  else kret tt.

(** [CyclicController::start], its error as a value. *)
Definition start_controller (c : Cyclic.CyclicController) : K T unit :=
  klet! r := klift (Cyclic.start c (e_now env) (e_open_tx env) (e_open_rx env) (e_spawn_tx env) (e_spawn_rx env)) in
  let '(err, c, ev) := r in
  kdo! kctl c;
  kdo! kact (AStart ev);
  match err with Some e => fail e | None => kret tt end.
Definition stop_controller : K T unit := fun s =>
  match l_ctl s with
  | None => (s, Ok tt)
  | Some c =>
      (klet! r := klift (Cyclic.stop c (e_joined env) (e_sends env)) in
       kdo! kctl (fst r); kact (AStop (snd r))) s
  end.

(** The controller for the IO AR, with the safe image registered. *)
Definition make_controller (iface : string) (cm_mac dev_mac : list Z) (slots : list IoSlot) (r : ConnectResult)
    (cycle_ms watchdog_factor out_slot out_subslot : Z) : K T Cyclic.CyclicController :=
  let '(input_iocr, output_iocr) := build_iocr_configs slots (r_input_frame_id r) (r_output_frame_id r) 32 cycle_ms
                                      watchdog_factor in
  klet! c := klift (Cyclic.controller_new iface cm_mac dev_mac input_iocr output_iocr 3 (e_now env)) in
  let callbacks := {| Cyclic.on_input_data := true; Cyclic.on_input_status := true; Cyclic.on_timeout := false;
                      Cyclic.on_error := true; Cyclic.on_state_change := true |} in
  let c := Cyclic.mkController (Cyclic.interface c)
             (Cyclic.set_callbacks callbacks
                (Cyclic.set_safe_output (Some (out_slot, out_subslot, [SAFE_OUTPUT_BYTE])) (Cyclic.shared c)))
             (Cyclic.tx_thread c) (Cyclic.rx_thread c) in
  kdo! kctl c;
  kdo! kact (ASafe out_slot out_subslot [SAFE_OUTPUT_BYTE]);
  kret c.

(** Up to the release of the acyclic AR: what the takeover goes ahead with. *)
Record Cleared := {
  cl_mac : list Z;
  cl_slots : list IoSlot;
  cl_actual : Z;
  cl_out : Z * Z;
}.

Definition tier_checks (input_submodule : option (Z * Z)) (gsdml_path : string) (cycle_ms : Z)
    (exclude_zero_io require_safe_output : bool) : K T Cleared :=
  kdo! klift (validate_cycle_ms cycle_ms);
  klet! cm_mac := klift (e_mac env) in
  klet! device_slots := kconn (conn_discover_slots passes) in
  klet! gsdml := klift (e_gsdml env) in
  klet! slots := klift (build_io_slots_from_device gsdml device_slots None) in
  let slots := apply_zero_io_exclusion slots exclude_zero_io in
  klet! inp := klift (input_location gsdml_path slots input_submodule) in
  klet! declared := klift (declared_length gsdml_path slots (fst inp) (snd inp)) in
  klet! actual := preflight gsdml_path declared (fst inp) (snd inp) in
  let out := output_location slots (fst inp) (snd inp) in
  kdo! kif require_safe_output (probe_output (fst out) (snd out));
  kdo! kconn release;
  kdo! kact (ASleep 500);
  kret {| cl_mac := cm_mac; cl_slots := slots; cl_actual := actual; cl_out := out |}.

(** From the new connection to the announced tier. *)
Definition tier_rebind (iface : string) (k : Cleared) (cycle_ms watchdog_factor : Z) (secs : string) : K T (Z * Z) :=
  let out := cl_out k in
  klet! dev := klift (e_resolve env) in
  kdo! klift (e_source env);
  klet! m := klift (e_open env) in
  kdo! krebind (conn_new (o_transport m) (Dcp.device_id dev) (Dcp.vendor_id dev) (o_activity m) (o_ar m) (o_key m));
  let setup := {| io_slots := cl_slots k; su_send_clock_factor := 32; su_reduction_ratio := cycle_ms;
                  su_watchdog_factor := watchdog_factor; data_hold_factor := watchdog_factor |} in
  klet! result := kconn (connect passes (cl_mac k) CM_STATION_NAME setup) in
  if negb (has_cyclic result) then release_and_fail "cyclic IO not established by device"
  else if negb (is_rt_class_1_frame_id (r_output_frame_id result)) then
    release_and_fail ("device assigned no usable output frame ID (0x" +:+ hexu 4 (r_output_frame_id result)
      +:+ "); transmitting on it would be silently discarded")
  else
    klet! c := make_controller iface (cl_mac k) (Dcp.mac dev) (cl_slots k) result cycle_ms watchdog_factor
                 (fst out) (snd out) in
    kdo! start_controller c;
    klet! r := kattempt (let! _ := prm_end passes in application_ready passes secs) in
    match r with
    | inr e => kdo! stop_controller; release_and_fail e
    | inl _ =>
        kdo! kact (AEmit (cyclic_started_line cycle_ms (r_input_frame_id result) (r_output_frame_id result)
                            (cl_actual k) (fst out) (snd out)));
        kret out
    end.

Definition tier_body (iface : string) (input_submodule : option (Z * Z)) (gsdml_path : string)
    (cycle_ms watchdog_factor : Z) (exclude_zero_io require_safe_output : bool) (secs : string) : K T (Z * Z) :=
  klet! k := tier_checks input_submodule gsdml_path cycle_ms exclude_zero_io require_safe_output in
  tier_rebind iface k cycle_ms watchdog_factor secs.

(** The locals dropped in reverse order: the controller stops, then the
    connections release. *)
Definition drop_locals (s : Locals T) : Locals T * outcome unit :=
  match stop_controller s with
  | (s, o) =>
      (mkLocals (fst (drop_conn (l_conn s))) ((fun c => fst (drop_conn c)) <$> l_old s) (l_ctl s) (l_acts s), o)
  end.

(** [start_cyclic_tier]: on success the tier's connection and controller move
    out; the shadowed connection is dropped either way. *)
Definition start_cyclic_tier (iface : string) (conn : RpcConn T) (input_submodule : option (Z * Z))
    (gsdml_path : string) (cycle_ms watchdog_factor : Z) (exclude_zero_io require_safe_output : bool) (secs : string)
    : Locals T * outcome (CyclicTier T) :=
  match tier_body iface input_submodule gsdml_path cycle_ms watchdog_factor exclude_zero_io require_safe_output secs
          (mkLocals conn None None []) with
  | (s, Ok out) =>
      match l_ctl s with
      | Some c =>
          (mkLocals (l_conn s) ((fun c => fst (drop_conn c)) <$> l_old s) (l_ctl s) (l_acts s),
           Ok (mkTier (l_conn s) c (fst out) (snd out)))
      | None => (s, Panic)
      end
  | (s, Err e) => (fst (drop_locals s), Err e)
  | (s, Panic) => (fst (drop_locals s), Panic)
  | (s, OutOfFuel) => (s, OutOfFuel)
  end.

End Tier.

(** ** The opening of [serve] *)

Record ServeCyclic := {
  gsdml_path : string;
  cycle_ms : Z;
  sc_watchdog_factor : Z;
  exclude_zero_io_submodules : bool;
  allow_mask : Z;
  seconds : Z;
}.

(** The arm of [Serve] in [run]: the lines printed and the options. *)
Definition serve_options (cyclic : bool) (gsdml : option string) (cycle_ms watchdog_factor : Z)
    (exclude_zero_io_submodules : bool) (allow_mask : Z) (i_am_on_the_bench : bool) (seconds : Z)
    : list json * outcome (option ServeCyclic) :=
  if negb cyclic then
    if negb (allow_mask =? 0) then
      ([], Err "--allow-mask only applies to the output image, which needs --cyclic")
    else if exclude_zero_io_submodules then
      ([], Err "--exclude-zero-io-submodules only applies to the cyclic AR, which needs --cyclic")
    else ([], Ok None)
  else
    match gsdml with
    | None =>
        ([], Err ("--cyclic needs --gsdml: the submodule layout sizes the IOCRs, and "
                  +:+ "the input length is checked against the firmware before starting"))
    | Some gsdml =>
        if negb (allow_mask =? 0) && negb i_am_on_the_bench then
          ([refused_setup_line "missing --i-am-on-the-bench"],
           Err ("refusing to drive outputs: pass --i-am-on-the-bench to confirm "
                +:+ "the device is on a bench with no other IO-controller attached"))
        else
          ([], Ok (Some {| gsdml_path := gsdml; cycle_ms := cycle_ms; sc_watchdog_factor := watchdog_factor;
                           exclude_zero_io_submodules := exclude_zero_io_submodules; allow_mask := allow_mask;
                           seconds := seconds |}))
    end.

(** [cmd_serve]'s mask: nothing may be driven in read-only mode. *)
Definition effective_mask (read_only : bool) (c : option ServeCyclic) : Z :=
  match c with
  | Some c => if negb read_only then allow_mask c else 0
  | None => 0
  end.

(** What the loop runs on. *)
Record Opening (T : Type) := mkOpening {
  op_config : Serve.Config;
  op_conn : RpcConn T;
  op_ctl : option Cyclic.CyclicController;
  op_hard_exit : bool;    (** [SAFE_TO_HARD_EXIT] *)
}.
Arguments mkOpening {T}.
Arguments op_config {T}.
Arguments op_conn {T}.
Arguments op_ctl {T}.
Arguments op_hard_exit {T}.

Definition io_controller_warning : json :=
  warning_line "io_controller_mode"
    ("--cyclic claims the device's single IO AR: this process is now its "
     +:+ "IO-controller and provides the outputs. Any controller that held that "
     +:+ "AR has been displaced. Bench and commissioning only.").

Section Opening.
Context {T : Type} `{RpcTransport T} (passes : nat) (env : Env T).

(** [cmd_serve] up to the loop; [handler] and [connected] are what installing
    the signal handler and [rpc_connect] give. *)
Definition serve_opening (iface target : string) (read_only : bool) (gap_ms keepalive_ms : Z)
    (cyclic : option ServeCyclic) (secs : string) (handler : outcome unit) (connected : outcome (RpcConn T))
    : list Act * outcome (Opening T) :=
  let mask := effective_mask read_only cyclic in
  let commanding := negb (mask =? 0) in
  let config := fun cyc cycle_ms seconds out_slot out_subslot =>
    {| Serve.c_read_only := read_only; Serve.c_gap := gap_ms * 1000; Serve.c_keepalive_ms := keepalive_ms;
       Serve.c_cyclic := cyc; Serve.c_cycle_ms := cycle_ms; Serve.c_seconds := seconds;
       Serve.c_allow_mask := mask; Serve.c_out_slot := out_slot; Serve.c_out_subslot := out_subslot |} in
  match (do? handler; connected) with
  | Ok conn =>
      let hello := AEmit (hello_line target read_only gap_ms (if cyclic then true else false) mask) in
      match cyclic with
      | None => ([hello], Ok (mkOpening (config false 0 0 0 0) conn None (negb commanding)))
      | Some c =>
          let '(s, o) := start_cyclic_tier passes env iface conn None (gsdml_path c) (cycle_ms c) (sc_watchdog_factor c)
                           (exclude_zero_io_submodules c) commanding secs in
          ([hello; AEmit io_controller_warning] ++ l_acts s,
           let? tier := o in
           Ok (mkOpening (config true (cycle_ms c) (seconds c) (t_out_slot tier) (t_out_subslot tier))
                 (t_conn tier) (Some (t_cyclic tier)) (negb commanding)))
      end
  | Err e => ([], Err e)
  | Panic => ([], Panic)
  | OutOfFuel => ([], OutOfFuel)
  end.
End Opening.

(** ** Reasoning about the takeover *)

Section Tri.
Context {T : Type} `{RpcTransport T}.

(** From states satisfying [P] the computation ends in [Q] with its value, or
    stops early in [E]. *)
Definition ktri {A} (P : Locals T -> Prop) (m : K T A) (Q : A -> Locals T -> Prop) (E : Locals T -> Prop) : Prop :=
  forall s, P s -> match m s with (s', Ok a) => Q a s' | (s', _) => E s' end.

Lemma ktri_ret {A} (a : A) (P : Locals T -> Prop) (Q : A -> Locals T -> Prop) E :
  (forall s, P s -> Q a s) -> ktri P (kret a) Q E.
Proof. intros HQ s Hs. by apply HQ. Qed.
Lemma ktri_bind {A B} (m : K T A) (k : A -> K T B) P R Q E :
  ktri P m R E -> (forall a, ktri (R a) (k a) Q E) -> ktri P (kbind m k) Q E.
Proof.
  intros Hm Hk s Hs. specialize (Hm s Hs). unfold kbind.
  destruct (m s) as [s1 [a|e| |]]; [by apply Hk|done..].
Qed.
Lemma ktri_seq {A B} (m : K T A) (k : K T B) P R Q E :
  ktri P m (fun _ => R) E -> ktri R k Q E -> ktri P (kbind m (fun _ => k)) Q E.
Proof. intros Hm Hk. by eapply ktri_bind; [exact Hm|intros ?]. Qed.
(** A value the model is given, or a pure computation. *)
Lemma ktri_lift {A B} (o : outcome A) (k : A -> K T B) (P : Locals T -> Prop) Q (E : Locals T -> Prop) :
  (forall s, P s -> E s) -> (forall a, o = Ok a -> ktri P (k a) Q E) -> ktri P (kbind (klift o) k) Q E.
Proof.
  intros HE Hk s Hs. unfold kbind, klift. destruct o as [a|e| |]; [by apply (Hk a)|by apply HE..].
Qed.
Lemma ktri_fail {A} e (P : Locals T -> Prop) (Q : A -> Locals T -> Prop) (E : Locals T -> Prop) :
  (forall s, P s -> E s) -> ktri P (fail e) Q E.
Proof. intros HE s Hs. by apply HE. Qed.
Lemma ktri_act a (P : Locals T -> Prop) (Q : unit -> Locals T -> Prop) E :
  (forall s, P s -> Q tt (mkLocals (l_conn s) (l_old s) (l_ctl s) (l_acts s ++ [a]))) -> ktri P (kact a) Q E.
Proof. intros HQ s Hs. by apply HQ. Qed.
Lemma ktri_act_post a (P : Locals T -> Prop) E :
  ktri P (kact a) (fun _ s' => exists s, P s /\ s' = mkLocals (l_conn s) (l_old s) (l_ctl s) (l_acts s ++ [a])) E.
Proof. apply ktri_act. by eauto. Qed.
Lemma ktri_conn {A} (m : C (T := T) A) (P : Locals T -> Prop) (Q : A -> Locals T -> Prop) (E : Locals T -> Prop) :
  (forall s, P s -> let s' := mkLocals (fst (m (l_conn s))) (l_old s) (l_ctl s) (l_acts s) in
     match snd (m (l_conn s)) with Ok a => Q a s' | _ => E s' end) -> ktri P (kconn m) Q E.
Proof. intros HQ s Hs. specialize (HQ s Hs). unfold kconn. by destruct (m (l_conn s)) as [c [a|e| |]]. Qed.
Lemma ktri_if b (m : K T unit) (P : Locals T -> Prop) (Q : unit -> Locals T -> Prop) E :
  (b = true -> ktri P m Q E) -> (b = false -> forall s, P s -> Q tt s) -> ktri P (kif b m) Q E.
Proof. intros Ht Hf. destruct b; [by apply Ht|by apply ktri_ret, Hf]. Qed.
Lemma ktri_weaken {A} (m : K T A) (P P' : Locals T -> Prop) (Q Q' : A -> Locals T -> Prop) (E E' : Locals T -> Prop) :
  ktri P m Q E -> (forall s, P' s -> P s) -> (forall a s, Q a s -> Q' a s) -> (forall s, E s -> E' s) -> ktri P' m Q' E'.
Proof. intros Ht HP HQ HE s Hs. specialize (Ht s (HP s Hs)). destruct (m s) as [s' [a|e| |]]; auto. Qed.

(** Before the new connection: nothing has been taken over, and [known] has
    been done. *)
Definition quiet (a : Act) : Prop := match a with ASafe _ _ _ | AStart _ | AThreads _ | AStop _ => False | _ => True end.
Definition before (known : list Act) (s : Locals T) : Prop :=
  l_old s = None /\ l_ctl s = None /\ Forall quiet (l_acts s) /\ known ⊆ l_acts s.

Lemma before_nil l s : before l s -> before [] s.
Proof. intros (?&?&?&_). split_and!; try done. apply list_subseteq_nil. Qed.
Lemma before_conn l s c : before l s -> before l (mkLocals c (l_old s) (l_ctl s) (l_acts s)).
Proof. done. Qed.
Lemma before_act l s a : quiet a -> before l s ->
  before (a :: l) (mkLocals (l_conn s) (l_old s) (l_ctl s) (l_acts s ++ [a])).
Proof.
  intros Ha (?&?&Hq&Hl). split_and!; try done; cbn [l_acts].
  - apply Forall_app. split; [done|]. by constructor.
  - set_solver.
Qed.
Lemma before_act' l s a : quiet a -> before l s ->
  before l (mkLocals (l_conn s) (l_old s) (l_ctl s) (l_acts s ++ [a])).
Proof. intros Ha Hs. destruct (before_act l s a Ha Hs) as (?&?&?&?). split_and!; set_solver. Qed.

Lemma ktri_quiet_act l a : quiet a -> ktri (before l) (kact a) (fun _ => before l) (before []).
Proof. intros Ha. apply ktri_act. intros s Hs. by apply before_act'. Qed.
Lemma ktri_known_act l a : quiet a -> ktri (before l) (kact a) (fun _ => before (a :: l)) (before []).
Proof. intros Ha. apply ktri_act. intros s Hs. by apply before_act. Qed.
Lemma ktri_before_conn {A} (m : C (T := T) A) l : ktri (before l) (kconn m) (fun _ => before l) (before []).
Proof.
  apply ktri_conn. intros s Hs. cbv zeta. destruct (snd _); [exact (before_conn l s _ Hs)|..];
    by eapply before_nil, before_conn.
Qed.
Lemma ktri_read passes l i sl ss n :
  ktri (before l) (kread passes i sl ss n) (fun r => before (ARead i sl ss r :: l)) (before []).
Proof.
  intros s Hs. unfold kread, kattempt. destruct (read_raw passes i sl ss n (l_conn s)) as [c o].
  assert (Hc : before l (mkLocals c (l_old s) (l_ctl s) (l_acts s))) by done.
  destruct o as [a|e| |]; cbn; try (by eapply before_nil).
  - exact (before_act l _ (ARead i sl ss (inl a)) I Hc).
  - exact (before_act l _ (ARead i sl ss (inr e)) I Hc).
Qed.
Lemma ktri_map_err {A} f (m : K T A) P Q E : ktri P m Q E -> ktri P (kmap_err f m) Q E.
Proof. intros Hm s Hs. specialize (Hm s Hs). unfold kmap_err. by destruct (m s) as [s' [a|e| |]]. Qed.

Lemma ktri_paced passes i sl ss n k : forall first last l,
  ktri (before l) (paced_read_loop passes k first last i sl ss n) (fun d => before (ARead i sl ss (inl d) :: l)) (before []).
Proof.
  induction k as [|k IH]; intros first last l; cbn [paced_read_loop].
  { apply ktri_fail, before_nil. }
  eapply ktri_seq; [apply ktri_if; [intros _; by apply ktri_quiet_act|done]|].
  eapply ktri_seq; [by apply ktri_quiet_act|]. eapply ktri_bind; [apply ktri_read|].
  intros [d|e]; [by apply ktri_ret|]. destruct (contains _ e); [|apply ktri_fail, before_nil].
  eapply ktri_weaken; [apply (IH false e (ARead i sl ss (inr e) :: l))|done| |done].
  intros d s (?&?&?&Hl). split_and!; try done. set_solver.
Qed.
Lemma ktri_release_fail {A} e l (Q : A -> Locals T -> Prop) : ktri (before l) (release_and_fail e) Q (before []).
Proof. eapply ktri_seq; [apply ktri_before_conn|]. apply ktri_fail, before_nil. Qed.

(** Sending may fail, but it returns. *)
Hypothesis Hsend : forall b t, safe (snd (send_request b t)).

Lemma ktri_release l : ktri (before l) (kconn release) (fun _ s => before l s /\ connected (l_conn s) = false) (before []).
Proof using Hsend.
  apply ktri_conn. intros s Hs. destruct (release_down Hsend (l_conn s)) as [_ Hd]. cbv zeta.
  destruct (snd _); [by split|by eapply before_nil..].
Qed.

End Tri.

(** ** What the checks establish *)

Section Checks.
Context {T : Type} `{RpcTransport T} (passes : nat) (env : Env T).
Hypothesis Hsend : forall b t, safe (snd (send_request b t)).

Lemma ktri_ex {A X} (m : K T A) (P : X -> Locals T -> Prop) Q E :
  (forall x, ktri (P x) m Q E) -> ktri (fun s => exists x, P x s) m Q E.
Proof. intros Hm s [x Hx]. by apply (Hm x). Qed.
Lemma ktri_pure {A} (m : K T A) (F : Prop) (P : Locals T -> Prop) Q E :
  (F -> ktri P m Q E) -> ktri (fun s => P s /\ F) m Q E.
Proof. intros Hm s [Hs Hf]. by apply (Hm Hf). Qed.

(** The preflight goes ahead exactly on an input image record of the length
    the GSDML declares. *)
Lemma ktri_preflight p declared sl ss l :
  ktri (before l) (preflight passes p declared sl ss)
    (fun a s => exists d, before (ARead 0x8028 sl ss (inl d) :: l) s /\ (parse_input_data_length d = Some a /\ declared = a))
    (before []).
Proof.
  unfold preflight. eapply ktri_bind; [apply ktri_map_err, ktri_paced|intros d].
  apply ktri_lift; [apply before_nil|]. intros a Ha.
  destruct (Z.eqb_spec declared a) as [->|]; cbn [negb]; [|apply ktri_release_fail].
  apply ktri_ret. intros s Hs. exists d. split; [done|]. split; [|done].
  by destruct (parse_input_data_length d); [injection Ha as ->|].
Qed.

(** The probe goes ahead exactly on a read-back that proves the safe image. *)
Lemma ktri_probe sl ss l :
  ktri (before l) (probe_output passes sl ss)
    (fun _ s => exists d, before (ARead 0x8029 sl ss (inl d) :: l) s /\ output_is_safe d = Ok true)
    (before []).
Proof.
  unfold probe_output. eapply ktri_bind; [apply ktri_read|intros r].
  apply (ktri_bind _ _ _ (fun b s => before (ARead 0x8029 sl ss r :: l) s /\
           (b = true -> exists d, r = inl d /\ output_is_safe d = Ok true))).
  - destruct r as [d|e]; (eapply ktri_seq; [by apply ktri_quiet_act|]).
    + intros s Hs. unfold klift. destruct (output_is_safe d) as [b|e| |] eqn:Eb; [|by eapply before_nil..].
      split; [exact Hs|]. intros ->. by exists d.
    + by apply ktri_ret.
  - intros b. apply ktri_pure. intros Hb. destruct b; cbn [negb].
    + destruct (Hb eq_refl) as (d & -> & Hd). apply ktri_ret. by exists d.
    + eapply ktri_seq; [apply ktri_before_conn|]. eapply ktri_seq; [by apply ktri_quiet_act|].
      apply ktri_fail, before_nil.
Qed.

(** What the takeover goes ahead on: the device's own submodules laid out by
    the GSDML, the input image record of the submodule verified, of the
    declared length, and, before outputs are driven, an output read-back that
    proves the safe image. *)
Definition gated (conn : RpcConn T) (input_submodule : option (Z * Z)) (gsdml_path : string)
    (exclude_zero_io require_safe_output : bool) (k : Cleared) (acts : list Act) : Prop :=
  exists device_slots gsdml all inp record,
    snd (conn_discover_slots passes conn) = Ok device_slots /\ e_gsdml env = Ok gsdml /\
    build_io_slots_from_device gsdml device_slots None = Ok all /\
    cl_slots k = apply_zero_io_exclusion all exclude_zero_io /\
    input_location gsdml_path (cl_slots k) input_submodule = Ok inp /\
    declared_length gsdml_path (cl_slots k) (fst inp) (snd inp) = Ok (cl_actual k) /\
    ARead 0x8028 (fst inp) (snd inp) (inl record) ∈ acts /\
    parse_input_data_length record = Some (cl_actual k) /\
    cl_out k = output_location (cl_slots k) (fst inp) (snd inp) /\
    (require_safe_output = true ->
      exists d, ARead 0x8029 (fst (cl_out k)) (snd (cl_out k)) (inl d) ∈ acts /\ output_is_safe d = Ok true).

Lemma ktri_checks conn inp p cyc ex req :
  ktri (fun s => s = mkLocals conn None None []) (tier_checks passes env inp p cyc ex req)
    (fun k s => before [] s /\ connected (l_conn s) = false /\ e_mac env = Ok (cl_mac k) /\
                gated conn inp p ex req k (l_acts s))
    (before []).
Proof using Hsend.
  assert (Hi : forall s, s = mkLocals conn None None [] -> before [] s) by (by intros s ->).
  unfold tier_checks. apply ktri_lift; [exact Hi|intros _ _]. apply ktri_lift; [exact Hi|intros cm Hcm].
  apply (ktri_bind _ _ _ (fun ds s => before [] s /\ snd (conn_discover_slots passes conn) = Ok ds)).
  { apply ktri_conn. intros s ->. cbn [l_conn]. by destruct (snd (conn_discover_slots passes conn)). }
  intros ds. apply ktri_pure. intros Hds. apply ktri_lift; [apply before_nil|intros g Hg].
  apply ktri_lift; [apply before_nil|intros all Hall]. cbv zeta. set (slots := apply_zero_io_exclusion all ex).
  apply ktri_lift; [apply before_nil|intros [isl iss] Hinp]. cbn [fst snd].
  apply ktri_lift; [apply before_nil|intros declared Hdec].
  eapply ktri_bind; [apply ktri_preflight|intros a]. apply ktri_ex. intros record. apply ktri_pure. intros [Ha ->].
  set (out := output_location slots isl iss). set (rd := ARead 0x8028 isl iss (inl record)).
  apply (ktri_seq _ _ _ (fun s => before [rd] s /\ (req = true ->
    exists d, ARead 0x8029 (fst out) (snd out) (inl d) ∈ l_acts s /\ output_is_safe d = Ok true))).
  { apply ktri_if; [intros Hr|by intros -> s Hs].
    eapply ktri_weaken; [apply (ktri_probe _ _ [rd])|done| |done].
    intros _ s (d & (H1 & H2 & H3 & H4) & Hd). split; [split_and!; set_solver|]. intros _. exists d. set_solver. }
  apply (ktri_seq _ _ _ (fun s => (before [rd] s /\ connected (l_conn s) = false) /\ (req = true ->
    exists d, ARead 0x8029 (fst out) (snd out) (inl d) ∈ l_acts s /\ output_is_safe d = Ok true))).
  { apply ktri_conn. intros s [Hs Hp]. destruct (release_down Hsend (l_conn s)) as [_ Hd]. cbv beta zeta.
    destruct (snd (release _)); [split; [split|]; [exact (before_conn _ _ _ Hs)|done..]
                      |exact (before_nil _ _ (before_conn _ _ _ Hs))..]. }
  eapply ktri_seq; [apply ktri_act_post|].
  apply ktri_ret. intros s' (s & [[Hs Hc] Hp] & ->). cbn [l_conn l_acts].
  split; [by eapply before_nil, before_act'|]. split; [done|]. split; [done|].
  exists ds, g, all, (isl, iss), record. cbn [fst snd cl_slots cl_actual cl_out]. fold slots out.
  destruct Hs as (_ & _ & _ & Hl). split_and!; try done; [set_solver|].
  intros Hr. destruct (Hp Hr) as (d & Hin & Hd). exists d. set_solver.
Qed.

End Checks.

(** ** From the new connection on *)

Section Rebind.
Context {T : Type} `{RpcTransport T} (passes : nat) (env : Env T).
Hypothesis Hsend : forall b t, safe (snd (send_request b t)).
(** Addresses are [\[u8; 6\]]. *)
Hypothesis Hmac : forall m, e_mac env = Ok m -> length m = 6%nat.
Hypothesis Hdev : forall d, e_resolve env = Ok d -> length (Dcp.mac d) = 6%nat.

(** The state after the new connection was made, from [s0]. *)
Definition after (s0 : Locals T) (up : bool) (ctl : option Cyclic.CyclicController) (acts : list Act)
    (s : Locals T) : Prop :=
  l_old s = Some (l_conn s0) /\ connected (l_conn s) = up /\ l_ctl s = ctl /\ l_acts s = l_acts s0 ++ acts.
(** What an early return leaves. *)
Definition left_off (s0 s : Locals T) : Prop :=
  s = s0 \/
  (l_old s = Some (l_conn s0) /\ (forall c, l_ctl s = Some c -> Cyclic.shared_ok (Cyclic.shared c)) /\
   exists acts, l_acts s = l_acts s0 ++ acts).

Definition ctl_ok (c : option Cyclic.CyclicController) : Prop :=
  forall c', c = Some c' -> Cyclic.shared_ok (Cyclic.shared c').

Lemma after_left s0 up ctl acts s : ctl_ok ctl -> after s0 up ctl acts s -> left_off s0 s.
Proof. intros Hc (Ho & _ & Hl & Ha). right. rewrite Ho, Hl. eauto. Qed.

Lemma ktri_after_fail {A} e s0 up ctl acts (Q : A -> Locals T -> Prop) :
  ctl_ok ctl -> ktri (after s0 up ctl acts) (fail e) Q (left_off s0).
Proof. intros Hc. apply ktri_fail. intros s Hs. exact (after_left s0 up ctl acts s Hc Hs). Qed.
(** A call on the connection whose success tells whether the AR is up. *)
Lemma ktri_after_conn {A} (m : C (T := T) A) s0 up up' ctl acts :
  ctl_ok ctl -> (forall c a, connected c = up -> snd (m c) = Ok a -> connected (fst (m c)) = up') ->
  ktri (after s0 up ctl acts) (kconn m) (fun _ => after s0 up' ctl acts) (left_off s0).
Proof.
  intros Hc Hm. apply ktri_conn. intros s (Ho & Hup & Hl & Ha). cbv beta zeta.
  assert (Hleft : left_off s0 (mkLocals (fst (m (l_conn s))) (l_old s) (l_ctl s) (l_acts s))).
  { right. cbn. rewrite Ho, Hl. eauto. }
  destruct (snd (m (l_conn s))) as [a|e| |] eqn:E; [|exact Hleft..].
  split_and!; try done. by apply (Hm _ a).
Qed.
Lemma ktri_after_release_fail {A} e s0 up ctl acts (Q : A -> Locals T -> Prop) :
  ctl_ok ctl -> ktri (after s0 up ctl acts) (release_and_fail e) Q (left_off s0).
Proof using Hsend.
  intros Hc. eapply ktri_seq; [|exact (ktri_after_fail e s0 false ctl acts Q Hc)].
  apply ktri_after_conn; [done|]. intros c _ _ _. by apply (release_down Hsend).
Qed.
Lemma ktri_after_act a s0 up ctl acts :
  ktri (after s0 up ctl acts) (kact a) (fun _ => after s0 up ctl (acts ++ [a])) (left_off s0).
Proof. apply ktri_act. intros s (? & ? & ? & Ha). split_and!; try done. cbn. by rewrite Ha, <- app_assoc. Qed.
Lemma ktri_after_ctl c s0 up ctl acts :
  ktri (after s0 up ctl acts) (kctl c) (fun _ => after s0 up (Some c) acts) (left_off s0).
Proof. by intros s (? & ? & ? & Ha). Qed.
Lemma ktri_after_lift {A B} (o : outcome A) (k : A -> K T B) s0 up ctl acts Q :
  ctl_ok ctl -> (forall a, o = Ok a -> ktri (after s0 up ctl acts) (k a) Q (left_off s0)) ->
  ktri (after s0 up ctl acts) (kbind (klift o) k) Q (left_off s0).
Proof. intros Hc Hk. apply ktri_lift; [intros s Hs; exact (after_left s0 up ctl acts s Hc Hs)|done]. Qed.

(** The controller is made with the safe image registered. *)
Lemma ktri_make iface cm_mac dev_mac slots r cyc wf os oss s0 up :
  length cm_mac = 6%nat -> length dev_mac = 6%nat -> is_rt_class_1_frame_id (r_output_frame_id r) = true ->
  ktri (after s0 up None []) (make_controller env iface cm_mac dev_mac slots r cyc wf os oss)
    (fun c s => after s0 up (Some c) [ASafe os oss [SAFE_OUTPUT_BYTE]] s /\
       (Cyclic.shared_ok (Cyclic.shared c) /\ Cyclic.safe_output (Cyclic.shared c) = Some (os, oss, [SAFE_OUTPUT_BYTE])))
    (left_off s0).
Proof.
  intros Hcm Hdm Hid. unfold make_controller.
  destruct (build_iocr_configs_ok slots (r_input_frame_id r) (r_output_frame_id r) 32 cyc wf) as (Hi & Ho & _ & _).
  assert (Hf : c_frame_id (snd (build_iocr_configs slots (r_input_frame_id r) (r_output_frame_id r) 32 cyc wf))
               = r_output_frame_id r).
  { unfold build_iocr_configs. by repeat case_match. }
  destruct (build_iocr_configs _ _ _ _ _ _) as [cin cout]. cbn [fst snd] in *.
  apply ktri_after_lift; [done|]. intros c Hc.
  assert (Hfo : u16_ok (c_frame_id cout)).
  { rewrite Hf. revert Hid. unfold is_rt_class_1_frame_id, FRAME_ID_RT_CLASS_1_MIN, FRAME_ID_RT_CLASS_1_MAX, u16_ok. lia. }
  pose proof (Cyclic.controller_new_ok _ _ _ _ _ _ _ c Hcm Hdm Hi Ho Hfo Hc) as Hs. cbv zeta.
  eapply ktri_seq; [apply ktri_after_ctl|]. eapply ktri_seq; [apply ktri_after_act|]. apply ktri_ret.
  intros s Hs0. split; [exact Hs0|]. cbn [Cyclic.shared]. split; [|done].
  destruct Hs; constructor; cbn; auto. intros sl ss d [= <- <- <-]. repeat constructor; unfold byte_ok, SAFE_OUTPUT_BYTE; lia.
Qed.

Lemma ktri_start c s0 up acts : Cyclic.shared_ok (Cyclic.shared c) ->
  ktri (after s0 up (Some c) acts) (start_controller env c)
    (fun _ s => exists p, after s0 up (Some (fst p)) (acts ++ [AStart (snd p)]) s /\
       (Cyclic.shared_ok (Cyclic.shared (fst p)) /\ Cyclic.running (Cyclic.shared (fst p)) = true /\
        Cyclic.safe_output (Cyclic.shared (fst p)) = Cyclic.safe_output (Cyclic.shared c)))
    (left_off s0).
Proof.
  intros Hs. unfold start_controller.
  destruct (total_Ok _ _ (Cyclic.start_total c (e_now env) (e_open_tx env) (e_open_rx env) (e_spawn_tx env)
                            (e_spawn_rx env) Hs)) as ([[err c'] ev] & E & Hs' & Hf & Hr).
  apply ktri_after_lift; [by intros ? [= <-]|]. intros r Er. rewrite E in Er. injection Er as <-.
  eapply ktri_seq; [apply ktri_after_ctl|]. eapply ktri_seq; [apply ktri_after_act|]. destruct err as [e|].
  - apply ktri_after_fail. by intros ? [= <-].
  - apply ktri_ret. intros s Ha. exists (c', ev). cbn [fst snd]. split; [exact Ha|]. auto.
Qed.

Lemma ktri_stop c s0 up acts : Cyclic.shared_ok (Cyclic.shared c) ->
  ktri (after s0 up (Some c) acts) (stop_controller env)
    (fun _ s => exists p, after s0 up (Some (fst p)) (acts ++ [AStop (snd p)]) s /\
       Cyclic.shared_ok (Cyclic.shared (fst p)))
    (left_off s0).
Proof.
  intros Hs s Ha. pose proof Ha as (_ & _ & Hl & _). unfold stop_controller. rewrite Hl. revert s Ha Hl.
  destruct (total_Ok _ _ (Cyclic.stop_down c (e_joined env) (e_sends env) Hs)) as ([c' ev] & E & Hs' & _).
  intros s Ha _. apply (fun H => ktri_after_lift (Cyclic.stop c (e_joined env) (e_sends env)) _ s0 up (Some c) acts _
    (fun _ E => match E with eq_refl => Hs end) H s Ha).
  intros r Er. rewrite E in Er. injection Er as <-. cbn [fst snd].
  eapply ktri_seq; [apply ktri_after_ctl|]. eapply ktri_weaken; [apply ktri_after_act|done| |done].
  intros ? s' Hs1. by exists (c', ev).
Qed.

(** What a tier stands on. *)
Definition established (s0 : Locals T) (out : Z * Z) (s : Locals T) : Prop :=
  exists c ev j, after s0 true (Some c) [ASafe (fst out) (snd out) [SAFE_OUTPUT_BYTE]; AStart ev; AEmit j] s /\
    Cyclic.running (Cyclic.shared c) = true /\
    Cyclic.safe_output (Cyclic.shared c) = Some (fst out, snd out, [SAFE_OUTPUT_BYTE]).

Lemma ktri_rebind iface k cyc wf secs s0 :
  l_old s0 = None -> l_ctl s0 = None -> e_mac env = Ok (cl_mac k) ->
  ktri (fun s => s = s0) (tier_rebind passes env iface k cyc wf secs)
    (fun out s => out = cl_out k /\ established s0 out s) (left_off s0).
Proof using Hsend Hmac Hdev.
  intros H0 Hc0 Hk. assert (Hleft : forall s, s = s0 -> left_off s0 s) by (by left). unfold tier_rebind.
  apply ktri_lift; [exact Hleft|intros dev Hd]. apply ktri_lift; [exact Hleft|intros _ _].
  apply ktri_lift; [exact Hleft|intros m Hm].
  apply (ktri_seq _ _ _ (after s0 false None [])).
  { intros s ->. split_and!; try done. cbn. by rewrite app_nil_r. }
  cbv zeta. eapply ktri_bind.
  { apply (ktri_after_conn _ s0 false true); [done|]. intros c a Hc Ha.
    match goal with |- context [connect ?p ?m ?n ?s] => destruct (ups_connect p m n s c) as [_ Hu] end.
    rewrite Hu, Ha, Hc. done. }
  intros result. destruct (has_cyclic result); cbn [negb]; [|by apply ktri_after_release_fail].
  destruct (is_rt_class_1_frame_id _) eqn:Hid; cbn [negb]; [|by apply ktri_after_release_fail].
  eapply ktri_bind; [apply ktri_make; auto|]. intros c. apply ktri_pure. intros [Hs Hsafe].
  eapply ktri_seq; [by apply ktri_start|]. apply ktri_ex. intros [c' ev]. cbn [fst snd].
  apply ktri_pure. intros (Hs' & Hr & Hsafe').
  eapply (ktri_bind _ _ _ (fun _ => after s0 true (Some c') ([ASafe _ _ [SAFE_OUTPUT_BYTE]] ++ [AStart ev]))).
  { intros s Ha. unfold kattempt.
    match goal with |- context [cbind ?m1 ?m2 (l_conn s)] =>
      assert (Hst : stays (T := T) (cbind m1 m2)) end.
    { unfold application_ready, prm_end. stays_auto. }
    destruct (Hst (l_conn s)) as [_ Hup]. destruct Ha as (Ho & Hu & Hl & Ha).
    match goal with |- context [cbind ?m1 ?m2 (l_conn s)] => destruct (cbind m1 m2 (l_conn s)) as [c1 [a|e| |]] end;
      cbn [fst] in Hup.
    1-2: split_and!; try done; cbn; congruence.
    all: right; cbn; rewrite Ho, Hl; split; [done|]; split; [by intros ? [= <-]|eauto]. }
  intros [u|e].
  - eapply ktri_seq; [apply ktri_after_act|]. apply ktri_ret. intros s Ha. split; [done|].
    eexists c', ev, _. split; [exact Ha|]. split; [done|]. congruence.
  - eapply ktri_seq; [by apply ktri_stop|]. apply ktri_ex. intros [c'' ev']. cbn [fst snd].
    apply ktri_pure. intros Hs''. apply ktri_after_release_fail. by intros ? [= <-].
Qed.

End Rebind.

(** ** The whole takeover *)

Section Whole.
Context {T : Type} `{RpcTransport T} (passes : nat) (env : Env T).
Hypothesis Hsend : forall b t, safe (snd (send_request b t)).
Hypothesis Hmac : forall m, e_mac env = Ok m -> length m = 6%nat.
Hypothesis Hdev : forall d, e_resolve env = Ok d -> length (Dcp.mac d) = 6%nat.

(** The state at the release of the acyclic AR. *)
Definition cleared conn inp p ex req (k : Cleared) (s0 : Locals T) : Prop :=
  before [] s0 /\ connected (l_conn s0) = false /\ gated passes env conn inp p ex req k (l_acts s0).

Lemma ktri_body iface conn inp p cyc wf ex req secs :
  ktri (fun s => s = mkLocals conn None None []) (tier_body passes env iface inp p cyc wf ex req secs)
    (fun out s => exists k s0, cleared conn inp p ex req k s0 /\ out = cl_out k /\ established s0 out s)
    (fun s => before [] s \/ exists k s0, cleared conn inp p ex req k s0 /\ left_off s0 s).
Proof using Hsend Hmac Hdev.
  unfold tier_body. eapply ktri_bind.
  { eapply ktri_weaken; [by apply ktri_checks|exact (fun s Hs => Hs)|exact (fun a s Hs => Hs)|]. intros s Hs. by left. }
  intros k s (Hb & Hd & Hm & Hg). pose proof Hb as (Ho & Hc & _).
  pose proof (ktri_rebind passes env Hsend Hmac Hdev iface k cyc wf secs s Ho Hc Hm s eq_refl) as Hr.
  assert (Hcl : cleared conn inp p ex req k s) by done.
  destruct (tier_rebind _ _ _ _ _ _ _ s) as [s' [a|e| |]]; [destruct Hr as [-> Hr]|..]; eauto 6.
Qed.

(** Dropping the locals stops the controller and releases the connections. *)
Lemma drop_locals_down s : ctl_ok (l_ctl s) ->
  let s' := fst (drop_locals env s) in
  connected (l_conn s') = false /\
  l_old s' = (fun c => fst (drop_conn c)) <$> l_old s /\
  (forall old, l_old s' = Some old -> connected old = false) /\
  (forall c, l_ctl s' = Some c -> Cyclic.running (Cyclic.shared c) = false) /\
  (l_ctl s = None -> l_ctl s' = None /\ l_acts s' = l_acts s) /\
  exists acts, l_acts s' = l_acts s ++ acts.
Proof using Hsend.
  intros Hc. unfold drop_locals, stop_controller.
  assert (Hold : forall old, ((fun c => fst (drop_conn c)) <$> l_old s) = Some old -> connected old = false).
  { intros old. destruct (l_old s); [|done]. intros [= <-]. by apply (release_down Hsend). }
  destruct (l_ctl s) as [c|] eqn:E.
  - destruct (total_Ok _ _ (Cyclic.stop_down c (e_joined env) (e_sends env) (Hc c eq_refl))) as ([c' ev] & E' & _ & Hr).
    unfold kbind at 1, klift. rewrite E'. cbn. split_and!; [by apply (release_down Hsend)|done|done| |done|eauto].
    by intros ? [= <-].
  - cbn [fst l_conn l_old l_ctl l_acts]. split_and!; [by apply (release_down Hsend)|done|exact Hold|by rewrite E|done|].
    exists []. by rewrite app_nil_r.
Qed.

(** What an early return leaves, dropped as the locals are. *)
Lemma left_off_ctl (s0 s : Locals T) : l_ctl s0 = None -> left_off s0 s -> ctl_ok (l_ctl s).
Proof. intros H0 [->|(_ & Hc & _)]; [by rewrite H0|exact Hc]. Qed.

(** No connection of its own, and nothing done to the device's outputs; or
    the gate opened before anything else was done, and the acyclic AR is down. *)
Definition behind_gate conn inp p ex req (s : Locals T) (out : option (Z * Z)) : Prop :=
  match l_old s with
  | None => l_ctl s = None /\ Forall quiet (l_acts s) /\ out = None
  | Some old =>
      connected old = false /\
      exists k checked rest, l_acts s = checked ++ rest /\ Forall quiet checked /\
        gated passes env conn inp p ex req k checked /\ (out = None \/ out = Some (cl_out k))
  end.

Lemma left_off_gate conn inp p ex req s :
  before [] s \/ (exists k s0, cleared conn inp p ex req k s0 /\ left_off s0 s) ->
  ctl_ok (l_ctl s) /\ behind_gate conn inp p ex req s None /\
  behind_gate conn inp p ex req (fst (drop_locals env s)) None.
Proof using Hsend.
  intros Hb. assert (Hc : ctl_ok (l_ctl s)).
  { destruct Hb as [(_ & Hl & _)|(k & s0 & ((_ & Hc0 & _) & _) & Hlo)]; [by rewrite Hl|].
    exact (left_off_ctl s0 s Hc0 Hlo). }
  split; [done|]. destruct (drop_locals_down s Hc) as (_ & Ho' & Hold & _ & Hn & acts & Ha').
  unfold behind_gate.
  destruct Hb as [(Ho & Hl & Hq & _)|(k & s0 & ((Ho & Hc0 & Hq & _) & Hcd & Hg) & [->|(Ho1 & _ & acts1 & Ha1)])].
  1-2: rewrite Ho', Ho; match type of Ho with l_old ?x = _ => destruct (Hn ltac:(done)) as [-> ->] end; done.
  rewrite Ho1, Ha1, Ha'. split.
  - split; [done|]. exists k, (l_acts s0), acts1. split_and!; auto.
  - destruct (l_old (fst _)) as [old|] eqn:Eo; [|by rewrite Ho1 in Ho'].
    split; [by apply Hold|]. exists k, (l_acts s0), (acts1 ++ acts). rewrite Ha1, <- app_assoc. by split_and!; auto.
Qed.

End Whole.

(** C2: Nothing is taken over unless the gate has opened.  Whatever the
    device, the network and the system do, a run of [start_cyclic_tier] that
    got to a connection of its own had first, in this order, discovered the
    device's submodules, laid them out by the GSDML, read an input image record
    (0x8028) of exactly the declared length, and, when outputs will be driven,
    read back an output (0x8029) that proves the safe image; the acyclic AR was
    then released.  A run that did not started no controller, registered no
    safe output and did not succeed. *)
Theorem takeover_is_gated {T} `{RpcTransport T} passes (env : Env T) iface conn inp p cyc wf ex req secs :
  (forall b t, safe (snd (send_request b t))) ->
  (forall m, e_mac env = Ok m -> length m = 6%nat) ->
  (forall d, e_resolve env = Ok d -> length (Dcp.mac d) = 6%nat) ->
  let '(s, o) := start_cyclic_tier passes env iface conn inp p cyc wf ex req secs in
  behind_gate passes env conn inp p ex req s (match o with Ok tier => Some (t_out_slot tier, t_out_subslot tier) | _ => None end).
Proof.
  intros Hs Hm Hd. unfold start_cyclic_tier.
  pose proof (ktri_body passes env Hs Hm Hd iface conn inp p cyc wf ex req secs _ eq_refl) as Hb.
  destruct (tier_body _ _ _ _ _ _ _ _ _ _ _) as [s [out|e| |]]; [|by apply left_off_gate..].
  destruct Hb as (k & s0 & ((_ & _ & Hq & _) & _ & Hg) & -> & c & ev & j & (Ho & Hup & Hl & Ha) & _).
  rewrite Hl. unfold behind_gate. cbn [l_old l_acts]. rewrite Ho. cbn [fmap option_fmap option_map].
  split; [by apply (release_down Hs)|].
  exists k, (l_acts s0), [ASafe (fst (cl_out k)) (snd (cl_out k)) [SAFE_OUTPUT_BYTE]; AStart ev; AEmit j].
  split_and!; [done..|]. right. by destruct (cl_out k).
Qed.

(** C11: A takeover is whole or undone.  On success the new AR is up, the
    controller runs with the safe image registered for the output the gate
    named, and the only things done since the gate were registering it,
    starting, and announcing, in that order.  On failure, after the locals are
    dropped, both ARs are down and a controller that was made has stopped,
    whatever failed: the name's resolution, the Connect, a device that
    establishes no cyclic data or assigns no usable frame ID, the sockets and
    threads, the end of parameterization or the application-ready. *)
Theorem takeover_is_whole {T} `{RpcTransport T} passes (env : Env T) iface conn inp p cyc wf ex req secs :
  (forall b t, safe (snd (send_request b t))) ->
  (forall m, e_mac env = Ok m -> length m = 6%nat) ->
  (forall d, e_resolve env = Ok d -> length (Dcp.mac d) = 6%nat) ->
  let '(s, o) := start_cyclic_tier passes env iface conn inp p cyc wf ex req secs in
  match o with
  | Ok tier =>
      connected (t_conn tier) = true /\ Cyclic.running (Cyclic.shared (t_cyclic tier)) = true /\
      Cyclic.safe_output (Cyclic.shared (t_cyclic tier))
        = Some (t_out_slot tier, t_out_subslot tier, [SAFE_OUTPUT_BYTE]) /\
      exists checked ev j, Forall quiet checked /\
        l_acts s = checked ++ [ASafe (t_out_slot tier) (t_out_subslot tier) [SAFE_OUTPUT_BYTE]; AStart ev; AEmit j]
  | OutOfFuel => True
  | _ =>
      connected (l_conn s) = false /\ (forall old, l_old s = Some old -> connected old = false) /\
      forall c, l_ctl s = Some c -> Cyclic.running (Cyclic.shared c) = false
  end.
Proof.
  intros Hs Hm Hd. unfold start_cyclic_tier.
  pose proof (ktri_body passes env Hs Hm Hd iface conn inp p cyc wf ex req secs _ eq_refl) as Hb.
  destruct (tier_body _ _ _ _ _ _ _ _ _ _ _) as [s [out|e| |]]; [| | |done].
  - destruct Hb as (k & s0 & ((_ & _ & Hq & _) & _) & -> & c & ev & j & (Ho & Hup & Hl & Ha) & Hr & Hsafe).
    rewrite Hl. cbn [t_conn t_cyclic t_out_slot t_out_subslot l_acts]. split_and!; [done..|]. by exists (l_acts s0), ev, j.
  - destruct (left_off_gate passes env Hs _ _ _ _ _ _ Hb) as [Hc _].
    by destruct (drop_locals_down env Hs s Hc) as (H1 & _ & H2 & H3 & _).
  - destruct (left_off_gate passes env Hs _ _ _ _ _ _ Hb) as [Hc _].
    by destruct (drop_locals_down env Hs s Hc) as (H1 & _ & H2 & H3 & _).
Qed.

(** ** A takeover that succeeds *)

(** A device with one submodule of two input bytes and an output byte: its
    answers to the checks, on the acyclic AR, and to the new Connect. *)
Definition reply (au : list Z) (seq op : Z) (d : list Z) : list Z :=
  rpc_bytes (response_header (request_header (object_uuid 0 0 0 0) IFACE_UUID_DEVICE au seq op [])
    (be32_bytes 0 ++ be32_bytes (len d) ++ be32_bytes (len d) ++ be32_bytes 0 ++ be32_bytes (len d) ++ d)).
Definition read_reply (au : list Z) (seq : Z) (record : list Z) : list Z := reply au seq READ (rep 64 0 ++ record).

Definition demo_device_slots : list Z :=
  [0xF0; 0; 0; 22; 1; 1] ++ be16_bytes 1 ++ be32_bytes 0 ++ be16_bytes 1
  ++ be16_bytes 1 ++ be32_bytes 7 ++ be16_bytes 1 ++ be16_bytes 1 ++ be32_bytes 9.
Definition demo_input_record (n : Z) : list Z :=
  [0; 21; 0; 4; 1; 0] ++ [1; 0x80] ++ [1; 0x80] ++ be16_bytes n ++ rep n 5.
Definition demo_output_record (b : Z) : list Z := output_record 0 [0x80] [0x80] [b] [1; 0].

Definition demo_gsdml : GsdmlDevice :=
  {| gd_vendor_id := 0x2A; gd_device_id := 1;
     daps := [ {| dap_id_ := "DAP"; dap_module_ident := 1; dap_submodules := []; system_submodules := [];
                  useable_modules := [] |} ];
     modules := [ {| gm_id := "IO"; gm_module_ident := 7;
                     gm_submodules := [ {| gs_id := "S"; gs_submodule_ident := 9; gs_input_length := 2;
                                           gs_output_length := 1 |} ];
                     useable_submodules := [] |} ];
     submodule_catalog := [] |}.

Definition demo_script (responses ccontrol : list (list Z)) : Script :=
  {| s_responses := responses; s_ccontrol := ccontrol; s_sent := []; s_replies := [] |}.

(** The acyclic AR; [n] is the length of the device's input image, [b] its output byte. *)
Definition demo_conn (n b : Z) : RpcConn Script :=
  with_connected true (conn_new (demo_script
    [read_reply (rep 16 1) 0 demo_device_slots; read_reply (rep 16 1) 1 (demo_input_record n);
     read_reply (rep 16 1) 2 (demo_output_record b)] []) 1 0x2A (rep 16 1) (rep 16 2) 3).

Definition demo_opened : Opened Script :=
  mkOpened (demo_script
    [reply (rep 16 4) 0 CONNECT (concat (res_bytes <$> [IocrRes 1 1 0x8002 []; IocrRes 2 2 0x8001 []]));
     reply (rep 16 4) 1 CONTROL []] [rpc_bytes sample_ccontrol]) (rep 16 4) (rep 16 5) 6.

Definition demo_env (opened : outcome (Opened Script)) (spawn_rx : option string) : Env Script :=
  mkEnv (Ok (rep 6 1)) (Ok demo_gsdml) (Ok (Dcp.default_device (rep 6 2))) (Ok [192; 168; 0; 2]) opened
    0 None None None spawn_rx true (fun _ => true).

Definition demo_takeover (n b : Z) (opened : outcome (Opened Script)) (spawn_rx : option string)
    : Locals Script * outcome (CyclicTier Script) :=
  start_cyclic_tier 5 (demo_env opened spawn_rx) "eth0" (demo_conn n b) None "demo.xml" 32 3 false true "10".

(** The gate opens, and the tier stands; a firmware with a longer input image
    is refused before anything is given up but the acyclic AR. *)
Example takeover_is_gated_witness :
  (exists old, l_old (fst (demo_takeover 2 0 (Ok demo_opened) None)) = Some old /\ connected old = false) /\
  l_ctl (fst (demo_takeover 3 0 (Ok demo_opened) None)) = None.
Proof.
  assert (Hg : forall n, let '(s, o) := demo_takeover n 0 (Ok demo_opened) None in
    behind_gate 5 (demo_env (Ok demo_opened) None) (demo_conn n 0) None "demo.xml" false true s
      (match o with Ok tier => Some (t_out_slot tier, t_out_subslot tier) | _ => None end)).
  { intros n. exact (takeover_is_gated (H := script_transport) 5 (demo_env (Ok demo_opened) None) "eth0" (demo_conn n 0)
      None "demo.xml" 32 3 false true "10" (fun _ _ => I) ltac:(by intros m [= <-]) ltac:(by intros d [= <-])). }
  split; [specialize (Hg 2)|specialize (Hg 3)].
  - assert (Ho : exists old, l_old (fst (demo_takeover 2 0 (Ok demo_opened) None)) = Some old)
      by (eexists; vm_compute; reflexivity).
    destruct Ho as [old Ho]. exists old. split; [exact Ho|].
    destruct (demo_takeover 2 0 (Ok demo_opened) None) as [s o]. cbn [fst] in Ho. unfold behind_gate in Hg.
    rewrite Ho in Hg. exact (proj1 Hg).
  - assert (Ho : l_old (fst (demo_takeover 3 0 (Ok demo_opened) None)) = None) by (vm_compute; reflexivity).
    destruct (demo_takeover 3 0 (Ok demo_opened) None) as [s o]. cbn [fst] in *. unfold behind_gate in Hg.
    rewrite Ho in Hg. exact (proj1 Hg).
Defined.

(** The tier of that device, and the same takeover without a thread for the
    receiver: everything made is undone. *)
Example takeover_is_whole_witness :
  (exists tier, snd (demo_takeover 2 0 (Ok demo_opened) None) = Ok tier /\
     Cyclic.safe_output (Cyclic.shared (t_cyclic tier)) = Some (1, 1, [0])) /\
  (let s := fst (demo_takeover 2 0 (Ok demo_opened) (Some "no threads")) in
   connected (l_conn s) = false /\ exists c, l_ctl s = Some c /\ Cyclic.running (Cyclic.shared c) = false).
Proof.
  assert (Hw : forall rx, let '(s, o) := demo_takeover 2 0 (Ok demo_opened) rx in
    match o with
    | Ok tier => Cyclic.safe_output (Cyclic.shared (t_cyclic tier))
                 = Some (t_out_slot tier, t_out_subslot tier, [SAFE_OUTPUT_BYTE])
    | OutOfFuel => True
    | _ => connected (l_conn s) = false /\
           forall c, l_ctl s = Some c -> Cyclic.running (Cyclic.shared c) = false
    end).
  { intros rx. pose proof (takeover_is_whole (H := script_transport) 5 (demo_env (Ok demo_opened) rx) "eth0" (demo_conn 2 0)
      None "demo.xml" 32 3 false true "10" (fun _ _ => I) ltac:(by intros m [= <-]) ltac:(by intros d [= <-])) as Hw.
    unfold demo_takeover. destruct (start_cyclic_tier _ _ _ _ _ _ _ _ _ _ _) as [s [tier|e| |]]; 
      [by destruct Hw as (_ & _ & Hs & _)|by destruct Hw as (H1 & _ & H3)..|done]. }
  split; [specialize (Hw None)|specialize (Hw (Some "no threads"))].
  - assert (Ho : exists tier, snd (demo_takeover 2 0 (Ok demo_opened) None) = Ok tier /\
                   (t_out_slot tier, t_out_subslot tier) = (1, 1)) by (eexists; vm_compute; split; reflexivity).
    destruct Ho as (tier & Ho & Hout). exists tier. split; [exact Ho|].
    destruct (demo_takeover 2 0 (Ok demo_opened) None) as [s o]. cbn [snd] in Ho. subst o.
    injection Hout as H1 H2. rewrite H1, H2 in Hw. exact Hw.
  - assert (Ho : (exists e, snd (demo_takeover 2 0 (Ok demo_opened) (Some "no threads")) = Err e) /\
                 exists c, l_ctl (fst (demo_takeover 2 0 (Ok demo_opened) (Some "no threads"))) = Some c)
      by (split; eexists; vm_compute; reflexivity).
    destruct Ho as [[e Ho] [c Hc]]. destruct (demo_takeover 2 0 (Ok demo_opened) (Some "no threads")) as [s o].
    cbn [fst snd] in *. subst o. destruct Hw as (H1 & H3). split; [exact H1|]. exists c. split; [exact Hc|by apply H3].
Defined.

(** ** Consent *)

(** Outputs are only ever driven on request and behind the probe.  When
    the arguments of [serve] and its opening lead to a loop that may write a
    bit, the session was asked for with [--cyclic], a GSDML, the bench flag and
    without [--read-only]; the bits are those of [--allow-mask]; the safe image
    is registered with a running controller, a record 0x8029 read back before
    the takeover proved the output safe, and a second signal will not abandon
    the process.  Without a bit to write it will. *)
Theorem driving_needs_consent {T} `{RpcTransport T} passes (env : Env T) iface target cyclic gsdml cyc wf ex mask
    bench secs read_only gap ka seconds_ handler connected_ lines opts acts op :
  (forall b t, safe (snd (send_request b t))) ->
  (forall m, e_mac env = Ok m -> length m = 6%nat) ->
  (forall d, e_resolve env = Ok d -> length (Dcp.mac d) = 6%nat) ->
  serve_options cyclic gsdml cyc wf ex mask bench secs = (lines, Ok opts) ->
  serve_opening passes env iface target read_only gap ka opts seconds_ handler connected_ = (acts, Ok op) ->
  let m := Serve.c_allow_mask (op_config op) in
  op_hard_exit op = (m =? 0) /\
  (m <> 0 ->
    cyclic = true /\ (exists path, gsdml = Some path) /\ bench = true /\ read_only = false /\ m = mask /\
    (exists d, ARead 0x8029 (Serve.c_out_slot (op_config op)) (Serve.c_out_subslot (op_config op)) (inl d) ∈ acts /\
       output_is_safe d = Ok true) /\
    exists c, op_ctl op = Some c /\ Cyclic.running (Cyclic.shared c) = true /\
      Cyclic.safe_output (Cyclic.shared c)
        = Some (Serve.c_out_slot (op_config op), Serve.c_out_subslot (op_config op), [SAFE_OUTPUT_BYTE])).
Proof.
  intros Hs Hm Hd Hopts. unfold serve_opening. destruct (let? _ := handler in connected_) as [conn|e| |]; [|done..].
  destruct opts as [c|].
  2: { intros [= <- <-]. cbn. split; [done|]. by intros []. }
  unfold start_cyclic_tier.
  pose proof (ktri_body passes env Hs Hm Hd iface conn None (gsdml_path c) (cycle_ms c) (sc_watchdog_factor c)
    (exclude_zero_io_submodules c) (negb (effective_mask read_only (Some c) =? 0)) seconds_ _ eq_refl) as Hb.
  destruct (tier_body _ _ _ _ _ _ _ _ _ _ _) as [s [out|e| |]]; [|done..].
  destruct Hb as (k & s0 & (_ & _ & Hg) & -> & ctl & ev & j & (_ & _ & Hl & Ha) & Hr & Hsafe).
  rewrite Hl. cbn [bind t_conn t_cyclic t_out_slot t_out_subslot l_acts]. intros [= <- <-].
  cbn [op_config op_ctl op_hard_exit Serve.c_allow_mask Serve.c_out_slot Serve.c_out_subslot].
  split; [by rewrite negb_involutive|]. intros Hne.
  destruct Hg as (ds & g & all & inp & record & _ & _ & _ & _ & _ & _ & _ & _ & _ & Hprobe).
  assert (Hmask : (effective_mask read_only (Some c) =? 0) = false) by (by apply Z.eqb_neq).
  rewrite Hmask in Hprobe. destruct (Hprobe eq_refl) as (d & Hin & Hds).
  revert Hopts Hne Hmask. unfold serve_options, effective_mask.
  destruct cyclic; cbn [negb]; [|by repeat case_match].
  destruct gsdml as [path|]; [|done]. destruct (Z.eqb_spec mask 0) as [->|Hz]; destruct bench; cbn [negb andb].
  all: try done; intros [= <- <-]; cbn [allow_mask]; destruct read_only; cbn [negb]; try done.
  intros _ _. split_and!; eauto 6.
  exists d. rewrite Ha. set_solver.
Qed.

(** A session that may write one bit. *)
Example driving_needs_consent_witness :
  exists lines opts acts op,
    serve_options true (Some "demo.xml") 32 3 false 0x10 true 60 = (lines, Ok opts) /\
    serve_opening 5 (demo_env (Ok demo_opened) None) "eth0" "demo" false 0 1000 opts "10" (Ok tt) (Ok (demo_conn 2 0))
      = (acts, Ok op) /\
    Serve.c_allow_mask (op_config op) = 0x10 /\ op_hard_exit op = false /\
    exists c, op_ctl op = Some c /\ Cyclic.running (Cyclic.shared c) = true.
Proof.
  eexists _, _.
  assert (Ho : exists acts op,
    serve_opening 5 (demo_env (Ok demo_opened) None) "eth0" "demo" false 0 1000
      (Some {| gsdml_path := "demo.xml"; cycle_ms := 32; sc_watchdog_factor := 3; exclude_zero_io_submodules := false;
               allow_mask := 0x10; seconds := 60 |}) "10" (Ok tt) (Ok (demo_conn 2 0)) = (acts, Ok op) /\
    Serve.c_allow_mask (op_config op) = 0x10) by (eexists _, _; vm_compute; split; reflexivity).
  destruct Ho as (acts & op & Ho & Hm). exists acts, op.
  assert (Hopts : serve_options true (Some "demo.xml") 32 3 false 0x10 true 60 = ([], Ok (Some
    {| gsdml_path := "demo.xml"; cycle_ms := 32; sc_watchdog_factor := 3; exclude_zero_io_submodules := false;
       allow_mask := 0x10; seconds := 60 |}))) by reflexivity.
  destruct (driving_needs_consent (H := script_transport) 5 (demo_env (Ok demo_opened) None) "eth0" "demo" true
    (Some "demo.xml") 32 3 false 0x10 true 60 false 0 1000 "10" (Ok tt) (Ok (demo_conn 2 0)) [] _ acts op
    (fun _ _ => I) ltac:(by intros m [= <-]) ltac:(by intros d [= <-]) Hopts Ho) as [Hh Hd].
  split; [exact Hopts|]. split; [exact Ho|]. split; [exact Hm|]. rewrite Hm in Hh, Hd. split; [exact Hh|].
  destruct Hd as (_ & _ & _ & _ & _ & _ & c & Hc & Hr & _); [discriminate|]. exists c. split; [exact Hc|exact Hr].
Defined.
