(* ===== verification/Capture.v ===== *)
(** * Whether this machine can capture ([src/src/capture_check.rs])

    The verdicts of [capture-check], the classification of libpcap's error
    texts, the scan of the BPF device nodes and the attempt itself.  What the
    system answers is an argument: whether the platform has BPF nodes, what
    opening each of them gives, and libpcap's interface list and open. *)

From S2P Require Import Prelude Fmt Lines.

#[local] Open Scope string_scope.
#[local] Open Scope list_scope.
#[local] Open Scope Z_scope.

Inductive Readiness :=
| Ready
| NoPermission
| Busy
| NoSuchInterface
| NoDevices
| Unknown (text : string).

#[global] Instance Readiness_eq_dec : EqDecision Readiness.
Proof. solve_decision. Defined.

Definition readiness_str (r : Readiness) : string :=
  match r with
  | Ready => "ready"
  | NoPermission => "no_permission"
  | Busy => "busy"
  | NoSuchInterface => "no_such_interface"
  | NoDevices => "no_devices"
  | Unknown _ => "unknown"
  end.

Definition classify_pcap_error (msg : string) : Readiness :=
  let m := to_ascii_lowercase msg in
  if contains "permission denied" m || contains "operation not permitted" m then NoPermission
  else if contains "busy" m then Busy
  else if contains "no such device" m || contains "no such interface" m || contains "not found" m
          || contains "syntax error in filter" m then NoSuchInterface
  else Unknown msg.

Definition fold_bpf_scan (opened_any denied busy : bool) : option Readiness :=
  if denied then Some NoPermission
  else if opened_any then None
  else if busy then Some Busy
  else None.

(** ** The device nodes *)

(** What opening a node gave; [errno] is [raw_os_error]. *)
Inductive NodeOpen :=
| NodeOk
| NodeDenied
| NodeErr (errno : option Z).

Definition EBUSY : Z := 16.
Definition ENOENT : Z := 2.
Definition SCAN_LIMIT : nat := 256.

Definition Scan : Type := bool * bool * bool.

(** One iteration over [opened_any], [denied], [busy]. *)
Definition scan_node (r : NodeOpen) (st : Scan) : step Scan Scan :=
  let '(opened_any, denied, busy) := st in
  match r with
  | NodeOk => Break (true, denied, busy)
  | NodeDenied => Continue (opened_any, true, busy)
  | NodeErr e =>
      if bool_decide (e = Some EBUSY) then Continue (opened_any, denied, true)
      else if bool_decide (e = Some ENOENT) then Break st
      else Break st
  end.

Fixpoint scan_nodes (open_node : nat -> NodeOpen) (fuel n : nat) (st : Scan) : Scan :=
  match fuel with
  | O => st
  | S fuel =>
      match scan_node (open_node n) st with
      | Continue st => scan_nodes open_node fuel (S n) st
      | Break st => st
      end
  end.

(** [bpf::scan]; elsewhere than on macOS, iOS and FreeBSD there is nothing to scan. *)
Definition scan (has_bpf : bool) (open_node : nat -> NodeOpen) : option Readiness :=
  if has_bpf then
    let '(opened_any, denied, busy) := scan_nodes open_node SCAN_LIMIT 0 (false, false, false) in
    fold_bpf_scan opened_any denied busy
  else None.

(** ** The attempt *)

(** libpcap: the interface names, [Capture::from_device] and the open of the
    capture it gives; errors are their texts. *)
Record Pcap := mkPcap {
  pcap_list : list string + string;
  pcap_from_device : string -> option string;
  pcap_open : string -> option string;
}.

(** The interface the attempt is about, or what is answered without one. *)
Definition target_of (p : Pcap) (iface : option string) : string + Readiness :=
  match iface with
  | Some name => inl name
  | None =>
      match pcap_list p with
      | inl devices =>
          match List.find (fun d => negb (starts_with "lo" d)) devices with
          | Some d => inl d
          | None => inr NoDevices
          end
      | inr e => inr (classify_pcap_error e)
      end
  end.

Definition attempt (p : Pcap) (target : string) : Readiness :=
  match pcap_from_device p target with
  | None =>
      match pcap_open p target with
      | None => Ready
      | Some e => classify_pcap_error e
      end
  | Some e => classify_pcap_error e
  end.

Definition check (has_bpf : bool) (open_node : nat -> NodeOpen) (p : Pcap) (iface : option string)
    : Readiness * option string :=
  match scan has_bpf open_node with
  | Some verdict => (verdict, iface)
  | None =>
      match target_of p iface with
      | inr verdict => (verdict, None)
      | inl target => (attempt p target, Some target)
      end
  end.

(** [capture_line] of [bin/profinet.rs]. *)
Definition capture_line (verdict : Readiness) (iface : option string) : json :=
  json_line ([("capture", JStr (readiness_str verdict));
              ("iface", match iface with Some i => JStr i | None => JNull end)]
             ++ opt_field "detail" (match verdict with Unknown msg => Some (JStr msg) | _ => None end)).

(** ** The scan *)

(** The nodes before [n] were all refused or in use, so the scan reaches [n]. *)
Definition passed (r : NodeOpen) : bool :=
  match r with NodeDenied => true | NodeErr e => bool_decide (e = Some EBUSY) | NodeOk => false end.
Definition reaches (open_node : nat -> NodeOpen) (n : nat) : Prop :=
  (n < SCAN_LIMIT)%nat /\ forall k, (k < n)%nat -> passed (open_node k) = true.
Definition met (open_node : nat -> NodeOpen) (r : NodeOpen) : Prop := exists n, reaches open_node n /\ open_node n = r.

Lemma met_here open_node n r : reaches open_node n -> open_node n = r -> met open_node r.
Proof. intros Hn Hr. by exists n. Qed.

(** A scan that stops at [n] has met [r] there or before. *)
Lemma met_stop open_node n r : reaches open_node n -> passed (open_node n) = false ->
  met open_node r <-> open_node n = r \/ exists k, (k < n)%nat /\ open_node k = r.
Proof.
  intros [Hl Hn] Hs. split.
  - intros (m & [_ Hm] & Hr). destruct (Nat.lt_trichotomy m n) as [?|[->|Hlt]]; [right; by exists m|by left|].
    specialize (Hm n Hlt). congruence.
  - intros [Hr|(k & Hk & Hr)]; [by exists n|]. exists k. split; [|done]. split; [lia|]. intros j Hj. apply Hn. lia.
Qed.

(** The flags say what has been met before [n]. *)
Definition flags_before (open_node : nat -> NodeOpen) (n : nat) (st : Scan) : Prop :=
  let '(o, d, b) := st in
  o = false /\ (d = true <-> exists k, (k < n)%nat /\ open_node k = NodeDenied) /\
  (b = true <-> exists k, (k < n)%nat /\ open_node k = NodeErr (Some EBUSY)).
Definition flags_met (open_node : nat -> NodeOpen) (st : Scan) : Prop :=
  let '(o, d, b) := st in
  (o = true <-> met open_node NodeOk) /\ (d = true <-> met open_node NodeDenied) /\
  (b = true <-> met open_node (NodeErr (Some EBUSY))).

Lemma before_S (open_node : nat -> NodeOpen) n r :
  (exists k, (k < S n)%nat /\ open_node k = r) <-> open_node n = r \/ exists k, (k < n)%nat /\ open_node k = r.
Proof.
  split.
  - intros (k & Hk & Hr). destruct (decide (k = n)) as [->|]; [by left|]. right. exists k. split; [lia|done].
  - intros [Hr|(k & Hk & Hr)]; [exists n; split; [lia|done]|exists k; split; [lia|done]].
Qed.

Lemma flags_stop open_node n o d b : reaches open_node n -> passed (open_node n) = false ->
  flags_before open_node n (false, d, b) -> (o = true <-> open_node n = NodeOk) -> flags_met open_node (o, d, b).
Proof.
  intros Hr Hs (_ & Hd & Hb) Ho. cbn. rewrite Ho, Hd, Hb, !(met_stop _ n) by done.
  assert (Hq : forall r, passed r = true -> open_node n <> r) by (intros r Hp Hx; congruence).
  pose proof (Hq NodeDenied eq_refl). pose proof (Hq (NodeErr (Some EBUSY)) eq_refl).
  split; [|naive_solver]. split; [by left|]. intros [?|(k & Hk & Hx)]; [done|].
  destruct Hr as [_ Hp]. specialize (Hp k Hk). by rewrite Hx in Hp.
Qed.

Lemma flags_end open_node d b : (forall k, (k < SCAN_LIMIT)%nat -> passed (open_node k) = true) ->
  flags_before open_node SCAN_LIMIT (false, d, b) -> flags_met open_node (false, d, b).
Proof.
  intros Hp (_ & Hd & Hb). assert (Hm : forall r, met open_node r <-> exists k, (k < SCAN_LIMIT)%nat /\ open_node k = r).
  { intros r. split.
    - intros (k & [Hk _] & Hr). by exists k.
    - intros (k & Hk & Hr). exists k. split; [|done]. split; [done|]. intros j Hj. apply Hp. lia. }
  cbn. rewrite Hd, Hb, !Hm. split; [|done]. split; [done|]. intros (k & Hk & Hr).
  specialize (Hp k Hk). by rewrite Hr in Hp.
Qed.

Lemma scan_nodes_flags open_node fuel : forall n st,
  (fuel + n = SCAN_LIMIT)%nat -> (forall k, (k < n)%nat -> passed (open_node k) = true) ->
  flags_before open_node n st -> flags_met open_node (scan_nodes open_node fuel n st).
Proof.
  induction fuel as [|fuel IH]; intros n [[o d] b] Hl Hp Hf; pose proof Hf as (-> & Hd & Hb); cbn [scan_nodes].
  { cbn [Nat.add] in Hl. subst n. by apply flags_end. }
  assert (Hr : reaches open_node n) by (split; [lia|done]).
  assert (Hp' : passed (open_node n) = true -> forall k, (k < S n)%nat -> passed (open_node k) = true).
  { intros Hn k Hk. destruct (decide (k = n)) as [->|]; [done|]. apply Hp. lia. }
  pose proof (before_S open_node n) as Hs.
  destruct (open_node n) as [| |e] eqn:E; cbn [scan_node].
  - apply (flags_stop _ n); rewrite ?E; done.
  - apply IH; [lia|by apply Hp'|]. cbn. rewrite !Hs; naive_solver.
  - case_bool_decide as He; [|case_bool_decide; (apply (flags_stop _ n); rewrite ?E; [done| |done|done]);
      cbn; by apply bool_decide_eq_false].
    apply IH; [lia|apply Hp'; cbn; by apply bool_decide_eq_true|]. cbn. rewrite !Hs; naive_solver.
Qed.

(** The verdict of the scan, from the nodes it met. *)
Lemma scan_verdict open_node r : scan true open_node = Some r <->
  (r = NoPermission /\ met open_node NodeDenied) \/
  (r = Busy /\ met open_node (NodeErr (Some EBUSY)) /\ ~ met open_node NodeDenied /\ ~ met open_node NodeOk).
Proof.
  unfold scan. pose proof (scan_nodes_flags open_node SCAN_LIMIT 0 (false, false, false)) as Hf.
  destruct (scan_nodes _ _ _ _) as [[o d] b].
  destruct Hf as (Ho & Hd & Hb); [lia|lia|cbn; split_and!; [done|split; [done|intros (?&?&?); lia]..]|].
  rewrite <- Ho, <- Hd, <- Hb. destruct o, d, b; cbn; naive_solver.
Qed.

(** ** What the answer means *)

Lemma classify_not_ready e : classify_pcap_error e <> Ready /\ classify_pcap_error e <> NoDevices /\
  (forall t, classify_pcap_error e = Unknown t -> t = e).
Proof.
  unfold classify_pcap_error. cbv zeta. repeat case_match; split_and!; try done. intros t Ht. by injection Ht.
Qed.

(** Why an attempt on a target failed: the text of the call that did. *)
Definition failed (p : Pcap) (target e : string) : Prop :=
  pcap_from_device p target = Some e \/ pcap_from_device p target = None /\ pcap_open p target = Some e.

(** The answer of [capture-check] is never a guess.  It is [Ready] exactly when
    a handle was opened on the interface reported, the named one or the first
    that is no loopback, and no device node was refused or all of them in use;
    [NoDevices] exactly when libpcap lists no such interface and none was
    named; and any other answer comes from the nodes that refused, or from the
    text of the very call that failed, which an [Unknown] carries unchanged. *)
Theorem check_is_an_attempt has_bpf open_node p iface :
  let '(verdict, tried) := check has_bpf open_node p iface in
  (verdict = Ready <-> scan has_bpf open_node = None /\
     exists t, tried = Some t /\ target_of p iface = inl t /\ pcap_from_device p t = None /\ pcap_open p t = None) /\
  (verdict = NoDevices <-> scan has_bpf open_node = None /\ iface = None /\
     exists l, pcap_list p = inl l /\ Forall (fun d => starts_with "lo" d = true) l) /\
  (forall t, iface = Some t -> tried = Some t) /\
  (verdict <> Ready -> verdict <> NoDevices ->
     (has_bpf = true /\ met open_node NodeDenied /\ verdict = NoPermission) \/
     (has_bpf = true /\ met open_node (NodeErr (Some EBUSY)) /\ ~ met open_node NodeDenied /\
        ~ met open_node NodeOk /\ verdict = Busy) \/
     (exists e, verdict = classify_pcap_error e /\ (forall t, verdict = Unknown t -> t = e) /\
        ((tried = None /\ pcap_list p = inr e) \/ exists t, tried = Some t /\ target_of p iface = inl t /\ failed p t e))).
Proof.
  unfold check. destruct (scan has_bpf open_node) as [r|] eqn:Es.
  { destruct has_bpf; [|done]. apply scan_verdict in Es. split_and!; naive_solver. }
  destruct (target_of p iface) as [t|v] eqn:Et.
  - assert (Hi : forall t', iface = Some t' -> Some t = Some t') by (intros t' ->; injection Et as ->; done).
    assert (Hl : iface = None -> ~ exists l, pcap_list p = inl l /\ Forall (fun d => starts_with "lo" d = true) l).
    { intros -> (l & Hl & Hf). unfold target_of in Et. rewrite Hl in Et.
      destruct (List.find _ l) as [d|] eqn:Ef; [|done]. apply List.find_some in Ef as [Hin Hd].
      rewrite Forall_forall in Hf. apply list_elem_of_In, Hf in Hin. cbv beta in Hd. by rewrite Hin in Hd. }
    unfold attempt. destruct (pcap_from_device p t) as [e|] eqn:Ed; [|destruct (pcap_open p t) as [e|] eqn:Eo];
      try destruct (classify_not_ready e) as (Hr & Hn & Hu);
      (split_and!; [naive_solver|naive_solver|done|]); intros; try done; right; right; exists e;
      (split_and!; [done|done|]); right; exists t; (split_and!; [done..|]); unfold failed; naive_solver.
  - destruct iface as [t|]; [done|]. unfold target_of in Et. destruct (pcap_list p) as [l|e] eqn:El.
    + destruct (List.find _ l) as [d|] eqn:Ef; [done|]. injection Et as <-. split_and!; [naive_solver| |done|done].
      split; [intros _|done]. split_and!; [done..|]. exists l. split; [done|].
      apply Forall_forall. intros d Hd. apply list_elem_of_In in Hd.
      pose proof (List.find_none _ _ Ef d Hd) as Hx. cbv beta in Hx. by apply negb_false_iff in Hx.
    + injection Et as <-. destruct (classify_not_ready e) as (Hr & Hn & Hu). split_and!; try naive_solver.
Qed.
