(* ===== verification/Cli.v ===== *)
(** * The one-shot DCP commands and the choice of a device ([src/src/bin/profinet.rs])

    [discover], [get-param], [set-param], [set-ip], [signal] and [reset] over
    the class [PacketSocket], what they print and the exit code they return,
    and the steps every RPC command shares before a connection: which device a
    target names, which source address is used, and where a note about it goes.

    What is printed is a list of [Takeover.Act].  The MAC lookup, the random
    transaction id, the opening of a capture socket and the number of receives
    before a deadline are arguments. *)

From S2P Require Import Prelude Fmt Util Vendors Dcp RawUdp Lines.
From S2P Require Import Takeover.

#[local] Open Scope string_scope.
#[local] Open Scope list_scope.
#[local] Open Scope Z_scope.

(** ** Arguments *)

Inductive Param := PName | PIp.
Inductive SettableParam := SName.

Inductive ResetMode := Application | Communication | Engineering | AllData | Factory | Restore | LegacyFactory.

#[global] Instance ResetMode_eq_dec : EqDecision ResetMode.
Proof. solve_decision. Defined.

Definition param_name (p : Param) : string := match p with PName => "name" | PIp => "ip" end.
Definition settable_param_name (p : SettableParam) : string := match p with SName => "name" end.


Definition reset_qualifier (m : ResetMode) : option Z :=
  match m with
  | Application => Some RESET_QUALIFIER_APPLICATION_DATA
  | Communication => Some RESET_QUALIFIER_COMMUNICATION_PARAM
  | Engineering => Some RESET_QUALIFIER_ENGINEERING_PARAM
  | AllData => Some RESET_QUALIFIER_ALL_STORED_DATA
  | Factory => Some RESET_QUALIFIER_TO_FACTORY
  | Restore => Some RESET_QUALIFIER_AND_RESTORE
  | LegacyFactory => None
  end.

Definition reset_mode_request (m : ResetMode) (src_mac dst_mac : list Z) (xid : Z) : list Z :=
  match reset_qualifier m with
  | Some q => reset_request src_mac dst_mac xid q
  | None => factory_reset_request src_mac dst_mac xid
  end.

Definition reset_action (m : ResetMode) : DcpAction :=
  match m with LegacyFactory => FactoryReset | _ => Reset end.

Definition reset_mode_str (m : ResetMode) : string :=
  match m with
  | Application => "application"
  | Communication => "communication"
  | Engineering => "engineering"
  | AllData => "all-data"
  | Factory => "factory"
  | Restore => "restore"
  | LegacyFactory => "legacy-factory"
  end.

Definition DCP_MAX_NAME_LENGTH : Z := 240.

(** ** Answers *)

Definition set_code_answer (code : Z) : SetAnswer :=
  if code =? DCP_BLOCK_ERROR_OK then Done else Refused (Some code) (block_error_name code).

(** A frame long enough and addressed to us. *)
Definition addressed (my_mac frame : list Z) : outcome bool :=
  if len frame <? 14 then Ok false
  else let? dst := slice frame 0 6 in Ok (bool_decide (dst = my_mac)).

(** What a frame says to a SET request: nothing, an answer, or a rejection. *)
Definition judge_set (my_mac : list Z) (xid : Z) (frame : list Z) : outcome (option SetAnswer) :=
  let? ours := addressed my_mac frame in
  if negb ours then Ok None
  else match parse_set_response frame xid with
       | Ok (Some code) => Ok (Some (set_code_answer code))
       | Ok None => Ok None
       | Err text => Ok (Some (Refused None text))
       | Panic => Panic
       | OutOfFuel => OutOfFuel
       end.

(** What it says to a GET request; an error is passed over. *)
Definition judge_get (my_mac : list Z) (opt sub xid : Z) (frame : list Z) : outcome (option (list Z)) :=
  let? ours := addressed my_mac frame in
  if negb ours then Ok None
  else match parse_get_response frame opt sub xid with
       | Ok v => Ok v
       | Err _ => Ok None
       | Panic => Panic
       | OutOfFuel => OutOfFuel
       end.

(** What the commands work with: the capture socket once it is open, and what
    was printed. *)
Record CliState (S : Type) := mkCli { cl_out_ : list Act; cl_sock : option S }.
Arguments mkCli {S}.
Arguments cl_out_ {S}.
Arguments cl_sock {S}.

(** [pcap::get_mac], [gen_xid], [RawSocket::open], and the receives before the
    deadline. *)
Record DcpEnv (S : Type) := mkDcpEnv {
  de_mac : outcome (list Z);
  de_xid : outcome Z;
  de_open : outcome S;
  de_passes : nat;
}.
Arguments mkDcpEnv {S}.
Arguments de_mac {S}.
Arguments de_xid {S}.
Arguments de_open {S}.
Arguments de_passes {S}.

Section Commands.
Context {S : Type} `{PacketSocket S}.

Definition M (A : Type) : Type := CliState S -> CliState S * outcome A.
Definition mret {A} (a : A) : M A := fun s => (s, Ok a).
Definition mlift {A} (o : outcome A) : M A := fun s => (s, o).
Definition mbind_ {A B} (m : M A) (k : A -> M B) : M B := fun s =>
  match m s with
  | (s, Ok a) => k a s
  | (s, Err e) => (s, Err e)
  | (s, Panic) => (s, Panic)
  | (s, OutOfFuel) => (s, OutOfFuel)
  end.
Definition mact (a : Act) : M unit := fun s => (mkCli (cl_out_ s ++ [a]) (cl_sock s), Ok tt).
Definition mopen (o : outcome S) : M unit := fun s =>
  match o with
  | Ok k => (mkCli (cl_out_ s) (Some k), Ok tt)
  | Err e => (s, Err e)
  | Panic => (s, Panic)
  | OutOfFuel => (s, OutOfFuel)
  end.
Definition msend (frame : list Z) : M unit := fun s =>
  match cl_sock s with
  | Some k => let '(k, o) := sock_send frame k in (mkCli (cl_out_ s) (Some k), o)
  | None => (s, Panic)
  end.

(** The receive loops: up to the deadline, a timed-out receive, an error, or
    the first frame [judge] takes for an answer. *)
Fixpoint await_frame {A} (passes : nat) (judge : list Z -> outcome (option A)) (k : S) : S * outcome (option A) :=
  match passes with
  | O => (k, Ok None)
  | Datatypes.S passes =>
      let '(k, o) := sock_recv k in
      match o with
      | Ok (Some frame) =>
          match judge frame with
          | Ok (Some a) => (k, Ok (Some a))
          | Ok None => await_frame passes judge k
          | Err e => (k, Err e)
          | Panic => (k, Panic)
          | OutOfFuel => (k, OutOfFuel)
          end
      | Ok None => (k, Ok None)
      | Err e => (k, Err e)
      | Panic => (k, Panic)
      | OutOfFuel => (k, OutOfFuel)
      end
  end.
Definition mawait {A} (passes : nat) (judge : list Z -> outcome (option A)) : M (option A) := fun s =>
  match cl_sock s with
  | Some k => let '(k, o) := await_frame passes judge k in (mkCli (cl_out_ s) (Some k), o)
  | None => (s, Panic)
  end.
End Commands.
Arguments M : clear implicits.

Notation "'mlet!' x := m 'in' k" := (mbind_ m (fun x => k))
  (at level 10, x binder, m at level 100, k at level 200) : rust_scope.
Notation "'mdo!' m ; k" := (mbind_ m (fun _ => k))
  (at level 10, m at level 100, k at level 200) : rust_scope.

Section Dcp.
Context {S : Type} `{PacketSocket S} (env : DcpEnv S).

Definition mfail {A} (e : string) : M S A := mlift (Err e).
Definition mmap_err {A} (f : string -> string) (m : M S A) : M S A := fun s => let '(s, o) := m s in (s, map_err f o).

Definition dcp_set_roundtrip (my_mac request : list Z) : M S SetAnswer :=
  mlet! expected_xid := mlift (let? x := parse_dcp_xid request in ok_or x "malformed DCP request") in
  mdo! mopen (de_open env);
  mdo! msend request;
  mlet! a := mawait (de_passes env) (judge_set my_mac expected_xid) in
  mret (default SetTimeout a).

Definition report_set (json : bool) (action : DcpAction) (mac : list Z) (answer : SetAnswer) (done failed : string)
    : M S Z :=
  if json then mdo! mact (AEmit (result_line action mac answer)); mret 0
  else match answer with
       | Done => mdo! mact (APrint done); mret 0
       | Refused _ text => mfail (failed +:+ ": " +:+ text)
       | SetTimeout => mdo! mact (APrint (failed +:+ " (timeout)")); mret 1
       end.

(** [DcpSet::banner] and [DcpSet::send]. *)
Definition set_banner (json : bool) (text : string) : M S unit :=
  if json then mret tt else mact (APrint text).
Definition set_send (json : bool) (my_mac : list Z) (action : DcpAction) (dst request : list Z) (done failed : string)
    : M S Z :=
  mlet! answer := mmap_err (fun e => failed +:+ ": " +:+ e) (dcp_set_roundtrip my_mac request) in
  report_set json action dst answer done failed.

Definition cmd_get_param (my_mac : list Z) (target : string) (param : Param) : M S Z :=
  mlet! dst := mlift (s2mac target) in
  let '(opt, sub) := match param with
                     | PName => (DCP_OPTION_DEVICE, DCP_SUBOPTION_DEVICE_NAME)
                     | PIp => (DCP_OPTION_IP, DCP_SUBOPTION_IP_PARAMETER)
                     end in
  mlet! xid := mlift (de_xid env) in
  mdo! mopen (de_open env);
  mdo! msend (get_request my_mac dst xid opt sub);
  mlet! v := mawait (de_passes env) (judge_get my_mac opt sub xid) in
  match v with
  | None => mdo! mact (APrint ("Could not read parameter '" +:+ param_name param +:+ "'")); mret 1
  | Some value =>
      mlet! text := mlift (match param with
                           | PName => Ok (from_utf8_lossy value)
                           | PIp => let? ip := slice value 0 (Z.min (len value) 4) in
                                    let? t := ok_ (s2ip ip) in Ok (default "?" t)
                           end) in
      mdo! mact (APrint text); mret 0
  end.

Definition cmd_set_param (json : bool) (my_mac : list Z) (target : string) (param : SettableParam) (value : string)
    (permanent : bool) : M S Z :=
  mlet! dst := mlift (s2mac target) in
  if DCP_MAX_NAME_LENGTH <? slen value then
    mfail ("Station name exceeds maximum length: " +:+ dec (slen value) +:+ " > " +:+ dec DCP_MAX_NAME_LENGTH)
  else
    mlet! xid := mlift (de_xid env) in
    let name := settable_param_name param in
    set_send json my_mac SetName dst (set_name_request_qualified my_mac dst xid value permanent)
      ("Set " +:+ name +:+ " = " +:+ value) ("Failed to set " +:+ name).

(** [parse_ipv4] is [ip2s]. *)
Definition parse_ipv4 (s : string) : outcome (list Z) := ip2s s.

Definition cmd_set_ip (json : bool) (my_mac : list Z) (target ip netmask gateway : string) (permanent : bool) : M S Z :=
  mlet! dst := mlift (s2mac target) in
  mlet! xid := mlift (de_xid env) in
  mlet! a := mlift (parse_ipv4 ip) in
  mlet! m := mlift (parse_ipv4 netmask) in
  mlet! g := mlift (parse_ipv4 gateway) in
  mdo! set_banner json ("Setting IP " +:+ ip +:+ " on " +:+ target +:+ "...");
  set_send json my_mac SetIp dst (set_ip_request_qualified my_mac dst xid a m g permanent)
    ("Set IP=" +:+ ip +:+ " netmask=" +:+ netmask +:+ " gateway=" +:+ gateway) "Failed to set IP".

Definition cmd_signal (json : bool) (my_mac : list Z) (target : string) : M S Z :=
  mlet! dst := mlift (s2mac target) in
  mlet! xid := mlift (de_xid env) in
  mdo! set_banner json ("Signalling device " +:+ target +:+ "...");
  set_send json my_mac Signal dst (signal_request my_mac dst xid 3000)
    "Device LED flash triggered" "Failed to signal device".

Definition cmd_reset (json : bool) (my_mac : list Z) (target : string) (mode : ResetMode) : M S Z :=
  mlet! dst := mlift (s2mac target) in
  mlet! xid := mlift (de_xid env) in
  mdo! set_banner json ("Resetting device " +:+ target +:+ " (mode: " +:+ reset_mode_str mode +:+ ")...");
  set_send json my_mac (reset_action mode) dst (reset_mode_request mode my_mac dst xid)
    "Reset command acknowledged" "Failed to reset device".

End Dcp.

(** ** Discovery *)

(** What [pcap::discover_until] meets: the socket's opening, the interface's
    MAC, the random transaction id, what sending gave, and the receives. *)
Record DiscEnv := mkDiscEnv {
  di_open : outcome unit;
  di_mac : outcome (list Z);
  di_xid : outcome Z;
  di_send : option string;
  di_recvs : list RecvResult;
}.

Definition pcap_discover_until (e : DiscEnv) (done_ : list DcpDevice -> bool) : outcome (list DcpDevice) :=
  do? di_open e;
  let? my_mac := di_mac e in
  let? xid := di_xid e in
  discover_until my_mac xid (di_send e) done_ (di_recvs e).
Definition pcap_discover (e : DiscEnv) : outcome (list DcpDevice) := pcap_discover_until e (fun _ => false).

Definition decode_device_role (role : Z) : list string :=
  (if negb (Z.land role 0x01 =? 0) then ["IO-Device"] else [])
  ++ (if negb (Z.land role 0x02 =? 0) then ["IO-Controller"] else [])
  ++ (if negb (Z.land role 0x04 =? 0) then ["IO-Multidevice"] else [])
  ++ (if negb (Z.land role 0x08 =? 0) then ["PN-Supervisor"] else []).

(** [print_device], line by line. *)
Definition print_device (d : DcpDevice) : outcome (list string) :=
  let? i := ip_or_default (Dcp.ip d) in
  let? m := ip_or_default (netmask d) in
  let? g := ip_or_default (gateway d) in
  let? v := get_vendor_name (vendor_id d) in
  let roles := decode_device_role (role d) in
  Ok (["PROFINET Device: " +:+ name d; "  MAC:     " +:+ mac2s (Dcp.mac d)]
      ++ (if String.eqb (device_type d) EmptyString then [] else ["  Type:    " +:+ device_type d])
      ++ ["  IP:      " +:+ i; "  Netmask: " +:+ m; "  Gateway: " +:+ g]
      ++ match ip_block_info d with
         | Some info => if negb (info =? 0) then ["  IP Info: " +:+ ip_block_info_name info] else []
         | None => []
         end
      ++ ["  Vendor:  " +:+ v +:+ " (0x" +:+ hexu 4 (vendor_id d) +:+ ")"; "  Device:  0x" +:+ hexu 4 (device_id d)]
      ++ (if bool_decide (roles = []) then [] else ["  Role:    " +:+ join ", " roles])).

Definition NL : string := String (chr 10) EmptyString.

Definition cmd_discover (e : DiscEnv) (iface : string) (json : bool) : list Act * outcome Z :=
  let banner := if json then [] else [APrint ("Discovering PROFINET devices on " +:+ iface +:+ "...")] in
  match pcap_discover e with
  | Ok devices =>
      if json then
        match devices_line iface devices with
        | Ok j => ([AEmit j], Ok 0)
        | Err e => ([], Err e)
        | Panic => ([], Panic)
        | OutOfFuel => ([], OutOfFuel)
        end
      else if bool_decide (devices = []) then (banner ++ [APrint "No devices found"], Ok 0)
      else
        match map_result print_device devices with
        | Ok ls =>
            (banner ++ [APrint (NL +:+ "Found " +:+ dec (len devices) +:+ " device(s):" +:+ NL)]
             ++ concat ((fun l => (APrint <$> l) ++ [APrint EmptyString]) <$> ls), Ok 0)
        | Err e => (banner, Err e)
        | Panic => (banner, Panic)
        | OutOfFuel => (banner, OutOfFuel)
        end
  | Err e => (banner, Err e)
  | Panic => (banner, Panic)
  | OutOfFuel => (banner, OutOfFuel)
  end.

(** ** Which device a target names *)

(** An octet as [std::net::Ipv4Addr]'s parser takes it: one to three decimal
    digits, no leading zero. *)
Definition std_octet (s : string) : option Z :=
  if (1 <=? slen s) && (slen s <=? 3) && sforall is_digit s
     && (String.eqb s "0" || negb (starts_with "0" s)) then
    match parse_u8 s with Ok v => Some v | _ => None end
  else None.
Definition std_ipv4 (s : string) : option (list Z) :=
  if 15 <? slen s then None
  else let parts := split_on "." s in
       if len parts =? 4 then mapM std_octet parts else None.

Definition device_matches (d : DcpDevice) (target : string) : bool :=
  String.eqb (name d) target || match std_ipv4 target with Some a => bool_decide (a = Dcp.ip d) | None => false end.

Definition match_device (devices : list DcpDevice) (target : string) : option DcpDevice :=
  List.find (fun d => device_matches d target) devices.

Definition resolve_device (e : DiscEnv) (target : string) : outcome DcpDevice :=
  let? devices := pcap_discover_until e (fun found => existsb (fun d => device_matches d target) found) in
  ok_or (match_device devices target) ("Device " +:+ debug_str target +:+ " not found").

(** ** The source address *)

(** The process-global statics. *)
Record Globals := mkGlobals {
  g_source_ip : Z;          (** [SOURCE_IP], 0 when unset *)
  g_serve_mode : bool;      (** [SERVE_MODE] *)
  g_note_said : bool;       (** [SOURCE_NOTE_SAID] *)
}.

Definition pinned_source_ip (g : Globals) : option (list Z) :=
  if g_source_ip g =? 0 then None else Some (be32_bytes (g_source_ip g)).

Definition source_address_note (chosen : SourceAddress) (dst : list Z) : outcome (option string) :=
  if reaches_target chosen then Ok None
  else
    let? a := ip_or_default (s_ip chosen) in
    let? b := ip_or_default dst in
    Ok (Some ("source address " +:+ a +:+ " shares no network with " +:+ b
              +:+ ": the device answers only if it accepts a source outside its own network")).

(** [toward] is [pcap::get_ipv4_toward]. *)
Definition chosen_source (g : Globals) (toward : list Z -> outcome SourceAddress) (dst : list Z)
    : outcome (list Z * option string) :=
  match pinned_source_ip g with
  | Some ip => Ok (ip, None)
  | None =>
      let? chosen := toward dst in
      let? note := source_address_note chosen dst in
      Ok (s_ip chosen, note)
  end.

Definition report_source_note (g : Globals) (note : string) : Globals * list Act :=
  if g_note_said g then (g, [])
  else (mkGlobals (g_source_ip g) (g_serve_mode g) true,
        [if g_serve_mode g then AEmit (warning_line "source_address" note) else ANote ("warning: " +:+ note)]).

Definition source_address (g : Globals) (toward : list Z -> outcome SourceAddress) (dst : list Z)
    : Globals * list Act * outcome (list Z) :=
  match chosen_source g toward dst with
  | Ok (ip, Some note) => (report_source_note g note, Ok ip)
  | Ok (ip, None) => (g, [], Ok ip)
  | Err e => (g, [], Err e)
  | Panic => (g, [], Panic)
  | OutOfFuel => (g, [], OutOfFuel)
  end.

(** ** SET commands over a capture *)

(** The four SET-type commands, as [run] dispatches them. *)
Inductive SetCommand :=
| CSetParam (target : string) (param : SettableParam) (value : string) (permanent : bool)
| CSetIp (target ip netmask gateway : string) (permanent : bool)
| CSignal (target : string)
| CReset (target : string) (mode : ResetMode).

Definition set_target (c : SetCommand) : string :=
  match c with CSetParam t _ _ _ => t | CSetIp t _ _ _ _ => t | CSignal t => t | CReset t _ => t end.

Definition run_set {S} `{PacketSocket S} (env : DcpEnv S) (json : bool) (c : SetCommand) : M S Z :=
  mlet! my_mac := mlift (de_mac env) in
  match c with
  | CSetParam t p v perm => cmd_set_param env json my_mac t p v perm
  | CSetIp t i m g perm => cmd_set_ip env json my_mac t i m g perm
  | CSignal t => cmd_signal env json my_mac t
  | CReset t mode => cmd_reset env json my_mac t mode
  end.

(** The ResetToFactory mode numbers. *)
Definition mode_number (m : ResetMode) : option Z :=
  match m with
  | Application => Some 1 | Communication => Some 2 | Engineering => Some 3 | AllData => Some 4
  | Factory => Some 8 | Restore => Some 9 | LegacyFactory => None
  end.

(** What a command asks of the device, by the numbers of IEC 61158-6-10: the
    action reported, and the option, suboption, qualifier and value of the one
    block. *)
Inductive asks : SetCommand -> DcpAction -> Z -> Z -> Z -> list Z -> Prop :=
| asks_name t v (perm : bool) : slen v <= 240 ->
    asks (CSetParam t SName v perm) SetName 2 2 (if perm then 1 else 0) (str_bytes v)
| asks_ip t i m g a b c (perm : bool) : ip2s i = Ok a -> ip2s m = Ok b -> ip2s g = Ok c ->
    asks (CSetIp t i m g perm) SetIp 1 2 (if perm then 1 else 0) (a ++ b ++ c)
| asks_signal t : asks (CSignal t) Signal 5 3 1 [0; 30]
| asks_reset t mode n : mode_number mode = Some n -> asks (CReset t mode) Reset 5 6 (2 * n) []
| asks_legacy t mode : mode_number mode = None -> asks (CReset t mode) FactoryReset 5 5 0 [].

(** The code of a block error as an answer. *)
Definition answer_of (code : Z) : SetAnswer := if code =? 0 then Done else Refused (Some code) (block_error_name code).

(** A frame that is no answer to exchange [xid]: for another station, or a DCP
    frame of another exchange, service or direction. *)
Definition no_answer (my_mac : list Z) (xid : Z) (f : list Z) : Prop :=
  len f < 14 \/ slice f 0 6 <> Ok my_mac \/
  exists p, dcp_payload f = Ok p /\
    (len p < 12 \/ rd_be16 p 0 <> Ok 0xFEFD \/ idx p 2 <> Ok 4 \/ rd_be32 p 4 <> Ok xid \/
     (idx p 3 <> Ok 1 /\ idx p 3 <> Ok 5)).

(** A device's answer: its response with a code, or its refusal of the
    service; under any tags and behind padding. *)
Definition set_response (my_mac dev tcis : list Z) (xid opt sub code : Z) (trailer : list Z) : list Z :=
  dcp_response my_mac dev tcis 0xFEFD 4 xid [5; 4; 0; 3; opt; sub; code; 0] trailer.
Definition set_unsupported (my_mac dev tcis : list Z) (xid : Z) (trailer : list Z) : list Z :=
  (my_mac ++ dev) ++ tags tcis ++ 0x88 :: 0x92 :: dcp_header 0xFEFD 4 5 xid 0 0 trailer.

(** What the captured frames say, in order. *)
Inductive heard (my_mac : list Z) (xid : Z) : list (list Z) -> SetAnswer -> Prop :=
| heard_nothing rx : Forall (no_answer my_mac xid) rx -> heard my_mac xid rx SetTimeout
| heard_code before dev tcis opt sub code trailer rest : Forall (no_answer my_mac xid) before -> len dev = 6 ->
    heard my_mac xid (before ++ set_response my_mac dev tcis xid opt sub code trailer :: rest) (answer_of code)
| heard_refusal before dev tcis trailer rest : Forall (no_answer my_mac xid) before -> len dev = 6 ->
    heard my_mac xid (before ++ set_unsupported my_mac dev tcis xid trailer :: rest)
      (Refused None "DCP SET: service not supported by device").

Lemma rd16_reads d o : 0 <= o -> o + 2 <= len d -> exists v, rd_be16 d o = Ok v.
Proof.
  intros Ho Hl. unfold rd_be16. destruct (idx_Some d o) as (a & -> & _); [lia|].
  destruct (idx_Some d (o + 1)) as (b & -> & _); [lia|]. by eexists.
Qed.
Lemma rd32_reads d o : 0 <= o -> o + 4 <= len d -> exists v, rd_be32 d o = Ok v.
Proof.
  intros Ho Hl. unfold rd_be32. destruct (idx_Some d o) as (a & -> & _); [lia|].
  destruct (idx_Some d (o + 1)) as (b & -> & _); [lia|]. destruct (idx_Some d (o + 2)) as (c & -> & _); [lia|].
  destruct (idx_Some d (o + 3)) as (e & -> & _); [lia|]. by eexists.
Qed.

Lemma addressed_other my_mac f : len f < 14 \/ slice f 0 6 <> Ok my_mac -> addressed my_mac f = Ok false.
Proof.
  intros Hf. unfold addressed. destruct (len f <? 14) eqn:Hl; [done|].
  rewrite slice_ok by lia. cbn [bind]. destruct Hf as [?|Hf]; [lia|]. f_equal. apply bool_decide_eq_false.
  intros Hx. apply Hf. by rewrite slice_ok, Hx by lia.
Qed.
Lemma addressed_us my_mac f : 14 <= len f -> slice f 0 6 = Ok my_mac -> addressed my_mac f = Ok true.
Proof.
  intros Hl Hs. unfold addressed. replace (len f <? 14) with false by lia. rewrite Hs. cbn [bind].
  by rewrite bool_decide_eq_true_2.
Qed.

Lemma judge_set_other my_mac xid f : no_answer my_mac xid f -> judge_set my_mac xid f = Ok None.
Proof.
  intros Hf. unfold judge_set.
  destruct (addressed my_mac f) as [b|e| |] eqn:Ea.
  2-4: unfold addressed in Ea; destruct (len f <? 14) eqn:Hl; [done|]; by rewrite slice_ok in Ea by lia.
  cbn [bind]. destruct b; [|done]. cbn [negb].
  assert (Hp : exists p, dcp_payload f = Ok p /\
    (len p < 12 \/ rd_be16 p 0 <> Ok 0xFEFD \/ idx p 2 <> Ok 4 \/ rd_be32 p 4 <> Ok xid \/
     (idx p 3 <> Ok 1 /\ idx p 3 <> Ok 5))).
  { destruct Hf as [Hf|[Hf|Hf]]; [rewrite addressed_other in Ea by auto; done..|done]. }
  destruct Hp as (p & Hp & Ho). unfold parse_set_response. rewrite Hp. cbn [bind].
  destruct (len p <? 12) eqn:Hl; [done|].
  destruct (rd16_reads p 0) as [fid Hfid]; [lia..|]. destruct (idx_Some p 2) as (sid & Hsid & _); [lia|].
  destruct (idx_Some p 3) as (st & Hst & _); [lia|]. destruct (rd32_reads p 4) as [x Hx]; [lia..|].
  rewrite Hfid, Hsid, Hst, Hx in *. cbn [bind].
  destruct (negb (fid =? _) || negb (sid =? _) || negb (x =? xid)) eqn:E; [done|].
  apply orb_false_iff in E as [E E3]. apply orb_false_iff in E as [E1 E2].
  apply negb_false_iff, Z.eqb_eq in E1, E2, E3. subst.
  destruct Ho as [?|[Ho|[Ho|[Ho|[Ho1 Ho5]]]]]; try done; [lia|].
  destruct (Z.eqb_spec st DCP_SERVICE_TYPE_RESPONSE_UNSUPPORTED) as [->|]; [done|].
  destruct (Z.eqb_spec st DCP_SERVICE_TYPE_RESPONSE_SUCCESS) as [->|]; done.
Qed.

Lemma judge_set_response my_mac dev tcis xid opt sub code trailer :
  len my_mac = 6 -> len dev = 6 -> u32_ok xid ->
  judge_set my_mac xid (set_response my_mac dev tcis xid opt sub code trailer) = Ok (Some (answer_of code)).
Proof.
  intros Hm Hd Hx. unfold judge_set, set_response.
  destruct (dcp_response_addresses my_mac dev tcis 0xFEFD 4 xid [5; 4; 0; 3; opt; sub; code; 0] trailer Hm Hd) as (Hl & Hs & _).
  rewrite addressed_us by done. cbn [bind negb].
  pose proof (proj2 (proj2 (dcp_answers_are_owned [] 0 0 xid)) my_mac dev tcis opt sub code trailer Hm Hd Hx) as Hr.
  change DCP_GET_SET_FRAME_ID with 0xFEFD in Hr. change DCP_SERVICE_ID_SET with 4 in Hr.
  change DCP_OPTION_CONTROL with 5 in Hr. change DCP_SUBOPTION_CONTROL_RESPONSE with 4 in Hr.
  by rewrite Hr.
Qed.

Lemma judge_set_refusal my_mac dev tcis xid trailer :
  len my_mac = 6 -> len dev = 6 -> u32_ok xid ->
  judge_set my_mac xid (set_unsupported my_mac dev tcis xid trailer)
  = Ok (Some (Refused None "DCP SET: service not supported by device")).
Proof.
  intros Hm Hd Hx. unfold judge_set, set_unsupported.
  rewrite addressed_us; [| |rewrite <- app_assoc; by apply slice_prefix].
  2:{ rewrite !length_app. simpl length. lia. }
  cbn [bind negb]. unfold parse_set_response, dcp_payload.
  rewrite (strip_eth_tagged (my_mac ++ dev) tcis) by (rewrite length_app; lia). cbn [bind].
  destruct (dcp_header_reads 0xFEFD 4 5 xid 0 0 trailer) as (L & R0 & R2 & R3 & R4 & _); [by unfold u16_ok|done|by unfold u16_ok|].
  rewrite L. replace (_ <? 12) with false by lia. rewrite R0, R2, R3, R4. cbn [bind]. by rewrite (Z.eqb_refl xid).
Qed.

(** The capture hands over its frames one by one. *)
Lemma await_passes {A} (judge : list Z -> outcome (option A)) before : forall passes rest tx,
  Forall (fun f => judge f = Ok None) before ->
  await_frame (length before + passes) judge {| w_rx := before ++ rest; w_tx := tx |}
  = await_frame passes judge {| w_rx := rest; w_tx := tx |}.
Proof.
  induction before as [|f before IH]; intros passes rest tx Hb; [done|].
  inversion Hb as [|? ? Hf Hb']; subst. cbn [length Nat.add app await_frame sock_recv wire_socket w_rx w_tx].
  rewrite Hf. by apply IH.
Qed.

Lemma await_hit {A} (judge : list Z -> outcome (option A)) before f a rest tx passes :
  Forall (fun f => judge f = Ok None) before -> judge f = Ok (Some a) -> (length before < passes)%nat ->
  await_frame passes judge {| w_rx := before ++ f :: rest; w_tx := tx |} = ({| w_rx := rest; w_tx := tx |}, Ok (Some a)).
Proof.
  intros Hb Hf Hl. replace passes with (length before + S (passes - S (length before)))%nat by lia.
  rewrite await_passes by done. cbn [await_frame sock_recv wire_socket w_rx w_tx]. by rewrite Hf.
Qed.

Lemma await_none {A} (judge : list Z -> outcome (option A)) rx tx passes :
  Forall (fun f => judge f = Ok None) rx -> (length rx < passes)%nat ->
  await_frame passes judge {| w_rx := rx; w_tx := tx |} = ({| w_rx := []; w_tx := tx |}, Ok None).
Proof.
  intros Hb Hl. replace passes with (length rx + S (passes - S (length rx)))%nat by lia.
  pose proof (await_passes judge rx (S (passes - S (length rx))) [] tx Hb) as He. rewrite app_nil_r in He. by rewrite He.
Qed.

Lemma heard_await my_mac xid rx a tx passes : len my_mac = 6 -> u32_ok xid -> heard my_mac xid rx a ->
  (length rx < passes)%nat ->
  exists rest r, await_frame passes (judge_set my_mac xid) {| w_rx := rx; w_tx := tx |}
                 = ({| w_rx := rest; w_tx := tx |}, Ok r) /\ default SetTimeout r = a.
Proof.
  intros Hm Hx Hh Hl.
  assert (Ho : forall l, Forall (no_answer my_mac xid) l -> Forall (fun f => judge_set my_mac xid f = Ok None) l).
  { intros l Hn. eapply Forall_impl; [exact Hn|]. apply judge_set_other. }
  destruct Hh as [rx Hn|before dev tcis opt sub code trailer rest Hn Hd|before dev tcis trailer rest Hn Hd];
    try rewrite length_app in Hl; simpl in Hl.
  - exists [], None. split; [|done]. apply await_none; [by apply Ho|lia].
  - exists rest, (Some (answer_of code)). split; [|done].
    apply await_hit; [by apply Ho|by apply judge_set_response|lia].
  - exists rest, (Some (Refused None "DCP SET: service not supported by device")). split; [|done].
    apply await_hit; [by apply Ho|by apply judge_set_refusal|lia].
Qed.

Lemma set_request_xid src dst xid o s q v : len src = 6 -> len dst = 6 -> u32_ok xid -> u16_ok q -> len v < 65000 ->
  parse_dcp_xid (set_request src dst xid o s q v) = Ok (Some xid).
Proof.
  intros Hs Hd Hx Hq Hv. destruct (set_request_understood src dst xid o s q v) as (p & Hp & _ & _ & _ & Hr & _); try done.
  unfold parse_dcp_xid, dcp_payload. rewrite Hp. cbn [bind ok_].
  destruct (8 <=? len p) eqn:Hl; [by rewrite Hr|].
  exfalso. unfold rd_be32 in Hr. apply bind_Ok_inv in Hr as (a & _ & Hr). apply bind_Ok_inv in Hr as (b & _ & Hr).
  apply bind_Ok_inv in Hr as (c & _ & Hr). apply bind_Ok_inv in Hr as (e & He & _). 
  unfold idx in He. by replace (4 + 3 <? len p) with false in He by lia.
Qed.

(** What [report_set] says. *)
Definition set_report (json : bool) (action : DcpAction) (dst : list Z) (a : SetAnswer) (done failed : string)
    : list Act * outcome Z :=
  if json then ([AEmit (result_line action dst a)], Ok 0)
  else match a with
       | Done => ([APrint done], Ok 0)
       | Refused _ text => ([], Err (failed +:+ ": " +:+ text))
       | SetTimeout => ([APrint (failed +:+ " (timeout)")], Ok 1)
       end.

Lemma set_send_wire env json my_mac action dst xid o s q v rx tx a done_ failed_ out sk :
  len my_mac = 6 -> len dst = 6 -> u32_ok xid -> u16_ok q -> len v < 65000 ->
  de_open env = Ok {| w_rx := rx; w_tx := tx |} -> heard my_mac xid rx a -> (length rx < de_passes env)%nat ->
  exists rest,
    set_send env json my_mac action dst (set_request my_mac dst xid o s q v) done_ failed_ (mkCli out sk)
    = (mkCli (out ++ fst (set_report json action dst a done_ failed_))
         (Some {| w_rx := rest; w_tx := tx ++ [set_request my_mac dst xid o s q v] |}),
       snd (set_report json action dst a done_ failed_)).
Proof.
  intros Hm Hd Hx Hq Hv Ho Hh Hl. set (r := set_request _ _ _ _ _ _ _).
  destruct (heard_await my_mac xid rx a (tx ++ [r]) (de_passes env)) as (rest & x & Ha & Hr); try done.
  exists rest. unfold set_send, mbind_, mmap_err, dcp_set_roundtrip, mbind_, mlift, mopen, msend, mawait, mret.
  unfold r at 1. rewrite set_request_xid by done. fold r. cbn [bind ok_or]. rewrite Ho.
  cbn [cl_sock cl_out_ sock_send wire_socket w_rx w_tx]. rewrite Ha. cbn [map_err]. rewrite Hr.
  unfold report_set, set_report, mbind_, mact, mret, mfail, mlift. destruct json, a; cbn; by rewrite ?app_nil_r.
Qed.

Definition printed (a : Act) : Prop := match a with APrint _ => True | _ => False end.

Lemma map_result_length {X Y} (f : X -> outcome Y) (l : list X) : forall r, map_result f l = Ok r -> length r = length l.
Proof.
  induction l as [|x l IH]; intros r Hr; [by injection Hr as <-|].
  apply bind_Ok_inv in Hr as (y & _ & Hr). apply bind_Ok_inv in Hr as (ys & Hys & Hr).
  injection Hr as <-. cbn. f_equal. by apply IH.
Qed.
Lemma s2mac_len t m : s2mac t = Ok m -> len m = 6.
Proof.
  unfold s2mac. cbv zeta. destruct (slen t =? 0); [done|].
  destruct (negb (len (split_on ":" t) =? 6)) eqn:E; [done|]. intros Hm.
  apply map_result_length in Hm. lia.
Qed.
Lemma ip2s_len t m : ip2s t = Ok m -> len m = 4.
Proof.
  unfold ip2s. cbv zeta. destruct (slen t =? 0); [done|].
  destruct (negb (len (split_on "." t) =? 4)) eqn:E; [done|]. intros Hm.
  apply map_result_length in Hm. lia.
Qed.
Lemma slen_bytes s : slen s = len (str_bytes s).
Proof. unfold slen, str_bytes. rewrite length_fmap. f_equal. induction s; cbn; congruence. Qed.

(** The exit code and the output for an answer. *)
Definition answered (json : bool) (action : DcpAction) (dst : list Z) (a : SetAnswer) (out : list Act) (res : outcome Z)
    : Prop :=
  if json then out = [AEmit (result_line action dst a)] /\ res = Ok 0
  else Forall printed out /\
       match a with
       | Done => res = Ok 0
       | SetTimeout => res = Ok 1
       | Refused _ text => exists what, res = Err (what +:+ ": " +:+ text)
       end.

Lemma mlift_bind {S A B} (x : A) (k : A -> M S B) st : mbind_ (mlift (Ok x)) k st = k x st.
Proof. done. Qed.

Lemma set_send_answered json action my_mac dst xid o s q v rx tx a passes out0 done_ failed_ :
  len my_mac = 6 -> len dst = 6 -> u32_ok xid -> u16_ok q -> len v < 65000 ->
  heard my_mac xid rx a -> (length rx < passes)%nat -> Forall printed out0 -> (json = true -> out0 = []) ->
  let env := mkDcpEnv (Ok my_mac) (Ok xid) (Ok {| w_rx := rx; w_tx := tx |}) passes in
  let r := set_request my_mac dst xid o s q v in
  exists out rest res,
    set_send env json my_mac action dst r done_ failed_ (mkCli out0 None)
    = (mkCli out (Some {| w_rx := rest; w_tx := tx ++ [r] |}), res) /\ answered json action dst a out res.
Proof.
  intros Hm Hd Hx Hq Hv Hh Hl Hp Hj env r.
  destruct (set_send_wire env json my_mac action dst xid o s q v rx tx a done_ failed_ out0 None) as [rest Hs]; try done.
  eexists _, rest, _. split; [exact Hs|]. unfold answered, set_report. destruct json; [by rewrite Hj|].
  destruct a; cbn; (split; [apply Forall_app; split; [done|by repeat constructor]|by eauto]).
Qed.

Lemma banner_answered json action my_mac dst xid o s q v rx tx a passes banner done_ failed_ :
  len my_mac = 6 -> len dst = 6 -> u32_ok xid -> u16_ok q -> len v < 65000 ->
  heard my_mac xid rx a -> (length rx < passes)%nat ->
  let env := mkDcpEnv (Ok my_mac) (Ok xid) (Ok {| w_rx := rx; w_tx := tx |}) passes in
  let r := set_request my_mac dst xid o s q v in
  exists out rest res,
    mbind_ (set_banner json banner) (fun _ => set_send env json my_mac action dst r done_ failed_) (mkCli [] None)
    = (mkCli out (Some {| w_rx := rest; w_tx := tx ++ [r] |}), res) /\ answered json action dst a out res.
Proof. intros. unfold set_banner. destruct json; apply set_send_answered; try done; by repeat constructor. Qed.

(** C15: A SET-type command sends one frame, the request for exactly what was asked
    (which [set_request_understood] reads at the device), and its answer is
    what the capture heard first: the code of the device's response, its
    refusal of the service, or nothing before the deadline.  Frames for others
    and of other exchanges are passed over.  Under [--json] the one line
    printed is the result line and the exit code 0, whatever the answer; in
    text the code is 0 exactly when the device did it, 1 after a timeout, and a
    refusal is an error that ends in the device's reason. *)
Theorem set_command_answered c action o s q v (json : bool) my_mac dst xid rx tx a passes :
  asks c action o s q v -> s2mac (set_target c) = Ok dst -> len my_mac = 6 -> u32_ok xid ->
  heard my_mac xid rx a -> (length rx < passes)%nat ->
  exists out rest res,
    run_set (mkDcpEnv (Ok my_mac) (Ok xid) (Ok {| w_rx := rx; w_tx := tx |}) passes) json c (mkCli [] None)
    = (mkCli out (Some {| w_rx := rest; w_tx := tx ++ [set_request my_mac dst xid o s q v] |}), res) /\
    answered json action dst a out res.
Proof.
  intros Hc Hdst Hm Hx Hh Hl. pose proof (s2mac_len _ _ Hdst) as Hd. unfold run_set. cbn [de_mac]. rewrite mlift_bind.
  destruct Hc as [t n perm Hn|t i m g a' b' c' perm Hi Hmk Hg|t|t mode n Hn|t mode Hn]; cbn [set_target] in Hdst;
    unfold cmd_set_param, cmd_set_ip, cmd_signal, cmd_reset; rewrite Hdst, mlift_bind.
  - replace (DCP_MAX_NAME_LENGTH <? slen n) with false by (unfold DCP_MAX_NAME_LENGTH; lia).
    cbn [de_xid]. rewrite mlift_bind. unfold set_name_request_qualified. rewrite slen_bytes in Hn.
    apply set_send_answered; try done; [destruct perm; unfold u16_ok; lia|lia].
  - cbn [de_xid]. unfold parse_ipv4. rewrite mlift_bind, Hi, mlift_bind, Hmk, mlift_bind, Hg, mlift_bind.
    apply ip2s_len in Hi, Hmk, Hg. apply banner_answered; try done; [destruct perm; unfold u16_ok; lia|rewrite !length_app; lia].
  - cbn [de_xid]. rewrite mlift_bind. by apply banner_answered.
  - cbn [de_xid]. rewrite mlift_bind.
    assert (Hq : reset_qualifier mode = Some (2 * n) /\ u16_ok (2 * n) /\ reset_action mode = Reset).
    { destruct mode; try done; injection Hn as <-; done. }
    destruct Hq as (Hq & Hqu & ->). unfold reset_mode_request. rewrite Hq. by apply banner_answered.
  - cbn [de_xid]. rewrite mlift_bind. destruct mode; try done. by apply banner_answered.
Qed.

(** A device that refuses the address, behind a frame for another station. *)
Example set_command_answered_witness :
  exists out rest res,
    run_set (mkDcpEnv (Ok (rep 6 2)) (Ok 77) (Ok {| w_rx := [rep 60 0; set_response (rep 6 2) (rep 6 4) [] 77 1 2 3 [0; 0]];
                                                    w_tx := [] |}) 5) true
      (CSetIp "04:04:04:04:04:04" "192.168.0.9" "255.255.255.0" "0.0.0.0" false) (mkCli [] None)
    = (mkCli out (Some {| w_rx := rest;
                          w_tx := [set_request (rep 6 2) (rep 6 4) 77 1 2 0 [192; 168; 0; 9; 255; 255; 255; 0; 0; 0; 0; 0]] |}),
       res) /\
    answered true SetIp (rep 6 4) (Refused (Some 3) (block_error_name 3)) out res.
Proof.
  apply (set_command_answered _ SetIp 1 2 0 _ true (rep 6 2) (rep 6 4) 77 _ []
    (Refused (Some 3) (block_error_name 3)) 5).
  - by apply (asks_ip _ _ _ _ [192; 168; 0; 9] [255; 255; 255; 0] [0; 0; 0; 0] false).
  - reflexivity.
  - reflexivity.
  - unfold u32_ok. lia.
  - apply (heard_code (rep 6 2) 77 [rep 60 0] (rep 6 4) [] 1 2 3 [0; 0] []); [|done].
    constructor; [|constructor]. right. left. done.
  - simpl. lia.
Defined.

(** ** Resolving a target *)

(** The discovery stops with the first frame that satisfies the caller. *)
Lemma discover_first my_mac xid done_ frames : forall rest pre,
  Forall bytes_ok frames -> frames = pre ++ rest -> exists k,
  (k <= length frames)%nat /\
  discover_loop my_mac xid done_ (RecvFrame <$> rest) pre = aggregate_responses (take k frames) my_mac xid /\
  (forall j ds, (length pre < j < k)%nat -> aggregate_responses (take j frames) my_mac xid = Ok ds -> done_ ds = false) /\
  ((k < length frames)%nat ->
   exists ds, aggregate_responses (take k frames) my_mac xid = Ok ds /\ done_ ds = true).
Proof.
  induction rest as [|f rest IH]; intros pre Hf Heq.
  - exists (length frames). rewrite take_ge by lia. rewrite app_nil_r in Heq. subst pre. split_and!; [lia|done|lia|lia].
  - cbn [fmap list_fmap discover_loop].
    assert (Hpre : frames = (pre ++ [f]) ++ rest) by (by rewrite <- app_assoc).
    assert (Hf' : Forall bytes_ok (pre ++ [f])) by (rewrite Hpre in Hf; by apply Forall_app in Hf as [? _]).
    destruct (total_Ok _ _ (aggregate_exact my_mac xid _ Hf')) as (ds & Ha & _). rewrite Ha. cbn [bind].
    assert (Hk : take (length (pre ++ [f])) frames = pre ++ [f]) by (by rewrite Hpre, take_app_length).
    destruct (done_ ds) eqn:Hdone.
    + exists (length (pre ++ [f])). rewrite Hk. split_and!; [rewrite Hpre, !length_app; simpl; lia|done| |intros _; by exists ds].
      intros j ds' Hj. rewrite length_app in Hj. simpl in Hj. lia.
    + destruct (IH (pre ++ [f]) Hf Hpre) as (k & Hl & He & Hj & Hd). exists k. split_and!; [done|done| |done].
      intros j ds' Hjk Hds'. destruct (decide (j = length (pre ++ [f]))) as [->|].
      * rewrite Hk, Ha in Hds'. by injection Hds' as <-.
      * apply (Hj j); [|done]. rewrite length_app in *. simpl in *. lia.
Qed.

Lemma match_device_None ds target : match_device ds target = None <-> existsb (fun d => device_matches d target) ds = false.
Proof.
  unfold match_device. induction ds as [|d ds IH]; [done|]. cbn. by destruct (device_matches d target).
Qed.

Lemma answered_unmatched my_mac xid frames target j i f d :
  Forall bytes_ok frames -> frames !! i = Some f -> j = S i -> answers my_mac xid f d ->
  (forall ds, aggregate_responses (take j frames) my_mac xid = Ok ds -> existsb (fun d => device_matches d target) ds = false) ->
  device_matches d target = false.
Proof.
  intros Hb Hi -> Ha Hn. rewrite (take_S_r _ _ _ Hi) in Hn.
  assert (Hb' : Forall bytes_ok (take i frames ++ [f])).
  { rewrite <- (take_S_r _ _ _ Hi). by apply Forall_take. }
  destruct (total_Ok _ _ (aggregate_exact my_mac xid _ Hb')) as (ds & Hds & _ & Hin).
  specialize (Hn ds Hds). destruct (device_matches d target) eqn:E; [|done].
  assert (Hd : d ∈ ds).
  { apply Hin. exists (take i frames), f, []. split_and!; [done|done|]. by intros ? ? ?%not_elem_of_nil. }
  apply match_device_None in Hn. unfold match_device in Hn.
  pose proof (List.find_none _ _ Hn d ltac:(by apply list_elem_of_In)) as Hx. cbv beta in Hx. congruence.
Qed.

(** What is resolved is well typed. *)
Lemma resolve_device_typed e target d : Forall recv_typed (di_recvs e) -> resolve_device e target = Ok d -> device_typed d.
Proof.
  intros Hr. unfold resolve_device, pcap_discover_until. intros Hd.
  apply bind_Ok_inv in Hd as (ds & Hds & Hd). apply bind_Ok_inv in Hds as (_ & _ & Hds).
  apply bind_Ok_inv in Hds as (mac_ & _ & Hds). apply bind_Ok_inv in Hds as (xid & _ & Hds).
  pose proof (discover_typed mac_ xid (di_send e) (fun found => existsb (fun d => device_matches d target) found)
                (di_recvs e) Hr) as Ht. rewrite Hds in Ht. cbn [wp] in Ht.
  destruct (match_device ds target) as [d'|] eqn:Em; [|done]. injection Hd as ->.
  apply List.find_some in Em as [Hin _]. rewrite Forall_forall in Ht. by apply Ht, list_elem_of_In.
Qed.

(** A target is resolved to the first device that answers to it: the device
    matches by station name or IPv4 address, it is as it last answered our own
    discovery, and no earlier answer matched; and "not found" means that no
    device that answered within the window matches. *)
Theorem resolve_device_first my_mac xid frames target :
  Forall bytes_ok frames ->
  match resolve_device (mkDiscEnv (Ok tt) (Ok my_mac) (Ok xid) None (RecvFrame <$> frames)) target with
  | Ok d => device_matches d target = true /\ exists k, (k <= length frames)%nat /\
      reported my_mac xid (take k frames) d /\
      forall i f d', (S i < k)%nat -> frames !! i = Some f -> answers my_mac xid f d' -> device_matches d' target = false
  | Err e => e = "Device " +:+ debug_str target +:+ " not found" /\
      forall f d, f ∈ frames -> answers my_mac xid f d -> device_matches d target = false
  | Panic | OutOfFuel => False
  end.
Proof.
  intros Hb. unfold resolve_device, pcap_discover_until. cbn [di_open di_mac di_xid di_send di_recvs bind discover_until].
  set (m := fun found => existsb (fun d => device_matches d target) found).
  destruct (discover_first my_mac xid m frames frames [] Hb eq_refl) as (k & Hk & -> & Hj & Hd).
  destruct (total_Ok _ _ (aggregate_exact my_mac xid (take k frames) ltac:(by apply Forall_take))) as (ds & Hds & _ & Hin).
  rewrite Hds. cbn [bind]. destruct (match_device ds target) as [d|] eqn:Em; cbn [ok_or].
  - apply List.find_some in Em as [Hind Hm]. split; [done|]. exists k. split_and!; [done| |].
    + apply Hin. by apply list_elem_of_In.
    + intros i f d' Hi Hf Ha. apply (answered_unmatched my_mac xid frames target (S i) i f d'); try done.
      intros ds' Hds'. apply (Hj (S i)); [simpl; lia|done].
  - split; [done|]. apply match_device_None in Em.
    assert (k = length frames) as ->.
    { destruct (decide (k = length frames)) as [|Hne]; [done|]. destruct Hd as (ds' & Hds' & Hm'); [lia|].
      rewrite Hds in Hds'. injection Hds' as <-. unfold m in Hm'. congruence. }
    intros f d [i Hi]%list_elem_of_lookup Ha. pose proof (lookup_lt_Some _ _ _ Hi) as Hlt.
    apply (answered_unmatched my_mac xid frames target (S i) i f d); try done.
    intros ds' Hds'. destruct (decide (S i = length frames)) as [He|].
    + rewrite He, Hds in Hds'. by injection Hds' as <-.
    + apply (Hj (S i)); [simpl; lia|done].
Qed.

Example resolve_device_first_witness :
  exists d, resolve_device (mkDiscEnv (Ok tt) (Ok (rep 6 1)) (Ok 77) None (RecvFrame <$> [rep 60 3; answer0])) "io-1" = Ok d /\
    device_matches d "io-1" = true.
Proof.
  pose proof (resolve_device_first (rep 6 1) 77 [rep 60 3; answer0] "io-1") as H.
  assert (Hf : Forall bytes_ok [rep 60 3; answer0]).
  { apply (bool_decide_unpack _). vm_compute. exact I. }
  specialize (H Hf). exists device0.
  assert (E : resolve_device (mkDiscEnv (Ok tt) (Ok (rep 6 1)) (Ok 77) None (RecvFrame <$> [rep 60 3; answer0])) "io-1" = Ok device0).
  { vm_compute. reflexivity. }
  split; [exact E|]. rewrite E in H. exact (proj1 H).
Defined.
