(* ===== verification/Oneshot.v ===== *)
(** * The one-shot RPC commands ([src/src/bin/profinet.rs])

    [read], [write], [read-inm0-filter], [read-inm0] .. [read-inm3] and the
    demonstration command [cyclic], over the connections of [Transport] and
    the controller of [Cyclic].

    A command resolves its target ([Cli]), makes its connection, and from there
    on is a computation of [Takeover.K] over its locals, which are dropped at
    its end whatever happened.  What resolving and opening give, the monitor's
    clock and what the two threads of the controller do in between are
    arguments. *)

From S2P Require Import Prelude Fmt Util Gsdml Rpc Rt Connect Transport Device Lines Commands Takeover Cli.
From S2P Require Cyclic Idle Dcp Im Vendors.

#[local] Open Scope string_scope.
#[local] Open Scope list_scope.
#[local] Open Scope Z_scope.

(** [PROFINET_DEBUG] of the environment, [pcap::get_mac], the discovery,
    [pcap::get_ipv4_toward] and the transport [RpcConn::new_raw] opens. *)
Record NetEnv (T : Type) := mkNetEnv {
  ne_debug : bool;
  ne_mac : outcome (list Z);
  ne_disc : DiscEnv;
  ne_toward : list Z -> outcome Dcp.SourceAddress;
  ne_open : outcome (Opened T);
}.
Arguments mkNetEnv {T}.
Arguments ne_debug {T}.
Arguments ne_mac {T}.
Arguments ne_disc {T}.
Arguments ne_toward {T}.
Arguments ne_open {T}.

(** What a command leaves: the statics, what it did, its locals after they
    were dropped when it got to a connection, and its exit code. *)
Record Outcome (T : Type) := mkOutcome {
  oc_globals : Globals;
  oc_acts : list Act;
  oc_locals : option (Locals T);
  oc_code : outcome Z;
}.
Arguments mkOutcome {T}.
Arguments oc_globals {T}.
Arguments oc_acts {T}.
Arguments oc_locals {T}.
Arguments oc_code {T}.

Definition ignore_ok {A B} (o : outcome A) : outcome B :=
  match o with Ok _ => Panic | Err e => Err e | Panic => Panic | OutOfFuel => OutOfFuel end.

Section Connections.
Context {T : Type} `{RpcTransport T} (passes : nat).

(** A connection that is new: [RpcConn::new_raw] with the device's ids. *)
Definition conn_of (dev : Dcp.DcpDevice) (m : Opened T) : RpcConn T :=
  conn_new (o_transport m) (Dcp.device_id dev) (Dcp.vendor_id dev) (o_activity m) (o_ar m) (o_key m).

Definition rpc_transport (env : NetEnv T) (g : Globals) (target : string)
    : Globals * list Act * outcome (RpcConn T) :=
  match (do? ne_mac env; resolve_device (ne_disc env) target) with
  | Ok dev =>
      let '(g, acts, o) := source_address g (ne_toward env) (Dcp.ip dev) in
      (g, acts, let? _ := o in let? m := ne_open env in Ok (conn_of dev m))
  | o => (g, [], ignore_ok o)
  end.

(** The AR of [rpc_connect], once the transport is there. *)
Definition device_access (target : string) (cm_mac : list Z) : K T unit :=
  kmap_err (fun e => "Failed to connect to " +:+ target +:+ ": " +:+ e)
    (klet! _ := kconn (connect_device_access passes cm_mac CM_STATION_NAME) in kret tt).

(** Nothing of a controller: the environment drops are made in. *)
Definition no_controller : Env T :=
  mkEnv (Err EmptyString) (Err EmptyString) (Err EmptyString) (Err EmptyString) (Err EmptyString) 0
    None None None None true (fun _ => true).

(** A command over a transport to the target: what it printed before, then
    [body] on the connection, then the drops. *)
Definition on_transport (env : NetEnv T) (g : Globals) (before : list Act) (target : string) (body : K T Z) : Outcome T :=
  let '(g, acts, o) := rpc_transport env g target in
  match o with
  | Ok conn =>
      let '(s, code) := body (mkLocals conn None None (before ++ acts)) in
      let s := fst (drop_locals no_controller s) in
      mkOutcome g (l_acts s) (Some s) code
  | o => mkOutcome g (before ++ acts) None (ignore_ok o)
  end.
Definition on_connection (env : NetEnv T) (g : Globals) (before : list Act) (target : string) (body : K T Z) : Outcome T :=
  match ne_mac env with
  | Ok cm_mac => on_transport env g before target (kdo! device_access target cm_mac; body)
  | o => mkOutcome g before None (ignore_ok o)
  end.

Definition kprint (line : string) : K T unit := kact (APrint line).
Fixpoint kprints (lines : list string) : K T unit :=
  match lines with [] => kret tt | l :: lines => kdo! kprint l; kprints lines end.
Definition early (g : Globals) (before : list Act) {A} (o : outcome A) : Outcome T :=
  mkOutcome g before None (ignore_ok o).

(** ** Records *)

Definition print_record (data : list Z) : K T unit :=
  kprints ["Read " +:+ dec (len data) +:+ " bytes:"; hex_encode data].

Definition connecting (target : string) : Act := APrint ("Connecting to " +:+ target +:+ "...").

Definition cmd_read (env : NetEnv T) (g : Globals) (target : string) (slot subslot : Z) (index : string) (length_ : Z)
    (implicit : bool) : Outcome T :=
  match parse_index index with
  | Ok idx =>
      if implicit then
        on_transport env g [APrint ("Reading " +:+ target +:+ " without an AR (Read Implicit)...")] target
          (klet! data := kconn (read_raw_implicit passes idx slot subslot length_) in
           kdo! print_record data; kret 0)
      else
        on_connection env g [connecting target] target
          (klet! data := kconn (read_raw passes idx slot subslot length_) in
           kdo! kconn release;
           kdo! print_record data; kret 0)
  | o => early g [] o
  end.

Definition cmd_write (env : NetEnv T) (g : Globals) (target : string) (slot subslot : Z) (index data_hex : string)
    : Outcome T :=
  match parse_index index with
  | Ok idx =>
      match parse_hex data_hex with
      | Ok data =>
          on_connection env g [connecting target] target
            (kdo! kconn (write passes idx slot subslot data);
             kdo! kconn release;
             kdo! kprint ("Wrote " +:+ dec (len data) +:+ " bytes to slot=" +:+ dec slot +:+ " subslot=" +:+ dec subslot
                          +:+ " index=0x" +:+ hexu 4 idx);
             kret 0)
      | o => early g [connecting target] o
      end
  | o => early g [connecting target] o
  end.

(** ** Identification *)

Definition topology_lines (data : Im.InM0FilterData) : list string :=
  concat ((fun api => (NL +:+ "API " +:+ dec (fst api) +:+ ":")
    :: concat ((fun m => ("  Slot " +:+ dec (fst m) +:+ ": Module 0x" +:+ hexu 4 (fst (snd m)))
         :: ((fun s => "    Subslot " +:+ dec (fst s) +:+ ": Submodule 0x" +:+ hexu 4 (snd s)) <$> snd (snd m)))
       <$> snd api)) <$> data).

Definition cmd_read_inm0_filter (env : NetEnv T) (g : Globals) (target : string) : Outcome T :=
  on_connection env g [connecting target] target
    (klet! data := kconn (conn_read_inm0_filter passes) in
     kdo! kconn release;
     kdo! kprints ((NL +:+ "Device Topology:") :: topology_lines data);
     kret 0).

Definition print_im0 (i : Im.InM0) : outcome (list string) :=
  let? v := Vendors.get_vendor_name (Im.im0_vendor_id i) in
  Ok ["IM0 (identification):";
      "  Vendor ID:         0x" +:+ hexu 4 (Im.im0_vendor_id i) +:+ " (" +:+ v +:+ ")";
      "  Order ID:          " +:+ Im.order_id_str i;
      "  Serial number:     " +:+ Im.serial_number_str i;
      "  Hardware revision: " +:+ dec (Im.im_hardware_revision i);
      "  Software revision: " +:+ Im.software_revision i;
      "  Revision counter:  " +:+ dec (Im.im_revision_counter i);
      "  Profile ID:        0x" +:+ hexu 4 (Im.im_profile_id i);
      "  IM supported:      0x" +:+ hexu 4 (Im.im_supported i)].
Definition print_im1 (i : Im.InM1) : list string :=
  ["IM1 (tag):"; "  Tag function:      " +:+ Im.tag_function_str i; "  Tag location:      " +:+ Im.tag_location_str i].
Definition print_im2 (i : Im.InM2) : list string :=
  ["IM2 (date):"; "  Installation date: " +:+ Im.date_str i].
Definition print_im3 (i : Im.InM3) : list string :=
  ["IM3 (descriptor):"; "  Descriptor:        " +:+ Im.descriptor_str i].

(** The read a command's index stands for, and what it prints of it. *)
Definition read_and_print (idx slot subslot : Z) : K T (unit + string) :=
  let after {A} (m : C (T := T) A) (p : A -> outcome (list string)) : K T (unit + string) :=
    klet! r := kattempt m in
    match r with
    | inl a => klet! lines := klift (p a) in kdo! kprints lines; kret (inl tt)
    | inr e => kret (inr e)
    end in
  if idx =? Im.IM0 then after (conn_read_im0 passes slot subslot) print_im0
  else if idx =? Im.IM1 then after (conn_read_im1 passes slot subslot) (fun i => Ok (print_im1 i))
  else if idx =? Im.IM2 then after (conn_read_im2 passes slot subslot) (fun i => Ok (print_im2 i))
  else after (conn_read_im3 passes slot subslot) (fun i => Ok (print_im3 i)).

Definition cmd_read_inm (env : NetEnv T) (g : Globals) (target : string) (slot subslot idx : Z) : Outcome T :=
  on_connection env g [connecting target] target
    (klet! out := read_and_print idx slot subslot in
     kdo! kconn release;
     match out with
     | inl _ => kret 0
     | inr e =>
         kdo! kprint ("No IM" +:+ dec (idx - Im.IM0) +:+ " data available");
         kdo! kif (ne_debug env) (kact (ANote ("(read failed: " +:+ e +:+ ")")));
         kret 0
     end).
End Connections.

(** ** The demonstration command *)

(** A pass of one of the controller's threads. *)
Inductive ThreadPass :=
| RxPass (r : Cyclic.RecvResult) (t1 t2 t3 : Z)
| TxPass (now : Z) (send : option string) (l : Cyclic.TxLocal).

Definition pass_action (p : ThreadPass) : Cyclic.action :=
  match p with
  | RxPass r t1 t2 t3 => Cyclic.ARx r t1 t2 t3
  | TxPass now send l => Cyclic.ATx now send l
  end.

(** One round of the monitor: what the threads did since the last one, whether
    the clock then shows [elapsed >= duration as f64], and [{elapsed:5.1}]. *)
Record Tick := mkTick {
  tk_passes : list ThreadPass;
  tk_reached : bool;
  tk_elapsed : string;
}.

(** The callback on an input status change. *)
Definition status_print (e : Cyclic.Event) : list Act :=
  match e with
  | Cyclic.InputStatus slot subslot iops =>
      [APrint (if Z.land iops IOXS_DATA_STATE_GOOD =? 0 then
                 "  slot " +:+ dec slot +:+ "/" +:+ dec subslot +:+ ": device reports IOPS BAD (0x" +:+ hexu 2 iops +:+ ")"
               else "  slot " +:+ dec slot +:+ "/" +:+ dec subslot +:+ ": IOPS GOOD (0x" +:+ hexu 2 iops +:+ ")")]
  | _ => []
  end.

Definition iolen (slots : list IoSlot) (f : IoSlot -> Z) : Z := foldr (fun s n => f s + n) 0 slots.

(** A line per submodule with data, then the totals. *)
Definition slot_line (s : IoSlot) : list string :=
  if (0 <? input_length s) || (0 <? output_length s) then
    ["  slot=" +:+ dec (slot s) +:+ " sub=" +:+ dec (subslot s) +:+ ": "
     +:+ join ", " ((if 0 <? input_length s then [dec (input_length s) +:+ "B in"] else [])
                    ++ (if 0 <? output_length s then [dec (output_length s) +:+ "B out"] else []))]
  else [].

(** What the monitor shows of a submodule. *)
Definition input_text (s : Cyclic.Shared) (p : Z * Z) : string :=
  let '(slot, subslot) := p in
  let at_ := dec slot +:+ ":" +:+ dec subslot +:+ "=" in
  let bad := match Cyclic.get_input_status s slot subslot with
             | Some iops => at_ +:+ "BAD(0x" +:+ hexu 2 iops +:+ ")"
             | None => at_ +:+ "--"
             end in
  match Cyclic.get_input_data s slot subslot with
  | Some data => if bool_decide (data = []) then bad else at_ +:+ hex_encode data
  | None => bad
  end.

Section CyclicCmd.
Context {T : Type} `{RpcTransport T} (passes : nat) (cenv : Env T).

(** The [--submodule] arguments, whose form alone is checked. *)
Fixpoint check_submodules (specs : list string) : K T unit :=
  match specs with
  | [] => kret tt
  | spec :: specs =>
      if negb (len (split_on ":" spec) =? 3) then
        release_and_fail ("invalid --submodule format '" +:+ spec +:+ "', expected slot:subslot:submodule_id")
      else check_submodules specs
  end.

(** The two threads between two rounds. *)
Definition kthreads (l : list ThreadPass) : K T unit := fun s =>
  match l_ctl s with
  | None => (s, Ok tt)
  | Some c =>
      (klet! r := klift (Cyclic.do_actions (pass_action <$> l) (Cyclic.shared c)) in
       let '(_, sh, ev) := r in
       kdo! kctl (Cyclic.mkController (Cyclic.interface c) sh (Cyclic.tx_thread c) (Cyclic.rx_thread c));
       fun s => (mkLocals (l_conn s) (l_old s) (l_ctl s) (l_acts s ++ AThreads ev :: concat (status_print <$> ev)), Ok tt)) s
  end.
Definition kshared {A} (f : Cyclic.Shared -> A) : K T A := fun s =>
  match l_ctl s with Some c => (s, Ok (f (Cyclic.shared c))) | None => (s, Panic) end.

(** The monitor's loop; when [ticks] is used up it still runs. *)
Fixpoint monitor (duration : Z) (inputs : list (Z * Z)) (ticks : list Tick) : K T unit :=
  match ticks with
  | [] => klift OutOfFuel
  | t :: ticks =>
      kdo! kact (ASleep 1000);
      kdo! kthreads (tk_passes t);
      if (0 <? duration) && tk_reached t then kret tt
      else
        klet! parts := kshared (fun s => input_text s <$> inputs) in
        klet! st := kshared Cyclic.stats in
        kdo! kprint ("[" +:+ tk_elapsed t +:+ "s] " +:+ join " " parts +:+ " | TX=" +:+ dec (Cyclic.frames_sent st)
                     +:+ " RX=" +:+ dec (Cyclic.frames_received st));
        monitor duration inputs ticks
  end.

(** Steps 2 and 3, to the release of the acyclic AR. *)
Definition cyclic_layout (target : string) (cm_mac : list Z) (submodules : list string) (exclude_zero_io : bool)
    : K T (list IoSlot) :=
  kdo! device_access passes target cm_mac;
  kdo! kprint "Discovering slots... ";
  klet! device_slots := kconn (conn_discover_slots passes) in
  kdo! kprint (dec (len device_slots) +:+ " entries");
  kdo! check_submodules submodules;
  klet! gsdml := klift (e_gsdml cenv) in
  klet! slots := klift (build_io_slots_from_device gsdml device_slots None) in
  let slots := apply_zero_io_exclusion slots exclude_zero_io in
  kdo! kprint "Matching against GSDML...";
  kdo! kprints (concat (slot_line <$> slots));
  kdo! kprint ("Total: " +:+ dec (iolen slots input_length) +:+ "B input, " +:+ dec (iolen slots output_length) +:+ "B output");
  kdo! kconn release;
  kdo! kact (ASleep 500);
  kret slots.

(** Step 5: the controller, without a safe output, and its start. *)
Definition cyclic_controller (iface : string) (cm_mac dev_mac : list Z) (slots : list IoSlot) (r : ConnectResult)
    (cycle_ms : Z) : K T unit :=
  let '(input_iocr, output_iocr) := build_iocr_configs slots (r_input_frame_id r) (r_output_frame_id r) 32 cycle_ms 6 in
  klet! c := klift (Cyclic.controller_new iface cm_mac dev_mac input_iocr output_iocr 3 (e_now cenv)) in
  let callbacks := {| Cyclic.on_input_data := false; Cyclic.on_input_status := true; Cyclic.on_timeout := false;
                      Cyclic.on_error := false; Cyclic.on_state_change := false |} in
  let c := Cyclic.mkController (Cyclic.interface c) (Cyclic.set_callbacks callbacks (Cyclic.shared c))
             (Cyclic.tx_thread c) (Cyclic.rx_thread c) in
  kdo! kctl c;
  start_controller cenv c.

(** Steps 4 to 6 and the monitor. *)
Definition cyclic_run (iface : string) (dev : Dcp.DcpDevice) (cm_mac : list Z) (slots : list IoSlot)
    (cycle_ms duration : Z) (ticks : list Tick) : K T Z :=
  klet! m := klift (e_open cenv) in
  kdo! krebind (conn_of dev m);
  let setup := {| io_slots := slots; su_send_clock_factor := 32; su_reduction_ratio := cycle_ms;
                  su_watchdog_factor := 6; data_hold_factor := 6 |} in
  klet! result := kconn (connect passes cm_mac CM_STATION_NAME setup) in
  if negb (has_cyclic result) then release_and_fail "cyclic IO not established by device"
  else if negb (is_rt_class_1_frame_id (r_output_frame_id result)) then
    release_and_fail ("device assigned no usable output frame ID (0x" +:+ hexu 4 (r_output_frame_id result)
      +:+ "); transmitting on it would be silently discarded")
  else
    kdo! kprints [NL +:+ "Cyclic IO (" +:+ dec cycle_ms +:+ "ms cycle)...";
                  "  Input frame: 0x" +:+ hexu 4 (r_input_frame_id result) +:+ ", Output frame: 0x"
                  +:+ hexu 4 (r_output_frame_id result)];
    kdo! cyclic_controller iface cm_mac (Dcp.mac dev) slots result cycle_ms;
    klet! r := kattempt (let! _ := prm_end passes in application_ready passes "15") in
    match r with
    | inr e => kdo! stop_controller cenv; release_and_fail e
    | inl _ =>
        kdo! kprints ["  PrmEnd OK"; "  ApplicationReady OK"; NL +:+ "Running (Ctrl+C to stop)"];
        let inputs := (fun s => (slot s, subslot s)) <$> List.filter (fun s => 0 <? input_length s) slots in
        kdo! monitor duration inputs ticks;
        kdo! stop_controller cenv;
        klet! st := kshared Cyclic.stats in
        kdo! kprint (NL +:+ "Stopped. TX=" +:+ dec (Cyclic.frames_sent st) +:+ " RX=" +:+ dec (Cyclic.frames_received st)
                     +:+ " missed=" +:+ dec (Cyclic.frames_missed st));
        kdo! kconn release;
        kret 0
    end.

Definition cyclic_body (iface target : string) (dev : Dcp.DcpDevice) (cm_mac : list Z) (cycle_ms duration : Z)
    (submodules : list string) (exclude_zero_io : bool) (ticks : list Tick) : K T Z :=
  klet! slots := cyclic_layout target cm_mac submodules exclude_zero_io in
  cyclic_run iface dev cm_mac slots cycle_ms duration ticks.

(** [cmd_cyclic]; [cenv] holds the GSDML device, the second transport and the
    controller's sockets and threads.  A run whose [ticks] are used up is
    still in its monitor and has dropped nothing. *)
Definition cmd_cyclic (env : NetEnv T) (g : Globals) (iface target : string) (cycle_ms duration : Z)
    (submodules : list string) (exclude_zero_io : bool) (ticks : list Tick) : Outcome T :=
  match (do? validate_cycle_ms cycle_ms;
         let? cm_mac := ne_mac env in
         let? dev := resolve_device (ne_disc env) target in Ok (cm_mac, dev)) with
  | Ok (cm_mac, dev) =>
      let '(g, acts, o) := source_address g (ne_toward env) (Dcp.ip dev) in
      match (do? o; let? ip := ip_or_default (Dcp.ip dev) in Ok ip) with
      | Ok ip =>
          let acts := acts ++ [APrint ("Connecting to " +:+ target +:+ " (" +:+ ip +:+ ")...")] in
          match ne_open env with
          | Ok m =>
              let '(s, code) := cyclic_body iface target dev cm_mac cycle_ms duration submodules exclude_zero_io ticks
                                  (mkLocals (conn_of dev m) None None acts) in
              match code with
              | OutOfFuel => mkOutcome g (l_acts s) (Some s) code
              | _ => let s := fst (drop_locals cenv s) in mkOutcome g (l_acts s) (Some s) code
              end
          | o => mkOutcome g acts None (ignore_ok o)
          end
      | o => mkOutcome g acts None (ignore_ok o)
      end
  | o => mkOutcome g [] None (ignore_ok o)
  end.
End CyclicCmd.

(** ** What holds at every point of a command *)

Section Lands.
Context {T : Type} `{RpcTransport T}.

(** From [P] the computation ends in [Q], whatever its result. *)
Definition lands {A} (P : Locals T -> Prop) (m : K T A) (Q : Locals T -> Prop) : Prop :=
  forall s, P s -> Q (fst (m s)).
Definition steady {A} (P : Locals T -> Prop) (m : K T A) : Prop := lands P m P.

Lemma lands_bind {A B} (m : K T A) (k : A -> K T B) P Q :
  lands P m Q -> (forall a, steady Q (k a)) -> lands P (kbind m k) Q.
Proof. intros Hm Hk s Hs. specialize (Hm s Hs). unfold kbind. destruct (m s) as [s' [a|e| |]]; try done. by apply Hk. Qed.
Lemma lands_after {A B} (m : K T A) (k : A -> K T B) (P Q : Locals T -> Prop) :
  steady P m -> (forall s, P s -> Q s) -> (forall a, lands P (k a) Q) -> lands P (kbind m k) Q.
Proof.
  intros Hm HPQ Hk s Hs. specialize (Hm s Hs). unfold kbind.
  destruct (m s) as [s' [a|e| |]]; [by apply Hk|by apply HPQ..].
Qed.
Lemma steady_bind {A B} (m : K T A) (k : A -> K T B) P : steady P m -> (forall a, steady P (k a)) -> steady P (kbind m k).
Proof. apply lands_bind. Qed.
Lemma steady_ret {A} (a : A) P : steady P (kret (T := T) a).
Proof. by intros s. Qed.
Lemma steady_lift {A} (o : outcome A) P : steady P (klift (T := T) o).
Proof. by intros s. Qed.
Lemma steady_if b m P : steady P m -> steady P (kif (T := T) b m).
Proof. intros Hm. destruct b; [done|apply steady_ret]. Qed.
Lemma steady_map_err {A} f (m : K T A) P : steady P m -> steady P (kmap_err f m).
Proof. intros Hm s Hs. specialize (Hm s Hs). unfold kmap_err. by destruct (m s). Qed.
Lemma steady_shared {A} (f : Cyclic.Shared -> A) P : steady P (kshared (T := T) f).
Proof. intros s Hs. unfold kshared. by destruct (l_ctl s). Qed.

(** The invariants do not look at the connections, and judge an action by
    itself. *)
Record local_inv (P : Locals T -> Prop) (ok : Act -> Prop) : Prop := {
  inv_conn : forall s c o, P s -> P (mkLocals c o (l_ctl s) (l_acts s));
  inv_acts : forall s l, P s -> Forall ok l -> P (mkLocals (l_conn s) (l_old s) (l_ctl s) (l_acts s ++ l));
  inv_plain : forall a, match a with AStart _ | AThreads _ | AStop _ => True | _ => ok a end;
}.

Section Inv.
Context (P : Locals T -> Prop) (ok : Act -> Prop) (HP : local_inv P ok).
Lemma steady_conn {A} (m : C (T := T) A) : steady P (kconn m).
Proof using HP. intros s Hs. unfold kconn. destruct (m (l_conn s)) as [c o]. by apply (inv_conn _ _ HP). Qed.
Lemma steady_attempt {A} (m : C (T := T) A) : steady P (kattempt m).
Proof using HP. intros s Hs. unfold kattempt. destruct (m (l_conn s)) as [c o]. by apply (inv_conn _ _ HP). Qed.
Lemma steady_rebind c : steady P (krebind c).
Proof using HP. intros s Hs. by apply (inv_conn _ _ HP). Qed.
Lemma steady_act a : ok a -> steady P (kact a).
Proof using HP. intros Ha s Hs. apply (inv_acts _ _ HP); [done|by constructor]. Qed.
Lemma steady_print l : steady P (kprint l).
Proof using HP. apply steady_act, (inv_plain _ _ HP (APrint l)). Qed.
Lemma steady_prints ls : steady P (kprints ls).
Proof using HP. induction ls; cbn [kprints]; [apply steady_ret|apply steady_bind; [apply steady_print|done]]. Qed.
Lemma steady_release_fail {A} e : steady P (release_and_fail (A := A) e).
Proof using HP. apply steady_bind; [apply steady_conn|intros _; apply steady_lift]. Qed.
Lemma steady_submodules l : steady P (check_submodules l).
Proof using HP.
  induction l as [|x l IH]; cbn [check_submodules]; [apply steady_ret|].
  destruct (negb _); [apply steady_release_fail|exact IH].
Qed.
Lemma steady_access passes t m : steady P (device_access passes t m).
Proof using HP. apply steady_map_err, steady_bind; [apply steady_conn|intros; apply steady_ret]. Qed.
Lemma steady_sleep ms : steady P (kact (ASleep ms)).
Proof using HP. apply steady_act, (inv_plain _ _ HP (ASleep ms)). Qed.
Lemma steady_note l : steady P (kact (ANote l)).
Proof using HP. apply steady_act, (inv_plain _ _ HP (ANote l)). Qed.
End Inv.

(** No controller yet, and nothing of one done. *)
Definition silent (a : Act) : Prop := match a with AStart _ | AThreads _ | AStop _ => False | _ => True end.
Definition alone (s : Locals T) : Prop := l_ctl s = None /\ Forall silent (l_acts s).

(** A controller of output [cfg] that drives nothing, and sent only zeros. *)
Definition zero_of (cfg : IocrConfig) (f : list Z) : Prop :=
  exists fr, parse_ethernet_frame f = Ok (Some fr) /\ Rt.frame_id fr = c_frame_id cfg /\ Idle.zero_image cfg (Rt.payload fr).
Definition zero_act (cfg : IocrConfig) (a : Act) : Prop :=
  match a with AStart ev | AThreads ev | AStop ev => Forall (zero_of cfg) (Cyclic.sent ev) | _ => True end.
Definition idle_ctl (cfg : IocrConfig) (c : Cyclic.CyclicController) : Prop :=
  Cyclic.shared_ok (Cyclic.shared c) /\ Idle.idle_state (Cyclic.shared c) /\ Cyclic.output_iocr (Cyclic.shared c) = cfg.
Definition listening (cfg : IocrConfig) (s : Locals T) : Prop :=
  (forall c, l_ctl s = Some c -> idle_ctl cfg c) /\ Forall (zero_act cfg) (l_acts s).

Lemma alone_inv : local_inv alone silent.
Proof.
  constructor; [done| |by intros []]. intros s l [Hc Ha] Hl. split; [done|]. by apply Forall_app.
Qed.
Lemma listening_inv cfg : local_inv (listening cfg) (zero_act cfg).
Proof.
  constructor; [done| |by intros []]. intros s l [Hc Ha] Hl. split; [done|]. by apply Forall_app.
Qed.
Lemma alone_listening cfg s : alone s -> listening cfg s.
Proof.
  intros [Hc Ha]. split; [by rewrite Hc|]. eapply Forall_impl; [exact Ha|]. by intros [].
Qed.

Lemma idle_step cfg c sh' : idle_ctl cfg c -> Cyclic.shared_ok sh' -> Cyclic.same_config (Cyclic.shared c) sh' ->
  Idle.idle_state sh' -> forall i t r, idle_ctl cfg (Cyclic.mkController i sh' t r).
Proof. intros (_ & _ & Ho) Hs (_ & _ & _ & Hc & _) Hi i t r. split_and!; [done|done|]. cbn. congruence. Qed.
Lemma idle_frames cfg c ev : Cyclic.output_iocr (Cyclic.shared c) = cfg ->
  Forall (Idle.zero_frame (Cyclic.shared c)) (Cyclic.sent ev) -> Forall (zero_of cfg) (Cyclic.sent ev).
Proof. intros <-. intros Hf; eapply Forall_impl; [exact Hf|done]. Qed.

Lemma listening_ctl cfg s c l : listening cfg s -> idle_ctl cfg c -> Forall (zero_act cfg) l ->
  listening cfg (mkLocals (l_conn s) (l_old s) (Some c) (l_acts s ++ l)).
Proof. intros [_ Ha] Hc Hl. split; [by intros ? [= <-]|]. by apply Forall_app. Qed.

Context (passes : nat) (cenv : Env T).

Lemma steady_stop cfg : steady (listening cfg) (stop_controller cenv).
Proof.
  intros s Hs. unfold stop_controller. destruct (l_ctl s) as [c|] eqn:E; [|done].
  destruct Hs as [Hc Ha]. pose proof (Hc c E) as Hi. pose proof Hi as (Hok & Hid & Hcfg).
  destruct (total_Ok _ _ (Idle.stop_idle c (e_joined cenv) (e_sends cenv) Hok Hid)) as ([c' ev] & Es & Hs' & Hc' & Hi' & He).
  unfold kbind, klift. rewrite Es. cbn [fst snd kctl kact l_conn l_old l_ctl l_acts].
  apply (listening_ctl cfg s); [done|destruct c'; by apply (idle_step cfg c)|].
  constructor; [|constructor]. by apply (idle_frames cfg c).
Qed.

Lemma steady_start cfg c : idle_ctl cfg c -> steady (listening cfg) (start_controller cenv c).
Proof.
  intros Hi s Hs. pose proof Hi as (Hok & Hid & Hcfg). unfold start_controller.
  destruct (total_Ok _ _ (Idle.start_idle c (e_now cenv) (e_open_tx cenv) (e_open_rx cenv) (e_spawn_tx cenv)
                            (e_spawn_rx cenv) Hok Hid)) as ([[err c'] ev] & Es & Hs' & Hc' & Hi' & He).
  unfold kbind, klift. rewrite Es. cbn [kctl kact l_conn l_old l_ctl l_acts].
  assert (Hl : listening cfg (mkLocals (l_conn s) (l_old s) (Some c') (l_acts s ++ [AStart ev]))).
  { apply (listening_ctl cfg s); [done|destruct c'; by apply (idle_step cfg c)|].
    constructor; [|constructor]. by apply (idle_frames cfg c). }
  by destruct err.
Qed.

Lemma status_prints_silent cfg ev : Forall (zero_act cfg) (concat (status_print <$> ev)).
Proof.
  induction ev as [|e ev IH]; [constructor|]. cbn. apply Forall_app. split; [|done].
  destruct e; repeat constructor.
Qed.

Lemma steady_threads cfg l : steady (listening cfg) (kthreads l).
Proof.
  intros s Hs. unfold kthreads. destruct (l_ctl s) as [c|] eqn:E; [|done].
  destruct Hs as [Hc Ha]. pose proof (Hc c E) as Hi. pose proof Hi as (Hok & Hid & Hcfg).
  assert (Hp : Idle.idles (Cyclic.do_actions (pass_action <$> l))).
  { apply Idle.passes_idle. clear. induction l as [|[]]; by constructor. }
  destruct (Cyclic.wpM_run _ _ _ (Hp _ Hok Hid)) as ([] & sh & ev & Es & Hs' & Hc' & Hi' & He).
  unfold kbind, klift. rewrite Es. cbn [kctl l_conn l_old l_ctl l_acts fst].
  apply (listening_ctl cfg s); [done|by apply (idle_step cfg c)|].
  constructor; [by apply (idle_frames cfg c)|apply status_prints_silent].
Qed.

Lemma steady_monitor cfg d inputs ticks : steady (listening cfg) (monitor d inputs ticks).
Proof.
  induction ticks as [|t ticks IH]; cbn [monitor]; [apply steady_lift|].
  apply steady_bind; [apply (steady_sleep _ _ (listening_inv cfg))|intros _].
  apply steady_bind; [apply steady_threads|intros _].
  destruct (_ && _); [apply steady_ret|]. apply steady_bind; [apply steady_shared|intros parts].
  apply steady_bind; [apply steady_shared|intros st].
  apply steady_bind; [apply (steady_print _ _ (listening_inv cfg))|intros _; exact IH].
Qed.

Lemma lands_controller iface cm dm slots r cyc :
  length cm = 6%nat -> length dm = 6%nat -> is_rt_class_1_frame_id (r_output_frame_id r) = true ->
  lands alone (cyclic_controller cenv iface cm dm slots r cyc)
    (listening (snd (build_iocr_configs slots (r_input_frame_id r) (r_output_frame_id r) 32 cyc 6))).
Proof.
  intros Hcm Hdm Hid. unfold cyclic_controller.
  destruct (build_iocr_configs_ok slots (r_input_frame_id r) (r_output_frame_id r) 32 cyc 6) as (Hi & Ho & _ & _).
  assert (Hf : c_frame_id (snd (build_iocr_configs slots (r_input_frame_id r) (r_output_frame_id r) 32 cyc 6))
               = r_output_frame_id r) by (unfold build_iocr_configs; by repeat case_match).
  destruct (build_iocr_configs _ _ _ _ _ _) as [cin cout]. cbn [fst snd] in *.
  assert (Hfo : u16_ok (c_frame_id cout)).
  { rewrite Hf. revert Hid. unfold is_rt_class_1_frame_id, FRAME_ID_RT_CLASS_1_MIN, FRAME_ID_RT_CLASS_1_MAX, u16_ok. lia. }
  intros s Hs. destruct (Cyclic.controller_new iface cm dm cin cout 3 (e_now cenv)) as [c|e| |] eqn:Ec;
    unfold kbind, klift; [|by apply alone_listening..].
  pose proof (Cyclic.controller_new_ok _ _ _ _ _ _ _ c Hcm Hdm Hi Ho Hfo Ec) as Hok.
  destruct (Idle.controller_new_idle _ _ _ _ _ _ _ c Ho Ec) as [Hidle Hcfg].
  cbv zeta. match goal with |- context [kctl ?x] => set (c1 := x) end.
  assert (H1 : idle_ctl cout c1).
  { split_and!; [|exact Hidle|exact Hcfg]. destruct Hok; constructor; cbn; auto. }
  apply (steady_start cout c1 H1). destruct (alone_listening cout s Hs) as [_ Ha].
  split; [by intros ? [= <-]|exact Ha].
Qed.

(** Where a run of [cyclic] can be: before its controller, or with one that
    drives nothing on a layout of the submodules. *)
Definition listens (cyc : Z) (s : Locals T) : Prop :=
  exists slots fi fo, listening (snd (build_iocr_configs slots fi fo 32 cyc 6)) s.
Lemma alone_listens cyc s : alone s -> listens cyc s.
Proof. intros Hs. exists [], 0, 0. by apply alone_listening. Qed.
Lemma steady_listens {A} cyc (m : K T A) : (forall cfg, steady (listening cfg) m) -> steady (listens cyc) m.
Proof. intros Hm s (slots & fi & fo & Hs). exists slots, fi, fo. by apply Hm. Qed.

Lemma steady_layout target cm subs ex : steady alone (cyclic_layout passes cenv target cm subs ex).
Proof.
  pose proof alone_inv as HA. unfold cyclic_layout.
  repeat (apply steady_bind; [first
    [ by apply (steady_access _ _ HA) | by apply (steady_print _ _ HA) | by apply (steady_prints _ _ HA)
    | by apply (steady_conn _ _ HA) | by apply (steady_submodules _ _ HA) | apply steady_lift
    | by apply (steady_sleep _ _ HA) ]|intros ?]).
  apply steady_ret.
Qed.

Lemma lands_run iface dev cm slots cyc d ticks : length cm = 6%nat -> length (Dcp.mac dev) = 6%nat ->
  lands alone (cyclic_run passes cenv iface dev cm slots cyc d ticks) (listens cyc).
Proof.
  intros Hcm Hdm. pose proof alone_inv as HA. pose proof (alone_listens cyc) as Hw. unfold cyclic_run.
  apply lands_after; [apply steady_lift|exact Hw|intros m].
  apply lands_after; [apply (steady_rebind _ _ HA)|exact Hw|intros _]. cbv zeta.
  apply lands_after; [apply (steady_conn _ _ HA)|exact Hw|intros r].
  destruct (has_cyclic r); cbn [negb]; [|intros s Hs; by apply Hw, (steady_release_fail _ _ HA)].
  destruct (is_rt_class_1_frame_id _) eqn:Hid; cbn [negb]; [|intros s Hs; by apply Hw, (steady_release_fail _ _ HA)].
  apply lands_after; [apply (steady_prints _ _ HA)|exact Hw|intros _].
  apply lands_bind.
  { intros s Hs. exists slots, (r_input_frame_id r), (r_output_frame_id r). by apply lands_controller. }
  intros _. apply steady_listens. intros cfg. pose proof (listening_inv cfg) as HL.
  apply steady_bind; [apply (steady_attempt _ _ HL)|intros [u|e]].
  - repeat (apply steady_bind; [first
      [ by apply (steady_print _ _ HL) | by apply (steady_prints _ _ HL) | by apply steady_monitor | by apply steady_stop
      | by apply (steady_conn _ _ HL) | apply steady_shared ]|intros ?]). apply steady_ret.
  - apply steady_bind; [apply steady_stop|intros _; apply (steady_release_fail _ _ HL)].
Qed.

Lemma lands_body iface target dev cm cyc d subs ex ticks : length cm = 6%nat -> length (Dcp.mac dev) = 6%nat ->
  lands alone (cyclic_body passes cenv iface target dev cm cyc d subs ex ticks) (listens cyc).
Proof.
  intros Hcm Hdm. apply lands_after; [apply steady_layout|apply alone_listens|intros slots]. by apply lands_run.
Qed.
End Lands.

(** ** Commands leave nothing behind *)

Lemma source_address_silent g toward dst : Forall silent (snd (fst (source_address g toward dst))).
Proof.
  unfold source_address, report_source_note. destruct (chosen_source _ _ _) as [[ip [n|]]|e| |]; try constructor.
  destruct (g_note_said g); cbn; [constructor|]. destruct (g_serve_mode g); repeat constructor.
Qed.

(** The locals of a command that is over: every AR it opened is down and no
    controller runs. *)
Definition all_down {T} (s : Locals T) : Prop :=
  connected (l_conn s) = false /\ (forall old, l_old s = Some old -> connected old = false) /\
  forall c, l_ctl s = Some c -> Cyclic.running (Cyclic.shared c) = false.

Section Down.
Context {T : Type} `{RpcTransport T} (passes : nat).
Hypothesis Hsend : forall b t, safe (snd (send_request b t)).

Lemma drop_all_down cenv s : ctl_ok (l_ctl s) -> all_down (fst (drop_locals cenv s)).
Proof using Hsend. intros Hc. destruct (drop_locals_down cenv Hsend s Hc) as (H1 & _ & H2 & H3 & _). by split_and!. Qed.

Lemma on_transport_down env g before target (body : K T Z) s :
  Forall silent before -> steady alone body -> oc_locals (on_transport env g before target body) = Some s -> all_down s.
Proof using Hsend.
  intros Hb Hbody. unfold on_transport. destruct (rpc_transport env g target) as [[g' acts] o] eqn:E.
  destruct o as [conn|e| |]; [|done..].
  assert (Ha : Forall silent acts).
  { unfold rpc_transport in E. destruct (bind _ _) as [dev|e| |]; [|injection E as <- <-; constructor|discriminate E..].
    pose proof (source_address_silent g (ne_toward env) (Dcp.ip dev)) as Hs.
    destruct (source_address _ _ _) as [[g1 a1] o1]. by injection E as <- <- _. }
  destruct (body _) as [s1 code] eqn:Eb. intros [= <-]. apply drop_all_down.
  pose proof (Hbody (mkLocals conn None None (before ++ acts))) as Hs. rewrite Eb in Hs. cbn in Hs.
  destruct Hs as [Hc _]; [|by rewrite Hc]. split; [done|]. by apply Forall_app.
Qed.
Lemma on_connection_down env g before target (body : K T Z) s :
  Forall silent before -> steady alone body -> oc_locals (on_connection passes env g before target body) = Some s ->
  all_down s.
Proof using Hsend.
  intros Hb Hbody. unfold on_connection. destruct (ne_mac env) as [cm|e| |]; [|done..].
  apply on_transport_down; [done|]. apply steady_bind; [apply (steady_access _ _ alone_inv)|intros _; exact Hbody].
Qed.
End Down.

Section Commands.
Context {T : Type} `{RpcTransport T} (passes : nat).
Hypothesis Hsend : forall b t, safe (snd (send_request b t)).

Ltac steady_records :=
  repeat (apply steady_bind; [first
    [ by apply (steady_print _ _ alone_inv) | by apply (steady_prints _ _ alone_inv) | by apply (steady_conn _ _ alone_inv)
    | by apply (steady_attempt _ _ alone_inv) | apply steady_lift
    | apply steady_if, (steady_note _ _ alone_inv) ]|intros ?]); try apply steady_ret.

Lemma cmd_read_down env g target slot subslot index n implicit s :
  oc_locals (cmd_read passes env g target slot subslot index n implicit) = Some s -> all_down s.
Proof using Hsend.
  unfold cmd_read. destruct (parse_index index); [|done..]. destruct implicit.
  - apply on_transport_down; [done|by repeat constructor|]. unfold print_record. steady_records.
  - apply on_connection_down; [done|by repeat constructor|]. unfold print_record. steady_records.
Qed.
Lemma cmd_write_down env g target slot subslot index hex s :
  oc_locals (cmd_write passes env g target slot subslot index hex) = Some s -> all_down s.
Proof using Hsend.
  unfold cmd_write. destruct (parse_index index); [|done..]. destruct (parse_hex hex); [|done..].
  apply on_connection_down; [done|by repeat constructor|]. steady_records.
Qed.
Lemma cmd_filter_down env g target s :
  oc_locals (cmd_read_inm0_filter passes env g target) = Some s -> all_down s.
Proof using Hsend. apply on_connection_down; [done|by repeat constructor|]. steady_records. Qed.
Lemma cmd_inm_down env g target slot subslot idx s :
  oc_locals (cmd_read_inm passes env g target slot subslot idx) = Some s -> all_down s.
Proof using Hsend.
  apply on_connection_down; [done|by repeat constructor|].
  apply steady_bind.
  - unfold read_and_print. cbv zeta. repeat case_match; apply steady_bind; try apply (steady_attempt _ _ alone_inv);
      intros [a|e]; steady_records.
  - intros out. apply steady_bind; [apply (steady_conn _ _ alone_inv)|intros _]. destruct out; steady_records.
Qed.

Lemma steady_drop cenv cyc s : listens cyc s -> listens cyc (fst (drop_locals cenv s)).
Proof.
  intros Hs. apply (steady_listens cyc _ (fun cfg => steady_stop cenv cfg)) in Hs. unfold drop_locals.
  destruct (stop_controller cenv s) as [s' o]. destruct Hs as (slots & fi & fo & Hs).
  exists slots, fi, fo. cbn [fst] in *. destruct Hs as [Hc Ha]. by split.
Qed.
Lemma listens_ok cyc (s : Locals T) : listens cyc s -> ctl_ok (l_ctl s).
Proof. intros (slots & fi & fo & Hc & _) c E. by destruct (Hc c E). Qed.

Lemma mac_octets d : Dcp.device_typed d -> length (Dcp.mac d) = 6%nat.
Proof. intros Hd. destruct (Dcp.dt_mac d Hd). lia. Qed.

(** What the demonstration command sent and leaves. *)
Lemma cyclic_ends cenv env g iface target cyc d subs ex ticks :
  (forall m, ne_mac env = Ok m -> length m = 6%nat) ->
  Forall Dcp.recv_typed (di_recvs (ne_disc env)) ->
  let oc := cmd_cyclic passes cenv env g iface target cyc d subs ex ticks in
  (exists slots fi fo, Forall (zero_act (snd (build_iocr_configs slots fi fo 32 cyc 6))) (oc_acts oc)) /\
  (oc_code oc <> OutOfFuel -> forall s, oc_locals oc = Some s -> all_down s).
Proof using Hsend.
  intros Hm Hd. unfold cmd_cyclic. 
  assert (Hnone : forall acts, Forall silent acts ->
    exists slots fi fo, Forall (zero_act (snd (build_iocr_configs slots fi fo 32 cyc 6))) acts).
  { intros acts Ha. exists [], 0, 0. eapply Forall_impl; [exact Ha|]. by intros []. }
  destruct (bind (validate_cycle_ms cyc) _) as [[cm dev]|e| |] eqn:E; cbn zeta;
    [|split; [by apply Hnone; constructor|done]..].
  apply bind_Ok_inv in E as (_ & _ & E). apply bind_Ok_inv in E as (cm' & Ecm & E).
  apply bind_Ok_inv in E as (dev' & Edev & [= -> ->]).
  pose proof (source_address_silent g (ne_toward env) (Dcp.ip dev)) as Hs.
  destruct (source_address g (ne_toward env) (Dcp.ip dev)) as [[g1 acts] o]. cbn [fst snd] in Hs.
  destruct (bind o _) as [ip|e| |]; [|split; [by apply Hnone|done]..].
  set (acts1 := acts ++ _). assert (Ha1 : Forall silent acts1) by (apply Forall_app; split; [done|by repeat constructor]).
  destruct (ne_open env) as [m|e| |]; [|split; [by apply Hnone|done]..].
  pose proof (lands_body passes cenv iface target dev cm cyc d subs ex ticks (Hm _ Ecm) (mac_octets _ (resolve_device_typed _ _ _ Hd Edev))
                (mkLocals (conn_of dev m) None None acts1)) as Hl.
  destruct (cyclic_body _ _ _ _ _ _ _ _ _ _ _ _) as [s code]. cbn [fst] in Hl. specialize (Hl (conj eq_refl Ha1)).
  assert (Hov : listens cyc (fst (drop_locals cenv s)) /\ all_down (fst (drop_locals cenv s))).
  { split; [by apply steady_drop|]. apply drop_all_down; [done|]. by apply (listens_ok cyc). }
  destruct Hov as [(slots & fi & fo & _ & Hz) Hdown].
  destruct code as [c|e| |]; (split; [|intros Hne s' [= <-]; try done]); try (by exists slots, fi, fo).
  destruct Hl as (slots' & fi' & fo' & _ & Hz'). by exists slots', fi', fo'.
Qed.

(** C13: The demonstration command only listens.  Whatever the device, the network
    and the clock do, every frame its controller sends, the STOP frames
    included, carries zeros in every output submodule of the layout it
    announced; and when it is over, however it ended, both its ARs are down and
    its controller has stopped. *)
Theorem cyclic_only_listens cenv env g iface target cyc d subs ex ticks :
  (forall m, ne_mac env = Ok m -> length m = 6%nat) ->
  Forall Dcp.recv_typed (di_recvs (ne_disc env)) ->
  let oc := cmd_cyclic passes cenv env g iface target cyc d subs ex ticks in
  (exists slots fi fo, Forall (zero_act (snd (build_iocr_configs slots fi fo 32 cyc 6))) (oc_acts oc)) /\
  (oc_code oc <> OutOfFuel -> forall s, oc_locals oc = Some s -> all_down s).
Proof using Hsend. apply cyclic_ends. Qed.
End Commands.

(** ** A run that succeeds *)

(** A device found by its name, which the two connections of [cyclic] talk to. *)
Definition demo_net : NetEnv Script :=
  mkNetEnv false (Ok (rep 6 1)) (mkDiscEnv (Ok tt) (Ok (rep 6 1)) (Ok 77) None [Dcp.RecvFrame Dcp.answer0])
    (fun _ => Ok {| Dcp.s_ip := [192; 168; 0; 2]; Dcp.reaches_target := true |})
    (Ok (mkOpened (demo_script [reply (rep 16 1) 0 CONNECT []; read_reply (rep 16 1) 1 demo_device_slots] [])
           (rep 16 1) (rep 16 2) 3)).
Definition demo_globals : Globals := mkGlobals 0 false false.
Definition demo_ticks : list Tick :=
  [mkTick [TxPass 40 None {| Cyclic.next_send := 32; Cyclic.last_send := 0; Cyclic.first_frame := true |}] true "  1.0"].
#[local] Notation demo_cyclic :=
  (cmd_cyclic (H := script_transport) 5 (demo_env (Ok demo_opened) None) demo_net demo_globals "eth0" "io-1" 32 1 []
     false demo_ticks).

(** The frames an action of the controller sent. *)
Definition act_frames (a : Act) : list (list Z) :=
  match a with AStart ev | AThreads ev | AStop ev => Cyclic.sent ev | _ => [] end.

(** One frame of the monitor's time and three STOP frames, all of zeros. *)
Example cyclic_only_listens_witness :
  oc_code demo_cyclic = Ok 0 /\ length (concat (act_frames <$> oc_acts demo_cyclic)) = 4%nat /\
  (exists slots fi fo, Forall (zero_act (snd (build_iocr_configs slots fi fo 32 32 6))) (oc_acts demo_cyclic)) /\
  exists s, oc_locals demo_cyclic = Some s /\ all_down s.
Proof.
  assert (Hm : forall m, ne_mac demo_net = Ok m -> length m = 6%nat) by (by intros m [= <-]).
  assert (Hd : Forall Dcp.recv_typed (di_recvs (ne_disc demo_net))).
  { constructor; [|constructor]. apply (bool_decide_unpack (bytes_ok Dcp.answer0)). vm_compute. exact I. }
  destruct (cyclic_only_listens (H := script_transport) 5 (fun _ _ => I) (demo_env (Ok demo_opened) None) demo_net demo_globals
              "eth0" "io-1" 32 1 [] false demo_ticks Hm Hd) as [Hz Hs].
  assert (E : oc_code demo_cyclic = Ok 0) by (vm_compute; reflexivity).
  assert (Hl : exists s, oc_locals demo_cyclic = Some s) by (eexists; vm_compute; reflexivity).
  split; [exact E|]. split; [vm_compute; reflexivity|]. split; [exact Hz|].
  destruct Hl as [s Hl]. exists s. split; [exact Hl|].
  assert (Hne : oc_code demo_cyclic <> OutOfFuel) by (rewrite E; discriminate).
  exact (Hs Hne s Hl).
Defined.

(** ** Without a duration *)

Section NoEnd.
Context {T : Type} `{RpcTransport T}.

Definition never {A} (m : K T A) : Prop := forall s a, snd (m s) <> Ok a.
Lemma never_bind {A B} (m : K T A) (k : A -> K T B) : (never m \/ forall a, never (k a)) -> never (kbind m k).
Proof.
  intros Hn s b. unfold kbind. destruct (m s) as [s' [a|e| |]] eqn:E; try done.
  destruct Hn as [Hn|Hn]; [|apply Hn]. specialize (Hn s a). by rewrite E in Hn.
Qed.
Lemma never_fail {A} e : never (A := A) (release_and_fail e).
Proof. apply never_bind. right. by intros a s b. Qed.
Lemma never_monitor inputs ticks : never (monitor (T := T) 0 inputs ticks).
Proof.
  induction ticks as [|t ticks IH]; cbn [monitor]; [by intros s a|].
  do 2 (apply never_bind; right; intros _). cbn [andb Z.ltb Z.compare].
  do 3 (apply never_bind; right; intros ?). exact IH.
Qed.

(** With the default [--duration 0] the command never comes to its clean end:
    its loop looks at no flag, and no signal handler is installed, so the
    Ctrl+C its banner names ends the process where it is, with neither STOP
    frames nor a release. *)
Theorem cyclic_without_duration passes cenv env g iface target cyc subs ex ticks code :
  oc_code (cmd_cyclic passes cenv env g iface target cyc 0 subs ex ticks) <> Ok code.
Proof.
  unfold cmd_cyclic. destruct (bind (validate_cycle_ms cyc) _) as [[cm dev]|e| |]; try done.
  destruct (source_address _ _ _) as [[g1 acts] o]. destruct (bind o _) as [ip|e| |]; try done.
  cbv zeta. destruct (ne_open env) as [m|e| |]; try done.
  assert (Hb : never (cyclic_body passes cenv iface target dev cm cyc 0 subs ex ticks)).
  { apply never_bind. right. intros slots. unfold cyclic_run. do 3 (apply never_bind; right; intros ?).
    match goal with |- context [has_cyclic ?r] => destruct (has_cyclic r) end; cbn [negb]; [|apply never_fail].
    destruct (is_rt_class_1_frame_id _); cbn [negb]; [|apply never_fail].
    do 3 (apply never_bind; right; intros ?).
    match goal with |- context [match ?x with inl _ => _ | inr _ => _ end] => destruct x end.
    - apply never_bind. right. intros _. cbv zeta. apply never_bind. left. apply never_monitor.
    - apply never_bind. right. intros _. apply never_fail. }
  specialize (Hb (mkLocals (conn_of dev m) None None (acts ++ [APrint ("Connecting to " +:+ target +:+ " (" +:+ ip +:+ ")...")])) code).
  destruct (cyclic_body _ _ _ _ _ _ _ _ _ _ _ _) as [s o']. cbn [snd] in Hb. destruct o'; done.
Qed.
End NoEnd.
