(* ===== verification/Main.v ===== *)
(** * The command line ([src/src/bin/profinet.rs])

    The commands with their arguments, [run] with its guards and its dispatch,
    the process' exit code and the signal handler.  Parsing the arguments is
    the [clap] crate's; what the interface, the network and the system answer
    is the record [System]. *)

From S2P Require Import Prelude Fmt Transport Device Lines Control Takeover Capture Cli Oneshot.
From S2P Require Im Rpc Serve RawUdp.

#[local] Open Scope string_scope.
#[local] Open Scope list_scope.
#[local] Open Scope Z_scope.

Record ImArgs := mkImArgs { im_target : string; im_api : Z; im_slot : Z; im_subslot : Z }.

Record ServeArgs := mkServeArgs {
  sa_target : string;
  sa_read_only : bool;
  sa_gap_ms : Z;
  sa_keepalive_ms : Z;
  sa_cyclic : bool;
  sa_gsdml : option string;
  sa_cycle_ms : Z;
  sa_watchdog_factor : Z;
  sa_exclude : bool;
  sa_allow_mask : Z;
  sa_bench : bool;
  sa_seconds : Z;
}.

Inductive Command :=
| Proto
| CaptureCheck
| Discover
| GetParam (target : string) (param : Param)
| SetParam (target : string) (param : SettableParam) (value : string) (permanent : bool)
| Read (target : string) (api slot subslot : Z) (index : string) (length_ : Z) (implicit : bool)
| Write (target : string) (api slot subslot : Z) (index data : string)
| ReadInm0Filter (target : string)
| ReadInm0 (args : ImArgs)
| ReadInm1 (args : ImArgs)
| ReadInm2 (args : ImArgs)
| ReadInm3 (args : ImArgs)
| SetIpCmd (target ip netmask gateway : string) (permanent : bool)
| SignalCmd (target : string)
| ResetCmd (target : string) (mode : ResetMode)
| CyclicCmd (target gsdml : string) (cycle_ms duration : Z) (submodule : list string) (exclude_zero_io : bool)
| ServeCmd (args : ServeArgs).

Record CliArgs := mkArgs {
  cli_interface : option string;
  cli_source_ip : option (list Z);
  cli_timeout : Z;
  cli_json : bool;
  cli_command : Command;
}.

Definition speaks_json (c : Command) : bool :=
  match c with
  | Proto | CaptureCheck | Discover | SetParam _ _ _ _ | SetIpCmd _ _ _ _ _ | SignalCmd _ | ResetCmd _ _ => true
  | _ => false
  end.

(** What the commands meet, on the interface given.  A session runs over the
    [World] its opening leads to, for at most [sy_fuel] passes. *)
Record System (S T W : Type) := mkSystem {
  sy_git : string;                     (** [env!("GIT_HASH")] *)
  sy_has_bpf : bool;
  sy_nodes : nat -> NodeOpen;
  sy_pcap : Pcap;
  sy_dcp : DcpEnv S;
  sy_disc : DiscEnv;
  sy_net : NetEnv T;
  sy_tier : Env T;
  sy_passes : nat;
  sy_ticks : list Tick;
  sy_handler : outcome unit;           (** [install_shutdown_handler] *)
  sy_world : Opening T -> W;
  sy_fuel : nat;
}.
Arguments sy_git {S T W}.
Arguments sy_has_bpf {S T W}.
Arguments sy_nodes {S T W}.
Arguments sy_pcap {S T W}.
Arguments sy_dcp {S T W}.
Arguments sy_disc {S T W}.
Arguments sy_net {S T W}.
Arguments sy_tier {S T W}.
Arguments sy_passes {S T W}.
Arguments sy_ticks {S T W}.
Arguments sy_handler {S T W}.
Arguments sy_world {S T W}.
Arguments sy_fuel {S T W}.

(** What a run of the program did. *)
Record Run (S T W : Type) := mkRun {
  rn_globals : Globals;
  rn_acts : list Act;
  rn_sock : option S;
  rn_locals : option (Locals T);
  rn_session : option (W * list Serve.Ev);
  rn_code : outcome Z;
}.
Arguments mkRun {S T W}.
Arguments rn_globals {S T W}.
Arguments rn_acts {S T W}.
Arguments rn_sock {S T W}.
Arguments rn_locals {S T W}.
Arguments rn_session {S T W}.
Arguments rn_code {S T W}.

Section Run.
Context {S T W : Type} `{RawUdp.PacketSocket S} `{RpcTransport T} `{Serve.World W} (sys : System S T W).
Abbreviation Run := (Run S T W).

Definition quick (g : Globals) (acts : list Act) (code : outcome Z) : Run := mkRun g acts None None None code.
Definition of_dcp (g : Globals) (m : Cli.M S Z) : Run :=
  let '(s, code) := m (mkCli [] None) in mkRun g (cl_out_ s) (cl_sock s) None None code.
Definition of_rpc (o : Outcome T) : Run := mkRun (oc_globals o) (oc_acts o) None (oc_locals o) None (oc_code o).

(** [rpc_connect] of [serve], whose connection outlives it; a failed one is
    dropped. *)
Definition rpc_connect (g : Globals) (target : string) : Globals * list Act * outcome (RpcConn T) :=
  match ne_mac (sy_net sys) with
  | Ok cm_mac =>
      let '(g, acts, o) := rpc_transport (sy_net sys) g target in
      (g, acts,
       let? conn := o in
       let '(s, r) := device_access (sy_passes sys) target cm_mac (mkLocals conn None None []) in
       do? r; Ok (l_conn s))
  | o => (g, [], ignore_ok o)
  end.

Definition cmd_serve (g : Globals) (iface : string) (a : ServeArgs) (cyclic : option ServeCyclic) : Run :=
  match sy_handler sys with
  | Ok _ =>
      let '(g, acts, conn) := rpc_connect g (sa_target a) in
      let '(acts', o) := serve_opening (sy_passes sys) (sy_tier sys) iface (sa_target a) (sa_read_only a) (sa_gap_ms a)
                           (sa_keepalive_ms a) cyclic "15" (Ok tt) conn in
      match o with
      | Ok op =>
          let '(w, evs, r) := Serve.serve_session (sy_fuel sys) (op_config op) (sy_world sys op) in
          mkRun g (acts ++ acts') None None (Some (w, evs)) (let? c := r in match c with Some c => Ok c | None => OutOfFuel end)
      | o => quick g (acts ++ acts') (ignore_ok o)
      end
  | o => quick g [] (ignore_ok o)
  end.

Definition run_serve (g : Globals) (iface : string) (a : ServeArgs) : Run :=
  let '(lines, o) := serve_options (sa_cyclic a) (sa_gsdml a) (sa_cycle_ms a) (sa_watchdog_factor a) (sa_exclude a)
                       (sa_allow_mask a) (sa_bench a) (sa_seconds a) in
  match o with
  | Ok opts => cmd_serve g iface a opts
  | o => quick g (AEmit <$> lines) (ignore_ok o)
  end.

(** The commands that talk to the network. *)
Definition dispatch (g : Globals) (iface : string) (json : bool) (c : Command) : Run :=
  let net := sy_net sys in
  let passes := sy_passes sys in
  match c with
  | Proto | CaptureCheck => quick g [] (Ok 0)
  | Discover => let '(acts, code) := cmd_discover (sy_disc sys) iface json in quick g acts code
  | GetParam t p =>
      of_dcp g (mbind_ (mlift (de_mac (sy_dcp sys))) (fun my_mac => cmd_get_param (sy_dcp sys) my_mac t p))
  | SetParam t p v perm => of_dcp g (run_set (sy_dcp sys) json (CSetParam t p v perm))
  | SetIpCmd t i m gw perm => of_dcp g (run_set (sy_dcp sys) json (CSetIp t i m gw perm))
  | SignalCmd t => of_dcp g (run_set (sy_dcp sys) json (CSignal t))
  | ResetCmd t mode => of_dcp g (run_set (sy_dcp sys) json (CReset t mode))
  | Read t _ slot subslot index n implicit => of_rpc (cmd_read passes net g t slot subslot index n implicit)
  | Write t _ slot subslot index data => of_rpc (cmd_write passes net g t slot subslot index data)
  | ReadInm0Filter t => of_rpc (cmd_read_inm0_filter passes net g t)
  | ReadInm0 a => of_rpc (cmd_read_inm passes net g (im_target a) (im_slot a) (im_subslot a) Im.IM0)
  | ReadInm1 a => of_rpc (cmd_read_inm passes net g (im_target a) (im_slot a) (im_subslot a) Im.IM1)
  | ReadInm2 a => of_rpc (cmd_read_inm passes net g (im_target a) (im_slot a) (im_subslot a) Im.IM2)
  | ReadInm3 a => of_rpc (cmd_read_inm passes net g (im_target a) (im_slot a) (im_subslot a) Im.IM3)
  | CyclicCmd t _ cycle_ms duration submodule exclude =>
      of_rpc (cmd_cyclic passes (sy_tier sys) net g iface t cycle_ms duration submodule exclude (sy_ticks sys))
  | ServeCmd a => run_serve g iface a
  end.

Definition is_serve (c : Command) : bool := match c with ServeCmd _ => true | _ => false end.

(** [run], from statics that are still unset. *)
Definition run (cli : CliArgs) : Run :=
  let pinned := match cli_source_ip cli with
                | Some ip =>
                    if bool_decide (ip = [0; 0; 0; 0]) then Err "--source-ip 0.0.0.0 is not a usable source address"
                    else rd_be32 ip 0
                | None => Ok 0
                end in
  match pinned with
  | Ok source_ip =>
      let c := cli_command cli in
      let g := mkGlobals source_ip (is_serve c) false in
      if cli_json cli && negb (speaks_json c) then
        quick g [] (Err "--json is not answered by this command; see --help for the ones that do")
      else
        match c with
        | Proto => quick g [AEmit (proto_line (sy_git sys))] (Ok 0)
        | CaptureCheck =>
            let '(verdict, tried) := check (sy_has_bpf sys) (sy_nodes sys) (sy_pcap sys) (cli_interface cli) in
            quick g [AEmit (capture_line verdict tried)] (Ok 0)
        | _ =>
            match cli_interface cli with
            | None => quick g [] (Err "--interface <IFACE> is required for this command")
            | Some iface => dispatch g iface (cli_json cli) c
            end
        end
  | o => quick (mkGlobals 0 false false) [] (ignore_ok o)
  end.

(** [main]: what an error adds to stderr, and the process' exit code; none
    while the run is not over. *)
Definition exit_status (o : outcome Z) : list Act * option Z :=
  match o with
  | Ok code => ([], Some code)
  | Err e => ([ANote ("Error: " +:+ e)], Some 1)
  | Panic => ([], Some 101)
  | OutOfFuel => ([], None)
  end.
End Run.

(** The handler of a termination signal, over [SHUTDOWN] and
    [SAFE_TO_HARD_EXIT]: the flag after it, and the code the process exits
    with at once. *)
Definition on_signal (shutdown safe_to_hard_exit : bool) : bool * option Z :=
  (true, if should_hard_exit shutdown safe_to_hard_exit then Some 130 else None).

(** ** Answers under [--json] *)

Section Json.
Context {S T W : Type} `{RawUdp.PacketSocket S} `{RpcTransport T} `{Serve.World W} (sys : System S T W).

(** A line written with exit code 0, carrying the protocol number when
    [proto]; or nothing written and another code. *)
Definition one_line (proto : bool) (acts : list Act) (code : outcome Z) : Prop :=
  match code with
  | Ok c => c = 0 /\ exists j, acts = [AEmit j] /\ (proto = true -> field "proto" j = Some (JNum SERVE_PROTO))
  | _ => acts = []
  end.

Definition mutes {A} (m : Cli.M S A) : Prop := forall s, cl_out_ (fst (m s)) = cl_out_ s.
Definition says (m : Cli.M S Z) : Prop :=
  forall s, cl_out_ s = [] -> one_line true (cl_out_ (fst (m s))) (snd (m s)).

Lemma mutes_lift {A} (o : outcome A) : mutes (mlift o).
Proof. by intros s. Qed.
Lemma mutes_ret {A} (a : A) : mutes (mret a).
Proof. by intros s. Qed.
Lemma mutes_open o : mutes (mopen o).
Proof. intros s. by destruct o. Qed.
Lemma mutes_send frame : mutes (msend frame).
Proof. intros s. unfold msend. destruct (cl_sock s) as [k|]; [|done]. by destruct (RawUdp.sock_send frame k). Qed.
Lemma mutes_await {A} n (judge : list Z -> outcome (option A)) : mutes (mawait n judge).
Proof. intros s. unfold mawait. destruct (cl_sock s) as [k|]; [|done]. by destruct (await_frame n judge k). Qed.
Lemma mutes_map_err {A} f (m : Cli.M S A) : mutes m -> mutes (mmap_err f m).
Proof. intros Hm s. specialize (Hm s). unfold mmap_err. by destruct (m s). Qed.
Lemma mutes_bind {A B} (m : Cli.M S A) (k : A -> Cli.M S B) : mutes m -> (forall a, mutes (k a)) -> mutes (mbind_ m k).
Proof.
  intros Hm Hk s. specialize (Hm s). unfold mbind_. destruct (m s) as [s' [a|e| |]]; cbn in *; [|done..].
  by rewrite Hk.
Qed.
Lemma says_bind {A} (m : Cli.M S A) (k : A -> Cli.M S Z) : mutes m -> (forall a, says (k a)) -> says (mbind_ m k).
Proof.
  intros Hm Hk s Hs. specialize (Hm s). rewrite Hs in Hm. unfold mbind_.
  destruct (m s) as [s' [a|e| |]]; cbn in *; [|done..]. by apply Hk.
Qed.
Lemma says_fail e : says (mfail e).
Proof. by intros s. Qed.

Lemma says_send my_mac action dst request done_ failed_ :
  says (set_send (sy_dcp sys) true my_mac action dst request done_ failed_).
Proof.
  apply says_bind.
  - apply mutes_map_err. unfold dcp_set_roundtrip.
    repeat (apply mutes_bind; [first [apply mutes_lift | apply mutes_open | apply mutes_send | apply mutes_await]|intros ?]).
    apply mutes_ret.
  - intros a s Hs. cbn. rewrite Hs. split; [done|]. eexists. split; [done|]. intros _. by destruct a.
Qed.

Lemma says_set c : says (run_set (sy_dcp sys) true c).
Proof.
  apply says_bind; [apply mutes_lift|intros my_mac].
  destruct c; unfold cmd_set_param, cmd_set_ip, cmd_signal, cmd_reset; cbn [set_banner];
    (apply says_bind; [apply mutes_lift|intros dst]); [destruct (_ <? _); [apply says_fail|]|..];
    repeat (apply says_bind; [first [apply mutes_lift | apply mutes_ret]|intros ?]); apply says_send.
Qed.

Lemma one_line_set g c : let r := of_dcp (T := T) (W := W) g (run_set (sy_dcp sys) true c) in
  one_line true (rn_acts r) (rn_code r).
Proof.
  pose proof (says_set c (mkCli [] None) eq_refl) as Hs. unfold of_dcp.
  by destruct (run_set _ _ _ _) as [s code].
Qed.

Lemma one_line_discover e iface : one_line true (fst (cmd_discover e iface true)) (snd (cmd_discover e iface true)).
Proof.
  unfold cmd_discover. destruct (pcap_discover e) as [ds|err| |]; [|done..].
  destruct (devices_line iface ds) as [j|err| |] eqn:E; [|done..]. split; [done|]. exists j. split; [done|].
  intros _. unfold devices_line in E. apply bind_Ok_inv in E as (l & _ & [= <-]). done.
Qed.

Lemma run_one_line cli : cli_json cli = true -> let r := run sys cli in
  one_line (match cli_command cli with CaptureCheck => false | _ => true end) (rn_acts r) (rn_code r).
Proof.
  intros Hj. cbv zeta. unfold run. rewrite Hj. destruct (match cli_source_ip cli with Some _ => _ | None => _ end); [|done..].
  destruct (cli_command cli) eqn:Hc; cbn [speaks_json negb andb]; try done.
  - cbn. split; [done|]. by eexists.
  - destruct (check _ _ _ _) as [v tried]. cbn. split; [done|]. by eexists.
  - destruct (cli_interface cli); [|done]. cbn [dispatch].
    pose proof (one_line_discover (sy_disc sys) s) as Hd. by destruct (cmd_discover _ _ _).
  - destruct (cli_interface cli); [|done]. apply one_line_set.
  - destruct (cli_interface cli); [|done]. apply one_line_set.
  - destruct (cli_interface cli); [|done]. apply one_line_set.
  - destruct (cli_interface cli); [|done]. apply one_line_set.
Qed.
End Json.

(** C14: Under [--json] a run answers with one line or not at all: either exactly
    one line is written (with the protocol number in it, [capture-check] apart,
    whose line has none) and the exit code is 0, whatever the device, the
    network or the capture said; or nothing is written and the code is another.
    The commands that do not speak JSON, and a refused argument, are among the
    latter. *)
Theorem json_one_line {S T W : Type} `{RawUdp.PacketSocket S} `{RpcTransport T} `{Serve.World W} (sys : System S T W) cli :
  cli_json cli = true ->
  let r := run sys cli in
  (exists j, rn_acts r = [AEmit j] /\ exit_status (rn_code r) = ([], Some 0) /\ speaks_json (cli_command cli) = true /\
     (cli_command cli <> CaptureCheck -> field "proto" j = Some (JNum SERVE_PROTO))) \/
  (rn_acts r = [] /\ snd (exit_status (rn_code r)) <> Some 0).
Proof.
  intros Hj r. pose proof (run_one_line sys cli Hj) as Ho. fold r in Ho. cbv zeta in Ho.
  destruct (rn_code r) as [c|e| |] eqn:Hc; [left|by right..]. destruct Ho as (-> & j & Ha & Hp).
  exists j. split; [done|]. split; [done|]. split.
  - revert Hc. subst r. unfold run. rewrite Hj. destruct (match cli_source_ip cli with Some _ => _ | None => _ end); [|done..].
    by destruct (speaks_json (cli_command cli)).
  - intros Hn. apply Hp. by destruct (cli_command cli).
Qed.

(** ** What a run leaves *)

Section Leaves.
Context {S T W : Type} `{RawUdp.PacketSocket S} `{RpcTransport T} `{Serve.World W} (sys : System S T W).
Hypothesis Hsend : forall b t, safe (snd (send_request b t)).

Lemma locals_of_dcp g m : rn_locals (of_dcp (S := S) (T := T) (W := W) g m) = None.
Proof. unfold of_dcp. by destruct (m _). Qed.

(** C16: A one-shot command leaves nothing behind.  However it ended (an error
    and a panic included), once a command that got to a connection is over every
    AR it opened is down, the one it replaced included, and its controller has
    stopped. *)
Theorem commands_leave_nothing cli s :
  (forall m, ne_mac (sy_net sys) = Ok m -> length m = 6%nat) ->
  Forall Dcp.recv_typed (di_recvs (ne_disc (sy_net sys))) ->
  rn_code (run sys cli) <> OutOfFuel -> rn_locals (run sys cli) = Some s -> all_down s.
Proof using Hsend.
  intros Hm Hd. unfold run. destruct (match cli_source_ip cli with Some _ => _ | None => _ end); [|done..].
  destruct (cli_json cli && _); [done|].
  destruct (cli_command cli); try (by destruct (check _ _ _ _)); try done;
    (destruct (cli_interface cli); [|done]); cbn [dispatch of_rpc rn_code rn_locals].
  - by destruct (cmd_discover _ _ _).
  - by rewrite locals_of_dcp.
  - by rewrite locals_of_dcp.
  - intros _. by apply cmd_read_down.
  - intros _. by apply cmd_write_down.
  - intros _. by apply cmd_filter_down.
  - intros _. by apply cmd_inm_down.
  - intros _. by apply cmd_inm_down.
  - intros _. by apply cmd_inm_down.
  - intros _. by apply cmd_inm_down.
  - by rewrite locals_of_dcp.
  - by rewrite locals_of_dcp.
  - by rewrite locals_of_dcp.
  - intros Hne. by apply (cyclic_ends (sy_passes sys) Hsend (sy_tier sys)).
  - unfold run_serve. destruct (serve_options _ _ _ _ _ _ _ _) as [lines [opts|e| |]]; try done.
    unfold cmd_serve. destruct (sy_handler sys); [|done..]. destruct (rpc_connect _ _ _) as [[g acts] conn].
    destruct (serve_opening _ _ _ _ _ _ _ _ _ _ _) as [acts' [op|e| |]]; try done.
    by destruct (Serve.serve_session _ _ _) as [[w evs] r].
Qed.
End Leaves.

(** ** Who may drive outputs *)

Section Consent.
Context {S T W : Type} `{RawUdp.PacketSocket S} `{RpcTransport T} `{Serve.World W} (sys : System S T W).
Hypothesis Hsend : forall b t, safe (snd (send_request b t)).
Hypothesis Hmac : forall m, e_mac (sy_tier sys) = Ok m -> length m = 6%nat.
Hypothesis Hdev : forall d, e_resolve (sy_tier sys) = Ok d -> length (Dcp.mac d) = 6%nat.

(** What a caller of [serve] has asked for before a bit of [d] may be set. *)
Definition consented (a : ServeArgs) (d : list Z) : Prop :=
  sa_cyclic a = true /\ (exists path, sa_gsdml a = Some path) /\ sa_bench a = true /\ sa_read_only a = false /\
  exists b, d = [b] /\ within (sa_allow_mask a) b.

(** The output's read-back that found the safe image. *)
Definition probed (acts : list Act) : Prop :=
  exists slot subslot record, ARead 0x8029 slot subslot (inl record) ∈ acts /\ output_is_safe record = Ok true.

Lemma session_of_dcp g m : rn_session (of_dcp (S := S) (T := T) (W := W) g m) = None.
Proof. unfold of_dcp. by destruct (m _). Qed.

Lemma serve_drives g iface a w evs d ok : byte_ok (sa_allow_mask a) ->
  rn_session (run_serve sys g iface a) = Some (w, evs) -> Serve.Drive d ok ∈ evs ->
  d = [0] \/ (consented a d /\ probed (rn_acts (run_serve sys g iface a))).
Proof using Hsend Hmac Hdev.
  intros Hb. unfold run_serve. destruct (serve_options _ _ _ _ _ _ _ _) as [lines [opts|e| |]] eqn:Eo; try done.
  unfold cmd_serve. destruct (sy_handler sys) as [[]|e| |]; [|done..].
  destruct (rpc_connect sys g (sa_target a)) as [[g1 acts] conn].
  destruct (serve_opening _ _ _ _ _ _ _ _ _ _ _) as [acts' [op|e| |]] eqn:Es; try done.
  destruct (driving_needs_consent _ _ _ _ _ _ _ _ _ _ _ _ _ _ _ _ _ _ _ _ _ _ Hsend Hmac Hdev Eo Es) as [_ Hc].
  destruct (Serve.serve_session _ _ _) as [[w1 evs1] r] eqn:Er. cbn [rn_session rn_acts]. intros [= <- <-] Hin.
  set (m := Serve.c_allow_mask (op_config op)) in *.
  assert (Hauth : byte_ok m -> exists b, d = [b] /\ within m b).
  { intros Hm. pose proof (proj1 (Serve.auth_with_drops (op_config op) _ (Serve.auth_session (op_config op) Hm (sy_fuel sys))
      (sy_world sys op))) as Ha. unfold Serve.serve_session in Er. unfold Serve.events in Ha. rewrite Er in Ha.
    rewrite Forall_forall in Ha. exact (Ha _ Hin). }
  destruct (decide (m = 0)) as [Hz|Hnz].
  - left. destruct Hauth as (b & -> & Hw); [rewrite Hz; unfold byte_ok; lia|]. rewrite Hz in Hw. by rewrite (within_none b).
  - right. destruct (Hc Hnz) as (E1 & E2 & E3 & E4 & Hm & (rec & Hr & Hs) & _). rewrite Hm in Hauth. split.
    + split_and!; try done. by apply Hauth.
    + exists (Serve.c_out_slot (op_config op)), (Serve.c_out_subslot (op_config op)), rec.
      split; [|done]. apply elem_of_app. by right.
Qed.

(** C10: Whatever the command line, the network, the device and the caller on
    stdin do, a run of the program hands its controller an output byte other
    than zero only if it is [serve] with [--cyclic], a GSDML,
    [--i-am-on-the-bench] and without [--read-only], the byte has only bits of
    [--allow-mask], and a read-back of the device's output had found it safe
    before the takeover. *)
Theorem outputs_need_consent cli w evs d ok :
  (forall a, cli_command cli = ServeCmd a -> byte_ok (sa_allow_mask a)) ->
  rn_session (run sys cli) = Some (w, evs) -> Serve.Drive d ok ∈ evs ->
  d = [0] \/ ((exists a, cli_command cli = ServeCmd a /\ consented a d) /\ probed (rn_acts (run sys cli))).
Proof using Hsend Hmac Hdev.
  intros Hb. unfold run. destruct (match cli_source_ip cli with Some _ => _ | None => _ end) as [pin|e| |]; [|done..].
  destruct (cli_json cli && _); [done|].
  destruct (cli_command cli) as [| | | | | | | | | | | | | | | |a];
    try done; try (by destruct (check _ _ _ _)); (destruct (cli_interface cli); [|done]); cbn [dispatch]; try done;
    try (by rewrite session_of_dcp).
  - by destruct (cmd_discover _ _ _).
  - intros Hs Hin. destruct (serve_drives _ _ a _ _ _ _ (Hb a eq_refl) Hs Hin) as [Hz|[Hc Hp]]; [by left|right].
    split; [by exists a|exact Hp].
Qed.
End Consent.

(** ** A system to run it on *)

(** The device answers discovery as [io-1], serves its layout, its inputs and
    its output over an AR, takes a cyclic AR, and refuses an IP address. *)
Definition demo_wire : RawUdp.Wire :=
  {| RawUdp.w_rx := [rep 60 0; set_response (rep 6 2) (rep 6 4) [] 77 1 2 3 [0; 0]]; RawUdp.w_tx := [] |}.
Definition demo_access : Opened Script :=
  mkOpened (demo_script
    [reply (rep 16 1) 0 Rpc.CONNECT []; read_reply (rep 16 1) 1 demo_device_slots;
     read_reply (rep 16 1) 2 (demo_input_record 2); read_reply (rep 16 1) 3 (demo_output_record 0)] [])
    (rep 16 1) (rep 16 2) 3.
#[local] Existing Instance Serve.Demo.bench_world.
#[local] Notation demo_system :=
  (mkSystem RawUdp.Wire Script Serve.Demo.Bench "0123abc" false (fun _ => NodeErr None)
     (mkPcap (inl ["eth0"]) (fun _ => None) (fun _ => None))
     (mkDcpEnv (Ok (rep 6 2)) (Ok 77) (Ok demo_wire) 5)
     (mkDiscEnv (Ok tt) (Ok (rep 6 1)) (Ok 77) None [Dcp.RecvFrame Dcp.answer0])
     (mkNetEnv false (Ok (rep 6 1)) (mkDiscEnv (Ok tt) (Ok (rep 6 1)) (Ok 77) None [Dcp.RecvFrame Dcp.answer0])
        (fun _ => Ok {| Dcp.s_ip := [192; 168; 0; 2]; Dcp.reaches_target := true |}) (Ok demo_access))
     (demo_env (Ok demo_opened) None) 5 demo_ticks (Ok tt) (fun _ => Serve.Demo.bench) 10).
Definition demo_cli (json : bool) (c : Command) : CliArgs := mkArgs (Some "eth0") None 10 json c.
Definition demo_serve (bench : bool) : Command :=
  ServeCmd (mkServeArgs "io-1" false 20 0 true (Some "demo.xml") 32 3 false 3 bench 0).

Definition demo_set_ip : Command := SetIpCmd "04:04:04:04:04:04" "192.168.0.9" "255.255.255.0" "0.0.0.0" false.

(** The refusal is a line, and the exit code 0. *)
Example json_one_line_witness :
  let r := run demo_system (demo_cli true demo_set_ip) in
  rn_acts r = [AEmit (result_line SetIp (rep 6 4) (Refused (Some 3) (Dcp.block_error_name 3)))] /\
  exists j, rn_acts r = [AEmit j] /\ exit_status (rn_code r) = ([], Some 0).
Proof.
  assert (E : rn_acts (run demo_system (demo_cli true demo_set_ip))
    = [AEmit (result_line SetIp (rep 6 4) (Refused (Some 3) (Dcp.block_error_name 3)))]) by (vm_compute; reflexivity).
  split; [exact E|].
  destruct (json_one_line demo_system (demo_cli true demo_set_ip) eq_refl) as [(j & H1 & H2 & _)|[H1 _]].
  - exists j. split; [exact H1|exact H2].
  - rewrite E in H1. discriminate H1.
Defined.

(** The first level bit the session is asked for. *)
Example outputs_need_consent_witness :
  exists w evs, rn_session (run demo_system (demo_cli false (demo_serve true))) = Some (w, evs) /\
    Serve.Drive [1] true ∈ evs /\ probed (rn_acts (run demo_system (demo_cli false (demo_serve true)))).
Proof.
  assert (E : exists w evs, rn_session (run demo_system (demo_cli false (demo_serve true))) = Some (w, evs) /\
    Serve.Drive [1] true ∈ evs).
  { eexists _, _. split; [vm_compute; reflexivity|]. do 3 (apply list_elem_of_further). apply list_elem_of_here. }
  destruct E as (w & evs & E & Hin). exists w, evs. split; [exact E|]. split; [exact Hin|].
  assert (Hm : forall m, e_mac (sy_tier demo_system) = Ok m -> length m = 6%nat) by (by intros m [= <-]).
  assert (Hd : forall d, e_resolve (sy_tier demo_system) = Ok d -> length (Dcp.mac d) = 6%nat) by (by intros d [= <-]).
  assert (Hb : forall a, cli_command (demo_cli false (demo_serve true)) = ServeCmd a -> byte_ok (sa_allow_mask a)).
  { intros a Ha. injection Ha as <-. vm_compute. split; congruence. }
  destruct (outputs_need_consent (H0 := script_transport) demo_system (fun _ _ => I) Hm Hd (demo_cli false (demo_serve true)) w evs [1] true Hb E Hin)
    as [Hz|[_ Hp]]; [discriminate Hz|exact Hp].
Defined.

Example commands_leave_nothing_witness :
  let r := run demo_system (demo_cli false (CyclicCmd "io-1" "demo.xml" 32 1 [] false)) in
  rn_code r = Ok 0 /\ exists s, rn_locals r = Some s /\ all_down s.
Proof.
  set (cli := demo_cli false (CyclicCmd "io-1" "demo.xml" 32 1 [] false)). cbv zeta.
  assert (E : rn_code (run demo_system cli) = Ok 0) by (vm_compute; reflexivity).
  assert (El : exists s, rn_locals (run demo_system cli) = Some s) by (eexists; vm_compute; reflexivity).
  split; [exact E|]. destruct El as [s El]. exists s. split; [exact El|].
  assert (Hm : forall m, ne_mac (sy_net demo_system) = Ok m -> length m = 6%nat) by (by intros m [= <-]).
  assert (Hd : Forall Dcp.recv_typed (di_recvs (ne_disc (sy_net demo_system)))).
  { constructor; [|constructor]. apply (bool_decide_unpack (bytes_ok Dcp.answer0)). vm_compute. exact I. }
  assert (Hne : rn_code (run demo_system cli) <> OutOfFuel) by (rewrite E; discriminate).
  exact (commands_leave_nothing (H0 := script_transport) demo_system (fun _ _ => I) cli s Hm Hd Hne El).
Defined.

(** ** Where the arguments and the lines differ from their description *)

Section Divergences.
Context {S T W : Type} `{RawUdp.PacketSocket S} `{RpcTransport T} `{Serve.World W} (sys : System S T W).

(** [--api] of the record commands reaches no request. *)
Lemma api_ignored g iface json t api api' slot subslot index n implicit data :
  dispatch sys g iface json (Read t api slot subslot index n implicit)
    = dispatch sys g iface json (Read t api' slot subslot index n implicit) /\
  dispatch sys g iface json (Write t api slot subslot index data)
    = dispatch sys g iface json (Write t api' slot subslot index data) /\
  dispatch sys g iface json (ReadInm0 (mkImArgs t api slot subslot))
    = dispatch sys g iface json (ReadInm0 (mkImArgs t api' slot subslot)).
Proof. done. Qed.

(** The hello line of a session is not always the first: a request to drive
    outputs without the bench flag is refused in a line of its own, and a source
    address outside the device's network is warned about before the AR is up. *)
Lemma hello_not_first g iface a :
  (sa_cyclic a = true -> (exists path, sa_gsdml a = Some path) -> sa_allow_mask a <> 0 -> sa_bench a = false ->
   rn_acts (run_serve sys g iface a) = [AEmit (refused_setup_line "missing --i-am-on-the-bench")]) /\
  (forall cm dev ip note opts, sy_handler sys = Ok tt -> ne_mac (sy_net sys) = Ok cm ->
     resolve_device (ne_disc (sy_net sys)) (sa_target a) = Ok dev -> g_note_said g = false -> g_serve_mode g = true ->
     chosen_source g (ne_toward (sy_net sys)) (Dcp.ip dev) = Ok (ip, Some note) ->
     exists rest, rn_acts (cmd_serve sys g iface a opts) = AEmit (warning_line "source_address" note) :: rest).
Proof.
  split.
  - intros Hc [path Hg] Hm Hb. unfold run_serve, serve_options. rewrite Hc, Hg, Hb. cbn [negb].
    by destruct (Z.eqb_spec (sa_allow_mask a) 0).
  - intros cm dev ip note opts Hh Hm Hd Hn Hs Hch. unfold cmd_serve, rpc_connect, rpc_transport, source_address, report_source_note.
    rewrite Hh, Hm. cbn [bind]. rewrite Hd, Hch, Hn, Hs. cbv beta iota zeta.
    destruct (serve_opening _ _ _ _ _ _ _ _ _ _ _) as [acts' [op|e| |]]; cbn [quick rn_acts app]; try by eexists.
    destruct (Serve.serve_session _ _ _) as [[w evs] r]. cbn [rn_acts app]. by eexists.
Qed.
End Divergences.
